(* ===== verification/_CoqProject ===== *)
-Q . S2P
Prelude.v
GoStrings.v
Utf8.v
Json.v
JsonProofs.v
Model.v
LogBuffer.v
AtomicFile.v
JobRepository.v
JobJson.v
JobJsonProofs.v
HostCommand.v
Capabilities.v
ExecutionPlan.v
ExecutionPlanProofs.v
Wrapper.v
WrapperStore.v
WrapperProofs.v
RunService.v
RunServiceProofs.v
RunServiceSpec.v
History.v
HistoryProofs.v
HostExecutor.v
HostExecutorProofs.v
LogStream.v
LogStreamProofs.v
ExecutorStart.v
RunPipeline.v
Scheduler.v
SchedulerProofs.v
SchedulerSteps.v
JobApi.v
JobApiProofs.v
JobRules.v
WatchManager.v
WatchManagerProofs.v
WatchSteps.v
WatchReconcile.v
HostFiles.v
PersistentScheduler.v
PersistentProofs.v
SystemService.v
SystemProofs.v
Auth.v
AuthProofs.v
App.v
AppProofs.v
ShutdownProofs.v
LegacyApi.v
LegacyProofs.v
ImportScanner.v
ImportProofs.v
Secrets.v
Remotes.v
RemotesProofs.v
Events.v
EventsProofs.v
WatchTree.v
WatchTreeProofs.v
WatchWorkers.v
WebRoutes.v
WebRoutesProofs.v
Codecs.v
CodecsProofs.v
RequestJson.v
Main.v
TriggerOrder.v
LegacyCommand.v
