(* ===== verification/Prelude.v ===== *)
(** * SyncBridge: a verification of the Go program

    SyncBridge ([src/cmd/syncbridge], one Go package) runs sync, command and
    script jobs on the host of the container it lives in.  Jobs are kept in one
    JSON file; a job starts by hand, by cron, by changes below a directory, or
    from artifacts it leaves with the host's own cron and systemd.  Every run
    goes the same way: the job is compiled into a plan, the plan is rendered into
    a root-owned wrapper script, the wrapper is installed on the host through
    [nsenter] and started as the leader of a process group, its output is streamed
    into a bounded log, and its end is written to a history.  A web interface
    drives all this through a versioned API, and the v1 API kept for the older
    pages.

    ** How the parts interact

    [App.v] puts the parts together.  HTTP handlers ([JobApi.v], [LegacyApi.v],
    [SystemService.v], [Remotes.v], [WebRoutes.v]) stand behind the login gate
    ([Auth.v]).  They change jobs in the repository ([JobRepository.v], whose file
    is replaced by [AtomicFile.v]) and then reconcile the three trigger components
    with the jobs: [Scheduler.v] (cron), [WatchManager.v] with [WatchTree.v]
    (directories) and [PersistentScheduler.v] (the host's cron and systemd).
    Triggers and handlers ask [RunService.v] for runs.  It calls the compiler
    ([ExecutionPlan.v], on the report of [Capabilities.v]), the renderer and the
    wrapper store ([Wrapper.v], [WrapperStore.v]), the executor
    ([ExecutorStart.v], [HostExecutor.v], [LogStream.v]) and the history
    ([History.v]), and it publishes the events that [Events.v] streams.

    ** Files and sources

    - [Prelude.v]: machine integers, errors as values, the state and error monad
      [SE] with a small Hoare logic, tactics and hints.  [GoStrings.v]: the parts of
      [strings], [strconv], [path/filepath] and [encoding/hex] the code uses.
    - [Utf8.v]: the runes of a string.  [Json.v], [JsonProofs.v]: Go's JSON, printed,
      parsed and decoded into struct fields.
    - [Model.v]: the records of [model.go].
    - [LogBuffer.v]: [log_buffer.go].  [AtomicFile.v]: [atomic_file.go], over a
      file system whose every call may fail.  [JobRepository.v]:
      [job_repository.go].  [JobJson.v], [JobJsonProofs.v]: the JSON of jobs in both
      shapes, and of the repository's file.
    - [HostCommand.v]: [host_command.go], [host_filesystem.go].
      [Capabilities.v]: [capabilities.go].
    - [ExecutionPlan.v], [ExecutionPlanProofs.v]: [execution_plan.go].
      [Wrapper.v], [WrapperProofs.v], [WrapperStore.v]: [wrapper.go].
    - [RunService.v], [RunServiceProofs.v] (invariant), [RunServiceSpec.v]
      (theorems): [run_service.go].  [History.v], [HistoryProofs.v]: [history.go],
      [run_effects.go], [appendRunHistory].
    - [HostExecutor.v] ([control], [reap], process groups), [LogStream.v] (sink and
      splitter), [ExecutorStart.v] ([Start], the handle), with their proofs:
      [host_executor.go].  [RunPipeline.v]: [execute] of [run_service.go] with the
      compiler, the wrapper store and the executor of this repository.
    - [Scheduler.v], [SchedulerProofs.v] (one reconciliation), [SchedulerSteps.v]
      (all interleavings): [scheduler.go].  [WatchManager.v], [WatchManagerProofs.v]
      (the invariant), [WatchSteps.v] (all interleavings), [WatchReconcile.v] (one
      reconciliation), [WatchTree.v], [WatchTreeProofs.v] (the walks), [WatchWorkers.v]
      (the goroutines of a watch): [watch_manager.go].
    - [JobApi.v], [JobApiProofs.v], [JobRules.v] (which jobs are accepted):
      [api_v1.go], [api_v1_jobs.go], the run handlers of [app.go].  [LegacyApi.v], [LegacyProofs.v]: [api_legacy.go] and
      the job checks of [main.go].
    - [HostFiles.v], [PersistentScheduler.v], [PersistentProofs.v]:
      [persistent_scheduler.go].  [SystemService.v], [SystemProofs.v]:
      [system_service.go].  [ImportScanner.v], [ImportProofs.v]:
      [import_scanner.go].
    - [Auth.v], [AuthProofs.v]: [auth.go].  [Secrets.v]: [secrets.go].
      [Remotes.v], [RemotesProofs.v]: [remote.go].  [Events.v],
      [EventsProofs.v]: the two event streams of [app.go] and [api_legacy.go].
      [WebRoutes.v], [WebRoutesProofs.v]: the table of routes, [notify.go],
      [healthcheck.go], [apiBrowse].
    - [Codecs.v], [CodecsProofs.v]: the JSON of the other files, of events and of
      request bodies.  [RequestJson.v]: the strict decoding of [decodeStrictJSON].
    - [App.v], [AppProofs.v], [ShutdownProofs.v]: [NewProductionApp],
      [reconcileTriggers] and [App.Close].  [TriggerOrder.v]: handlers whose critical
      sections interleave.  [Main.v]: [main], from the arguments to the exit status.
    - [LegacyCommand.v]: the commands of version 1 in [main.go].

    A definition has the name of the Go function where Rocq allows it; a method of
    a type that shares its name with another component's is told apart by its file.
    State is passed explicitly.  A function with an error returns [result]; one
    that also changes state is in [SE], which keeps the new state of a failure.

    ** Concurrency

    What a mutex protects is changed in critical sections, each one a function.
    The run service, the cron scheduler and the watch manager are step relations
    over all interleavings of their sections, goroutines, timers and the answers of
    what they call; a reconciliation of the scheduler is also one function, which
    [SchedulerSteps.v] takes apart, since its callbacks run between its pieces.  The repository and the history hold their locks for a whole
    operation, so an operation is one function.  A handler is the sequence of its
    calls; the theorems about handlers say what these decide, with no other request
    in between, and [TriggerOrder.v] says what becomes of the schedules when the
    sections of several handlers interleave.  Go maps are iterated in any order: where the order shows in an
    answer, it is that of the model's map.

    ** What the theorems show

    - Jobs: the repository refines an abstract view with revisions, on disk and in
      memory, on every failure of the disk; loading and migrating a file; both job
      APIs refine the repository's specification and reconcile the triggers after
      each success, and where they answer an internal error instead, something on the
      disk or in the encoding was in the way ([steady], [undisturbed]); exactly the
      well-formed jobs are accepted; the v1 form of a job, sent back unchanged, denotes
      the same job; the text of the repository's file, of the
      other files and of request bodies is read back as what was written.
    - Runs: the runs of a job exclude each other, a finished run stays finished, the
      history is gapless, written once per run and always drained; the event stream
      is numbered without gaps, and a client that reconnects gets exactly what is
      kept after its last event.
    - Execution: what a compiled plan guarantees whatever the host answers; sync
      command lines; the environment; that the shell reads the wrapper's last
      command as exactly the intended words; the exact command sequence of an
      installation; starting a wrapper on every branch; which signals the process
      group gets, when the controller returns and that it ends; that the scanner
      finds the lines the log buffer defines for any split of the output; and, for
      all of these together under any interleaving, that the process of a run is
      the installed wrapper of the plan compiled for the run's job and request.
    - Triggers: registrations and watchers are exactly those the jobs ask for; a
      callback starts a run only for the current registration; every requested run
      names an eligible job some reconciliation was given; a malformed job keeps what it
      had and the others are reconciled, and a refusal of the engine or the host changes
      nothing for all; the poller notices
      exactly the changes of metadata; which directories are watched; the host's
      artifacts are exactly those of the eligible jobs, and nothing else of the host
      is touched; all three together place every job once; overlapping handlers leave
      the schedules of the repository when the newest list is reconciled last.
    - The process: its exit statuses; the shutdown leaves nothing that starts, and
      stops the process groups of exactly the runs that were running, each of them for
      certain when time is left; every other run is final or told to stop.
    - The host's schedules: toggling, deleting and restoring change one entry; only
      items a fresh scan lists are acted on; our own artifacts are recognised; a
      command found in a script is read as it was quoted.
    - The server: behind the gate nothing is answered without a session of a
      verified login at most seven days old; the throttle; the account; a stored
      remote can be logged in to with the password that was typed.

    Lemmas named in the list of findings show behaviour the code does not intend,
    each on a concrete state or under stated conditions.

    ** Parameters

    Code outside the repository is an interface (a class) with the laws the code
    relies on: the cron engine ([CronEngine], [CronLaws]), bcrypt ([AuthLib]), AES-GCM and SHA-256 ([Crypto]), the commands of the host
    ([HostCommandRunner]), the kernel's processes ([ProcessGroup], [ProcTable],
    [Launcher]), file events and globs ([WatchHost]), directory trees
    ([TreeHost], [HostTree], [HostDirs]) and HTTP requests ([RemoteHTTP],
    [SettingsLib]).  JSON is an interface to the components ([JobCodec],
    [HistoryCodec], [TrashCodec], [RemoteCodec], [AuthLib], [SettingsLib], [EventCodec],
    [JSONDecoder], [SystemDecoder]), whose laws the codecs of the program keep:
    [production_codec] and its like in [CodecsProofs.v] and [RequestJson.v].
    [HostInspector] is an interface of the source; [runnerHostInspector] is its
    production instance, and [tree_watch_host] makes the watch manager's host out
    of a tree.  Random bytes and the time are arguments.  Every theorem with a
    hypothesis has a witness on concrete instances of these classes.

    ** Bounds and fuel

    Go's integers wrap around at 64 bits where the code can overflow them
    ([wrap_s64], [wrap_u64]).  Recursion that is not structural carries fuel that
    is always enough: the length of the string for functions that consume at least
    a byte per round ([TrimSpaceLeft], [Fields], [runes], [append_loop],
    [bracket_option]), thirty digits for 64-bit numbers ([FormatUint]), twice the
    bytes and reads of an input for the scanner ([scan_fuel], with the lemmas of
    [LogStreamProofs.v] that more fuel changes nothing), two units a byte for the
    parser of JSON ([parse_fuel_enough]), and the 21 octal digits of a positive
    64-bit number for [octal_len].

    ** Not modelled

    - The web interface (Svelte), which the program only embeds, and the file server
      that serves it.
    - The sockets and the protocol of the HTTP server, the delivery of signals, the
      hourly loop of [pruneSessions], and the wrappers around fsnotify, tickers and
      timers.  What the server does between its start and the shutdown is an argument
      of [main].
    - Contexts: a call is not cancelled from outside, except where cancelling is
      the point (runs, watch handles, the context of the watch manager and its parent's,
      and the shutdown).  Deadlines of HTTP clients and
      probes.  Checks that a pointer is not nil.
    - The JSON of responses other than jobs and events; the text of decoding errors;
      what the standard output shows. *)

From stdpp Require Export base tactics list gmap strings sorting.
From Stdlib Require Export ZArith Lia Ascii.

#[export] Set Default Goal Selector "!".

(** * Machine integers

    Go's [int], [int64] and [time.Duration] are 64-bit two's-complement numbers
    and [uint64] is a 64-bit unsigned number; both wrap around silently. *)

Definition two64 : Z := 18446744073709551616.
Definition two63 : Z := 9223372036854775808.

Definition wrap_u64 (z : Z) : Z := (z mod two64)%Z.
Definition wrap_s64 (z : Z) : Z := ((z + two63) mod two64 - two63)%Z.

Definition in_u64 (z : Z) : Prop := (0 <= z < two64)%Z.
Definition in_s64 (z : Z) : Prop := (- two63 <= z < two63)%Z.

Lemma wrap_u64_in z : in_u64 (wrap_u64 z).
Proof. unfold in_u64, wrap_u64, two64. pose proof (Z.mod_pos_bound z 18446744073709551616). lia. Qed.

Lemma wrap_s64_in z : in_s64 (wrap_s64 z).
Proof.
  unfold in_s64, wrap_s64, two64, two63.
  pose proof (Z.mod_pos_bound (z + 9223372036854775808) 18446744073709551616). lia.
Qed.

Lemma wrap_u64_id z : in_u64 z -> wrap_u64 z = z.
Proof. intros H. unfold wrap_u64. apply Z.mod_small. exact H. Qed.

Lemma wrap_s64_id z : in_s64 z -> wrap_s64 z = z.
Proof.
  unfold in_s64, wrap_s64, two63, two64. intros H.
  rewrite Z.mod_small; lia.
Qed.

Create HintDb goint.
#[export] Hint Resolve wrap_u64_in wrap_s64_in : goint.
#[export] Hint Rewrite wrap_u64_id wrap_s64_id using (unfold in_u64, in_s64, two63, two64 in *; lia) : goint.

(** * Errors

    [ErrNew] is a fresh [errors.New] or [fmt.Errorf] value, [ErrVar] a package
    level sentinel such as [ErrOverlap] (sentinels are told apart by their
    message), [ErrWrap] a [fmt.Errorf] with one %w verb between two texts, and
    [ErrJoin] the value of [errors.Join]. *)

Inductive goerror :=
  | ErrNew (msg : string)
  | ErrVar (msg : string)
  | ErrWrap (pre : string) (e : goerror) (post : string)
  | ErrJoin (es : list goerror).

Fixpoint errors_Is (e : goerror) (target : string) : bool :=
  match e with
  | ErrNew _ => false
  | ErrVar m => bool_decide (m = target)
  | ErrWrap _ e _ => errors_Is e target
  | ErrJoin es => existsb (fun e => errors_Is e target) es
  end.

Definition newline : string := String (Ascii.ascii_of_nat 10) EmptyString.

Fixpoint error_text (e : goerror) : string :=
  match e with
  | ErrNew m => m
  | ErrVar m => m
  | ErrWrap a e b => a +:+ error_text e +:+ b
  | ErrJoin es =>
      (fix go (es : list goerror) : string :=
         match es with
         | [] => ""
         | [e] => error_text e
         | e :: es => error_text e +:+ newline +:+ go es
         end) es
  end.

(** [errors.Join]: nil errors are dropped, and the join of nothing is nil. *)
Definition errors_Join (es : list (option goerror)) : option goerror :=
  match omap id es with
  | [] => None
  | l => Some (ErrJoin l)
  end.

Lemma errors_Join_None es : errors_Join es = None <-> Forall (fun e => e = None) es.
Proof.
  unfold errors_Join. split.
  - intros H. induction es as [|[e|] es IH]; simpl in *; [constructor|done|].
    constructor; [done|]. by apply IH.
  - intros H. assert (omap id es = []) as ->; [|done].
    induction H as [|e es -> _ IH]; [done|]. simpl. exact IH.
Qed.

(** * Results: a value or an error *)

Inductive result (A : Type) : Type :=
  | Ok (a : A)
  | Err (e : goerror).
Arguments Ok {_} _.
Arguments Err {_} _.

#[export] Instance result_ret : MRet result := fun _ a => Ok a.
#[export] Instance result_bind : MBind result := fun _ _ f m =>
  match m with Ok a => f a | Err e => Err e end.

Definition is_Ok {A} (r : result A) : bool := match r with Ok _ => true | Err _ => false end.

(** [if b { return e }] *)
Definition fail_if (b : bool) (e : goerror) : result unit := if b then Err e else Ok tt.

(** [if err != nil { return fmt.Errorf("pre: %w", err) }] *)
Definition wrap_err {A} (pre : string) (r : result A) : result A :=
  match r with Ok a => Ok a | Err e => Err (ErrWrap pre e "") end.

(** [if err != nil { return errors.New(msg) }]: the cause is dropped. *)
Definition replace_err {A} (msg : string) (r : result A) : result A :=
  match r with Ok a => Ok a | Err _ => Err (ErrNew msg) end.

Definition err_of {A} (r : result A) : option goerror :=
  match r with Ok _ => None | Err e => Some e end.

Lemma bind_Ok {A B} (m : result A) (f : A -> result B) b :
  (x ← m; f x) = Ok b <-> exists a, m = Ok a /\ f a = Ok b.
Proof.
  destruct m; simpl; split; try naive_solver.
Qed.

Lemma fail_if_Ok b e u : fail_if b e = Ok u <-> b = false.
Proof. destruct b, u; simpl; naive_solver. Qed.

Lemma fail_bind {A} b e (m : result A) a : (_ ← fail_if b e; m) = Ok a <-> b = false /\ m = Ok a.
Proof. destruct b; simpl; naive_solver. Qed.

Lemma wrap_err_Ok {A} p (r : result A) a : wrap_err p r = Ok a <-> r = Ok a.
Proof. destruct r; simpl; naive_solver. Qed.

Lemma replace_err_Ok {A} p (r : result A) a : replace_err p r = Ok a <-> r = Ok a.
Proof. destruct r; simpl; naive_solver. Qed.

Lemma err_of_None {A} (r : result A) : err_of r = None <-> exists a, r = Ok a.
Proof. destruct r; simpl; naive_solver. Qed.

Create HintDb gores.
#[export] Hint Rewrite @bind_Ok fail_if_Ok @wrap_err_Ok @replace_err_Ok : gores.

(** [res_inv]: turn a hypothesis that a composed computation returned [Ok] into
    the facts of its parts. *)
Ltac res_inv_step :=
  match goal with
  | H : mbind _ _ = Ok _ |- _ => apply bind_Ok in H; destruct H as (? & ? & ?)
  | H : fail_if _ _ = Ok _ |- _ => apply fail_if_Ok in H
  | H : wrap_err _ _ = Ok _ |- _ => apply wrap_err_Ok in H
  | H : replace_err _ _ = Ok _ |- _ => apply replace_err_Ok in H
  | H : ?r = Ok _ |- _ => is_var r; subst r
  | H : Ok _ = Ok _ |- _ => injection H as H; subst
  | H : mret _ = Ok _ |- _ => injection H as H; subst
  | H : Err _ = Ok _ |- _ => discriminate H
  | H : Ok _ = Err _ |- _ => discriminate H
  | H : (if ?b then Err _ else _) = Ok _ |- _ => destruct b eqn:?; [discriminate H|]
  | H : unit |- _ => destruct H
  end.
Ltac res_inv := repeat res_inv_step.

(** * Stateful computations that can fail

    [SE S A] threads a state [S] (a file system, a host, a service) and returns
    a value or an error; the state reached before an error is kept, as in Go. *)

Definition SE (S A : Type) : Type := S -> result A * S.

#[export] Instance SE_ret S : MRet (SE S) := fun _ a s => (Ok a, s).
#[export] Instance SE_bind S : MBind (SE S) := fun _ _ f m s =>
  match m s with
  | (Ok a, s') => f a s'
  | (Err e, s') => (Err e, s')
  end.

Definition lift {S A} (r : result A) : SE S A := fun s => (r, s).
Definition se_map {S A} (f : result A -> result A) (m : SE S A) : SE S A :=
  fun s => let (r, s') := m s in (f r, s').
Definition get_state {S} : SE S S := fun s => (Ok s, s).
Definition put_state {S} (s' : S) : SE S unit := fun _ => (Ok tt, s').
Definition modify_state {S} (f : S -> S) : SE S unit := fun s => (Ok tt, f s).
(** [v, err := m]: the error becomes a value the caller inspects. *)
Definition attempt {S A} (m : SE S A) : SE S (result A) :=
  fun s => let (r, s') := m s in (Ok r, s').

Lemma SE_bind_unfold {S A B} (m : SE S A) (f : A -> SE S B) s :
  (x ← m; f x) s = match m s with (Ok a, s') => f a s' | (Err e, s') => (Err e, s') end.
Proof. done. Qed.

Lemma SE_bind_Ok {S A B} (m : SE S A) (f : A -> SE S B) s b s2 :
  (x ← m; f x) s = (Ok b, s2) <-> exists a s1, m s = (Ok a, s1) /\ f a s1 = (Ok b, s2).
Proof.
  rewrite SE_bind_unfold. destruct (m s) as [[a|e] s1]; split; try naive_solver.
Qed.

Lemma lift_Ok {S A} (r : result A) (s : S) a s' : lift r s = (Ok a, s') <-> r = Ok a /\ s = s'.
Proof. unfold lift. split; [by intros [= -> ->]|by intros [-> ->]]. Qed.

Lemma se_map_Ok {S A} f (m : SE S A) s a s' :
  se_map f m s = (Ok a, s') <-> exists r, m s = (r, s') /\ f r = Ok a.
Proof.
  unfold se_map. destruct (m s) as [r s1]. split.
  - intros [= H1 ->]. eauto.
  - intros (r' & [= -> ->] & <-). done.
Qed.

Ltac se_inv_step :=
  match goal with
  | H : mbind _ _ _ = (Ok _, _) |- _ => apply SE_bind_Ok in H; destruct H as (? & ? & ? & ?)
  | H : lift _ _ = (Ok _, _) |- _ => apply lift_Ok in H; destruct H as [? ?]; subst
  | H : se_map _ _ _ = (Ok _, _) |- _ => apply se_map_Ok in H; destruct H as (? & ? & ?)
  | H : mret _ _ = (Ok _, _) |- _ => injection H as H; subst
  | H : (Ok _, _) = (Ok _, _) |- _ => injection H as H; subst
  | H : (Err _, _) = (Ok _, _) |- _ => discriminate H
  | H : (Ok _, _) = (Err _, _) |- _ => discriminate H
  | H : unit |- _ => destruct H
  end.
Ltac se_inv := repeat first [se_inv_step | res_inv_step].

(** * Case analysis helpers *)

(** Split the first [if]/[match] the goal is stuck on. *)
Ltac case_goal :=
  match goal with
  | |- context [if ?b then _ else _] => destruct b eqn:?
  | |- context [match ?x with _ => _ end] => destruct x eqn:?
  end.

Ltac bool_simpl :=
  repeat match goal with
  | H : (_ && _)%bool = true |- _ => apply andb_true_iff in H; destruct H
  | H : (_ || _)%bool = false |- _ => apply orb_false_iff in H; destruct H
  | H : negb _ = true |- _ => apply negb_true_iff in H
  | H : negb _ = false |- _ => apply negb_false_iff in H
  | H : bool_decide _ = true |- _ => apply bool_decide_eq_true in H
  | H : bool_decide _ = false |- _ => apply bool_decide_eq_false in H
  | H : (_ <? _)%Z = true |- _ => apply Z.ltb_lt in H
  | H : (_ <? _)%Z = false |- _ => apply Z.ltb_ge in H
  | H : (_ <=? _)%Z = true |- _ => apply Z.leb_le in H
  | H : (_ <=? _)%Z = false |- _ => apply Z.leb_gt in H
  | H : (_ >? _)%Z = true |- _ => rewrite Z.gtb_ltb in H; apply Z.ltb_lt in H
  | H : (_ >? _)%Z = false |- _ => rewrite Z.gtb_ltb in H; apply Z.ltb_ge in H
  | H : (_ =? _)%Z = true |- _ => apply Z.eqb_eq in H
  | H : (_ =? _)%Z = false |- _ => apply Z.eqb_neq in H
  end.

(** * A small program logic for [SE]

    [hoare P m Q E]: started in a state satisfying [P], [m] either returns a
    value [a] in a state satisfying [Q a], or an error in a state satisfying
    [E]. *)

Definition hoare {S A} (P : S -> Prop) (m : SE S A) (Q : A -> S -> Prop) (E : S -> Prop) : Prop :=
  forall s, P s -> match m s with (Ok a, s') => Q a s' | (Err _, s') => E s' end.

Section Hoare.
Context {S : Type}.
Implicit Types P E : S -> Prop.

Lemma hoare_ret {A} (a : A) P Q E : (forall s, P s -> Q a s) -> hoare P (mret a) Q E.
Proof. intros H s Hs. by apply H. Qed.

Lemma hoare_bind {A B} P (m : SE S A) R (f : A -> SE S B) Q E :
  hoare P m R E -> (forall a, hoare (R a) (f a) Q E) -> hoare P (x ← m; f x) Q E.
Proof.
  intros Hm Hf s Hs. specialize (Hm s Hs). rewrite SE_bind_unfold.
  destruct (m s) as [[a|e] s1]; [by apply Hf|done].
Qed.

Lemma hoare_seq {A B} P (m : SE S A) R (k : SE S B) Q E :
  hoare P m (fun _ => R) E -> hoare R k Q E -> hoare P (_ ← m; k) Q E.
Proof. intros Hm Hk. eapply hoare_bind; [exact Hm|]. intros ?. exact Hk. Qed.

Lemma hoare_weaken {A} (P P' : S -> Prop) (m : SE S A) (Q Q' : A -> S -> Prop) (E E' : S -> Prop) :
  hoare P' m Q' E' -> (forall s, P s -> P' s) -> (forall a s, Q' a s -> Q a s) -> (forall s, E' s -> E s) ->
  hoare P m Q E.
Proof.
  intros H HP HQ HE s Hs. specialize (H s (HP s Hs)). destruct (m s) as [[a|e] s1]; eauto.
Qed.

Lemma hoare_map_err {A} P (m : SE S A) pre Q E :
  hoare P m Q E -> hoare P (se_map (wrap_err pre) m) Q E.
Proof.
  intros H s Hs. specialize (H s Hs). unfold se_map. destruct (m s) as [[a|e] s1]; done.
Qed.

Lemma hoare_attempt {A} P (m : SE S A) Q E :
  hoare P m Q E ->
  hoare P (attempt m) (fun r s => match r with Ok a => Q a s | Err _ => E s end) (fun _ => False).
Proof. intros H s Hs. specialize (H s Hs). unfold attempt. by destruct (m s) as [[a|e] s1]. Qed.

Lemma hoare_err {A} P e (Q : A -> S -> Prop) E : (forall s, P s -> E s) -> hoare P (lift (Err e)) Q E.
Proof. intros H s Hs. by apply H. Qed.

Lemma hoare_lift {A} P (r : result A) (Q : A -> S -> Prop) E :
  (forall a s, r = Ok a -> P s -> Q a s) -> (forall s, P s -> E s) -> hoare P (lift r) Q E.
Proof. intros HQ HE s Hs. unfold lift. destruct r; eauto. Qed.
End Hoare.
