(* ===== verification/GoStrings.v ===== *)
(** * The parts of Go's [strings], [strconv] and [path/filepath] the program uses

    A Go string is a byte string: [string] here, one [ascii] per byte.  Paths are
    Unix paths.  Unicode only matters where Go's functions look at runes: the
    white space of [strings.TrimSpace] and [strings.Fields] is recognised by its
    UTF-8 byte patterns, which is what decoding rune by rune finds, because no
    byte of another rune can be taken for the lead byte of a pattern. *)

From S2P Require Import Prelude.

(** ** Bytes *)

Definition byte_val (c : ascii) : Z := Z.of_nat (Ascii.nat_of_ascii c).
Definition byte_in (lo hi : Z) (c : ascii) : bool := ((lo <=? byte_val c) && (byte_val c <=? hi))%Z.

Definition is_digit (c : ascii) : bool := byte_in 48 57 c.
Definition is_upper (c : ascii) : bool := byte_in 65 90 c.
Definition is_lower (c : ascii) : bool := byte_in 97 122 c.
Definition is_alpha (c : ascii) : bool := is_upper c || is_lower c.
Definition is_alnum (c : ascii) : bool := is_alpha c || is_digit c.

Definition str1 (c : ascii) : string := String c EmptyString.

Definition ascii_eqb (a b : ascii) : bool := bool_decide (a = b).
Definition string_eqb (a b : string) : bool := bool_decide (a = b).

Fixpoint str_len (s : string) : Z :=
  match s with EmptyString => 0 | String _ r => 1 + str_len r end%Z.

Fixpoint string_forallb (f : ascii -> bool) (s : string) : bool :=
  match s with EmptyString => true | String c r => f c && string_forallb f r end.

(** [strings.IndexByte(s, c) >= 0] *)
Definition has_byte (c : ascii) (s : string) : bool := negb (string_forallb (fun x => negb (ascii_eqb x c)) s).

Definition nul : ascii := Ascii.ascii_of_nat 0.
(** A fact about bytes, by cases on the byte. *)
Ltac all_bytes := let c := fresh "c" in intros c; destruct c as [[] [] [] [] [] [] [] []]; vm_compute; try done.

Definition quote_single : ascii := "'"%char.
Definition quote_double : ascii := Ascii.ascii_of_nat 34.

(** ** Prefixes, suffixes, substrings *)

Fixpoint HasPrefix (s p : string) : bool :=
  match p, s with
  | EmptyString, _ => true
  | String a p, String b s => ascii_eqb a b && HasPrefix s p
  | String _ _, EmptyString => false
  end.

Fixpoint drop_str (n : nat) (s : string) : string :=
  match n, s with
  | 0%nat, _ => s
  | S n, String _ r => drop_str n r
  | S _, EmptyString => EmptyString
  end.

Fixpoint take_str (n : nat) (s : string) : string :=
  match n, s with
  | S n, String c r => String c (take_str n r)
  | _, _ => EmptyString
  end.

Definition TrimPrefix (s p : string) : string :=
  if HasPrefix s p then drop_str (String.length p) s else s.

Fixpoint HasSuffix (s p : string) : bool :=
  string_eqb s p || match s with EmptyString => false | String _ r => HasSuffix r p end.

Definition TrimSuffix (s p : string) : string :=
  if HasSuffix s p then take_str (String.length s - String.length p) s else s.

(** [strings.Contains] *)
Fixpoint Contains (s sub : string) : bool :=
  HasPrefix s sub || match s with EmptyString => false | String _ r => Contains r sub end.

(** [strings.Index]: the first position of [sub]. *)
Fixpoint Index (s sub : string) : option nat :=
  if HasPrefix s sub then Some 0%nat
  else match s with EmptyString => None | String _ r => S <$> Index r sub end.

(** ** Splitting and joining at one separator byte *)

Fixpoint Split (sep : ascii) (s : string) : list string :=
  match s with
  | EmptyString => [EmptyString]
  | String c r =>
      if ascii_eqb c sep then EmptyString :: Split sep r
      else match Split sep r with
           | h :: t => String c h :: t
           | [] => [String c EmptyString]
           end
  end.

Fixpoint Join (sep : string) (l : list string) : string :=
  match l with
  | [] => EmptyString
  | [x] => x
  | x :: l => x +:+ sep +:+ Join sep l
  end.

(** [strings.Cut] at one byte *)
Fixpoint Cut (sep : ascii) (s : string) : string * string * bool :=
  match s with
  | EmptyString => (EmptyString, EmptyString, false)
  | String c r =>
      if ascii_eqb c sep then (EmptyString, r, true)
      else let '(a, b, ok) := Cut sep r in (String c a, b, ok)
  end.

(** [strings.ReplaceAll] of one byte *)
Fixpoint ReplaceByte (c : ascii) (by_ : string) (s : string) : string :=
  match s with
  | EmptyString => EmptyString
  | String x r => (if ascii_eqb x c then by_ else str1 x) +:+ ReplaceByte c by_ r
  end.

(** ** White space *)

Definition byte_is (n : Z) (c : ascii) : bool := (byte_val c =? n)%Z.

(** Length in bytes of the white-space rune [s] starts with, 0 if none. *)
Definition space_len (s : string) : nat :=
  match s with
  | EmptyString => 0
  | String a r =>
      if byte_in 9 13 a || byte_is 32 a then 1
      else match r with
      | EmptyString => 0
      | String b r =>
          if byte_is 194 a && (byte_is 133 b || byte_is 160 b) then 2
          else match r with
          | EmptyString => 0
          | String c _ =>
              if (byte_is 225 a && byte_is 154 b && byte_is 128 c)
                 || (byte_is 226 a && byte_is 128 b
                     && (byte_in 128 138 c || byte_is 168 c || byte_is 169 c || byte_is 175 c))
                 || (byte_is 226 a && byte_is 129 b && byte_is 159 c)
                 || (byte_is 227 a && byte_is 128 b && byte_is 128 c)
              then 3 else 0
          end
      end
  end%nat.

(** [strings.TrimLeftFunc(s, unicode.IsSpace)], one rune per unit of fuel. *)
Fixpoint trim_left_fuel (fuel : nat) (s : string) : string :=
  match fuel with
  | O => s
  | S fuel => match space_len s with O => s | n => trim_left_fuel fuel (drop_str n s) end
  end.
Definition TrimSpaceLeft (s : string) : string := trim_left_fuel (String.length s) s.

(** Is [s] made of white-space runes only? *)
Definition all_space (s : string) : bool := string_eqb (TrimSpaceLeft s) EmptyString.

(** [strings.TrimRightFunc(s, unicode.IsSpace)]: cut at the first position from
    which only white space is left. *)
Fixpoint TrimSpaceRight (s : string) : string :=
  if all_space s then EmptyString
  else match s with EmptyString => EmptyString | String c r => String c (TrimSpaceRight r) end.

Definition TrimSpace (s : string) : string := TrimSpaceRight (TrimSpaceLeft s).

(** [strings.Fields]: [acc] is the current field, reversed. *)
Fixpoint rev_string (s acc : string) : string :=
  match s with EmptyString => acc | String c r => rev_string r (String c acc) end.

Fixpoint fields_fuel (fuel : nat) (s acc : string) : list string :=
  let flush := match acc with EmptyString => [] | _ => [rev_string acc EmptyString] end in
  match fuel with
  | O => flush
  | S fuel =>
      match s with
      | EmptyString => flush
      | String c r =>
          match space_len s with
          | O => fields_fuel fuel r (String c acc)
          | n => flush ++ fields_fuel fuel (drop_str n s) EmptyString
          end
      end
  end.
Definition Fields (s : string) : list string := fields_fuel (S (String.length s)) s EmptyString.

(** [strings.Trim] and [strings.TrimRight] with a cutset of one byte *)
Fixpoint TrimByteLeft (c : ascii) (s : string) : string :=
  match s with
  | EmptyString => EmptyString
  | String x r => if ascii_eqb x c then TrimByteLeft c r else s
  end.
Fixpoint TrimByteRight (c : ascii) (s : string) : string :=
  match s with
  | EmptyString => EmptyString
  | String x r =>
      match TrimByteRight c r with
      | EmptyString => if ascii_eqb x c then EmptyString else str1 x
      | r' => String x r'
      end
  end.
Definition TrimByte (c : ascii) (s : string) : string := TrimByteRight c (TrimByteLeft c s).

(** ** Numbers *)

Definition digit_char (d : Z) : ascii := Ascii.ascii_of_nat (Z.to_nat (48 + d)).

(** Decimal digits of a non-negative number, most significant first. *)
Fixpoint digits_fuel (fuel : nat) (n : Z) (acc : string) : string :=
  match fuel with
  | O => acc
  | S fuel =>
      let acc := String (digit_char (n mod 10)) acc in
      if (n / 10 =? 0)%Z then acc else digits_fuel fuel (n / 10) acc
  end.
(** 64-bit numbers have at most 20 decimal digits; 30 leaves room. *)
Definition FormatUint (n : Z) : string := digits_fuel 30 n EmptyString.
Definition Itoa (n : Z) : string :=
  if (n <? 0)%Z then String "-"%char (FormatUint (- n)) else FormatUint n.

Definition digit_of (c : ascii) : option Z :=
  if byte_in 48 57 c then Some (byte_val c - 48)%Z
  else if byte_in 97 122 c then Some (byte_val c - 87)%Z
  else if byte_in 65 90 c then Some (byte_val c - 55)%Z
  else None.

Fixpoint parse_digits (base : Z) (s : string) (acc : Z) : option Z :=
  match s with
  | EmptyString => Some acc
  | String c r =>
      match digit_of c with
      | Some d => if (d <? base)%Z then parse_digits base r (acc * base + d)%Z else None
      | None => None
      end
  end.

(** [strconv.ParseUint(s, base, bits)] for base 8, 10 or 16; [None] is an error. *)
Definition ParseUint (base bits : Z) (s : string) : option Z :=
  match s with
  | EmptyString => None
  | _ => match parse_digits base s 0 with
         | Some n => if (n <? 2 ^ bits)%Z then Some n else None
         | None => None
         end
  end.

Definition atoi_digits (neg : bool) (s : string) : option Z :=
  match ParseUint 10 64 s with
  | Some n =>
      if neg then if (n <=? two63)%Z then Some (- n)%Z else None
      else if (n <? two63)%Z then Some n else None
  | None => None
  end.

(** [strconv.Atoi] *)
Definition Atoi (s : string) : option Z :=
  match s with
  | EmptyString => None
  | String c r =>
      if ascii_eqb c "-"%char then atoi_digits true r
      else if ascii_eqb c "+"%char then atoi_digits false r
      else atoi_digits false s
  end.

(** ** Paths *)

Definition slash : ascii := "/"%char.

Definition IsAbs (p : string) : bool := HasPrefix p "/".

(** One component of [filepath.Clean]; [acc] holds the output, last first. *)
Definition clean_step (rooted : bool) (acc : list string) (c : string) : list string :=
  if string_eqb c "" || string_eqb c "." then acc
  else if string_eqb c ".." then
    match acc with
    | top :: rest => if string_eqb top ".." then ".." :: acc else rest
    | [] => if rooted then [] else [".."]
    end
  else c :: acc.

Definition clean_components (rooted : bool) (p : string) : list string :=
  rev (fold_left (clean_step rooted) (Split slash p) []).

Definition Clean (p : string) : string :=
  match p with
  | EmptyString => "."
  | _ =>
      let rooted := IsAbs p in
      let body := Join "/" (clean_components rooted p) in
      if rooted then "/" +:+ body
      else match body with EmptyString => "." | _ => body end
  end.

Definition PathJoin (elems : list string) : string :=
  match filter (fun e => e <> "") elems with
  | [] => ""
  | l => Clean (Join "/" l)
  end.

(** The part up to and including the last slash. *)
Definition dir_part (p : string) : string :=
  let parts := Split slash p in
  match removelast parts with
  | [] => ""
  | l => Join "/" l +:+ "/"
  end.
Definition Dir (p : string) : string := Clean (dir_part p).

Definition Base (p : string) : string :=
  match p with
  | EmptyString => "."
  | _ => match List.last (Split slash (TrimByteRight slash p)) "" with
         | EmptyString => "/"
         | b => b
         end
  end.

(** * Facts *)

Lemma ascii_eqb_true a b : ascii_eqb a b = true <-> a = b.
Proof. apply bool_decide_eq_true. Qed.
Lemma ascii_eqb_false a b : ascii_eqb a b = false <-> a <> b.
Proof. apply bool_decide_eq_false. Qed.
Lemma string_eqb_true a b : string_eqb a b = true <-> a = b.
Proof. apply bool_decide_eq_true. Qed.
Lemma string_eqb_false a b : string_eqb a b = false <-> a <> b.
Proof. apply bool_decide_eq_false. Qed.
Lemma ascii_eqb_refl a : ascii_eqb a a = true.
Proof. by apply ascii_eqb_true. Qed.
Lemma string_eqb_refl a : string_eqb a a = true.
Proof. by apply string_eqb_true. Qed.

Ltac str_eqb :=
  repeat match goal with
  | H : string_eqb _ _ = true |- _ => apply string_eqb_true in H
  | H : string_eqb _ _ = false |- _ => apply string_eqb_false in H
  | H : ascii_eqb _ _ = true |- _ => apply ascii_eqb_true in H
  | H : ascii_eqb _ _ = false |- _ => apply ascii_eqb_false in H
  end.

Create HintDb gostr.
#[export] Hint Rewrite ascii_eqb_refl string_eqb_refl : gostr.

(** ** Append *)

Lemma app_cons c s t : String c s +:+ t = String c (s +:+ t).
Proof. done. Qed.
Lemma app_empty_l s : "" +:+ s = s.
Proof. done. Qed.
Lemma app_empty_r s : s +:+ "" = s.
Proof. induction s as [|c s IH]; [done|]. by rewrite app_cons, IH. Qed.
Lemma app_assoc_str s t u : (s +:+ t) +:+ u = s +:+ t +:+ u.
Proof. induction s as [|c s IH]; [done|]. by rewrite !app_cons, IH. Qed.
Lemma length_app_str s t : String.length (s +:+ t) = (String.length s + String.length t)%nat.
Proof. induction s as [|c s IH]; [done|]. rewrite ?app_cons; simpl. by rewrite IH. Qed.
Lemma app_inj_l s t u : s +:+ t = s +:+ u -> t = u.
Proof. induction s as [|c s IH]; [done|]. rewrite !app_cons. intros [= H]. by apply IH. Qed.
Lemma app_nil_str s t : s +:+ t = "" <-> s = "" /\ t = "".
Proof. destruct s; [|rewrite app_cons]; naive_solver. Qed.

#[export] Hint Rewrite app_cons app_empty_l app_empty_r app_assoc_str : gostr.

Lemma string_forallb_app f s t : string_forallb f (s +:+ t) = string_forallb f s && string_forallb f t.
Proof. induction s as [|c s IH]; [done|]. rewrite ?app_cons; simpl. by rewrite IH, andb_assoc. Qed.

Lemma string_forallb_impl (f g : ascii -> bool) s :
  (forall c, f c = true -> g c = true) -> string_forallb f s = true -> string_forallb g s = true.
Proof.
  intros Hfg. induction s as [|c s IH]; [done|]. simpl.
  intros [Hc Hs]%andb_true_iff. by rewrite (Hfg c Hc), IH.
Qed.

Lemma has_byte_false c s : has_byte c s = false <-> string_forallb (fun x => negb (ascii_eqb x c)) s = true.
Proof. unfold has_byte. rewrite negb_false_iff. done. Qed.

Lemma has_byte_app c s t : has_byte c (s +:+ t) = has_byte c s || has_byte c t.
Proof. unfold has_byte. by rewrite string_forallb_app, negb_andb. Qed.

(** ** Prefixes and suffixes *)

Lemma HasPrefix_iff s p : HasPrefix s p = true <-> exists t, s = p +:+ t.
Proof.
  revert s. induction p as [|c p IH]; intros s; simpl.
  - destruct s; (split; [intros _; eexists; by rewrite app_empty_l|done]).
  - destruct s as [|d s]; [split; [done|by intros (t & H)]|].
    simpl. rewrite andb_true_iff, ascii_eqb_true, IH. split.
    + intros [-> (t & ->)]. by exists t.
    + intros (t & H). rewrite app_cons in H. injection H as -> ->. eauto.
Qed.

Lemma HasPrefix_app p t : HasPrefix (p +:+ t) p = true.
Proof. apply HasPrefix_iff. by exists t. Qed.

Lemma drop_str_app p t : drop_str (String.length p) (p +:+ t) = t.
Proof. induction p as [|c p IH]; [done|]. apply IH. Qed.

Lemma TrimPrefix_app p t : TrimPrefix (p +:+ t) p = t.
Proof. unfold TrimPrefix. by rewrite HasPrefix_app, drop_str_app. Qed.

Lemma HasPrefix_TrimPrefix s p : HasPrefix s p = true -> s = p +:+ TrimPrefix s p.
Proof. intros H. apply HasPrefix_iff in H as [t ->]. by rewrite TrimPrefix_app. Qed.

Lemma take_str_app s t : take_str (String.length s) (s +:+ t) = s.
Proof. induction s as [|c s IH]; [by destruct t|]. rewrite ?app_cons; simpl. by rewrite IH. Qed.

Lemma HasSuffix_iff s p : HasSuffix s p = true <-> exists t, s = t +:+ p.
Proof.
  induction s as [|c s IH]; simpl.
  - rewrite orb_false_r, string_eqb_true. split; [intros <-; by exists ""|].
    intros (t & H). symmetry in H. apply app_nil_str in H as [_ ->]. done.
  - rewrite orb_true_iff, string_eqb_true, IH. split.
    + intros [<-|(t & ->)]; [by exists ""|by exists (String c t)].
    + intros ([|d t] & H); [left; by rewrite H|]. rewrite app_cons in H. injection H as -> ->. right. by exists t.
Qed.

Lemma TrimSuffix_app s p : TrimSuffix (s +:+ p) p = s.
Proof.
  unfold TrimSuffix. assert (HasSuffix (s +:+ p) p = true) as -> by (apply HasSuffix_iff; by exists s).
  rewrite length_app_str. replace (_ - _)%nat with (String.length s) by lia. apply take_str_app.
Qed.

Lemma TrimSuffix_cases s p : s = TrimSuffix s p +:+ p \/ (HasSuffix s p = false /\ TrimSuffix s p = s).
Proof.
  destruct (HasSuffix s p) eqn:E.
  - left. pose proof E as E'. apply HasSuffix_iff in E' as [t ->]. by rewrite TrimSuffix_app.
  - right. unfold TrimSuffix. by rewrite E.
Qed.

(** ** Split and Join *)

Lemma Split_nonempty sep s : exists h t, Split sep s = h :: t.
Proof.
  induction s as [|c s (h & t & IH)]; simpl; [eauto|].
  case_goal; [eauto|]. rewrite IH. eauto.
Qed.

Lemma Split_single sep s : has_byte sep s = false -> Split sep s = [s].
Proof.
  rewrite has_byte_false. induction s as [|c s IH]; [done|]. simpl.
  intros [Hc Hs]%andb_true_iff. apply negb_true_iff in Hc. rewrite Hc, IH; done.
Qed.

Lemma Split_app sep a b :
  has_byte sep a = false -> Split sep (a +:+ String sep b) = a :: Split sep b.
Proof.
  rewrite has_byte_false. induction a as [|c a IH]; simpl.
  - intros _. rewrite ?app_empty_l; simpl. by rewrite ascii_eqb_refl.
  - intros [Hc Hs]%andb_true_iff. apply negb_true_iff in Hc. rewrite ?app_cons; simpl. by rewrite Hc, IH.
Qed.

Lemma Split_Join sep l :
  l <> [] -> Forall (fun x => has_byte sep x = false) l -> Split sep (Join (str1 sep) l) = l.
Proof.
  intros Hne H. induction H as [|x l Hx Hl IH]; [done|].
  destruct l as [|y l]; simpl.
  - by apply Split_single.
  - unfold str1 at 1. rewrite app_cons, app_empty_l, Split_app by done. f_equal. by apply IH.
Qed.

Lemma Split_no_sep sep s : Forall (fun x => has_byte sep x = false) (Split sep s).
Proof.
  induction s as [|c s IH]; simpl; [by constructor|].
  destruct (ascii_eqb c sep) eqn:E; [by constructor|].
  destruct (Split sep s) as [|h t]; [by constructor; [unfold has_byte; simpl; rewrite E|]|].
  inversion IH; subst. constructor; [|done].
  rewrite has_byte_false in *. simpl. by rewrite E.
Qed.

Lemma Join_cons sep x l : l <> [] -> Join sep (x :: l) = x +:+ sep +:+ Join sep l.
Proof. by destruct l. Qed.

Lemma Join_Split sep s : Join (str1 sep) (Split sep s) = s.
Proof.
  induction s as [|c s IH]; [done|]. simpl.
  destruct (Split_nonempty sep s) as (h & t & E). rewrite E in IH |- *.
  destruct (ascii_eqb c sep) eqn:Ec; str_eqb.
  - rewrite Join_cons by done. by rewrite IH, Ec.
  - destruct t as [|h' t]; [simpl in *; congruence|].
    rewrite Join_cons in IH by done. rewrite Join_cons by done. by rewrite app_cons, IH.
Qed.

Lemma Cut_Some sep s a b : Cut sep s = (a, b, true) -> s = a +:+ String sep b /\ has_byte sep a = false.
Proof.
  revert a. induction s as [|c s IH]; simpl; intros a; [done|].
  destruct (ascii_eqb c sep) eqn:E; str_eqb.
  - intros [= <- <-]. by subst.
  - destruct (Cut sep s) as [[a' b'] ok]. intros [= <- <- ->].
    destruct (IH a' eq_refl) as [-> Ha]. split; [done|].
    rewrite has_byte_false in *. simpl. rewrite Ha. apply ascii_eqb_false in E. by rewrite E.
Qed.

Lemma Cut_app sep a b : has_byte sep a = false -> Cut sep (a +:+ String sep b) = (a, b, true).
Proof.
  rewrite has_byte_false. induction a as [|c a IH]; simpl.
  - intros _. rewrite ?app_empty_l; simpl. by rewrite ascii_eqb_refl.
  - intros [Hc Hs]%andb_true_iff. apply negb_true_iff in Hc. rewrite ?app_cons; simpl. by rewrite Hc, IH.
Qed.

(** ** Numbers *)

Lemma digit_range (d : Z) (P : Z -> Prop) :
  (0 <= d < 10)%Z ->
  P 0%Z -> P 1%Z -> P 2%Z -> P 3%Z -> P 4%Z -> P 5%Z -> P 6%Z -> P 7%Z -> P 8%Z -> P 9%Z -> P d.
Proof.
  intros Hd.
  assert (d = 0 \/ d = 1 \/ d = 2 \/ d = 3 \/ d = 4 \/ d = 5 \/ d = 6 \/ d = 7 \/ d = 8 \/ d = 9)%Z
    as Hc by lia.
  intros. naive_solver.
Qed.

Lemma digit_of_char d : (0 <= d < 10)%Z -> digit_of (digit_char d) = Some d.
Proof. intros Hd. by apply (digit_range d (fun d => digit_of (digit_char d) = Some d)). Qed.

Lemma digit_char_digit d : (0 <= d < 10)%Z -> is_digit (digit_char d) = true.
Proof. intros Hd. by apply (digit_range d (fun d => is_digit (digit_char d) = true)). Qed.

Lemma parse_digits_fuel fuel n acc :
  (0 <= n < 10 ^ Z.of_nat (S fuel))%Z ->
  parse_digits 10 (digits_fuel (S fuel) n acc) 0 = parse_digits 10 acc n.
Proof.
  revert n acc. induction fuel as [|fuel IH]; intros n acc Hn.
  - simpl in *. rewrite Z.div_small, Z.mod_small by lia. simpl.
    rewrite digit_of_char by lia. assert (n <? 10 = true)%Z as -> by lia. done.
  - remember (S fuel) as m. simpl. pose proof (Z.mod_pos_bound n 10).
    assert (digit_of (digit_char (n mod 10)) = Some (n mod 10)%Z) as Hd by (apply digit_of_char; lia).
    assert ((n mod 10 <? 10)%Z = true) as Hlt by lia.
    pose proof (Z.div_mod n 10 ltac:(lia)) as Hdm.
    destruct (n / 10 =? 0)%Z eqn:E.
    + simpl. rewrite Hd, Hlt. f_equal. lia.
    + subst m. rewrite IH.
      * simpl. rewrite Hd, Hlt. f_equal. lia.
      * rewrite Nat2Z.inj_succ, Z.pow_succ_r in Hn by lia. split; [apply Z.div_pos; lia|].
        apply Z.div_lt_upper_bound; lia.
Qed.

Lemma digits_fuel_forallb fuel n acc :
  (0 <= n)%Z -> string_forallb is_digit (digits_fuel fuel n acc) = string_forallb is_digit acc.
Proof.
  revert n acc. induction fuel as [|fuel IH]; intros n acc Hn; [done|]. simpl.
  assert (is_digit (digit_char (n mod 10)) = true) as Hd
    by (apply digit_char_digit, Z.mod_pos_bound; lia).
  case_goal; simpl; [by rewrite Hd|].
  rewrite IH by (apply Z.div_pos; lia). simpl. by rewrite Hd.
Qed.

Lemma digits_fuel_cons fuel n c acc : exists c' r, digits_fuel fuel n (String c acc) = String c' r.
Proof.
  revert n c acc. induction fuel as [|fuel IH]; intros n c acc; [eauto|]. simpl.
  case_goal; [eauto|]. apply IH.
Qed.

Lemma digits_fuel_S_cons fuel n acc : exists c r, digits_fuel (S fuel) n acc = String c r.
Proof. simpl. case_goal; [eauto|]. apply digits_fuel_cons. Qed.

Lemma FormatUint_digits n : (0 <= n)%Z -> string_forallb is_digit (FormatUint n) = true.
Proof. intros Hn. unfold FormatUint. by rewrite digits_fuel_forallb. Qed.

Lemma FormatUint_cons n : exists c r, FormatUint n = String c r.
Proof.
  unfold FormatUint. change 30%nat with (S 29). apply digits_fuel_S_cons.
Qed.

(** Printing then parsing an unsigned number gives it back. *)
Lemma ParseUint_FormatUint n : in_u64 n -> ParseUint 10 64 (FormatUint n) = Some n.
Proof.
  unfold in_u64, two64. intros Hn. unfold ParseUint.
  destruct (FormatUint_cons n) as (c & r & E). rewrite E, <-E. unfold FormatUint.
  change 30%nat with (S 29). rewrite parse_digits_fuel by (simpl; lia). simpl.
  assert (n <? 2 ^ 64 = true)%Z as -> by (simpl; lia). done.
Qed.

Lemma is_digit_not_sign c : is_digit c = true -> ascii_eqb c "-" = false /\ ascii_eqb c "+" = false.
Proof. intros H. split; apply ascii_eqb_false; intros ->; done. Qed.

Lemma Atoi_Itoa n : in_s64 n -> Atoi (Itoa n) = Some n.
Proof.
  unfold in_s64. intros Hn. unfold Itoa. destruct (n <? 0)%Z eqn:E; bool_simpl.
  - unfold Atoi. rewrite ascii_eqb_refl. unfold atoi_digits.
    rewrite ParseUint_FormatUint by (unfold in_u64, two63, two64 in *; lia).
    assert (- n <=? two63 = true)%Z as -> by lia. f_equal. lia.
  - unfold Atoi, atoi_digits. destruct (FormatUint_cons n) as (c & r & Ec). rewrite Ec.
    pose proof (FormatUint_digits n E) as Hd. rewrite Ec in Hd. simpl in Hd. bool_simpl.
    destruct (is_digit_not_sign c) as [-> ->]; [done|]. rewrite <-Ec.
    rewrite ParseUint_FormatUint by (unfold in_u64, two63, two64 in *; lia).
    assert (n <? two63 = true)%Z as -> by lia. done.
Qed.

Lemma Itoa_inj m n : in_s64 m -> in_s64 n -> Itoa m = Itoa n -> m = n.
Proof. intros Hm Hn H. apply (f_equal Atoi) in H. rewrite !Atoi_Itoa in H by done. congruence. Qed.

Lemma FormatUint_inj m n : in_u64 m -> in_u64 n -> FormatUint m = FormatUint n -> m = n.
Proof. intros Hm Hn H. apply (f_equal (ParseUint 10 64)) in H. rewrite !ParseUint_FormatUint in H by done. congruence. Qed.

(** ** Clean paths *)

(** A component that a cleaned rooted path can hold. *)
Definition good_component (c : string) : Prop :=
  c <> "" /\ c <> "." /\ c <> ".." /\ has_byte slash c = false.

Definition abs_path (comps : list string) : string := "/" +:+ Join "/" comps.

Lemma clean_step_good c acc : good_component c -> clean_step true acc c = c :: acc.
Proof.
  intros (H1 & H2 & H3 & _). unfold clean_step.
  apply string_eqb_false in H1, H2, H3. by rewrite H1, H2, H3.
Qed.

Lemma fold_clean_good comps acc :
  Forall good_component comps -> fold_left (clean_step true) comps acc = rev comps ++ acc.
Proof.
  intros H. revert acc. induction H as [|c comps Hc _ IH]; intros acc; [done|]. simpl.
  rewrite clean_step_good, IH by done. by rewrite <-app_assoc.
Qed.

Lemma Split_abs_path comps :
  Forall good_component comps -> Split slash (abs_path comps) = "" :: match comps with [] => [""] | _ => comps end.
Proof.
  intros H. unfold abs_path. change ("/" +:+ Join "/" comps) with ("" +:+ String slash (Join "/" comps)).
  rewrite Split_app by done. f_equal.
  destruct comps as [|c comps]; [done|]. apply Split_Join; [done|].
  eapply Forall_impl; [exact H|]. intros x Hx. apply Hx.
Qed.

(** A path of good components is its own cleaning. *)
Lemma Clean_abs_path comps : Forall good_component comps -> Clean (abs_path comps) = abs_path comps.
Proof.
  intros H. unfold Clean, clean_components. destruct (abs_path comps) as [|c r] eqn:E; [done|]. rewrite <-E.
  assert (IsAbs (abs_path comps) = true) as -> by (unfold abs_path; apply HasPrefix_app).
  rewrite Split_abs_path by done. unfold abs_path. do 2 f_equal.
  destruct comps as [|c0 comps]; [done|].
  change (fold_left ?f ("" :: ?l) []) with (fold_left f l []). rewrite fold_clean_good by done.
  by rewrite app_nil_r, rev_involutive.
Qed.

Lemma clean_step_inv acc c :
  has_byte slash c = false -> Forall good_component acc -> Forall good_component (clean_step true acc c).
Proof.
  intros Hc Hacc. unfold clean_step.
  destruct (string_eqb c "" || string_eqb c ".") eqn:E1; [done|]. bool_simpl. str_eqb.
  destruct (string_eqb c "..") eqn:E2; str_eqb.
  - subst. destruct Hacc as [|top rest Htop Hrest]; [done|].
    destruct (string_eqb top "..") eqn:Et; [|done]. str_eqb. subst. by destruct Htop as (_ & _ & ? & _).
  - constructor; [|done]. by split_and!.
Qed.

Lemma clean_components_good p : Forall good_component (clean_components true p).
Proof.
  unfold clean_components. apply Forall_rev. generalize (Split_no_sep slash p).
  generalize (Split slash p) as l. intros l Hl.
  assert (Forall good_component []) as Hacc by constructor. revert Hacc.
  generalize ([] : list string) as acc.
  induction Hl as [|c l Hc _ IH]; intros acc Hacc; [done|]. simpl. apply IH, clean_step_inv; done.
Qed.

Lemma Clean_IsAbs p : IsAbs p = true -> Clean p = abs_path (clean_components true p).
Proof. intros H. destruct p as [|c p]; [done|]. unfold Clean. by rewrite H. Qed.

(** The absolute paths [filepath.Clean] leaves alone. *)
Lemma canonical_iff p :
  IsAbs p = true /\ Clean p = p <-> exists comps, Forall good_component comps /\ p = abs_path comps.
Proof.
  split.
  - intros [Habs Hc]. rewrite Clean_IsAbs in Hc by done. eexists. split; [apply clean_components_good|done].
  - intros (comps & H & ->). split; [apply HasPrefix_app|by apply Clean_abs_path].
Qed.

Lemma Clean_idempotent p : IsAbs p = true -> Clean (Clean p) = Clean p.
Proof. intros H. rewrite (Clean_IsAbs p H). apply Clean_abs_path, clean_components_good. Qed.

Lemma Join_snoc sep l x : l <> [] -> Join sep (l ++ [x]) = Join sep l +:+ sep +:+ x.
Proof.
  induction l as [|y l IH]; [done|]. intros _. destruct l as [|z l]; [done|].
  change ((y :: z :: l) ++ [x]) with (y :: ((z :: l) ++ [x])).
  rewrite (Join_cons sep y) by (by destruct l). rewrite IH by done.
  rewrite (Join_cons sep y (z :: l)) by done. by rewrite !app_assoc_str.
Qed.

Lemma Join_app sep l1 l2 : l1 <> [] -> l2 <> [] -> Join sep (l1 ++ l2) = Join sep l1 +:+ sep +:+ Join sep l2.
Proof.
  intros H1 H2. induction l1 as [|x l1 IH]; [done|]. destruct l1 as [|y l1].
  - simpl app. by rewrite Join_cons.
  - change ((x :: y :: l1) ++ l2) with (x :: ((y :: l1) ++ l2)).
    rewrite (Join_cons sep x) by (by destruct l1). rewrite IH by done.
    rewrite (Join_cons sep x (y :: l1)) by done. by rewrite !app_assoc_str.
Qed.

Lemma abs_path_inj c1 c2 :
  Forall good_component c1 -> Forall good_component c2 -> abs_path c1 = abs_path c2 -> c1 = c2.
Proof.
  intros H1 H2 H. apply (f_equal (Split slash)) in H. rewrite !Split_abs_path in H by done.
  destruct H1 as [|x1 c1 Hx1 H1], H2 as [|x2 c2 Hx2 H2]; [done| | |by injection H as -> ->].
  - injection H as <- _. by destruct Hx2.
  - injection H as -> _. by destruct Hx1.
Qed.

(** ** The last component *)

Lemma abs_path_snoc comps name : comps <> [] -> abs_path (comps ++ [name]) = abs_path comps +:+ "/" +:+ name.
Proof. intros H. unfold abs_path. by rewrite Join_snoc. Qed.

(** Joining a name to a canonical directory. *)
Lemma PathJoin_abs comps name :
  comps <> [] -> Forall good_component comps -> good_component name ->
  PathJoin [abs_path comps; name] = abs_path (comps ++ [name]).
Proof.
  intros Hne Hg Hn. unfold PathJoin. rewrite filter_cons_True by done.
  rewrite filter_cons_True by by apply Hn. rewrite filter_nil.
  transitivity (Clean (abs_path (comps ++ [name]))); [by rewrite abs_path_snoc|].
  apply Clean_abs_path, Forall_app. split; [done|]. by constructor.
Qed.

Lemma Itoa_without c n : is_digit c = false -> c <> "-"%char -> has_byte c (Itoa n) = false.
Proof.
  intros Hc Hs. apply has_byte_false.
  assert (forall m, (0 <= m)%Z -> string_forallb (fun x => negb (ascii_eqb x c)) (FormatUint m) = true) as Hf.
  { intros m Hm. eapply string_forallb_impl; [|by apply FormatUint_digits]. intros x Hx.
    apply negb_true_iff, ascii_eqb_false. intros ->. congruence. }
  unfold Itoa. destruct (n <? 0)%Z eqn:E; [|apply Hf; lia].
  change ("-" +:+ ?s) with (String "-" s). cbn [string_forallb]. rewrite Hf by lia.
  apply andb_true_iff. split; [|done]. apply negb_true_iff, ascii_eqb_false. by intros <-.
Qed.

Lemma TrimByteRight_app_id c s t : t <> "" -> TrimByteRight c t = t -> TrimByteRight c (s +:+ t) = s +:+ t.
Proof.
  intros Hne Ht. induction s as [|x s IH]; [done|]. rewrite ?app_cons; simpl. rewrite IH.
  destruct (s +:+ t) eqn:E; [|done]. apply app_nil_str in E as [_ ->]. done.
Qed.

Lemma TrimByteRight_none c s : has_byte c s = false -> TrimByteRight c s = s.
Proof.
  rewrite has_byte_false. induction s as [|x s IH]; [done|]. simpl. intros [Hx Hs]%andb_true_iff.
  rewrite IH by done. apply negb_true_iff in Hx. rewrite Hx. by destruct s.
Qed.

Lemma Split_last_app sep s name :
  has_byte sep name = false -> List.last (Split sep (s +:+ String sep name)) "" = name.
Proof.
  intros Hn. induction s as [|c s IH].
  - rewrite ?app_empty_l. simpl. rewrite ascii_eqb_refl, Split_single by done. done.
  - rewrite ?app_cons. simpl. destruct (Split_nonempty sep (s +:+ String sep name)) as (h & t & E).
    rewrite E in IH |- *. destruct (ascii_eqb c sep); [exact IH|].
    destruct t as [|h' t]; [|exact IH].
    simpl in IH. subst. exfalso. apply (f_equal (Join (str1 sep))) in E. rewrite Join_Split in E.
    simpl in E. apply (f_equal String.length) in E. rewrite length_app_str in E. simpl in E. lia.
Qed.

Lemma Base_last s name : name <> "" -> has_byte slash name = false -> Base (s +:+ String slash name) = name.
Proof.
  intros Hne Hn. unfold Base.
  destruct (s +:+ String slash name) as [|c r] eqn:E; [by apply app_nil_str in E as [_ ?]|]. rewrite <-E.
  assert (TrimByteRight slash (s +:+ String slash name) = s +:+ String slash name) as ->.
  { apply TrimByteRight_app_id; [done|]. simpl. rewrite TrimByteRight_none by done. by destruct name. }
  rewrite Split_last_app by done. by destruct name.
Qed.

Lemma Base_single name : name <> "" -> has_byte slash name = false -> Base name = name.
Proof.
  intros Hne Hn. unfold Base. destruct name as [|c r] eqn:E; [done|]. rewrite <-E in *.
  rewrite TrimByteRight_none, Split_single by done. simpl. by subst.
Qed.

(** ** Fields of ASCII words *)

Definition plain_char (c : ascii) : bool := ((byte_val c <? 128) && negb (byte_in 9 13 c || byte_is 32 c))%Z.

Lemma space_len_plain c r : plain_char c = true -> space_len (String c r) = 0%nat.
Proof.
  unfold plain_char. intros [H1 H2]%andb_true_iff. apply negb_true_iff in H2. apply Z.ltb_lt in H1. cbn [space_len].
  rewrite H2.
  assert (forall n, (128 <= n)%Z -> byte_is n c = false) as Hhigh by (intros n Hn; unfold byte_is; lia).
  rewrite !Hhigh by lia. cbn. destruct r as [|b r]; [done|]. by destruct r.
Qed.

Lemma fields_word w : forall fuel rest acc,
  string_forallb plain_char w = true -> (String.length w <= fuel)%nat ->
  fields_fuel fuel (w +:+ rest) acc = fields_fuel (fuel - String.length w) rest (rev_string w acc).
Proof.
  induction w as [|c w IH]; intros fuel rest acc Hw Hf.
  - rewrite app_empty_l. simpl. by rewrite Nat.sub_0_r.
  - simpl in Hw. apply andb_true_iff in Hw as [Hc Hw]. rewrite app_cons. destruct fuel as [|fuel]; [simpl in Hf; lia|].
    cbn [fields_fuel]. rewrite space_len_plain by done. rewrite IH; [done|done|simpl in Hf; lia].
Qed.

Lemma fields_space fuel rest acc :
  fields_fuel (S fuel) (" " +:+ rest) acc =
    match acc with EmptyString => [] | _ => [rev_string acc EmptyString] end ++ fields_fuel fuel rest EmptyString.
Proof. reflexivity. Qed.

Lemma rev_string_rev w acc : forall r, rev_string (rev_string w acc) r = rev_string acc (w +:+ r).
Proof. revert acc. induction w as [|c w IH]; intros acc r; [done|]. cbn [rev_string]. rewrite IH. done. Qed.

(** A non-empty ASCII word followed by a space is the next field. *)
Lemma fields_next w fuel rest :
  w <> "" -> string_forallb plain_char w = true ->
  fields_fuel (S (String.length w + fuel)) (w +:+ " " +:+ rest) EmptyString = w :: fields_fuel fuel rest EmptyString.
Proof.
  intros Hne Hw. rewrite fields_word by (done || lia).
  replace (S (String.length w + fuel) - String.length w)%nat with (S fuel) by lia. rewrite fields_space.
  assert (rev_string (rev_string w EmptyString) EmptyString = w) as Hr by (rewrite rev_string_rev; cbn [rev_string]; apply app_empty_r).
  destruct (rev_string w EmptyString) as [|c r] eqn:E; [|by rewrite Hr].
  cbn in Hr. by rewrite <-Hr in Hne.
Qed.

Lemma digit_plain c : is_digit c = true -> plain_char c = true.
Proof. unfold is_digit, plain_char, byte_in, byte_is. lia. Qed.

Lemma Itoa_plain n : in_s64 n -> string_forallb plain_char (Itoa n) = true /\ Itoa n <> "".
Proof.
  intros H. unfold Itoa. assert (forall m, (0 <= m)%Z -> string_forallb plain_char (FormatUint m) = true /\ FormatUint m <> "") as Hf.
  { intros m Hm. split; [|destruct (FormatUint_cons m) as (c & r & ->); done].
    eapply string_forallb_impl; [|by apply FormatUint_digits]. apply digit_plain. }
  destruct (n <? 0)%Z eqn:E; [|apply Hf; lia]. destruct (Hf (- n)%Z) as [H1 H2]; [lia|].
  split; [|done]. simpl. by rewrite H1.
Qed.

(** ** Trimming twice is trimming once *)

Lemma space_len_prefix s t : space_len s <> 0%nat -> space_len (s +:+ t) = space_len s.
Proof.
  destruct s as [|a [|b [|c r]]]; [done|..]; simpl; destruct (byte_in 9 13 a || byte_is 32 a); try done.
  by destruct (byte_is 194 a && _).
Qed.

Lemma space_len_length s : (space_len s <= String.length s)%nat.
Proof.
  destruct s as [|a [|b [|c r]]]; simpl; repeat case_goal; simpl; lia.
Qed.

Lemma drop_str_length n s : (n <= String.length s)%nat -> String.length (drop_str n s) = (String.length s - n)%nat.
Proof. revert s. induction n as [|n IH]; intros [|c s] Hn; simpl in *; try lia. apply IH. lia. Qed.

Lemma drop_str_app_le n s t : (n <= String.length s)%nat -> drop_str n (s +:+ t) = drop_str n s +:+ t.
Proof. revert s. induction n as [|n IH]; intros [|c s] Hn; simpl in *; try done; try lia. apply IH. lia. Qed.

(** Texts made of white space. *)
Inductive Spaces : string -> Prop :=
  | Spaces_nil : Spaces ""
  | Spaces_rune s : space_len s <> 0%nat -> Spaces (drop_str (space_len s) s) -> Spaces s.

Lemma trim_left_fuel_spec fuel s :
  (String.length s <= fuel)%nat ->
  space_len (trim_left_fuel fuel s) = 0%nat /\ (trim_left_fuel fuel s = "" <-> Spaces s).
Proof.
  revert s. induction fuel as [|fuel IH]; intros s Hf; simpl.
  - destruct s; [|simpl in Hf; lia]. split; [done|]. split; [constructor|done].
  - pose proof (space_len_length s) as Hl. destruct (space_len s) as [|n] eqn:En.
    + split; [done|]. split; [intros ->; constructor|]. intros Hs. inversion Hs as [|? Hn _]; [done|]. by rewrite En in Hn.
    + assert (String.length (drop_str (S n) s) <= fuel)%nat as Hd by (rewrite drop_str_length; lia).
      destruct (IH _ Hd) as [H1 H2]. split; [done|]. rewrite H2. split.
      * intros Hs. apply Spaces_rune; [by rewrite En|by rewrite En].
      * intros Hs. inversion Hs as [Heq|? Hn Hr]; [by subst|]. by rewrite En in Hr.
Qed.

Lemma TrimSpaceLeft_head s : space_len (TrimSpaceLeft s) = 0%nat.
Proof. by apply trim_left_fuel_spec. Qed.
Lemma all_space_true s : all_space s = true <-> Spaces s.
Proof. unfold all_space. rewrite string_eqb_true. by apply trim_left_fuel_spec. Qed.
Lemma TrimSpaceLeft_id s : space_len s = 0%nat -> TrimSpaceLeft s = s.
Proof. unfold TrimSpaceLeft. intros H. destruct s; [done|]. cbn [String.length trim_left_fuel]. by rewrite H. Qed.

Lemma Spaces_app s t : Spaces s -> Spaces t -> Spaces (s +:+ t).
Proof.
  intros Hs Ht. induction Hs as [|s Hn _ IH]; [done|]. apply Spaces_rune; rewrite space_len_prefix by done; [done|].
  rewrite drop_str_app_le by apply space_len_length. exact IH.
Qed.

Lemma TrimSpaceRight_rest s : exists w, s = TrimSpaceRight s +:+ w /\ Spaces w.
Proof.
  induction s as [|c s IH]; [exists ""; split; [done|constructor]|]. cbn [TrimSpaceRight].
  destruct (all_space (String c s)) eqn:E.
  - exists (String c s). split; [done|]. by apply all_space_true.
  - destruct IH as (w & Hw & Hs). exists w. split; [|done]. rewrite app_cons. by f_equal.
Qed.

Lemma TrimSpaceRight_idempotent s : TrimSpaceRight (TrimSpaceRight s) = TrimSpaceRight s.
Proof.
  induction s as [|c s IH]; [done|]. cbn [TrimSpaceRight]. destruct (all_space (String c s)) eqn:E; [done|].
  cbn [TrimSpaceRight]. rewrite IH. destruct (all_space (String c (TrimSpaceRight s))) eqn:E2; [|done].
  destruct (TrimSpaceRight_rest s) as (w & Hw & Hs). apply all_space_true in E2.
  assert (all_space (String c s) = true) as E3; [|by rewrite E3 in E].
  apply all_space_true. pose proof (Spaces_app _ w E2 Hs) as Happ. by rewrite app_cons, <-Hw in Happ.
Qed.

Lemma TrimSpace_idempotent s : TrimSpace (TrimSpace s) = TrimSpace s.
Proof.
  unfold TrimSpace. rewrite (TrimSpaceLeft_id (TrimSpaceRight _)); [apply TrimSpaceRight_idempotent|].
  destruct (TrimSpaceRight_rest (TrimSpaceLeft s)) as (w & Hw & _).
  destruct (space_len (TrimSpaceRight (TrimSpaceLeft s))) eqn:E; [done|].
  pose proof (space_len_prefix (TrimSpaceRight (TrimSpaceLeft s)) w ltac:(by rewrite E)) as Hp.
  rewrite <-Hw, TrimSpaceLeft_head, E in Hp. done.
Qed.

Lemma TrimSpace_plain s : string_forallb plain_char s = true -> TrimSpace s = s.
Proof.
  intros Hs. unfold TrimSpace. rewrite TrimSpaceLeft_id.
  - induction s as [|c s IH]; [done|]. simpl in Hs. apply andb_true_iff in Hs as [Hc Hs]. cbn [TrimSpaceRight].
    destruct (all_space (String c s)) eqn:E; [|by rewrite IH].
    apply all_space_true in E. inversion E as [|? Hn _]. by rewrite (space_len_plain c s Hc) in Hn.
  - destruct s as [|c s]; [done|]. simpl in Hs. apply andb_true_iff in Hs as [Hc _]. by apply space_len_plain.
Qed.

Lemma Spaces_app_inv u m : Spaces u -> Spaces (u +:+ m) -> Spaces m.
Proof.
  induction 1 as [|u Hn _ IH]; [done|]. intros H. inversion H as [Heq|? _ Hr]; [by destruct u|].
  rewrite space_len_prefix, drop_str_app_le in Hr by (done || apply space_len_length). by apply IH.
Qed.

(** A white-space rune, of one, two or three bytes: no later byte of it starts
    white space. *)
Inductive space_rune : string -> Prop :=
  | rune1 a : space_len (str1 a) = 1%nat -> space_rune (str1 a)
  | rune2 a b : space_len (String a (str1 b)) = 2%nat -> (forall r, space_len (String b r) = 0%nat) ->
      space_rune (String a (str1 b))
  | rune3 a b c : space_len (String a (String b (str1 c))) = 3%nat -> (forall r, space_len (String b r) = 0%nat) ->
      (forall r, space_len (String c r) = 0%nat) -> space_rune (String a (String b (str1 c))).

Lemma trail_no_space c : (128 <= byte_val c < 192)%Z -> forall r, space_len (String c r) = 0%nat.
Proof.
  intros H r. cbn [space_len]. unfold byte_in, byte_is.
  replace (((9 <=? byte_val c) && (byte_val c <=? 13) || (byte_val c =? 32))%Z) with false by lia.
  destruct r as [|b [|d r]]; [done|..]; replace ((byte_val c =? 194)%Z) with false by lia; [done|].
  replace ((byte_val c =? 225)%Z) with false by lia. replace ((byte_val c =? 226)%Z) with false by lia.
  by replace ((byte_val c =? 227)%Z) with false by lia.
Qed.

Lemma space_len_cases s :
  space_len s = 0%nat \/
  exists p, space_rune p /\ s = p +:+ drop_str (space_len s) s.
Proof.
  destruct s as [|a r]; [by left|]. cbn [space_len].
  destruct (byte_in 9 13 a || byte_is 32 a) eqn:E1.
  { right. exists (str1 a). split; [constructor; cbn; by rewrite E1|done]. }
  destruct r as [|b r]; [by left|]. destruct (byte_is 194 a && _) eqn:E2.
  { right. exists (String a (str1 b)). split; [|done]. constructor; [cbn; by rewrite E1, E2|].
    apply trail_no_space. unfold byte_is in E2. lia. }
  destruct r as [|c r]; [by left|].
  match goal with |- context [if ?x then _ else _] => destruct x eqn:E3; [|by left] end.
  right. exists (String a (String b (str1 c))). split; [|done].
  constructor; [cbn; by rewrite E1, E2, E3|apply trail_no_space..]; unfold byte_is, byte_in in E3; lia.
Qed.

Lemma rune_length p t : space_rune p -> space_len (p +:+ t) = String.length p /\ p <> "".
Proof. intros H. rewrite space_len_prefix; destruct H as [a H|a b H|a b c H]; by rewrite H. Qed.

Lemma rune_Spaces p w : space_rune p -> Spaces w -> Spaces (p +:+ w).
Proof.
  intros Hp Hw. destruct (rune_length p w Hp) as [Hl Hne].
  apply Spaces_rune; rewrite Hl; [by destruct p|]. by rewrite drop_str_app.
Qed.

(** Texts of white space are made of such runes. *)
Lemma Spaces_ind' (P : string -> Prop) :
  P "" -> (forall p w, space_rune p -> Spaces w -> P w -> P (p +:+ w)) -> forall w, Spaces w -> P w.
Proof.
  intros H0 Hs w. induction 1 as [|w Hn Hw IH]; [done|].
  destruct (space_len_cases w) as [|(p & Hp & E)]; [done|]. rewrite E. by apply Hs.
Qed.

Lemma TrimSpaceLeft_rest s : exists w, s = w +:+ TrimSpaceLeft s /\ Spaces w.
Proof.
  unfold TrimSpaceLeft. generalize (String.length s) as fuel. intros fuel. revert s.
  induction fuel as [|fuel IH]; intros s; cbn [trim_left_fuel]; [exists ""; split; [done|constructor]|].
  destruct (space_len_cases s) as [->|(p & Hp & E)]; [exists ""; split; [done|constructor]|].
  destruct (space_len s) as [|n]; [exists ""; split; [done|constructor]|].
  destruct (IH (drop_str (S n) s)) as (w & Hw & Hs). exists (p +:+ w). split; [|by apply rune_Spaces].
  by rewrite app_assoc_str, <-Hw.
Qed.

Lemma not_all_space c r : space_len (String c r) = 0%nat -> all_space (String c r) = false.
Proof.
  intros H. destruct (all_space (String c r)) eqn:E; [|done]. apply all_space_true in E.
  inversion E as [|? Hn _]. by rewrite H in Hn.
Qed.

Lemma TrimSpaceRight_step c r : all_space (String c r) = false -> TrimSpaceRight (String c r) = String c (TrimSpaceRight r).
Proof. intros H. cbn [TrimSpaceRight]. by rewrite H. Qed.

Lemma TrimSpaceRight_past w m : Spaces w -> all_space m = false -> TrimSpaceRight (w +:+ m) = w +:+ TrimSpaceRight m.
Proof.
  intros Hw Hm. induction Hw as [|p w Hp Hw IH] using Spaces_ind'; [by rewrite !app_empty_l|].
  assert (all_space ((p +:+ w) +:+ m) = false) as Hall.
  { apply not_true_is_false. intros E. apply all_space_true, Spaces_app_inv, all_space_true in E; [|by apply rune_Spaces].
    congruence. }
  rewrite app_assoc_str in *. destruct Hp as [a H|a b H Hb|a b c H Hb Hc]; unfold str1 in *;
    rewrite ?app_cons, ?app_empty_l in Hall |- *.
  - by rewrite TrimSpaceRight_step, IH.
  - rewrite TrimSpaceRight_step by done. rewrite TrimSpaceRight_step by by apply not_all_space. by rewrite IH.
  - rewrite TrimSpaceRight_step by done. rewrite TrimSpaceRight_step by by apply not_all_space.
    rewrite TrimSpaceRight_step by by apply not_all_space. by rewrite IH.
Qed.

Lemma TrimSpaceRight_all s : all_space s = true -> TrimSpaceRight s = "".
Proof. destruct s; [done|]. intros H. cbn [TrimSpaceRight]. by rewrite H. Qed.

Lemma trim_left_more f1 f2 s :
  (String.length s <= f1)%nat -> (String.length s <= f2)%nat -> trim_left_fuel f1 s = trim_left_fuel f2 s.
Proof.
  revert f2 s. induction f1 as [|f1 IH]; intros [|f2] s H1 H2; cbn [trim_left_fuel];
    [done|destruct s; [done|cbn in *; lia]..|].
  pose proof (space_len_length s). destruct (space_len s) as [|n]; [done|].
  apply IH; rewrite drop_str_length; lia.
Qed.

Lemma TrimSpaceLeft_rune p t : space_rune p -> TrimSpaceLeft (p +:+ t) = TrimSpaceLeft t.
Proof.
  intros Hp. destruct (rune_length p t Hp) as [Hl Hne]. unfold TrimSpaceLeft. rewrite length_app_str.
  destruct (String.length p + String.length t)%nat as [|n] eqn:En; [destruct p; [done|cbn in En; lia]|].
  cbn [trim_left_fuel]. rewrite Hl. destruct (String.length p) as [|k] eqn:Ep; [by destruct p|].
  rewrite <-Ep, drop_str_app. apply trim_left_more; lia.
Qed.

(** Trimming on the right first makes no difference. *)
Lemma TrimSpace_Right s : TrimSpace (TrimSpaceRight s) = TrimSpace s.
Proof.
  destruct (TrimSpaceLeft_rest s) as (w & E & Hw). destruct (all_space s) eqn:Ea.
  - rewrite TrimSpaceRight_all by done. unfold TrimSpace. unfold all_space in Ea. by apply string_eqb_true in Ea as ->.
  - set (m := TrimSpaceLeft s) in *. assert (all_space m = false) as Hm.
    { destruct (all_space m) eqn:Em; [|done]. rewrite E in Ea. apply all_space_true in Em.
      by rewrite (proj2 (all_space_true _) (Spaces_app _ _ Hw Em)) in Ea. }
    rewrite E at 1. rewrite TrimSpaceRight_past by done.
    assert (TrimSpace (w +:+ TrimSpaceRight m) = TrimSpace (TrimSpaceRight m)) as ->.
    { unfold TrimSpace. f_equal. clear -Hw. induction Hw as [|p w Hp Hw IH] using Spaces_ind'; [by rewrite !app_empty_l|].
      rewrite app_assoc_str, <-IH. apply TrimSpaceLeft_rune; done. }
    unfold TrimSpace at 2. fold m. unfold TrimSpace.
    rewrite TrimSpaceLeft_id; [apply TrimSpaceRight_idempotent|].
    destruct (TrimSpaceRight_rest m) as (v & Hv & _). destruct (space_len (TrimSpaceRight m)) eqn:El; [done|].
    pose proof (space_len_prefix (TrimSpaceRight m) v ltac:(by rewrite El)) as Hp.
    rewrite <-Hv, El in Hp. unfold m in Hp. by rewrite TrimSpaceLeft_head in Hp.
Qed.

Lemma parse_digits_nonneg base s : forall acc n,
  (0 <= base)%Z -> (0 <= acc)%Z -> parse_digits base s acc = Some n -> (0 <= n)%Z.
Proof.
  induction s as [|c s IH]; intros acc n Hb Ha; simpl; [by intros [= <-]|].
  destruct (digit_of c) as [d|] eqn:Ed; [|done]. destruct (d <? base)%Z; [|done].
  apply IH; [done|]. assert (0 <= d)%Z; [|nia].
  unfold digit_of, byte_in in Ed. repeat match goal with H : (if ?b then _ else _) = Some _ |- _ =>
    destruct b eqn:? end; simplify_eq; bool_simpl; lia.
Qed.

Lemma ParseUint_range s n : ParseUint 10 64 s = Some n -> in_u64 n.
Proof.
  unfold ParseUint, in_u64, two64. destruct s as [|c s]; [done|].
  destruct (parse_digits 10 (String c s) 0) as [m|] eqn:E; [|done]. destruct (m <? 2 ^ 64)%Z eqn:El; [|done].
  intros [= <-]. bool_simpl. apply parse_digits_nonneg in E; lia.
Qed.

Lemma atoi_digits_range neg s n : atoi_digits neg s = Some n -> in_s64 n.
Proof.
  unfold atoi_digits, in_s64. destruct (ParseUint 10 64 s) as [m|] eqn:E; [|done].
  apply ParseUint_range in E as [H0 _].
  destruct neg; [destruct (m <=? two63)%Z eqn:El|destruct (m <? two63)%Z eqn:El]; intros [= <-];
    unfold two63 in *; lia.
Qed.

Lemma Atoi_range s n : Atoi s = Some n -> in_s64 n.
Proof. destruct s as [|c r]; [done|]. unfold Atoi. repeat case_goal; apply atoi_digits_range. Qed.

(** ** Words on a line *)

Lemma TrimSpaceRight_plain c s : plain_char c = true -> TrimSpaceRight (String c s) = String c (TrimSpaceRight s).
Proof. intros H. apply TrimSpaceRight_step, not_all_space. by apply space_len_plain. Qed.

Lemma all_space_blank s : all_space (String " " s) = all_space s.
Proof. done. Qed.

Definition word (w : string) : Prop := w <> "" /\ string_forallb plain_char w = true.

Lemma fields_words words : Forall word words ->
  forall fuel, (String.length (Join " " words) < fuel)%nat -> fields_fuel fuel (Join " " words) "" = words.
Proof.
  induction 1 as [|w words [Hne Hw] Hall IH]; intros fuel Hf; [by destruct fuel|].
  destruct words as [|w2 words].
  - cbn [Join] in *. rewrite <-(app_empty_r w) at 1. rewrite fields_word by (done || lia).
    destruct (fuel - String.length w)%nat as [|k] eqn:Ek; [lia|]. cbn [fields_fuel].
    assert (rev_string (rev_string w "") "" = w) as Hr by (rewrite rev_string_rev; cbn [rev_string]; apply app_empty_r).
    destruct (rev_string w "") as [|c r]; [cbn in Hr; by rewrite <-Hr in Hne|]. by rewrite Hr.
  - rewrite Join_cons in * by done. rewrite !length_app_str in Hf. cbn [String.length] in Hf.
    replace fuel with (S (String.length w + (fuel - S (String.length w)))) by lia. rewrite fields_next by done.
    f_equal. apply IH. lia.
Qed.

Lemma Fields_words words : Forall word words -> Fields (Join " " words) = words.
Proof. intros Hw. apply fields_words; [done|]. lia. Qed.

Lemma TrimSpaceRight_plains w t : string_forallb plain_char w = true -> TrimSpaceRight (w +:+ t) = w +:+ TrimSpaceRight t.
Proof.
  induction w as [|c w IH]; intros Hw; [done|]. cbn [string_forallb] in Hw. apply andb_true_iff in Hw as [Hc Hw].
  rewrite !app_cons, TrimSpaceRight_plain by done. by rewrite IH.
Qed.

Lemma TrimSpace_words words : words <> [] -> Forall word words -> TrimSpace (Join " " words) = Join " " words.
Proof.
  intros Hne Hall. assert (forall t, exists c r, plain_char c = true /\ Join " " words +:+ t = String c r) as Hhead.
  { intros t. destruct Hall as [|w words [Hw1 Hw2] Hall]; [done|]. destruct w as [|c w]; [done|].
    cbn [string_forallb] in Hw2. apply andb_true_iff in Hw2 as [Hc _].
    destruct words as [|w2 words]; [by exists c, (w +:+ t)|]. rewrite Join_cons by done. rewrite !app_cons. by eexists c, _. }
  unfold TrimSpace. rewrite TrimSpaceLeft_id.
  2: { destruct (Hhead "") as (c & r & Hc & E). rewrite app_empty_r in E. rewrite E. by apply space_len_plain. }
  clear Hhead. induction Hall as [|w words [Hw1 Hw2] Hall IH]; [done|]. destruct words as [|w2 words].
  - cbn [Join]. rewrite <-(app_empty_r w) at 1. rewrite TrimSpaceRight_plains by done. apply app_empty_r.
  - rewrite Join_cons by done. rewrite TrimSpaceRight_plains by done. f_equal. change (" " +:+ ?t) with (String " " t).
    rewrite TrimSpaceRight_step; [by rewrite IH|]. rewrite all_space_blank.
    apply Forall_cons in Hall as [[Hx1 Hx2] _]. destruct w2 as [|c w2]; [done|].
    cbn [string_forallb] in Hx2. apply andb_true_iff in Hx2 as [Hc _].
    destruct words as [|w3 words]; [cbn [Join]|rewrite Join_cons by done; rewrite app_cons];
      by apply not_all_space, space_len_plain.
Qed.

(** ** Hexadecimal *)

Definition hex_digit (n : Z) : ascii := Ascii.ascii_of_nat (Z.to_nat (if (n <? 10)%Z then 48 + n else 87 + n)).

(** [hex.EncodeToString] *)
Fixpoint EncodeToString (buf : string) : string :=
  match buf with
  | EmptyString => EmptyString
  | String c r => String (hex_digit (byte_val c / 16)) (String (hex_digit (byte_val c mod 16)) (EncodeToString r))
  end.

Lemma hex_digit_alnum n : (0 <= n < 16)%Z -> is_alnum (hex_digit n) = true.
Proof.
  intros H. assert (n ∈ [0; 1; 2; 3; 4; 5; 6; 7; 8; 9; 10; 11; 12; 13; 14; 15]%Z) as Hn.
  { rewrite !elem_of_cons. lia. }
  repeat (apply elem_of_cons in Hn as [->|Hn]; [done|]). by apply elem_of_nil in Hn.
Qed.

Lemma byte_val_range c : (0 <= byte_val c < 256)%Z.
Proof. revert c. all_bytes. Qed.

Lemma hex_text buf : string_forallb is_alnum (EncodeToString buf) = true /\
  String.length (EncodeToString buf) = (2 * String.length buf)%nat.
Proof.
  induction buf as [|c buf [IH1 IH2]]; [done|]. cbn [EncodeToString string_forallb String.length].
  pose proof (byte_val_range c). rewrite IH1, IH2, !hex_digit_alnum; [split; [done|lia]|..].
  - apply Z.mod_pos_bound. lia.
  - split; [apply Z.div_pos; lia|apply Z.div_lt_upper_bound; lia].
Qed.
