(* ===== verification/Utf8.v ===== *)
(** * Text as runes

    UTF-8 as Go reads it: ranging over a string, and what valid text is.  A byte
    that starts no valid encoding is read as U+FFFD, one byte at a time. *)

From S2P Require Import Prelude GoStrings.

(** ** Runes *)

Definition continuation (c : ascii) : bool := byte_in 128 191 c.

(** The length in bytes of the valid encoding [s] starts with, 0 if none. *)
Definition rune_len (s : string) : nat :=
  match s with
  | EmptyString => 0
  | String a r =>
      if byte_in 0 127 a then 1
      else match r with
      | EmptyString => 0
      | String b r =>
          if byte_in 194 223 a then (if continuation b then 2 else 0)
          else match r with
          | EmptyString => 0
          | String c r =>
              if (byte_is 224 a && byte_in 160 191 b) || (byte_in 225 236 a && continuation b) ||
                 (byte_is 237 a && byte_in 128 159 b) || (byte_in 238 239 a && continuation b)
              then (if continuation c then 3 else 0)
              else match r with
              | EmptyString => 0
              | String d _ =>
                  if ((byte_is 240 a && byte_in 144 191 b) || (byte_in 241 243 a && continuation b) ||
                      (byte_is 244 a && byte_in 128 143 b)) && continuation c && continuation d
                  then 4 else 0
              end
          end
      end
  end.

(** The bytes of U+FFFD. *)
Definition replacement_rune : string :=
  String (Ascii.ascii_of_nat 239) (String (Ascii.ascii_of_nat 191) (str1 (Ascii.ascii_of_nat 189))).

(** The encoded runes [range] gives; one per unit of fuel. *)
Fixpoint runes_fuel (fuel : nat) (s : string) : list string :=
  match fuel with
  | O => []
  | S fuel =>
      match s with
      | EmptyString => []
      | String _ r =>
          match rune_len s with
          | O => replacement_rune :: runes_fuel fuel r
          | n => take_str n s :: runes_fuel fuel (drop_str n s)
          end
      end
  end.
Definition runes (s : string) : list string := runes_fuel (String.length s) s.

(** Text in valid UTF-8. *)
Inductive utf8 : string -> Prop :=
  | utf8_nil : utf8 ""
  | utf8_rune p s : p <> "" -> rune_len p = String.length p -> utf8 s -> utf8 (p +:+ s).

(** An encoding is told by its own bytes. *)
Lemma rune_len_app p t : p <> "" -> rune_len p = String.length p -> rune_len (p +:+ t) = String.length p.
Proof.
  intros Hne H. destruct p as [|a p]; [done|]. rewrite app_cons. cbn [rune_len] in *.
  destruct (byte_in 0 127 a); [done|]. destruct p as [|b p]; [done|]. rewrite app_cons.
  destruct (byte_in 194 223 a); [done|]. destruct p as [|c p]; [done|]. rewrite app_cons.
  destruct (_ || _ || _ || _); [done|]. destruct p as [|d p]; [done|]. by rewrite app_cons.
Qed.

Lemma drop_str_le n s : (String.length (drop_str n s) <= String.length s)%nat.
Proof. revert n. induction s as [|c s IH]; intros [|n]; cbn; [lia..|]. specialize (IH n). lia. Qed.

Lemma runes_fuel_more f1 f2 s : (String.length s <= f1)%nat -> (String.length s <= f2)%nat -> runes_fuel f1 s = runes_fuel f2 s.
Proof.
  revert f2 s. induction f1 as [|f1 IH]; intros f2 s H1 H2.
  - destruct s; [|cbn in H1; lia]. by destruct f2.
  - destruct f2 as [|f2]; [destruct s; [done|cbn in H2; lia]|]. cbn [runes_fuel]. destruct s as [|c s]; [done|].
    destruct (rune_len (String c s)) as [|n]; f_equal; apply IH; cbn in *; try lia; pose proof (drop_str_le n s); lia.
Qed.

Lemma runes_rune p t : p <> "" -> rune_len p = String.length p -> runes (p +:+ t) = p :: runes t.
Proof.
  intros Hne Hp. pose proof (rune_len_app p t Hne Hp) as Hl. unfold runes.
  destruct p as [|c p]; [done|]. rewrite app_cons in *. cbn [String.length runes_fuel]. rewrite Hl. cbn [String.length].
  change (S (String.length p)) with (String.length (String c p)). rewrite <-app_cons, take_str_app, drop_str_app.
  f_equal. apply runes_fuel_more; [|done]. rewrite length_app_str. lia.
Qed.

Lemma runes_ascii c t : byte_in 0 127 c = true -> runes (String c t) = str1 c :: runes t.
Proof. intros Hc. change (String c t) with (str1 c +:+ t). apply runes_rune; [done|]. cbn. by rewrite Hc. Qed.

(** A byte below 128 is a rune of its own, in no other rune. *)
Lemma rune_high p c : rune_len p = String.length p -> byte_in 0 127 c = true -> p <> str1 c ->
  string_forallb (fun x => negb (ascii_eqb x c)) p = true.
Proof.
  intros Hp Hc Hne. assert (forall x lo hi, byte_in lo hi x = true -> (128 <= lo)%Z -> negb (ascii_eqb x c) = true) as Hx.
  { intros x lo hi Hx Hlo. apply negb_true_iff, ascii_eqb_false. intros ->. unfold byte_in in *. lia. }
  assert (forall x n, byte_is n x = true -> (128 <= n)%Z -> negb (ascii_eqb x c) = true) as Hy.
  { intros x n Hn Hlo. apply (Hx x n n); [unfold byte_is, byte_in in *; lia|done]. }
  unfold rune_len, continuation in Hp. destruct p as [|a p]; [done|].
  destruct (byte_in 0 127 a) eqn:Ea.
  { destruct p; [|done]. cbn [string_forallb]. rewrite andb_true_r. apply negb_true_iff, ascii_eqb_false. by intros ->. }
  destruct p as [|b p]; [done|]. destruct (byte_in 194 223 a) eqn:Ea2.
  { destruct (byte_in 128 191 b) eqn:Eb; [|done]. destruct p; [|done]. cbn [string_forallb].
    by rewrite (Hx a 194%Z 223%Z), (Hx b 128%Z 191%Z). }
  destruct p as [|d p]; [done|].
  assert (forall x, (exists lo hi, (128 <= lo)%Z /\ byte_in lo hi x = true) \/ (exists n, (128 <= n)%Z /\ byte_is n x = true) ->
    negb (ascii_eqb x c) = true) as Hz by (intros x [(lo & hi & ? & ?)|(n & ? & ?)]; eauto).
  match type of Hp with (if ?x then _ else _) = _ => destruct x eqn:E3 end.
  { destruct (byte_in 128 191 d) eqn:Ed; [|done]. destruct p; [|done]. cbn [string_forallb].
    rewrite (Hx d 128%Z 191%Z) by done. rewrite !andb_true_r. apply andb_true_iff.
    repeat (apply orb_true_iff in E3 as [E3|E3]); apply andb_true_iff in E3 as [A B]; split; apply Hz;
      first [left; eexists _, _; split; [|done]; done | right; eexists; split; [|done]; done]. }
  destruct p as [|e p]; [done|].
  match type of Hp with (if ?x then _ else _) = _ => destruct x eqn:E4 end; [|done].
  destruct p; [|done]. apply andb_true_iff in E4 as [E4 Ee]. apply andb_true_iff in E4 as [E4 Ed]. cbn [string_forallb].
  rewrite (Hx d 128%Z 191%Z), (Hx e 128%Z 191%Z) by done. rewrite !andb_true_r. apply andb_true_iff.
  repeat (apply orb_true_iff in E4 as [E4|E4]); apply andb_true_iff in E4 as [A B]; split; apply Hz;
    first [left; eexists _, _; split; [|done]; done | right; eexists; split; [|done]; done].
Qed.
