(* ===== verification/Json.v ===== *)
(** * JSON ([encoding/json])

    What the program uses of Go's JSON package: values as trees, [Marshal] and
    [MarshalIndent] with their HTML escaping, and [Unmarshal], a parser of the text
    followed by the decoding into struct fields ([JobJson] and [Codecs] have the
    structs).  Numbers stay literals, since the program decodes integers only and
    Go parses those from the literal.  The text of a syntax or type error is not
    modelled: every failure is the error [ErrJSON]. *)

From S2P Require Import Prelude GoStrings Utf8.

Inductive json :=
  | JNull
  | JBool (b : bool)
  | JNum (literal : string)
  | JStr (s : string)
  | JArr (items : list json)
  | JObj (members : list (string * json)).

Definition ErrJSON : goerror := ErrVar "invalid JSON".

Definition byte (n : nat) : ascii := Ascii.ascii_of_nat n.
Definition backslash_ : ascii := byte 92.
Definition cat_ (l : list string) : string := fold_right (fun a b => a +:+ b) "" l.

(** ** Printing *)

Definition hex_escape (n : Z) : string :=
  String backslash_ ("u00" +:+ String (hex_digit (n / 16)) (str1 (hex_digit (n mod 16)))).

(** [appendString] of a byte below 128, with HTML escaping. *)
Definition escape_byte (c : ascii) : string :=
  let n := byte_val c in
  if (n =? 92)%Z || (n =? 34)%Z then String backslash_ (str1 c)
  else if (n =? 8)%Z then String backslash_ "b"
  else if (n =? 12)%Z then String backslash_ "f"
  else if (n =? 10)%Z then String backslash_ "n"
  else if (n =? 13)%Z then String backslash_ "r"
  else if (n =? 9)%Z then String backslash_ "t"
  else if (n <? 32)%Z || (n =? 60)%Z || (n =? 62)%Z || (n =? 38)%Z then hex_escape n
  else str1 c.

(** U+2028 and U+2029 are escaped as well. *)
Definition escape_rune (p : string) : string :=
  if string_eqb p (String (byte 226) (String (byte 128) (str1 (byte 168)))) then String backslash_ "u2028"
  else if string_eqb p (String (byte 226) (String (byte 128) (str1 (byte 169)))) then String backslash_ "u2029"
  else match p with
  | String c EmptyString => escape_byte c
  | _ => p
  end.

(** One rune, or one byte that is none, per unit of fuel. *)
Fixpoint escape_fuel (fuel : nat) (s : string) : string :=
  match fuel with
  | O => ""
  | S fuel =>
      match s with
      | EmptyString => ""
      | String _ r =>
          match rune_len s with
          | O => String backslash_ "ufffd" +:+ escape_fuel fuel r
          | n => escape_rune (take_str n s) +:+ escape_fuel fuel (drop_str n s)
          end
      end
  end.
Definition escape (s : string) : string := escape_fuel (String.length s) s.
Definition quote_json (s : string) : string := String quote_double (escape s) +:+ str1 quote_double.

(** [newline d] starts a line at depth [d], [colon] follows a key. *)
Section Print.
Variables (line : nat -> string) (colon : string).

Definition enclosed (d : nat) (open close : string) (items : list string) : string :=
  match items with
  | [] => open +:+ close
  | _ => open +:+ line (S d) +:+ Join ("," +:+ line (S d)) items +:+ line d +:+ close
  end.

Fixpoint print (d : nat) (j : json) : string :=
  match j with
  | JNull => "null"
  | JBool b => if b then "true" else "false"
  | JNum literal => literal
  | JStr s => quote_json s
  | JArr items => enclosed d "[" "]" (map (print (S d)) items)
  | JObj members => enclosed d "{" "}" (map (fun kv => quote_json kv.1 +:+ colon +:+ print (S d) kv.2) members)
  end.
End Print.

Fixpoint blanks (n : nat) : string := match n with O => "" | S n => "  " +:+ blanks n end.

(** [Marshal], and [MarshalIndent] with no prefix and two blanks. *)
Definition compact (j : json) : string := print (fun _ => "") ":" 0 j.
Definition indented (j : json) : string := print (fun d => newline +:+ blanks d) ": " 0 j.

(** ** Parsing *)

Definition is_ws (c : ascii) : bool := byte_is 32 c || byte_is 9 c || byte_is 10 c || byte_is 13 c.
Fixpoint skip_ws (s : string) : string :=
  match s with String c r => if is_ws c then skip_ws r else s | EmptyString => s end.

Definition hex_value (c : ascii) : option Z :=
  match digit_of c with Some d => if (d <? 16)%Z then Some d else None | None => None end.
Definition hex4 (s : string) : option (Z * string) :=
  match s with
  | String a (String b (String c (String d r))) =>
      a ← hex_value a; b ← hex_value b; c ← hex_value c; d ← hex_value d;
      Some ((((a * 16 + b) * 16 + c) * 16 + d)%Z, r)
  | _ => None
  end.

Definition zbyte (n : Z) : ascii := byte (Z.to_nat n).

(** [utf8.AppendRune] *)
Definition utf8_encode (n : Z) : string :=
  if (n <? 128)%Z then str1 (zbyte n)
  else if (n <? 2048)%Z then String (zbyte (192 + n / 64)) (str1 (zbyte (128 + n mod 64)))
  else if ((55296 <=? n) && (n <? 57344))%Z || (1114111 <? n)%Z then replacement_rune
  else if (n <? 65536)%Z then
    String (zbyte (224 + n / 4096)) (String (zbyte (128 + n / 64 mod 64)) (str1 (zbyte (128 + n mod 64))))
  else String (zbyte (240 + n / 262144)) (String (zbyte (128 + n / 4096 mod 64))
         (String (zbyte (128 + n / 64 mod 64)) (str1 (zbyte (128 + n mod 64))))).

(** The rune after [\u]: two escapes that are a surrogate pair are one rune. *)
Definition unescape_u (s : string) : option (string * string) :=
  '(n, r) ← hex4 s;
  if ((55296 <=? n) && (n <? 57344))%Z then
    match r with
    | String c (String u r2) =>
        if ascii_eqb c backslash_ && ascii_eqb u "u"%char then
          match hex4 r2 with
          | Some (m, r3) =>
              if ((n <? 56320) && (56320 <=? m) && (m <? 57344))%Z
              then Some (utf8_encode (65536 + (n - 55296) * 1024 + (m - 56320)), r3)
              else Some (replacement_rune, r)
          | None => Some (replacement_rune, r)
          end
        else Some (replacement_rune, r)
    | _ => Some (replacement_rune, r)
    end
  else Some (utf8_encode n, r).

Definition unescape (s : string) : option (string * string) :=
  match s with
  | EmptyString => None
  | String c r =>
      if ascii_eqb c quote_double || ascii_eqb c backslash_ || ascii_eqb c slash then Some (str1 c, r)
      else if ascii_eqb c "b"%char then Some (str1 (byte 8), r)
      else if ascii_eqb c "f"%char then Some (str1 (byte 12), r)
      else if ascii_eqb c "n"%char then Some (str1 (byte 10), r)
      else if ascii_eqb c "r"%char then Some (str1 (byte 13), r)
      else if ascii_eqb c "t"%char then Some (str1 (byte 9), r)
      else if ascii_eqb c "u"%char then unescape_u r
      else None
  end.

(** After the opening quote: the text, and what follows the closing quote. *)
Fixpoint parse_string (fuel : nat) (s : string) : option (string * string) :=
  match fuel with
  | O => None
  | S fuel =>
      match s with
      | EmptyString => None
      | String c r =>
          if ascii_eqb c quote_double then Some ("", r)
          else if ascii_eqb c backslash_ then
            '(t, r) ← unescape r; '(u, rest) ← parse_string fuel r; Some (t +:+ u, rest)
          else if (byte_val c <? 32)%Z then None
          else match rune_len s with
          | O => '(u, rest) ← parse_string fuel r; Some (replacement_rune +:+ u, rest)
          | n => '(u, rest) ← parse_string fuel (drop_str n s); Some (take_str n s +:+ u, rest)
          end
      end
  end.

Fixpoint span_digits (s : string) : string * string :=
  match s with
  | String c r => if is_digit c then let (a, b) := span_digits r in (String c a, b) else (EmptyString, s)
  | EmptyString => (EmptyString, s)
  end.

(** At least one digit. *)
Definition digits1 (s : string) : option (string * string) :=
  match span_digits s with (EmptyString, _) => None | p => Some p end.

Definition parse_int (s : string) : option (string * string) :=
  match s with
  | String c r => if ascii_eqb c "0"%char then Some (str1 c, r) else digits1 s
  | EmptyString => None
  end.

Definition parse_frac (s : string) : option (string * string) :=
  match s with
  | String c r => if ascii_eqb c "."%char then '(a, r) ← digits1 r; Some (String c a, r) else Some ("", s)
  | EmptyString => Some ("", s)
  end.

Definition parse_exp (s : string) : option (string * string) :=
  match s with
  | String c r =>
      if ascii_eqb c "e"%char || ascii_eqb c "E"%char then
        let '(sign, r) := match r with
                          | String d r2 => if ascii_eqb d "+"%char || ascii_eqb d "-"%char then (str1 d, r2) else ("", r)
                          | EmptyString => ("", r)
                          end in
        '(a, r) ← digits1 r; Some (String c (sign +:+ a), r)
      else Some ("", s)
  | EmptyString => Some ("", s)
  end.

Definition parse_number (s : string) : option (string * string) :=
  let '(sign, r) := match s with
                    | String c r => if ascii_eqb c "-"%char then (str1 c, r) else ("", s)
                    | EmptyString => ("", s)
                    end in
  '(i, r) ← parse_int r; '(f, r) ← parse_frac r; '(e, r) ← parse_exp r; Some (sign +:+ i +:+ f +:+ e, r).

(** [null], [true] and [false] *)
Definition parse_word (word : string) (j : json) (s : string) : option (json * string) :=
  if HasPrefix s word then Some (j, drop_str (String.length word) s) else None.

(** The nesting Go accepts. *)
Definition maxNestingDepth : Z := 10000.

(** A value; the items of an array and the members of an object after the opening
    bracket or a comma.  Two units of fuel for every byte are enough. *)
Fixpoint parse_value (fuel : nat) (depth : Z) (s : string) : option (json * string) :=
  match fuel with
  | O => None
  | S fuel =>
      match skip_ws s with
      | EmptyString => None
      | String c r =>
          if ascii_eqb c quote_double then '(t, r) ← parse_string (String.length r) r; Some (JStr t, r)
          else if ascii_eqb c "["%char then
            if (depth <=? 0)%Z then None
            else match skip_ws r with
            | String e r2 => if ascii_eqb e "]"%char then Some (JArr [], r2)
                             else '(l, r) ← parse_items fuel (depth - 1) r; Some (JArr l, r)
            | EmptyString => None
            end
          else if ascii_eqb c "{"%char then
            if (depth <=? 0)%Z then None
            else match skip_ws r with
            | String e r2 => if ascii_eqb e "}"%char then Some (JObj [], r2)
                             else '(l, r) ← parse_members fuel (depth - 1) r; Some (JObj l, r)
            | EmptyString => None
            end
          else if ascii_eqb c "n"%char then parse_word "null" JNull (String c r)
          else if ascii_eqb c "t"%char then parse_word "true" (JBool true) (String c r)
          else if ascii_eqb c "f"%char then parse_word "false" (JBool false) (String c r)
          else '(n, r) ← parse_number (String c r); Some (JNum n, r)
      end
  end
with parse_items (fuel : nat) (depth : Z) (s : string) : option (list json * string) :=
  match fuel with
  | O => None
  | S fuel =>
      '(v, r) ← parse_value fuel depth s;
      match skip_ws r with
      | String c r => if ascii_eqb c ","%char then '(l, r) ← parse_items fuel depth r; Some (v :: l, r)
                      else if ascii_eqb c "]"%char then Some ([v], r) else None
      | EmptyString => None
      end
  end
with parse_members (fuel : nat) (depth : Z) (s : string) : option (list (string * json) * string) :=
  match fuel with
  | O => None
  | S fuel =>
      match skip_ws s with
      | String q r =>
          if ascii_eqb q quote_double then
            '(k, r) ← parse_string (String.length r) r;
            match skip_ws r with
            | String c r =>
                if ascii_eqb c ":"%char then
                  '(v, r) ← parse_value fuel depth r;
                  match skip_ws r with
                  | String c r => if ascii_eqb c ","%char then '(l, r) ← parse_members fuel depth r; Some ((k, v) :: l, r)
                                  else if ascii_eqb c "}"%char then Some ([(k, v)], r) else None
                  | EmptyString => None
                  end
                else None
            | EmptyString => None
            end
          else None
      | EmptyString => None
      end
  end.

(** [checkValid] and the tree: one value, with white space around it. *)
Definition parse_fuel (s : string) : nat := 2 * String.length s + 2.
Definition parse_json (s : string) : result json :=
  match parse_value (parse_fuel s) maxNestingDepth s with
  | Some (j, r) => if string_eqb (skip_ws r) "" then Ok j else Err ErrJSON
  | None => Err ErrJSON
  end.

(** ** Decoding into Go values

    A decoder gets the value a field holds, which [null] leaves as it is.  A value
    of the wrong type is noted and left out, and decoding goes on: the result is
    the new value and whether nothing was left out. *)

Definition decoded (A : Type) : Type := A * bool.
Definition decoder (A : Type) : Type := json -> A -> decoded A.

#[export] Instance decoded_ret : MRet decoded := fun _ a => (a, true).
#[export] Instance decoded_bind : MBind decoded := fun _ _ f m => let (b, ok) := f m.1 in (b, m.2 && ok).

Definition good {A} (a : A) : decoded A := (a, true).
Definition mismatch {A} (old : A) : decoded A := (old, false).

Definition dec_string : decoder string := fun j old =>
  match j with JNull => good old | JStr s => good s | _ => mismatch old end.
Definition dec_bool : decoder bool := fun j old =>
  match j with JNull => good old | JBool b => good b | _ => mismatch old end.
Definition dec_num (parse : string -> option Z) : decoder Z := fun j old =>
  match j with
  | JNull => good old
  | JNum literal => match parse literal with Some n => good n | None => mismatch old end
  | _ => mismatch old
  end.
Definition dec_int : decoder Z := dec_num Atoi.
Definition dec_uint (bits : Z) : decoder Z := dec_num (ParseUint 10 bits).

(** A pointer: [null] is [nil]. *)
Definition dec_ptr {A} (zero : A) (dec : decoder A) : decoder (option A) := fun j old =>
  match j with
  | JNull => good None
  | _ => a ← dec j (default zero old); good (Some a)
  end.

(** A slice: [null] is [nil]; items are decoded into those already there.  What a
    third array for one field finds behind the end of a shorter second one is
    taken for zero values. *)
Fixpoint dec_items {A} (zero : A) (dec : decoder A) (items : list json) (old : list A) : decoded (list A) :=
  match items with
  | [] => good []
  | j :: items =>
      a ← dec j (default zero (head old)); l ← dec_items zero dec items (tail old); good (a :: l)
  end.
Definition dec_list {A} (zero : A) (dec : decoder A) : decoder (list A) := fun j old =>
  match j with
  | JNull => good []
  | JArr items => dec_items zero dec items old
  | _ => mismatch old
  end.

(** A map with string keys: every member is decoded into a zero value.  [None] is
    the nil map. *)
Fixpoint dec_entries {A} (zero : A) (dec : decoder A) (members : list (string * json)) (m : gmap string A) : decoded (gmap string A) :=
  match members with
  | [] => good m
  | (k, j) :: members => a ← dec j zero; dec_entries zero dec members (<[k := a]> m)
  end.
Definition dec_map {A} (zero : A) (dec : decoder A) : decoder (option (gmap string A)) := fun j old =>
  match j with
  | JNull => good None
  | JObj members => m ← dec_entries zero dec members (default ∅ old); good (Some m)
  | _ => mismatch old
  end.

(** Keys match without regard to case: ASCII letters, and the two letters outside
    ASCII that fold to them, the long s and the Kelvin sign. *)
Fixpoint fold_key (s : string) : string :=
  match s with
  | EmptyString => ""
  | String c r =>
      match r with
      | String d r2 =>
          if byte_is 197 c && byte_is 191 d then String "s"%char (fold_key r2)
          else match r2 with
          | String e r3 =>
              if byte_is 226 c && byte_is 132 d && byte_is 170 e then String "k"%char (fold_key r3)
              else String (if is_upper c then byte (Ascii.nat_of_ascii c + 32) else c) (fold_key r)
          | EmptyString => String (if is_upper c then byte (Ascii.nat_of_ascii c + 32) else c) (fold_key r)
          end
      | EmptyString => str1 (if is_upper c then byte (Ascii.nat_of_ascii c + 32) else c)
      end
  end.

(** The field of a struct: every member with its key is decoded in turn.  No two
    fields of a struct of the program have names equal but for case, so the
    preference for the exact name never matters. *)
Fixpoint dec_field {A} (name : string) (dec : decoder A) (members : list (string * json)) (old : A) : decoded A :=
  match members with
  | [] => good old
  | (k, j) :: members =>
      if string_eqb (fold_key k) (fold_key name)
      then a ← dec j old; dec_field name dec members a
      else dec_field name dec members old
  end.

Definition dec_object {A} (fields : list (string * json) -> A -> decoded A) : decoder A := fun j old =>
  match j with JNull => good old | JObj members => fields members old | _ => mismatch old end.

(** [Unmarshal]: the value afterwards and whether there was no error.  A text that
    is no JSON leaves the value as it is. *)
Definition Unmarshal {A} (dec : decoder A) (s : string) (old : A) : decoded A :=
  match parse_json s with Ok j => dec j old | Err _ => mismatch old end.

(** The same when a value with an error is not used. *)
Definition unmarshal {A} (dec : decoder A) (zero : A) (s : string) : result A :=
  let (a, ok) := Unmarshal dec s zero in if ok then Ok a else Err ErrJSON.

(** ** Encoding of Go values *)

Definition enc_int (n : Z) : json := JNum (Itoa n).
Definition enc_uint (n : Z) : json := JNum (FormatUint n).
Definition enc_strings (l : list string) : json := JArr (map JStr l).

(** A field that is left out is [None]. *)
Definition always (j : json) : option json := Some j.
Definition unless (zero : bool) (j : json) : option json := if zero then None else Some j.
Definition omit_string (s : string) : option json := unless (string_eqb s "") (JStr s).
Definition omit_int (n : Z) : option json := unless (n =? 0)%Z (enc_int n).
Definition omit_uint (n : Z) : option json := unless (n =? 0)%Z (enc_uint n).
Definition omit_bool (b : bool) : option json := unless (negb b) (JBool b).
Definition omit_strings (l : list string) : option json := unless (length l =? 0)%nat (enc_strings l).

Definition struct (fields : list (string * option json)) : json :=
  JObj (omap (fun f => (fun j => (f.1, j)) <$> f.2) fields).
