(* ===== verification/JsonProofs.v ===== *)
(** * JSON: proofs

    What is printed is read back, compact or indented and with any white space
    around it; reading needs no more fuel than it is given; and a field of a
    struct is read back from the members its struct was encoded to. *)

From S2P Require Import Prelude GoStrings Utf8 Json.

(** ** Values that can be printed *)

(** Literals of integers. *)
Definition int_literal (s : string) : Prop := (exists n, in_s64 n /\ s = Itoa n) \/ exists n, in_u64 n /\ s = FormatUint n.

Fixpoint json_ok (j : json) : Prop :=
  match j with
  | JNull | JBool _ => True
  | JNum s => int_literal s
  | JStr s => utf8 s
  | JArr items => (fix all (l : list json) : Prop := match l with [] => True | j :: l => json_ok j /\ all l end) items
  | JObj members =>
      (fix all (l : list (string * json)) : Prop :=
         match l with [] => True | (k, j) :: l => utf8 k /\ json_ok j /\ all l end) members
  end.

Fixpoint depth (j : json) : Z :=
  match j with
  | JArr items => 1 + (fix most (l : list json) : Z := match l with [] => 0%Z | j :: l => Z.max (depth j) (most l) end) items
  | JObj members =>
      1 + (fix most (l : list (string * json)) : Z := match l with [] => 0%Z | (_, j) :: l => Z.max (depth j) (most l) end) members
  | _ => 0
  end%Z.

Lemma json_ok_arr items : json_ok (JArr items) <-> Forall json_ok items.
Proof.
  cbn [json_ok]. induction items as [|j l IH]; [by rewrite Forall_nil|]. by rewrite Forall_cons, IH.
Qed.

Lemma json_ok_obj members : json_ok (JObj members) <-> Forall (fun kv => utf8 kv.1 /\ json_ok kv.2) members.
Proof.
  cbn [json_ok]. induction members as [|[k j] l IH]; [by rewrite Forall_nil|]. rewrite Forall_cons, IH. cbn [fst snd]. tauto.
Qed.

Lemma depth_arr items D : (depth (JArr items) <= D)%Z -> (1 <= D)%Z /\ Forall (fun j => (depth j <= D - 1)%Z) items.
Proof.
  cbn [depth]. set (most := fix most (l : list json) : Z := match l with [] => 0%Z | j :: l => Z.max (depth j) (most l) end).
  assert (forall l, (0 <= most l)%Z /\ forall E, (most l <= E)%Z -> Forall (fun j => (depth j <= E)%Z) l) as H.
  { induction l as [|j l [IH1 IH2]]; [split; [done|constructor]|]. change (most (j :: l)) with (Z.max (depth j) (most l)).
    split; [lia|]. intros E HE. constructor; [lia|]. apply IH2. lia. }
  destruct (H items) as [H1 H2]. intros HD. split; [lia|]. apply H2. lia.
Qed.

Lemma depth_obj members D : (depth (JObj members) <= D)%Z -> (1 <= D)%Z /\ Forall (fun kv => (depth kv.2 <= D - 1)%Z) members.
Proof.
  cbn [depth]. set (most := fix most (l : list (string * json)) : Z := match l with [] => 0%Z | (_, j) :: l => Z.max (depth j) (most l) end).
  assert (forall l, (0 <= most l)%Z /\ forall E, (most l <= E)%Z -> Forall (fun kv => (depth kv.2 <= E)%Z) l) as H.
  { induction l as [|[k j] l [IH1 IH2]]; [split; [done|constructor]|]. change (most ((k, j) :: l)) with (Z.max (depth j) (most l)).
    split; [lia|]. intros E HE. constructor; [cbn; lia|]. apply IH2. lia. }
  destruct (H members) as [H1 H2]. intros HD. split; [lia|]. apply H2. lia.
Qed.

(** Induction over values with the hypothesis for every item and member. *)
Lemma json_induction (P : json -> Prop) :
  P JNull -> (forall b, P (JBool b)) -> (forall s, P (JNum s)) -> (forall s, P (JStr s)) ->
  (forall items, Forall P items -> P (JArr items)) ->
  (forall members, Forall (fun kv => P kv.2) members -> P (JObj members)) -> forall j, P j.
Proof.
  intros Hnull Hbool Hnum Hstr Harr Hobj. fix IH 1. intros [|b|s|s|items|members]; [done..| |].
  - apply Harr. induction items as [|j l IHl]; constructor; [apply IH|apply IHl].
  - apply Hobj. induction members as [|[k j] l IHl]; constructor; [apply IH|apply IHl].
Qed.

(** ** Strings *)

Lemma escape_fuel_more f1 f2 s : (String.length s <= f1)%nat -> (String.length s <= f2)%nat -> escape_fuel f1 s = escape_fuel f2 s.
Proof.
  revert f2 s. induction f1 as [|f1 IH]; intros f2 s H1 H2.
  - destruct s; [|cbn in H1; lia]. by destruct f2.
  - destruct f2 as [|f2]; [destruct s; [done|cbn in H2; lia]|]. cbn [escape_fuel]. destruct s as [|c s]; [done|].
    destruct (rune_len (String c s)) as [|n]; f_equal; apply IH; cbn in *; try lia; pose proof (drop_str_le n s); lia.
Qed.

Lemma escape_rune_app p s : p <> "" -> rune_len p = String.length p -> escape (p +:+ s) = escape_rune p +:+ escape s.
Proof.
  intros Hne Hp. pose proof (rune_len_app p s Hne Hp) as Hl. unfold escape.
  destruct p as [|c p]; [done|]. rewrite app_cons in *. cbn [String.length escape_fuel]. rewrite Hl. cbn [String.length].
  change (S (String.length p)) with (String.length (String c p)). rewrite <-app_cons, take_str_app, drop_str_app.
  f_equal. apply escape_fuel_more; [|done]. rewrite length_app_str. lia.
Qed.

(** Reading one escaped byte, or a rune that is not escaped. *)
Lemma parse_escaped_byte c t f : byte_in 0 127 c = true ->
  parse_string (S f) (escape_byte c +:+ t) = '(u, rest) ← parse_string f t; Some (str1 c +:+ u, rest).
Proof. destruct c as [[] [] [] [] [] [] [] []]; intros H; try discriminate H; reflexivity. Qed.

Lemma rune_first c p : rune_len (String c p) = String.length (String c p) -> p <> "" -> (194 <= byte_val c)%Z.
Proof.
  intros H Hne. cbn [rune_len] in H. unfold byte_in, byte_is in H. destruct p as [|b p]; [done|].
  destruct ((0 <=? byte_val c) && (byte_val c <=? 127))%Z eqn:E0; [done|].
  destruct ((194 <=? byte_val c) && (byte_val c <=? 223))%Z eqn:E1; [lia|].
  destruct p as [|d p]; [done|].
  match type of H with (if ?x then _ else _) = _ => destruct x eqn:E2 end; [lia|].
  destruct p as [|e p]; [done|]. match type of H with (if ?x then _ else _) = _ => destruct x eqn:E3 end; [lia|done].
Qed.

Lemma ascii_neq_val a b : byte_val a <> byte_val b -> ascii_eqb a b = false.
Proof. intros H. apply ascii_eqb_false. by intros ->. Qed.

Lemma parse_plain_rune c p t f : rune_len (String c p) = String.length (String c p) -> p <> "" ->
  parse_string (S f) (String c p +:+ t) = '(u, rest) ← parse_string f t; Some (String c p +:+ u, rest).
Proof.
  intros Hl Hne. pose proof (rune_first _ _ Hl Hne) as Hc. pose proof (rune_len_app (String c p) t ltac:(done) Hl) as Ha.
  rewrite app_cons in *. cbn [parse_string].
  assert (byte_val quote_double = 34 /\ byte_val backslash_ = 92)%Z as [Hq Hb] by done.
  rewrite (ascii_neq_val c quote_double), (ascii_neq_val c backslash_) by lia.
  assert (byte_val c <? 32 = false)%Z as -> by lia. rewrite Ha. cbn [String.length].
  change (S (String.length p)) with (String.length (String c p)). by rewrite <-app_cons, drop_str_app, take_str_app.
Qed.

Lemma parse_escaped_rune p t f : p <> "" -> rune_len p = String.length p ->
  parse_string (S f) (escape_rune p +:+ t) = '(u, rest) ← parse_string f t; Some (p +:+ u, rest).
Proof.
  intros Hne Hp. unfold escape_rune. case_goal; [str_eqb; subst; reflexivity|]. case_goal; [str_eqb; subst; reflexivity|].
  destruct p as [|c p]; [done|]. destruct p as [|d p].
  - apply parse_escaped_byte. cbn [rune_len String.length] in Hp. by destruct (byte_in 0 127 c).
  - by apply parse_plain_rune.
Qed.

Lemma escape_rune_length p : p <> "" -> (1 <= String.length (escape_rune p))%nat.
Proof.
  intros Hne. unfold escape_rune. do 2 (case_goal; [cbn; lia|]). destruct p as [|c [|d p]]; [done| |cbn; lia].
  unfold escape_byte, hex_escape. repeat case_goal; cbn; lia.
Qed.

Lemma parse_string_escape s rest fuel : utf8 s -> (String.length (escape s) < fuel)%nat ->
  parse_string fuel (escape s +:+ str1 quote_double +:+ rest) = Some (s, rest).
Proof.
  intros Hs. revert fuel. induction Hs as [|p s Hne Hp _ IH]; intros fuel Hf.
  - destruct fuel as [|fuel]; [cbn in Hf; lia|]. reflexivity.
  - rewrite escape_rune_app in * by done. rewrite length_app_str in Hf. pose proof (escape_rune_length p Hne).
    destruct fuel as [|fuel]; [lia|]. rewrite app_assoc_str, parse_escaped_rune by done. rewrite IH by lia. done.
Qed.

(** ** Numbers *)

(** What may follow a value. *)
Definition stops (t : string) : Prop :=
  match t with
  | EmptyString => True
  | String c _ => is_digit c = false /\ c <> "."%char /\ c <> "e"%char /\ c <> "E"%char
  end.

Lemma span_digits_app s t : string_forallb is_digit s = true -> stops t -> span_digits (s +:+ t) = (s, t).
Proof.
  intros Hs Ht. induction s as [|c s IH].
  - rewrite app_empty_l. destruct t as [|c t]; [done|]. cbn [span_digits]. destruct Ht as [-> _]. done.
  - cbn [string_forallb] in Hs. apply andb_true_iff in Hs as [Hc Hs]. rewrite app_cons. cbn [span_digits]. by rewrite Hc, IH.
Qed.

Lemma digit_char_zero n : (0 < n < 10)%Z -> digit_char n <> "0"%char.
Proof.
  intros Hn E. apply (f_equal Ascii.nat_of_ascii) in E. unfold digit_char in E. rewrite Ascii.nat_ascii_embedding in E by lia.
  change (Ascii.nat_of_ascii "0"%char) with 48%nat in E. lia.
Qed.

(** The first digit of a positive number. *)
Lemma digits_fuel_head fuel n acc c r :
  (0 < n < 10 ^ Z.of_nat (S fuel))%Z -> digits_fuel (S fuel) n acc = String c r -> c <> "0"%char.
Proof.
  revert n acc c r. induction fuel as [|fuel IH]; intros n acc c r Hn H.
  - change (10 ^ Z.of_nat 1)%Z with 10%Z in Hn. cbn [digits_fuel] in H. rewrite Z.mod_small in H by lia.
    assert (c = digit_char n) as -> by (destruct (n / 10 =? 0)%Z; congruence). apply digit_char_zero. lia.
  - remember (S fuel) as f eqn:Ef. cbn [digits_fuel] in H. destruct (n / 10 =? 0)%Z eqn:E.
    + injection H as <- _. apply Z.eqb_eq in E. assert (n < 10)%Z by (apply Z.div_small_iff in E; lia).
      rewrite Z.mod_small by lia. apply digit_char_zero. lia.
    + apply (IH (n / 10)%Z (String (digit_char (n mod 10)) acc) c r); [|exact H]. apply Z.eqb_neq in E.
      pose proof (Z.div_pos n 10). split; [lia|]. apply Z.div_lt_upper_bound; [lia|].
      rewrite Nat2Z.inj_succ, Z.pow_succ_r in Hn by lia. lia.
Qed.

(** The integers printed here are integers of the grammar. *)
Lemma parse_int_FormatUint n t : in_u64 n -> stops t -> parse_int (FormatUint n +:+ t) = Some (FormatUint n, t).
Proof.
  intros Hn Ht. destruct (decide (n = 0%Z)) as [->|H0]; [done|].
  destruct (FormatUint_cons n) as (c & r & E). pose proof (FormatUint_digits n (proj1 Hn)) as Hd. rewrite E in *.
  assert (c <> "0"%char) as Hc.
  { apply (digits_fuel_head 29 n "" c r); [|exact E]. unfold in_u64, two64 in Hn. change (10 ^ Z.of_nat 30)%Z with 1000000000000000000000000000000%Z. lia. }
  rewrite app_cons. cbn [parse_int]. apply ascii_eqb_false in Hc. rewrite Hc, <-app_cons.
  unfold digits1. by rewrite span_digits_app.
Qed.

Lemma parse_tail t : stops t -> parse_frac t = Some ("", t) /\ parse_exp t = Some ("", t).
Proof.
  destruct t as [|c t]; [done|]. intros (_ & H1 & H2 & H3). cbn [parse_frac parse_exp].
  apply ascii_eqb_false in H1, H2, H3. by rewrite H1, H2, H3.
Qed.

Lemma app_empty_r' s : s +:+ "" +:+ "" = s.
Proof. by rewrite !app_empty_r. Qed.

Lemma parse_number_int s t : int_literal s -> stops t -> parse_number (s +:+ t) = Some (s, t).
Proof.
  intros Hs Ht. destruct (parse_tail t Ht) as [Hf He].
  assert (forall m, in_u64 m -> parse_number (FormatUint m +:+ t) = Some (FormatUint m, t)) as Hpos.
  { intros m Hm. destruct (FormatUint_cons m) as (c & r & E). pose proof (FormatUint_digits m (proj1 Hm)) as Hd.
    pose proof (parse_int_FormatUint m t Hm Ht) as Hi. rewrite E in *.
    assert (ascii_eqb c "-"%char = false) as Hc.
    { apply ascii_eqb_false. intros ->. done. }
    unfold parse_number. rewrite app_cons, Hc, <-app_cons, Hi. cbn -[String.append]. rewrite Hf. cbn -[String.append].
    rewrite He. cbn -[String.append]. by rewrite app_empty_l, app_empty_r'. }
  destruct Hs as [(n & Hn & ->)|(n & Hn & ->)]; [|by apply Hpos].
  unfold Itoa, in_s64, in_u64, two63, two64 in *. destruct (n <? 0)%Z eqn:E; [|apply Hpos; unfold in_u64, two64; lia].
  unfold parse_number. rewrite app_cons. change (ascii_eqb "-"%char "-"%char) with true. cbn iota.
  rewrite parse_int_FormatUint; [|unfold in_u64, two64; lia|done]. cbn -[String.append]. rewrite Hf. cbn -[String.append].
  rewrite He. cbn -[String.append]. by rewrite app_empty_r'.
Qed.

(** Comparing two characters that are known. *)
Ltac eval_eqb :=
  repeat match goal with
  | |- context [ascii_eqb (Ascii.Ascii ?a ?b ?c ?d ?e ?f ?g ?h) ?y] =>
      let v := eval vm_compute in (ascii_eqb (Ascii.Ascii a b c d e f g h) y) in
      match v with
      | true => change (ascii_eqb (Ascii.Ascii a b c d e f g h) y) with true
      | false => change (ascii_eqb (Ascii.Ascii a b c d e f g h) y) with false
      end
  end; cbn iota.

(** ** White space *)

Definition ws (s : string) : Prop := string_forallb is_ws s = true.

Lemma skip_ws_app w t : ws w -> skip_ws (w +:+ t) = skip_ws t.
Proof.
  unfold ws. induction w as [|c w IH]; [done|]. cbn [string_forallb]. intros [Hc Hw]%andb_true_iff.
  rewrite app_cons. cbn [skip_ws]. by rewrite Hc, IH.
Qed.

Lemma ws_stops w t : ws w -> stops t -> stops (w +:+ t).
Proof.
  intros Hw Ht. destruct w as [|c w]; [done|]. unfold ws in Hw. cbn [string_forallb] in Hw. apply andb_true_iff in Hw as [Hc _].
  rewrite app_cons. cbn. destruct c as [[] [] [] [] [] [] [] []]; try discriminate Hc; by split_and!.
Qed.

(** [Join] of at least one item starts with it. *)
Definition Join_rest (sep : string) (l : list string) : string := match l with [] => "" | _ => sep +:+ Join sep l end.
Lemma Join_first sep x l : Join sep (x :: l) = x +:+ Join_rest sep l.
Proof. destruct l; [by rewrite app_empty_r|done]. Qed.

(** A character that begins a value: no white space and no closing bracket. *)
Definition opens (s : string) : Prop :=
  match s with
  | EmptyString => False
  | String c _ => is_ws c = false /\ c <> "]"%char /\ c <> "}"%char
  end.

Lemma opens_skip s t : opens s -> skip_ws (s +:+ t) = s +:+ t.
Proof. destruct s as [|c s]; [done|]. intros [H _]. rewrite app_cons. cbn [skip_ws]. by rewrite H. Qed.

Lemma opens_app s t : opens s -> opens (s +:+ t).
Proof. by destruct s. Qed.

Lemma opens_digits s : s <> "" -> string_forallb is_digit s = true -> opens s.
Proof.
  destruct s as [|c s]; [done|]. intros _ H. cbn [string_forallb] in H. apply andb_true_iff in H as [H _]. cbn.
  destruct c as [[] [] [] [] [] [] [] []]; try discriminate H; by split_and!.
Qed.

Lemma opens_int s : int_literal s -> opens s.
Proof.
  assert (forall n, (0 <= n)%Z -> opens (FormatUint n)) as H.
  { intros n Hn. apply opens_digits; [|by apply FormatUint_digits]. destruct (FormatUint_cons n) as (c & r & ->). done. }
  intros [(n & _ & ->)|(n & [Hn _] & ->)]; [|by apply H]. unfold Itoa. destruct (n <? 0)%Z eqn:E; [by cbn|]. apply H. lia.
Qed.

(** ** Reading back what was printed *)

Section RoundTrip.
Variables (line : nat -> string) (space : string).
Hypothesis (Hline : forall d, ws (line d)) (Hspace : ws space).
#[local] Notation colon := (":" +:+ space).
#[local] Notation pr := (print line colon).

Lemma print_opens d j : json_ok j -> opens (pr d j).
Proof.
  destruct j as [|[]|s|s|items|members]; cbn [print]; try (intros _; by split_and!).
  - apply opens_int.
  - intros _. unfold enclosed. destruct (map _ items); by split_and!.
  - intros _. unfold enclosed. destruct (map _ members); by split_and!.
Qed.

Definition reads_back (j : json) : Prop := forall d D w t fuel,
  ws w -> json_ok j -> (depth j <= D)%Z -> stops t -> (2 * String.length (w +:+ pr d j +:+ t) + 1 <= fuel)%nat ->
  parse_value fuel D (w +:+ pr d j +:+ t) = Some (j, t).

Lemma skip_comma x : skip_ws ("," +:+ x) = String ","%char x.
Proof. done. Qed.

(** A key with its quotes. *)
Lemma parse_key k t : utf8 k ->
  parse_string (String.length (escape k +:+ str1 quote_double +:+ t)) (escape k +:+ str1 quote_double +:+ t) = Some (k, t).
Proof. intros Hk. apply parse_string_escape; [done|]. rewrite !length_app_str. cbn. lia. Qed.

Lemma parse_items_back items : items <> [] -> Forall reads_back items -> forall d D w w2 t fuel,
  ws w -> ws w2 -> Forall json_ok items -> Forall (fun j => (depth j <= D)%Z) items ->
  (2 * String.length (w +:+ Join ("," +:+ line d) (map (pr d) items) +:+ w2 +:+ "]" +:+ t) + 2 <= fuel)%nat ->
  parse_items fuel D (w +:+ Join ("," +:+ line d) (map (pr d) items) +:+ w2 +:+ "]" +:+ t) = Some (items, t).
Proof.
  induction items as [|j items IH]; [done|]. intros _ [Hj Hr]%Forall_cons d D w w2 t fuel Hw Hw2 [Oj Or]%Forall_cons [Dj Dr]%Forall_cons Hf.
  destruct fuel as [|fuel]; [lia|]. cbn [parse_items]. destruct items as [|j2 items].
  - cbn [map Join] in *. rewrite (Hj d D w (w2 +:+ "]" +:+ t)) by (done || lia || by apply ws_stops).
    cbn -[skip_ws String.append]. rewrite skip_ws_app by done. reflexivity.
  - cbn [map] in *. rewrite Join_cons in * by done. rewrite !app_assoc_str in *.
    assert (parse_items fuel D (line d +:+ Join ("," +:+ line d) (pr d j2 :: map (pr d) items) +:+ w2 +:+ "]" +:+ t) =
            Some (j2 :: items, t)) as Hrest.
    { apply IH; try done. rewrite !length_app_str in *. cbn [String.length map] in *. lia. }
    set (rest := Join _ _) in *. clearbody rest. rewrite (Hj d D w); [|done|done|done|by split_and!|lia].
    cbn -[String.append parse_items skip_ws]. rewrite skip_comma. cbn iota.
    change (ascii_eqb ","%char ","%char) with true. cbn iota. by rewrite Hrest.
Qed.
Lemma parse_members_back members : members <> [] -> Forall (fun kv => reads_back kv.2) members -> forall d D w w2 t fuel,
  ws w -> ws w2 -> Forall (fun kv => utf8 kv.1 /\ json_ok kv.2) members -> Forall (fun kv => (depth kv.2 <= D)%Z) members ->
  let items := map (fun kv => quote_json kv.1 +:+ colon +:+ pr d kv.2) members in
  (2 * String.length (w +:+ Join ("," +:+ line d) items +:+ w2 +:+ "}" +:+ t) + 2 <= fuel)%nat ->
  parse_members fuel D (w +:+ Join ("," +:+ line d) items +:+ w2 +:+ "}" +:+ t) = Some (members, t).
Proof.
  induction members as [|[k j] members IH]; [done|].
  intros _ [Hj Hr]%Forall_cons d D w w2 t fuel Hw Hw2 [[Hk Oj] Or]%Forall_cons [Dj Dr]%Forall_cons items Hf.
  destruct fuel as [|fuel]; [lia|]. cbn [fst snd] in Hj, Hk, Oj, Dj.
  (* the first member, with whatever follows *)
  assert (forall rest l, stops rest -> (2 * String.length (w +:+ (quote_json k +:+ colon +:+ pr d j) +:+ rest) + 1 <= fuel)%nat ->
    (match skip_ws rest with
     | String c r => if ascii_eqb c ","%char then '(l, r) ← parse_members fuel D r; Some ((k, j) :: l, r)
                     else if ascii_eqb c "}"%char then Some ([(k, j)], r) else None
     | EmptyString => None
     end) = Some l -> parse_members (S fuel) D (w +:+ (quote_json k +:+ colon +:+ pr d j) +:+ rest) = Some l) as Hfirst.
  { intros rest l Hst Hlen Hl. cbn [parse_members]. rewrite skip_ws_app by done. unfold quote_json. rewrite !app_assoc_str, app_cons.
    cbn [skip_ws]. change (is_ws quote_double) with false. cbn iota. change (ascii_eqb quote_double quote_double) with true. cbn iota.
    rewrite parse_key by done. cbn -[String.append skip_ws parse_value parse_members]. rewrite app_cons. cbn [skip_ws].
    change (is_ws ":"%char) with false. cbn iota. change (ascii_eqb ":"%char ":"%char) with true. cbn iota. rewrite app_empty_l.
    rewrite (Hj d D space rest fuel) by (done || (unfold quote_json in Hlen; rewrite !length_app_str in *; cbn [fst snd String.length] in *; lia)).
    exact Hl. }
  destruct members as [|kv2 members].
  - cbn [items map Join fst snd] in *. apply Hfirst; [by apply ws_stops|lia|]. rewrite skip_ws_app by done. reflexivity.
  - unfold items in *. cbn [map] in *. rewrite Join_cons in * by done. rewrite (app_assoc_str (quote_json _ +:+ _)) in *.
    rewrite (app_assoc_str ("," +:+ _)), (app_assoc_str ",") in *. cbn [fst snd] in *.
    assert (parse_members fuel D (line d +:+ Join ("," +:+ line d)
      ((quote_json kv2.1 +:+ colon +:+ pr d kv2.2) :: map (fun kv => quote_json kv.1 +:+ colon +:+ pr d kv.2) members)
      +:+ w2 +:+ "}" +:+ t) = Some (kv2 :: members, t)) as Hrest.
    { apply IH; try done. rewrite !length_app_str in *. cbn [String.length map] in *. lia. }
    set (rest := Join _ _) in *. clearbody rest. apply Hfirst; [by split_and!|lia|].
    rewrite skip_comma. cbn iota. change (ascii_eqb ","%char ","%char) with true. cbn iota. by rewrite Hrest.
Qed.

(** A bracket, and what it encloses. *)
Lemma parse_open_items D r t items fuel :
  (1 <= D)%Z -> (exists c r2, skip_ws r = String c r2 /\ c <> "]"%char) -> parse_items fuel (D - 1) r = Some (items, t) ->
  parse_value (S fuel) D ("[" +:+ r) = Some (JArr items, t).
Proof.
  intros HD (c & r2 & Hr & Hc) Hi. apply ascii_eqb_false in Hc. cbn [parse_value].
  change (skip_ws ("[" +:+ r)) with (String "["%char r). cbn iota.
  change (ascii_eqb "["%char quote_double) with false. change (ascii_eqb "["%char "["%char) with true. cbn iota.
  assert (D <=? 0 = false)%Z as -> by lia. rewrite Hr, Hc, Hi. done.
Qed.

Lemma parse_open_members D r t members fuel :
  (1 <= D)%Z -> (exists c r2, skip_ws r = String c r2 /\ c <> "}"%char) -> parse_members fuel (D - 1) r = Some (members, t) ->
  parse_value (S fuel) D ("{" +:+ r) = Some (JObj members, t).
Proof.
  intros HD (c & r2 & Hr & Hc) Hi. apply ascii_eqb_false in Hc. cbn [parse_value].
  change (skip_ws ("{" +:+ r)) with (String "{"%char r). cbn iota.
  change (ascii_eqb "{"%char quote_double) with false. change (ascii_eqb "{"%char "["%char) with false.
  change (ascii_eqb "{"%char "{"%char) with true. cbn iota.
  assert (D <=? 0 = false)%Z as -> by lia. rewrite Hr, Hc, Hi. done.
Qed.

Lemma parse_empty D t fuel : (1 <= D)%Z ->
  parse_value (S fuel) D (("[" +:+ "]") +:+ t) = Some (JArr [], t) /\
  parse_value (S fuel) D (("{" +:+ "}") +:+ t) = Some (JObj [], t).
Proof.
  intros HD. assert (D <=? 0 = false)%Z as H by lia. split; cbn [parse_value].
  - change (skip_ws (("[" +:+ "]") +:+ t)) with (String "["%char (String "]"%char t)). cbn iota. eval_eqb. by rewrite H.
  - change (skip_ws (("{" +:+ "}") +:+ t)) with (String "{"%char (String "}"%char t)). cbn iota. eval_eqb. by rewrite H.
Qed.

Lemma parse_skip fuel D w s : ws w -> parse_value fuel D (w +:+ s) = parse_value fuel D s.
Proof. intros Hw. destruct fuel as [|fuel]; [done|]. cbn [parse_value]. by rewrite skip_ws_app. Qed.

Lemma parse_int_value n D t fuel : int_literal n -> stops t -> parse_value (S fuel) D (n +:+ t) = Some (JNum n, t).
Proof.
  intros Hn Ht. pose proof (opens_skip n t (opens_int n Hn)) as Hs. pose proof (parse_number_int n t Hn Ht) as Hp.
  cbn [parse_value]. rewrite Hs. clear Hs. destruct n as [|c n].
  { destruct Hn as [(m & _ & E)|(m & _ & E)]; [|by destruct (FormatUint_cons m) as (? & ? & F); rewrite F in E].
    unfold Itoa in E. destruct (m <? 0)%Z; [done|]. destruct (FormatUint_cons m) as (? & ? & F). by rewrite F in E. }
  assert (is_digit c = true \/ c = "-"%char) as Hc.
  { assert (forall m, (0 <= m)%Z -> String c n = FormatUint m -> is_digit c = true) as H.
    { intros m Hm E. pose proof (FormatUint_digits m Hm) as Hd. rewrite <-E in Hd. cbn [string_forallb] in Hd.
      by apply andb_true_iff in Hd as [? _]. }
    destruct Hn as [(m & _ & E)|(m & [Hm _] & E)]; [|left; by eapply H].
    unfold Itoa in E. destruct (m <? 0)%Z eqn:Em; [right; congruence|]. left. apply (H m); [lia|done]. }
  rewrite app_cons in *. assert (forall x, is_digit x = false -> x <> "-"%char -> ascii_eqb c x = false) as Hx.
  { intros x H1 H2. apply ascii_eqb_false. intros ->. destruct Hc; congruence. }
  rewrite !Hx by done. by rewrite Hp.
Qed.

Lemma parse_word_value word j t fuel D :
  (word = "null" /\ j = JNull) \/ (word = "true" /\ j = JBool true) \/ (word = "false" /\ j = JBool false) ->
  parse_value (S fuel) D (word +:+ t) = Some (j, t).
Proof.
  intros Hword. assert (parse_word word j (word +:+ t) = Some (j, t)) as Hw.
  { unfold parse_word. by rewrite HasPrefix_app, drop_str_app. }
  destruct Hword as [[-> ->]|[[-> ->]|[-> ->]]]; cbn [parse_value]; rewrite opens_skip by (by split_and!);
    rewrite app_cons in *; eval_eqb; exact Hw.
Qed.

Theorem print_reads_back j : reads_back j.
Proof.
  induction j as [|b|s|s|items IH|members IH] using json_induction; intros d D w t fuel Hw Hj HD Ht Hf;
    rewrite parse_skip by done; rewrite length_app_str in Hf; (destruct fuel as [|fuel]; [lia|]); cbn [print] in *.
  - exact (parse_word_value "null" JNull t fuel D ltac:(tauto)).
  - destruct b; [exact (parse_word_value "true" (JBool true) t fuel D ltac:(tauto))|exact (parse_word_value "false" (JBool false) t fuel D ltac:(tauto))].
  - by apply parse_int_value.
  - cbn [parse_value]. unfold quote_json. rewrite app_assoc_str, app_cons. cbn [skip_ws]. change (is_ws quote_double) with false. cbn iota.
    change (ascii_eqb quote_double quote_double) with true. cbn iota. by rewrite parse_key.
  - apply json_ok_arr in Hj. apply depth_arr in HD as [HD1 HD]. unfold enclosed in *. destruct (map _ items) as [|x l] eqn:El.
    { destruct items; [|done]. by apply parse_empty. }
    rewrite !app_assoc_str in *. apply parse_open_items; [done| |].
    + rewrite skip_ws_app by done. destruct items as [|j items]; [done|]. injection El as <- _.
      apply Forall_cons in Hj as [Hj _]. pose proof (print_opens (S d) j Hj) as Ho.
      rewrite Join_first, app_assoc_str, opens_skip by done. destruct (pr (S d) j) as [|c r]; [done|]. 
      destruct Ho as (_ & Ho & _). eexists c, _. split; [reflexivity|done].
    + rewrite <-El in *. apply parse_items_back; try done; [by intros ->|]. rewrite !length_app_str in *. cbn [String.length] in *. lia.
  - apply json_ok_obj in Hj. apply depth_obj in HD as [HD1 HD]. unfold enclosed in *. destruct (map _ members) as [|x l] eqn:El.
    { destruct members; [|done]. by apply parse_empty. }
    rewrite !app_assoc_str in *. apply parse_open_members; [done| |].
    + rewrite skip_ws_app by done. destruct members as [|kv members]; [done|]. injection El as <- _.
      rewrite Join_first. unfold quote_json. rewrite !app_assoc_str, app_cons. eexists _, _. by split.
    + rewrite <-El in *. apply parse_members_back; try done; [by intros ->|]. rewrite !length_app_str in *. cbn [String.length] in *. lia.
Qed.

End RoundTrip.

Lemma parse_json_print line space a b j :
  (forall d, ws (line d)) -> ws space -> ws a -> ws b -> json_ok j -> (depth j <= maxNestingDepth)%Z ->
  parse_json (a +:+ print line (":" +:+ space) 0 j +:+ b) = Ok j.
Proof.
  intros Hl Hs Ha Hb Hj Hd. unfold parse_json. assert (stops b) as Hst.
  { rewrite <-(app_empty_r b). by apply ws_stops. }
  rewrite (print_reads_back line space Hl Hs j 0%nat maxNestingDepth a b) by (done || (unfold parse_fuel; lia)).
  assert (skip_ws b = "") as ->; [|done]. rewrite <-(app_empty_r b), skip_ws_app by done. done.
Qed.

Lemma ws_blanks d : ws (blanks d).
Proof. unfold ws. induction d as [|d IH]; [done|]. cbn. exact IH. Qed.

(** [Unmarshal] of what [Marshal] and [MarshalIndent] write, with white space
    around it. *)
Lemma parse_compact a b j : ws a -> ws b -> json_ok j -> (depth j <= maxNestingDepth)%Z -> parse_json (a +:+ compact j +:+ b) = Ok j.
Proof. intros. by apply (parse_json_print (fun _ => "") ""). Qed.

Lemma parse_indented a b j : ws a -> ws b -> json_ok j -> (depth j <= maxNestingDepth)%Z -> parse_json (a +:+ indented j +:+ b) = Ok j.
Proof. intros. apply (parse_json_print (fun d => newline +:+ blanks d) " "); try done. intros d. exact (ws_blanks d). Qed.

(** ** Enough fuel *)

Lemma skip_ws_le s : (String.length (skip_ws s) <= String.length s)%nat.
Proof. induction s as [|c s IH]; [done|]. cbn [skip_ws]. destruct (is_ws c); cbn; lia. Qed.

Lemma hex4_shrinks s n r : hex4 s = Some (n, r) -> (String.length r < String.length s)%nat.
Proof.
  destruct s as [|a [|b [|c [|d s]]]]; try done. unfold hex4. intros H.
  destruct (hex_value a); [|done]. destruct (hex_value b); [|done]. destruct (hex_value c); [|done]. destruct (hex_value d); [|done].
  cbn in H. injection H as _ <-. cbn. lia.
Qed.

Lemma unescape_shrinks s t r : unescape s = Some (t, r) -> (String.length r < String.length s)%nat.
Proof.
  destruct s as [|c s]; [done|]. unfold unescape. intros H.
  repeat match goal with H : (if ?b then Some _ else _) = _ |- _ => destruct b; [injection H as _ <-; cbn; lia|] end.
  destruct (ascii_eqb c "u"); [|done]. unfold unescape_u in H. destruct (hex4 s) as [[n r1]|] eqn:E; [|done].
  apply hex4_shrinks in E. cbn in H. destruct (_ && _)%bool; [|injection H as _ <-; cbn; lia].
  destruct r1 as [|d [|u r2]]; try (injection H as _ <-; cbn in *; lia).
  destruct (_ && _)%bool; [|injection H as _ <-; cbn in *; lia].
  destruct (hex4 r2) as [[m r3]|] eqn:E2; [|injection H as _ <-; cbn in *; lia]. apply hex4_shrinks in E2.
  destruct (_ && _)%bool; injection H as _ <-; cbn in *; lia.
Qed.

Lemma parse_string_shrinks f : forall s t r, parse_string f s = Some (t, r) -> (String.length r < String.length s)%nat.
Proof.
  induction f as [|f IH]; [done|]. intros [|c s] t r H; [done|]. cbn [parse_string] in H.
  destruct (ascii_eqb c quote_double); [injection H as _ <-; cbn; lia|]. destruct (ascii_eqb c backslash_).
  - destruct (unescape s) as [[u r1]|] eqn:Eu; [|done]. apply unescape_shrinks in Eu. cbn in H.
    destruct (parse_string f r1) as [[v r2]|] eqn:Ep; [|done]. apply IH in Ep. injection H as _ <-. cbn. lia.
  - destruct (byte_val c <? 32)%Z; [done|]. destruct (rune_len (String c s)) as [|n].
    + destruct (parse_string f s) as [[v r2]|] eqn:Ep; [|done]. apply IH in Ep. injection H as _ <-. cbn. lia.
    + cbn [drop_str] in H. pose proof (drop_str_le n s).
      destruct (parse_string f (drop_str n s)) as [[v r2]|] eqn:Ep; [|done]. apply IH in Ep. injection H as _ <-. cbn. lia.
Qed.

Lemma parse_string_more f1 : forall f2 s, (String.length s <= f1)%nat -> (String.length s <= f2)%nat -> parse_string f1 s = parse_string f2 s.
Proof.
  induction f1 as [|f1 IH]; intros f2 s H1 H2.
  - destruct s; [|cbn in H1; lia]. by destruct f2.
  - destruct f2 as [|f2]; [destruct s; [done|cbn in H2; lia]|]. cbn [parse_string]. destruct s as [|c s]; [done|]. cbn in H1, H2.
    destruct (ascii_eqb c quote_double); [done|]. destruct (ascii_eqb c backslash_).
    + destruct (unescape s) as [[u r1]|] eqn:Eu; [|done]. apply unescape_shrinks in Eu. cbn. by rewrite (IH f2) by lia.
    + destruct (byte_val c <? 32)%Z; [done|]. destruct (rune_len (String c s)) as [|n]; cbn [drop_str].
      * by rewrite (IH f2) by lia.
      * pose proof (drop_str_le n s). by rewrite (IH f2) by lia.
Qed.

Lemma span_digits_le s : (String.length (span_digits s).2 <= String.length s)%nat.
Proof. induction s as [|c s IH]; [done|]. cbn [span_digits]. destruct (is_digit c); [|done]. destruct (span_digits s). cbn in *. lia. Qed.

Lemma digits1_shrinks s a r : digits1 s = Some (a, r) -> (String.length r < String.length s)%nat.
Proof.
  unfold digits1. destruct s as [|c s]; [done|]. cbn [span_digits]. destruct (is_digit c); [|done].
  pose proof (span_digits_le s). destruct (span_digits s). cbn in *. intros [= _ <-]. lia.
Qed.

Lemma parse_number_shrinks s n r : parse_number s = Some (n, r) -> (String.length r < String.length s)%nat.
Proof.
  assert (forall s a r, parse_int s = Some (a, r) -> (String.length r < String.length s)%nat) as Hint.
  { clear. intros [|c s] a r; [done|]. cbn [parse_int]. destruct (ascii_eqb c "0"%char); [intros [= _ <-]; cbn; lia|]. apply digits1_shrinks. }
  assert (forall s a r, parse_frac s = Some (a, r) -> (String.length r <= String.length s)%nat) as Hfrac.
  { clear. intros [|c s] a r; cbn [parse_frac]; [intros [= _ <-]; done|]. destruct (ascii_eqb c "."%char); [|intros [= _ <-]; done].
    destruct (digits1 s) as [[d r1]|] eqn:E; [|done]. apply digits1_shrinks in E. intros [= _ <-]. cbn. lia. }
  assert (forall s a r, parse_exp s = Some (a, r) -> (String.length r <= String.length s)%nat) as Hexp.
  { clear. intros [|c s] a r; cbn [parse_exp]; [intros [= _ <-]; done|]. destruct (_ || _); [|intros [= _ <-]; done].
    assert (forall sign u, (String.length u <= String.length s)%nat -> ('(b, r1) ← digits1 u; Some (String c (sign +:+ b), r1)) = Some (a, r) ->
      (String.length r <= S (String.length s))%nat) as Hd.
    { intros sign u Hu. destruct (digits1 u) as [[b r1]|] eqn:E; [|done]. apply digits1_shrinks in E. intros [= _ <-]. lia. }
    destruct s as [|d s]; [by apply Hd|]. destruct (_ || _); apply Hd; cbn; lia. }
  assert (forall sign u, (String.length u <= String.length s)%nat ->
    ('(i, r) ← parse_int u; '(f, r) ← parse_frac r; '(e, r) ← parse_exp r; Some (sign +:+ i +:+ f +:+ e, r)) = Some (n, r) ->
    (String.length r < String.length s)%nat) as Hall.
  { intros sign u Hu H. destruct (parse_int u) as [[i r1]|] eqn:E1; [|done]. cbn in H. destruct (parse_frac r1) as [[f r2]|] eqn:E2; [|done].
    cbn in H. destruct (parse_exp r2) as [[e r3]|] eqn:E3; [|done]. injection H as _ <-. apply Hint in E1. apply Hfrac in E2. apply Hexp in E3. lia. }
  unfold parse_number. destruct s as [|c s]; [by apply Hall|]. destruct (ascii_eqb c "-"%char); apply Hall; cbn; lia.
Qed.

Lemma parse_word_shrinks word j s v r : word <> "" -> parse_word word j s = Some (v, r) -> (String.length r < String.length s)%nat.
Proof.
  intros Hw. unfold parse_word. destruct (HasPrefix s word) eqn:E; [|done]. intros [= _ <-]. apply HasPrefix_iff in E as [t ->].
  rewrite drop_str_app, length_app_str. destruct word; [done|]. cbn. lia.
Qed.

(** Every call reads at least a byte. *)
Definition shrinks {A} (s : string) (r : option (A * string)) : Prop :=
  match r with Some (_, t) => (String.length t < String.length s)%nat | None => True end.

Lemma shrinks_parse f : forall D s,
  shrinks s (parse_value f D s) /\ shrinks s (parse_items f D s) /\ shrinks s (parse_members f D s).
Proof.
  induction f as [|f IH]; [done|]. intros D s.
  assert (forall r D', shrinks r (parse_value f D' r)) as Hv by (intros; apply IH).
  assert (forall r D', shrinks r (parse_items f D' r)) as Hi by (intros; apply IH).
  assert (forall r D', shrinks r (parse_members f D' r)) as Hm by (intros; apply IH). clear IH. split_and!.
  - cbn [parse_value]. pose proof (skip_ws_le s) as Hs. destruct (skip_ws s) as [|c r]; [done|]. cbn in Hs. case_goal.
    { destruct (parse_string _ r) as [[t u]|] eqn:E; [|done]. apply parse_string_shrinks in E. cbn. lia. }
    case_goal; [|case_goal].
    + case_goal; [done|]. pose proof (skip_ws_le r) as Hr. destruct (skip_ws r) as [|e r2]; [done|]. cbn in Hr.
      case_goal; [cbn; lia|]. specialize (Hi r (D - 1)%Z). destruct (parse_items f (D - 1) r) as [[l t]|]; [|done]. cbn in *. lia.
    + case_goal; [done|]. pose proof (skip_ws_le r) as Hr. destruct (skip_ws r) as [|e r2]; [done|]. cbn in Hr.
      case_goal; [cbn; lia|]. specialize (Hm r (D - 1)%Z). destruct (parse_members f (D - 1) r) as [[l t]|]; [|done]. cbn in *. lia.
    + assert (forall word j, word <> "" -> shrinks s (parse_word word j (String c r))) as Hw.
      { intros word j Hne. destruct (parse_word word j (String c r)) as [[v t]|] eqn:E; [|done].
        apply parse_word_shrinks in E; [|done]. cbn in *. lia. }
      repeat (case_goal; [by apply Hw|]). destruct (parse_number (String c r)) as [[n t]|] eqn:E; [|done].
      apply parse_number_shrinks in E. cbn in *. lia.
  - cbn [parse_items]. specialize (Hv s D). destruct (parse_value f D s) as [[v r]|]; [|done]. cbn in *. pose proof (skip_ws_le r) as Hr.
    destruct (skip_ws r) as [|c r2]; [done|]. cbn in Hr. case_goal; [|case_goal; [cbn; lia|done]].
    specialize (Hi r2 D). destruct (parse_items f D r2) as [[l t]|]; [|done]. cbn in *. lia.
  - cbn [parse_members]. pose proof (skip_ws_le s) as Hs. destruct (skip_ws s) as [|q r]; [done|]. cbn in Hs. case_goal; [|done].
    destruct (parse_string _ r) as [[k r1]|] eqn:E; [|done]. apply parse_string_shrinks in E. cbn. pose proof (skip_ws_le r1) as H1.
    destruct (skip_ws r1) as [|c r2]; [done|]. cbn in H1. case_goal; [|done]. specialize (Hv r2 D).
    destruct (parse_value f D r2) as [[v r3]|]; [|done]. cbn in *. pose proof (skip_ws_le r3) as H3.
    destruct (skip_ws r3) as [|e r4]; [done|]. cbn in H3. case_goal; [|case_goal; [cbn; lia|done]].
    specialize (Hm r4 D). destruct (parse_members f D r4) as [[l t]|]; [|done]. cbn in *. lia.
Qed.

Lemma parse_more f1 : forall f2 D s,
  ((2 * String.length s + 1 <= f1)%nat -> (2 * String.length s + 1 <= f2)%nat -> parse_value f1 D s = parse_value f2 D s) /\
  ((2 * String.length s + 2 <= f1)%nat -> (2 * String.length s + 2 <= f2)%nat -> parse_items f1 D s = parse_items f2 D s) /\
  ((2 * String.length s + 2 <= f1)%nat -> (2 * String.length s + 2 <= f2)%nat -> parse_members f1 D s = parse_members f2 D s).
Proof.
  induction f1 as [|f1 IH]; [intros; split_and!; lia|]. intros [|f2] D s; [split_and!; lia|].
  assert (forall r D', (2 * String.length r + 1 <= f1)%nat -> (2 * String.length r + 1 <= f2)%nat -> parse_value f1 D' r = parse_value f2 D' r) as Hv by (intros; by apply IH).
  assert (forall r D', (2 * String.length r + 2 <= f1)%nat -> (2 * String.length r + 2 <= f2)%nat -> parse_items f1 D' r = parse_items f2 D' r) as Hi by (intros; by apply IH).
  assert (forall r D', (2 * String.length r + 2 <= f1)%nat -> (2 * String.length r + 2 <= f2)%nat -> parse_members f1 D' r = parse_members f2 D' r) as Hm by (intros; by apply IH).
  clear IH. split_and!; intros H1 H2.
  - cbn [parse_value]. pose proof (skip_ws_le s) as Hs. destruct (skip_ws s) as [|c r]; [done|]. cbn in Hs.
    by rewrite Hi, Hm by lia.
  - cbn [parse_items]. rewrite Hv by lia. pose proof (proj1 (shrinks_parse f2 D s)) as Hsh.
    destruct (parse_value f2 D s) as [[v r]|]; [|done]. cbn in *. pose proof (skip_ws_le r) as Hr.
    destruct (skip_ws r) as [|c r2]; [done|]. cbn in Hr. by rewrite Hi by lia.
  - cbn [parse_members]. pose proof (skip_ws_le s) as Hs. destruct (skip_ws s) as [|q r]; [done|]. cbn in Hs. case_goal; [|done].
    destruct (parse_string _ r) as [[k r1]|] eqn:E; [|done]. apply parse_string_shrinks in E. cbn. pose proof (skip_ws_le r1) as Hr1.
    destruct (skip_ws r1) as [|c r2]; [done|]. cbn in Hr1. case_goal; [|done]. rewrite Hv by lia.
    pose proof (proj1 (shrinks_parse f2 D r2)) as Hsh. destruct (parse_value f2 D r2) as [[v r3]|]; [|done]. cbn in *.
    pose proof (skip_ws_le r3) as Hr3. destruct (skip_ws r3) as [|e r4]; [done|]. cbn in Hr3. by rewrite Hm by lia.
Qed.

(** More fuel than [parse_json] gives reads the same. *)
Lemma parse_fuel_enough s fuel D : (parse_fuel s <= fuel)%nat -> parse_value fuel D s = parse_value (parse_fuel s) D s.
Proof. intros H. apply parse_more; unfold parse_fuel in *; lia. Qed.

(** ** Fields *)

Definition members_of (fields : list (string * option json)) : list (string * json) :=
  omap (fun f => (fun j => (f.1, j)) <$> f.2) fields.

Lemma dec_field_none {A} name (dec : decoder A) fields old :
  fold_key name ∉ map (fun f => fold_key f.1) fields -> dec_field name dec (members_of fields) old = good old.
Proof.
  induction fields as [|[k [j|]] fields IH]; [done| |]; intros [Hne Hni]%not_elem_of_cons; cbn; [|by apply IH].
  cbn in Hne. rewrite (proj2 (string_eqb_false _ _)); [by apply IH|]. congruence.
Qed.

(** A field is decoded from its own member. *)
Lemma dec_field_own {A} name (dec : decoder A) fields oj old :
  NoDup (map (fun f => fold_key f.1) fields) -> (name, oj) ∈ fields ->
  dec_field name dec (members_of fields) old = match oj with Some j => dec j old | None => good old end.
Proof.
  induction fields as [|[k o] fields IH]; [by intros _ H%elem_of_nil|]. intros [Hni Hnd]%NoDup_cons [[= <- <-]|Hin]%elem_of_cons.
  - destruct oj as [j|]; cbn.
    + rewrite (proj2 (string_eqb_true _ _)) by done. destruct (dec j old) as [a ok]. unfold mbind, decoded_bind. cbn [fst snd].
      rewrite dec_field_none by done. cbn. by rewrite andb_true_r.
    + by apply dec_field_none.
  - assert (fold_key k <> fold_key name) as Hne.
    { intros E. apply Hni. cbn [fst]. rewrite E. by apply (list_elem_of_fmap_2' (fun f => fold_key f.1) _ (name, oj)). }
    destruct o as [j|]; cbn; [|by apply IH]. rewrite (proj2 (string_eqb_false _ _)) by done. by apply IH.
Qed.

Lemma dec_object_struct {A} (f : list (string * json) -> A -> decoded A) fields old :
  dec_object f (struct fields) old = f (members_of fields) old.
Proof. done. Qed.

(** The values of a field come back. *)
Definition back {A} (dec : decoder A) (zero a : A) (oj : option json) : Prop :=
  match oj with Some j => dec j zero = good a | None => zero = a end.

Lemma unmarshal_back {A} (dec : decoder A) zero a s j :
  parse_json s = Ok j -> back dec zero a (Some j) -> unmarshal dec zero s = Ok a.
Proof. unfold unmarshal, Unmarshal. intros -> H. cbn in H. by rewrite H. Qed.

Lemma back_string s : back dec_string "" s (Some (JStr s)) /\ back dec_string "" s (omit_string s).
Proof. split; [done|]. unfold omit_string, unless. case_goal; [by str_eqb|done]. Qed.
Lemma back_bool b : back dec_bool false b (Some (JBool b)) /\ back dec_bool false b (omit_bool b).
Proof. by destruct b. Qed.
Lemma back_int n : in_s64 n -> back dec_int 0%Z n (Some (enc_int n)) /\ back dec_int 0%Z n (omit_int n).
Proof.
  intros Hn. assert (back dec_int 0%Z n (Some (enc_int n))) as H by (cbn; by rewrite Atoi_Itoa). split; [done|].
  unfold omit_int, unless. destruct (n =? 0)%Z eqn:E; [cbn; by bool_simpl|done].
Qed.
Lemma back_u64 n : in_u64 n -> back (dec_uint 64) 0%Z n (Some (enc_uint n)).
Proof. intros Hn. unfold back, enc_uint, dec_uint, dec_num. by rewrite ParseUint_FormatUint. Qed.

Lemma back_strings l : back (dec_list "" dec_string) [] l (Some (enc_strings l)) /\ back (dec_list "" dec_string) [] l (omit_strings l).
Proof.
  assert (back (dec_list "" dec_string) [] l (Some (enc_strings l))) as H.
  { cbn. induction l as [|s l IH]; [done|]. cbn. cbn in IH. by rewrite IH. }
  split; [done|]. unfold omit_strings, unless. destruct l; [done|]. exact H.
Qed.

(** A list of structs. *)
Lemma dec_items_back {A} (zero : A) (dec : decoder A) (enc : A -> json) l :
  Forall (fun a => dec (enc a) zero = good a) l -> dec_items zero dec (map enc l) [] = good l.
Proof. induction 1 as [|a l Ha _ IH]; [done|]. cbn. rewrite Ha. cbn. by rewrite IH. Qed.

(** What is encoded can be printed. *)
Lemma struct_ok fields :
  Forall (fun f => utf8 f.1 /\ match f.2 with Some j => json_ok j | None => True end) fields -> json_ok (struct fields).
Proof.
  intros H. apply json_ok_obj. induction H as [|[k [j|]] fields [Hk Hj] _ IH]; cbn; [done|constructor; done|done].
Qed.

Lemma enc_int_ok n : in_s64 n -> json_ok (enc_int n).
Proof. intros Hn. left. by exists n. Qed.
Lemma enc_uint_ok n : in_u64 n -> json_ok (enc_uint n).
Proof. intros Hn. right. by exists n. Qed.
Lemma enc_strings_ok l : Forall utf8 l -> json_ok (enc_strings l).
Proof. intros H. apply json_ok_arr. by apply Forall_fmap. Qed.

(** ASCII text is valid. *)
Lemma utf8_ascii s : string_forallb (byte_in 0 127) s = true -> utf8 s.
Proof.
  induction s as [|c s IH]; [constructor|]. cbn [string_forallb]. intros [Hc Hs]%andb_true_iff.
  apply (utf8_rune (str1 c)); [done| |by apply IH]. cbn. by rewrite Hc.
Qed.

(** ** Structs, field by field *)

Lemma dec_field_back {A} name (dec : decoder A) fields oj zero a :
  NoDup (map (fun f => fold_key f.1) fields) -> (name, oj) ∈ fields -> back dec zero a oj ->
  dec_field name dec (members_of fields) zero = good a.
Proof. intros Hnd Hin Hb. rewrite (dec_field_own _ _ _ oj) by done. destruct oj; [exact Hb|]. by rewrite Hb. Qed.

Definition in_u32 (z : Z) : Prop := (0 <= z < 4294967296)%Z.

Lemma back_uint bits n : in_u64 n -> (n < 2 ^ bits)%Z -> (bits <= 64)%Z ->
  back (dec_uint bits) 0%Z n (Some (enc_uint n)) /\ back (dec_uint bits) 0%Z n (omit_uint n).
Proof.
  intros Hn Hb Hl. assert (back (dec_uint bits) 0%Z n (Some (enc_uint n))) as H.
  { unfold back, enc_uint, dec_uint, dec_num. pose proof (ParseUint_FormatUint n Hn) as Hp. unfold ParseUint in *.
    destruct (FormatUint n) as [|c r]; [done|]. destruct (parse_digits 10 (String c r) 0) as [m|]; [|done].
    destruct (m <? 2 ^ 64)%Z; [|done]. injection Hp as ->. by rewrite (proj2 (Z.ltb_lt _ _) Hb). }
  split; [done|]. unfold omit_uint, unless. destruct (n =? 0)%Z eqn:E; [cbn; by bool_simpl|done].
Qed.

Lemma in_u32_u64 n : in_u32 n -> in_u64 n.
Proof. unfold in_u32, in_u64, two64. lia. Qed.

Lemma back_u32 n : in_u32 n -> back (dec_uint 32) 0%Z n (Some (enc_uint n)) /\ back (dec_uint 32) 0%Z n (omit_uint n).
Proof. intros Hn. apply back_uint; [by apply in_u32_u64|exact (proj2 Hn)|done]. Qed.

(** [back] of any field of a struct whose values can be encoded. *)
Create HintDb json_back.
#[export] Hint Extern 1 (back dec_string _ _ _) => apply back_string : json_back.
#[export] Hint Extern 1 (back dec_bool _ _ _) => apply back_bool : json_back.
#[export] Hint Extern 1 (back dec_int _ _ _) => apply back_int : json_back.
#[export] Hint Extern 1 (back (dec_uint 64) _ _ _) => apply back_u64 : json_back.
#[export] Hint Extern 1 (back (dec_uint 32) _ _ _) => (apply back_u32; assumption) : json_back.
#[export] Hint Extern 1 (back (dec_list "" dec_string) _ _ _) => apply back_strings : json_back.

Ltac split_encodable :=
  repeat match goal with
  | H : _ /\ _ |- _ => destruct H
  | H : Forall _ (_ :: _) |- _ => apply Forall_cons in H
  | H : Forall _ [] |- _ => clear H
  end.

Ltac member := repeat first [apply list_elem_of_here | apply list_elem_of_further].
Ltac no_dup := match goal with |- ?P => refine (bool_decide_unpack P _); vm_compute; exact I end.

(** One field after the other. *)
Ltac field_back := erewrite dec_field_back; [|no_dup|member|solve [eauto with json_back]].
Ltac fields_back := repeat field_back.
Ltac absent := rewrite dec_field_none by no_dup.

(** ** What is written can be read *)

Lemma depth_struct d fields :
  (0 <= d)%Z -> Forall (fun f => match f.2 with Some j => (depth j <= d)%Z | None => True end) fields -> (depth (struct fields) <= 1 + d)%Z.
Proof.
  intros Hd H. cbn [depth struct].
  set (most := fix most (l : list (string * json)) : Z := match l with [] => 0%Z | (_, j) :: l => Z.max (depth j) (most l) end).
  assert (forall fs, Forall (fun f => match f.2 with Some j => (depth j <= d)%Z | None => True end) fs ->
    (most (omap (fun f : string * option json => (fun j => (f.1, j)) <$> f.2) fs) <= d)%Z) as Hall; [|specialize (Hall _ H); lia].
  clear fields H. induction 1 as [|[k [j|]] fs Hj _ IH]; [done| |exact IH]. cbn in *. lia.
Qed.

Lemma depth_list d l : (0 <= d)%Z -> Forall (fun j => (depth j <= d)%Z) l -> (depth (JArr l) <= 1 + d)%Z.
Proof.
  intros Hd H. cbn [depth]. set (most := fix most (l : list json) : Z := match l with [] => 0%Z | j :: l => Z.max (depth j) (most l) end).
  assert (most l <= d)%Z as Hm; [|lia]. induction H as [|j l Hj _ IH]; [done|]. change (most (j :: l)) with (Z.max (depth j) (most l)). lia.
Qed.

(** A value that is printed and read back within depth [d]. *)
Definition fine (d : Z) (j : json) : Prop := json_ok j /\ (depth j <= d)%Z.
Definition field_fine (d : Z) (f : string * option json) : Prop :=
  utf8 f.1 /\ match f.2 with Some j => fine d j | None => True end.

Lemma struct_fine d fields : (0 <= d)%Z -> Forall (field_fine d) fields -> fine (1 + d) (struct fields).
Proof.
  intros Hd H. split.
  - apply struct_ok. eapply Forall_impl; [exact H|]. intros [k [j|]] [Hk Hj]; [by destruct Hj|done].
  - apply depth_struct; [done|]. eapply Forall_impl; [exact H|]. intros [k [j|]] [_ Hj]; [by destruct Hj|done].
Qed.

Lemma field_fine_of d key o :
  string_forallb (byte_in 0 127) key = true -> match o with Some j => fine d j | None => True end -> field_fine d (key, o).
Proof. intros Hk Ho. split; [by apply utf8_ascii|exact Ho]. Qed.

Lemma fine_unless d b j : fine d j -> match unless b j with Some j => fine d j | None => True end.
Proof. by destruct b. Qed.

Lemma fine_string d s : (0 <= d)%Z -> utf8 s -> fine d (JStr s).
Proof. by split. Qed.
Lemma fine_bool d b : (0 <= d)%Z -> fine d (JBool b).
Proof. by split. Qed.
Lemma fine_int d n : (0 <= d)%Z -> in_s64 n -> fine d (enc_int n).
Proof. split; [by apply enc_int_ok|done]. Qed.
Lemma fine_uint d n : (0 <= d)%Z -> in_u64 n -> fine d (enc_uint n).
Proof. split; [by apply enc_uint_ok|done]. Qed.
Lemma fine_strings d l : (1 <= d)%Z -> Forall utf8 l -> fine d (enc_strings l).
Proof.
  intros Hd Hl. split; [by apply enc_strings_ok|]. unfold enc_strings.
  pose proof (depth_list 0 (map JStr l) ltac:(done)) as H. rewrite Forall_fmap in H.
  assert (depth (JArr (map JStr l)) <= 1 + 0)%Z; [|lia]. apply H. by apply Forall_true.
Qed.
Lemma fine_more d e j : fine d j -> (d <= e)%Z -> fine e j.
Proof. intros [? ?] ?. split; [done|lia]. Qed.

Ltac field_is_fine :=
  apply field_fine_of; [reflexivity|];
  cbn [always]; unfold omit_string, omit_bool, omit_int, omit_uint, omit_strings; try apply fine_unless;
  first [apply fine_string; [lia|assumption] | apply fine_bool; lia | apply fine_int; [lia|assumption]
        | apply fine_uint; [lia|first [assumption | by apply in_u32_u64]] | apply fine_strings; [lia|assumption]
        | eapply fine_more; [eassumption|lia]].
Ltac fields_are_fine := apply struct_fine; [lia|]; repeat (constructor; [field_is_fine|]); constructor.
