(* ===== verification/Model.v ===== *)
(** * The data model of [model.go]

    Go's string-backed enumerations stay strings, because any string can reach
    the code through JSON and the [default] branches that reject it are part of
    the behaviour.  An [int] is a [Z] in the signed 64-bit range, a [uint64] or
    [uint32] a non-negative [Z]. *)

From S2P Require Import Prelude GoStrings.

Record FileOwner := MkFileOwner { Owner_UID : Z; Owner_GID : Z }.

(** ** Capabilities *)

Definition CapHostNamespace : string := "host_namespace".
Definition CapHostPID1 : string := "host_pid_1".
Definition CapHostHostname : string := "host_hostname".
Definition CapHostRoot : string := "host_root".
Definition CapCapabilityBounding : string := "capability_bounding".
Definition CapIdentityDrop : string := "identity_drop".
Definition CapAccountLookup : string := "account_lookup".
Definition CapShell : string := "shell".
Definition CapSystemd : string := "systemd".
Definition CapJournald : string := "journald".
Definition CapCron : string := "cron".
Definition CapRsync : string := "rsync".
Definition CapRclone : string := "rclone".
Definition CapSignalControl : string := "signal_control".
Definition CapHostToolchain : string := "host_toolchain".

Definition CapabilityAvailable : string := "available".
Definition CapabilityDegraded : string := "degraded".
Definition CapabilityUnavailable : string := "unavailable".

Record CapabilityResult := MkCapabilityResult {
  Cap_Code : string;
  Cap_Status : string;
  Cap_MessageKey : string;
  Cap_Details : gmap string string
}.

Record CapabilityReport := MkCapabilityReport { Report_Results : list CapabilityResult }.

(** ** Actions, identities, policies *)

Definition ActionScript : string := "script".
Definition ActionCommand : string := "command".
Definition ActionSync : string := "sync".

Record SyncAction := MkSyncAction {
  Sync_Engine : string;
  Sync_Source : string;
  Sync_Dest : string;
  Sync_Mode : string;
  Sync_Compare : string;
  Sync_Bwlimit : string;
  Sync_Backup : bool;
  Sync_BackupKeep : Z;
  Sync_MaxDel : Z;
  Sync_SkipNew : bool;
  Sync_SysBackup : bool;
  Sync_Exclude : string
}.

Definition zeroSyncAction : SyncAction :=
  MkSyncAction "" "" "" "" "" "" false 0 0 false false "".

Record Action := MkAction {
  Action_Type : string;
  Action_ScriptPath : string;
  Action_ScriptArgs : list string;
  Action_Command : string;
  Action_Sync : SyncAction
}.

Definition IdentityScriptOwner : string := "script-owner".
Definition IdentityFixed : string := "fixed".

Record Identity := MkIdentity {
  Identity_Mode : string;
  Identity_User : string;
  Identity_UID : Z;
  Identity_Group : string;
  Identity_GID : Z
}.

Record ExecutionPolicy := MkExecutionPolicy {
  Exec_WorkingDirectory : string;
  Exec_Environment : list string;
  Exec_Umask : Z;
  Exec_TimeoutSeconds : Z;
  Exec_StopGraceSeconds : Z;
  Exec_Overlap : string
}.

Definition TriggerManual : string := "manual".
Definition TriggerCron : string := "cron".
Definition TriggerWatch : string := "watch".

Definition SchedulerSyncBridge : string := "syncbridge".
Definition SchedulerSystem : string := "system".

Record SchedulerPolicy := MkSchedulerPolicy { Policy_Owner : string }.

(** ** Jobs *)

Record Job := MkJob {
  Job_SchemaVersion : Z;
  Job_ID : Z;
  Job_Revision : Z;
  Job_Name : string;
  Job_Enabled : bool;
  Job_NeedsReview : bool;
  Job_Action : Action;
  Job_Identity : Identity;
  Job_Execution : ExecutionPolicy;
  Job_Trigger : string;
  Job_Scheduler : SchedulerPolicy;
  Job_Kind : string;
  Job_Command : string;
  Job_Backend : string;
  Job_Source : string;
  Job_Dest : string;
  Job_Engine : string;
  Job_Mode : string;
  Job_Cron : string;
  Job_WatchGlob : string;
  Job_WatchMode : string;
  Job_Debounce : Z;
  Job_PollSec : Z;
  Job_Timeout : Z;
  Job_Compare : string;
  Job_Bwlimit : string;
  Job_Backup : bool;
  Job_BackupKeep : Z;
  Job_MaxDel : Z;
  Job_SkipNew : bool;
  Job_SysBackup : bool;
  Job_Exclude : string;
  Job_Disabled : bool;
  Job_LastRun : string;
  Job_LastStat : string
}.


(** Field assignments [job.F = v]. *)
Definition Job_set_SchemaVersion (v : Z) (j : Job) : Job :=
    MkJob v (Job_ID j) (Job_Revision j) (Job_Name j) (Job_Enabled j) (Job_NeedsReview j)
       (Job_Action j) (Job_Identity j) (Job_Execution j) (Job_Trigger j) (Job_Scheduler j)
       (Job_Kind j) (Job_Command j) (Job_Backend j) (Job_Source j) (Job_Dest j) (Job_Engine j)
       (Job_Mode j) (Job_Cron j) (Job_WatchGlob j) (Job_WatchMode j) (Job_Debounce j)
       (Job_PollSec j) (Job_Timeout j) (Job_Compare j) (Job_Bwlimit j) (Job_Backup j)
       (Job_BackupKeep j) (Job_MaxDel j) (Job_SkipNew j) (Job_SysBackup j) (Job_Exclude j)
       (Job_Disabled j) (Job_LastRun j) (Job_LastStat j).
Definition Job_set_ID (v : Z) (j : Job) : Job :=
    MkJob (Job_SchemaVersion j) v (Job_Revision j) (Job_Name j) (Job_Enabled j) (Job_NeedsReview j)
       (Job_Action j) (Job_Identity j) (Job_Execution j) (Job_Trigger j) (Job_Scheduler j)
       (Job_Kind j) (Job_Command j) (Job_Backend j) (Job_Source j) (Job_Dest j) (Job_Engine j)
       (Job_Mode j) (Job_Cron j) (Job_WatchGlob j) (Job_WatchMode j) (Job_Debounce j)
       (Job_PollSec j) (Job_Timeout j) (Job_Compare j) (Job_Bwlimit j) (Job_Backup j)
       (Job_BackupKeep j) (Job_MaxDel j) (Job_SkipNew j) (Job_SysBackup j) (Job_Exclude j)
       (Job_Disabled j) (Job_LastRun j) (Job_LastStat j).
Definition Job_set_Revision (v : Z) (j : Job) : Job :=
    MkJob (Job_SchemaVersion j) (Job_ID j) v (Job_Name j) (Job_Enabled j) (Job_NeedsReview j)
       (Job_Action j) (Job_Identity j) (Job_Execution j) (Job_Trigger j) (Job_Scheduler j)
       (Job_Kind j) (Job_Command j) (Job_Backend j) (Job_Source j) (Job_Dest j) (Job_Engine j)
       (Job_Mode j) (Job_Cron j) (Job_WatchGlob j) (Job_WatchMode j) (Job_Debounce j)
       (Job_PollSec j) (Job_Timeout j) (Job_Compare j) (Job_Bwlimit j) (Job_Backup j)
       (Job_BackupKeep j) (Job_MaxDel j) (Job_SkipNew j) (Job_SysBackup j) (Job_Exclude j)
       (Job_Disabled j) (Job_LastRun j) (Job_LastStat j).
Definition Job_set_Name (v : string) (j : Job) : Job :=
    MkJob (Job_SchemaVersion j) (Job_ID j) (Job_Revision j) v (Job_Enabled j) (Job_NeedsReview j)
       (Job_Action j) (Job_Identity j) (Job_Execution j) (Job_Trigger j) (Job_Scheduler j)
       (Job_Kind j) (Job_Command j) (Job_Backend j) (Job_Source j) (Job_Dest j) (Job_Engine j)
       (Job_Mode j) (Job_Cron j) (Job_WatchGlob j) (Job_WatchMode j) (Job_Debounce j)
       (Job_PollSec j) (Job_Timeout j) (Job_Compare j) (Job_Bwlimit j) (Job_Backup j)
       (Job_BackupKeep j) (Job_MaxDel j) (Job_SkipNew j) (Job_SysBackup j) (Job_Exclude j)
       (Job_Disabled j) (Job_LastRun j) (Job_LastStat j).
Definition Job_set_Enabled (v : bool) (j : Job) : Job :=
    MkJob (Job_SchemaVersion j) (Job_ID j) (Job_Revision j) (Job_Name j) v (Job_NeedsReview j)
       (Job_Action j) (Job_Identity j) (Job_Execution j) (Job_Trigger j) (Job_Scheduler j)
       (Job_Kind j) (Job_Command j) (Job_Backend j) (Job_Source j) (Job_Dest j) (Job_Engine j)
       (Job_Mode j) (Job_Cron j) (Job_WatchGlob j) (Job_WatchMode j) (Job_Debounce j)
       (Job_PollSec j) (Job_Timeout j) (Job_Compare j) (Job_Bwlimit j) (Job_Backup j)
       (Job_BackupKeep j) (Job_MaxDel j) (Job_SkipNew j) (Job_SysBackup j) (Job_Exclude j)
       (Job_Disabled j) (Job_LastRun j) (Job_LastStat j).
Definition Job_set_NeedsReview (v : bool) (j : Job) : Job :=
    MkJob (Job_SchemaVersion j) (Job_ID j) (Job_Revision j) (Job_Name j) (Job_Enabled j) v
       (Job_Action j) (Job_Identity j) (Job_Execution j) (Job_Trigger j) (Job_Scheduler j)
       (Job_Kind j) (Job_Command j) (Job_Backend j) (Job_Source j) (Job_Dest j) (Job_Engine j)
       (Job_Mode j) (Job_Cron j) (Job_WatchGlob j) (Job_WatchMode j) (Job_Debounce j)
       (Job_PollSec j) (Job_Timeout j) (Job_Compare j) (Job_Bwlimit j) (Job_Backup j)
       (Job_BackupKeep j) (Job_MaxDel j) (Job_SkipNew j) (Job_SysBackup j) (Job_Exclude j)
       (Job_Disabled j) (Job_LastRun j) (Job_LastStat j).
Definition Job_set_Action (v : Action) (j : Job) : Job :=
    MkJob (Job_SchemaVersion j) (Job_ID j) (Job_Revision j) (Job_Name j) (Job_Enabled j)
       (Job_NeedsReview j) v (Job_Identity j) (Job_Execution j) (Job_Trigger j) (Job_Scheduler j)
       (Job_Kind j) (Job_Command j) (Job_Backend j) (Job_Source j) (Job_Dest j) (Job_Engine j)
       (Job_Mode j) (Job_Cron j) (Job_WatchGlob j) (Job_WatchMode j) (Job_Debounce j)
       (Job_PollSec j) (Job_Timeout j) (Job_Compare j) (Job_Bwlimit j) (Job_Backup j)
       (Job_BackupKeep j) (Job_MaxDel j) (Job_SkipNew j) (Job_SysBackup j) (Job_Exclude j)
       (Job_Disabled j) (Job_LastRun j) (Job_LastStat j).
Definition Job_set_Execution (v : ExecutionPolicy) (j : Job) : Job :=
    MkJob (Job_SchemaVersion j) (Job_ID j) (Job_Revision j) (Job_Name j) (Job_Enabled j)
       (Job_NeedsReview j) (Job_Action j) (Job_Identity j) v (Job_Trigger j) (Job_Scheduler j)
       (Job_Kind j) (Job_Command j) (Job_Backend j) (Job_Source j) (Job_Dest j) (Job_Engine j)
       (Job_Mode j) (Job_Cron j) (Job_WatchGlob j) (Job_WatchMode j) (Job_Debounce j)
       (Job_PollSec j) (Job_Timeout j) (Job_Compare j) (Job_Bwlimit j) (Job_Backup j)
       (Job_BackupKeep j) (Job_MaxDel j) (Job_SkipNew j) (Job_SysBackup j) (Job_Exclude j)
       (Job_Disabled j) (Job_LastRun j) (Job_LastStat j).
Definition Job_set_Trigger (v : string) (j : Job) : Job :=
    MkJob (Job_SchemaVersion j) (Job_ID j) (Job_Revision j) (Job_Name j) (Job_Enabled j)
       (Job_NeedsReview j) (Job_Action j) (Job_Identity j) (Job_Execution j) v (Job_Scheduler j)
       (Job_Kind j) (Job_Command j) (Job_Backend j) (Job_Source j) (Job_Dest j) (Job_Engine j)
       (Job_Mode j) (Job_Cron j) (Job_WatchGlob j) (Job_WatchMode j) (Job_Debounce j)
       (Job_PollSec j) (Job_Timeout j) (Job_Compare j) (Job_Bwlimit j) (Job_Backup j)
       (Job_BackupKeep j) (Job_MaxDel j) (Job_SkipNew j) (Job_SysBackup j) (Job_Exclude j)
       (Job_Disabled j) (Job_LastRun j) (Job_LastStat j).
Definition Job_set_Scheduler (v : SchedulerPolicy) (j : Job) : Job :=
    MkJob (Job_SchemaVersion j) (Job_ID j) (Job_Revision j) (Job_Name j) (Job_Enabled j)
       (Job_NeedsReview j) (Job_Action j) (Job_Identity j) (Job_Execution j) (Job_Trigger j) v
       (Job_Kind j) (Job_Command j) (Job_Backend j) (Job_Source j) (Job_Dest j) (Job_Engine j)
       (Job_Mode j) (Job_Cron j) (Job_WatchGlob j) (Job_WatchMode j) (Job_Debounce j)
       (Job_PollSec j) (Job_Timeout j) (Job_Compare j) (Job_Bwlimit j) (Job_Backup j)
       (Job_BackupKeep j) (Job_MaxDel j) (Job_SkipNew j) (Job_SysBackup j) (Job_Exclude j)
       (Job_Disabled j) (Job_LastRun j) (Job_LastStat j).
Definition Job_set_Source (v : string) (j : Job) : Job :=
    MkJob (Job_SchemaVersion j) (Job_ID j) (Job_Revision j) (Job_Name j) (Job_Enabled j)
       (Job_NeedsReview j) (Job_Action j) (Job_Identity j) (Job_Execution j) (Job_Trigger j)
       (Job_Scheduler j) (Job_Kind j) (Job_Command j) (Job_Backend j) v (Job_Dest j) (Job_Engine j)
       (Job_Mode j) (Job_Cron j) (Job_WatchGlob j) (Job_WatchMode j) (Job_Debounce j)
       (Job_PollSec j) (Job_Timeout j) (Job_Compare j) (Job_Bwlimit j) (Job_Backup j)
       (Job_BackupKeep j) (Job_MaxDel j) (Job_SkipNew j) (Job_SysBackup j) (Job_Exclude j)
       (Job_Disabled j) (Job_LastRun j) (Job_LastStat j).
Definition Job_set_Kind (v : string) (j : Job) : Job :=
    MkJob (Job_SchemaVersion j) (Job_ID j) (Job_Revision j) (Job_Name j) (Job_Enabled j)
       (Job_NeedsReview j) (Job_Action j) (Job_Identity j) (Job_Execution j) (Job_Trigger j)
       (Job_Scheduler j) v (Job_Command j) (Job_Backend j) (Job_Source j) (Job_Dest j)
       (Job_Engine j) (Job_Mode j) (Job_Cron j) (Job_WatchGlob j) (Job_WatchMode j) (Job_Debounce j)
       (Job_PollSec j) (Job_Timeout j) (Job_Compare j) (Job_Bwlimit j) (Job_Backup j)
       (Job_BackupKeep j) (Job_MaxDel j) (Job_SkipNew j) (Job_SysBackup j) (Job_Exclude j)
       (Job_Disabled j) (Job_LastRun j) (Job_LastStat j).
Definition Job_set_Command (v : string) (j : Job) : Job :=
    MkJob (Job_SchemaVersion j) (Job_ID j) (Job_Revision j) (Job_Name j) (Job_Enabled j)
       (Job_NeedsReview j) (Job_Action j) (Job_Identity j) (Job_Execution j) (Job_Trigger j)
       (Job_Scheduler j) (Job_Kind j) v (Job_Backend j) (Job_Source j) (Job_Dest j) (Job_Engine j)
       (Job_Mode j) (Job_Cron j) (Job_WatchGlob j) (Job_WatchMode j) (Job_Debounce j)
       (Job_PollSec j) (Job_Timeout j) (Job_Compare j) (Job_Bwlimit j) (Job_Backup j)
       (Job_BackupKeep j) (Job_MaxDel j) (Job_SkipNew j) (Job_SysBackup j) (Job_Exclude j)
       (Job_Disabled j) (Job_LastRun j) (Job_LastStat j).
Definition Job_set_Backend (v : string) (j : Job) : Job :=
    MkJob (Job_SchemaVersion j) (Job_ID j) (Job_Revision j) (Job_Name j) (Job_Enabled j)
       (Job_NeedsReview j) (Job_Action j) (Job_Identity j) (Job_Execution j) (Job_Trigger j)
       (Job_Scheduler j) (Job_Kind j) (Job_Command j) v (Job_Source j) (Job_Dest j) (Job_Engine j)
       (Job_Mode j) (Job_Cron j) (Job_WatchGlob j) (Job_WatchMode j) (Job_Debounce j)
       (Job_PollSec j) (Job_Timeout j) (Job_Compare j) (Job_Bwlimit j) (Job_Backup j)
       (Job_BackupKeep j) (Job_MaxDel j) (Job_SkipNew j) (Job_SysBackup j) (Job_Exclude j)
       (Job_Disabled j) (Job_LastRun j) (Job_LastStat j).
Definition Job_set_Dest (v : string) (j : Job) : Job :=
    MkJob (Job_SchemaVersion j) (Job_ID j) (Job_Revision j) (Job_Name j) (Job_Enabled j)
       (Job_NeedsReview j) (Job_Action j) (Job_Identity j) (Job_Execution j) (Job_Trigger j)
       (Job_Scheduler j) (Job_Kind j) (Job_Command j) (Job_Backend j) (Job_Source j) v
       (Job_Engine j) (Job_Mode j) (Job_Cron j) (Job_WatchGlob j) (Job_WatchMode j) (Job_Debounce j)
       (Job_PollSec j) (Job_Timeout j) (Job_Compare j) (Job_Bwlimit j) (Job_Backup j)
       (Job_BackupKeep j) (Job_MaxDel j) (Job_SkipNew j) (Job_SysBackup j) (Job_Exclude j)
       (Job_Disabled j) (Job_LastRun j) (Job_LastStat j).
Definition Job_set_Engine (v : string) (j : Job) : Job :=
    MkJob (Job_SchemaVersion j) (Job_ID j) (Job_Revision j) (Job_Name j) (Job_Enabled j)
       (Job_NeedsReview j) (Job_Action j) (Job_Identity j) (Job_Execution j) (Job_Trigger j)
       (Job_Scheduler j) (Job_Kind j) (Job_Command j) (Job_Backend j) (Job_Source j) (Job_Dest j) v
       (Job_Mode j) (Job_Cron j) (Job_WatchGlob j) (Job_WatchMode j) (Job_Debounce j)
       (Job_PollSec j) (Job_Timeout j) (Job_Compare j) (Job_Bwlimit j) (Job_Backup j)
       (Job_BackupKeep j) (Job_MaxDel j) (Job_SkipNew j) (Job_SysBackup j) (Job_Exclude j)
       (Job_Disabled j) (Job_LastRun j) (Job_LastStat j).
Definition Job_set_Mode (v : string) (j : Job) : Job :=
    MkJob (Job_SchemaVersion j) (Job_ID j) (Job_Revision j) (Job_Name j) (Job_Enabled j)
       (Job_NeedsReview j) (Job_Action j) (Job_Identity j) (Job_Execution j) (Job_Trigger j)
       (Job_Scheduler j) (Job_Kind j) (Job_Command j) (Job_Backend j) (Job_Source j) (Job_Dest j)
       (Job_Engine j) v (Job_Cron j) (Job_WatchGlob j) (Job_WatchMode j) (Job_Debounce j)
       (Job_PollSec j) (Job_Timeout j) (Job_Compare j) (Job_Bwlimit j) (Job_Backup j)
       (Job_BackupKeep j) (Job_MaxDel j) (Job_SkipNew j) (Job_SysBackup j) (Job_Exclude j)
       (Job_Disabled j) (Job_LastRun j) (Job_LastStat j).
Definition Job_set_Timeout (v : Z) (j : Job) : Job :=
    MkJob (Job_SchemaVersion j) (Job_ID j) (Job_Revision j) (Job_Name j) (Job_Enabled j)
       (Job_NeedsReview j) (Job_Action j) (Job_Identity j) (Job_Execution j) (Job_Trigger j)
       (Job_Scheduler j) (Job_Kind j) (Job_Command j) (Job_Backend j) (Job_Source j) (Job_Dest j)
       (Job_Engine j) (Job_Mode j) (Job_Cron j) (Job_WatchGlob j) (Job_WatchMode j) (Job_Debounce j)
       (Job_PollSec j) v (Job_Compare j) (Job_Bwlimit j) (Job_Backup j) (Job_BackupKeep j)
       (Job_MaxDel j) (Job_SkipNew j) (Job_SysBackup j) (Job_Exclude j) (Job_Disabled j)
       (Job_LastRun j) (Job_LastStat j).
Definition Job_set_Compare (v : string) (j : Job) : Job :=
    MkJob (Job_SchemaVersion j) (Job_ID j) (Job_Revision j) (Job_Name j) (Job_Enabled j)
       (Job_NeedsReview j) (Job_Action j) (Job_Identity j) (Job_Execution j) (Job_Trigger j)
       (Job_Scheduler j) (Job_Kind j) (Job_Command j) (Job_Backend j) (Job_Source j) (Job_Dest j)
       (Job_Engine j) (Job_Mode j) (Job_Cron j) (Job_WatchGlob j) (Job_WatchMode j) (Job_Debounce j)
       (Job_PollSec j) (Job_Timeout j) v (Job_Bwlimit j) (Job_Backup j) (Job_BackupKeep j)
       (Job_MaxDel j) (Job_SkipNew j) (Job_SysBackup j) (Job_Exclude j) (Job_Disabled j)
       (Job_LastRun j) (Job_LastStat j).
Definition Job_set_Bwlimit (v : string) (j : Job) : Job :=
    MkJob (Job_SchemaVersion j) (Job_ID j) (Job_Revision j) (Job_Name j) (Job_Enabled j)
       (Job_NeedsReview j) (Job_Action j) (Job_Identity j) (Job_Execution j) (Job_Trigger j)
       (Job_Scheduler j) (Job_Kind j) (Job_Command j) (Job_Backend j) (Job_Source j) (Job_Dest j)
       (Job_Engine j) (Job_Mode j) (Job_Cron j) (Job_WatchGlob j) (Job_WatchMode j) (Job_Debounce j)
       (Job_PollSec j) (Job_Timeout j) (Job_Compare j) v (Job_Backup j) (Job_BackupKeep j)
       (Job_MaxDel j) (Job_SkipNew j) (Job_SysBackup j) (Job_Exclude j) (Job_Disabled j)
       (Job_LastRun j) (Job_LastStat j).
Definition Job_set_Backup (v : bool) (j : Job) : Job :=
    MkJob (Job_SchemaVersion j) (Job_ID j) (Job_Revision j) (Job_Name j) (Job_Enabled j)
       (Job_NeedsReview j) (Job_Action j) (Job_Identity j) (Job_Execution j) (Job_Trigger j)
       (Job_Scheduler j) (Job_Kind j) (Job_Command j) (Job_Backend j) (Job_Source j) (Job_Dest j)
       (Job_Engine j) (Job_Mode j) (Job_Cron j) (Job_WatchGlob j) (Job_WatchMode j) (Job_Debounce j)
       (Job_PollSec j) (Job_Timeout j) (Job_Compare j) (Job_Bwlimit j) v (Job_BackupKeep j)
       (Job_MaxDel j) (Job_SkipNew j) (Job_SysBackup j) (Job_Exclude j) (Job_Disabled j)
       (Job_LastRun j) (Job_LastStat j).
Definition Job_set_BackupKeep (v : Z) (j : Job) : Job :=
    MkJob (Job_SchemaVersion j) (Job_ID j) (Job_Revision j) (Job_Name j) (Job_Enabled j)
       (Job_NeedsReview j) (Job_Action j) (Job_Identity j) (Job_Execution j) (Job_Trigger j)
       (Job_Scheduler j) (Job_Kind j) (Job_Command j) (Job_Backend j) (Job_Source j) (Job_Dest j)
       (Job_Engine j) (Job_Mode j) (Job_Cron j) (Job_WatchGlob j) (Job_WatchMode j) (Job_Debounce j)
       (Job_PollSec j) (Job_Timeout j) (Job_Compare j) (Job_Bwlimit j) (Job_Backup j) v
       (Job_MaxDel j) (Job_SkipNew j) (Job_SysBackup j) (Job_Exclude j) (Job_Disabled j)
       (Job_LastRun j) (Job_LastStat j).
Definition Job_set_MaxDel (v : Z) (j : Job) : Job :=
    MkJob (Job_SchemaVersion j) (Job_ID j) (Job_Revision j) (Job_Name j) (Job_Enabled j)
       (Job_NeedsReview j) (Job_Action j) (Job_Identity j) (Job_Execution j) (Job_Trigger j)
       (Job_Scheduler j) (Job_Kind j) (Job_Command j) (Job_Backend j) (Job_Source j) (Job_Dest j)
       (Job_Engine j) (Job_Mode j) (Job_Cron j) (Job_WatchGlob j) (Job_WatchMode j) (Job_Debounce j)
       (Job_PollSec j) (Job_Timeout j) (Job_Compare j) (Job_Bwlimit j) (Job_Backup j)
       (Job_BackupKeep j) v (Job_SkipNew j) (Job_SysBackup j) (Job_Exclude j) (Job_Disabled j)
       (Job_LastRun j) (Job_LastStat j).
Definition Job_set_SkipNew (v : bool) (j : Job) : Job :=
    MkJob (Job_SchemaVersion j) (Job_ID j) (Job_Revision j) (Job_Name j) (Job_Enabled j)
       (Job_NeedsReview j) (Job_Action j) (Job_Identity j) (Job_Execution j) (Job_Trigger j)
       (Job_Scheduler j) (Job_Kind j) (Job_Command j) (Job_Backend j) (Job_Source j) (Job_Dest j)
       (Job_Engine j) (Job_Mode j) (Job_Cron j) (Job_WatchGlob j) (Job_WatchMode j) (Job_Debounce j)
       (Job_PollSec j) (Job_Timeout j) (Job_Compare j) (Job_Bwlimit j) (Job_Backup j)
       (Job_BackupKeep j) (Job_MaxDel j) v (Job_SysBackup j) (Job_Exclude j) (Job_Disabled j)
       (Job_LastRun j) (Job_LastStat j).
Definition Job_set_SysBackup (v : bool) (j : Job) : Job :=
    MkJob (Job_SchemaVersion j) (Job_ID j) (Job_Revision j) (Job_Name j) (Job_Enabled j)
       (Job_NeedsReview j) (Job_Action j) (Job_Identity j) (Job_Execution j) (Job_Trigger j)
       (Job_Scheduler j) (Job_Kind j) (Job_Command j) (Job_Backend j) (Job_Source j) (Job_Dest j)
       (Job_Engine j) (Job_Mode j) (Job_Cron j) (Job_WatchGlob j) (Job_WatchMode j) (Job_Debounce j)
       (Job_PollSec j) (Job_Timeout j) (Job_Compare j) (Job_Bwlimit j) (Job_Backup j)
       (Job_BackupKeep j) (Job_MaxDel j) (Job_SkipNew j) v (Job_Exclude j) (Job_Disabled j)
       (Job_LastRun j) (Job_LastStat j).
Definition Job_set_Exclude (v : string) (j : Job) : Job :=
    MkJob (Job_SchemaVersion j) (Job_ID j) (Job_Revision j) (Job_Name j) (Job_Enabled j)
       (Job_NeedsReview j) (Job_Action j) (Job_Identity j) (Job_Execution j) (Job_Trigger j)
       (Job_Scheduler j) (Job_Kind j) (Job_Command j) (Job_Backend j) (Job_Source j) (Job_Dest j)
       (Job_Engine j) (Job_Mode j) (Job_Cron j) (Job_WatchGlob j) (Job_WatchMode j) (Job_Debounce j)
       (Job_PollSec j) (Job_Timeout j) (Job_Compare j) (Job_Bwlimit j) (Job_Backup j)
       (Job_BackupKeep j) (Job_MaxDel j) (Job_SkipNew j) (Job_SysBackup j) v (Job_Disabled j)
       (Job_LastRun j) (Job_LastStat j).
Definition Job_set_Disabled (v : bool) (j : Job) : Job :=
    MkJob (Job_SchemaVersion j) (Job_ID j) (Job_Revision j) (Job_Name j) (Job_Enabled j)
       (Job_NeedsReview j) (Job_Action j) (Job_Identity j) (Job_Execution j) (Job_Trigger j)
       (Job_Scheduler j) (Job_Kind j) (Job_Command j) (Job_Backend j) (Job_Source j) (Job_Dest j)
       (Job_Engine j) (Job_Mode j) (Job_Cron j) (Job_WatchGlob j) (Job_WatchMode j) (Job_Debounce j)
       (Job_PollSec j) (Job_Timeout j) (Job_Compare j) (Job_Bwlimit j) (Job_Backup j)
       (Job_BackupKeep j) (Job_MaxDel j) (Job_SkipNew j) (Job_SysBackup j) (Job_Exclude j) v
       (Job_LastRun j) (Job_LastStat j).
Definition Job_set_LastRun (v : string) (j : Job) : Job :=
    MkJob (Job_SchemaVersion j) (Job_ID j) (Job_Revision j) (Job_Name j) (Job_Enabled j)
       (Job_NeedsReview j) (Job_Action j) (Job_Identity j) (Job_Execution j) (Job_Trigger j)
       (Job_Scheduler j) (Job_Kind j) (Job_Command j) (Job_Backend j) (Job_Source j) (Job_Dest j)
       (Job_Engine j) (Job_Mode j) (Job_Cron j) (Job_WatchGlob j) (Job_WatchMode j) (Job_Debounce j)
       (Job_PollSec j) (Job_Timeout j) (Job_Compare j) (Job_Bwlimit j) (Job_Backup j)
       (Job_BackupKeep j) (Job_MaxDel j) (Job_SkipNew j) (Job_SysBackup j) (Job_Exclude j)
       (Job_Disabled j) v (Job_LastStat j).
Definition Job_set_LastStat (v : string) (j : Job) : Job :=
    MkJob (Job_SchemaVersion j) (Job_ID j) (Job_Revision j) (Job_Name j) (Job_Enabled j)
       (Job_NeedsReview j) (Job_Action j) (Job_Identity j) (Job_Execution j) (Job_Trigger j)
       (Job_Scheduler j) (Job_Kind j) (Job_Command j) (Job_Backend j) (Job_Source j) (Job_Dest j)
       (Job_Engine j) (Job_Mode j) (Job_Cron j) (Job_WatchGlob j) (Job_WatchMode j) (Job_Debounce j)
       (Job_PollSec j) (Job_Timeout j) (Job_Compare j) (Job_Bwlimit j) (Job_Backup j)
       (Job_BackupKeep j) (Job_MaxDel j) (Job_SkipNew j) (Job_SysBackup j) (Job_Exclude j)
       (Job_Disabled j) (Job_LastRun j) v.

Definition Action_set_ScriptArgs (v : list string) (a : Action) : Action :=
  MkAction (Action_Type a) (Action_ScriptPath a) v (Action_Command a) (Action_Sync a).
Definition Action_set_Sync (v : SyncAction) (a : Action) : Action :=
  MkAction (Action_Type a) (Action_ScriptPath a) (Action_ScriptArgs a) (Action_Command a) v.
Definition Exec_set_Environment (v : list string) (e : ExecutionPolicy) : ExecutionPolicy :=
  MkExecutionPolicy (Exec_WorkingDirectory e) v (Exec_Umask e) (Exec_TimeoutSeconds e)
    (Exec_StopGraceSeconds e) (Exec_Overlap e).
Definition Exec_set_Overlap (v : string) (e : ExecutionPolicy) : ExecutionPolicy :=
  MkExecutionPolicy (Exec_WorkingDirectory e) (Exec_Environment e) (Exec_Umask e) (Exec_TimeoutSeconds e)
    (Exec_StopGraceSeconds e) v.
Definition Exec_set_TimeoutSeconds (v : Z) (e : ExecutionPolicy) : ExecutionPolicy :=
  MkExecutionPolicy (Exec_WorkingDirectory e) (Exec_Environment e) (Exec_Umask e) v
    (Exec_StopGraceSeconds e) (Exec_Overlap e).

(** [cloneJob] copies the two slices a [Job] shares by reference. Lists are
    values here, so the copy [append([]string(nil), xs...)] is [[] ++ xs]. *)
Definition cloneJob (job : Job) : Job :=
  let job := Job_set_Action (Action_set_ScriptArgs ([] ++ Action_ScriptArgs (Job_Action job)) (Job_Action job)) job in
  Job_set_Execution (Exec_set_Environment ([] ++ Exec_Environment (Job_Execution job)) (Job_Execution job)) job.

Definition jobWatchSource (job : Job) : string :=
  if string_eqb (Action_Type (Job_Action job)) ActionSync then Sync_Source (Action_Sync (Job_Action job))
  else Job_Source job.

(** ** Decidable equality *)

#[export] Instance SyncAction_eq_dec : EqDecision SyncAction.
Proof. solve_decision. Defined.
#[export] Instance Action_eq_dec : EqDecision Action.
Proof. solve_decision. Defined.
#[export] Instance Identity_eq_dec : EqDecision Identity.
Proof. solve_decision. Defined.
#[export] Instance ExecutionPolicy_eq_dec : EqDecision ExecutionPolicy.
Proof. solve_decision. Defined.
#[export] Instance SchedulerPolicy_eq_dec : EqDecision SchedulerPolicy.
Proof. solve_decision. Defined.
#[export] Instance Job_eq_dec : EqDecision Job.
Proof. solve_decision. Defined.

Lemma cloneJob_id job : cloneJob job = job.
Proof. by destruct job as [? ? ? ? ? ? [] ? []]. Qed.

Create HintDb model.
#[export] Hint Rewrite cloneJob_id : model.
