(* ===== verification/LogBuffer.v ===== *)
(** * The bounded log buffer ([log_buffer.go])

    A [LogBuffer] keeps the newest normalised lines of one run within a byte
    budget.  Instants are nanosecond counts ([Z]); the zero [time.Time] is
    [None].  The mutex makes every exported method atomic, so a method is one
    function on the buffer. *)

From S2P Require Import Prelude GoStrings.

Record LogLimits := MkLogLimits {
  MaxBytes : Z;
  MaxLineBytes : Z;
  MaxRuns : Z;
  MaxAge : Z
}.

Record logEntry := MkLogEntry { entry_at : Z; entry_line : string }.

Record LogBuffer := MkLogBuffer {
  buf_limits : LogLimits;
  buf_entries : list logEntry;
  buf_bytes : Z
}.

(** [MaxExecutionLogLineBytes] of [host_executor.go] *)
Definition MaxExecutionLogLineBytes : Z := 64 * 1024.

Definition NewLogBuffer (limits : LogLimits) : LogBuffer :=
  let limits := if (MaxBytes limits <=? 0)%Z
                then MkLogLimits 1048576 (MaxLineBytes limits) (MaxRuns limits) (MaxAge limits) else limits in
  let limits := if (MaxLineBytes limits <=? 0)%Z
                then MkLogLimits (MaxBytes limits) MaxExecutionLogLineBytes (MaxRuns limits) (MaxAge limits)
                else limits in
  MkLogBuffer limits [] 0.

Definition before (a : Z) (cutoff : option Z) : bool :=
  match cutoff with None => false | Some c => (a <? c)%Z end.

(** The loop of [trimLocked], on the entries and the byte count. *)
Fixpoint trim_loop (max : Z) (cutoff : option Z) (entries : list logEntry) (bytes : Z) : list logEntry * Z :=
  match entries with
  | [] => ([], bytes)
  | e :: rest =>
      if before (entry_at e) cutoff || (max <? bytes)%Z
      then trim_loop max cutoff rest (bytes - str_len (entry_line e))
      else (entries, bytes)
  end.

Definition trimLocked (cutoff : option Z) (b : LogBuffer) : LogBuffer :=
  let (entries, bytes) := trim_loop (MaxBytes (buf_limits b)) cutoff (buf_entries b) (buf_bytes b) in
  MkLogBuffer (buf_limits b) entries bytes.

Definition TrimBefore (cutoff : option Z) (b : LogBuffer) : LogBuffer := trimLocked cutoff b.

Definition appendLine (at_ : Z) (line : string) (b : LogBuffer) : LogBuffer :=
  let line := if (MaxLineBytes (buf_limits b) <? str_len line)%Z
              then take_str (Z.to_nat (MaxLineBytes (buf_limits b))) line else line in
  let line := line +:+ newline in
  if (MaxBytes (buf_limits b) <? str_len line)%Z then b
  else trimLocked None
         (MkLogBuffer (buf_limits b) (buf_entries b ++ [MkLogEntry at_ line]) (buf_bytes b + str_len line)).

Definition CR : ascii := Ascii.ascii_of_nat 13.
Definition LF : ascii := Ascii.ascii_of_nat 10.

(** One round of the loop of [AppendAt]: the line up to the first CR or LF, and
    the data after the terminator (a CRLF pair is one terminator). *)
Fixpoint next_line (data : string) : string * string :=
  match data with
  | EmptyString => (EmptyString, EmptyString)
  | String c r =>
      if ascii_eqb c LF then (EmptyString, r)
      else if ascii_eqb c CR then
        (EmptyString, match r with String d r' => if ascii_eqb d LF then r' else r | EmptyString => r end)
      else let (l, rest) := next_line r in (String c l, rest)
  end.

(** Every round consumes at least one byte: the length of [data] is enough fuel. *)
Fixpoint append_loop (fuel : nat) (at_ : Z) (data : string) (b : LogBuffer) : LogBuffer :=
  match fuel, data with
  | S fuel, String _ _ => let (line, rest) := next_line data in append_loop fuel at_ rest (appendLine at_ line b)
  | _, _ => b
  end.

Definition AppendAt (at_ : Z) (data : string) (b : LogBuffer) : LogBuffer :=
  append_loop (String.length data) at_ data b.

Definition Bytes (b : LogBuffer) : string :=
  fold_right (fun e acc => entry_line e +:+ acc) "" (buf_entries b).

(** ** What the buffer promises *)

(** The lines of a text: CR, LF and CRLF end a line, and a last line needs no
    terminator. [cur] is the current line, reversed. *)
Fixpoint lines_of (data : string) (skipLF : bool) (cur : string) : list string :=
  match data with
  | EmptyString => match cur with EmptyString => [] | _ => [rev_string cur ""] end
  | String c r =>
      if skipLF && ascii_eqb c LF then lines_of r false cur
      else if ascii_eqb c LF then rev_string cur "" :: lines_of r false ""
      else if ascii_eqb c CR then rev_string cur "" :: lines_of r true ""
      else lines_of r false (String c cur)
  end.

Definition entries_bytes (l : list logEntry) : Z :=
  fold_right (fun e acc => str_len (entry_line e) + acc)%Z 0%Z l.

(** The longest suffix of [l] whose lines total at most [max] bytes. *)
Fixpoint newest_within (max : Z) (l : list logEntry) : list logEntry :=
  match l with
  | [] => []
  | _ :: rest => if (entries_bytes l <=? max)%Z then l else newest_within max rest
  end.

(** A stored line: clipped to the line limit and newline-terminated. *)
Definition stored_line (limits : LogLimits) (line : string) : string :=
  take_str (Z.to_nat (MaxLineBytes limits)) line +:+ newline.

Definition new_entries (limits : LogLimits) (at_ : Z) (data : string) : list logEntry :=
  filter (fun e => str_len (entry_line e) <= MaxBytes limits)%Z
    (map (fun l => MkLogEntry at_ (stored_line limits l)) (lines_of data false "")).

Definition limits_ok (l : LogLimits) : Prop := (0 < MaxBytes l /\ 0 < MaxLineBytes l)%Z.

Definition line_ok (l : LogLimits) (line : string) : Prop :=
  exists body, line = body +:+ newline /\ (str_len body <= MaxLineBytes l)%Z.

(** The buffer invariant: the counter is exact, the budget holds, and every
    entry is one newline-terminated line within the line limit. *)
Record log_ok (b : LogBuffer) : Prop := {
  log_ok_limits : limits_ok (buf_limits b);
  log_ok_count : buf_bytes b = entries_bytes (buf_entries b);
  log_ok_budget : (buf_bytes b <= MaxBytes (buf_limits b))%Z;
  log_ok_lines : Forall (fun e => line_ok (buf_limits b) (entry_line e)) (buf_entries b)
}.

(** ** Facts *)

Lemma str_len_nonneg s : (0 <= str_len s)%Z.
Proof. induction s; simpl; lia. Qed.
Lemma str_len_app s t : str_len (s +:+ t) = (str_len s + str_len t)%Z.
Proof. induction s as [|c s IH]; [done|]. rewrite app_cons. simpl. lia. Qed.
Lemma str_len_take n s : str_len (take_str n s) = Z.min (Z.of_nat n) (str_len s).
Proof.
  revert s. induction n as [|n IH]; intros [|c s]; simpl; try (pose proof (str_len_nonneg s)); [lia..|].
  rewrite IH. lia.
Qed.
Lemma take_str_all n s : (str_len s <= Z.of_nat n)%Z -> take_str n s = s.
Proof.
  revert s. induction n as [|n IH]; intros [|c s]; simpl; intros H; [done| |done|].
  - pose proof (str_len_nonneg s). lia.
  - rewrite IH; [done|lia].
Qed.

Lemma entries_bytes_nonneg l : (0 <= entries_bytes l)%Z.
Proof. induction l as [|e l IH]; simpl; [lia|]. pose proof (str_len_nonneg (entry_line e)). lia. Qed.
Lemma entries_bytes_app l k : entries_bytes (l ++ k) = (entries_bytes l + entries_bytes k)%Z.
Proof. induction l as [|e l IH]; simpl; [done|]. lia. Qed.

Lemma rev_string_app s acc t : rev_string s (acc +:+ t) = rev_string s acc +:+ t.
Proof. revert acc. induction s as [|c s IH]; intros acc; [done|]. simpl. by rewrite <-IH, app_cons. Qed.
Lemma rev_string_acc s t : rev_string s t = rev_string s "" +:+ t.
Proof. by rewrite <-rev_string_app. Qed.

Lemma trim_loop_suffix max cutoff l n : exists dropped, l = dropped ++ (trim_loop max cutoff l n).1.
Proof.
  revert n. induction l as [|e l IH]; intros n; simpl; [by exists []|].
  case_goal; [|by exists []]. destruct (IH (n - str_len (entry_line e))%Z) as [d Hd].
  exists (e :: d). simpl. by rewrite <-Hd.
Qed.

Lemma trim_loop_count max cutoff l n :
  n = entries_bytes l -> (trim_loop max cutoff l n).2 = entries_bytes (trim_loop max cutoff l n).1.
Proof.
  revert n. induction l as [|e l IH]; intros n ->; simpl; [done|].
  case_goal; [|done]. apply IH. lia.
Qed.

Lemma trim_loop_budget max cutoff l n :
  (0 <= max)%Z -> n = entries_bytes l -> ((trim_loop max cutoff l n).2 <= max)%Z.
Proof.
  intros Hmax. revert n. induction l as [|e l IH]; intros n ->; simpl; [lia|].
  case_goal; [apply IH; lia|]. bool_simpl. simpl. lia.
Qed.

(** Without a cutoff the loop keeps exactly the longest suffix that fits. *)
Lemma trim_loop_newest max l n :
  n = entries_bytes l -> (trim_loop max None l n).1 = newest_within max l.
Proof.
  revert n. induction l as [|e l IH]; intros n ->; [done|]. cbn [trim_loop newest_within before orb].
  destruct (max <? entries_bytes (e :: l))%Z eqn:E; bool_simpl.
  - assert (entries_bytes (e :: l) <=? max = false)%Z as -> by lia. apply IH. simpl. lia.
  - assert (entries_bytes (e :: l) <=? max = true)%Z as -> by lia. done.
Qed.

Lemma newest_within_fits max l : (entries_bytes l <= max)%Z -> newest_within max l = l.
Proof.
  intros H. destruct l as [|e l]; [done|]. cbn [newest_within].
  assert (entries_bytes (e :: l) <=? max = true)%Z as -> by lia. done.
Qed.

(** Trimming early does not change what is left at the end. *)
Lemma newest_within_twice max l k :
  newest_within max (newest_within max l ++ k) = newest_within max (l ++ k).
Proof.
  induction l as [|e l IH]; [done|].
  cbn [newest_within]. destruct (entries_bytes (e :: l) <=? max)%Z eqn:E; [done|]. bool_simpl.
  rewrite IH. simpl. pose proof (entries_bytes_nonneg k).
  assert (str_len (entry_line e) + entries_bytes (l ++ k) <=? max = false)%Z as ->; [|done].
  rewrite entries_bytes_app. simpl in E. lia.
Qed.

Lemma clip_stored limits line :
  (0 < MaxLineBytes limits)%Z ->
  (if (MaxLineBytes limits <? str_len line)%Z then take_str (Z.to_nat (MaxLineBytes limits)) line else line)
    +:+ newline = stored_line limits line.
Proof.
  intros H. unfold stored_line. case_goal; [done|]. bool_simpl. rewrite take_str_all; [done|lia].
Qed.

Lemma stored_line_ok limits line : (0 < MaxLineBytes limits)%Z -> line_ok limits (stored_line limits line).
Proof. intros H. eexists. split; [done|]. rewrite str_len_take. lia. Qed.

Lemma trimLocked_ok cutoff b :
  limits_ok (buf_limits b) -> buf_bytes b = entries_bytes (buf_entries b) ->
  Forall (fun e => line_ok (buf_limits b) (entry_line e)) (buf_entries b) -> log_ok (trimLocked cutoff b).
Proof.
  intros Hl Hc Hf. unfold trimLocked.
  destruct (trim_loop _ _ _ _) as [es n] eqn:E.
  pose proof (trim_loop_count (MaxBytes (buf_limits b)) cutoff _ _ Hc) as Hcount.
  pose proof (trim_loop_budget (MaxBytes (buf_limits b)) cutoff _ _ ltac:(destruct Hl; lia) Hc) as Hbud.
  destruct (trim_loop_suffix (MaxBytes (buf_limits b)) cutoff (buf_entries b) (buf_bytes b)) as [d Hd].
  rewrite E in *. simpl in *. split; simpl; try done. rewrite Hd in Hf. by apply Forall_app in Hf as [_ ?].
Qed.

Lemma appendLine_ok at_ line b : log_ok b -> log_ok (appendLine at_ line b).
Proof.
  intros [Hl Hc Hb Hf]. unfold appendLine. rewrite clip_stored by apply Hl.
  case_goal; [by split|]. apply trimLocked_ok; simpl; [done| |].
  - rewrite entries_bytes_app. simpl. lia.
  - apply Forall_app. split; [done|]. constructor; [|done]. apply stored_line_ok, Hl.
Qed.

Lemma append_loop_ok fuel at_ data b : log_ok b -> log_ok (append_loop fuel at_ data b).
Proof.
  revert data b. induction fuel as [|fuel IH]; intros data b Hb; [done|].
  destruct data as [|c data]; [done|]. cbn [append_loop]. destruct (next_line _) as [l r].
  by apply IH, appendLine_ok.
Qed.

Lemma appendLine_limits at_ line b : buf_limits (appendLine at_ line b) = buf_limits b.
Proof. unfold appendLine, trimLocked. case_goal; [done|]. by destruct (trim_loop _ _ _ _). Qed.

(** One appended line: add it unless it alone exceeds the budget, keep the newest. *)
Lemma appendLine_entries at_ line b :
  log_ok b ->
  buf_entries (appendLine at_ line b) =
    newest_within (MaxBytes (buf_limits b))
      (buf_entries b ++ filter (fun e => str_len (entry_line e) <= MaxBytes (buf_limits b))%Z
                          [MkLogEntry at_ (stored_line (buf_limits b) line)]).
Proof.
  intros [Hl Hc Hb Hf]. unfold appendLine. rewrite clip_stored by apply Hl.
  rewrite filter_cons, filter_nil. simpl. case_goal; bool_simpl.
  - rewrite decide_False by lia. rewrite app_nil_r. symmetry. apply newest_within_fits. lia.
  - rewrite decide_True by lia. unfold trimLocked. simpl.
    pose proof (trim_loop_newest (MaxBytes (buf_limits b))
      (buf_entries b ++ [MkLogEntry at_ (stored_line (buf_limits b) line)])
      (buf_bytes b + str_len (stored_line (buf_limits b) line))) as Ht.
    destruct (trim_loop _ _ _ _) as [es n]. simpl in *. apply Ht.
    rewrite entries_bytes_app. simpl. lia.
Qed.

Lemma next_line_lines data cur :
  lines_of data false cur =
    match data with
    | "" => match cur with "" => [] | _ => [rev_string cur ""] end
    | _ => (rev_string cur "" +:+ (next_line data).1) :: lines_of (next_line data).2 false ""
    end.
Proof.
  revert cur. induction data as [|c data IH]; intros cur; [done|]. simpl.
  destruct (ascii_eqb c LF) eqn:E1; [by rewrite app_empty_r|].
  destruct (ascii_eqb c CR) eqn:E2; simpl.
  - rewrite app_empty_r. f_equal. destruct data as [|d data]; [done|]. simpl.
    destruct (ascii_eqb d LF) eqn:Ed; simpl; [done|]. by rewrite ?Ed.
  - rewrite IH. destruct data as [|d data].
    + simpl. by rewrite (rev_string_acc cur (String c "")).
    + destruct (next_line (String d data)) as [l rest]. cbn [fst snd].
      simpl. by rewrite (rev_string_acc cur (String c "")), app_assoc_str.
Qed.

Lemma next_line_shorter c data : (String.length (next_line (String c data)).2 <= String.length data)%nat.
Proof.
  revert c. induction data as [|d data IH]; intros c; simpl.
  - repeat case_goal; simpl; lia.
  - destruct (ascii_eqb c LF); [simpl; lia|]. destruct (ascii_eqb c CR).
    + simpl. case_goal; simpl; lia.
    + specialize (IH d). simpl in IH. destruct (if ascii_eqb d LF then _ else _) as [l rest]. simpl in *. lia.
Qed.

Lemma append_loop_entries fuel at_ data b :
  log_ok b -> (String.length data <= fuel)%nat ->
  buf_entries (append_loop fuel at_ data b) =
    newest_within (MaxBytes (buf_limits b)) (buf_entries b ++ new_entries (buf_limits b) at_ data).
Proof.
  revert data b. induction fuel as [|fuel IH]; intros data b Hb Hlen.
  { destruct data; simpl in Hlen; [|lia]. simpl. rewrite app_nil_r. symmetry.
    apply newest_within_fits. destruct Hb. lia. }
  destruct data as [|c data].
  { simpl. rewrite app_nil_r. symmetry. apply newest_within_fits. destruct Hb. lia. }
  cbn [append_loop]. pose proof (next_line_shorter c data) as Hs. unfold new_entries.
  rewrite next_line_lines. simpl in Hlen.
  destruct (next_line (String c data)) as [l rest] eqn:E. cbn [fst snd] in *.
  rewrite IH by first [by apply appendLine_ok|lia].
  rewrite appendLine_limits, appendLine_entries by done.
  rewrite newest_within_twice, <-app_assoc. do 2 f_equal. unfold new_entries.
  change (rev_string "" "" +:+ l) with l. rewrite map_cons, (filter_cons _ (MkLogEntry _ _)), (filter_cons _ (MkLogEntry _ _)), filter_nil.
  by destruct (decide _).
Qed.

Lemma NewLogBuffer_ok limits : log_ok (NewLogBuffer limits).
Proof.
  unfold NewLogBuffer. split; unfold limits_ok; repeat case_goal; bool_simpl; simpl in *;
    unfold MaxExecutionLogLineBytes in *; try lia; constructor.
Qed.

(** ** Properties *)

(** Every method leaves the buffer within its limits. *)
Inductive log_op :=
  | OpAppend (at_ : Z) (data : string)
  | OpTrim (cutoff : option Z).

Definition run_log_op (b : LogBuffer) (op : log_op) : LogBuffer :=
  match op with OpAppend t d => AppendAt t d b | OpTrim c => TrimBefore c b end.

Lemma run_log_op_ok b op : log_ok b -> log_ok (run_log_op b op).
Proof.
  intros Hb. destruct op as [t d|c]; simpl.
  - by apply append_loop_ok.
  - destruct Hb. by apply trimLocked_ok.
Qed.

(** A buffer made by [NewLogBuffer] and driven by any sequence of appends and
    trims holds at most [MaxBytes] bytes, counts them exactly, and holds only
    newline-terminated lines of at most [MaxLineBytes] bytes. *)
Theorem LogBuffer_bounded limits ops : log_ok (fold_left run_log_op ops (NewLogBuffer limits)).
Proof.
  generalize (NewLogBuffer_ok limits). generalize (NewLogBuffer limits) as b.
  induction ops as [|op ops IH]; intros b Hb; [done|]. by apply IH, run_log_op_ok.
Qed.

(** Appending.  Of the entries held before, followed by the lines of [data]
    split at CR, LF and CRLF and cut to the line limit, a buffer keeps the
    longest suffix that fits in [MaxBytes]. *)
Theorem LogBuffer_AppendAt_spec at_ data b :
  log_ok b ->
  buf_entries (AppendAt at_ data b) =
    newest_within (MaxBytes (buf_limits b)) (buf_entries b ++ new_entries (buf_limits b) at_ data).
Proof. intros Hb. by apply append_loop_entries. Qed.

Lemma LogBuffer_AppendAt_spec_witness :
  let b := AppendAt 1 "one" (NewLogBuffer (MkLogLimits 8 5 0 0)) in
  log_ok b /\
  buf_entries (AppendAt 2 ("two" +:+ newline +:+ "three!") b) =
    newest_within 8 (buf_entries b ++ new_entries (buf_limits b) 2 ("two" +:+ newline +:+ "three!")) /\
  Bytes (AppendAt 2 ("two" +:+ newline +:+ "three!") b) = "three" +:+ newline.
Proof.
  assert (log_ok (AppendAt 1 "one" (NewLogBuffer (MkLogLimits 8 5 0 0)))) as Hb
    by (apply append_loop_ok, NewLogBuffer_ok).
  split; [exact Hb|]. split; [|vm_compute; reflexivity].
  apply (LogBuffer_AppendAt_spec 2 _ _ Hb).
Defined.
