(* ===== verification/AtomicFile.v ===== *)
(** * Atomic replacement of a file ([atomic_file.go])

    [atomicWriteFileWithFS] is written against an interface of file system
    operations.  [FS] models what those operations do: files by path, each with
    its data, mode, owner and whether its data is on stable storage.  Any
    operation can fail: [fs_script] says, operation by operation, whether the
    environment lets it succeed, and how many bytes a failing write has already
    written.  A process that dies after its [n]-th operation leaves the state of
    a run whose later operations all fail, so a statement about every script
    covers crashes too. *)

From S2P Require Import Prelude GoStrings Model.

Record file := MkFile {
  file_data : string;
  file_mode : Z;
  file_owner : FileOwner;
  file_synced : bool
}.

Inductive outcome :=
  | Succeeds (suffix : string)   (* [suffix] is the random part [CreateTemp] picks *)
  | Fails (written : nat).

Record FS := MkFS {
  fs_files : gmap string file;
  fs_synced_dirs : list string;  (* directories fsynced, latest first *)
  fs_script : list outcome
}.

Definition fs_set_files (f : gmap string file -> gmap string file) (fs : FS) : FS :=
  MkFS (f (fs_files fs)) (fs_synced_dirs fs) (fs_script fs).

(** The environment decides the next operation; an exhausted script succeeds. *)
Definition next_outcome : SE FS outcome := fun fs =>
  match fs_script fs with
  | [] => (Ok (Succeeds "0"), fs)
  | o :: rest => (Ok o, MkFS (fs_files fs) (fs_synced_dirs fs) rest)
  end.

(** An operation with effect [ok] when it succeeds and none when it fails. *)
Definition fs_op (what : string) (ok : FS -> FS) : SE FS unit :=
  o ← next_outcome;
  match o with
  | Succeeds _ => modify_state ok
  | Fails _ => lift (Err (ErrNew what))
  end.

Definition fs_MkdirAll (dir : string) : SE FS unit := fs_op "mkdir" (fun fs => fs).

(** [os.CreateTemp]: the pattern may not hold a separator, an existing name is
    never reused, the file starts empty with mode 0600. *)
Definition joinPath (dir name : string) : string :=
  if HasSuffix dir "/" then dir +:+ name else dir +:+ "/" +:+ name.

Definition process_owner : FileOwner := MkFileOwner 0 0.

Definition fs_CreateTemp (dir pattern : string) : SE FS string :=
  o ← next_outcome;
  match o with
  | Fails _ => lift (Err (ErrNew "createtemp"))
  | Succeeds suffix =>
      let name := joinPath dir (pattern +:+ suffix) in
      fs ← get_state;
      if has_byte slash (pattern +:+ suffix) then lift (Err (ErrNew "pattern contains path separator"))
      else if bool_decide (is_Some (fs_files fs !! name)) then lift (Err (ErrNew "file exists"))
      else
        _ ← modify_state (fs_set_files (<[name := MkFile "" 384 process_owner false]>));
        mret name
  end.

Definition alter_file (name : string) (f : file -> file) : FS -> FS := fs_set_files (alter f name).

Definition fs_Write (name data : string) : SE FS unit :=
  o ← next_outcome;
  match o with
  | Succeeds _ =>
      modify_state (alter_file name (fun f => MkFile (file_data f +:+ data) (file_mode f) (file_owner f) false))
  | Fails n =>
      _ ← modify_state (alter_file name (fun f =>
            MkFile (file_data f +:+ take_str n data) (file_mode f) (file_owner f) false));
      lift (Err (ErrNew "write"))
  end.
Definition fs_Chmod (name : string) (mode : Z) : SE FS unit :=
  fs_op "chmod" (alter_file name (fun f => MkFile (file_data f) mode (file_owner f) (file_synced f))).
Definition fs_Chown (name : string) (owner : FileOwner) : SE FS unit :=
  fs_op "chown" (alter_file name (fun f => MkFile (file_data f) (file_mode f) owner (file_synced f))).
Definition fs_Sync (name : string) : SE FS unit :=
  fs_op "fsync" (alter_file name (fun f => MkFile (file_data f) (file_mode f) (file_owner f) true)).
Definition fs_Close (name : string) : SE FS unit := fs_op "close" (fun fs => fs).
Definition fs_Remove (name : string) : SE FS unit := fs_op "remove" (fs_set_files (delete name)).
Definition rename_files (old new_ : string) (files : gmap string file) : gmap string file :=
  match files !! old with Some f => <[new_ := f]> (delete old files) | None => files end.
Definition fs_Rename (old new_ : string) : SE FS unit := fs_op "rename" (fs_set_files (rename_files old new_)).
Definition fs_OpenDir (dir : string) : SE FS unit := fs_op "open" (fun fs => fs).
Definition fs_SyncDir (dir : string) : SE FS unit :=
  fs_op "fsync" (fun fs => MkFS (fs_files fs) (dir :: fs_synced_dirs fs) (fs_script fs)).

(** ** The code *)

(** [if err := m; err != nil { cleanup; return fmt.Errorf("pre: %w", err) }] *)
Definition or_cleanup (pre : string) (cleanup : SE FS unit) (m : SE FS unit) : SE FS unit :=
  r ← attempt m;
  match r with
  | Ok _ => mret tt
  | Err e => _ ← cleanup; lift (Err (ErrWrap pre e ""))
  end.

Definition ignore (m : SE FS unit) : SE FS unit := _ ← attempt m; mret tt.

Definition temp_pattern (path : string) : string := "." +:+ Base path +:+ ".tmp-".

Definition atomicWriteFileWithFS (path data : string) (mode : Z) (owner : FileOwner) : SE FS unit :=
  let dir := Dir path in
  _ ← se_map (wrap_err "create repository directory: ") (fs_MkdirAll dir);
  tmpPath ← se_map (wrap_err "create temporary file: ") (fs_CreateTemp dir (temp_pattern path));
  let cleanup := _ ← ignore (fs_Close tmpPath); ignore (fs_Remove tmpPath) in
  _ ← or_cleanup "write temporary file: " cleanup (fs_Write tmpPath data);
  _ ← or_cleanup "chmod temporary file: " cleanup (fs_Chmod tmpPath mode);
  _ ← or_cleanup "chown temporary file: " cleanup (fs_Chown tmpPath owner);
  _ ← or_cleanup "fsync temporary file: " cleanup (fs_Sync tmpPath);
  _ ← or_cleanup "close temporary file: " (ignore (fs_Remove tmpPath)) (fs_Close tmpPath);
  _ ← or_cleanup "rename temporary file: " (ignore (fs_Remove tmpPath)) (fs_Rename tmpPath path);
  _ ← se_map (wrap_err "open repository directory for fsync: ") (fs_OpenDir dir);
  se_map (wrap_err "fsync repository directory: ") (fs_SyncDir dir).

Definition AtomicWriteFile (path data : string) (mode : Z) (owner : FileOwner) : SE FS unit :=
  atomicWriteFileWithFS path data mode owner.

(** ** What a run can leave behind *)

Definition replaced (path data : string) (mode : Z) (owner : FileOwner) (files : gmap string file) :
    gmap string file := <[path := MkFile data mode owner true]> files.

(** A leftover of a failed run: the files plus one temporary file. *)
Definition with_temp (path : string) (files files' : gmap string file) : Prop :=
  exists tmp f, files !! tmp = None /\ tmp <> path /\
    HasPrefix (Base tmp) (temp_pattern path) = true /\ files' = <[tmp := f]> files.

Definition untouched (path : string) (files files' : gmap string file) : Prop :=
  files' = files \/ with_temp path files files'.

Section Atomic.
Context (path data : string) (mode : Z) (owner : FileOwner) (F : gmap string file).

Definition has_tmp (tmp : string) (f : file) (fs : FS) : Prop :=
  F !! tmp = None /\ tmp <> path /\ HasPrefix (Base tmp) (temp_pattern path) = true /\
  fs_files fs = <[tmp := f]> F.

Definition err_state (fs : FS) : Prop :=
  untouched path F (fs_files fs) \/ fs_files fs = replaced path data mode owner F.

Lemma has_tmp_err tmp f fs : has_tmp tmp f fs -> err_state fs.
Proof. intros (H1 & H2 & H3 & H4). left. right. exists tmp, f. done. Qed.

Lemma hoare_fs_op what ok (P : FS -> Prop) (Q : FS -> Prop) (E : FS -> Prop) :
  (forall fs script, P fs -> P (MkFS (fs_files fs) (fs_synced_dirs fs) script)) ->
  (forall fs, P fs -> Q (ok fs)) -> (forall fs, P fs -> E fs) ->
  hoare P (fs_op what ok) (fun _ => Q) E.
Proof.
  intros Hframe HQ HE fs Hfs. unfold fs_op. rewrite SE_bind_unfold. unfold next_outcome.
  destruct (fs_script fs) as [|o script]; simpl; [by apply HQ|].
  destruct o; simpl; [by apply HQ, Hframe|by apply HE, Hframe].
Qed.

Lemma hoare_ignore (P : FS -> Prop) m (Q : FS -> Prop) E :
  hoare P m (fun _ => Q) Q -> hoare P (ignore m) (fun _ => Q) E.
Proof.
  intros H. unfold ignore. apply (hoare_bind _ _ (fun _ => Q)).
  - eapply hoare_weaken; [apply (hoare_attempt _ _ _ _ H)|done| |done].
    intros [] s Hs; exact Hs.
  - intros []; by apply hoare_ret.
Qed.

(** A guarded step: a failure runs the cleanup and ends in an error state. *)
Lemma hoare_or_cleanup pre cleanup m (P Q E : FS -> Prop) :
  hoare P m (fun _ => Q) E -> hoare E cleanup (fun _ => err_state) err_state ->
  hoare P (or_cleanup pre cleanup m) (fun _ => Q) err_state.
Proof.
  intros Hm Hc. unfold or_cleanup.
  apply (hoare_bind _ _ (fun r s => match r with Ok _ => Q s | Err _ => E s end)).
  - eapply hoare_weaken; [apply (hoare_attempt _ _ _ _ Hm)|done..].
  - intros [[]|e]; [by apply hoare_ret|]. eapply hoare_bind; [exact Hc|].
    intros ?. apply hoare_err. done.
Qed.

Lemma cleanup_remove tmp f E :
  hoare (has_tmp tmp f) (ignore (fs_Remove tmp)) (fun _ => err_state) E.
Proof.
  apply hoare_ignore, hoare_fs_op; [done| |intros fs H; by eapply has_tmp_err].
  intros fs (H1 & _ & _ & H4). left. left. simpl. rewrite H4. by apply delete_insert_id.
Qed.

Lemma cleanup_both tmp f E :
  hoare (has_tmp tmp f) (_ ← ignore (fs_Close tmp); ignore (fs_Remove tmp)) (fun _ => err_state) E.
Proof.
  eapply hoare_bind; [apply hoare_ignore, (hoare_fs_op _ _ _ (has_tmp tmp f)); done|].
  intros ?. apply cleanup_remove.
Qed.

Lemma alter_has_tmp tmp f g fs : has_tmp tmp f fs -> has_tmp tmp (g f) (alter_file tmp g fs).
Proof.
  intros (H1 & H2 & H3 & H4). split_and!; [done..|]. simpl. rewrite H4.
  apply alter_insert_eq.
Qed.

Lemma alter_step tmp f g what :
  hoare (has_tmp tmp f) (fs_op what (alter_file tmp g)) (fun _ => has_tmp tmp (g f)) (has_tmp tmp f).
Proof. apply hoare_fs_op; [done|apply alter_has_tmp|done]. Qed.

Lemma write_step tmp f :
  hoare (has_tmp tmp f) (fs_Write tmp data)
    (fun _ => has_tmp tmp (MkFile (file_data f +:+ data) (file_mode f) (file_owner f) false))
    (fun fs => exists f', has_tmp tmp f' fs).
Proof.
  intros fs Hfs. unfold fs_Write. rewrite SE_bind_unfold. unfold next_outcome.
  pose (grow := fun d g => MkFile (file_data g +:+ d) (file_mode g) (file_owner g) false).
  destruct (fs_script fs) as [|[suffix|n] script]; simpl.
  - exact (alter_has_tmp tmp f (grow data) fs Hfs).
  - exact (alter_has_tmp tmp f (grow data) (MkFS _ _ script) Hfs).
  - exists (grow (take_str n data) f).
    exact (alter_has_tmp tmp f (grow (take_str n data)) (MkFS _ _ script) Hfs).
Qed.

Lemma rename_step tmp f :
  hoare (has_tmp tmp f) (fs_Rename tmp path) (fun _ fs => fs_files fs = <[path := f]> F) (has_tmp tmp f).
Proof.
  apply hoare_fs_op; [done| |done]. intros fs (H1 & H2 & _ & H4). simpl. rewrite H4.
  unfold rename_files. rewrite lookup_insert_eq, delete_insert_id by done. done.
Qed.

Lemma temp_name_ne dir suffix :
  has_byte slash (temp_pattern path +:+ suffix) = false ->
  joinPath dir (temp_pattern path +:+ suffix) <> path /\
  HasPrefix (Base (joinPath dir (temp_pattern path +:+ suffix))) (temp_pattern path) = true.
Proof.
  intros Hns.
  assert (Base (joinPath dir (temp_pattern path +:+ suffix)) = temp_pattern path +:+ suffix) as Hbase.
  { unfold joinPath. destruct (HasSuffix dir "/") eqn:Es.
    - apply HasSuffix_iff in Es as [d ->]. rewrite app_assoc_str. apply Base_last; done.
    - apply Base_last; done. }
  split.
  - intros Heq. rewrite Heq in Hbase. apply (f_equal String.length) in Hbase.
    unfold temp_pattern in Hbase. rewrite !length_app_str in Hbase. simpl in Hbase. lia.
  - rewrite Hbase. apply HasPrefix_app.
Qed.

Lemma create_step dir :
  hoare (fun fs => fs_files fs = F) (fs_CreateTemp dir (temp_pattern path))
    (fun tmp => has_tmp tmp (MkFile "" 384 process_owner false)) (fun fs => fs_files fs = F).
Proof.
  intros fs Hfs. unfold fs_CreateTemp. rewrite SE_bind_unfold. unfold next_outcome.
  assert (forall suffix fs', fs_files fs' = F ->
    let m := if has_byte slash (temp_pattern path +:+ suffix)
             then lift (Err (ErrNew "pattern contains path separator"))
             else if bool_decide (is_Some (fs_files fs' !! joinPath dir (temp_pattern path +:+ suffix)))
             then lift (Err (ErrNew "file exists"))
             else (_ ← modify_state (fs_set_files (<[joinPath dir (temp_pattern path +:+ suffix) :=
                         MkFile "" 384 process_owner false]>));
                   mret (joinPath dir (temp_pattern path +:+ suffix))) in
    match m fs' with
    | (Ok tmp, s') => has_tmp tmp (MkFile "" 384 process_owner false) s'
    | (Err _, s') => fs_files s' = F end) as Hbody.
  { intros suffix fs' Hfs'. simpl. case_goal; [done|]. case_goal; [done|]. bool_simpl. simpl.
    destruct (temp_name_ne dir suffix) as [? ?]; [done|]. split_and!; [|done|done|by rewrite <-Hfs'].
    rewrite <-Hfs'. by apply eq_None_not_Some. }
  destruct (fs_script fs) as [|[suffix|n] script]; [by apply Hbody..|done].
Qed.

Lemma atomicWriteFile_hoare :
  hoare (fun fs => fs_files fs = F) (atomicWriteFileWithFS path data mode owner)
    (fun _ fs => fs_files fs = replaced path data mode owner F /\ head (fs_synced_dirs fs) = Some (Dir path))
    err_state.
Proof.
  assert (forall fs, fs_files fs = F -> err_state fs) as Hinit by (intros fs H; left; left; exact H).
  unfold atomicWriteFileWithFS.
  eapply hoare_bind; [apply hoare_map_err, (hoare_fs_op _ _ _ (fun fs => fs_files fs = F)); done|]. intros [].
  eapply hoare_bind.
  { apply hoare_map_err. eapply hoare_weaken; [apply (create_step (Dir path))|done..]. }
  intros tmp.
  eapply hoare_bind.
  { eapply hoare_or_cleanup; [apply write_step|].
    intros fs [f' Hf']. by apply (cleanup_both tmp f'). }
  intros []. eapply hoare_bind; [eapply hoare_or_cleanup; [apply alter_step|apply cleanup_both]|].
  intros []. eapply hoare_bind; [eapply hoare_or_cleanup; [apply alter_step|apply cleanup_both]|].
  intros []. eapply hoare_bind; [eapply hoare_or_cleanup; [apply alter_step|apply cleanup_both]|].
  intros []. simpl. eapply hoare_bind.
  { eapply hoare_or_cleanup; [|apply cleanup_remove].
    eapply (hoare_fs_op _ _ _ (has_tmp tmp _)); by eauto. }
  intros []. eapply hoare_bind; [eapply hoare_or_cleanup; [apply rename_step|apply cleanup_remove]|].
  intros []. eapply hoare_bind.
  { apply hoare_map_err, (hoare_fs_op _ _ _ (fun fs => fs_files fs = replaced path data mode owner F)); [done|done|].
    intros fs H. by right. }
  intros []. apply hoare_map_err, (hoare_fs_op _ _ (fun fs => fs_files fs = replaced path data mode owner F)
    (fun fs => fs_files fs = replaced path data mode owner F /\ head (fs_synced_dirs fs) = Some (Dir path)));
    [done|done|]. intros fs H. by right.
Qed.
End Atomic.

(** ** When nothing is in the way

    No operation fails and the name [CreateTemp] picks is free: the file is
    replaced. *)

Definition temp_file (path : string) : string := joinPath (Dir path) (temp_pattern path +:+ "0").

Record steady (path : string) (fs : FS) : Prop := {
  steady_script : fs_script fs = [];
  steady_temp : fs_files fs !! temp_file path = None;
  steady_base : has_byte slash (Base path) = false
}.

Lemma steady_pattern path fs : steady path fs -> has_byte slash (temp_pattern path +:+ "0") = false.
Proof.
  intros H. pose proof (steady_base _ _ H) as Hb. unfold temp_pattern. rewrite has_byte_false in *.
  by rewrite !string_forallb_app, Hb.
Qed.

Lemma next_outcome_steady fs : fs_script fs = [] -> next_outcome fs = (Ok (Succeeds "0"), fs).
Proof. intros H. unfold next_outcome. by rewrite H. Qed.

Lemma fs_op_steady what ok fs : fs_script fs = [] -> fs_op what ok fs = (Ok tt, ok fs).
Proof. intros H. unfold fs_op. by rewrite SE_bind_unfold, next_outcome_steady. Qed.

Lemma fs_CreateTemp_steady path fs : steady path fs ->
  fs_CreateTemp (Dir path) (temp_pattern path) fs =
    (Ok (temp_file path), fs_set_files (<[temp_file path := MkFile "" 384 process_owner false]>) fs).
Proof.
  intros H. unfold fs_CreateTemp. rewrite SE_bind_unfold, next_outcome_steady by apply H.
  rewrite SE_bind_unfold. cbn [get_state]. rewrite (steady_pattern _ _ H). fold (temp_file path).
  by rewrite (steady_temp _ _ H), bool_decide_eq_false_2 by by intros [? ?].
Qed.

Lemma fs_Write_steady name data fs : fs_script fs = [] ->
  fs_Write name data fs =
    (Ok tt, alter_file name (fun f => MkFile (file_data f +:+ data) (file_mode f) (file_owner f) false) fs).
Proof. intros H. unfold fs_Write. by rewrite SE_bind_unfold, next_outcome_steady. Qed.

Lemma or_cleanup_steady pre cleanup m fs fs' : m fs = (Ok tt, fs') -> or_cleanup pre cleanup m fs = (Ok tt, fs').
Proof. intros H. unfold or_cleanup. rewrite SE_bind_unfold. unfold attempt. by rewrite H. Qed.

Lemma se_map_wrapped {S A} pre (m : SE S A) s a s' : m s = (Ok a, s') -> se_map (wrap_err pre) m s = (Ok a, s').
Proof. intros H. unfold se_map. by rewrite H. Qed.

Lemma AtomicWriteFile_steady path data mode owner fs : steady path fs ->
  is_Ok (AtomicWriteFile path data mode owner fs).1 = true /\ fs_script (AtomicWriteFile path data mode owner fs).2 = [].
Proof.
  intros H. pose proof (steady_script _ _ H) as Hs. unfold AtomicWriteFile, atomicWriteFileWithFS.
  unfold fs_MkdirAll, fs_Chmod, fs_Chown, fs_Sync, fs_Close, fs_Rename, fs_OpenDir, fs_SyncDir.
  rewrite SE_bind_unfold. erewrite se_map_wrapped by by apply fs_op_steady.
  rewrite SE_bind_unfold. erewrite se_map_wrapped by by apply fs_CreateTemp_steady. cbv zeta.
  rewrite SE_bind_unfold. erewrite or_cleanup_steady by by apply fs_Write_steady.
  do 5 (rewrite SE_bind_unfold; erewrite or_cleanup_steady by by apply fs_op_steady).
  rewrite SE_bind_unfold. erewrite se_map_wrapped by by apply fs_op_steady.
  erewrite se_map_wrapped by by apply fs_op_steady. by split.
Qed.

(** ** Properties *)

(** C12: whatever operation fails, and wherever the process dies, [path] holds
    either its previous content or the complete, fsynced new content; no other
    existing file changes, and success also means the directory was fsynced. *)
Theorem AtomicWriteFile_atomic path data mode owner fs :
  let (r, fs') := AtomicWriteFile path data mode owner fs in
  match r with
  | Ok _ => fs_files fs' = replaced path data mode owner (fs_files fs) /\
            head (fs_synced_dirs fs') = Some (Dir path)
  | Err _ => untouched path (fs_files fs) (fs_files fs') \/
             fs_files fs' = replaced path data mode owner (fs_files fs)
  end.
Proof.
  pose proof (atomicWriteFile_hoare path data mode owner (fs_files fs) fs eq_refl) as H.
  unfold AtomicWriteFile. destruct (atomicWriteFileWithFS path data mode owner fs) as [[[]|e] fs']; exact H.
Qed.

Lemma untouched_lookup path files files' : untouched path files files' -> files' !! path = files !! path.
Proof. intros [->|(tmp & f & _ & Hne & _ & ->)]; [done|]. by rewrite lookup_insert_ne. Qed.

(** The shape clients use: what a reader of [path] can find afterwards. *)
Lemma AtomicWriteFile_reader path data mode owner fs r fs' :
  AtomicWriteFile path data mode owner fs = (r, fs') ->
  (is_Ok r = true -> fs_files fs' !! path = Some (MkFile data mode owner true)) /\
  (fs_files fs' !! path = fs_files fs !! path \/
   fs_files fs' !! path = Some (MkFile data mode owner true)).
Proof.
  intros H. unfold AtomicWriteFile in H.
  pose proof (atomicWriteFile_hoare path data mode owner (fs_files fs) fs eq_refl) as Ha. rewrite H in Ha.
  destruct r as [u|e].
  - destruct Ha as [-> _]. unfold replaced. rewrite lookup_insert_eq. auto.
  - split; [done|]. destruct Ha as [Hu| ->]; [left; by apply untouched_lookup|right].
    unfold replaced. by rewrite lookup_insert_eq.
Qed.
