(* ===== verification/JobRepository.v ===== *)
(** * The job repository ([job_repository.go])

    The repository keeps every job in one JSON file.  Each mutation takes an
    exclusive lock on a lock file, reloads the file, checks the caller's
    revision against what is on disk, writes a complete replacement with
    [AtomicWriteFile] and only then changes the map in memory.  Because the lock
    serialises processes and every mutation reloads first, one operation is one
    function on the pair of the in-memory repository and the file system.

    JSON text is read and written through the interface [JobCodec]; the
    repository is verified against the interface's laws, which [JobJson] proves of
    the JSON the program writes. *)

From S2P Require Import Prelude GoStrings Model AtomicFile.

Definition ErrRevisionConflict : goerror := ErrVar "job revision conflict".
Definition ErrJobNotFound : goerror := ErrVar "job not found".
Definition ErrCorruptJobRepository : goerror := ErrVar "corrupt job repository".

Record jobStore := MkJobStore { store_SchemaVersion : Z; store_Next : Z; store_Jobs : list Job }.
Record legacyJobStore := MkLegacyJobStore { legacy_Next : Z; legacy_Jobs : list Job }.

(** The two numbers are of type [int]. *)
Definition store_range (s : jobStore) : Prop := in_s64 (store_SchemaVersion s) /\ in_s64 (store_Next s).

(** [encoding/json] as the repository uses it.  [encodable] holds of the jobs
    JSON can represent exactly: those whose strings are valid UTF-8. *)
Class JobCodec := {
  header_of : string -> result (option Z);
  store_of : string -> result jobStore;
  legacy_of : string -> result legacyJobStore;
  marshal_store : jobStore -> result string;
  encodable : Job -> Prop;
  header_of_marshal s d :
    store_range s -> Forall encodable (store_Jobs s) -> marshal_store s = Ok d ->
    header_of (d +:+ newline) = Ok (Some (store_SchemaVersion s));
  store_of_marshal s d :
    store_range s -> Forall encodable (store_Jobs s) -> marshal_store s = Ok d -> store_of (d +:+ newline) = Ok s
}.

Record JobRepository := MkJobRepository {
  repo_path : string;
  repo_owner : FileOwner;
  repo_next : Z;
  repo_jobs : gmap Z Job
}.

(** The process's repository, the file system, and the clock's text for backups. *)
Record World := MkWorld { w_repo : JobRepository; w_fs : FS; w_stamp : string }.

Definition set_repo (next : Z) (jobs : gmap Z Job) (w : World) : World :=
  MkWorld (MkJobRepository (repo_path (w_repo w)) (repo_owner (w_repo w)) next jobs) (w_fs w) (w_stamp w).

Definition on_fs {A} (m : SE FS A) : SE World A := fun w =>
  let (r, fs) := m (w_fs w) in (r, MkWorld (w_repo w) fs (w_stamp w)).

Definition get_repo : SE World JobRepository := fun w => (Ok (w_repo w), w).

Definition fs_ReadFile (path : string) : SE FS (option string) :=
  o ← next_outcome;
  match o with
  | Fails _ => lift (Err (ErrNew "read"))
  | Succeeds _ => fs ← get_state; mret (file_data <$> (fs_files fs !! path))
  end.

(** [os.OpenFile(lock, O_CREATE|O_RDWR, 0o600)] *)
Definition fs_OpenLock (path : string) : SE FS unit :=
  fs_op "open" (fs_set_files (fun files =>
    match files !! path with Some _ => files | None => <[path := MkFile "" 384 process_owner false]> files end)).
Definition fs_Flock (path : string) : SE FS unit := fs_op "flock" (fun fs => fs).

Definition lock_path (path : string) : string := path +:+ ".lock".

Definition withExclusiveFileLock {A} (fn : SE World A) : SE World A :=
  w ← get_state;
  let lockPath := lock_path (repo_path (w_repo w)) in
  _ ← se_map (wrap_err "create repository lock directory: ") (on_fs (fs_MkdirAll (Dir lockPath)));
  _ ← se_map (wrap_err "open repository lock: ") (on_fs (fs_OpenLock lockPath));
  _ ← se_map (wrap_err "lock repository: ") (on_fs (fs_Flock lockPath));
  fn.

Definition corrupt (detail : string) : goerror := ErrWrap "" ErrCorruptJobRepository (": " +:+ detail).

(** The loop of [replaceLocked]: on an error the jobs read so far stay in the map. *)
Fixpoint replace_loop (next : Z) (acc : gmap Z Job) (jobs : list Job) : result unit * (Z * gmap Z Job) :=
  match jobs with
  | [] => (Ok tt, (next, acc))
  | job :: jobs =>
      if (Job_ID job <? 1)%Z || negb (Job_SchemaVersion job =? 2)%Z
      then (Err (corrupt "invalid job"), (next, acc))
      else if bool_decide (is_Some (acc !! Job_ID job))
      then (Err (corrupt ("duplicate job id " +:+ Itoa (Job_ID job))), (next, acc))
      else
        let next := if (next <=? Job_ID job)%Z then wrap_s64 (Job_ID job + 1) else next in
        replace_loop next (<[Job_ID job := cloneJob job]> acc) jobs
  end.

Definition replaceLocked (next : Z) (jobs : list Job) : SE World unit := fun w =>
  if (next <? 1)%Z then (Err (corrupt "invalid next id"), w)
  else let (r, st) := replace_loop next ∅ jobs in (r, set_repo st.1 st.2 w).

(** [sort.Slice] by ID; the keys of the map are the IDs, so the order is unique. *)
Definition job_le (a b : Job) : Prop := (Job_ID a <= Job_ID b)%Z.
#[export] Instance job_le_dec : RelDecision job_le := fun a b => Z_le_dec _ _.
Definition sorted_jobs (jobs : gmap Z Job) : list Job :=
  merge_sort job_le (map (fun kv => cloneJob kv.2) (map_to_list jobs)).

Definition migrate_job (job : Job) : Job :=
  let job := Job_set_SchemaVersion 2 job in
  let job := Job_set_Revision 1 job in
  let job := Job_set_Enabled (negb (Job_Disabled job)) job in
  let job := Job_set_Action (MkAction ActionSync "" [] ""
    (MkSyncAction (Job_Engine job) (Job_Source job) (Job_Dest job) (Job_Mode job) (Job_Compare job)
       (Job_Bwlimit job) (Job_Backup job) (Job_BackupKeep job) (Job_MaxDel job) (Job_SkipNew job)
       (Job_SysBackup job) (Job_Exclude job))) job in
  let job := if string_eqb (Job_Kind job) "command"
             then Job_set_Action (MkAction ActionCommand "" [] (Job_Command job) zeroSyncAction) job else job in
  let job := Job_set_Scheduler (MkSchedulerPolicy SchedulerSyncBridge) job in
  let job := Job_set_NeedsReview true job in
  if string_eqb (Job_Backend job) "system" then Job_set_Scheduler (MkSchedulerPolicy SchedulerSystem) job else job.

Section Repository.
Context {codec : JobCodec}.

Definition persistCandidateLocked (next : Z) (jobs : gmap Z Job) : SE World unit :=
  w ← get_state;
  data ← lift (wrap_err "marshal job repository: " (marshal_store (MkJobStore 2 next (sorted_jobs jobs))));
  se_map (wrap_err "persist job repository: ")
    (on_fs (AtomicWriteFile (repo_path (w_repo w)) (data +:+ newline) 384 (repo_owner (w_repo w)))).

Definition migrateLegacyLocked (data : string) : SE World unit :=
  match legacy_of data with
  | Err e => lift (Err (corrupt ("invalid legacy JSON: " +:+ error_text e)))
  | Ok legacy =>
      if (legacy_Next legacy <? 1)%Z then lift (Err (corrupt "invalid legacy next id"))
      else
        _ ← replaceLocked (legacy_Next legacy) (map migrate_job (legacy_Jobs legacy));
        w ← get_state;
        _ ← se_map (wrap_err "write v1 migration backup: ")
              (on_fs (AtomicWriteFile (repo_path (w_repo w) +:+ ".v1." +:+ w_stamp w +:+ ".bak") data 384
                        (repo_owner (w_repo w))));
        persistCandidateLocked (repo_next (w_repo w)) (repo_jobs (w_repo w))
  end.

Definition loadLocked : SE World unit :=
  w ← get_state;
  content ← se_map (wrap_err "read job repository: ") (on_fs (fs_ReadFile (repo_path (w_repo w))));
  match content with
  | None => modify_state (set_repo 1 ∅)
  | Some data =>
      if string_eqb data "" then lift (Err (corrupt "empty file"))
      else match header_of data with
      | Err e => lift (Err (corrupt ("invalid JSON: " +:+ error_text e)))
      | Ok None => migrateLegacyLocked data
      | Ok (Some v) =>
          if negb (v =? 2)%Z then lift (Err (corrupt ("unsupported schema version " +:+ Itoa v)))
          else match store_of data with
          | Err e => lift (Err (corrupt ("invalid v2 JSON: " +:+ error_text e)))
          | Ok store => replaceLocked (store_Next store) (store_Jobs store)
          end
      end
  end.

Definition OpenJobRepository (path : string) (owner : FileOwner) (fs : FS) (stamp : string) :
    result JobRepository * FS :=
  let w := MkWorld (MkJobRepository path owner 1 ∅) fs stamp in
  let (r, w) := withExclusiveFileLock loadLocked w in
  (match r with Ok _ => Ok (w_repo w) | Err e => Err e end, w_fs w).

Definition List_ (r : JobRepository) : list Job := sorted_jobs (repo_jobs r).

(** [Get] returns the zero job beside [false]; only the pair with [true] is used. *)
Definition Get (r : JobRepository) (id : Z) : option Job := cloneJob <$> (repo_jobs r !! id).

Definition withJob (jobs : gmap Z Job) (job : Job) : gmap Z Job := <[Job_ID job := job]> jobs.

Definition stamp_job (id revision : Z) (job : Job) : Job :=
  Job_set_Revision revision (Job_set_ID id (Job_set_SchemaVersion 2 (cloneJob job))).

Definition Create (job : Job) : SE World Job :=
  withExclusiveFileLock (
    _ ← loadLocked;
    r ← get_repo;
    let created := stamp_job (repo_next r) 1 job in
    let next := wrap_s64 (repo_next r + 1) in
    _ ← persistCandidateLocked next (withJob (repo_jobs r) created);
    _ ← modify_state (set_repo next (withJob (repo_jobs r) created));
    mret (cloneJob created)).

Definition Update (id revision : Z) (job : Job) : SE World Job :=
  withExclusiveFileLock (
    _ ← loadLocked;
    r ← get_repo;
    match repo_jobs r !! id with
    | None => lift (Err ErrJobNotFound)
    | Some current =>
        if negb (Job_Revision current =? revision)%Z then lift (Err ErrRevisionConflict)
        else
          let updated := stamp_job id (wrap_u64 (Job_Revision current + 1)) job in
          _ ← persistCandidateLocked (repo_next r) (withJob (repo_jobs r) updated);
          _ ← modify_state (set_repo (repo_next r) (<[id := updated]> (repo_jobs r)));
          mret (cloneJob updated)
    end).

Definition Delete (id revision : Z) : SE World unit :=
  withExclusiveFileLock (
    _ ← loadLocked;
    r ← get_repo;
    match repo_jobs r !! id with
    | None => lift (Err ErrJobNotFound)
    | Some current =>
        if negb (Job_Revision current =? revision)%Z then lift (Err ErrRevisionConflict)
        else
          _ ← persistCandidateLocked (repo_next r) (delete id (repo_jobs r));
          modify_state (set_repo (repo_next r) (delete id (repo_jobs r)))
    end).
End Repository.

(** ** Abstract specification

    What the file means, and what each operation does to that meaning. *)

Definition repo_view : Type := (Z * gmap Z Job)%type.

Section Spec.
Context {codec : JobCodec}.

Definition decode_content (content : option string) : result repo_view :=
  match content with
  | None => Ok (1%Z, ∅)
  | Some data =>
      if string_eqb data "" then Err (corrupt "empty file")
      else match header_of data, store_of data with
      | Ok (Some 2%Z), Ok store =>
          if (store_Next store <? 1)%Z then Err (corrupt "invalid next id")
          else match replace_loop (store_Next store) ∅ (store_Jobs store) with
               | (Ok _, st) => Ok st
               | (Err e, _) => Err e
               end
      | _, _ => Err (corrupt "not a v2 store")
      end
  end.

Definition decode_disk (path : string) (fs : FS) : result repo_view :=
  decode_content (file_data <$> (fs_files fs !! path)).

(** The invariant of a view: IDs are positive, below [next], and are the keys. *)
Definition job_fits (next id : Z) (job : Job) : Prop :=
  Job_ID job = id /\ (1 <= id < next)%Z /\ Job_SchemaVersion job = 2%Z /\ encodable job.
Definition view_ok (st : repo_view) : Prop :=
  (1 <= st.1 < two63)%Z /\ map_Forall (job_fits st.1) st.2.

Definition disk_holds (path : string) (st : repo_view) (w : World) : Prop :=
  repo_path (w_repo w) = path /\ decode_disk path (w_fs w) = Ok st.
Definition memory_holds (st : repo_view) (w : World) : Prop :=
  (repo_next (w_repo w), repo_jobs (w_repo w)) = st.

Inductive repo_op :=
  | OpCreate (job : Job)
  | OpUpdate (id revision : Z) (job : Job)
  | OpDelete (id revision : Z).

Definition spec_step (op : repo_op) (st : repo_view) : result repo_view :=
  let (next, jobs) := st in
  match op with
  | OpCreate job => Ok ((next + 1)%Z, <[next := stamp_job next 1 job]> jobs)
  | OpUpdate id revision job =>
      match jobs !! id with
      | None => Err ErrJobNotFound
      | Some current =>
          if (Job_Revision current =? revision)%Z
          then Ok (next, <[id := stamp_job id (wrap_u64 (revision + 1)) job]> jobs)
          else Err ErrRevisionConflict
      end
  | OpDelete id revision =>
      match jobs !! id with
      | None => Err ErrJobNotFound
      | Some current =>
          if (Job_Revision current =? revision)%Z then Ok (next, delete id jobs) else Err ErrRevisionConflict
      end
  end.

Definition run_repo_op (op : repo_op) : SE World unit :=
  match op with
  | OpCreate job => _ ← Create job; mret tt
  | OpUpdate id revision job => _ ← Update id revision job; mret tt
  | OpDelete id revision => Delete id revision
  end.

(** The caller's job can be stored under the identity it gets, and IDs remain. *)
Definition op_fits (op : repo_op) (st : repo_view) : Prop :=
  match op with
  | OpCreate job => encodable (stamp_job st.1 1 job) /\ (st.1 + 1 < two63)%Z
  | OpUpdate id revision job => encodable (stamp_job id (wrap_u64 (revision + 1)) job)
  | OpDelete _ _ => True
  end.

(** ** Loading what was stored *)

Lemma sorted_jobs_perm jobs : sorted_jobs jobs ≡ₚ (map_to_list jobs).*2.
Proof.
  unfold sorted_jobs. rewrite merge_sort_Permutation.
  replace (map (fun kv : Z * Job => cloneJob kv.2) (map_to_list jobs)) with ((map_to_list jobs).*2); [done|].
  apply list_fmap_ext. intros ? [k j] _. simpl. by rewrite cloneJob_id.
Qed.

Definition keyed (job : Job) : Z * Job := (Job_ID job, job).

Lemma replace_loop_stored next jobs : forall acc,
  Forall (fun job => (1 <= Job_ID job < next)%Z /\ Job_SchemaVersion job = 2%Z) jobs ->
  NoDup (Job_ID <$> jobs) -> (forall job, job ∈ jobs -> acc !! Job_ID job = None) ->
  exists st, replace_loop next acc jobs = (Ok tt, (next, st)) /\
    forall id, st !! id = match (list_to_map (keyed <$> jobs) : gmap Z Job) !! id with Some j => Some j | None => acc !! id end.
Proof.
  induction jobs as [|job jobs IH]; intros acc Hf Hnd Hacc.
  { exists acc. split; [done|]. intros id. simpl. by rewrite lookup_empty. }
  apply Forall_cons in Hf as [[Hid Hv] Hf]. rewrite fmap_cons in Hnd. apply NoDup_cons in Hnd as [Hni Hnd].
  simpl. rewrite Hv.
  assert ((Job_ID job <? 1)%Z || negb (2 =? 2)%Z = false) as -> by (apply orb_false_iff; split; [lia|done]).
  rewrite bool_decide_eq_false_2; [|rewrite Hacc by (by left); by intros [? ?]].
  assert (next <=? Job_ID job = false)%Z as -> by lia. rewrite cloneJob_id.
  destruct (IH (<[Job_ID job := job]> acc)) as (st & -> & Hst); [done|done| |].
  { intros j Hj. rewrite lookup_insert_ne; [apply Hacc; by right|].
    intros Heq. apply Hni. rewrite Heq. by apply list_elem_of_fmap_2. }
  exists st. split; [done|]. intros id. rewrite Hst. simpl.
  destruct (decide (id = Job_ID job)) as [->|Hne].
  - rewrite !lookup_insert_eq.
    assert ((list_to_map (keyed <$> jobs) : gmap Z Job) !! Job_ID job = None) as ->; [|done].
    apply not_elem_of_list_to_map_1. rewrite <-list_fmap_compose. exact Hni.
  - by rewrite !lookup_insert_ne.
Qed.

Lemma view_ok_sorted st :
  view_ok st ->
  Forall (fun job => (1 <= Job_ID job < st.1)%Z /\ Job_SchemaVersion job = 2%Z) (sorted_jobs st.2) /\
  Forall encodable (sorted_jobs st.2) /\
  keyed <$> sorted_jobs st.2 ≡ₚ map_to_list st.2.
Proof.
  intros [_ Hm]. rewrite sorted_jobs_perm.
  assert (Forall (fun kv => job_fits st.1 kv.1 kv.2) (map_to_list st.2)) as Hf.
  { apply map_Forall_to_list in Hm. eapply Forall_impl; [exact Hm|]. by intros [? ?]. }
  split_and!.
  - apply Forall_fmap. eapply Forall_impl; [exact Hf|]. intros [k j] (Hk & Hr & Hv & _). simpl in *. by rewrite Hk.
  - apply Forall_fmap. eapply Forall_impl; [exact Hf|]. by intros [k j] (_ & _ & _ & He).
  - rewrite <-list_fmap_compose.
    assert ((keyed ∘ snd) <$> map_to_list st.2 = map_to_list st.2) as ->; [|done].
    transitivity (id <$> map_to_list st.2); [|apply list_fmap_id].
    apply list_fmap_ext. intros i [k j] Hi. apply list_elem_of_lookup_2 in Hi.
    rewrite Forall_forall in Hf. destruct (Hf _ Hi) as (Hk & _). unfold keyed. simpl in *. by rewrite Hk.
Qed.

(** Reading back what [persistCandidateLocked] writes gives the same view. *)
Lemma decode_marshal st d :
  view_ok st -> marshal_store (MkJobStore 2 st.1 (sorted_jobs st.2)) = Ok d ->
  decode_content (Some (d +:+ newline)) = Ok st.
Proof.
  intros Hok Hd. destruct (view_ok_sorted st Hok) as (Hf & He & Hp).
  unfold decode_content. rewrite (proj2 (string_eqb_false _ _)); [|by intros [_ ?]%app_nil_str].
  assert (store_range (MkJobStore 2 st.1 (sorted_jobs st.2))) as Hr.
  { destruct Hok as [Hn _]. split; [done|]. unfold in_s64, two63 in *. cbn. lia. }
  rewrite (header_of_marshal (MkJobStore 2 _ _) d Hr He Hd), (store_of_marshal (MkJobStore 2 _ _) d Hr He Hd). cbn [store_SchemaVersion store_Next store_Jobs].
  assert (st.1 <? 1 = false)%Z as -> by (destruct Hok; lia).
  destruct (replace_loop_stored st.1 (sorted_jobs st.2) ∅) as (m & -> & Hm); [done| |done|].
  { change (Job_ID <$> sorted_jobs st.2) with ((fst ∘ keyed) <$> sorted_jobs st.2).
    rewrite list_fmap_compose, Hp. apply NoDup_fst_map_to_list. }
  f_equal. destruct st as [n jobs]. f_equal. apply map_eq. intros id. rewrite Hm, lookup_empty. simpl in *.
  rewrite (list_to_map_proper _ (map_to_list jobs)); [|..|exact Hp].
  - rewrite list_to_map_to_list. by destruct (jobs !! id).
  - rewrite Hp. apply NoDup_fst_map_to_list.
Qed.

(** ** The operations against the specification *)

Lemma hoare_on_fs {A} (R : JobRepository) (P : FS -> Prop) (m : SE FS A) Q E :
  hoare P m Q E ->
  hoare (fun w => w_repo w = R /\ P (w_fs w)) (on_fs m)
    (fun a w => w_repo w = R /\ Q a (w_fs w)) (fun w => w_repo w = R /\ E (w_fs w)).
Proof.
  intros Hm w [HR HP]. specialize (Hm _ HP). unfold on_fs.
  by destruct (m (w_fs w)) as [[a|e] fs].
Qed.

Lemma lock_path_ne path : lock_path path <> path.
Proof.
  unfold lock_path. intros Heq. apply (f_equal String.length) in Heq.
  rewrite length_app_str in Heq. simpl in Heq. lia.
Qed.

(** A file operation that leaves the repository's file alone. *)
Lemma hoare_fs_quiet path st what ok pre :
  (forall fs, fs_files (ok fs) !! path = fs_files fs !! path) ->
  hoare (disk_holds path st) (se_map (wrap_err pre) (on_fs (fs_op what ok)))
    (fun _ => disk_holds path st) (disk_holds path st).
Proof.
  intros Hok w [Hp Hd]. unfold se_map, on_fs.
  pose proof (hoare_fs_op what ok (fun fs => decode_disk path fs = Ok st) (fun fs => decode_disk path fs = Ok st)
    (fun fs => decode_disk path fs = Ok st)) as Hop.
  specialize (Hop ltac:(done)). unfold decode_disk in Hop.
  specialize (Hop ltac:(by intros fs; rewrite Hok) ltac:(done) _ Hd).
  by destruct (fs_op what ok (w_fs w)) as [[a|e] fs].
Qed.

Lemma hoare_lock {A} path st (fn : SE World A) Q E :
  hoare (disk_holds path st) fn Q E -> (forall w, disk_holds path st w -> E w) ->
  hoare (disk_holds path st) (withExclusiveFileLock fn) Q E.
Proof.
  intros Hfn HE w Hw. assert (repo_path (w_repo w) = path) as Hpath by apply Hw.
  unfold withExclusiveFileLock. rewrite SE_bind_unfold. cbn [get_state]. rewrite Hpath.
  revert w Hw Hpath. intros w Hw _.
  assert (hoare (disk_holds path st)
    (_ ← se_map (wrap_err "create repository lock directory: ") (on_fs (fs_MkdirAll (Dir (lock_path path))));
     _ ← se_map (wrap_err "open repository lock: ") (on_fs (fs_OpenLock (lock_path path)));
     _ ← se_map (wrap_err "lock repository: ") (on_fs (fs_Flock (lock_path path))); fn) Q E) as Hall; [|by apply Hall].
  apply (hoare_seq _ _ (disk_holds path st)).
  { eapply hoare_weaken; [by apply (hoare_fs_quiet path st)|done|done|exact HE]. }
  apply (hoare_seq _ _ (disk_holds path st)).
  { eapply hoare_weaken; [apply (hoare_fs_quiet path st)|done|done|exact HE].
    intros fs. simpl. case_match; [done|]. apply lookup_insert_ne, lock_path_ne. }
  apply (hoare_seq _ _ (disk_holds path st)); [|exact Hfn].
  eapply hoare_weaken; [by apply (hoare_fs_quiet path st)|done|done|exact HE].
Qed.

Lemma decode_load content st data :
  content = Some data -> decode_content content = Ok st ->
  string_eqb data "" = false /\ header_of data = Ok (Some 2%Z) /\
  exists store, store_of data = Ok store /\ (store_Next store <? 1 = false)%Z /\
    replace_loop (store_Next store) ∅ (store_Jobs store) = (Ok tt, st).
Proof.
  intros ->. unfold decode_content. destruct (string_eqb data ""); [done|].
  destruct (header_of data) as [[v|]|]; [|done..]. destruct (decide (v = 2%Z)) as [->|Hv].
  - destruct (store_of data) as [store|]; [|done]. case_goal; [done|].
    destruct (replace_loop _ _ _) as [[[]|] st'] eqn:E; [|done]. intros [= ->].
    split_and!; [done..|]. by exists store.
  - destruct v as [|p|p]; [done| |done]. by destruct p as [p|[p|p|]|].
Qed.

Lemma hoare_load path st :
  hoare (disk_holds path st) loadLocked
    (fun _ w => disk_holds path st w /\ memory_holds st w) (disk_holds path st).
Proof.
  intros w [Hp Hd]. unfold loadLocked. rewrite SE_bind_unfold. cbn [get_state]. rewrite Hp.
  unfold fs_ReadFile, se_map, on_fs. rewrite !SE_bind_unfold. unfold next_outcome.
  assert (forall fs, fs_files fs = fs_files (w_fs w) ->
    match (match file_data <$> (fs_files fs !! path) with
      | None => modify_state (set_repo 1 ∅)
      | Some data =>
        if string_eqb data "" then lift (Err (corrupt "empty file"))
        else match header_of data with
        | Err e => lift (Err (corrupt ("invalid JSON: " +:+ error_text e)))
        | Ok None => migrateLegacyLocked data
        | Ok (Some v) =>
            if negb (v =? 2)%Z then lift (Err (corrupt ("unsupported schema version " +:+ Itoa v)))
            else match store_of data with
            | Err e => lift (Err (corrupt ("invalid v2 JSON: " +:+ error_text e)))
            | Ok store => replaceLocked (store_Next store) (store_Jobs store)
            end
        end
      end : SE World unit) (MkWorld (w_repo w) fs (w_stamp w)) with
    | (Ok _, s') => disk_holds path st s' /\ memory_holds st s'
    | (Err _, s') => disk_holds path st s' end) as Hbody.
  { intros fs Hfs. unfold decode_disk in Hd. rewrite <-Hfs in Hd.
    destruct (file_data <$> (fs_files fs !! path)) as [data|] eqn:Ef.
    - destruct (decode_load _ _ _ eq_refl Hd) as (-> & -> & store & -> & Hn & Hr).
      cbn [negb Z.eqb Pos.eqb]. unfold replaceLocked. rewrite Hn, Hr. simpl.
      split; [|by destruct st]. split; [done|]. unfold decode_disk. simpl. by rewrite Ef.
    - simpl in Hd. injection Hd as <-. simpl. split; [|done]. split; [done|].
      unfold decode_disk. simpl. by rewrite Ef. }
  destruct (fs_script (w_fs w)) as [|[suffix|n] script]; simpl; [by apply Hbody| |by split].
  by apply (Hbody (MkFS _ _ script)).
Qed.

Lemma hoare_persist path st0 st mem :
  view_ok st ->
  hoare (fun w => disk_holds path st0 w /\ memory_holds mem w) (persistCandidateLocked st.1 st.2)
    (fun _ w => disk_holds path st w /\ memory_holds mem w)
    (fun w => disk_holds path st0 w \/ disk_holds path st w).
Proof.
  intros Hok w [[Hp Hd] Hm]. unfold persistCandidateLocked. rewrite SE_bind_unfold. cbn [get_state].
  rewrite SE_bind_unfold. unfold lift.
  destruct (marshal_store (MkJobStore 2 st.1 (sorted_jobs st.2))) as [d|e] eqn:Em; [|by left].
  cbn [wrap_err]. unfold se_map, on_fs. rewrite Hp.
  destruct (AtomicWriteFile path (d +:+ newline) 384 (repo_owner (w_repo w)) (w_fs w)) as [r fs'] eqn:Ea.
  apply AtomicWriteFile_reader in Ea as [Hok' Hread].
  assert (forall f, fs_files fs' !! path = Some f -> file_data f = d +:+ newline -> decode_disk path fs' = Ok st)
    as Hnew. { intros f Hf Hfd. unfold decode_disk. rewrite Hf. simpl. rewrite Hfd. by apply decode_marshal. }
  destruct r as [[]|e]; simpl.
  - split; [|done]. split; [done|]. by eapply Hnew; [apply Hok'|].
  - destruct Hread as [Hr|Hr]; [left; split; [done|]|right; split; [done|by eapply Hnew]].
    unfold decode_disk. simpl. rewrite Hr. exact Hd.
Qed.

Lemma stamp_job_fits next id rev job :
  (1 <= id < next)%Z -> encodable (stamp_job id rev job) -> job_fits next id (stamp_job id rev job).
Proof. intros Hid He. unfold job_fits. split_and!; (done || lia). Qed.

Lemma job_fits_mono n n' id job : (n <= n')%Z -> job_fits n id job -> job_fits n' id job.
Proof. intros Hn (? & ? & ? & ?). unfold job_fits. split_and!; (done || lia). Qed.

(** The specification preserves the invariant. *)
Lemma spec_step_ok op st st' : view_ok st -> op_fits op st -> spec_step op st = Ok st' -> view_ok st'.
Proof.
  intros [Hn Hm] Hfit. destruct st as [next jobs], op as [job|id rev job|id rev]; simpl in *.
  - intros [= <-]. destruct Hfit as [He Hlt]. split; simpl; [lia|].
    apply map_Forall_insert_2; [apply stamp_job_fits; [lia|done]|].
    eapply map_Forall_impl; [exact Hm|]. intros k j. apply job_fits_mono. lia.
  - destruct (jobs !! id) as [cur|] eqn:E; [|done]. case_goal; [|done]. intros [= <-].
    split; [done|]. destruct (map_Forall_lookup_1 _ _ _ _ Hm E) as (_ & Hr & _).
    apply map_Forall_insert_2; [by apply stamp_job_fits|done].
  - destruct (jobs !! id) as [cur|] eqn:E; [|done]. case_goal; [|done]. intros [= <-].
    split; [done|]. by apply map_Forall_delete.
Qed.

(** The common body of the mutations: persist the new view, then adopt it. *)
Lemma hoare_commit {A} path st st' (a : A) :
  view_ok st' ->
  hoare (fun w => disk_holds path st w /\ memory_holds st w)
    (_ ← persistCandidateLocked st'.1 st'.2; _ ← modify_state (set_repo st'.1 st'.2); mret a)
    (fun r w => r = a /\ disk_holds path st' w /\ memory_holds st' w)
    (fun w => disk_holds path st w \/ disk_holds path st' w).
Proof.
  intros Hok. eapply hoare_bind; [by apply hoare_persist|].
  intros [] w [Hd _]. simpl. split; [done|]. split; [exact Hd|by destruct st'].
Qed.

Definition outcome_ok (path : string) (st : repo_view) (spec : result repo_view) (r : result unit) (w : World) : Prop :=
  match spec, r with
  | Ok st', Ok _ => disk_holds path st' w /\ memory_holds st' w
  | Ok st', Err _ => disk_holds path st w \/ disk_holds path st' w
  | Err _, Ok _ => False
  | Err _, Err _ => disk_holds path st w
  end.

(** [hoare] in the form used to conclude: a run and its two outcomes. *)
Definition meets (path : string) (st : repo_view) (spec : result repo_view) (m : SE World unit) : Prop :=
  forall w, disk_holds path st w -> let (r, w') := m w in outcome_ok path st spec r w'.

Lemma hoare_meets_ok path st st' (m : SE World unit) :
  hoare (disk_holds path st) m (fun _ w => disk_holds path st' w /\ memory_holds st' w)
    (fun w => disk_holds path st w \/ disk_holds path st' w) ->
  meets path st (Ok st') m.
Proof. intros H w Hw. specialize (H w Hw). by destruct (m w) as [[]]. Qed.

Lemma hoare_meets_err path st e (m : SE World unit) :
  hoare (disk_holds path st) m (fun _ _ => False) (disk_holds path st) -> meets path st (Err e) m.
Proof. intros H w Hw. specialize (H w Hw). by destruct (m w) as [[]]. Qed.

(** What follows a successful load, given what it loaded. *)
Lemma hoare_after_load {A} path st (k : JobRepository -> SE World A) Q E :
  (forall r, repo_next r = st.1 -> repo_jobs r = st.2 ->
     hoare (fun w => disk_holds path st w /\ memory_holds st w) (k r) Q E) ->
  (forall w, disk_holds path st w -> E w) ->
  hoare (disk_holds path st) (withExclusiveFileLock (_ ← loadLocked; r ← get_repo; k r)) Q E.
Proof.
  intros Hk HE. apply hoare_lock; [|exact HE].
  eapply hoare_seq; [eapply hoare_weaken; [apply hoare_load|done..|exact HE]|].
  intros w [Hd Hm]. rewrite SE_bind_unfold. cbn [get_repo].
  pose proof Hm as Hm'. unfold memory_holds in Hm'. destruct st as [n m]. injection Hm' as Hn Hj.
  by apply (Hk (w_repo w)).
Qed.

Lemma run_repo_op_meets op path st :
  view_ok st -> op_fits op st -> meets path st (spec_step op st) (run_repo_op op).
Proof.
  intros Hok Hfit. pose proof (spec_step_ok op st) as Hspec. destruct st as [next jobs].
  assert (forall job (m : SE World Job) Q E,
    hoare (disk_holds path (next, jobs)) m (fun r w => r = job /\ Q w) E ->
    hoare (disk_holds path (next, jobs)) (_ ← m; mret tt) (fun _ => Q) E) as Hret.
  { intros job m Q E Hm. eapply hoare_bind; [exact Hm|]. intros a. apply hoare_ret. by intros s [_ ?]. }
  destruct op as [job|id rev job|id rev]; simpl in *.
  - apply hoare_meets_ok. eapply (Hret (stamp_job next 1 job)). unfold Create. apply (hoare_after_load path (next, jobs)); [|by left].
    intros r Hn Hj. simpl in *. rewrite Hn, Hj, cloneJob_id, wrap_s64_id by (destruct Hok; unfold in_s64, two63 in *; simpl in *; lia).
    exact (hoare_commit path (next, jobs) ((next + 1)%Z, withJob jobs (stamp_job next 1 job)) _ ltac:(by apply Hspec)).
  - destruct (jobs !! id) as [cur|] eqn:Eid; [destruct (Job_Revision cur =? rev)%Z eqn:Er|].
    + apply hoare_meets_ok. eapply (Hret (stamp_job id (wrap_u64 (rev + 1)) job)). unfold Update.
      apply (hoare_after_load path (next, jobs)); [|by left]. intros r Hn Hj. simpl in *. rewrite Hn, Hj, Eid, Er.
      apply Z.eqb_eq in Er. rewrite Er, cloneJob_id.
      exact (hoare_commit path (next, jobs) (next, <[id := stamp_job id (wrap_u64 (rev + 1)) job]> jobs) _
        ltac:(by apply Hspec)).
    + apply hoare_meets_err. apply (hoare_seq _ _ (fun _ => False)); [|by intros ? []]. unfold Update.
      apply (hoare_after_load path (next, jobs)); [|done]. intros r Hn Hj. simpl in *. rewrite Hj, Eid, Er.
      apply hoare_err. by intros ? [? _].
    + apply hoare_meets_err. apply (hoare_seq _ _ (fun _ => False)); [|by intros ? []]. unfold Update.
      apply (hoare_after_load path (next, jobs)); [|done]. intros r Hn Hj. simpl in *. rewrite Hj, Eid.
      apply hoare_err. by intros ? [? _].
  - destruct (jobs !! id) as [cur|] eqn:Eid; [destruct (Job_Revision cur =? rev)%Z eqn:Er|]; unfold Delete.
    + apply hoare_meets_ok. apply (hoare_after_load path (next, jobs)); [|by left].
      intros r Hn Hj. simpl in *. rewrite Hn, Hj, Eid, Er.
      apply (hoare_seq _ _ (fun w => disk_holds path (next, delete id jobs) w /\ memory_holds (next, jobs) w)).
      { exact (hoare_persist path (next, jobs) (next, delete id jobs) (next, jobs) ltac:(by apply Hspec)). }
      by intros w [Hd _].
    + apply hoare_meets_err, (hoare_after_load path (next, jobs)); [|done]. intros r Hn Hj. simpl in *.
      rewrite Hj, Eid, Er. apply hoare_err. by intros ? [? _].
    + apply hoare_meets_err, (hoare_after_load path (next, jobs)); [|done]. intros r Hn Hj. simpl in *.
      rewrite Hj, Eid. apply hoare_err. by intros ? [? _].
Qed.

(** ** When nothing is in the way *)

Lemma last_inj a b c d : a +:+ str1 c = b +:+ str1 d -> c = d.
Proof.
  revert b. induction a as [|x a IH]; intros [|y b] H; cbn in H; simplify_eq; try done; [by destruct b|by destruct a|].
  by eapply IH.
Qed.

Lemma temp_file_last path : exists name, temp_file path = name +:+ str1 "0".
Proof.
  unfold temp_file, joinPath. case_goal; [exists (Dir path +:+ temp_pattern path)|exists (Dir path +:+ "/" +:+ temp_pattern path)];
    by rewrite !app_assoc_str.
Qed.

Lemma temp_file_lock path path' : temp_file path <> lock_path path'.
Proof.
  destruct (temp_file_last path) as [name ->]. unfold lock_path. change ".lock" with (".loc" +:+ str1 "k").
  rewrite <-app_assoc_str. by intros ?%last_inj.
Qed.

(** Nothing is in the way of storing [st]: no file operation fails, and the view
    can be encoded. *)
Definition undisturbed (path : string) (st : repo_view) (w : World) : Prop :=
  steady path (w_fs w) /\ is_Ok (marshal_store (MkJobStore 2 st.1 (sorted_jobs st.2))) = true.

Lemma on_fs_Ok {A} (m : SE FS A) w a fs : m (w_fs w) = (Ok a, fs) -> on_fs m w = (Ok a, MkWorld (w_repo w) fs (w_stamp w)).
Proof. intros H. unfold on_fs. by rewrite H. Qed.

Lemma fs_ReadFile_steady path fs : fs_script fs = [] ->
  fs_ReadFile path fs = (Ok (file_data <$> (fs_files fs !! path)), fs).
Proof. intros H. unfold fs_ReadFile. by rewrite SE_bind_unfold, next_outcome_steady. Qed.

Lemma loadLocked_steady path st w : disk_holds path st w -> fs_script (w_fs w) = [] ->
  loadLocked w = (Ok tt, set_repo st.1 st.2 w).
Proof.
  intros [Hp Hd] Hs. unfold loadLocked. rewrite SE_bind_unfold. cbn [get_state]. rewrite Hp, SE_bind_unfold.
  erewrite se_map_wrapped by by apply on_fs_Ok, fs_ReadFile_steady. unfold decode_disk in Hd.
  destruct (file_data <$> (fs_files (w_fs w) !! path)) as [data|] eqn:Ef.
  - destruct (decode_load _ _ _ eq_refl Hd) as (-> & -> & store & -> & Hn & Hr).
    cbn [negb Z.eqb Pos.eqb]. unfold replaceLocked. rewrite Hn, Hr. by destruct w.
  - cbn in Hd. injection Hd as <-. by destruct w.
Qed.

Lemma lock_steady {A} path (fn : SE World A) w : repo_path (w_repo w) = path -> steady path (w_fs w) ->
  exists w1, withExclusiveFileLock fn w = fn w1 /\ steady path (w_fs w1) /\ w_repo w1 = w_repo w /\
    fs_files (w_fs w1) !! path = fs_files (w_fs w) !! path.
Proof.
  intros Hp H. pose proof (steady_script _ _ H) as Hs. unfold withExclusiveFileLock. rewrite SE_bind_unfold.
  cbn [get_state]. rewrite Hp. unfold fs_MkdirAll, fs_OpenLock, fs_Flock.
  do 3 (rewrite SE_bind_unfold; erewrite se_map_wrapped by by apply on_fs_Ok, fs_op_steady).
  eexists. split; [reflexivity|]. destruct H as [_ Ht Hb]. cbn. split_and!; [split; [done| |done]|done|].
  - cbn. case_match; [done|]. rewrite lookup_insert_ne; [done|]. apply not_eq_sym, temp_file_lock.
  - case_match; [done|]. apply lookup_insert_ne, lock_path_ne.
Qed.

Lemma persist_steady path st w : repo_path (w_repo w) = path -> undisturbed path st w ->
  is_Ok (persistCandidateLocked st.1 st.2 w).1 = true.
Proof.
  intros Hp [Hs Hm]. unfold persistCandidateLocked. rewrite SE_bind_unfold. cbn [get_state]. rewrite SE_bind_unfold.
  unfold lift. destruct (marshal_store _) as [d|e]; [|done]. cbn [wrap_err]. unfold se_map, on_fs. rewrite Hp.
  pose proof (AtomicWriteFile_steady path (d +:+ newline) 384 (repo_owner (w_repo w)) _ Hs) as [Ha _].
  by destruct (AtomicWriteFile _ _ _ _ _) as [[[]|e] fs].
Qed.

(** ** Loading an arbitrary store *)

Lemma replace_loop_inv jobs : forall next acc next' m,
  replace_loop next acc jobs = (Ok tt, (next', m)) -> (1 <= next < two63)%Z ->
  Forall (fun job => encodable job /\ (Job_ID job < two63 - 1)%Z) jobs -> map_Forall (job_fits next) acc ->
  view_ok (next', m) /\ (next <= next')%Z /\
  forall id job, m !! id = Some job -> acc !! id = Some job \/ job ∈ jobs.
Proof.
  induction jobs as [|job jobs IH]; intros next acc next' m Hr Hn Hf Hacc; simpl in Hr.
  { injection Hr as -> ->. split; [done|split; [lia|auto]]. }
  apply Forall_cons in Hf as [[He Hlt] Hf].
  destruct (_ || _) eqn:Eg in Hr; [done|]. apply orb_false_iff in Eg as [Eid Ev]. bool_simpl.
  destruct (bool_decide _) in Hr; [done|]. rewrite cloneJob_id in Hr.
  set (next1 := if (next <=? Job_ID job)%Z then wrap_s64 (Job_ID job + 1) else next) in Hr.
  assert (next <= next1 < two63 /\ Job_ID job < next1)%Z as [Hn1 Hid].
  { unfold next1. destruct (next <=? Job_ID job)%Z eqn:El; bool_simpl; [|lia].
    rewrite wrap_s64_id by (unfold in_s64, two63 in *; lia). lia. }
  apply IH in Hr as (Hok & Hle & Hfrom); [|lia|done|].
  - split; [done|]. split; [lia|]. intros id j Hj. apply Hfrom in Hj as [Hj|Hj]; [|right; by right].
    destruct (decide (id = Job_ID job)) as [->|Hne].
    + rewrite lookup_insert_eq in Hj. injection Hj as <-. right. by left.
    + rewrite lookup_insert_ne in Hj by done. by left.
  - apply map_Forall_insert_2; [unfold job_fits; split_and!; (done || lia)|].
    eapply map_Forall_impl; [exact Hacc|]. intros k j. apply job_fits_mono. lia.
Qed.

(** What the migration makes of a job: every field is given here. *)
Record migration (old job : Job) : Prop := {
  mg_version : Job_SchemaVersion job = 2%Z;
  mg_revision : Job_Revision job = 1%Z;
  mg_enabled : Job_Enabled job = negb (Job_Disabled old);
  mg_review : Job_NeedsReview job = true;
  mg_owner : Policy_Owner (Job_Scheduler job) = (if decide (Job_Backend old = "system") then "system" else "syncbridge");
  mg_action : Job_Action job =
    (if decide (Job_Kind old = "command") then MkAction "command" "" [] (Job_Command old) zeroSyncAction
     else MkAction "sync" "" [] ""
            (MkSyncAction (Job_Engine old) (Job_Source old) (Job_Dest old) (Job_Mode old) (Job_Compare old)
               (Job_Bwlimit old) (Job_Backup old) (Job_BackupKeep old) (Job_MaxDel old) (Job_SkipNew old)
               (Job_SysBackup old) (Job_Exclude old)));
  mg_rest : old =
    Job_set_SchemaVersion (Job_SchemaVersion old) (Job_set_Revision (Job_Revision old) (Job_set_Enabled (Job_Enabled old)
      (Job_set_NeedsReview (Job_NeedsReview old) (Job_set_Scheduler (Job_Scheduler old)
        (Job_set_Action (Job_Action old) job)))))
}.

(** A legacy store whose numbers a v2 store can have. *)
Definition well_numbered (legacy : legacyJobStore) : Prop :=
  (1 <= legacy_Next legacy)%Z /\ Forall (fun old => (1 <= Job_ID old)%Z) (legacy_Jobs legacy) /\
  NoDup (Job_ID <$> legacy_Jobs legacy).

(** What the migration of [legacy] makes of the jobs: the view holds each of them
    migrated, and nothing else; its next number is that of [legacy], or follows the
    last job. *)
Definition migrated (legacy : legacyJobStore) (st : repo_view) : Prop :=
  view_ok st /\ well_numbered legacy /\
  (forall id job, st.2 !! id = Some job <-> exists old, old ∈ legacy_Jobs legacy /\ Job_ID old = id /\ migration old job) /\
  (legacy_Next legacy <= st.1)%Z /\
  (st.1 = legacy_Next legacy \/ exists old, old ∈ legacy_Jobs legacy /\ st.1 = (Job_ID old + 1)%Z).

Definition legacy_fits (legacy : legacyJobStore) : Prop :=
  (legacy_Next legacy < two63)%Z /\
  Forall (fun job => encodable (migrate_job job) /\ (Job_ID job < two63 - 1)%Z) (legacy_Jobs legacy).

Lemma migrate_job_migration old job : migration old job <-> job = migrate_job old.
Proof.
  unfold migrate_job, string_eqb. split.
  - intros [Hv Hr He Hn Ho Ha Hrest]. destruct job as [?????????? [owner]], old. cbn in *. injection Hrest. intros. subst.
    destruct (decide (_ = "system")), (decide (_ = "command")); repeat case_bool_decide; (done || congruence).
  - intros ->. split; destruct old; cbn; repeat case_bool_decide; repeat case_match; done.
Qed.

Definition backup_path (w : World) : string := repo_path (w_repo w) +:+ ".v1." +:+ w_stamp w +:+ ".bak".
Definition file_holds (path data : string) (w : World) : Prop :=
  file_data <$> (fs_files (w_fs w) !! path) = Some data.

Lemma backup_path_ne w : backup_path w <> repo_path (w_repo w).
Proof.
  unfold backup_path. intros Heq. apply (f_equal String.length) in Heq. rewrite !length_app_str in Heq.
  simpl in Heq. lia.
Qed.

(** A write to one path keeps what every other existing path holds. *)
Lemma AtomicWriteFile_others path data mode owner fs r fs' other f :
  AtomicWriteFile path data mode owner fs = (r, fs') -> other <> path ->
  fs_files fs !! other = Some f -> fs_files fs' !! other = Some f.
Proof.
  intros Ha Hne Hf. pose proof (atomicWriteFile_hoare path data mode owner (fs_files fs) fs eq_refl) as H.
  unfold AtomicWriteFile in Ha. rewrite Ha in H.
  assert (replaced path data mode owner (fs_files fs) !! other = Some f) as Hr
    by (unfold replaced; by rewrite lookup_insert_ne).
  destruct r as [u|e]; [by destruct H as [-> _]|].
  destruct H as [[->|(tmp & g & Hnone & _ & _ & ->)]| ->]; [done| |done].
  rewrite lookup_insert_ne; [done|]. by intros ->; rewrite Hnone in Hf.
Qed.

Lemma migrate_job_ids (jobs : list Job) : Job_ID <$> (migrate_job <$> jobs) = Job_ID <$> jobs.
Proof.
  rewrite <-list_fmap_compose. apply list_fmap_ext. intros _ old _. cbn. unfold migrate_job. repeat case_goal; done.
Qed.

(** When the loop over the jobs succeeds, and what it leaves. *)
Lemma replace_loop_cases jobs : forall next acc, Forall (fun job => Job_SchemaVersion job = 2%Z) jobs ->
  Forall (fun job => Job_ID job < two63 - 1)%Z jobs ->
  let '(r, (next', m)) := replace_loop next acc jobs in
  (is_Ok r = true <-> Forall (fun job => 1 <= Job_ID job)%Z jobs /\ NoDup (Job_ID <$> jobs) /\
                      Forall (fun job => acc !! Job_ID job = None) jobs) /\
  (is_Ok r = true ->
     (forall id job, m !! id = Some job <-> acc !! id = Some job \/ (job ∈ jobs /\ Job_ID job = id)) /\
     (next' = next \/ exists job, job ∈ jobs /\ next' = (Job_ID job + 1)%Z)).
Proof.
  induction jobs as [|job jobs IH]; intros next acc Hv Hlt; cbn [replace_loop].
  { split; [split; [intros _; split_and!; constructor|done]|]. intros _. split; [|by left].
    intros id j. split; [by left|]. intros [H|[H _]]; [done|by apply elem_of_nil in H]. }
  apply Forall_cons in Hv as [Ejob Hv]. apply Forall_cons in Hlt as [Hid Hlt]. rewrite Ejob.
  destruct (Job_ID job <? 1)%Z eqn:E1; cbn [orb negb Z.eqb Pos.eqb]; bool_simpl.
  { cbn. split; [|done]. split; [done|]. intros (H%Forall_cons & _). lia. }
  destruct (acc !! Job_ID job) as [old|] eqn:Eacc.
  { rewrite bool_decide_eq_true_2 by eauto. cbn. split; [|done]. split; [done|]. intros (_ & _ & H%Forall_cons). naive_solver. }
  rewrite bool_decide_eq_false_2 by by intros [? ?]. rewrite cloneJob_id.
  set (next1 := if (next <=? Job_ID job)%Z then _ else next). specialize (IH next1 (<[Job_ID job := job]> acc) Hv Hlt).
  assert (next1 = next \/ next1 = (Job_ID job + 1)%Z) as Hn1.
  { unfold next1. case_goal; [|by left]. right. apply wrap_s64_id. unfold in_s64, two63 in *. lia. }
  destruct (replace_loop _ _ jobs) as [r [next' m]]. destruct IH as [Hr Hm]. split.
  - rewrite Hr, fmap_cons, NoDup_cons, !Forall_cons. split.
    + intros (H1 & H2 & H3). rewrite Forall_forall in H3.
      assert (Job_ID job ∉ Job_ID <$> jobs) as Hni.
      { intros (j & Hj & Hin)%list_elem_of_fmap. specialize (H3 j Hin). rewrite <-Hj, lookup_insert_eq in H3. done. }
      split; [by split|]. split; [by split|]. split; [done|]. apply Forall_forall. intros j Hin. specialize (H3 j Hin).
      rewrite lookup_insert_ne in H3; [done|]. intros Hj. apply Hni. rewrite Hj. by apply list_elem_of_fmap_2.
    + intros ((_ & H1) & (Hni & H2) & (_ & H3)). split; [done|]. split; [done|].
      apply Forall_forall. intros j Hin. rewrite Forall_forall in H3. rewrite lookup_insert_ne; [by apply H3|].
      intros Hj. apply Hni. rewrite Hj. by apply list_elem_of_fmap_2.
  - intros Ho. destruct (Hm Ho) as [Hmap Hnext]. destruct (proj1 Hr Ho) as (_ & _ & H3). split.
    + intros id j. rewrite Hmap, elem_of_cons. destruct (decide (id = Job_ID job)) as [->|Hne].
      * rewrite lookup_insert_eq, Eacc. naive_solver.
      * rewrite lookup_insert_ne by done. naive_solver.
    + destruct Hnext as [-> |(j & Hj & ->)]; [|right; exists j; by rewrite elem_of_cons; auto].
      destruct Hn1 as [-> | ->]; [by left|]. right. exists job. by rewrite elem_of_cons; auto.
Qed.

Lemma replaceLocked_migrated legacy :
  legacy_fits legacy -> (1 <= legacy_Next legacy)%Z ->
  let (r, st) := replace_loop (legacy_Next legacy) ∅ (map migrate_job (legacy_Jobs legacy)) in
  (is_Ok r = true <-> well_numbered legacy) /\ (is_Ok r = true -> migrated legacy st).
Proof.
  intros [Hn Hf] Hn1. change (map migrate_job) with (fmap (M := list) migrate_job).
  assert (Forall (fun job => encodable job /\ (Job_ID job < two63 - 1)%Z) (migrate_job <$> legacy_Jobs legacy)) as Hfit.
  { apply Forall_fmap. eapply Forall_impl; [exact Hf|]. intros old [He Hlt]. split; [done|]. cbn.
    unfold migrate_job. repeat case_goal; done. }
  pose proof (replace_loop_cases (migrate_job <$> legacy_Jobs legacy) (legacy_Next legacy) ∅) as Hc.
  destruct (replace_loop _ _ _) as [r [next m]] eqn:Er. destruct Hc as [Hr Hm].
  { apply Forall_fmap, Forall_true. intros old. cbn. unfold migrate_job. repeat case_goal; done. }
  { eapply Forall_impl; [exact Hfit|]. by intros job [_ ?]. }
  rewrite migrate_job_ids, !Forall_fmap in Hr. cbn in Hr.
  assert (is_Ok r = true <-> well_numbered legacy) as Hiff.
  { rewrite Hr. unfold well_numbered. rewrite !Forall_forall. unfold compose.
    assert (forall old, Job_ID (migrate_job old) = Job_ID old) as Hid.
    { intros old. unfold migrate_job. repeat case_goal; done. }
    split; [intros (H1 & H2 & _)|intros (_ & H1 & H2)]; split_and!; try done; intros old Hin; specialize (H1 old Hin);
      rewrite ?Hid, ?lookup_empty in *; done. }
  split; [done|]. intros Ho. destruct r as [[]|]; [|done]. destruct (Hm Ho) as [Hmap Hnext].
  apply replace_loop_inv in Er as (Hok & Hle & _); [|lia|done|apply map_Forall_empty].
  split; [done|]. split; [by apply Hiff|]. split; [|split; [done|]].
  - intros id job. cbn. rewrite Hmap, lookup_empty. setoid_rewrite migrate_job_migration.
    setoid_rewrite list_elem_of_fmap. split.
    + intros [?|[(old & -> & Hin) <-]]; [done|]. exists old. split; [done|]. split; [|done].
      unfold migrate_job. repeat case_goal; done.
    + intros (old & Hin & <- & ->). right. split; [by exists old|]. unfold migrate_job. repeat case_goal; done.
  - cbn. destruct Hnext as [?|(job & (old & -> & Hin)%list_elem_of_fmap & ->)]; [by left|right]. exists old. split; [done|].
    unfold migrate_job. repeat case_goal; done.
Qed.

(** Nothing is in the way of the migration that makes [st]: neither of writing the
    backup nor of writing the file. *)
Definition nothing_in_the_way (path : string) (st : repo_view) (w : World) : Prop :=
  undisturbed path st w /\ steady (backup_path w) (w_fs w).

Definition migration_ok (path data : string) (legacy : legacyJobStore) (w0 : World) (r : result unit) (w : World) : Prop :=
  match r with
  | Ok _ => file_holds (backup_path w0) data w /\
      exists st, migrated legacy st /\ disk_holds path st w /\ memory_holds st w
  | Err _ =>
      (file_holds path data w \/ file_holds (backup_path w0) data w) /\
      (well_numbered legacy -> exists st, migrated legacy st /\ ~ nothing_in_the_way path st w0)
  end.

Lemma temp_file_backup path w : temp_file path <> backup_path w.
Proof.
  destruct (temp_file_last path) as [name ->]. unfold backup_path. change ".bak" with (".ba" +:+ str1 "k").
  rewrite <-!app_assoc_str. by intros ?%last_inj.
Qed.

Lemma migrateLegacyLocked_ok path w data legacy :
  repo_path (w_repo w) = path -> file_holds path data w -> legacy_of data = Ok legacy -> legacy_fits legacy ->
  let (r, w') := migrateLegacyLocked data w in migration_ok path data legacy w r w'.
Proof.
  intros Hp Hfile Hl Hfit. unfold migrateLegacyLocked. rewrite Hl.
  destruct (legacy_Next legacy <? 1)%Z eqn:Hn.
  { split; [by left|]. intros [? _]. bool_simpl. lia. }
  rewrite SE_bind_unfold. unfold replaceLocked. rewrite Hn. bool_simpl.
  pose proof (replaceLocked_migrated _ Hfit Hn) as Hmig. change (fmap migrate_job) with (map migrate_job) in Hmig.
  destruct (replace_loop _ _ _) as [[[]|e] st] eqn:Hr; destruct Hmig as [Hiff Hmig].
  2:{ split; [by left|]. intros ?%Hiff. done. }
  specialize (Hmig eq_refl). rewrite SE_bind_unfold. cbn [get_state]. rewrite SE_bind_unfold. unfold se_map, on_fs.
  cbn [set_repo w_repo w_fs w_stamp repo_path repo_owner repo_next repo_jobs]. fold (backup_path w).
  destruct (AtomicWriteFile (backup_path w) data _ _ (w_fs w)) as [r fs] eqn:Ea.
  pose proof (AtomicWriteFile_reader _ _ _ _ _ _ _ Ea) as [Hbak _].
  unfold file_holds in Hfile. destruct (fs_files (w_fs w) !! path) as [f|] eqn:Ef; [|done]. injection Hfile as Hdata.
  assert (fs_files fs !! path = Some f) as Hkeep.
  { eapply AtomicWriteFile_others; [exact Ea| |done]. rewrite <-Hp. apply not_eq_sym, backup_path_ne. }
  assert (nothing_in_the_way path st w -> is_Ok r = true /\ steady path fs) as Hsteady.
  { intros [[Hst _] Hb]. pose proof (AtomicWriteFile_steady (backup_path w) data 384 (repo_owner (w_repo w)) _ Hb) as [H1 H2].
    rewrite Ea in H1, H2. split; [done|]. destruct Hst as [_ Ht Hbase]. split; [done| |done].
    pose proof (AtomicWriteFile_atomic (backup_path w) data 384 (repo_owner (w_repo w)) (w_fs w)) as H3. rewrite Ea in H3.
    cbn in H1. destruct r; [|done]. destruct H3 as [-> _]. unfold replaced.
    rewrite lookup_insert_ne; [done|]. apply not_eq_sym, temp_file_backup. }
  destruct r as [[]|e]; cbn [wrap_err].
  2:{ split; [left; unfold file_holds; cbn; rewrite Hkeep; cbn; by rewrite Hdata|]. intros _. exists st. split; [done|].
      intros Hno. by destruct (Hsteady Hno). }
  specialize (Hbak eq_refl).
  unfold persistCandidateLocked. rewrite SE_bind_unfold. cbn [get_state]. rewrite SE_bind_unfold. unfold lift.
  destruct (marshal_store (MkJobStore 2 st.1 (sorted_jobs st.2))) as [d|e] eqn:Em; cbn [wrap_err].
  2:{ split; [right; unfold file_holds; cbn; by rewrite Hbak|]. intros _. exists st. split; [done|].
      intros [[_ Hno] _]. by rewrite Em in Hno. }
  unfold se_map, on_fs. cbn [w_repo w_fs w_stamp repo_path repo_owner].
  destruct (AtomicWriteFile (repo_path (w_repo w)) _ _ _ fs) as [r2 fs2] eqn:Ea2.
  pose proof (AtomicWriteFile_reader _ _ _ _ _ _ _ Ea2) as [Hnew _].
  assert (forall w', w_fs w' = fs2 -> file_holds (backup_path w) data w') as Hb.
  { intros w' Hw'. unfold file_holds. rewrite Hw'.
    erewrite AtomicWriteFile_others; [|exact Ea2|apply backup_path_ne|exact Hbak]. done. }
  destruct r2 as [[]|e]; simpl.
  2:{ split; [right; by apply Hb|]. intros _. exists st. split; [done|]. intros Hno. destruct (Hsteady Hno) as [_ Hs].
      rewrite <-Hp in Hs. pose proof (AtomicWriteFile_steady _ (d +:+ newline) 384 (repo_owner (w_repo w)) _ Hs) as [H1 _].
      by rewrite Ea2 in H1. }
  split; [by apply Hb|].
  exists st. split; [done|]. split; [|by destruct st]. split; [done|].
  unfold decode_disk. simpl. rewrite <-Hp, (Hnew eq_refl). simpl. apply decode_marshal; [by destruct Hmig|done].
Qed.

(** ** Properties *)

(** C3: every mutation refines the specification.  From a file that holds a
    well-formed view, [Create], [Update] and [Delete] do exactly what
    [spec_step] does to that view, on disk and in memory; on an error reported
    before the write (unknown job, stale revision) the file still holds the old
    view, on any I/O fault it holds the old or the complete new one; and the new
    view is well-formed again, so IDs stay unique, positive and below [next]. *)
Theorem JobRepository_refines op path st w :
  view_ok st -> op_fits op st -> disk_holds path st w ->
  let (r, w') := run_repo_op op w in
  outcome_ok path st (spec_step op st) r w' /\
  (forall st', spec_step op st = Ok st' -> view_ok st').
Proof.
  intros Hok Hfit Hd. pose proof (run_repo_op_meets op path st Hok Hfit w Hd) as Hm.
  destruct (run_repo_op op w) as [r w']. split; [exact Hm|]. intros st'. by apply spec_step_ok.
Qed.

Lemma fs_ReadFile_cases path fs :
  exists fs', fs_files fs' = fs_files fs /\
    (fs_ReadFile path fs = (Ok (file_data <$> (fs_files fs !! path)), fs') \/
     exists e, fs_ReadFile path fs = (Err e, fs')).
Proof.
  unfold fs_ReadFile. rewrite SE_bind_unfold. unfold next_outcome.
  destruct (fs_script fs) as [|[suffix|n] script].
  - exists fs. auto.
  - exists (MkFS (fs_files fs) (fs_synced_dirs fs) script). auto.
  - exists (MkFS (fs_files fs) (fs_synced_dirs fs) script). split; [done|]. right. by eexists.
Qed.

(** C24: loading a store without a schema version migrates it, completely.  When
    it succeeds, the original bytes are in the timestamped backup, and file and
    memory hold a well-formed v2 view with exactly the legacy jobs, each under its
    ID and migrated field by field: at revision 1, to be reviewed, enabled unless it
    was disabled, its action from the old fields of its kind, its scheduler from its
    backend, and every other field as it was; the next number is the old one, or
    follows the last job.  When it fails, the original bytes are still in the file
    or already in the backup; and it fails only when an ID is not positive or
    repeats, when the next number is not positive, when a file operation fails or a
    temporary name is taken, or when the migrated store cannot be encoded. *)
Theorem loadLocked_migrates path w data legacy :
  repo_path (w_repo w) = path -> file_holds path data w -> data <> "" ->
  header_of data = Ok None -> legacy_of data = Ok legacy -> legacy_fits legacy ->
  let (r, w') := loadLocked w in migration_ok path data legacy w r w'.
Proof.
  intros Hp Hfile Hne Hh Hl Hfit. unfold loadLocked. rewrite SE_bind_unfold. cbn [get_state]. rewrite Hp.
  rewrite SE_bind_unfold. unfold se_map, on_fs.
  assert (fs_script (w_fs w) = [] -> fs_ReadFile path (w_fs w) = (Ok (file_data <$> (fs_files (w_fs w) !! path)), w_fs w)) as Hquiet.
  { apply fs_ReadFile_steady. }
  destruct (fs_ReadFile_cases path (w_fs w)) as (fs' & Hfs & [Hr|[e Hr]]); rewrite Hr in *; cbn [wrap_err].
  - pose proof Hfile as Hf. unfold file_holds in Hf. rewrite Hf.
    rewrite (proj2 (string_eqb_false _ _) Hne), Hh.
    assert (file_holds path data (MkWorld (w_repo w) fs' (w_stamp w))) as Hf' by (unfold file_holds; simpl; by rewrite Hfs).
    pose proof (migrateLegacyLocked_ok path (MkWorld (w_repo w) fs' (w_stamp w)) data legacy Hp Hf' Hl Hfit) as H.
    destruct (migrateLegacyLocked data _) as [r w'].
    destruct r as [u|e]; [exact H|]. destruct H as [H1 H2]. split; [exact H1|]. intros Hw.
    destruct (H2 Hw) as (st & Hst & Hno). exists st. split; [done|]. intros Hway. apply Hno.
    assert (fs' = w_fs w) as ->; [|by destruct w]. destruct Hway as [[[Hs _ _] _] _]. specialize (Hquiet Hs). congruence.
  - split; [left; unfold file_holds; simpl; by rewrite Hfs|]. intros Hw.
    assert (exists st, migrated legacy st) as [st Hst].
    { pose proof Hw as (Hn & _). pose proof (replaceLocked_migrated _ Hfit Hn) as Hmig.
      destruct (replace_loop _ _ _) as [r st]. destruct Hmig as [Hiff Hm]. exists st. by apply Hm, Hiff. }
    exists st. split; [done|]. intros [[[Hs _ _] _] _]. by specialize (Hquiet Hs).
Qed.

Lemma next_revision_ne revision : wrap_u64 (revision + 1) <> revision.
Proof.
  unfold wrap_u64, two64. intros Heq. pose proof (Z.div_mod (revision + 1) 18446744073709551616 ltac:(lia)). lia.
Qed.

(** No update is lost between processes.  After one process updated a job
    from [revision], a second process (with any state in memory, on the same
    file) that updates from the same [revision] fails, and the file keeps the
    first update. *)
Theorem Update_no_lost_update path st w1 w1' w2 id revision a b :
  view_ok st -> op_fits (OpUpdate id revision a) st -> op_fits (OpUpdate id revision b) st ->
  disk_holds path st w1 -> run_repo_op (OpUpdate id revision a) w1 = (Ok tt, w1') ->
  repo_path (w_repo w2) = path -> w_fs w2 = w_fs w1' ->
  let (r, w2') := run_repo_op (OpUpdate id revision b) w2 in
  is_Ok r = false /\
  exists st', spec_step (OpUpdate id revision a) st = Ok st' /\ decode_disk path (w_fs w2') = Ok st'.
Proof.
  intros Hok Ha Hb Hd Hrun Hp Hfs. pose proof (run_repo_op_meets _ path st Hok Ha w1 Hd) as H1.
  rewrite Hrun in H1. destruct (spec_step _ st) as [st'|e] eqn:Es; [|done]. destruct H1 as [[_ Hd1] _].
  pose proof (spec_step_ok _ _ _ Hok Ha Es) as Hok'.
  assert (disk_holds path st' w2) as Hd2 by (split; [done|by rewrite Hfs]).
  pose proof (run_repo_op_meets (OpUpdate id revision b) path st' Hok' Hb w2 Hd2) as H2.
  assert (spec_step (OpUpdate id revision b) st' = Err ErrRevisionConflict) as Hconf.
  { destruct st as [next jobs]. simpl in Es. destruct (jobs !! id) as [cur|]; [|done].
    destruct (_ =? _)%Z; [|done]. injection Es as <-. simpl. rewrite lookup_insert_eq.
    simpl. by rewrite (proj2 (Z.eqb_neq _ _) (next_revision_ne revision)). }
  rewrite Hconf in H2. destruct (run_repo_op (OpUpdate id revision b) w2) as [[u|e] w2']; [done|].
  split; [done|]. exists st'. split; [done|]. apply H2.
Qed.
End Spec.

(** ** A codec to run the repository with

    Jobs that differ from a fixed one in ID and revision only, written as
    decimal numbers; the literal [legacy] stands for a legacy store. *)

Definition zeroJob : Job :=
  MkJob 0 0 0 "" false false (MkAction "" "" [] "" zeroSyncAction) (MkIdentity "" "" 0 "" 0)
    (MkExecutionPolicy "" [] 0 0 0 "") "" (MkSchedulerPolicy "") "" "" "" "" "" "" "" "" "" "" 0 0 0 "" ""
    false 0 0 false false "" false "" "".

Definition demo_job (id revision : Z) (migrated : bool) : Job :=
  stamp_job id revision (if migrated then migrate_job zeroJob else zeroJob).

Definition demo_text (numbers : list Z) : string := Join " " (map FormatUint numbers).
Definition demo_numbers (text : string) : option (list Z) :=
  mapM (ParseUint 10 64) (Split " " (TrimSuffix text newline)).

Definition demo_store (s : jobStore) : list Z :=
  store_SchemaVersion s :: store_Next s ::
  concat (map (fun j => [Job_ID j; Job_Revision j; if Job_NeedsReview j then 1 else 0]%Z) (store_Jobs s)).

Fixpoint demo_jobs (numbers : list Z) : list Job :=
  match numbers with
  | id :: revision :: m :: numbers => demo_job id revision (m =? 1)%Z :: demo_jobs numbers
  | _ => []
  end.

Lemma demo_numbers_text l : Forall in_u64 l -> l <> [] -> demo_numbers (demo_text l +:+ newline) = Some l.
Proof.
  intros Hl Hne. unfold demo_numbers, demo_text. rewrite TrimSuffix_app.
  change " " with (str1 " "%char) at 1. rewrite Split_Join.
  - clear Hne. induction Hl as [|n l Hn Hl IH]; [done|]. simpl. by rewrite ParseUint_FormatUint, IH.
  - by destruct l.
  - apply Forall_fmap. eapply Forall_impl; [exact Hl|]. intros n [Hn _]. simpl. apply has_byte_false.
    eapply string_forallb_impl; [|by apply FormatUint_digits]. intros c Hc.
    apply negb_true_iff, ascii_eqb_false. intros ->. done.
Qed.

Definition demo_encodable (j : Job) : Prop :=
  j = demo_job (Job_ID j) (Job_Revision j) (Job_NeedsReview j) /\ in_u64 (Job_ID j) /\ in_u64 (Job_Revision j).

Definition demo_marshal (s : jobStore) : result string :=
  if bool_decide (Forall (fun n => (0 <= n < two64)%Z) (demo_store s)) then Ok (demo_text (demo_store s))
  else Err (ErrNew "number out of range").
Definition demo_header (t : string) : result (option Z) :=
  match demo_numbers t with
  | Some (v :: _) => Ok (Some v)
  | _ => if string_eqb t "legacy" then Ok None else Err (ErrNew "syntax")
  end.
Definition demo_store_of (t : string) : result jobStore :=
  match demo_numbers t with
  | Some (v :: next :: jobs) => Ok (MkJobStore v next (demo_jobs jobs))
  | _ => Err (ErrNew "syntax")
  end.
Definition demo_legacy_of (t : string) : result legacyJobStore :=
  if string_eqb t "legacy" then Ok (MkLegacyJobStore 2 [Job_set_ID 1 zeroJob]) else Err (ErrNew "syntax").

Lemma demo_marshal_numbers s d :
  demo_marshal s = Ok d -> demo_numbers (d +:+ newline) = Some (demo_store s).
Proof.
  unfold demo_marshal. destruct (bool_decide _) eqn:E; [|done]. intros [= <-]. apply bool_decide_eq_true in E.
  by apply demo_numbers_text.
Qed.

Lemma demo_jobs_store jobs :
  Forall demo_encodable jobs ->
  demo_jobs (concat (map (fun j => [Job_ID j; Job_Revision j; if Job_NeedsReview j then 1 else 0]%Z) jobs)) = jobs.
Proof.
  induction 1 as [|j jobs (Hj & _) _ IH]; [done|]. simpl. rewrite IH. f_equal. rewrite Hj at 4.
  f_equal. by destruct (Job_NeedsReview j).
Qed.

#[export] Program Instance demo_codec : JobCodec := {|
  header_of := demo_header; store_of := demo_store_of; legacy_of := demo_legacy_of;
  marshal_store := demo_marshal; encodable := demo_encodable
|}.
Next Obligation. intros s d _ _ Hd. unfold demo_header. by rewrite (demo_marshal_numbers s d Hd). Qed.
Next Obligation.
  intros s d _ He Hd. unfold demo_store_of. rewrite (demo_marshal_numbers s d Hd). unfold demo_store.
  rewrite demo_jobs_store by done. by destruct s.
Qed.

Definition demo_world (path text : string) : World :=
  MkWorld (MkJobRepository path process_owner 1 ∅)
    (MkFS {[ path := MkFile text 384 process_owner true ]} [] []) "20260101T000000.000000000Z".

Definition demo_view : repo_view := (2%Z, {[ 1%Z := demo_job 1 3 false ]}).

Lemma demo_job_encodable id revision m :
  in_u64 id -> in_u64 revision -> demo_encodable (demo_job id revision m).
Proof. intros Hi Hr. destruct m; by split. Qed.

Lemma demo_view_ok : view_ok demo_view.
Proof.
  split; [by split|]. apply map_Forall_singleton. split_and!; [done..|]. by apply demo_job_encodable.
Qed.

Definition demo_start : World := demo_world "/data/jobs.json" (demo_text [2; 2; 1; 3; 0]%Z +:+ newline).

Lemma demo_start_holds : disk_holds "/data/jobs.json" demo_view demo_start.
Proof. split; [done|vm_compute; reflexivity]. Qed.

Lemma JobRepository_refines_witness :
  is_Ok (run_repo_op (OpUpdate 1 3 zeroJob) demo_start).1 = true /\
  let (r, w') := run_repo_op (OpUpdate 1 3 zeroJob) demo_start in
  outcome_ok "/data/jobs.json" demo_view (spec_step (OpUpdate 1 3 zeroJob) demo_view) r w' /\
  (forall st', spec_step (OpUpdate 1 3 zeroJob) demo_view = Ok st' -> view_ok st').
Proof.
  split; [vm_compute; reflexivity|].
  exact (JobRepository_refines (OpUpdate 1 3 zeroJob) "/data/jobs.json" demo_view demo_start demo_view_ok
    (demo_job_encodable 1 4 false ltac:(done) ltac:(done)) demo_start_holds).
Defined.

Lemma demo_legacy_fits : legacy_fits (MkLegacyJobStore 2 [Job_set_ID 1 zeroJob]).
Proof. split; [done|]. apply Forall_singleton. split; [|done]. by apply (demo_job_encodable 1 1 true). Qed.

Lemma loadLocked_migrates_witness :
  is_Ok (loadLocked (demo_world "/data/jobs.json" "legacy")).1 = true /\
  let (r, w') := loadLocked (demo_world "/data/jobs.json" "legacy") in
  migration_ok "/data/jobs.json" "legacy" (MkLegacyJobStore 2 [Job_set_ID 1 zeroJob])
    (demo_world "/data/jobs.json" "legacy") r w'.
Proof.
  split; [vm_compute; reflexivity|].
  exact (loadLocked_migrates "/data/jobs.json" (demo_world "/data/jobs.json" "legacy") "legacy" _
    eq_refl eq_refl ltac:(done) eq_refl eq_refl demo_legacy_fits).
Defined.

Lemma Update_no_lost_update_witness :
  let w1' := (run_repo_op (OpUpdate 1 3 zeroJob) demo_start).2 in
  let w2 := MkWorld (MkJobRepository "/data/jobs.json" process_owner 7 ∅) (w_fs w1') "" in
  let (r, w2') := run_repo_op (OpUpdate 1 3 zeroJob) w2 in
  is_Ok r = false /\
  exists st', spec_step (OpUpdate 1 3 zeroJob) demo_view = Ok st' /\
    decode_disk "/data/jobs.json" (w_fs w2') = Ok st'.
Proof.
  intros w1' w2.
  apply (Update_no_lost_update "/data/jobs.json" demo_view demo_start w1' w2 1 3 zeroJob zeroJob demo_view_ok).
  - exact (demo_job_encodable 1 4 false ltac:(done) ltac:(done)).
  - exact (demo_job_encodable 1 4 false ltac:(done) ltac:(done)).
  - exact demo_start_holds.
  - vm_compute. reflexivity.
  - reflexivity.
  - reflexivity.
Defined.
