(* ===== verification/JobJson.v ===== *)
(** * The JSON of jobs ([model.go], [job_repository.go])

    The struct tags of a job and of its parts, [Job.MarshalJSON] with its two
    shapes, and the file of the repository: [production_codec] is the codec
    [JobRepository] is verified against, with its laws proved. *)

From S2P Require Import Prelude GoStrings Utf8 Json JsonProofs Model AtomicFile JobRepository.

(** ** Encoding *)

Definition enc_SyncAction (x : SyncAction) : json :=
  struct
    [("engine", omit_string (Sync_Engine x)); ("source", omit_string (Sync_Source x));
     ("dest", omit_string (Sync_Dest x)); ("mode", omit_string (Sync_Mode x));
     ("compare", omit_string (Sync_Compare x)); ("bwlimit", omit_string (Sync_Bwlimit x));
     ("backup", omit_bool (Sync_Backup x)); ("backupKeep", omit_int (Sync_BackupKeep x));
     ("maxDel", omit_int (Sync_MaxDel x)); ("skipNew", omit_bool (Sync_SkipNew x));
     ("sysBackup", omit_bool (Sync_SysBackup x)); ("exclude", omit_string (Sync_Exclude x))].

Definition enc_Action (x : Action) : json :=
  struct
    [("type", always (JStr (Action_Type x))); ("scriptPath", omit_string (Action_ScriptPath x));
     ("scriptArgs", omit_strings (Action_ScriptArgs x)); ("command", omit_string (Action_Command x));
     ("sync", always (enc_SyncAction (Action_Sync x)))].

Definition enc_Identity (x : Identity) : json :=
  struct
    [("mode", omit_string (Identity_Mode x)); ("user", omit_string (Identity_User x));
     ("uid", omit_int (Identity_UID x)); ("group", omit_string (Identity_Group x));
     ("gid", omit_int (Identity_GID x))].

Definition enc_ExecutionPolicy (x : ExecutionPolicy) : json :=
  struct
    [("workingDirectory", omit_string (Exec_WorkingDirectory x)); ("environment", omit_strings (Exec_Environment x));
     ("umask", omit_uint (Exec_Umask x)); ("timeoutSeconds", omit_int (Exec_TimeoutSeconds x));
     ("stopGraceSeconds", omit_int (Exec_StopGraceSeconds x)); ("overlap", omit_string (Exec_Overlap x))].

Definition enc_SchedulerPolicy (x : SchedulerPolicy) : json :=
  struct
    [("owner", always (JStr (Policy_Owner x)))].

(** [v2Job]: every field. *)
Definition enc_v2Job (job : Job) : json :=
  struct
    [("schemaVersion", always (enc_int (Job_SchemaVersion job))); ("id", always (enc_int (Job_ID job)));
     ("revision", always (enc_uint (Job_Revision job))); ("name", always (JStr (Job_Name job)));
     ("enabled", always (JBool (Job_Enabled job))); ("needsReview", omit_bool (Job_NeedsReview job));
     ("action", always (enc_Action (Job_Action job))); ("identity", always (enc_Identity (Job_Identity job)));
     ("execution", always (enc_ExecutionPolicy (Job_Execution job))); ("trigger", always (JStr (Job_Trigger job)));
     ("scheduler", always (enc_SchedulerPolicy (Job_Scheduler job))); ("kind", omit_string (Job_Kind job));
     ("command", omit_string (Job_Command job)); ("backend", omit_string (Job_Backend job));
     ("source", omit_string (Job_Source job)); ("dest", omit_string (Job_Dest job));
     ("engine", omit_string (Job_Engine job)); ("mode", omit_string (Job_Mode job));
     ("cron", omit_string (Job_Cron job)); ("watchGlob", omit_string (Job_WatchGlob job));
     ("watchMode", omit_string (Job_WatchMode job)); ("debounce", omit_int (Job_Debounce job));
     ("pollSec", omit_int (Job_PollSec job)); ("timeout", omit_int (Job_Timeout job));
     ("compare", omit_string (Job_Compare job)); ("bwlimit", omit_string (Job_Bwlimit job));
     ("backup", omit_bool (Job_Backup job)); ("backupKeep", omit_int (Job_BackupKeep job));
     ("maxDel", omit_int (Job_MaxDel job)); ("skipNew", omit_bool (Job_SkipNew job));
     ("sysBackup", omit_bool (Job_SysBackup job)); ("exclude", omit_string (Job_Exclude job));
     ("disabled", omit_bool (Job_Disabled job)); ("lastRun", omit_string (Job_LastRun job));
     ("lastStat", omit_string (Job_LastStat job))].

(** [legacyJob]: the shape of v1. *)
Definition enc_legacyJob (job : Job) : json :=
  struct
    [("id", always (enc_int (Job_ID job))); ("revision", always (enc_uint (Job_Revision job)));
     ("needsReview", omit_bool (Job_NeedsReview job)); ("identity", always (enc_Identity (Job_Identity job)));
     ("name", always (JStr (Job_Name job))); ("kind", always (JStr (Job_Kind job)));
     ("command", always (JStr (Job_Command job))); ("backend", always (JStr (Job_Backend job)));
     ("source", always (JStr (Job_Source job))); ("dest", always (JStr (Job_Dest job)));
     ("engine", always (JStr (Job_Engine job))); ("mode", always (JStr (Job_Mode job)));
     ("trigger", always (JStr (Job_Trigger job))); ("cron", always (JStr (Job_Cron job)));
     ("watchGlob", always (JStr (Job_WatchGlob job))); ("watchMode", always (JStr (Job_WatchMode job)));
     ("debounce", always (enc_int (Job_Debounce job))); ("pollSec", always (enc_int (Job_PollSec job)));
     ("timeout", always (enc_int (Job_Timeout job))); ("compare", always (JStr (Job_Compare job)));
     ("bwlimit", always (JStr (Job_Bwlimit job))); ("backup", always (JBool (Job_Backup job)));
     ("backupKeep", always (enc_int (Job_BackupKeep job))); ("maxDel", always (enc_int (Job_MaxDel job)));
     ("skipNew", always (JBool (Job_SkipNew job))); ("sysBackup", always (JBool (Job_SysBackup job)));
     ("exclude", always (JStr (Job_Exclude job))); ("disabled", always (JBool (Job_Disabled job)));
     ("lastRun", always (JStr (Job_LastRun job))); ("lastStat", always (JStr (Job_LastStat job)))].

(** [Job.MarshalJSON] *)
Definition MarshalJSON (job : Job) : json :=
  if negb (Job_SchemaVersion job =? 0)%Z then enc_v2Job job else enc_legacyJob job.

(** ** Decoding *)

Definition dec_SyncAction : decoder SyncAction := dec_object (fun ms old =>
  x0 ← dec_field "engine" dec_string ms (Sync_Engine old);
  x1 ← dec_field "source" dec_string ms (Sync_Source old);
  x2 ← dec_field "dest" dec_string ms (Sync_Dest old);
  x3 ← dec_field "mode" dec_string ms (Sync_Mode old);
  x4 ← dec_field "compare" dec_string ms (Sync_Compare old);
  x5 ← dec_field "bwlimit" dec_string ms (Sync_Bwlimit old);
  x6 ← dec_field "backup" dec_bool ms (Sync_Backup old);
  x7 ← dec_field "backupKeep" dec_int ms (Sync_BackupKeep old);
  x8 ← dec_field "maxDel" dec_int ms (Sync_MaxDel old);
  x9 ← dec_field "skipNew" dec_bool ms (Sync_SkipNew old);
  x10 ← dec_field "sysBackup" dec_bool ms (Sync_SysBackup old);
  x11 ← dec_field "exclude" dec_string ms (Sync_Exclude old);
  good (MkSyncAction x0 x1 x2 x3 x4 x5 x6 x7 x8 x9 x10 x11)).

Definition dec_Action : decoder Action := dec_object (fun ms old =>
  x0 ← dec_field "type" dec_string ms (Action_Type old);
  x1 ← dec_field "scriptPath" dec_string ms (Action_ScriptPath old);
  x2 ← dec_field "scriptArgs" (dec_list "" dec_string) ms (Action_ScriptArgs old);
  x3 ← dec_field "command" dec_string ms (Action_Command old);
  x4 ← dec_field "sync" dec_SyncAction ms (Action_Sync old);
  good (MkAction x0 x1 x2 x3 x4)).

Definition dec_Identity : decoder Identity := dec_object (fun ms old =>
  x0 ← dec_field "mode" dec_string ms (Identity_Mode old);
  x1 ← dec_field "user" dec_string ms (Identity_User old);
  x2 ← dec_field "uid" dec_int ms (Identity_UID old);
  x3 ← dec_field "group" dec_string ms (Identity_Group old);
  x4 ← dec_field "gid" dec_int ms (Identity_GID old);
  good (MkIdentity x0 x1 x2 x3 x4)).

Definition dec_ExecutionPolicy : decoder ExecutionPolicy := dec_object (fun ms old =>
  x0 ← dec_field "workingDirectory" dec_string ms (Exec_WorkingDirectory old);
  x1 ← dec_field "environment" (dec_list "" dec_string) ms (Exec_Environment old);
  x2 ← dec_field "umask" (dec_uint 32) ms (Exec_Umask old);
  x3 ← dec_field "timeoutSeconds" dec_int ms (Exec_TimeoutSeconds old);
  x4 ← dec_field "stopGraceSeconds" dec_int ms (Exec_StopGraceSeconds old);
  x5 ← dec_field "overlap" dec_string ms (Exec_Overlap old);
  good (MkExecutionPolicy x0 x1 x2 x3 x4 x5)).

Definition dec_SchedulerPolicy : decoder SchedulerPolicy := dec_object (fun ms old =>
  x0 ← dec_field "owner" dec_string ms (Policy_Owner old);
  good (MkSchedulerPolicy x0)).

Definition dec_Job : decoder Job := dec_object (fun ms old =>
  x0 ← dec_field "schemaVersion" dec_int ms (Job_SchemaVersion old);
  x1 ← dec_field "id" dec_int ms (Job_ID old);
  x2 ← dec_field "revision" (dec_uint 64) ms (Job_Revision old);
  x3 ← dec_field "name" dec_string ms (Job_Name old);
  x4 ← dec_field "enabled" dec_bool ms (Job_Enabled old);
  x5 ← dec_field "needsReview" dec_bool ms (Job_NeedsReview old);
  x6 ← dec_field "action" dec_Action ms (Job_Action old);
  x7 ← dec_field "identity" dec_Identity ms (Job_Identity old);
  x8 ← dec_field "execution" dec_ExecutionPolicy ms (Job_Execution old);
  x9 ← dec_field "trigger" dec_string ms (Job_Trigger old);
  x10 ← dec_field "scheduler" dec_SchedulerPolicy ms (Job_Scheduler old);
  x11 ← dec_field "kind" dec_string ms (Job_Kind old);
  x12 ← dec_field "command" dec_string ms (Job_Command old);
  x13 ← dec_field "backend" dec_string ms (Job_Backend old);
  x14 ← dec_field "source" dec_string ms (Job_Source old);
  x15 ← dec_field "dest" dec_string ms (Job_Dest old);
  x16 ← dec_field "engine" dec_string ms (Job_Engine old);
  x17 ← dec_field "mode" dec_string ms (Job_Mode old);
  x18 ← dec_field "cron" dec_string ms (Job_Cron old);
  x19 ← dec_field "watchGlob" dec_string ms (Job_WatchGlob old);
  x20 ← dec_field "watchMode" dec_string ms (Job_WatchMode old);
  x21 ← dec_field "debounce" dec_int ms (Job_Debounce old);
  x22 ← dec_field "pollSec" dec_int ms (Job_PollSec old);
  x23 ← dec_field "timeout" dec_int ms (Job_Timeout old);
  x24 ← dec_field "compare" dec_string ms (Job_Compare old);
  x25 ← dec_field "bwlimit" dec_string ms (Job_Bwlimit old);
  x26 ← dec_field "backup" dec_bool ms (Job_Backup old);
  x27 ← dec_field "backupKeep" dec_int ms (Job_BackupKeep old);
  x28 ← dec_field "maxDel" dec_int ms (Job_MaxDel old);
  x29 ← dec_field "skipNew" dec_bool ms (Job_SkipNew old);
  x30 ← dec_field "sysBackup" dec_bool ms (Job_SysBackup old);
  x31 ← dec_field "exclude" dec_string ms (Job_Exclude old);
  x32 ← dec_field "disabled" dec_bool ms (Job_Disabled old);
  x33 ← dec_field "lastRun" dec_string ms (Job_LastRun old);
  x34 ← dec_field "lastStat" dec_string ms (Job_LastStat old);
  good (MkJob x0 x1 x2 x3 x4 x5 x6 x7 x8 x9 x10 x11 x12 x13 x14 x15 x16 x17
        x18 x19 x20 x21 x22 x23 x24 x25 x26 x27 x28 x29 x30 x31 x32 x33 x34)).

(** [jobStore], [legacyJobStore] and the header [loadLocked] reads first. *)
Definition enc_jobStore (s : jobStore) : json :=
  struct
    [("schemaVersion", always (enc_int (store_SchemaVersion s))); ("next", always (enc_int (store_Next s)));
     ("jobs", always (JArr (map MarshalJSON (store_Jobs s))))].

Definition dec_jobStore : decoder jobStore := dec_object (fun ms old =>
  x0 ← dec_field "schemaVersion" dec_int ms (store_SchemaVersion old);
  x1 ← dec_field "next" dec_int ms (store_Next old);
  x2 ← dec_field "jobs" (dec_list zeroJob dec_Job) ms (store_Jobs old);
  good (MkJobStore x0 x1 x2)).

Definition dec_legacyJobStore : decoder legacyJobStore := dec_object (fun ms old =>
  x0 ← dec_field "next" dec_int ms (legacy_Next old);
  x1 ← dec_field "jobs" (dec_list zeroJob dec_Job) ms (legacy_Jobs old);
  good (MkLegacyJobStore x0 x1)).

Definition dec_header : decoder (option Z) := dec_object (fun ms old => dec_field "schemaVersion" (dec_ptr 0%Z dec_int) ms old).

Definition production_header_of (data : string) : result (option Z) := unmarshal dec_header None data.
Definition production_store_of (data : string) : result jobStore := unmarshal dec_jobStore (MkJobStore 0 0 []) data.
Definition production_legacy_of (data : string) : result legacyJobStore := unmarshal dec_legacyJobStore (MkLegacyJobStore 0 []) data.
Definition production_marshal_store (s : jobStore) : result string := Ok (indented (enc_jobStore s)).
