(* ===== verification/JobJsonProofs.v ===== *)
(** * The JSON of jobs: proofs

    Every job the API can store is read back from the file as it was, a job of the
    v1 shape is read back with exactly the fields of that shape, and the codec of
    the program keeps the laws the repository is verified against. *)

From S2P Require Import Prelude GoStrings Utf8 Json JsonProofs Model AtomicFile JobRepository JobJson.

(** ** What JSON represents exactly

    Strings that are valid UTF-8 and numbers of their type. *)

Definition sync_encodable (x : SyncAction) : Prop :=
  Forall utf8 [Sync_Engine x; Sync_Source x; Sync_Dest x; Sync_Mode x; Sync_Compare x; Sync_Bwlimit x; Sync_Exclude x] /\
  Forall in_s64 [Sync_BackupKeep x; Sync_MaxDel x].
Definition action_encodable (x : Action) : Prop :=
  Forall utf8 [Action_Type x; Action_ScriptPath x; Action_Command x] /\ Forall utf8 (Action_ScriptArgs x) /\
  sync_encodable (Action_Sync x).
Definition identity_encodable (x : Identity) : Prop :=
  Forall utf8 [Identity_Mode x; Identity_User x; Identity_Group x] /\ Forall in_s64 [Identity_UID x; Identity_GID x].
Definition execution_encodable (x : ExecutionPolicy) : Prop :=
  Forall utf8 [Exec_WorkingDirectory x; Exec_Overlap x] /\ Forall utf8 (Exec_Environment x) /\ in_u32 (Exec_Umask x) /\
  Forall in_s64 [Exec_TimeoutSeconds x; Exec_StopGraceSeconds x].

(** What both shapes of a job hold. *)
Definition fields_encodable (job : Job) : Prop :=
  in_s64 (Job_ID job) /\ in_u64 (Job_Revision job) /\ identity_encodable (Job_Identity job) /\
  Forall utf8 [Job_Name job; Job_Trigger job; Job_Kind job; Job_Command job; Job_Backend job; Job_Source job; Job_Dest job;
    Job_Engine job; Job_Mode job; Job_Cron job; Job_WatchGlob job; Job_WatchMode job; Job_Compare job; Job_Bwlimit job;
    Job_Exclude job; Job_LastRun job; Job_LastStat job] /\
  Forall in_s64 [Job_Debounce job; Job_PollSec job; Job_Timeout job; Job_BackupKeep job; Job_MaxDel job].

Definition job_encodable (job : Job) : Prop :=
  in_s64 (Job_SchemaVersion job) /\ Job_SchemaVersion job <> 0%Z /\ fields_encodable job /\
  action_encodable (Job_Action job) /\ execution_encodable (Job_Execution job) /\ utf8 (Policy_Owner (Job_Scheduler job)).

(** ** Field by field *)

Lemma SyncAction_back x : sync_encodable x -> back dec_SyncAction zeroSyncAction x (Some (enc_SyncAction x)).
Proof.
  intros H. unfold sync_encodable in H. split_encodable. unfold back, dec_SyncAction, enc_SyncAction.
  rewrite dec_object_struct. cbn beta. fields_back. by destruct x.
Qed.

#[local] Hint Extern 1 (back dec_SyncAction _ _ _) => (apply SyncAction_back; assumption) : json_back.

Definition zeroAction : Action := MkAction "" "" [] "" zeroSyncAction.
Definition zeroExecution : ExecutionPolicy := MkExecutionPolicy "" [] 0 0 0 "".

Lemma Action_back x : action_encodable x -> back dec_Action zeroAction x (Some (enc_Action x)).
Proof.
  intros (H & Hargs & Hs). pose proof (SyncAction_back _ Hs) as Hb. split_encodable. unfold back, dec_Action, enc_Action.
  rewrite dec_object_struct. cbn beta. fields_back. by destruct x.
Qed.

Lemma Identity_back x : identity_encodable x -> back dec_Identity (MkIdentity "" "" 0 "" 0) x (Some (enc_Identity x)).
Proof.
  intros H. unfold identity_encodable in H. split_encodable. unfold back, dec_Identity, enc_Identity.
  rewrite dec_object_struct. cbn beta. fields_back. by destruct x.
Qed.

Lemma ExecutionPolicy_back x : execution_encodable x -> back dec_ExecutionPolicy zeroExecution x (Some (enc_ExecutionPolicy x)).
Proof.
  intros (H & Henv & Hu & H2). split_encodable. unfold back, dec_ExecutionPolicy, enc_ExecutionPolicy.
  rewrite dec_object_struct. cbn beta. fields_back. by destruct x.
Qed.

Lemma SchedulerPolicy_back x : back dec_SchedulerPolicy (MkSchedulerPolicy "") x (Some (enc_SchedulerPolicy x)).
Proof. unfold back, dec_SchedulerPolicy, enc_SchedulerPolicy. rewrite dec_object_struct. cbn beta. fields_back. by destruct x. Qed.

#[local] Hint Extern 1 (back dec_Action _ _ _) => (apply Action_back; assumption) : json_back.
#[local] Hint Extern 1 (back dec_Identity _ _ _) => (apply Identity_back; assumption) : json_back.
#[local] Hint Extern 1 (back dec_ExecutionPolicy _ _ _) => (apply ExecutionPolicy_back; assumption) : json_back.
#[local] Hint Extern 1 (back dec_SchedulerPolicy _ _ _) => apply SchedulerPolicy_back : json_back.

Lemma Job_back job : job_encodable job -> back dec_Job zeroJob job (Some (MarshalJSON job)).
Proof.
  intros (Hv & Hv0 & (Hid & Hrev & Hi & Hs & Hn) & Ha & He & Ho). unfold MarshalJSON.
  rewrite (proj2 (Z.eqb_neq _ _) Hv0). cbn [negb]. split_encodable. unfold back, dec_Job, enc_v2Job.
  rewrite dec_object_struct. cbn beta. fields_back. by destruct job.
Qed.

(** What the v1 shape holds of a job. *)
Definition legacy_fields (job : Job) : Job :=
  MkJob 0 (Job_ID job) (Job_Revision job) (Job_Name job) false (Job_NeedsReview job) zeroAction (Job_Identity job)
    zeroExecution (Job_Trigger job) (MkSchedulerPolicy "") (Job_Kind job) (Job_Command job) (Job_Backend job)
    (Job_Source job) (Job_Dest job) (Job_Engine job) (Job_Mode job) (Job_Cron job) (Job_WatchGlob job)
    (Job_WatchMode job) (Job_Debounce job) (Job_PollSec job) (Job_Timeout job) (Job_Compare job) (Job_Bwlimit job)
    (Job_Backup job) (Job_BackupKeep job) (Job_MaxDel job) (Job_SkipNew job) (Job_SysBackup job) (Job_Exclude job)
    (Job_Disabled job) (Job_LastRun job) (Job_LastStat job).

Lemma legacyJob_back job : Job_SchemaVersion job = 0%Z -> fields_encodable job ->
  back dec_Job zeroJob (legacy_fields job) (Some (MarshalJSON job)).
Proof.
  intros Hv (Hid & Hrev & Hi & Hs & Hn). unfold MarshalJSON. rewrite Hv. cbn [Z.eqb negb]. split_encodable.
  unfold back, dec_Job, enc_legacyJob. rewrite dec_object_struct. cbn beta.
  repeat first [absent | field_back].
  by destruct job.
Qed.

(** ** What is written can be read *)

Lemma SyncAction_fine x : sync_encodable x -> fine (1 + 0) (enc_SyncAction x).
Proof. intros H. unfold sync_encodable in H. split_encodable. fields_are_fine. Qed.
Lemma Action_fine x : action_encodable x -> fine (1 + 1) (enc_Action x).
Proof. intros (H & Hargs & Hs). pose proof (SyncAction_fine _ Hs) as Hf. split_encodable. fields_are_fine. Qed.
Lemma Identity_fine x : identity_encodable x -> fine (1 + 0) (enc_Identity x).
Proof. intros H. unfold identity_encodable in H. split_encodable. fields_are_fine. Qed.
Lemma ExecutionPolicy_fine x : execution_encodable x -> fine (1 + 1) (enc_ExecutionPolicy x).
Proof. intros (H & Henv & Hu & H2). split_encodable. fields_are_fine. Qed.
Lemma SchedulerPolicy_fine x : utf8 (Policy_Owner x) -> fine (1 + 0) (enc_SchedulerPolicy x).
Proof. intros H. fields_are_fine. Qed.

Lemma Job_fine job : fields_encodable job -> (Job_SchemaVersion job = 0%Z \/ job_encodable job) -> fine (1 + 2) (MarshalJSON job).
Proof.
  intros (Hid & Hrev & Hi & Hs & Hn) Hv. apply Identity_fine in Hi. unfold MarshalJSON. destruct Hv as [->|(Hv & Hv0 & _ & Ha & He & Ho)].
  - cbn [Z.eqb negb]. split_encodable. fields_are_fine.
  - rewrite (proj2 (Z.eqb_neq _ _) Hv0). cbn [negb]. apply Action_fine in Ha. apply ExecutionPolicy_fine in He.
    apply SchedulerPolicy_fine in Ho. split_encodable. fields_are_fine.
Qed.

(** ** The file of the repository *)

Lemma Jobs_fine jobs :
  Forall (fun job => fields_encodable job /\ (Job_SchemaVersion job = 0%Z \/ job_encodable job)) jobs ->
  fine (1 + 3) (JArr (map MarshalJSON jobs)).
Proof.
  intros H. assert (Forall (fine 3) (map MarshalJSON jobs)) as Hf.
  { apply Forall_fmap. eapply Forall_impl; [exact H|]. intros job [Hj Hv]. exact (Job_fine job Hj Hv). }
  split.
  - apply json_ok_arr. eapply Forall_impl; [exact Hf|]. by intros j [? _].
  - apply depth_list; [done|]. eapply Forall_impl; [exact Hf|]. by intros j [_ ?].
Qed.

Lemma job_encodable_fields job : job_encodable job -> fields_encodable job.
Proof. by intros (_ & _ & ? & _). Qed.

Lemma dec_jobs_back (f : Job -> Job) jobs :
  Forall (fun job => back dec_Job zeroJob (f job) (Some (MarshalJSON job))) jobs ->
  back (dec_list zeroJob dec_Job) [] (map f jobs) (Some (JArr (map MarshalJSON jobs))).
Proof. intros H. unfold back, dec_list. induction H as [|job jobs Hj _ IH]; [done|]. cbn in *. rewrite Hj, IH. done. Qed.

Section Store.
Variable s : jobStore.
Hypotheses (Hrange : store_range s) (Hjobs : Forall job_encodable (store_Jobs s)).

Lemma store_fine : fine 5 (enc_jobStore s).
Proof.
  destruct Hrange as [Hv Hn]. assert (fine (1 + 3) (JArr (map MarshalJSON (store_Jobs s)))) as Hf.
  { apply Jobs_fine. eapply Forall_impl; [exact Hjobs|]. intros job Hj. split; [by apply job_encodable_fields|by right]. }
  change 5%Z with (1 + 4)%Z. unfold enc_jobStore. fields_are_fine.
Qed.

Lemma store_parsed a b : ws a -> ws b -> parse_json (a +:+ indented (enc_jobStore s) +:+ b) = Ok (enc_jobStore s).
Proof.
  intros Ha Hb. destruct store_fine as [Hok Hd]. apply parse_indented; try done. unfold maxNestingDepth. lia.
Qed.

Lemma header_read a b : ws a -> ws b ->
  production_header_of (a +:+ indented (enc_jobStore s) +:+ b) = Ok (Some (store_SchemaVersion s)).
Proof.
  intros Ha Hb. eapply unmarshal_back; [by apply store_parsed|].
  unfold back, dec_header, enc_jobStore. rewrite dec_object_struct. rewrite (dec_field_own _ _ _ (Some (enc_int (store_SchemaVersion s)))).
  - unfold dec_ptr, enc_int, dec_int, dec_num. by rewrite Atoi_Itoa by apply Hrange.
  - no_dup.
  - member.
Qed.

Lemma store_read a b : ws a -> ws b -> production_store_of (a +:+ indented (enc_jobStore s) +:+ b) = Ok s.
Proof.
  intros Ha Hb. eapply unmarshal_back; [by apply store_parsed|]. destruct Hrange as [Hv Hn]. assert (back (dec_list zeroJob dec_Job) [] (store_Jobs s) (Some (JArr (map MarshalJSON (store_Jobs s))))) as Hb2.
  { rewrite <-(map_id (store_Jobs s)) at 1. apply dec_jobs_back. eapply Forall_impl; [exact Hjobs|]. apply Job_back. }
  unfold back, dec_jobStore, enc_jobStore. rewrite dec_object_struct. cbn beta. fields_back. by destruct s.
Qed.
End Store.

(** [MarshalJSON] and the tags keep the laws of the repository's codec. *)
Program Definition production_codec : JobCodec := {|
  header_of := production_header_of; store_of := production_store_of; legacy_of := production_legacy_of;
  marshal_store := production_marshal_store; encodable := job_encodable
|}.
Next Obligation. intros s d Hr Hj [= <-]. exact (header_read s Hr Hj "" newline eq_refl eq_refl). Qed.
Next Obligation. intros s d Hr Hj [= <-]. exact (store_read s Hr Hj "" newline eq_refl eq_refl). Qed.

(** A store of v1: no version, and jobs in their own shape. *)
Definition enc_legacyJobStore (s : legacyJobStore) : json :=
  struct [("next", always (enc_int (legacy_Next s))); ("jobs", always (JArr (map MarshalJSON (legacy_Jobs s))))].

Lemma legacy_read s a b :
  in_s64 (legacy_Next s) -> Forall (fun job => Job_SchemaVersion job = 0%Z /\ fields_encodable job) (legacy_Jobs s) -> ws a -> ws b ->
  let text := a +:+ indented (enc_legacyJobStore s) +:+ b in
  production_header_of text = Ok None /\
  production_legacy_of text = Ok (MkLegacyJobStore (legacy_Next s) (map legacy_fields (legacy_Jobs s))).
Proof.
  intros Hn Hjobs Ha Hb text. assert (fine (1 + 3) (JArr (map MarshalJSON (legacy_Jobs s)))) as Hf.
  { apply Jobs_fine. eapply Forall_impl; [exact Hjobs|]. intros job [? ?]. auto. }
  assert (fine (1 + 4) (enc_legacyJobStore s)) as [Hok Hd] by (unfold enc_legacyJobStore; fields_are_fine).
  assert (parse_json text = Ok (enc_legacyJobStore s)) as Hp by (apply parse_indented; try done; unfold maxNestingDepth; lia).
  split; apply (unmarshal_back _ _ _ _ _ Hp); unfold back, dec_header, dec_legacyJobStore, enc_legacyJobStore;
    rewrite dec_object_struct; cbn beta; [by rewrite dec_field_none by no_dup|].
  assert (back (dec_list zeroJob dec_Job) [] (map legacy_fields (legacy_Jobs s)) (Some (JArr (map MarshalJSON (legacy_Jobs s))))) as Hb2.
  { apply dec_jobs_back. eapply Forall_impl; [exact Hjobs|]. intros job [? ?]. by apply legacyJob_back. }
  fields_back. done.
Qed.

(** ** Properties *)

(** C5: the job file as text.  What the repository writes for jobs whose strings
    are valid UTF-8 and whose numbers are of their types is read back, with any
    white space around it: first the schema version, then the same store.  A file
    of v1 is read as one without a version, and each of its jobs with exactly the
    fields of the v1 shape. *)
Theorem job_file_roundtrip a b :
  ws a -> ws b ->
  (forall s, store_range s -> Forall job_encodable (store_Jobs s) -> exists text,
     production_marshal_store s = Ok text /\
     production_header_of (a +:+ text +:+ b) = Ok (Some (store_SchemaVersion s)) /\ production_store_of (a +:+ text +:+ b) = Ok s) /\
  (forall s, in_s64 (legacy_Next s) -> Forall (fun job => Job_SchemaVersion job = 0%Z /\ fields_encodable job) (legacy_Jobs s) ->
     let text := a +:+ indented (enc_legacyJobStore s) +:+ b in
     production_header_of text = Ok None /\
     production_legacy_of text = Ok (MkLegacyJobStore (legacy_Next s) (map legacy_fields (legacy_Jobs s)))).
Proof.
  intros Ha Hb. split.
  - intros s Hr Hj. exists (indented (enc_jobStore s)). split; [done|]. split; [by apply header_read|by apply store_read].
  - intros s Hn Hj. by apply legacy_read.
Qed.

(** One job as a response.  The JSON a handler writes for a job decodes to the
    same job when it has a schema version, and to the job's v1 fields when it has
    none, as the text of the v1 interface does. *)
Theorem job_json_roundtrip job :
  fields_encodable job -> (Job_SchemaVersion job = 0%Z \/ job_encodable job) ->
  unmarshal dec_Job zeroJob (compact (MarshalJSON job) +:+ newline) =
    Ok (if (Job_SchemaVersion job =? 0)%Z then legacy_fields job else job).
Proof.
  intros Hf Hv. destruct (Job_fine job Hf Hv) as [Hok Hd].
  change (compact (MarshalJSON job) +:+ newline) with ("" +:+ compact (MarshalJSON job) +:+ newline).
  eapply unmarshal_back; [apply parse_compact; (done || (unfold maxNestingDepth; lia))|]. destruct Hv as [Hv|Hv].
  - rewrite Hv. by apply legacyJob_back.
  - rewrite (proj2 (Z.eqb_neq _ _)) by apply Hv. by apply Job_back.
Qed.

(** ** Witnesses *)

(** A job whose name needs every kind of escape. *)
Definition demo_name : string := String (byte 34) (String (byte 92) (String (byte 10) (String (byte 7) "<a> & b"))).
Definition demo_json_job : Job :=
  MkJob 2 7 18446744073709551615 demo_name true false (MkAction ActionCommand "" ["-x"; demo_name] "echo" zeroSyncAction)
    (MkIdentity IdentityFixed "alice" 1000 "users" (-1)) (MkExecutionPolicy "/" ["A=b"] 18 60 5 "skip") TriggerCron
    (MkSchedulerPolicy SchedulerSystem) "command" "echo" "system" "" "" "" "" "0 3 * * *" "" "" 0 30 (-9223372036854775808) "" ""
    true 3 0 false true "*.tmp" false "" "".

Ltac encodable := repeat match goal with
  | |- _ /\ _ => split
  | |- Forall _ (_ :: _) => constructor
  | |- Forall _ [] => constructor
  | |- utf8 _ => apply utf8_ascii; vm_compute; reflexivity
  | |- in_s64 _ => vm_compute; split; [discriminate|reflexivity]
  | |- in_u64 _ => vm_compute; split; [discriminate|reflexivity]
  | |- in_u32 _ => vm_compute; split; [discriminate|reflexivity]
  | |- _ <> _ => discriminate
  end.

Lemma demo_json_encodable : job_encodable demo_json_job.
Proof.
  unfold job_encodable, fields_encodable, action_encodable, sync_encodable, identity_encodable, execution_encodable.
  cbn [demo_json_job Job_Action Job_Identity Job_Execution Action_ScriptArgs Exec_Environment]. encodable.
Qed.

Lemma job_file_roundtrip_witness : exists text,
  production_marshal_store (MkJobStore 2 8 [demo_json_job]) = Ok text /\
  production_store_of ("" +:+ text +:+ newline) = Ok (MkJobStore 2 8 [demo_json_job]).
Proof.
  destruct (job_file_roundtrip "" newline eq_refl eq_refl) as [H _].
  destruct (H (MkJobStore 2 8 [demo_json_job])) as (text & Ht & _ & Hs); [by split|constructor; [apply demo_json_encodable|constructor]|].
  by exists text.
Defined.

Lemma job_json_roundtrip_witness :
  unmarshal dec_Job zeroJob (compact (MarshalJSON demo_json_job) +:+ newline) = Ok demo_json_job.
Proof.
  exact (job_json_roundtrip demo_json_job (job_encodable_fields _ demo_json_encodable) (or_intror demo_json_encodable)).
Defined.
