(* ===== verification/HostCommand.v ===== *)
(** * Running commands on the host ([host_command.go], [host_filesystem.go])

    Everything SyncBridge does to the host goes through [HostCommandRunner]: one
    direct argv, never a shell string, with a fixed environment.  The host is
    not part of the repository, so the interface is a class over an abstract
    host state [W]; the components that use it are verified for every host. *)

From S2P Require Import Prelude GoStrings.

Definition hostLauncherPATH : string := "/usr/local/sbin:/usr/local/bin:/usr/sbin:/usr/bin:/sbin:/bin".

Definition HostLauncherEnvironment : list string :=
  [ "HOME=/root"; "LANG=C"; "LC_ALL=C"; "LOGNAME=root"; "PATH=" +:+ hostLauncherPATH;
    "SHELL=/bin/sh"; "TZ=UTC"; "USER=root" ].

Record CommandResult := MkCommandResult {
  Stdout : string;
  Stderr : string;
  ExitCode : Z;
  CommandErr : option goerror
}.

Class HostCommandRunner (W : Type) := RunInput_ : string -> list string -> W -> CommandResult * W.

(** The runner's two methods, as steps that always return a [CommandResult]. *)
Definition RunInput {W} `{!HostCommandRunner W} (input : string) (argv : list string) : SE W CommandResult :=
  fun w => let (r, w') := RunInput_ input argv w in (Ok r, w').
Definition Run {W} `{!HostCommandRunner W} (argv : list string) : SE W CommandResult := RunInput "" argv.

(** [result.Err == nil] *)
Definition succeeded (r : CommandResult) : bool := match CommandErr r with None => true | Some _ => false end.

Definition HostArgv (command : list string) : list string :=
  ["nsenter"; "--target"; "1"; "--mount"; "--uts"; "--ipc"; "--net"; "--pid"; "--root"; "--wd=/"; "--"] ++ command.

(** What [os/exec] makes of an argv, an environment and an input: the two
    streams, the error of [Run], and the exit code when that error is an
    [exec.ExitError]. *)
Record ExecOutcome := MkExecOutcome {
  exec_stdout : string;
  exec_stderr : string;
  exec_err : option (goerror * option Z)
}.

Section Production.
Context {W : Type} (exec : list string -> list string -> string -> W -> ExecOutcome * W).

Definition hostCommandRunner_RunInput (hostArgv : list string -> list string) (input : string)
    (argv : list string) : W -> CommandResult * W := fun w =>
  match hostArgv argv with
  | [] => (MkCommandResult "" "" 0 (Some (ErrNew "host command argv is empty")), w)
  | commandArgv =>
      let (o, w') := exec commandArgv HostLauncherEnvironment input w in
      (MkCommandResult (exec_stdout o) (exec_stderr o)
         (match exec_err o with Some (_, Some code) => code | _ => 0%Z end) (fst <$> exec_err o), w')
  end.

Definition NewHostCommandRunner : HostCommandRunner W := hostCommandRunner_RunInput HostArgv.
End Production.

(** Go writes the host's root file system view as a variable the tests replace. *)
Definition hostRootView : string := "/proc/1/root".

Definition hostFilesystemPath (path : string) : result string :=
  if negb (IsAbs path) then Err (ErrNew "host filesystem path must be absolute")
  else
    let clean := Clean path in
    if string_eqb clean "/" then Ok hostRootView
    else Ok (PathJoin [hostRootView; TrimPrefix clean "/"]).

(** ** Lemmas *)

Section Lemmas.
Context {W : Type} `{!HostCommandRunner W}.

Lemma hoare_run (P : W -> Prop) argv (Q : CommandResult -> W -> Prop) E :
  (forall w, P w -> let (r, w') := RunInput_ "" argv w in Q r w') -> hoare P (Run argv) Q E.
Proof. intros H w Hw. specialize (H w Hw). unfold Run, RunInput. by destruct (RunInput_ "" argv w). Qed.

Lemma Run_total argv w : exists r w', Run argv w = (Ok r, w').
Proof. unfold Run, RunInput. destruct (RunInput_ "" argv w) as [r w']. by exists r, w'. Qed.
End Lemmas.

Lemma hostRootView_comps : hostRootView = abs_path ["proc"; "1"; "root"].
Proof. done. Qed.

Lemma hostRootView_good : Forall good_component ["proc"; "1"; "root"].
Proof. repeat constructor; done. Qed.

(** A canonical path keeps its components below the view. *)
Lemma hostFilesystemPath_abs comps :
  Forall good_component comps -> hostFilesystemPath (abs_path comps) = Ok (abs_path (["proc"; "1"; "root"] ++ comps)).
Proof.
  intros Hg. unfold hostFilesystemPath. assert (IsAbs (abs_path comps) = true) as -> by apply HasPrefix_app.
  cbn [negb]. rewrite Clean_abs_path by done.
  destruct (string_eqb (abs_path comps) "/") eqn:Er; str_eqb.
  - change "/" with (abs_path []) in Er. apply abs_path_inj in Er as ->; [done|done|constructor].
  - assert (comps <> []) as Hne by (by intros ->). f_equal.
    unfold abs_path at 1. rewrite TrimPrefix_app. unfold PathJoin.
    assert (Join "/" comps <> "") as Hj.
    { destruct comps as [|c comps]; [done|]. apply Forall_cons in Hg as [(Hc & _) _].
      intros Hj. destruct comps; [done|]. rewrite Join_cons in Hj by done. by apply app_nil_str in Hj as [? _]. }
    rewrite filter_cons_True by done. rewrite filter_cons_True by done. rewrite filter_nil.
    transitivity (Clean (abs_path (["proc"; "1"; "root"] ++ comps))).
    + f_equal. unfold abs_path. rewrite Join_app by done. done.
    + apply Clean_abs_path. repeat (constructor; [done|]). exact Hg.
Qed.

Lemma hostFilesystemPath_clean path :
  IsAbs path = true -> hostFilesystemPath path = hostFilesystemPath (Clean path).
Proof.
  intros Ha. unfold hostFilesystemPath. rewrite Ha, (Clean_idempotent _ Ha).
  by rewrite (Clean_IsAbs _ Ha), (HasPrefix_app "/" _ : IsAbs (abs_path _) = true).
Qed.

(** ** Properties *)

(** The container never looks outside the host's root view: every
    absolute path maps to the view itself or to a canonical path below it that
    keeps the components of the cleaned path, whatever dots the caller wrote. *)
Theorem hostFilesystemPath_inside path :
  match hostFilesystemPath path with
  | Ok p => IsAbs path = true /\
            exists comps, Forall good_component comps /\ Clean path = abs_path comps /\
              p = abs_path (["proc"; "1"; "root"] ++ comps)
  | Err _ => IsAbs path = false
  end.
Proof.
  destruct (IsAbs path) eqn:Ha; [|unfold hostFilesystemPath; by rewrite Ha].
  rewrite (hostFilesystemPath_clean _ Ha), (Clean_IsAbs _ Ha).
  pose proof (clean_components_good path) as Hg. rewrite hostFilesystemPath_abs by done.
  split; [done|]. by eexists.
Qed.
