(* ===== verification/Capabilities.v ===== *)
(** * Host capabilities ([capabilities.go])

    [CapabilityService] probes the host through the command runner and reports,
    in a fixed order, what is available; a report is what the plan compiler
    trusts.  [HostToolPaths] are the exact executables the probe exercised. *)

From S2P Require Import Prelude GoStrings Model HostCommand.

Record HostToolPaths := MkHostToolPaths {
  Tool_Profile : string;
  Tool_Shell : string;
  Tool_Test : string;
  Tool_Readlink : string;
  Tool_Stat : string;
  Tool_Head : string;
  Tool_Find : string;
  Tool_Getent : string;
  Tool_Setpriv : string;
  Tool_Env : string;
  Tool_Mkdir : string;
  Tool_Chown : string;
  Tool_Chmod : string;
  Tool_Mktemp : string;
  Tool_Tee : string;
  Tool_Sync : string;
  Tool_Mv : string;
  Tool_Rm : string;
  Tool_Rmdir : string;
  Tool_Date : string
}.

#[export] Instance HostToolPaths_eq_dec : EqDecision HostToolPaths.
Proof. solve_decision. Defined.

Definition usr_bin_first (name : string) : list string := ["/usr/bin/" +:+ name; "/bin/" +:+ name].

Definition hostToolNames : list string :=
  ["shell"; "test"; "readlink"; "stat"; "head"; "find"; "getent"; "setpriv"; "env"; "mkdir"; "chown"; "chmod";
   "mktemp"; "tee"; "sync"; "mv"; "rm"; "rmdir"; "date"].

(** A map in the source: a name it does not hold has no candidates. *)
Definition hostToolCandidates (name : string) : list string :=
  if string_eqb name "shell" then ["/bin/sh"; "/usr/bin/sh"]
  else if bool_decide (name ∈ hostToolNames) then usr_bin_first name
  else [].

Definition details (t : HostToolPaths) : gmap string string :=
  list_to_map
    [ ("profile", Tool_Profile t); ("shell", Tool_Shell t); ("test", Tool_Test t); ("readlink", Tool_Readlink t);
      ("stat", Tool_Stat t); ("head", Tool_Head t); ("find", Tool_Find t); ("getent", Tool_Getent t);
      ("setpriv", Tool_Setpriv t); ("env", Tool_Env t); ("mkdir", Tool_Mkdir t); ("chown", Tool_Chown t);
      ("chmod", Tool_Chmod t); ("mktemp", Tool_Mktemp t); ("tee", Tool_Tee t); ("sync", Tool_Sync t);
      ("mv", Tool_Mv t); ("rm", Tool_Rm t); ("rmdir", Tool_Rmdir t); ("date", Tool_Date t) ].

Definition availableCapability (code : string) (d : gmap string string) : CapabilityResult :=
  MkCapabilityResult code CapabilityAvailable (code +:+ ".available") d.
Definition unavailableCapability (code : string) : CapabilityResult :=
  MkCapabilityResult code CapabilityUnavailable (code +:+ ".unavailable") {[ "reason" := "probe_failed" ]}.

(** ** Reading a report *)

Definition ByCode (r : CapabilityReport) (code : string) : CapabilityResult :=
  match List.find (fun result => string_eqb (Cap_Code result) code) (Report_Results r) with
  | Some result => result
  | None => unavailableCapability code
  end.

Definition cap_missing (r : CapabilityReport) (code : string) : bool :=
  negb (string_eqb (Cap_Status (ByCode r code)) CapabilityAvailable).

Definition Require_ (r : CapabilityReport) (codes : list string) : result unit :=
  let missing := List.filter (cap_missing r) codes in
  match missing with
  | [] => Ok tt
  | _ => Err (ErrNew ("required capabilities unavailable: " +:+ Join ", " missing))
  end.

Definition tool_path (d : gmap string string) (name : string) : result string :=
  let value := default "" (d !! name) in
  if negb (IsAbs value) || negb (string_eqb (Clean value) value)
  then Err (ErrNew ("host tool path " +:+ name +:+ " is invalid"))
  else Ok value.

Definition profile_ok (profile : string) : bool :=
  string_eqb profile "gnu" || string_eqb profile "busybox" || string_eqb profile "uutils".

Definition HostTools (r : CapabilityReport) : result HostToolPaths :=
  let result := ByCode r CapHostToolchain in
  if negb (string_eqb (Cap_Status result) CapabilityAvailable)
  then Err (ErrNew "host toolchain capability unavailable")
  else
    let tool := tool_path (Cap_Details result) in
    shell ← tool "shell"; test ← tool "test"; readlink ← tool "readlink"; stat ← tool "stat";
    head ← tool "head"; find ← tool "find"; getent ← tool "getent"; setpriv ← tool "setpriv";
    env ← tool "env"; mkdir ← tool "mkdir"; chown ← tool "chown"; chmod ← tool "chmod";
    mktemp ← tool "mktemp"; tee ← tool "tee"; sync ← tool "sync"; mv ← tool "mv"; rm ← tool "rm";
    rmdir ← tool "rmdir"; date ← tool "date";
    let profile := default "" (Cap_Details result !! "profile") in
    if negb (profile_ok profile) then Err (ErrNew "host toolchain profile is invalid")
    else Ok (MkHostToolPaths profile shell test readlink stat head find getent setpriv env mkdir chown chmod
               mktemp tee sync mv rm rmdir date).

(** ** Does a help text document a short option? *)

(** The first loop: a dash followed by the option, not itself after a dash. *)
Fixpoint dash_option (prev : option ascii) (help : string) (option_ : ascii) : bool :=
  match help with
  | String c ((String d _) as rest) =>
      (ascii_eqb c "-" && ascii_eqb d option_ &&
       match prev with None => true | Some p => negb (ascii_eqb p "-") end)
      || dash_option (Some c) rest option_
  | _ => false
  end.

(** The second loop: a bracketed group of options, as in BusyBox's usage line. *)
Fixpoint bracket_option (fuel : nat) (help : string) (option_ : ascii) : bool :=
  match fuel with
  | O => false
  | S fuel =>
      match help with
      | EmptyString => false
      | String c rest =>
          if negb (ascii_eqb c "[") then bracket_option fuel rest option_
          else match Index help "]" with
          | None => bracket_option fuel rest option_
          | Some end_ =>
              let group := take_str (end_ + 1) help in
              if HasPrefix group "[-" && has_byte option_ (drop_str 2 group) then true
              else bracket_option fuel (drop_str (end_ + 1) help) option_
          end
      end
  end.

Definition helpSupportsShortOption (help : string) (option_ : ascii) : bool :=
  dash_option None help option_ || bracket_option (S (String.length help)) help option_.

Record tool_check := MkCheck {
  check_argv : list string;
  check_short : list ascii;
  check_long : list string;
  check_operands : list string
}.

Definition tool_checks (t : HostToolPaths) : list tool_check :=
  [ MkCheck [Tool_Readlink t; "-m"; "--"; "/"] [] [] [];
    MkCheck [Tool_Stat t; "-c"; "%d:%i:%f:%u:%g"; "--"; "/"] [] [] [];
    MkCheck [Tool_Stat t; "-c"; "%f:%u:%g:%a"; "--"; "/"] [] [] [];
    MkCheck [Tool_Head t; "-c"; "2"; "--"; "/proc/version"] [] [] [];
    MkCheck [Tool_Find t; "/"; "-mindepth"; "1"; "-maxdepth"; "1"; "-print"; "-quit"] [] [] [];
    MkCheck [Tool_Getent t; "passwd"; "0"] [] [] [];
    MkCheck [Tool_Getent t; "group"; "0"] [] [] [];
    MkCheck [Tool_Env t; "-i"; "--"; "PATH=" +:+ hostLauncherPATH; "/bin/true"] [] [] [];
    MkCheck [Tool_Setpriv t; "--help"] [] ["--reuid"; "--regid"; "--init-groups"; "--reset-env"] [];
    MkCheck [Tool_Mkdir t; "--help"] [] [] ["DIRECTORY"];
    MkCheck [Tool_Mktemp t; "--help"] [] [] ["TEMPLATE"];
    MkCheck [Tool_Tee t; "--help"] [] [] ["FILE"];
    MkCheck [Tool_Sync t; "--help"] ["f"%char] [] ["FILE"];
    MkCheck [Tool_Mv t; "--help"] ["T"%char; "f"%char] [] ["SOURCE"; "DEST"];
    MkCheck [Tool_Chown t; "--help"] [] [] ["OWNER"; "FILE"];
    MkCheck [Tool_Chmod t; "--help"] [] [] ["MODE"; "FILE"];
    MkCheck [Tool_Rm t; "--help"] ["f"%char] [] ["FILE"];
    MkCheck [Tool_Rmdir t; "--help"] [] [] ["DIRECTORY"];
    MkCheck [Tool_Date t; "-u"; "+%Y%m%d-%H%M%S"] [] [] [] ].

Definition check_name (c : tool_check) : string := Base (List.hd "" (check_argv c)).

(** What one check demands of the output. *)
Definition check_help (c : tool_check) (help : string) : result unit :=
  match List.find (fun o => negb (helpSupportsShortOption help o)) (check_short c) with
  | Some o => Err (ErrNew ("host tool option unsupported: " +:+ check_name c +:+ " -" +:+ str1 o))
  | None =>
      match List.find (fun o => negb (Contains help o)) (check_long c) with
      | Some o => Err (ErrNew ("host tool option unsupported: " +:+ check_name c +:+ " " +:+ o))
      | None =>
          match List.find (fun o => negb (Contains help o)) (check_operands c) with
          | Some o => Err (ErrNew ("host tool operand unsupported: " +:+ check_name c +:+ " " +:+ o))
          | None => Ok tt
          end
      end
  end.

Section Service.
Context {W : Type} `{!HostCommandRunner W}.

(** The first candidate whose probe command succeeds. *)
Fixpoint first_candidate (probe_argv : string -> list string) (candidates : list string) : SE W (option string) :=
  match candidates with
  | [] => mret None
  | candidate :: candidates =>
      r ← Run (probe_argv candidate);
      if succeeded r then mret (Some candidate) else first_candidate probe_argv candidates
  end.

Definition resolve (testPath name : string) : SE W string :=
  found ← first_candidate (fun candidate => [testPath; "-x"; candidate]) (hostToolCandidates name);
  match found with
  | Some candidate => mret candidate
  | None => lift (Err (ErrNew ("host tool " +:+ name +:+ " unavailable")))
  end.

Definition stat_profile (stat : string) : SE W string :=
  profileResult ← Run [stat; "--help"];
  if negb (succeeded profileResult) then lift (Err (ErrNew "host stat help unavailable"))
  else
    let profileHelp := Stdout profileResult +:+ Stderr profileResult in
    if Contains profileHelp "BusyBox" then mret "busybox"
    else if Contains profileHelp "GNU coreutils" then mret "gnu"
    else
      version ← Run [stat; "--version"];
      if succeeded version && Contains (Stdout version) "uutils coreutils" then mret "uutils"
      else lift (Err (ErrNew "host toolchain profile unsupported")).

Definition discoverHostTools : SE W HostToolPaths :=
  testPath ← first_candidate (fun candidate => [candidate; "-d"; "/"]) (hostToolCandidates "test");
  match testPath with
  | None => lift (Err (ErrNew "host test utility unavailable"))
  | Some testPath =>
      shell ← resolve testPath "shell"; readlink ← resolve testPath "readlink"; stat ← resolve testPath "stat";
      head ← resolve testPath "head"; find ← resolve testPath "find"; getent ← resolve testPath "getent";
      setpriv ← resolve testPath "setpriv"; env ← resolve testPath "env"; mkdir ← resolve testPath "mkdir";
      chown ← resolve testPath "chown"; chmod ← resolve testPath "chmod"; mktemp ← resolve testPath "mktemp";
      tee ← resolve testPath "tee"; sync ← resolve testPath "sync"; mv ← resolve testPath "mv";
      rm ← resolve testPath "rm"; rmdir ← resolve testPath "rmdir"; date ← resolve testPath "date";
      profile ← stat_profile stat;
      mret (MkHostToolPaths profile shell testPath readlink stat head find getent setpriv env mkdir chown chmod
              mktemp tee sync mv rm rmdir date)
  end.

Fixpoint run_checks (checks : list tool_check) : SE W unit :=
  match checks with
  | [] => mret tt
  | check :: checks =>
      r ← Run (check_argv check);
      if negb (succeeded r) then lift (Err (ErrNew ("host tool semantics unsupported: " +:+ check_name check)))
      else
        _ ← lift (check_help check (Stdout r +:+ Stderr r));
        run_checks checks
  end.

Definition exerciseHostTools (t : HostToolPaths) : SE W unit := run_checks (tool_checks t).

Definition probeHostToolchain : SE W CapabilityResult :=
  r ← attempt (t ← discoverHostTools; _ ← exerciseHostTools t; mret t);
  match r with
  | Err _ => mret (unavailableCapability CapHostToolchain)
  | Ok t => mret (availableCapability CapHostToolchain (details t))
  end.

Definition probe (code : string) (argv : list string) (d : gmap string string) : SE W CapabilityResult :=
  r ← Run argv;
  mret (if succeeded r then availableCapability code d else unavailableCapability code).

Definition probeBoundingSet : SE W CapabilityResult :=
  r ← Run ["/usr/bin/env"; "grep"; "^CapBnd:"; "/proc/self/status"];
  mret (if negb (succeeded r) || negb (HasPrefix (Stdout r) "CapBnd:")
        then unavailableCapability CapCapabilityBounding
        else availableCapability CapCapabilityBounding {[ "boundingSet" := "present" ]}).

Definition probeCron : SE W CapabilityResult :=
  vixie ← Run ["/usr/bin/test"; "-x"; "/usr/sbin/cron"];
  if succeeded vixie then mret (availableCapability CapCron {[ "implementation" := "vixie" ]})
  else
    busybox ← Run ["/usr/bin/env"; "crond"; "--help"];
    if succeeded busybox && Contains (Stdout busybox) "BusyBox"
    then mret (availableCapability CapCron {[ "implementation" := "busybox" ]})
    else
      cronie ← Run ["/usr/bin/env"; "crond"; "-V"];
      mret (if succeeded cronie then availableCapability CapCron {[ "implementation" := "cronie" ]}
            else unavailableCapability CapCron).

Definition Probe : SE W CapabilityReport :=
  toolchain ← probeHostToolchain;
  r1 ← probe CapHostNamespace ["/usr/bin/env"; "true"] ∅;
  r2 ← probe CapHostPID1 ["/usr/bin/test"; "-d"; "/proc/1"] ∅;
  r3 ← probe CapHostHostname ["/usr/bin/env"; "hostname"] {[ "hostname" := "present" ]};
  r4 ← probe CapHostRoot ["/usr/bin/env"; "stat"; "-c"; "%d"; "/"] {[ "rootDevice" := "present" ]};
  r5 ← probeBoundingSet;
  r6 ← probe CapIdentityDrop ["/usr/bin/env"; "setpriv"; "--version"] ∅;
  r7 ← probe CapAccountLookup ["/usr/bin/env"; "getent"; "--version"] ∅;
  r8 ← probe CapShell ["/bin/sh"; "-n"] ∅;
  r9 ← probe CapSystemd ["/usr/bin/env"; "systemctl"; "--version"] ∅;
  r10 ← probe CapJournald ["/usr/bin/env"; "journalctl"; "--version"] ∅;
  r11 ← probeCron;
  r12 ← probe CapRsync ["/usr/bin/env"; "rsync"; "--version"] ∅;
  r13 ← probe CapRclone ["/usr/bin/env"; "rclone"; "version"] ∅;
  r14 ← probe CapSignalControl ["/bin/kill"; "-0"; "1"] ∅;
  mret (MkCapabilityReport [r1; r2; r3; r4; r5; r6; r7; r8; r9; r10; r11; r12; r13; r14; toolchain]).
End Service.

(** ** Lemmas *)

Definition tool_list (t : HostToolPaths) : list string :=
  [Tool_Shell t; Tool_Test t; Tool_Readlink t; Tool_Stat t; Tool_Head t; Tool_Find t; Tool_Getent t;
   Tool_Setpriv t; Tool_Env t; Tool_Mkdir t; Tool_Chown t; Tool_Chmod t; Tool_Mktemp t; Tool_Tee t; Tool_Sync t;
   Tool_Mv t; Tool_Rm t; Tool_Rmdir t; Tool_Date t].

Definition canonical (p : string) : Prop := IsAbs p = true /\ Clean p = p.

(** Tools a report can carry: a known profile and canonical absolute paths. *)
Definition tools_ok (t : HostToolPaths) : Prop :=
  profile_ok (Tool_Profile t) = true /\ Forall canonical (tool_list t).

(** Tools the probe can find: every path is one of the tool's candidates. *)
Definition tools_known (t : HostToolPaths) : Prop :=
  profile_ok (Tool_Profile t) = true /\
  Forall2 (fun p name => p ∈ hostToolCandidates name) (tool_list t) hostToolNames.

Lemma tool_path_Ok d name p : tool_path d name = Ok p <-> default "" (d !! name) = p /\ canonical p.
Proof.
  unfold tool_path, canonical. destruct (IsAbs _) eqn:Ha; simpl.
  - destruct (string_eqb _ _) eqn:Ec; str_eqb; simpl; naive_solver congruence.
  - split; [done|]. intros [<- [Hc _]]. by rewrite Ha in Hc.
Qed.

Lemma candidates_canonical name p : p ∈ hostToolCandidates name -> canonical p.
Proof.
  unfold hostToolCandidates. intros Hp. destruct (string_eqb name "shell").
  { rewrite !elem_of_cons, elem_of_nil in Hp. destruct Hp as [->|[->|[]]]; by split. }
  destruct (bool_decide _) eqn:E; bool_simpl; [|by apply elem_of_nil in Hp].
  unfold usr_bin_first in Hp. rewrite !elem_of_cons, elem_of_nil in Hp.
  assert (Forall (fun n => canonical ("/usr/bin/" +:+ n) /\ canonical ("/bin/" +:+ n)) hostToolNames) as Hall
    by (repeat constructor).
  rewrite Forall_forall in Hall. destruct (Hall _ E). by destruct Hp as [->|[->|[]]].
Qed.

Lemma tools_known_ok t : tools_known t -> tools_ok t.
Proof.
  intros [Hp Hk]. split; [done|]. revert Hk. generalize (tool_list t), hostToolNames.
  induction 1 as [|p n ps ns Hpn _ IH]; constructor; [by eapply candidates_canonical|done].
Qed.

Lemma HostTools_inv r t :
  HostTools r = Ok t ->
  tools_ok t /\ Cap_Status (ByCode r CapHostToolchain) = CapabilityAvailable /\
  Forall2 (fun p name => default "" (Cap_Details (ByCode r CapHostToolchain) !! name) = p)
    (tool_list t) hostToolNames.
Proof.
  unfold HostTools. case_goal; [done|]. bool_simpl. str_eqb. intros H. res_inv. bool_simpl.
  repeat match goal with H : tool_path _ _ = Ok _ |- _ => apply tool_path_Ok in H as [? ?] end.
  unfold tools_ok, tool_list, hostToolNames. simpl. split_and!; [done| |done|];
    repeat (constructor; [assumption|]); constructor.
Qed.

Definition details_list (t : HostToolPaths) : list (string * string) :=
  ("profile", Tool_Profile t) :: zip hostToolNames (tool_list t).

Lemma details_lookup t name p : (name, p) ∈ details_list t -> details t !! name = Some p.
Proof.
  intros Hin. unfold details.
  apply (elem_of_list_to_map_1 (M := gmap string)); [|exact Hin].
  apply (bool_decide_unpack _). vm_compute. exact I.
Qed.

Lemma tool_path_details t : tools_ok t ->
  Forall (fun np => tool_path (details t) np.1 = Ok np.2) (zip hostToolNames (tool_list t)).
Proof.
  intros [_ Ht]. apply Forall_forall. intros [name p] Hin. simpl. apply tool_path_Ok.
  rewrite (details_lookup t name p) by (by right). split; [done|].
  rewrite Forall_forall in Ht. apply Ht. by eapply elem_of_zip_r.
Qed.

Lemma HostTools_details r t :
  tools_ok t -> ByCode r CapHostToolchain = availableCapability CapHostToolchain (details t) -> HostTools r = Ok t.
Proof.
  intros Hok Hr. pose proof (tool_path_details t Hok) as Ht. destruct Hok as [Hp _].
  unfold HostTools. rewrite Hr. cbv zeta. cbn [Cap_Status Cap_Details availableCapability].
  rewrite string_eqb_refl. cbn [negb].
  unfold hostToolNames, tool_list in Ht. simpl zip in Ht.
  repeat match type of Ht with
  | Forall _ (_ :: _) =>
      let H := fresh "H" in apply Forall_cons in Ht as [H Ht]; cbn [fst snd] in H; rewrite H; clear H;
      cbn [mbind result_bind]
  end.
  rewrite (details_lookup t "profile" (Tool_Profile t)) by (by left). simpl default. rewrite Hp. by destruct t.
Qed.

Lemma Require_missing r codes :
  match Require_ r codes with
  | Ok _ => Forall (fun c => Cap_Status (ByCode r c) = CapabilityAvailable) codes
  | Err e => List.filter (cap_missing r) codes <> [] /\
      error_text e = "required capabilities unavailable: " +:+ Join ", " (List.filter (cap_missing r) codes)
  end.
Proof.
  unfold Require_. destruct (List.filter (cap_missing r) codes) as [|c l] eqn:E; [|done].
  apply Forall_forall. intros c Hc. destruct (cap_missing r c) eqn:Em.
  - assert (In c (List.filter (cap_missing r) codes)) as Hin
      by (apply filter_In; split; [by apply list_elem_of_In|done]). by rewrite E in Hin.
  - unfold cap_missing in Em. bool_simpl. by str_eqb.
Qed.

(** ** Properties *)

(** [Require] succeeds exactly when every requested capability is available,
    and otherwise its error names exactly the missing ones, in order. *)
Theorem Require_spec r codes :
  let missing := List.filter (fun c => negb (string_eqb (Cap_Status (ByCode r c)) CapabilityAvailable)) codes in
  match Require_ r codes with
  | Ok _ => Forall (fun c => Cap_Status (ByCode r c) = CapabilityAvailable) codes
  | Err e => missing <> [] /\ error_text e = "required capabilities unavailable: " +:+ Join ", " missing
  end.
Proof. exact (Require_missing r codes). Qed.

(** ** What any probe of any host reports *)

Definition capability_codes : list string :=
  [CapHostNamespace; CapHostPID1; CapHostHostname; CapHostRoot; CapCapabilityBounding; CapIdentityDrop;
   CapAccountLookup; CapShell; CapSystemd; CapJournald; CapCron; CapRsync; CapRclone; CapSignalControl;
   CapHostToolchain].

(** The only texts a report may contain: constants, and candidate tool paths. *)
Definition public_values : list string :=
  ["present"; "probe_failed"; "vixie"; "busybox"; "cronie"; "gnu"; "uutils"] ++ concat (map hostToolCandidates hostToolNames).

Definition public_details (d : gmap string string) : Prop := map_Forall (fun _ v => v ∈ public_values) d.

Definition result_fine (code : string) (r : CapabilityResult) : Prop :=
  Cap_Code r = code /\ public_details (Cap_Details r) /\
  (Cap_Status r = CapabilityAvailable \/ Cap_Status r = CapabilityUnavailable).

Lemma available_fine code d : public_details d -> result_fine code (availableCapability code d).
Proof. intros H. split_and!; auto. Qed.

Lemma unavailable_fine code : result_fine code (unavailableCapability code).
Proof.
  split_and!; [done| |by right]. apply map_Forall_singleton. apply (bool_decide_unpack _). vm_compute. exact I.
Qed.

Lemma singleton_public k v : bool_decide (v ∈ public_values) = true -> public_details {[ k := v ]}.
Proof. intros H. apply map_Forall_singleton. by apply bool_decide_eq_true in H. Qed.

#[export] Hint Resolve available_fine unavailable_fine : gores.

Section ProbeFacts.
Context {W : Type} `{!HostCommandRunner W}.

(** A computation that never fails and whose result satisfies [Q]. *)
Definition always {A} (m : SE W A) (Q : A -> Prop) : Prop := forall w, exists a w', m w = (Ok a, w') /\ Q a.

Lemma always_ret {A} (a : A) Q : Q a -> always (mret a) Q.
Proof. intros H w. by exists a, w. Qed.

Lemma always_bind {A B} (m : SE W A) (f : A -> SE W B) R Q :
  always m R -> (forall a, R a -> always (f a) Q) -> always (x ← m; f x) Q.
Proof.
  intros Hm Hf w. destruct (Hm w) as (a & w1 & E & Ha). rewrite SE_bind_unfold, E. by apply Hf.
Qed.

Lemma always_run argv : always (Run argv) (fun _ => True).
Proof. intros w. destruct (Run_total argv w) as (r & w' & E). by exists r, w'. Qed.

Lemma probe_fine code argv d : public_details d -> always (probe code argv d) (result_fine code).
Proof.
  intros Hd. eapply always_bind; [apply always_run|]. intros r _. apply always_ret.
  case_goal; auto with gores.
Qed.

Lemma probeBoundingSet_fine : always probeBoundingSet (result_fine CapCapabilityBounding).
Proof.
  eapply always_bind; [apply always_run|]. intros r _. apply always_ret.
  case_goal; [auto with gores|]. apply available_fine, singleton_public. done.
Qed.

Lemma probeCron_fine : always probeCron (result_fine CapCron).
Proof.
  eapply always_bind; [apply always_run|]. intros r _.
  case_goal; [by apply always_ret, available_fine, singleton_public|].
  eapply always_bind; [apply always_run|]. intros r2 _.
  case_goal; [by apply always_ret, available_fine, singleton_public|].
  eapply always_bind; [apply always_run|]. intros r3 _. apply always_ret.
  case_goal; [by apply available_fine, singleton_public|auto with gores].
Qed.

Lemma first_candidate_in argv l w r w' : first_candidate argv l w = (Ok (Some r), w') -> r ∈ l.
Proof.
  revert w. induction l as [|c l IH]; intros w; simpl; [done|].
  intros H. se_inv. destruct (succeeded _) in *; se_inv; [by left|]. right. by eapply IH.
Qed.

Lemma resolve_in t name w p w' : resolve t name w = (Ok p, w') -> p ∈ hostToolCandidates name.
Proof.
  unfold resolve. intros H. se_inv. destruct x as [c|]; se_inv. by eapply first_candidate_in.
Qed.

Lemma stat_profile_ok stat w p w' : stat_profile stat w = (Ok p, w') -> profile_ok p = true.
Proof.
  unfold stat_profile. intros H. se_inv. destruct (negb _); se_inv.
  destruct (Contains _ _); se_inv; [done|]. destruct (Contains _ _); se_inv; [done|].
  destruct (_ && _); se_inv; done.
Qed.

Lemma discoverHostTools_known w t w' : discoverHostTools w = (Ok t, w') -> tools_known t.
Proof.
  unfold discoverHostTools. intros H. se_inv. destruct x as [test|]; se_inv.
  repeat match goal with H : resolve _ _ _ = (Ok _, _) |- _ => apply resolve_in in H end.
  match goal with H : first_candidate _ _ _ = _ |- _ => apply first_candidate_in in H end.
  match goal with H : stat_profile _ _ = _ |- _ => apply stat_profile_ok in H end.
  split; [done|]. unfold tool_list, hostToolNames. simpl. repeat (constructor; [assumption|]). constructor.
Qed.

Lemma tools_known_public t : tools_known t -> public_details (details t).
Proof.
  intros [Hp Hk] name v Hv. unfold details in Hv. apply elem_of_list_to_map_2 in Hv.
  change ((name, v) ∈ details_list t) in Hv. unfold public_values.
  apply elem_of_cons in Hv as [[= -> ->]|Hv].
  - apply elem_of_app. left. unfold profile_ok in Hp.
    apply orb_true_iff in Hp as [Hp|Hp]; [apply orb_true_iff in Hp as [Hp|Hp]|];
      apply string_eqb_true in Hp; rewrite Hp; apply (bool_decide_unpack _); vm_compute; exact I.
  - apply elem_of_app. right. apply Forall2_flip in Hk. revert Hk Hv. generalize (tool_list t). generalize hostToolNames.
    induction 1 as [|n p ns ps Hpn _ IH]; simpl; [by intros ?%elem_of_nil|].
    intros [[= -> ->]|Hv]%elem_of_cons; apply elem_of_app; [by left|right; by apply IH].
Qed.

Lemma probeHostToolchain_fine :
  always probeHostToolchain (fun r => result_fine CapHostToolchain r /\
    (Cap_Status r = CapabilityAvailable -> exists t, tools_known t /\ r = availableCapability CapHostToolchain (details t))).
Proof.
  intros w. unfold probeHostToolchain. rewrite SE_bind_unfold. unfold attempt.
  destruct ((t ← discoverHostTools; _ ← exerciseHostTools t; mret t) w) as [[t|e] w'] eqn:E.
  - se_inv. apply discoverHostTools_known in H. eexists _, _. split; [done|]. split.
    + by apply available_fine, tools_known_public.
    + intros _. by exists t.
  - eexists _, _. split; [done|]. split; [auto with gores|done].
Qed.
End ProbeFacts.

(** Probing any host, whatever its commands answer, never fails; it reports
    the fifteen capabilities in the fixed order, only as available or
    unavailable; no text of a host command reaches the report; and when the
    toolchain is reported available, [HostTools] reads back the probed tools,
    each one of the source's candidate paths. *)
Theorem Probe_spec {W : Type} `{!HostCommandRunner W} (w : W) :
  exists report w', Probe w = (Ok report, w') /\
    map Cap_Code (Report_Results report) = capability_codes /\
    Forall (fun r => public_details (Cap_Details r) /\
      (Cap_Status r = CapabilityAvailable \/ Cap_Status r = CapabilityUnavailable)) (Report_Results report) /\
    match HostTools report with
    | Ok t => tools_known t
    | Err _ => Cap_Status (ByCode report CapHostToolchain) = CapabilityUnavailable
    end.
Proof.
  revert w. change (always Probe (fun report =>
    map Cap_Code (Report_Results report) = capability_codes /\
    Forall (fun r => public_details (Cap_Details r) /\
      (Cap_Status r = CapabilityAvailable \/ Cap_Status r = CapabilityUnavailable)) (Report_Results report) /\
    match HostTools report with
    | Ok t => tools_known t
    | Err _ => Cap_Status (ByCode report CapHostToolchain) = CapabilityUnavailable
    end)).
  eapply always_bind; [apply probeHostToolchain_fine|]. intros tc [Htc Hknown].
  pose proof (proj2 (proj2 Htc)) as Hst.
  do 4 (eapply always_bind; [by apply probe_fine; first [apply map_Forall_empty|apply singleton_public]|intros ? ?]).
  eapply always_bind; [apply probeBoundingSet_fine|intros ? ?].
  do 5 (eapply always_bind; [by apply probe_fine; first [apply map_Forall_empty|apply singleton_public]|intros ? ?]).
  eapply always_bind; [apply probeCron_fine|intros ? ?].
  do 3 (eapply always_bind; [by apply probe_fine; first [apply map_Forall_empty|apply singleton_public]|intros ? ?]).
  apply always_ret.
  repeat match goal with H : result_fine _ _ |- _ => destruct H as (? & ? & ?) end. simpl.
  split; [unfold capability_codes; congruence|]. split; [repeat (constructor; [done|]); constructor|].
  set (report := MkCapabilityReport _).
  assert (ByCode report CapHostToolchain = tc) as Hby.
  { unfold ByCode, report. simpl.
    repeat match goal with H : Cap_Code ?a = _ |- context [string_eqb (Cap_Code ?a) _] => rewrite H end.
    vm_compute string_eqb. done. }
  destruct (HostTools report) as [t|e] eqn:Eh.
  - pose proof (HostTools_inv _ _ Eh) as (_ & Hs & _). rewrite Hby in Hs.
    destruct (Hknown Hs) as (t' & Ht' & Hr). rewrite Hr in Hby.
    rewrite (HostTools_details report t' (tools_known_ok _ Ht') Hby) in Eh. injection Eh as <-. exact Ht'.
  - rewrite Hby.
    destruct (string_eqb (Cap_Status tc) CapabilityAvailable) eqn:Es; str_eqb; [|by destruct Hst].
    destruct (Hknown Es) as (t' & Ht' & Hr). exfalso.
    rewrite Hr in Hby. rewrite (HostTools_details report t' (tools_known_ok _ Ht') Hby) in Eh. discriminate Eh.
Qed.
