(* ===== verification/ExecutionPlan.v ===== *)
(** * Compiling a job into an execution plan ([execution_plan.go])

    [Compile] turns an immutable job snapshot and a run request into an
    [ExecutionPlan]: argv and environment as separate words, a verified
    identity, bounded timeouts and a managed wrapper path.  The facts about the
    host come from the interface [HostInspector]; [runnerHostInspector] is the
    implementation that asks the host's own tools. *)

From S2P Require Import Prelude GoStrings Model HostCommand Capabilities.

(** ** Constants and patterns *)

Definition second : Z := 1000000000.
Definition defaultExecutionTimeout : Z := 3600 * second.
Definition maxExecutionTimeout : Z := 7 * 24 * 3600 * second.
Definition defaultStopGrace : Z := 10 * second.
Definition maxStopGrace : Z := 5 * 60 * second.
Definition defaultUmask : Z := 18.   (* 0o022 *)
Definition jobExecutionPATH : string := "/usr/local/sbin:/usr/local/bin:/usr/sbin:/usr/bin:/sbin:/bin".

Definition char_in (set : string) (c : ascii) : bool := has_byte c set.

(** [^first rest*$] *)
Definition match_name (first rest : ascii -> bool) (s : string) : bool :=
  match s with EmptyString => false | String c r => first c && string_forallb rest r end.

Definition environmentNamePattern : string -> bool :=
  match_name (fun c => is_alpha c || char_in "_" c) (fun c => is_alnum c || char_in "_" c).
(** The optional final dollar is stripped before the body is matched. *)
Definition accountNamePattern (s : string) : bool :=
  match_name (fun c => is_alpha c || char_in "_" c) (fun c => is_alnum c || char_in "_.-" c) (TrimSuffix s "$").
Definition runIDPattern (s : string) : bool :=
  match_name is_alnum (fun c => is_alnum c || char_in "_.:-" c) s && (String.length s <=? 128)%nat.
Definition instanceIDPattern (s : string) : bool :=
  match_name is_alnum (fun c => is_alnum c || char_in "_-" c) s && (String.length s <=? 64)%nat.

(** [[0-9]*]: what is left after the leading digits. *)
Fixpoint skip_digits (s : string) : string :=
  match s with String c r => if is_digit c then skip_digits r else s | EmptyString => EmptyString end.
(** [[0-9]+] *)
Definition digits1 (s : string) : option string :=
  match s with String c r => if is_digit c then Some (skip_digits r) else None | EmptyString => None end.

(** Under [(?i)], [k] also matches the Kelvin sign U+212A (bytes E2 84 AA). *)
Definition kelvin : string :=
  String (Ascii.ascii_of_nat 226) (String (Ascii.ascii_of_nat 132) (str1 (Ascii.ascii_of_nat 170))).

Definition skip_unit (s : string) : string :=
  match s with
  | String c r => if char_in "kmgtpeKMGTPE" c then r else if HasPrefix s kelvin then drop_str 3 s else s
  | EmptyString => EmptyString
  end.

Definition bandwidthLimitPattern (s : string) : bool :=
  match digits1 s with
  | None => false
  | Some r =>
      match (match r with
             | String c r' => if ascii_eqb c "." then digits1 r' else Some r
             | EmptyString => Some r
             end) with
      | None => false
      | Some r => bool_decide (skip_unit r ∈ [""; "b"; "B"; "ib"; "iB"; "Ib"; "IB"])
      end
  end.

(** ** Data *)

Definition RunOriginManual : string := "manual".
Definition RunOriginCron : string := "cron".
Definition RunOriginWatch : string := "watch".
Definition RunOriginSystem : string := "system".

(** Times are instants as [Z], 0 for the zero [time.Time]. *)
Record RunRequest := MkRunRequest {
  Request_RunID : string;
  Request_JobID : Z;
  Request_Revision : Z;
  Request_Origin : string;
  Request_DryRun : bool;
  Request_RequestedAt : Z
}.

Record ExecutionPlan := MkExecutionPlan {
  Plan_RunID : string;
  Plan_JobID : Z;
  Plan_Revision : Z;
  Plan_Origin : string;
  Plan_DryRun : bool;
  Plan_RequestedAt : Z;
  Plan_ActionType : string;
  Plan_Command : string;
  Plan_SyncEngine : string;
  Plan_SyncMode : string;
  Plan_Sync : SyncAction;
  Plan_Argv : list string;
  Plan_Identity : Identity;
  Plan_Environment : list string;
  Plan_WorkingDirectory : string;
  Plan_Umask : Z;
  Plan_Timeout : Z;
  Plan_StopGrace : Z;
  Plan_WrapperPath : string;
  Plan_SourcePath : string;
  Plan_DestinationPath : string;
  Plan_NonEmptySourceDir : string;
  Plan_HostTools : HostToolPaths;
  Plan_LauncherEnvironment : list string
}.

Record HostPathInfo := MkHostPathInfo {
  Info_CanonicalPath : string;
  Info_Exists : bool;
  Info_Regular : bool;
  Info_Directory : bool;
  Info_Executable : bool;
  Info_HasShebang : bool;
  Info_Empty : bool;
  Info_UID : Z;
  Info_GID : Z
}.

Record HostUser := MkHostUser {
  User_Name : string; User_UID : Z; User_GID : Z; User_Home : string; User_Shell : string
}.
Record HostGroup := MkHostGroup { Group_Name : string; Group_GID : Z }.

Class HostInspector (W : Type) := {
  InspectPath : string -> SE W HostPathInfo;
  LookupUser : string -> SE W HostUser;
  LookupGroup : string -> SE W HostGroup
}.

(** [c == nil] is [None]; [c.inspector == nil] is [compiler_hasInspector = false]. *)
Record PlanCompiler := MkPlanCompiler {
  compiler_instanceID : string;
  compiler_capabilities : CapabilityReport;
  compiler_hasInspector : bool
}.
Definition NewPlanCompiler (instanceID : string) (capabilities : CapabilityReport) : PlanCompiler :=
  MkPlanCompiler instanceID capabilities true.

(** ** Pure validation *)

(** [strings.IndexFunc] on control runes: a rune below 0x80 is one byte, and no
    byte of a longer rune is below 0x80, so looking at bytes is the same. *)
Definition has_control (s : string) : bool :=
  negb (string_forallb (fun c => negb ((byte_val c <? 32) || (byte_val c =? 127))%Z) s).

Definition validateAbsoluteCanonicalPath (value : string) : result unit :=
  _ ← fail_if (string_eqb value "" || negb (IsAbs value) || negb (string_eqb (Clean value) value))
        (ErrNew "path must be absolute and lexically canonical");
  fail_if (has_byte nul value || has_control value) (ErrNew "path contains control characters").

Definition pathWithin (parent candidate : string) : bool :=
  if string_eqb parent "/" then negb (string_eqb candidate "/")
  else HasPrefix candidate (parent +:+ "/").

Definition directoryArg (value : string) : string :=
  if string_eqb value "/" || HasSuffix value "/" then value else value +:+ "/".

Definition validateArgv (argv : list string) : result unit :=
  match argv with
  | [] => Err (ErrNew "action argv is empty")
  | arg0 :: _ =>
      if string_eqb arg0 "" then Err (ErrNew "action argv is empty")
      else fail_if (existsb (has_byte nul) argv) (ErrNew "action argv contains a NUL byte")
  end.

(** [main.go] *)
Definition splitCSV (s : string) : list string :=
  List.filter (fun p => negb (string_eqb p "")) (map TrimSpace (Split "," s)).

Definition has_exclude_control (s : string) : bool :=
  negb (string_forallb (fun c => negb ((byte_val c <? 32) && negb (byte_val c =? 9))%Z) s).

Definition validateSyncActionOptions (a : SyncAction) : result unit :=
  _ ← fail_if (negb (string_eqb (Sync_Engine a) "rsync") && negb (string_eqb (Sync_Engine a) "rclone"))
        (ErrNew "sync engine must be rsync or rclone");
  _ ← fail_if (negb (string_eqb (Sync_Mode a) "add") && negb (string_eqb (Sync_Mode a) "mirror") &&
               negb (string_eqb (Sync_Mode a) "move"))
        (ErrNew "sync mode must be add, mirror, or move");
  _ ← fail_if (negb (string_eqb (Sync_Compare a) "") && negb (string_eqb (Sync_Compare a) "time") &&
               negb (string_eqb (Sync_Compare a) "checksum"))
        (ErrNew "sync compare must be time or checksum");
  _ ← fail_if (negb (string_eqb (Sync_Bwlimit a) "") && negb (bandwidthLimitPattern (Sync_Bwlimit a)))
        (ErrNew "sync bandwidth limit is invalid");
  _ ← fail_if (Sync_BackupKeep a <? 0)%Z (ErrNew "sync backup retention must be non-negative");
  _ ← fail_if ((Sync_BackupKeep a >? 0)%Z && negb (Sync_Backup a))
        (ErrNew "sync backup retention requires backup");
  _ ← fail_if (Sync_MaxDel a <? 0)%Z (ErrNew "sync max-delete must be non-negative");
  _ ← fail_if ((Sync_MaxDel a >? 0)%Z && negb (string_eqb (Sync_Mode a) "mirror"))
        (ErrNew "sync max-delete is valid only in mirror mode");
  _ ← fail_if (Sync_SysBackup a && negb (string_eqb (Sync_Engine a) "rsync"))
        (ErrNew "system backup is supported only by rsync");
  _ ← fail_if (has_byte nul (Sync_Exclude a) || has_exclude_control (Sync_Exclude a))
        (ErrNew "sync exclude contains control characters");
  fail_if (existsb (fun pattern => HasPrefix pattern "-") (splitCSV (Sync_Exclude a)))
    (ErrNew "sync exclude patterns may not start with a dash").

Definition syncBackupDirToken : string := "__SYNCBRIDGE_BACKUP_DIR__".

(** [if b { argv = append(argv, args...) }] *)
Definition when (b : bool) (args : list string) : list string := if b then args else [].

Definition exclude_args (patterns : list string) : list string :=
  concat (map (fun pattern => ["--exclude"; pattern]) patterns).

Definition sync_bwlimit (a : SyncAction) : string := TrimSuffix (TrimSuffix (Sync_Bwlimit a) "B") "b".

Definition rsync_argv (a : SyncAction) (dryRun : bool) : list string :=
  ["rsync"; "-a"; "--info=progress2,stats2"; "--human-readable"] ++
  when (Sync_SysBackup a) ["-HAX"; "--numeric-ids"; "--fake-super"] ++
  (if string_eqb (Sync_Mode a) "mirror" then ["--delete"]
   else if string_eqb (Sync_Mode a) "move" then ["--remove-source-files"] else []) ++
  when (string_eqb (Sync_Compare a) "checksum") ["--checksum"] ++
  when (negb (string_eqb (sync_bwlimit a) "")) ["--bwlimit"; sync_bwlimit a] ++
  when (Sync_Backup a) ["--backup"; "--backup-dir"; syncBackupDirToken; "--exclude"; ".sb-backup"] ++
  when (Sync_MaxDel a >? 0)%Z ["--max-delete"; Itoa (Sync_MaxDel a)] ++
  when (Sync_SkipNew a) ["--update"] ++
  exclude_args (splitCSV (Sync_Exclude a)) ++
  when dryRun ["--dry-run"; "--itemize-changes"] ++
  ["--"; directoryArg (Sync_Source a); directoryArg (Sync_Dest a)].

(** A mode the map does not hold gives the empty verb. *)
Definition rclone_verb (mode : string) : string :=
  if string_eqb mode "add" then "copy" else if string_eqb mode "mirror" then "sync"
  else if string_eqb mode "move" then "move" else "".

Definition rclone_argv (a : SyncAction) (dryRun : bool) : list string :=
  ["rclone"; rclone_verb (Sync_Mode a); Sync_Source a; Sync_Dest a; "--progress"; "--stats=1s"; "--stats-one-line"] ++
  when (string_eqb (Sync_Compare a) "checksum") ["--checksum"] ++
  when (negb (string_eqb (sync_bwlimit a) "")) ["--bwlimit"; sync_bwlimit a] ++
  when (Sync_Backup a) ["--backup-dir"; syncBackupDirToken; "--exclude"; ".sb-backup/**"] ++
  when (Sync_MaxDel a >? 0)%Z ["--max-delete"; Itoa (Sync_MaxDel a)] ++
  when (Sync_SkipNew a) ["--update"] ++
  exclude_args (splitCSV (Sync_Exclude a)) ++
  when dryRun ["--dry-run"].

Definition sync_destructive (a : SyncAction) : bool :=
  string_eqb (Sync_Mode a) "mirror" || string_eqb (Sync_Mode a) "move".

(** [requestedAt] is a parameter the function does not use. *)
Definition syncArgv (a : SyncAction) (dryRun : bool) (requestedAt : Z) : result (list string * bool) :=
  _ ← validateSyncActionOptions a;
  if string_eqb (Sync_Engine a) "rsync" then Ok (rsync_argv a dryRun, sync_destructive a)
  else Ok (rclone_argv a dryRun, sync_destructive a).

Definition compileExecutionBounds (policy : ExecutionPolicy) : result (Z * Z * Z) :=
  _ ← fail_if ((Exec_TimeoutSeconds policy <? 0) || (Exec_TimeoutSeconds policy >? maxExecutionTimeout / second))%Z
        (ErrNew "timeout must be between 1 second and 7 days, or zero for the default");
  _ ← fail_if ((Exec_StopGraceSeconds policy <? 0) || (Exec_StopGraceSeconds policy >? maxStopGrace / second))%Z
        (ErrNew "stop grace must be between 1 and 300 seconds, or zero for the default");
  _ ← fail_if (Exec_Umask policy >? 511)%Z (ErrNew "umask must be between 0000 and 0777");
  let timeout := wrap_s64 (Exec_TimeoutSeconds policy * second) in
  let timeout := if (timeout =? 0)%Z then defaultExecutionTimeout else timeout in
  let stopGrace := wrap_s64 (Exec_StopGraceSeconds policy * second) in
  let stopGrace := if (stopGrace =? 0)%Z then defaultStopGrace else stopGrace in
  let umask := if (Exec_Umask policy =? 0)%Z then defaultUmask else Exec_Umask policy in
  Ok (timeout, stopGrace, umask).

(** ** Environment *)

(** [sort.Strings] orders by bytes. *)
Definition string_le (a b : string) : Prop := String.leb a b = true.
#[export] Instance string_le_dec : RelDecision string_le.
Proof. intros a b. unfold string_le. apply _. Defined.

Definition FormatBool (b : bool) : string := if b then "true" else "false".

Definition base_environment (job : Job) (request : RunRequest) : gmap string string :=
  list_to_map
    [ ("PATH", jobExecutionPATH); ("TZ", "UTC"); ("LANG", "C"); ("LC_ALL", "C");
      ("SYNCBRIDGE_RUN_ID", Request_RunID request); ("SYNCBRIDGE_JOB_ID", Itoa (Job_ID job));
      ("SYNCBRIDGE_JOB_REVISION", FormatUint (Job_Revision job));
      ("SYNCBRIDGE_RUN_ORIGIN", Request_Origin request);
      ("SYNCBRIDGE_DRY_RUN", FormatBool (Request_DryRun request)) ].

Definition reserved_names : list string :=
  ["HOME"; "USER"; "LOGNAME"; "SHELL"; "PATH"; "SYNCBRIDGE_RUN_ID"; "SYNCBRIDGE_JOB_ID";
   "SYNCBRIDGE_JOB_REVISION"; "SYNCBRIDGE_RUN_ORIGIN"; "SYNCBRIDGE_DRY_RUN"].

Definition quoted (s : string) : string := str1 quote_double +:+ s +:+ str1 quote_double.

(** One entry of a list of [NAME=value]; error texts quote it as [%q] does for
    printable input. *)
Fixpoint environment_loop (entries : list string) (seen : gset string) (values : gmap string string) :
    result (gmap string string) :=
  match entries with
  | [] => Ok values
  | entry :: entries =>
      let '(name, value, ok) := Cut "=" entry in
      if negb ok || negb (environmentNamePattern name) || has_byte nul value
      then Err (ErrNew ("invalid environment entry " +:+ quoted entry))
      else if bool_decide (name ∈ reserved_names)
      then Err (ErrNew ("environment name " +:+ quoted name +:+ " is reserved"))
      else if bool_decide (name ∈ seen)
      then Err (ErrNew ("duplicate environment name " +:+ quoted name))
      else environment_loop entries ({[ name ]} ∪ seen) (<[ name := value ]> values)
  end.

Definition render_environment (values : gmap string string) : list string :=
  map (fun name => name +:+ "=" +:+ default "" (values !! name))
    (merge_sort string_le (map fst (map_to_list values))).

Definition compileEnvironment (job : Job) (request : RunRequest) : result (list string) :=
  values ← environment_loop (Exec_Environment (Job_Execution job)) ∅ (base_environment job request);
  Ok (render_environment values).

(** ** The compiler *)

Section Compiler.
Context {W : Type} `{!HostInspector W}.

Definition inspectCanonicalPath (value : string) : SE W HostPathInfo :=
  _ ← lift (validateAbsoluteCanonicalPath value);
  info ← se_map (wrap_err "inspect host path: ") (InspectPath value);
  if negb (string_eqb (Info_CanonicalPath info) value)
  then lift (Err (ErrNew ("path is not host-canonical: " +:+ quoted value +:+ " resolves to "
                          +:+ quoted (Info_CanonicalPath info))))
  else mret info.

(** [x, err := lookup; if err != nil || !coherent(x) { return msg }] *)
Definition lookup_coherent {A} (m : SE W A) (coherent : A -> bool) (msg : string) : SE W unit :=
  r ← attempt m;
  match r with
  | Ok a => lift (fail_if (negb (coherent a)) (ErrNew msg))
  | Err _ => lift (Err (ErrNew msg))
  end.

Definition script_ok (info : HostPathInfo) : bool :=
  Info_Exists info && Info_Regular info && Info_Executable info && Info_HasShebang info.

Definition fixed_identity_ok (identity : Identity) : bool :=
  accountNamePattern (Identity_User identity) && accountNamePattern (Identity_Group identity) &&
  negb (Identity_UID identity <? 0)%Z && negb (Identity_GID identity <? 0)%Z.

Definition zeroIdentity : Identity := MkIdentity "" "" 0 "" 0.

Definition validateIdentity (job : Job) : SE W Identity :=
  let identity := Job_Identity job in
  if string_eqb (Identity_Mode identity) IdentityScriptOwner then
    _ ← lift (fail_if (negb (string_eqb (Action_Type (Job_Action job)) ActionScript))
               (ErrNew "script-owner identity is only valid for scripts"));
    info ← se_map (wrap_err "script path: ") (inspectCanonicalPath (Action_ScriptPath (Job_Action job)));
    _ ← lift (fail_if (negb (script_ok info)) (ErrNew "script must be a regular executable file with a shebang"));
    _ ← lift (fail_if ((Info_UID info =? 0)%Z || (Info_GID info =? 0)%Z)
               (ErrNew "script-owner cannot dynamically select root UID or GID"));
    _ ← lookup_coherent (LookupUser (Itoa (Info_UID info)))
          (fun user => (User_UID user =? Info_UID info)%Z && negb (string_eqb (User_Name user) ""))
          "script owner UID has no coherent host account";
    _ ← lookup_coherent (LookupGroup (Itoa (Info_GID info)))
          (fun group => (Group_GID group =? Info_GID info)%Z && negb (string_eqb (Group_Name group) ""))
          "script owner GID has no coherent host group";
    mret (MkIdentity IdentityScriptOwner "" 0 "" 0)
  else if string_eqb (Identity_Mode identity) IdentityFixed then
    _ ← lift (fail_if (negb (fixed_identity_ok identity)) (ErrNew "fixed identity is incomplete or invalid"));
    _ ← lookup_coherent (LookupUser (Identity_User identity))
          (fun user => string_eqb (User_Name user) (Identity_User identity) && (User_UID user =? Identity_UID identity)%Z)
          "fixed user name and UID do not match the host account";
    _ ← lookup_coherent (LookupGroup (Identity_Group identity))
          (fun group => string_eqb (Group_Name group) (Identity_Group identity) && (Group_GID group =? Identity_GID identity)%Z)
          "fixed group name and GID do not match the host group";
    mret identity
  else lift (Err (ErrNew "identity mode must be script-owner or fixed")).

(** argv, source path, destination path, guarded non-empty source *)
Definition compiled_action : Type := list string * string * string * string.

Definition compileSync (a : SyncAction) (dryRun : bool) (requestedAt : Z) : SE W compiled_action :=
  _ ← lift (validateSyncActionOptions a);
  source ← se_map (wrap_err "sync source: ") (inspectCanonicalPath (Sync_Source a));
  destination ← se_map (wrap_err "sync destination: ") (inspectCanonicalPath (Sync_Dest a));
  _ ← lift (fail_if (string_eqb (Info_CanonicalPath source) (Info_CanonicalPath destination))
             (ErrNew "sync source and destination must differ"));
  _ ← lift (fail_if (pathWithin (Info_CanonicalPath source) (Info_CanonicalPath destination))
             (ErrNew "sync destination must not be inside source"));
  _ ← lift (fail_if (pathWithin (Info_CanonicalPath destination) (Info_CanonicalPath source))
             (ErrNew "sync destination must not be an ancestor of source"));
  _ ← lift (fail_if (negb (Info_Exists source) || negb (Info_Directory source))
             (ErrNew "sync source must be an existing directory"));
  _ ← lift (fail_if (Info_Exists destination && negb (Info_Directory destination))
             (ErrNew "sync destination must be a directory when it exists"));
  ad ← lift (syncArgv a dryRun requestedAt);
  let (argv, destructive) := (ad : list string * bool) in
  _ ← lift (fail_if (destructive && Info_Empty source) (ErrNew "destructive sync source must not be empty"));
  _ ← lift (validateArgv argv);
  mret (argv, Sync_Source a, Sync_Dest a, if destructive then Sync_Source a else "").

Definition compileAction (capabilities : CapabilityReport) (action : Action) (identity : Identity) (dryRun : bool)
    (requestedAt : Z) : SE W compiled_action :=
  if string_eqb (Action_Type action) ActionScript then
    info ← se_map (wrap_err "script path: ") (inspectCanonicalPath (Action_ScriptPath action));
    _ ← lift (fail_if (negb (script_ok info)) (ErrNew "script must be a regular executable file with a shebang"));
    let argv := Action_ScriptPath action :: Action_ScriptArgs action in
    _ ← lift (validateArgv argv);
    mret (argv, Action_ScriptPath action, "", "")
  else if string_eqb (Action_Type action) ActionCommand then
    _ ← lift (fail_if (negb (string_eqb (Identity_Mode identity) IdentityFixed))
               (ErrNew "command actions require a fixed identity"));
    _ ← lift (fail_if (string_eqb (TrimSpace (Action_Command action)) "" || has_byte nul (Action_Command action))
               (ErrNew "command is empty or invalid"));
    tools ← lift (HostTools capabilities);
    mret ([Tool_Shell tools; "-c"; Action_Command action], "", "", "")
  else if string_eqb (Action_Type action) ActionSync then
    _ ← lift (fail_if (negb (string_eqb (Identity_Mode identity) IdentityFixed))
               (ErrNew "sync actions require a fixed identity"));
    compileSync (Action_Sync action) dryRun requestedAt
  else lift (Err (ErrNew "unknown action type")).

Definition required_capabilities (action : Action) : list string :=
  [CapHostNamespace; CapHostPID1; CapHostRoot; CapIdentityDrop; CapAccountLookup; CapShell; CapHostToolchain] ++
  (if string_eqb (Action_Type action) ActionSync then
     if string_eqb (Sync_Engine (Action_Sync action)) "rsync" then [CapRsync]
     else if string_eqb (Sync_Engine (Action_Sync action)) "rclone" then [CapRclone] else []
   else []).

Definition wrapper_path (instanceID : string) (jobID : Z) : string :=
  "/var/lib/syncbridge/instances/" +:+ instanceID +:+ "/jobs/" +:+ Itoa jobID +:+ "/run.sh".

(** The checks of [Compile] before the host is consulted. *)
Definition compile_preconditions (c : option PlanCompiler) (job : Job) (request : RunRequest) : result PlanCompiler :=
  match c with
  | None => Err (ErrNew "host inspector is required")
  | Some c =>
      _ ← fail_if (negb (compiler_hasInspector c)) (ErrNew "host inspector is required");
      _ ← fail_if (negb (instanceIDPattern (compiler_instanceID c))) (ErrNew "instance ID is invalid");
      _ ← fail_if (Job_ID job <=? 0)%Z (ErrNew "job ID must be positive");
      _ ← fail_if (negb (Job_SchemaVersion job =? 2)%Z) (ErrNew "only validated schema-v2 jobs can be compiled");
      _ ← fail_if (Job_NeedsReview job) (ErrNew "job requires review before execution");
      _ ← fail_if (negb (Request_JobID request =? 0)%Z && negb (Request_JobID request =? Job_ID job)%Z)
            (ErrNew "run request job ID does not match snapshot");
      _ ← fail_if (negb (Request_Revision request =? 0)%Z && negb (Request_Revision request =? Job_Revision job)%Z)
            (ErrNew "run request revision does not match snapshot");
      _ ← fail_if (negb (runIDPattern (Request_RunID request))) (ErrNew "run ID is invalid");
      _ ← fail_if (negb (bool_decide (Request_Origin request ∈
              [RunOriginManual; RunOriginCron; RunOriginWatch; RunOriginSystem])))
            (ErrNew "run origin is invalid");
      _ ← fail_if (Request_DryRun request && negb (string_eqb (Action_Type (Job_Action job)) ActionSync))
            (ErrNew "dry run is supported only for sync actions");
      Ok c
  end.

(** [now] is the clock, read when the request carries no time. *)
Definition Compile (c : option PlanCompiler) (now : Z) (job : Job) (request : RunRequest) : SE W ExecutionPlan :=
  c ← lift (compile_preconditions c job request);
  _ ← lift (wrap_err "compile execution plan: "
             (Require_ (compiler_capabilities c) (required_capabilities (Job_Action job))));
  hostTools ← lift (wrap_err "compile execution plan: " (HostTools (compiler_capabilities c)));
  let workingDirectory := if string_eqb (Exec_WorkingDirectory (Job_Execution job)) "" then "/"
                          else Exec_WorkingDirectory (Job_Execution job) in
  workingInfo ← se_map (wrap_err "working directory: ") (inspectCanonicalPath workingDirectory);
  _ ← lift (fail_if (negb (Info_Exists workingInfo) || negb (Info_Directory workingInfo))
             (ErrNew "working directory is not an existing directory"));
  identity ← validateIdentity job;
  let requestedAt := if (Request_RequestedAt request =? 0)%Z then now else Request_RequestedAt request in
  action ← compileAction (compiler_capabilities c) (Job_Action job) identity (Request_DryRun request) requestedAt;
  let '(argv, sourcePath, destinationPath, nonEmptySource) := (action : compiled_action) in
  environment ← lift (compileEnvironment job request);
  bounds ← lift (compileExecutionBounds (Job_Execution job));
  let '(timeout, stopGrace, umask) := (bounds : Z * Z * Z) in
  mret (MkExecutionPlan (Request_RunID request) (Job_ID job) (Job_Revision job) (Request_Origin request)
          (Request_DryRun request) requestedAt (Action_Type (Job_Action job)) (Action_Command (Job_Action job))
          (Sync_Engine (Action_Sync (Job_Action job))) (Sync_Mode (Action_Sync (Job_Action job)))
          (Action_Sync (Job_Action job)) argv identity environment workingDirectory umask timeout stopGrace
          (wrapper_path (compiler_instanceID c) (Job_ID job)) sourcePath destinationPath nonEmptySource hostTools
          HostLauncherEnvironment).
End Compiler.

(** ** Asking the host's own tools *)

Definition singleOutputLine (output : string) : result string :=
  let line := TrimSuffix output newline in
  if string_eqb line "" || has_byte (Ascii.ascii_of_nat 13) line || has_byte (Ascii.ascii_of_nat 10) line
  then Err (ErrNew "expected exactly one output line") else Ok line.

(** [strconv.Atoi] and the sign check *)
Definition parse_id (s : string) (msg : string) : result Z :=
  match Atoi s with
  | Some n => if (n <? 0)%Z then Err (ErrNew msg) else Ok n
  | None => Err (ErrNew msg)
  end.

Section RunnerInspector.
Context {W : Type} `{!HostCommandRunner W} (tools : HostToolPaths).

Definition runner_InspectPath (path : string) : SE W HostPathInfo :=
  canonicalResult ← Run [Tool_Readlink tools; "-m"; "--"; path];
  _ ← lift (fail_if (negb (succeeded canonicalResult)) (ErrNew "canonicalize host path"));
  canonical ← lift (wrap_err "canonicalize host path: " (singleOutputLine (Stdout canonicalResult)));
  statResult ← Run [Tool_Stat tools; "-c"; "%f:%u:%g"; "--"; path];
  if negb (succeeded statResult) then
    missingResult ← Run [Tool_Test tools; "!"; "-e"; path];
    if succeeded missingResult then mret (MkHostPathInfo canonical false false false false false false 0 0)
    else lift (Err (ErrNew "stat host path"))
  else
    statLine ← lift (wrap_err "stat host path: " (singleOutputLine (Stdout statResult)));
    match Split ":" statLine with
    | [p0; p1; p2] =>
        match ParseUint 16 32 p0 with
        | None => lift (Err (ErrNew "stat host path returned an invalid mode"))
        | Some mode =>
            uid ← lift (parse_id p1 "stat host path returned an invalid UID");
            gid ← lift (parse_id p2 "stat host path returned an invalid GID");
            let regular := (Z.land mode 61440 =? 32768)%Z in
            let directory := (Z.land mode 61440 =? 16384)%Z in
            let executable := negb (Z.land mode 73 =? 0)%Z in
            hasShebang ←
              (if regular then
                 headResult ← Run [Tool_Head tools; "-c"; "2"; "--"; path];
                 _ ← lift (fail_if (negb (succeeded headResult)) (ErrNew "read host file shebang"));
                 mret (string_eqb (Stdout headResult) "#!")
               else mret false);
            empty_ ←
              (if directory then
                 findResult ← Run [Tool_Find tools; path; "-mindepth"; "1"; "-maxdepth"; "1"; "-print"; "-quit"];
                 _ ← lift (fail_if (negb (succeeded findResult)) (ErrNew "inspect host directory contents"));
                 mret (string_eqb (Stdout findResult) "")
               else mret false);
            mret (MkHostPathInfo canonical true regular directory executable hasShebang empty_ uid gid)
        end
    | _ => lift (Err (ErrNew "stat host path returned malformed data"))
    end.

Definition runner_LookupUser (nameOrID : string) : SE W HostUser :=
  r ← Run [Tool_Getent tools; "passwd"; nameOrID];
  _ ← lift (fail_if (negb (succeeded r)) (ErrNew "lookup host user"));
  line ← lift (wrap_err "lookup host user: " (singleOutputLine (Stdout r)));
  match Split ":" line with
  | [f0; f1; f2; f3; f4; f5; f6] =>
      uid ← lift (parse_id f2 "host user UID is invalid");
      gid ← lift (parse_id f3 "host user GID is invalid");
      _ ← lift (fail_if (string_eqb f0 "" || string_eqb f5 "" || string_eqb f6 "")
                 (ErrNew "host user record is incomplete"));
      mret (MkHostUser f0 uid gid f5 f6)
  | _ => lift (Err (ErrNew "host user record is malformed"))
  end.

Definition runner_LookupGroup (nameOrID : string) : SE W HostGroup :=
  r ← Run [Tool_Getent tools; "group"; nameOrID];
  _ ← lift (fail_if (negb (succeeded r)) (ErrNew "lookup host group"));
  line ← lift (wrap_err "lookup host group: " (singleOutputLine (Stdout r)));
  match Split ":" line with
  | [f0; f1; f2; f3] =>
      gid ← lift (parse_id f2 "host group record is invalid");
      _ ← lift (fail_if (string_eqb f0 "") (ErrNew "host group record is invalid"));
      mret (MkHostGroup f0 gid)
  | _ => lift (Err (ErrNew "host group record is malformed"))
  end.

(** [NewRunnerHostInspector] *)
Definition runnerHostInspector : HostInspector W :=
  {| InspectPath := runner_InspectPath; LookupUser := runner_LookupUser; LookupGroup := runner_LookupGroup |}.
End RunnerInspector.
