(* ===== verification/ExecutionPlanProofs.v ===== *)
(** * Properties of the plan compiler

    The lemmas and theorems about [ExecutionPlan.v]: what the sync command lines
    contain, what the environment is, the execution bounds, and what a compiled
    plan guarantees whatever the host answers. *)

From S2P Require Import Prelude GoStrings Model HostCommand Capabilities ExecutionPlan.

(** ** Words that can not be read as options *)

Definition no_dash (s : string) : Prop := HasPrefix s "-" = false.

Lemma HasPrefix_weaken s t p : HasPrefix s p = true -> HasPrefix (s +:+ t) p = true.
Proof. intros (u & ->)%HasPrefix_iff. apply HasPrefix_iff. exists (u +:+ t). by rewrite app_assoc_str. Qed.

Lemma TrimSuffix_prefix s p q : HasPrefix (TrimSuffix s p) q = true -> HasPrefix s q = true.
Proof.
  intros H. destruct (TrimSuffix_cases s p) as [E|[_ E]]; [|by rewrite <-E].
  rewrite E. by apply HasPrefix_weaken.
Qed.

Lemma no_dash_first c s : ascii_eqb c "-" = false -> no_dash (String c s).
Proof.
  intros H. unfold no_dash. simpl. assert (ascii_eqb "-" c = false) as ->; [|done].
  apply ascii_eqb_false in H. apply ascii_eqb_false. congruence.
Qed.

Lemma no_dash_digit c s : is_digit c = true -> no_dash (String c s).
Proof. intros H. apply no_dash_first. by apply is_digit_not_sign. Qed.

Lemma no_dash_abs s : IsAbs s = true -> no_dash s.
Proof. intros (t & ->)%HasPrefix_iff. done. Qed.

Lemma bandwidth_no_dash s : bandwidthLimitPattern s = true -> no_dash s.
Proof.
  destruct s as [|c s]; [done|]. unfold bandwidthLimitPattern, digits1.
  destruct (is_digit c) eqn:E; [|done]. intros _. by apply no_dash_digit.
Qed.

Lemma Itoa_no_dash n : (0 <= n)%Z -> no_dash (Itoa n).
Proof.
  intros Hn. unfold Itoa. assert (n <? 0 = false)%Z as -> by lia.
  destruct (FormatUint_cons n) as (c & r & E). pose proof (FormatUint_digits n Hn) as Hd. rewrite E in *.
  apply andb_true_iff in Hd as [Hc _]. by apply no_dash_digit.
Qed.

(** What the options check establishes. *)
Record sync_valid (a : SyncAction) : Prop := {
  valid_engine : Sync_Engine a = "rsync" \/ Sync_Engine a = "rclone";
  valid_mode : Sync_Mode a = "add" \/ Sync_Mode a = "mirror" \/ Sync_Mode a = "move";
  valid_compare : Sync_Compare a = "" \/ Sync_Compare a = "time" \/ Sync_Compare a = "checksum";
  valid_bwlimit : Sync_Bwlimit a = "" \/ bandwidthLimitPattern (Sync_Bwlimit a) = true;
  valid_keep : (0 <= Sync_BackupKeep a)%Z /\ ((0 < Sync_BackupKeep a)%Z -> Sync_Backup a = true);
  valid_maxdel : (0 <= Sync_MaxDel a)%Z /\ ((0 < Sync_MaxDel a)%Z -> Sync_Mode a = "mirror");
  valid_sysbackup : Sync_SysBackup a = true -> Sync_Engine a = "rsync";
  valid_exclude : has_byte nul (Sync_Exclude a) = false /\ has_exclude_control (Sync_Exclude a) = false;
  valid_patterns : Forall no_dash (splitCSV (Sync_Exclude a))
}.

Lemma existsb_no_dash l : existsb (fun p => HasPrefix p "-") l = false <-> Forall no_dash l.
Proof.
  induction l as [|p l IH]; simpl; [split; [by constructor|done]|].
  rewrite orb_false_iff, IH, Forall_cons. done.
Qed.

Lemma none_of_2 s x y : negb (string_eqb s x) && negb (string_eqb s y) = false <-> s = x \/ s = y.
Proof. rewrite andb_false_iff, !negb_false_iff, !string_eqb_true. done. Qed.
Lemma none_of_3 s x y z :
  negb (string_eqb s x) && negb (string_eqb s y) && negb (string_eqb s z) = false <-> s = x \/ s = y \/ s = z.
Proof. rewrite !andb_false_iff, !negb_false_iff, !string_eqb_true. tauto. Qed.
Lemma unless_true n b : (n >? 0)%Z && negb b = false <-> ((0 < n)%Z -> b = true).
Proof.
  rewrite andb_false_iff, negb_false_iff, Z.gtb_ltb, Z.ltb_ge. split; [by intros [?|?] ?; [lia|]|].
  intros H. destruct (Z.lt_ge_cases 0 n); auto.
Qed.
Lemma implb_false b c : b && negb c = false <-> (b = true -> c = true).
Proof. destruct b, c; naive_solver. Qed.

Lemma validateSyncActionOptions_iff a : validateSyncActionOptions a = Ok tt <-> sync_valid a.
Proof.
  unfold validateSyncActionOptions. rewrite !fail_bind, fail_if_Ok.
  rewrite none_of_2, !none_of_3, !unless_true, (implb_false (Sync_SysBackup a)), existsb_no_dash, orb_false_iff, !Z.ltb_ge, !string_eqb_true.
  rewrite andb_false_iff, !negb_false_iff, string_eqb_true.
  split.
  - intros (H1 & H2 & H3 & H4 & H5 & H6 & H7 & H8 & H9 & H10 & H11). by split.
  - intros []. naive_solver.
Qed.

Lemma sync_bwlimit_no_dash a : sync_valid a -> no_dash (sync_bwlimit a).
Proof.
  intros H. unfold no_dash, sync_bwlimit.
  destruct (HasPrefix _ "-") eqn:E; [|done]. do 2 apply TrimSuffix_prefix in E.
  destruct (valid_bwlimit a H) as [Hb|Hb]; [by rewrite Hb in E|].
  apply bandwidth_no_dash in Hb. unfold no_dash in Hb. congruence.
Qed.

Lemma directoryArg_no_dash s : IsAbs s = true -> no_dash (directoryArg s).
Proof.
  intros H. apply no_dash_abs. unfold directoryArg. case_goal; [done|]. by apply HasPrefix_weaken.
Qed.

(** ** Sync command lines *)

Definition sync_options : list string :=
  ["-a"; "--info=progress2,stats2"; "--human-readable"; "-HAX"; "--numeric-ids"; "--fake-super"; "--delete";
   "--remove-source-files"; "--checksum"; "--bwlimit"; "--backup"; "--backup-dir"; "--exclude"; "--max-delete";
   "--update"; "--dry-run"; "--itemize-changes"; "--"; "--progress"; "--stats=1s"; "--stats-one-line"].

Lemma elem_of_when x b l : x ∈ when b l <-> b = true /\ x ∈ l.
Proof. destruct b; simpl; [naive_solver|]. rewrite elem_of_nil. naive_solver. Qed.

Lemma elem_of_exclude_args x patterns :
  x ∈ exclude_args patterns -> x = "--exclude" \/ x ∈ patterns.
Proof.
  unfold exclude_args. induction patterns as [|p ps IH]; simpl; [by intros ?%elem_of_nil|].
  rewrite !elem_of_cons. intros [->|[->|H]]; [auto..|]. destruct (IH H); auto.
Qed.

Definition option_ok (x : string) : Prop := no_dash x \/ x ∈ sync_options.

Ltac in_list := apply (bool_decide_unpack _); vm_compute; exact I.

Lemma exclude_ok a : sync_valid a -> Forall option_ok (exclude_args (splitCSV (Sync_Exclude a))).
Proof.
  intros Hv. pose proof (valid_patterns a Hv) as Hx. apply Forall_forall.
  intros x [->|Hin]%elem_of_exclude_args; [right; in_list|]. left. rewrite Forall_forall in Hx. by apply Hx.
Qed.

Lemma when_ok b l : (b = true -> Forall option_ok l) -> Forall option_ok (when b l).
Proof. destruct b; simpl; [auto|constructor]. Qed.

Ltac words_ok := repeat (constructor; [first [left; (done || assumption) | right; in_list]|]); constructor.

Lemma maxdel_no_dash a : sync_valid a -> no_dash (Itoa (Sync_MaxDel a)).
Proof. intros Hv. by apply Itoa_no_dash, valid_maxdel. Qed.

Lemma rsync_argv_ok a dry :
  sync_valid a -> IsAbs (Sync_Source a) = true -> IsAbs (Sync_Dest a) = true -> Forall option_ok (rsync_argv a dry).
Proof.
  intros Hw Hs Hd. pose proof (exclude_ok a Hw). pose proof (sync_bwlimit_no_dash a Hw). pose proof (maxdel_no_dash a Hw).
  apply directoryArg_no_dash in Hs, Hd. unfold rsync_argv.
  repeat (apply Forall_app; split); try apply when_ok; try intros _; try assumption;
    try (destruct (string_eqb _ _); [|destruct (string_eqb _ _)]); words_ok.
Qed.

Lemma rclone_argv_ok a dry :
  sync_valid a -> IsAbs (Sync_Source a) = true -> IsAbs (Sync_Dest a) = true -> Forall option_ok (rclone_argv a dry).
Proof.
  intros Hw Hs Hd. pose proof (exclude_ok a Hw). pose proof (sync_bwlimit_no_dash a Hw). pose proof (maxdel_no_dash a Hw).
  apply no_dash_abs in Hs, Hd.
  assert (no_dash (rclone_verb (Sync_Mode a))) by (unfold rclone_verb; repeat case_goal; done).
  unfold rclone_argv. repeat (apply Forall_app; split); try apply when_ok; try intros _; try assumption; words_ok.
Qed.

(** [chase H]: split the membership [H] of a literal option in a command line
    into the places it can come from, dropping the impossible ones. *)
Ltac chase_step H :=
  match type of H with
  | _ ∈ _ ++ _ => apply elem_of_app in H; destruct H as [H|H]
  | _ ∈ when _ _ => apply elem_of_when in H; destruct H as [? H]
  | _ ∈ exclude_args _ => apply elem_of_exclude_args in H; destruct H as [H|H]
  | _ ∈ _ :: _ => apply elem_of_cons in H; destruct H as [H|H]
  | _ ∈ [] => by apply elem_of_nil in H
  | _ ∈ (if ?b then _ else _) => destruct b eqn:?
  | ?x = ?y => first [discriminate H | exfalso; match goal with N : no_dash y |- _ => rewrite <-H in N; discriminate N end]
  end.
Ltac chase H := repeat chase_step H.

Lemma dash_not_pattern a x : sync_valid a -> HasPrefix x "-" = true -> ~ x ∈ splitCSV (Sync_Exclude a).
Proof.
  intros Hv Hx Hin. pose proof (valid_patterns a Hv) as Hp. rewrite Forall_forall in Hp.
  apply Hp in Hin. unfold no_dash in Hin. congruence.
Qed.

Ltac sync_facts Hv a :=
  pose proof (sync_bwlimit_no_dash a Hv); pose proof (maxdel_no_dash a Hv).

Lemma rsync_delete a dry :
  sync_valid a -> IsAbs (Sync_Source a) = true -> IsAbs (Sync_Dest a) = true ->
  "--delete" ∈ rsync_argv a dry <-> Sync_Mode a = "mirror".
Proof.
  intros Hv Hs Hd. sync_facts Hv a. apply directoryArg_no_dash in Hs, Hd. unfold rsync_argv. split.
  - intros Hin. chase Hin; str_eqb; try done. by apply dash_not_pattern in Hin.
  - intros ->. rewrite string_eqb_refl. rewrite !elem_of_app. do 2 right. left. by left.
Qed.

Lemma rsync_remove_source a dry :
  sync_valid a -> IsAbs (Sync_Source a) = true -> IsAbs (Sync_Dest a) = true ->
  "--remove-source-files" ∈ rsync_argv a dry <-> Sync_Mode a = "move".
Proof.
  intros Hv Hs Hd. sync_facts Hv a. apply directoryArg_no_dash in Hs, Hd. unfold rsync_argv. split.
  - intros Hin. chase Hin; str_eqb; try done. by apply dash_not_pattern in Hin.
  - intros ->. rewrite !elem_of_app. do 2 right. left. by left.
Qed.

Lemma rsync_dry_run a dry :
  sync_valid a -> IsAbs (Sync_Source a) = true -> IsAbs (Sync_Dest a) = true ->
  "--dry-run" ∈ rsync_argv a dry <-> dry = true.
Proof.
  intros Hv Hs Hd. sync_facts Hv a. apply directoryArg_no_dash in Hs, Hd. unfold rsync_argv. split.
  - intros Hin. chase Hin; try done. by apply dash_not_pattern in Hin.
  - intros ->. rewrite !elem_of_app. do 9 right. left. by left.
Qed.

Lemma rclone_dry_run a dry :
  sync_valid a -> IsAbs (Sync_Source a) = true -> IsAbs (Sync_Dest a) = true ->
  "--dry-run" ∈ rclone_argv a dry <-> dry = true.
Proof.
  intros Hv Hs Hd. sync_facts Hv a. apply no_dash_abs in Hs, Hd.
  assert (no_dash (rclone_verb (Sync_Mode a))) by (unfold rclone_verb; repeat case_goal; done).
  unfold rclone_argv. split.
  - intros Hin. chase Hin; try done. by apply dash_not_pattern in Hin.
  - intros ->. rewrite !elem_of_app. do 7 right. by left.
Qed.

(** The sync command lines.  For absolute endpoints and any options the
    validation accepts, no word taken from the job can be read as an option:
    every word that starts with a dash is one of the literals of the source; a
    dry run is requested from the tool exactly when asked for; rsync deletes at
    the destination exactly in mirror mode and removes source files exactly in
    move mode, and its two endpoints are the last words, after [--]; rclone's
    verb is the mode's. *)
Theorem syncArgv_safe a dry requestedAt argv destructive :
  syncArgv a dry requestedAt = Ok (argv, destructive) ->
  IsAbs (Sync_Source a) = true -> IsAbs (Sync_Dest a) = true ->
  (forall word, word ∈ argv -> HasPrefix word "-" = true -> word ∈ sync_options) /\
  ("--dry-run" ∈ argv <-> dry = true) /\
  (destructive = true <-> Sync_Mode a <> "add") /\
  (Sync_Engine a = "rsync" ->
     ("--delete" ∈ argv <-> Sync_Mode a = "mirror") /\
     ("--remove-source-files" ∈ argv <-> Sync_Mode a = "move") /\
     exists options, argv = "rsync" :: options ++ ["--"; directoryArg (Sync_Source a); directoryArg (Sync_Dest a)]) /\
  (Sync_Engine a = "rclone" ->
     exists options, argv = "rclone" :: rclone_verb (Sync_Mode a) :: Sync_Source a :: Sync_Dest a :: options).
Proof.
  unfold syncArgv. intros H Hs Hd. apply bind_Ok in H as (u & Hv & H). destruct u.
  apply validateSyncActionOptions_iff in Hv.
  assert (Forall option_ok argv /\ ("--dry-run" ∈ argv <-> dry = true) /\ destructive = sync_destructive a)
    as (Hok & Hdry & ->).
  { destruct (string_eqb (Sync_Engine a) "rsync"); injection H as <- <-.
    - split_and!; [by apply rsync_argv_ok|by apply rsync_dry_run|done].
    - split_and!; [by apply rclone_argv_ok|by apply rclone_dry_run|done]. }
  split_and!; [|done| |..].
  - intros word Hin Hdash. rewrite Forall_forall in Hok. destruct (Hok _ Hin) as [Hn|?]; [|done].
    unfold no_dash in Hn. congruence.
  - unfold sync_destructive. destruct (valid_mode a Hv) as [->|[->| ->]]; vm_compute; naive_solver.
  - intros He. rewrite He in H. injection H as <-.
    split_and!; [by apply rsync_delete|by apply rsync_remove_source|].
    eexists. unfold rsync_argv. rewrite !app_assoc. reflexivity.
  - intros He. rewrite He in H. injection H as <-. eexists. reflexivity.
Qed.

Definition example_sync : SyncAction :=
  MkSyncAction "rsync" "/srv/data" "/mnt/backup" "mirror" "checksum" "10M" true 3 100 false false "*.tmp, cache".

Lemma syncArgv_safe_witness :
  exists argv destructive, syncArgv example_sync true 0 = Ok (argv, destructive) /\
    ("--dry-run" ∈ argv <-> true = true).
Proof.
  eexists _, _. split; [reflexivity|].
  eapply (syncArgv_safe example_sync true 0); reflexivity.
Defined.

(** ** The environment *)

Definition env_name (entry : string) : string := (Cut "=" entry).1.1.
Definition env_value (entry : string) : string := (Cut "=" entry).1.2.
Definition env_entry (name value : string) : string := name +:+ "=" +:+ value.

Lemma Cut_entry name value : has_byte "=" name = false -> Cut "=" (env_entry name value) = (name, value, true).
Proof. intros H. by apply Cut_app. Qed.

Lemma env_name_entry name value : has_byte "=" name = false -> env_name (env_entry name value) = name.
Proof. intros H. unfold env_name. by rewrite Cut_entry. Qed.

(** A user entry the compiler accepts. *)
Definition entry_ok (entry : string) : Prop :=
  exists name value, entry = env_entry name value /\ environmentNamePattern name = true /\
    has_byte "=" name = false /\ has_byte nul value = false /\ ~ name ∈ reserved_names.

Lemma entry_ok_cut entry name value :
  entry_ok entry -> Cut "=" entry = (name, value, true) ->
  entry = env_entry name value /\ environmentNamePattern name = true /\
  has_byte nul value = false /\ ~ name ∈ reserved_names.
Proof. intros (n & v & -> & ? & Hn & ? & ?) Hc. rewrite Cut_entry in Hc by done. by injection Hc as -> ->. Qed.

Definition add_entry (values : gmap string string) (entry : string) : gmap string string :=
  <[ env_name entry := env_value entry ]> values.

Lemma environment_loop_Ok entries : forall seen values values',
  environment_loop entries seen values = Ok values' <->
  Forall entry_ok entries /\ NoDup (env_name <$> entries) /\
  Forall (fun e => env_name e ∉ seen) entries /\ values' = fold_left add_entry entries values.
Proof.
  induction entries as [|entry entries IH]; intros seen values values'; simpl.
  { split; [intros [= <-]; split_and!; (done || constructor)|by intros (_ & _ & _ & ->)]. }
  rewrite NoDup_cons, !Forall_cons.
  destruct (Cut "=" entry) as [[name value] ok] eqn:Ec.
  assert (env_name entry = name) as Hname by (unfold env_name; by rewrite Ec).
  assert (add_entry values entry = <[ name := value ]> values) as -> by (unfold add_entry, env_name, env_value; by rewrite Ec).
  rewrite Hname.
  destruct ok; simpl.
  2:{ split; [done|]. intros [[(n & v & -> & _ & Hn & _) _] _]. by rewrite Cut_entry in Ec. }
  pose proof (Cut_Some _ _ _ _ Ec) as [He Hn].
  destruct (environmentNamePattern name) eqn:Ep; simpl.
  2:{ split; [done|]. intros [[Hok _] _]. destruct (entry_ok_cut _ _ _ Hok Ec) as (_ & ? & _). congruence. }
  destruct (has_byte nul value) eqn:Ez.
  { split; [done|]. intros [[Hok _] _]. destruct (entry_ok_cut _ _ _ Hok Ec) as (_ & _ & ? & _). congruence. }
  case_bool_decide as Hr.
  { split; [done|]. intros [[Hok _] _]. by destruct (entry_ok_cut _ _ _ Hok Ec) as (_ & _ & _ & ?). }
  case_bool_decide as Hseen.
  { split; [done|]. intros (_ & _ & [Hs _] & _). done. }
  rewrite IH. rewrite !Forall_forall. setoid_rewrite not_elem_of_union. setoid_rewrite not_elem_of_singleton.
  rewrite list_elem_of_fmap.
  assert (entry_ok entry) by (exists name, value; done). split.
  - intros (H1 & H2 & H3 & ->). split_and!; [done..| |done|done|by intros e He'; apply H3|done].
    intros (e & He1 & He2). by destruct (H3 e He2).
  - intros ((_ & H1) & (H2 & H2') & (_ & H3) & ->). split_and!; [done..| |done].
    intros e He'. split; [|by apply H3]. intros Heq. apply H2. exists e. by rewrite Heq.
Qed.

Lemma fold_add_entry entries : forall values,
  NoDup (env_name <$> entries) ->
  (forall e, e ∈ entries -> fold_left add_entry entries values !! env_name e = Some (env_value e)) /\
  (forall n, n ∉ env_name <$> entries -> fold_left add_entry entries values !! n = values !! n).
Proof.
  induction entries as [|entry entries IH]; intros values Hnd; simpl.
  { split; [by intros e ?%elem_of_nil|done]. }
  rewrite fmap_cons in Hnd. apply NoDup_cons in Hnd as [Hni Hnd]. destruct (IH (add_entry values entry) Hnd) as [H1 H2].
  split.
  - intros e [->|Hin]%elem_of_cons; [|by apply H1]. rewrite H2 by done. apply lookup_insert_eq.
  - intros n [Hne Hn]%not_elem_of_cons. rewrite H2 by done. by apply lookup_insert_ne.
Qed.

#[export] Instance string_le_total : Total string_le.
Proof. intros a b. apply String.leb_total. Qed.

Definition names_plain (values : gmap string string) : Prop :=
  map_Forall (fun n _ => has_byte "=" n = false) values.

Lemma render_elem values entry :
  entry ∈ render_environment values <-> exists n v, values !! n = Some v /\ entry = env_entry n v.
Proof.
  unfold render_environment. rewrite list_elem_of_fmap. split.
  - intros (n & -> & Hn). rewrite merge_sort_Permutation in Hn. apply list_elem_of_fmap in Hn as ([k v] & -> & Hkv).
    apply elem_of_map_to_list in Hkv. exists k, v. split; [done|]. simpl. by rewrite Hkv.
  - intros (n & v & Hv & ->). exists n. rewrite Hv. split; [done|]. rewrite merge_sort_Permutation.
    apply list_elem_of_fmap. exists (n, v). split; [done|]. by apply elem_of_map_to_list.
Qed.

Lemma render_names values :
  names_plain values ->
  env_name <$> render_environment values = merge_sort string_le (map fst (map_to_list values)).
Proof.
  intros Hp. unfold render_environment.
  rewrite <-list_fmap_compose.
  transitivity (id <$> merge_sort string_le (map fst (map_to_list values)));
    [|apply list_fmap_id].
  apply list_fmap_ext. intros i n Hi. simpl. apply env_name_entry.
  apply list_elem_of_lookup_2 in Hi. rewrite merge_sort_Permutation in Hi.
  apply list_elem_of_fmap in Hi as ([k v] & -> & Hkv). apply elem_of_map_to_list in Hkv.
  exact (map_Forall_lookup_1 _ _ _ _ Hp Hkv).
Qed.

Lemma render_sorted values :
  names_plain values ->
  Sorted string_le (env_name <$> render_environment values) /\ NoDup (env_name <$> render_environment values).
Proof.
  intros Hp. rewrite render_names by done. split; [apply Sorted_merge_sort, _|].
  rewrite merge_sort_Permutation. apply NoDup_fst_map_to_list.
Qed.

Lemma base_names_plain job request : names_plain (base_environment job request).
Proof.
  intros n v H. unfold base_environment in H. apply elem_of_list_to_map_2 in H.
  repeat (apply elem_of_cons in H as [[= -> ->]|H]; [done|]). by apply elem_of_nil in H.
Qed.

Lemma fold_names_plain entries : forall values,
  Forall entry_ok entries -> names_plain values -> names_plain (fold_left add_entry entries values).
Proof.
  induction entries as [|e entries IH]; intros values He Hv; [done|]. simpl.
  apply Forall_cons in He as [(n & v & -> & _ & Hn & _) He]. apply IH; [done|].
  apply map_Forall_insert_2; [by rewrite env_name_entry|done].
Qed.

Lemma entry_ok_split e : entry_ok e -> e = env_entry (env_name e) (env_value e) /\ env_name e ∉ reserved_names.
Proof. intros (n & v & -> & _ & Hn & _ & Hr). unfold env_name, env_value. by rewrite Cut_entry. Qed.

Lemma compileEnvironment_char job request :
  let user := Exec_Environment (Job_Execution job) in
  let base := base_environment job request in
  match compileEnvironment job request with
  | Ok env =>
      Forall entry_ok user /\ NoDup (env_name <$> user) /\
      Sorted string_le (env_name <$> env) /\ NoDup (env_name <$> env) /\
      (forall e, e ∈ user -> e ∈ env) /\
      (forall n v, base !! n = Some v -> n ∈ reserved_names -> env_entry n v ∈ env) /\
      (forall e, e ∈ env -> e ∈ user \/
         exists n v, base !! n = Some v /\ e = env_entry n v /\ n ∉ env_name <$> user)
  | Err _ => ~ (Forall entry_ok user /\ NoDup (env_name <$> user))
  end.
Proof.
  intros user base. unfold compileEnvironment. fold user base.
  destruct (environment_loop user ∅ base) as [values|e] eqn:E.
  - apply environment_loop_Ok in E as (Hok & Hnd & _ & ->). destruct (fold_add_entry user base Hnd) as [Hin Hout].
    destruct (render_sorted (fold_left add_entry user base)) as [Hs Hn].
    { apply fold_names_plain; [done|apply base_names_plain]. }
    pose proof Hok as Hok'. rewrite Forall_forall in Hok'.
    split_and!; [done..| | |].
    + intros e He. apply render_elem. exists (env_name e), (env_value e). split; [by apply Hin|].
      by apply entry_ok_split, Hok'.
    + intros n v Hv Hr. apply render_elem. exists n, v. split; [|done]. rewrite Hout; [done|].
      intros (e & -> & He)%list_elem_of_fmap. by apply (proj2 (entry_ok_split e (Hok' e He))).
    + intros e (n & v & Hv & ->)%render_elem. destruct (decide (n ∈ env_name <$> user)) as [Hu|Hu].
      * apply list_elem_of_fmap in Hu as (e & -> & He). rewrite Hin in Hv by done. injection Hv as <-. left.
        by rewrite <-(proj1 (entry_ok_split e (Hok' e He))).
      * right. rewrite Hout in Hv by done. by exists n, v.
  - intros [Hok Hnd]. assert (environment_loop user ∅ base = Ok (fold_left add_entry user base)) as E'; [|congruence].
    apply environment_loop_Ok. split_and!; [done..| |done]. apply Forall_forall. intros x _. apply not_elem_of_empty.
Qed.

(** The environment of a run.  It is accepted exactly when every entry of
    the job is a well-formed, non-reserved assignment and no name repeats; the
    result is sorted by name without repetition, holds every entry of the job,
    holds SyncBridge's own value for every reserved name, and holds nothing
    else than those and the locale defaults the job did not override. *)
Theorem compileEnvironment_spec job request :
  let user := Exec_Environment (Job_Execution job) in
  let base := base_environment job request in
  match compileEnvironment job request with
  | Ok env =>
      Forall entry_ok user /\ NoDup (env_name <$> user) /\
      Sorted string_le (env_name <$> env) /\ NoDup (env_name <$> env) /\
      (forall e, e ∈ user -> e ∈ env) /\
      (forall n v, base !! n = Some v -> n ∈ reserved_names -> env_entry n v ∈ env) /\
      (forall e, e ∈ env -> e ∈ user \/
         exists n v, base !! n = Some v /\ e = env_entry n v /\ n ∉ env_name <$> user)
  | Err _ => ~ (Forall entry_ok user /\ NoDup (env_name <$> user))
  end.
Proof. exact (compileEnvironment_char job request). Qed.

(** ** Bounds *)

Lemma compileExecutionBounds_char policy :
  match compileExecutionBounds policy with
  | Ok (timeout, grace, umask) =>
      (0 <= Exec_TimeoutSeconds policy <= 604800)%Z /\ (0 <= Exec_StopGraceSeconds policy <= 300)%Z /\
      (Exec_Umask policy <= 511)%Z /\
      timeout = (if Exec_TimeoutSeconds policy =? 0 then 3600 * second else Exec_TimeoutSeconds policy * second)%Z /\
      grace = (if Exec_StopGraceSeconds policy =? 0 then 10 * second else Exec_StopGraceSeconds policy * second)%Z /\
      umask = (if Exec_Umask policy =? 0 then 18 else Exec_Umask policy)%Z /\
      (second <= timeout <= maxExecutionTimeout)%Z /\ (second <= grace <= maxStopGrace)%Z
  | Err _ =>
      ~ ((0 <= Exec_TimeoutSeconds policy <= 604800)%Z /\ (0 <= Exec_StopGraceSeconds policy <= 300)%Z /\
         (Exec_Umask policy <= 511)%Z)
  end.
Proof.
  unfold compileExecutionBounds.
  change (maxExecutionTimeout / second)%Z with 604800%Z. change (maxStopGrace / second)%Z with 300%Z.
  destruct ((Exec_TimeoutSeconds policy <? 0)%Z || _) eqn:E1; simpl; [apply orb_true_iff in E1; rewrite Z.ltb_lt, Z.gtb_lt in E1; lia|]. apply orb_false_iff in E1 as [E1 E1'].
  destruct ((Exec_StopGraceSeconds policy <? 0)%Z || _) eqn:E2; simpl; [apply orb_true_iff in E2; rewrite Z.ltb_lt, Z.gtb_lt in E2; lia|]. apply orb_false_iff in E2 as [E2 E2'].
  destruct (Exec_Umask policy >? 511)%Z eqn:E3; simpl; [rewrite Z.gtb_lt in E3; lia|]. bool_simpl.
  rewrite !wrap_s64_id by (unfold in_s64, two63, second; lia).
  assert (forall n, (n * second =? 0) = (n =? 0))%Z as Hz by (intros n; unfold second; apply eq_true_iff_eq; rewrite !Z.eqb_eq; lia). rewrite !Hz.
  unfold defaultExecutionTimeout, defaultStopGrace, defaultUmask, maxExecutionTimeout, maxStopGrace, second.
  split_and!; try lia; repeat case_goal; bool_simpl; lia.
Qed.

(** The execution bounds.  Every policy inside the documented ranges is
    accepted, with zero meaning the default, every other policy is rejected, and
    the conversion to nanoseconds never overflows: the timeout is between one
    second and seven days, the grace period between one second and five minutes,
    the umask a permission mask. *)
Theorem compileExecutionBounds_spec policy :
  match compileExecutionBounds policy with
  | Ok (timeout, grace, umask) =>
      (0 <= Exec_TimeoutSeconds policy <= 604800)%Z /\ (0 <= Exec_StopGraceSeconds policy <= 300)%Z /\
      (Exec_Umask policy <= 511)%Z /\
      timeout = (if Exec_TimeoutSeconds policy =? 0 then 3600 * second else Exec_TimeoutSeconds policy * second)%Z /\
      grace = (if Exec_StopGraceSeconds policy =? 0 then 10 * second else Exec_StopGraceSeconds policy * second)%Z /\
      umask = (if Exec_Umask policy =? 0 then 18 else Exec_Umask policy)%Z /\
      (second <= timeout <= maxExecutionTimeout)%Z /\ (second <= grace <= maxStopGrace)%Z
  | Err _ =>
      ~ ((0 <= Exec_TimeoutSeconds policy <= 604800)%Z /\ (0 <= Exec_StopGraceSeconds policy <= 300)%Z /\
         (Exec_Umask policy <= 511)%Z)
  end.
Proof. exact (compileExecutionBounds_char policy). Qed.

(** ** Paths *)

Lemma Split_Join_app comps t :
  comps <> [] -> Forall (fun c => has_byte slash c = false) comps ->
  Split slash (Join "/" comps +:+ "/" +:+ t) = comps ++ Split slash t.
Proof.
  intros Hne H. induction H as [|c comps Hc Hcs IH]; [done|].
  destruct comps as [|d comps].
  - simpl. by apply Split_app.
  - rewrite Join_cons by done. rewrite !app_assoc_str.
    change ("/" +:+ Join "/" (d :: comps) +:+ "/" +:+ t)
      with (String slash (Join "/" (d :: comps) +:+ "/" +:+ t)).
    rewrite Split_app, IH by done. done.
Qed.

Lemma good_no_slash comps : Forall good_component comps -> Forall (fun c => has_byte slash c = false) comps.
Proof. intros H. eapply Forall_impl; [exact H|]. by intros c (_ & _ & _ & ?). Qed.

(** On canonical paths, [pathWithin] is the strict prefix order on components. *)
Lemma pathWithin_comps p c :
  Forall good_component p -> Forall good_component c ->
  pathWithin (abs_path p) (abs_path c) = true <-> exists rest, rest <> [] /\ c = p ++ rest.
Proof.
  intros Hp Hc. unfold pathWithin. destruct (string_eqb (abs_path p) "/") eqn:E; str_eqb.
  - change "/" with (abs_path []) in E. apply abs_path_inj in E as ->; [|done|constructor].
    rewrite negb_true_iff, string_eqb_false. split.
    + intros H. exists c. split; [|done]. by intros ->.
    + intros (rest & Hne & ->) Heq. apply (abs_path_inj _ []) in Heq; [done|done|constructor].
  - assert (p <> []) as Hne by (by intros ->). rewrite HasPrefix_iff. split.
    + intros (t & Ht). exists (Split slash t). split; [destruct (Split_nonempty slash t) as (? & ? & ->); done|].
      apply (f_equal (Split slash)) in Ht. rewrite Split_abs_path in Ht by done.
      unfold abs_path in Ht. rewrite !app_assoc_str in Ht.
      change ("/" +:+ Join "/" p +:+ "/" +:+ t) with ("" +:+ String slash (Join "/" p +:+ "/" +:+ t)) in Ht.
      rewrite Split_app, Split_Join_app in Ht by (done || by apply good_no_slash).
      destruct c as [|d c]; injection Ht as Ht; [|done].
      exfalso. destruct p as [|x p]; [done|]. injection Ht as <- _.
      apply Forall_cons in Hp as [[Hx _] _]. done.
    + intros (rest & Hr & ->). exists (Join "/" rest). unfold abs_path. by rewrite Join_app, !app_assoc_str by done.
Qed.

Lemma pathWithin_prefix p c :
  Forall good_component p -> Forall good_component c -> abs_path p <> abs_path c ->
  pathWithin (abs_path p) (abs_path c) = false -> ~ p `prefix_of` c.
Proof.
  intros Hp Hc Hne Hw [rest ->]. assert (rest <> []) as Hr by (intros ->; by rewrite app_nil_r in Hne).
  assert (pathWithin (abs_path p) (abs_path (p ++ rest)) = true) as Ht; [|congruence].
  apply pathWithin_comps; eauto.
Qed.

Lemma validateAbsoluteCanonicalPath_Ok p :
  validateAbsoluteCanonicalPath p = Ok tt <->
  IsAbs p = true /\ Clean p = p /\ has_byte nul p = false /\ has_control p = false.
Proof.
  unfold validateAbsoluteCanonicalPath. rewrite fail_bind, fail_if_Ok, !orb_false_iff, !negb_false_iff.
  rewrite string_eqb_true, string_eqb_false. split; [naive_solver|]. intros (H & ? & ? & ?).
  split_and!; try done. by intros ->.
Qed.

Lemma valid_path_comps p :
  validateAbsoluteCanonicalPath p = Ok tt -> exists comps, Forall good_component comps /\ p = abs_path comps.
Proof. intros (? & ? & _)%validateAbsoluteCanonicalPath_Ok. by apply canonical_iff. Qed.

(** ** Inversion of the compiler's steps *)

Section CompilerFacts.
Context {W : Type} `{!HostInspector W}.

Lemma inspectCanonicalPath_Ok p (w : W) info w' :
  inspectCanonicalPath p w = (Ok info, w') ->
  validateAbsoluteCanonicalPath p = Ok tt /\ InspectPath p w = (Ok info, w') /\ Info_CanonicalPath info = p.
Proof.
  unfold inspectCanonicalPath. intros H. se_inv. destruct (negb _) eqn:E; se_inv. bool_simpl. by str_eqb.
Qed.

Lemma lookup_coherent_Ok {A} (m : SE W A) f msg w u w' :
  lookup_coherent m f msg w = (Ok u, w') -> exists a, m w = (Ok a, w') /\ f a = true.
Proof.
  unfold lookup_coherent. rewrite SE_bind_unfold. unfold attempt. destruct (m w) as [[a|e] w1]; [|done].
  intros H. se_inv. bool_simpl. eauto.
Qed.

(** What the host answered about a path or an account at some point. *)
Definition observed_path (p : string) (info : HostPathInfo) : Prop := exists w w' : W, InspectPath p w = (Ok info, w').
Definition observed_user (n : string) (u : HostUser) : Prop := exists w w' : W, LookupUser n w = (Ok u, w').
Definition observed_group (n : string) (g : HostGroup) : Prop := exists w w' : W, LookupGroup n w = (Ok g, w').

Definition fixed_verified (identity : Identity) : Prop :=
  Identity_Mode identity = IdentityFixed /\ fixed_identity_ok identity = true /\
  (exists u, observed_user (Identity_User identity) u /\
     User_Name u = Identity_User identity /\ User_UID u = Identity_UID identity) /\
  (exists g, observed_group (Identity_Group identity) g /\
     Group_Name g = Identity_Group identity /\ Group_GID g = Identity_GID identity).

Definition owner_verified (path : string) : Prop :=
  exists info, observed_path path info /\ script_ok info = true /\ Info_UID info <> 0%Z /\ Info_GID info <> 0%Z /\
    (exists u, observed_user (Itoa (Info_UID info)) u /\ User_UID u = Info_UID info) /\
    (exists g, observed_group (Itoa (Info_GID info)) g /\ Group_GID g = Info_GID info).

Lemma validateIdentity_Ok job (w : W) identity w' :
  validateIdentity job w = (Ok identity, w') ->
  (identity = Job_Identity job /\ fixed_verified identity) \/
  (identity = MkIdentity IdentityScriptOwner "" 0 "" 0 /\ Action_Type (Job_Action job) = ActionScript /\
   owner_verified (Action_ScriptPath (Job_Action job))).
Proof.
  unfold validateIdentity. intros H. destruct (string_eqb _ IdentityScriptOwner) eqn:E1; se_inv; bool_simpl; str_eqb.
  - right. split; [done|]. split; [done|].
    repeat match goal with
    | H : lookup_coherent _ _ _ _ = _ |- _ => apply lookup_coherent_Ok in H as (? & ? & ?)
    | H : inspectCanonicalPath _ _ = _ |- _ => apply inspectCanonicalPath_Ok in H as (? & ? & ?)
    end. bool_simpl. match goal with H : InspectPath _ _ = (Ok ?i, _) |- _ => exists i end.
    unfold observed_path, observed_user, observed_group. split_and!; eauto 8.
  - destruct (string_eqb _ IdentityFixed) eqn:E2; se_inv; bool_simpl; str_eqb. left. split; [done|].
    repeat match goal with H : lookup_coherent _ _ _ _ = _ |- _ => apply lookup_coherent_Ok in H as (? & ? & ?) end.
    bool_simpl. str_eqb. unfold fixed_verified, observed_user, observed_group. split_and!; eauto 8.
Qed.

(** A compiled sync: the options are valid, the endpoints are canonical and
    disjoint, and a destructive sync is guarded on a source seen non-empty. *)
Definition sync_compiled (a : SyncAction) (dry : bool) (requestedAt : Z) (argv : list string) (guard : string) : Prop :=
  exists destructive s d info,
    syncArgv a dry requestedAt = Ok (argv, destructive) /\ validateArgv argv = Ok tt /\
    validateAbsoluteCanonicalPath (Sync_Source a) = Ok tt /\ validateAbsoluteCanonicalPath (Sync_Dest a) = Ok tt /\
    Forall good_component s /\ Forall good_component d /\ Sync_Source a = abs_path s /\ Sync_Dest a = abs_path d /\
    ~ s `prefix_of` d /\ ~ d `prefix_of` s /\
    observed_path (Sync_Source a) info /\ Info_Exists info = true /\ Info_Directory info = true /\
    (destructive = true -> Info_Empty info = false) /\
    guard = (if destructive then Sync_Source a else "").

Lemma compileSync_Ok a dry requestedAt (w : W) argv src dst guard w' :
  compileSync a dry requestedAt w = (Ok (argv, src, dst, guard), w') ->
  src = Sync_Source a /\ dst = Sync_Dest a /\ sync_compiled a dry requestedAt argv guard.
Proof.
  unfold compileSync. intros H. se_inv.
  match goal with H : (let (_, _) := ?x in _) _ = _ |- _ => destruct x as [argv' destructive]; se_inv end.
  repeat match goal with H : inspectCanonicalPath _ _ = _ |- _ => apply inspectCanonicalPath_Ok in H as (? & ? & ?) end.
  split; [done|]. split; [done|]. subst. bool_simpl. str_eqb.
  match goal with
  | Hs : Info_CanonicalPath ?i = Sync_Source a, Hd : Info_CanonicalPath ?j = Sync_Dest a |- _ =>
      rewrite Hs, Hd in *; exists destructive
  end.
  match goal with
  | Hs : validateAbsoluteCanonicalPath (Sync_Source a) = _, Hd : validateAbsoluteCanonicalPath (Sync_Dest a) = _,
    Ho : InspectPath (Sync_Source a) _ = (Ok ?info, _) |- _ =>
      destruct (valid_path_comps _ Hs) as (s & Hgs & Es); destruct (valid_path_comps _ Hd) as (d & Hgd & Ed);
      exists s, d, info; assert (observed_path (Sync_Source a) info) by (eexists _, _; exact Ho)
  end.
  rewrite Es, Ed in *.
  split_and!; try done; [by apply pathWithin_prefix|apply pathWithin_prefix; auto|by intros ->].
Qed.

(** The same for any action. *)
Definition action_compiled (c : CapabilityReport) (action : Action) (identity : Identity) (dry : bool) (requestedAt : Z)
    (argv : list string) (src dst guard : string) : Prop :=
  (Action_Type action = ActionScript /\ argv = Action_ScriptPath action :: Action_ScriptArgs action /\
   src = Action_ScriptPath action /\ dst = "" /\ guard = "" /\ validateArgv argv = Ok tt /\
   validateAbsoluteCanonicalPath src = Ok tt /\
   exists info, observed_path src info /\ script_ok info = true) \/
  (Action_Type action = ActionCommand /\ Identity_Mode identity = IdentityFixed /\
   (exists tools, HostTools c = Ok tools /\ argv = [Tool_Shell tools; "-c"; Action_Command action]) /\
   src = "" /\ dst = "" /\ guard = "" /\ TrimSpace (Action_Command action) <> "" /\
   has_byte nul (Action_Command action) = false) \/
  (Action_Type action = ActionSync /\ Identity_Mode identity = IdentityFixed /\
   src = Sync_Source (Action_Sync action) /\ dst = Sync_Dest (Action_Sync action) /\
   sync_compiled (Action_Sync action) dry requestedAt argv guard).

Lemma compileAction_Ok c action identity dry requestedAt (w : W) argv src dst guard w' :
  compileAction c action identity dry requestedAt w = (Ok (argv, src, dst, guard), w') ->
  action_compiled c action identity dry requestedAt argv src dst guard.
Proof.
  unfold compileAction. intros H. destruct (string_eqb _ ActionScript) eqn:E1; [|destruct (string_eqb _ ActionCommand) eqn:E2;
    [|destruct (string_eqb _ ActionSync) eqn:E3]]; se_inv; bool_simpl; str_eqb.
  - left. match goal with H : inspectCanonicalPath _ _ = _ |- _ => apply inspectCanonicalPath_Ok in H as (? & ? & ?) end.
    split_and!; try done. eexists. split; [by eexists _, _|done].
  - right. left. split_and!; try done. eauto.
  - right. right. match goal with H : compileSync _ _ _ _ = _ |- _ => apply compileSync_Ok in H as (-> & -> & ?) end. done.
Qed.

(** Everything a successful [Compile] establishes. *)
Record compiled (c : PlanCompiler) (job : Job) (request : RunRequest) (plan : ExecutionPlan) : Prop := {
  compiled_pre : compile_preconditions (Some c) job request = Ok c;
  compiled_caps : Forall (fun code => Cap_Status (ByCode (compiler_capabilities c) code) = CapabilityAvailable)
                    (required_capabilities (Job_Action job));
  compiled_tools : HostTools (compiler_capabilities c) = Ok (Plan_HostTools plan);
  compiled_directory : validateAbsoluteCanonicalPath (Plan_WorkingDirectory plan) = Ok tt;
  compiled_identity :
    (Plan_Identity plan = Job_Identity job /\ fixed_verified (Plan_Identity plan)) \/
    (Plan_Identity plan = MkIdentity IdentityScriptOwner "" 0 "" 0 /\ Action_Type (Job_Action job) = ActionScript /\
     owner_verified (Action_ScriptPath (Job_Action job)));
  compiled_action_ok :
    action_compiled (compiler_capabilities c) (Job_Action job) (Plan_Identity plan) (Plan_DryRun plan)
      (Plan_RequestedAt plan) (Plan_Argv plan) (Plan_SourcePath plan) (Plan_DestinationPath plan)
      (Plan_NonEmptySourceDir plan);
  compiled_environment : compileEnvironment job request = Ok (Plan_Environment plan);
  compiled_bounds :
    compileExecutionBounds (Job_Execution job) = Ok (Plan_Timeout plan, Plan_StopGrace plan, Plan_Umask plan);
  compiled_copies :
    Plan_RunID plan = Request_RunID request /\ Plan_JobID plan = Job_ID job /\ Plan_Revision plan = Job_Revision job /\
    Plan_Origin plan = Request_Origin request /\ Plan_DryRun plan = Request_DryRun request /\
    Plan_ActionType plan = Action_Type (Job_Action job) /\ Plan_Command plan = Action_Command (Job_Action job) /\
    Plan_Sync plan = Action_Sync (Job_Action job) /\
    Plan_SyncEngine plan = Sync_Engine (Action_Sync (Job_Action job)) /\
    Plan_SyncMode plan = Sync_Mode (Action_Sync (Job_Action job)) /\
    Plan_LauncherEnvironment plan = HostLauncherEnvironment /\
    Plan_WrapperPath plan = wrapper_path (compiler_instanceID c) (Job_ID job)
}.

Lemma Require_Ok r codes :
  Require_ r codes = Ok tt -> Forall (fun c => Cap_Status (ByCode r c) = CapabilityAvailable) codes.
Proof. intros H. pose proof (Require_missing r codes) as Hs. by rewrite H in Hs. Qed.

Lemma compile_preconditions_same c job request c' :
  compile_preconditions c job request = Ok c' -> c = Some c'.
Proof. destruct c as [c|]; [|done]. unfold compile_preconditions. intros H. by res_inv. Qed.

Lemma Compile_Ok c now job request (w : W) plan w' :
  Compile c now job request w = (Ok plan, w') ->
  exists c', c = Some c' /\ compiled c' job request plan.
Proof.
  unfold Compile. intros H. se_inv.
  match goal with H : (let (_, _) := ?x in _) _ = _ |- _ => destruct x as [[[argv src] dst] guard]; se_inv end.
  match goal with H : (let (_, _) := ?x in _) _ = _ |- _ => destruct x as [[timeout grace] umask]; se_inv end.
  match goal with H : compile_preconditions _ _ _ = Ok ?c' |- _ =>
    pose proof (compile_preconditions_same _ _ _ _ H) as ->; exists c'; split; [done|] end.
  repeat match goal with
  | H : inspectCanonicalPath _ _ = _ |- _ => apply inspectCanonicalPath_Ok in H as (? & ? & ?)
  | H : Require_ _ _ = _ |- _ => apply Require_Ok in H
  | H : validateIdentity _ _ = _ |- _ => apply validateIdentity_Ok in H
  | H : compileAction _ _ _ _ _ _ = _ |- _ => apply compileAction_Ok in H
  end.
  split; done.
Qed.
End CompilerFacts.

(** ** A host to compile against *)

(** One user and group, every path an existing non-empty directory. *)
Definition demo_inspector : HostInspector unit := {|
  InspectPath p := mret (MkHostPathInfo p true false true true false false 1000 1000);
  LookupUser n := if string_eqb n "alice" then mret (MkHostUser "alice" 1000 1000 "/home/alice" "/bin/sh")
                  else lift (Err (ErrNew "lookup host user"));
  LookupGroup n := if string_eqb n "users" then mret (MkHostGroup "users" 100) else lift (Err (ErrNew "lookup host group"))
|}.

Definition demo_tools : HostToolPaths :=
  MkHostToolPaths "gnu" "/bin/sh" "/usr/bin/test" "/usr/bin/readlink" "/usr/bin/stat" "/usr/bin/head" "/usr/bin/find"
    "/usr/bin/getent" "/usr/bin/setpriv" "/usr/bin/env" "/usr/bin/mkdir" "/usr/bin/chown" "/usr/bin/chmod"
    "/usr/bin/mktemp" "/usr/bin/tee" "/usr/bin/sync" "/usr/bin/mv" "/usr/bin/rm" "/usr/bin/rmdir" "/usr/bin/date".

Definition demo_report : CapabilityReport :=
  MkCapabilityReport (map (fun code => availableCapability code (details demo_tools)) capability_codes).

Definition demo_compiler : PlanCompiler := NewPlanCompiler "nas-1" demo_report.

Definition demo_sync_job : Job :=
  MkJob 2 7 3 "nightly" true false (MkAction ActionSync "" [] "" example_sync)
    (MkIdentity IdentityFixed "alice" 1000 "users" 100) (MkExecutionPolicy "" ["COLOR=never"] 0 0 0 "skip") TriggerCron
    (MkSchedulerPolicy SchedulerSyncBridge) "" "" "" "" "" "" "" "" "" "" 0 0 0 "" "" false 0 0 false false "" false "" "".

Definition demo_request : RunRequest := MkRunRequest "run-1" 7 3 RunOriginManual false 1.

Definition demo_compile : result ExecutionPlan * unit :=
  @Compile unit demo_inspector (Some demo_compiler) 1 demo_sync_job demo_request tt.

(** ** Properties *)

(** C7: what a compiled plan guarantees, on any host.  The job was reviewed and is
    the revision asked for; every capability it needs was available; it runs
    either as the fixed account of the job, whose name and UID and GID the host
    confirmed, or, for scripts only, as the owner of an executable script that
    was seen to be neither UID nor GID 0; and a sync runs between canonical
    directories neither of which contains the other, with a destructive sync
    guarded on a source that was seen non-empty. *)
Theorem Compile_sound {W} `{!HostInspector W} c now job request (w : W) plan w' :
  Compile c now job request w = (Ok plan, w') ->
  Job_NeedsReview job = false /\ Job_SchemaVersion job = 2%Z /\
  (Request_Revision request = 0%Z \/ Request_Revision request = Job_Revision job) /\
  (exists c', c = Some c' /\ Forall (fun code => Cap_Status (ByCode (compiler_capabilities c') code) = CapabilityAvailable)
     (required_capabilities (Job_Action job))) /\
  ((Plan_Identity plan = Job_Identity job /\ fixed_verified (W := W) (Plan_Identity plan)) \/
   (Plan_Identity plan = MkIdentity IdentityScriptOwner "" 0 "" 0 /\ Plan_ActionType plan = ActionScript /\
    owner_verified (W := W) (Action_ScriptPath (Job_Action job)))) /\
  (Plan_ActionType plan = ActionSync ->
     sync_compiled (W := W) (Plan_Sync plan) (Plan_DryRun plan) (Plan_RequestedAt plan) (Plan_Argv plan)
       (Plan_NonEmptySourceDir plan)).
Proof.
  intros H. apply Compile_Ok in H as (c' & -> & [Hpre Hcaps _ _ Hid Hact _ _ Hcopy]).
  destruct Hcopy as (_ & _ & _ & _ & _ & -> & _ & -> & _).
  unfold compile_preconditions in Hpre. res_inv. bool_simpl. split_and!; [done..| | |done|].
  - match goal with H : negb (Request_Revision request =? 0)%Z && _ = false |- _ =>
      apply andb_false_iff in H as [H|H]; bool_simpl; auto end.
  - by exists c'.
  - intros Ht. destruct Hact as [(Ht' & _)|[(Ht' & _)|(_ & _ & _ & _ & Hs)]]; [by rewrite Ht in Ht'..|done].
Qed.

Lemma Compile_sound_witness :
  exists plan, demo_compile = (Ok plan, tt) /\ Job_NeedsReview demo_sync_job = false /\
    Plan_NonEmptySourceDir plan = "/srv/data".
Proof.
  assert (exists plan, demo_compile = (Ok plan, tt) /\ Plan_NonEmptySourceDir plan = "/srv/data") as (plan & Hp & Hn)
    by (eexists; split; vm_compute; reflexivity).
  exists plan. split; [exact Hp|]. split; [|exact Hn].
  exact (proj1 (@Compile_sound unit demo_inspector (Some demo_compiler) 1%Z demo_sync_job demo_request tt plan tt Hp)).
Defined.
