(* ===== verification/Wrapper.v ===== *)
(** * The host wrapper script ([wrapper.go], the renderer)

    [Render] writes the root-owned POSIX shell script that revalidates paths and
    identity on the host, drops privileges and executes the plan's argv.  Shell
    text is written here with two placeholders: a backtick stands for a double
    quote and a tilde for a newline; [sh] puts the real characters in (the
    scripts use neither placeholder themselves). *)

From S2P Require Import Prelude GoStrings Model HostCommand Capabilities ExecutionPlan.

Definition sh (template : string) : string :=
  ReplaceByte "~" newline (ReplaceByte "`" (str1 quote_double) template).

(** [b.WriteString(a); b.WriteString(b); ...] *)
Definition cat (parts : list string) : string := fold_right (fun a b => a +:+ b) "" parts.

Definition ShellQuote (input : string) : string :=
  "'" +:+ ReplaceByte quote_single (sh "'`'`'") input +:+ "'".
(** [ShellQuote] of each argument, separated by one space *)
Definition quote_words (words : list string) : string := Join " " (map ShellQuote words).

Record wrapperToolPaths := MkWrapperToolPaths {
  wt_readlink : string; wt_head : string; wt_stat : string; wt_find : string; wt_getent : string;
  wt_setpriv : string; wt_env : string; wt_date : string; wt_rm : string
}.

Definition render_tools (t : HostToolPaths) : wrapperToolPaths :=
  MkWrapperToolPaths (Tool_Readlink t) (Tool_Head t) (Tool_Stat t) (Tool_Find t) (Tool_Getent t) (Tool_Setpriv t)
    (Tool_Env t) (Tool_Date t) (Tool_Rm t).

(** ** Validation *)

Definition optional_path (name path : string) : result unit :=
  if string_eqb path "" then Ok tt else wrap_err (name +:+ " path: ") (validateAbsoluteCanonicalPath path).

Definition zero_sync (a : SyncAction) : bool := bool_decide (a = zeroSyncAction).

(** The per-action consistency checks of [validate]. *)
Definition validate_action (plan : ExecutionPlan) : result unit :=
  if string_eqb (Plan_ActionType plan) ActionScript then
    fail_if (Plan_DryRun plan || string_eqb (Plan_SourcePath plan) "" ||
             negb (string_eqb (List.hd "" (Plan_Argv plan)) (Plan_SourcePath plan)) ||
             negb (string_eqb (Plan_DestinationPath plan) "") || negb (string_eqb (Plan_NonEmptySourceDir plan) "") ||
             negb (string_eqb (Plan_Command plan) "") || negb (string_eqb (Plan_SyncEngine plan) "") ||
             negb (string_eqb (Plan_SyncMode plan) "") || negb (zero_sync (Plan_Sync plan)))
      (ErrNew "script plan fields are inconsistent")
  else if string_eqb (Plan_ActionType plan) ActionCommand then
    fail_if (Plan_DryRun plan || string_eqb (TrimSpace (Plan_Command plan)) "" ||
             negb (string_eqb (Plan_SourcePath plan) "") || negb (string_eqb (Plan_DestinationPath plan) "") ||
             negb (string_eqb (Plan_NonEmptySourceDir plan) "") || negb (string_eqb (Plan_SyncEngine plan) "") ||
             negb (string_eqb (Plan_SyncMode plan) "") || negb (zero_sync (Plan_Sync plan)) ||
             negb (bool_decide (Plan_Argv plan = [Tool_Shell (Plan_HostTools plan); "-c"; Plan_Command plan])))
      (ErrNew "command plan fields are inconsistent")
  else if string_eqb (Plan_ActionType plan) ActionSync then
    match syncArgv (Plan_Sync plan) (Plan_DryRun plan) (Plan_RequestedAt plan) with
    | Err _ => Err (ErrNew "sync plan fields are inconsistent")
    | Ok (wantArgv, destructive) =>
        _ ← fail_if (negb (string_eqb (Plan_Command plan) "") || string_eqb (Plan_SourcePath plan) "" ||
                     string_eqb (Plan_DestinationPath plan) "" ||
                     negb (string_eqb (Plan_SyncEngine plan) (Sync_Engine (Plan_Sync plan))) ||
                     negb (string_eqb (Plan_SyncMode plan) (Sync_Mode (Plan_Sync plan))) ||
                     negb (string_eqb (Plan_SourcePath plan) (Sync_Source (Plan_Sync plan))) ||
                     negb (string_eqb (Plan_DestinationPath plan) (Sync_Dest (Plan_Sync plan))) ||
                     negb (bool_decide (Plan_Argv plan = wantArgv)))
              (ErrNew "sync plan fields are inconsistent");
        _ ← fail_if (string_eqb (Plan_SourcePath plan) (Plan_DestinationPath plan) ||
                     pathWithin (Plan_SourcePath plan) (Plan_DestinationPath plan) ||
                     pathWithin (Plan_DestinationPath plan) (Plan_SourcePath plan))
              (ErrNew "sync paths overlap");
        fail_if (negb (Bool.eqb destructive (string_eqb (Plan_NonEmptySourceDir plan) (Plan_SourcePath plan))))
          (ErrNew "sync destructive guard is inconsistent")
    end
  else Err (ErrNew "wrapper action type is invalid").

Definition validate_identity (plan : ExecutionPlan) : result unit :=
  if string_eqb (Identity_Mode (Plan_Identity plan)) IdentityScriptOwner then
    fail_if (negb (string_eqb (Plan_ActionType plan) ActionScript))
      (ErrNew "script-owner wrapper requires a script action")
  else if string_eqb (Identity_Mode (Plan_Identity plan)) IdentityFixed then
    fail_if (negb (fixed_identity_ok (Plan_Identity plan))) (ErrNew "fixed wrapper identity is invalid")
  else Err (ErrNew "wrapper identity mode is invalid").

(** The loop over the environment; returns [hasPATH]. *)
Fixpoint validate_environment (entries : list string) (seen : gset string) (hasPATH : bool) : result bool :=
  match entries with
  | [] => Ok hasPATH
  | entry :: entries =>
      let '(name, value, ok) := Cut "=" entry in
      if negb ok || negb (environmentNamePattern name) || has_byte nul value
      then Err (ErrNew ("invalid wrapper environment entry " +:+ quoted entry))
      else if bool_decide (name ∈ ["HOME"; "USER"; "LOGNAME"; "SHELL"])
      then Err (ErrNew ("wrapper environment name " +:+ quoted name +:+ " is reserved"))
      else if bool_decide (name ∈ seen)
      then Err (ErrNew ("duplicate wrapper environment name " +:+ quoted name))
      else if string_eqb name "PATH" then
        if negb (string_eqb value jobExecutionPATH)
        then Err (ErrNew "wrapper PATH must use the fixed host execution path")
        else validate_environment entries ({[ name ]} ∪ seen) true
      else validate_environment entries ({[ name ]} ∪ seen) hasPATH
  end.

Fixpoint validate_tool_paths (paths : list string) : result unit :=
  match paths with
  | [] => Ok tt
  | path :: paths => _ ← wrap_err "wrapper tool path: " (validateAbsoluteCanonicalPath path); validate_tool_paths paths
  end.

Definition wrapper_tool_list (shell : string) (t : wrapperToolPaths) : list string :=
  [shell; wt_readlink t; wt_head t; wt_stat t; wt_find t; wt_getent t; wt_setpriv t; wt_env t; wt_date t; wt_rm t].

(** Go ranges over two map literals, in any order; the order decides only
    which of several errors is reported. *)
Definition validate (t : wrapperToolPaths) (plan : ExecutionPlan) : result unit :=
  _ ← fail_if (negb (profile_ok (Tool_Profile (Plan_HostTools plan))))
        (ErrNew "wrapper host toolchain profile is invalid");
  _ ← wrap_err "working directory path: " (validateAbsoluteCanonicalPath (Plan_WorkingDirectory plan));
  _ ← wrap_err "wrapper path: " (validateAbsoluteCanonicalPath (Plan_WrapperPath plan));
  _ ← optional_path "source" (Plan_SourcePath plan);
  _ ← optional_path "destination" (Plan_DestinationPath plan);
  _ ← optional_path "non-empty source guard" (Plan_NonEmptySourceDir plan);
  _ ← validateArgv (Plan_Argv plan);
  _ ← fail_if (Plan_Umask plan >? 511)%Z (ErrNew "wrapper umask is invalid");
  _ ← fail_if (negb (bool_decide (Plan_LauncherEnvironment plan = HostLauncherEnvironment)))
        (ErrNew "wrapper launcher environment is invalid");
  _ ← validate_action plan;
  _ ← validate_identity plan;
  hasPATH ← validate_environment (Plan_Environment plan) ∅ false;
  _ ← fail_if (negb hasPATH) (ErrNew "wrapper environment requires an explicit PATH");
  validate_tool_paths (wrapper_tool_list (Tool_Shell (Plan_HostTools plan)) t).

(** The source and the destination, each once and only when set. *)
Fixpoint distinct_paths (seen : list string) (paths : list string) : list string :=
  match paths with
  | [] => []
  | path :: paths =>
      if negb (string_eqb path "") && negb (bool_decide (path ∈ seen)) then path :: distinct_paths (path :: seen) paths
      else distinct_paths seen paths
  end.

Definition wrapperValidationPaths (plan : ExecutionPlan) : list string :=
  Plan_WorkingDirectory plan ::
  distinct_paths [Plan_WorkingDirectory plan] [Plan_SourcePath plan; Plan_DestinationPath plan].

(** ** The managed location of a wrapper *)

Definition managed_prefix : string := "/var/lib/syncbridge/instances/".

Definition validateManagedWrapperPath (plan : ExecutionPlan) : result unit :=
  _ ← wrap_err "managed wrapper path: " (validateAbsoluteCanonicalPath (Plan_WrapperPath plan));
  _ ← fail_if (negb (HasPrefix (Plan_WrapperPath plan) managed_prefix))
        (ErrNew "wrapper path is outside the managed root");
  match Split slash (TrimPrefix (Plan_WrapperPath plan) managed_prefix) with
  | [p0; p1; p2; p3] =>
      if negb (instanceIDPattern p0) || negb (string_eqb p1 "jobs") || negb (string_eqb p3 "run.sh")
      then Err (ErrNew "wrapper path does not match the managed job layout")
      else match Atoi p2 with
      | Some jobID =>
          fail_if ((jobID <=? 0)%Z || negb (jobID =? Plan_JobID plan)%Z)
            (ErrNew "wrapper path job ID does not match the execution plan")
      | None => Err (ErrNew "wrapper path job ID does not match the execution plan")
      end
  | _ => Err (ErrNew "wrapper path does not match the managed job layout")
  end.

(** ** Rendering *)

(** [%04o] *)
Fixpoint octal_digits (n : nat) (value : Z) : string :=
  match n with O => "" | S n => octal_digits n (value / 8) +:+ str1 (digit_char (value mod 8)) end.
Fixpoint octal_len (fuel : nat) (value : Z) : nat :=
  match fuel with O => 1 | S fuel => if (value <? 8)%Z then 1 else S (octal_len fuel (value / 8)) end.
Definition octal4 (value : Z) : string := octal_digits (Nat.max 4 (octal_len 21 value)) value.

Section Renderer.
Context (tools : wrapperToolPaths).

Definition render_prologue (plan : ExecutionPlan) : string :=
  cat ([ sh "#!/bin/sh~set -eu~~";
    sh "fail() {~    printf '%s\n' `$1` >&2~    exit 126~}~~";
    sh "single_line() {~    case `$1` in~        *'~'*) return 1 ;;~        *) return 0 ;;~    esac~}~~";
    sh "validate_canonical_path() {~";
    sh "    expected_path=$1~";
    "    resolved_path=$(" +:+ quote_words [wt_readlink tools; "-m"; "--"] +:+ sh " `$expected_path`) || fail " +:+
      ShellQuote "path cannot be canonicalized" +:+ newline;
    sh "    [ `$resolved_path` = `$expected_path` ] || fail 'path is no longer canonical'~";
    sh "}~~";
    sh "capture_path_snapshot() {~";
    sh "    snapshot_path=$1~";
    sh "    if [ -e `$snapshot_path` ] || [ -L `$snapshot_path` ]; then~";
    "        " +:+ quote_words [wt_stat tools; "-c"; "%d:%i:%f:%u:%g"; "--"] +:+ sh " `$snapshot_path` || return 1~";
    sh "    else~        printf '%s\n' missing~    fi~}~~";
    "PATH=" +:+ ShellQuote jobExecutionPATH +:+ sh "~export PATH~umask " +:+ octal4 (Plan_Umask plan) +:+ newline ] ++
    map (fun path => "validate_canonical_path " +:+ ShellQuote path +:+ newline) (wrapperValidationPaths plan) ++
    [ "cd " +:+ ShellQuote (Plan_WorkingDirectory plan) +:+ sh "~~" ]).

Definition renderScriptValidation (path : string) : string :=
  cat [ "script_path=" +:+ ShellQuote path +:+ newline;
    sh "[ -f `$script_path` ] || fail 'script is not a regular file'~";
    sh "[ -x `$script_path` ] || fail 'script is not executable'~";
    "magic=$(" +:+ quote_words [wt_head tools; "-c"; "2"; "--"] +:+ sh " `$script_path`) || fail " +:+
      ShellQuote "script shebang cannot be read" +:+ newline;
    sh "[ `$magic` = '#!' ] || fail 'script has no shebang'~" ].

(** [x=$(getent db `$var`) || fail 'msg'] *)
Definition getent_line (target db var msg : string) : string :=
  target +:+ "=$(" +:+ quote_words [wt_getent tools; db] +:+ sh (" `$" +:+ var +:+ "`) || fail ") +:+ ShellQuote msg +:+ newline.

Definition renderScriptOwnerIdentity : string :=
  cat [ sh "file_identity=${script_snapshot#*:*:*:}~";
    sh "case `$file_identity` in~    *:*) ;;~    *) fail 'script owner is malformed' ;;~esac~";
    sh "run_uid=${file_identity%%:*}~run_gid=${file_identity#*:}~";
    sh "case `$run_uid` in ''|*[!0-9]*) fail 'script UID is invalid' ;; esac~";
    sh "case `$run_gid` in ''|*[!0-9]*) fail 'script GID is invalid' ;; esac~";
    sh "[ `$run_uid` != 0 ] && [ `$run_gid` != 0 ] || fail 'script owner may not resolve to root'~~";
    getent_line "passwd_entry" "passwd" "run_uid" "script UID has no host account";
    sh "single_line `$passwd_entry` || fail 'script UID has multiple host accounts'~";
    sh "IFS=: read -r run_user _ account_uid account_gid _ run_home run_shell <<EOF~$passwd_entry~EOF~";
    sh "case `$account_uid` in ''|*[!0-9]*) fail 'host account UID is invalid' ;; esac~";
    sh "case `$account_gid` in ''|*[!0-9]*) fail 'host account GID is invalid' ;; esac~";
    sh "[ `$account_uid` = `$run_uid` ] || fail 'host account UID changed'~";
    sh "[ -n `$run_user` ] && [ -n `$run_home` ] && [ -n `$run_shell` ] || fail 'host account is incomplete'~";
    getent_line "passwd_by_name" "passwd" "run_user" "host account name cannot be resolved";
    sh "single_line `$passwd_by_name` || fail 'host account name is ambiguous'~";
    sh "[ `$passwd_by_name` = `$passwd_entry` ] || fail 'host account name and UID disagree'~~";
    getent_line "group_entry" "group" "run_gid" "script GID has no host group";
    sh "single_line `$group_entry` || fail 'script GID has multiple host groups'~";
    sh "IFS=: read -r run_group _ group_gid _ <<EOF~$group_entry~EOF~";
    sh "case `$group_gid` in ''|*[!0-9]*) fail 'host group GID is invalid' ;; esac~";
    sh "[ `$group_gid` = `$run_gid` ] || fail 'host group GID changed'~";
    sh "[ -n `$run_group` ] || fail 'host group is incomplete'~";
    getent_line "group_by_name" "group" "run_group" "host group name cannot be resolved";
    sh "single_line `$group_by_name` || fail 'host group name is ambiguous'~";
    sh "[ `$group_by_name` = `$group_entry` ] || fail 'host group name and GID disagree'~~" ].

Definition renderFixedIdentity (identity : Identity) : string :=
  cat [ "expected_user=" +:+ ShellQuote (Identity_User identity) +:+ sh "~expected_uid=" +:+
      ShellQuote (Itoa (Identity_UID identity)) +:+ sh "~expected_group=" +:+ ShellQuote (Identity_Group identity) +:+
      sh "~expected_gid=" +:+ ShellQuote (Itoa (Identity_GID identity)) +:+ newline;
    getent_line "passwd_entry" "passwd" "expected_user" "fixed host account name cannot be resolved";
    sh "single_line `$passwd_entry` || fail 'fixed host account name is ambiguous'~";
    sh "IFS=: read -r run_user _ run_uid account_gid _ run_home run_shell <<EOF~$passwd_entry~EOF~";
    sh "case `$run_uid` in ''|*[!0-9]*) fail 'fixed host account UID is invalid' ;; esac~";
    sh "case `$account_gid` in ''|*[!0-9]*) fail 'fixed host account GID is invalid' ;; esac~";
    sh "[ `$run_user` = `$expected_user` ] && [ `$run_uid` = `$expected_uid` ] || fail 'fixed host account name and UID disagree'~";
    sh "[ -n `$run_home` ] && [ -n `$run_shell` ] || fail 'fixed host account is incomplete'~";
    getent_line "passwd_by_uid" "passwd" "expected_uid" "fixed host account UID cannot be resolved";
    sh "single_line `$passwd_by_uid` || fail 'fixed host account UID is ambiguous'~";
    sh "[ `$passwd_by_uid` = `$passwd_entry` ] || fail 'fixed host account UID was reassigned'~~";
    getent_line "group_entry" "group" "expected_group" "fixed host group name cannot be resolved";
    sh "single_line `$group_entry` || fail 'fixed host group name is ambiguous'~";
    sh "IFS=: read -r run_group _ run_gid _ <<EOF~$group_entry~EOF~";
    sh "case `$run_gid` in ''|*[!0-9]*) fail 'fixed host group GID is invalid' ;; esac~";
    sh "[ `$run_group` = `$expected_group` ] && [ `$run_gid` = `$expected_gid` ] || fail 'fixed host group name and GID disagree'~";
    getent_line "group_by_gid" "group" "expected_gid" "fixed host group GID cannot be resolved";
    sh "single_line `$group_by_gid` || fail 'fixed host group GID is ambiguous'~";
    sh "[ `$group_by_gid` = `$group_entry` ] || fail 'fixed host group GID was reassigned'~~" ].

Definition renderNonEmptySourceCheck (source : string) : string :=
  cat [ "source_path=" +:+ ShellQuote source +:+ newline;
    sh "[ -d `$source_path` ] || fail 'destructive sync source is missing'~";
    "first_entry=$(" +:+ ShellQuote (wt_find tools) +:+ sh " `$source_path` " +:+
      quote_words ["-mindepth"; "1"; "-maxdepth"; "1"; "-print"; "-quit"] +:+ ") || fail " +:+
      ShellQuote "destructive sync source cannot be read" +:+ newline;
    sh "[ -n `$first_entry` ] || fail 'destructive sync source is empty'~~" ].

Definition renderSyncValidation (plan : ExecutionPlan) : string :=
  cat [ "source_path=" +:+ ShellQuote (Plan_SourcePath plan) +:+ sh "~destination_path=" +:+
      ShellQuote (Plan_DestinationPath plan) +:+ newline;
    sh "[ -d `$source_path` ] || fail 'sync source is missing'~";
    sh "if [ -e `$destination_path` ] || [ -L `$destination_path` ]; then [ -d `$destination_path` ] || fail 'sync destination is not a directory'; fi~";
    sh "source_snapshot=$(capture_path_snapshot `$source_path`) || fail 'sync source identity cannot be read'~";
    sh "destination_snapshot=$(capture_path_snapshot `$destination_path`) || fail 'sync destination identity cannot be read'~";
    sh "single_line `$source_snapshot` && single_line `$destination_snapshot` || fail 'sync path identity is ambiguous'~~" ].

Definition renderFinalGuards (plan : ExecutionPlan) : string :=
  if string_eqb (Plan_ActionType plan) ActionScript then
    cat [ sh "validate_canonical_path `$script_path`~";
      sh "final_script_snapshot=$(capture_path_snapshot `$script_path`) || fail 'script identity cannot be revalidated'~";
      sh "[ `$final_script_snapshot` = `$script_snapshot` ] || fail 'script changed before privilege drop'~";
      sh "[ -f `$script_path` ] && [ -x `$script_path` ] || fail 'script type changed before privilege drop'~~" ]
  else if string_eqb (Plan_ActionType plan) ActionSync then
    cat [ sh "validate_canonical_path `$source_path`~validate_canonical_path `$destination_path`~";
      sh "final_source_snapshot=$(capture_path_snapshot `$source_path`) || fail 'sync source identity cannot be revalidated'~";
      sh "final_destination_snapshot=$(capture_path_snapshot `$destination_path`) || fail 'sync destination identity cannot be revalidated'~";
      sh "[ `$final_source_snapshot` = `$source_snapshot` ] || fail 'sync source changed before privilege drop'~";
      sh "[ `$final_destination_snapshot` = `$destination_snapshot` ] || fail 'sync destination changed before privilege drop'~";
      sh "[ -d `$source_path` ] || fail 'sync source type changed before privilege drop'~";
      sh "if [ `$destination_snapshot` != missing ]; then [ -d `$destination_path` ] || fail 'sync destination type changed before privilege drop'; fi~";
      if string_eqb (Plan_NonEmptySourceDir plan) "" then "" else renderNonEmptySourceCheck (Plan_NonEmptySourceDir plan) ]
  else "".

Definition renderRuntimeBackup (plan : ExecutionPlan) : string :=
  let backupRoot := PathJoin [Plan_DestinationPath plan; ".sb-backup"] in
  let keep := if negb (Plan_DryRun plan) then Sync_BackupKeep (Plan_Sync plan) else 0%Z in
  cat [ "backup_stamp=$(" +:+ quote_words [wt_date tools; "-u"; "+%Y%m%d-%H%M%S"] +:+ ") || fail " +:+
      ShellQuote "backup timestamp cannot be generated" +:+ newline;
    "backup_root=" +:+ ShellQuote backupRoot +:+ newline;
    sh "backup_dir=`$backup_root/$backup_stamp-$$`~";
    "backup_keep=" +:+ ShellQuote (Itoa keep) +:+ sh "~~" ].

Definition backup_glob : string :=
  "[0-9][0-9][0-9][0-9][0-9][0-9][0-9][0-9]-[0-9][0-9][0-9][0-9][0-9][0-9]-[0-9]*".

Definition renderBackupRetention : string :=
  cat [ sh "if [ `$run_status` -eq 0 ] && [ `$backup_keep` -gt 0 ]; then~";
    sh ("    set -- `$backup_root`/" +:+ backup_glob +:+ "~");
    sh ("    if [ `$1` != `$backup_root/" +:+ backup_glob +:+ "` ]; then~");
    sh "        while [ `$#` -gt `$backup_keep` ]; do~";
    sh "            candidate=$1~";
    sh "            [ -d `$candidate` ] || fail 'backup retention candidate is not a directory'~";
    "            " +:+ quote_words [wt_rm tools; "-r"; "-f"] +:+ sh " `$candidate` || fail " +:+
      ShellQuote "backup retention removal failed" +:+ newline;
    sh "            shift~";
    sh "        done~";
    sh "    fi~";
    sh "fi~" ].

(** One word of the command line; the backup token becomes a variable. *)
Definition exec_word (arg : string) : string :=
  if string_eqb arg syncBackupDirToken then sh "`$backup_dir`" else ShellQuote arg.

(** The argv, every word but the last followed by a line continuation. *)
Fixpoint exec_argv (argv : list string) : string :=
  match argv with
  | [] => ""
  | [arg] => "    " +:+ exec_word arg
  | arg :: argv => "    " +:+ exec_word arg +:+ sh " \~" +:+ exec_argv argv
  end.

Definition exec_command (plan : ExecutionPlan) : string :=
  cat [ quote_words [wt_setpriv tools; "--reuid"] +:+ sh " `$run_uid` " +:+ ShellQuote "--regid" +:+ sh " `$run_gid` " +:+
      quote_words ["--init-groups"; "--reset-env"; "--"] +:+ sh " \~";
    "    " +:+ quote_words [wt_env tools; "-i"; "--"] +:+ sh " \~";
    sh "    `HOME=$run_home` \~    `USER=$run_user` \~    `LOGNAME=$run_user` \~    `SHELL=$run_shell` \~";
    cat (map (fun entry => "    " +:+ ShellQuote entry +:+ sh " \~") (Plan_Environment plan));
    exec_argv (Plan_Argv plan) ].

Definition with_backup (plan : ExecutionPlan) : bool :=
  string_eqb (Plan_ActionType plan) ActionSync && Sync_Backup (Plan_Sync plan).

Definition renderExec (plan : ExecutionPlan) : string :=
  if with_backup plan then
    cat [ "if "; exec_command plan; sh "; then~    run_status=0~else~    run_status=$?~fi~"; renderBackupRetention;
      sh "exit `$run_status`~" ]
  else cat [ "exec "; exec_command plan; newline ].

Definition render_body (plan : ExecutionPlan) : string :=
  cat [ render_prologue plan;
    if string_eqb (Plan_ActionType plan) ActionScript then
      cat [ renderScriptValidation (Plan_SourcePath plan);
        sh "script_snapshot=$(capture_path_snapshot `$script_path`) || fail 'script identity cannot be read'~";
        sh "single_line `$script_snapshot` || fail 'script identity is ambiguous'~~" ]
    else if string_eqb (Plan_ActionType plan) ActionSync then renderSyncValidation plan
    else "";
    if string_eqb (Identity_Mode (Plan_Identity plan)) IdentityScriptOwner then renderScriptOwnerIdentity
    else if string_eqb (Identity_Mode (Plan_Identity plan)) IdentityFixed then renderFixedIdentity (Plan_Identity plan)
    else "";
    if string_eqb (Plan_NonEmptySourceDir plan) "" then "" else renderNonEmptySourceCheck (Plan_NonEmptySourceDir plan);
    renderFinalGuards plan;
    if with_backup plan then renderRuntimeBackup plan else "";
    renderExec plan ].
End Renderer.

Definition Render (plan : ExecutionPlan) : result string :=
  let tools := render_tools (Plan_HostTools plan) in
  _ ← validate tools plan;
  Ok (render_body tools plan).
