(* ===== verification/WrapperStore.v ===== *)
(** * Installing a wrapper on the host ([wrapper.go], the store)

    [Install] replaces the managed wrapper through direct host commands: it
    secures the directories, writes a staging file beside the target, fixes its
    owner and mode, and renames it into place, revalidating between the steps.
    The host is any [HostCommandRunner]. *)

From S2P Require Import Prelude GoStrings Model HostCommand Capabilities ExecutionPlan Wrapper.

Definition managed_root : string := "/var/lib/syncbridge".

(** The loop of [managedDirectoryComponents]: [filepath.Join] of the current
    directory and the next name. *)
Fixpoint component_loop (current : string) (names : list string) : list string :=
  match names with
  | [] => []
  | name :: names =>
      if string_eqb name "" then component_loop current names
      else let current := PathJoin [current; name] in current :: component_loop current names
  end.

Definition managedDirectoryComponents (dir : string) : result (list string) :=
  if negb (string_eqb dir managed_root) && negb (HasPrefix dir (managed_root +:+ "/"))
  then Err (ErrNew "wrapper directory is outside the managed root")
  else Ok (["/var"; "/var/lib"; managed_root] ++
           component_loop managed_root (Split slash (TrimPrefix dir (managed_root +:+ "/")))).

Fixpoint validate_store_paths (paths : list string) : result unit :=
  match paths with
  | [] => Ok tt
  | path :: paths =>
      _ ← wrap_err "wrapper store tool path: " (validateAbsoluteCanonicalPath path); validate_store_paths paths
  end.

Definition validateStoreTools (tools : HostToolPaths) : result unit :=
  _ ← fail_if (negb (profile_ok (Tool_Profile tools))) (ErrNew "host toolchain profile is invalid");
  validate_store_paths
    [Tool_Test tools; Tool_Readlink tools; Tool_Stat tools; Tool_Mkdir tools; Tool_Chown tools; Tool_Chmod tools;
     Tool_Mktemp tools; Tool_Tee tools; Tool_Sync tools; Tool_Mv tools; Tool_Rm tools].

Definition temp_prefix : string := ".run.sh.tmp-".

Definition validateWrapperTempPath (dir output : string) : result string :=
  tempPath ← wrap_err "parse host wrapper staging path: " (singleOutputLine output);
  _ ← wrap_err "host wrapper staging path: " (validateAbsoluteCanonicalPath tempPath);
  _ ← fail_if (negb (string_eqb (Dir tempPath) dir) || negb (HasPrefix (Base tempPath) temp_prefix) ||
               string_eqb (Base tempPath) temp_prefix)
        (ErrNew "host returned an unsafe wrapper staging path");
  Ok tempPath.

Record hostPathMetadata := MkHostPathMetadata {
  meta_fileType : Z; meta_uid : Z; meta_gid : Z; meta_permissions : Z
}.

(** The output of [stat -c %f:%u:%g:%a]. *)
Definition parse_metadata (output : string) : option hostPathMetadata :=
  match singleOutputLine output with
  | Err _ => None
  | Ok line =>
      match Split ":" line with
      | [p0; p1; p2; p3] =>
          mode ← ParseUint 16 32 p0; uid ← Atoi p1; gid ← Atoi p2; permissions ← ParseUint 8 32 p3;
          Some (MkHostPathMetadata (Z.land mode 61440) uid gid permissions)
      | _ => None
      end
  end.

Section Store.
Context {W : Type} `{!HostCommandRunner W} (tools : HostToolPaths).

(** [s.run] *)
Definition run (argv : list string) : SE W unit :=
  r ← Run argv;
  match CommandErr r with Some e => lift (Err e) | None => mret tt end.

Definition requireCanonicalHostTarget (target : string) : SE W unit :=
  r ← Run [Tool_Readlink tools; "-m"; target];
  _ ← lift (fail_if (negb (succeeded r)) (ErrNew "canonicalize host wrapper target"));
  resolved ← lift (wrap_err "canonicalize host wrapper target: " (singleOutputLine (Stdout r)));
  lift (fail_if (negb (string_eqb resolved target))
    (ErrNew ("host wrapper target escapes through a symlink: " +:+ quoted target +:+ " resolves to " +:+ quoted resolved))).

(** [None] is [exists = false]. *)
Definition statPath (path : string) : SE W (option hostPathMetadata) :=
  r ← Run [Tool_Stat tools; "-c"; "%f:%u:%g:%a"; path];
  mret (if succeeded r then parse_metadata (Stdout r) else None).

Definition root_owned (m : hostPathMetadata) : bool := (meta_uid m =? 0)%Z && (meta_gid m =? 0)%Z.

Definition validateSafeDirectory (path : string) : SE W unit :=
  _ ← requireCanonicalHostTarget path;
  metadata ← statPath path;
  lift match metadata with
  | None => Err (ErrNew ("managed path is not a directory: " +:+ path))
  | Some m =>
      if negb (meta_fileType m =? 16384)%Z then Err (ErrNew ("managed path is not a directory: " +:+ path))
      else if negb (root_owned m) then Err (ErrNew ("managed directory is not root-owned: " +:+ path))
      else fail_if (negb (Z.land (meta_permissions m) 18 =? 0)%Z)
             (ErrNew ("managed directory is group/other writable: " +:+ path))
  end.

Definition validateRegularRootFile (path : string) (require0700 : bool) : SE W unit :=
  _ ← requireCanonicalHostTarget path;
  metadata ← statPath path;
  lift match metadata with
  | None => Err (ErrNew ("managed file is not regular: " +:+ path))
  | Some m =>
      if negb (meta_fileType m =? 32768)%Z then Err (ErrNew ("managed file is not regular: " +:+ path))
      else if negb (root_owned m) then Err (ErrNew ("managed file is not root-owned: " +:+ path))
      else if require0700 && negb (meta_permissions m =? 448)%Z
      then Err (ErrNew ("managed wrapper mode is " +:+ octal4 (meta_permissions m) +:+ ", want 0700"))
      else fail_if (negb require0700 && negb (Z.land (meta_permissions m) 18 =? 0)%Z)
             (ErrNew ("managed file is group/other writable: " +:+ path))
  end.

Definition validateStagingFile (path : string) : SE W unit := validateRegularRootFile path false.

Definition validateTarget (target : string) : SE W unit :=
  _ ← requireCanonicalHostTarget target;
  metadata ← statPath target;
  match metadata with
  | None => mret tt
  | Some _ => validateRegularRootFile target false
  end.

Fixpoint validate_directories (components : list string) : SE W unit :=
  match components with
  | [] => mret tt
  | component :: components => _ ← validateSafeDirectory component; validate_directories components
  end.

Definition revalidateManagedHierarchy (dir : string) : SE W unit :=
  components ← lift (managedDirectoryComponents dir);
  validate_directories components.

(** Creating one missing directory below the parents already walked. *)
Definition create_directory (parents : list string) (component : string) : SE W unit :=
  _ ← validate_directories parents;
  _ ← se_map (wrap_err "create managed directory: ") (run [Tool_Mkdir tools; component]);
  _ ← validateSafeDirectory component;
  _ ← se_map (wrap_err "chown managed directory: ") (run [Tool_Chown tools; "0:0"; component]);
  _ ← validateSafeDirectory component;
  _ ← se_map (wrap_err "chmod managed directory: ") (run [Tool_Chmod tools; "0700"; component]);
  validateSafeDirectory component.

(** [parents] are the components before the current index. *)
Fixpoint secure_loop (parents components : list string) : SE W unit :=
  match components with
  | [] => mret tt
  | component :: components =>
      metadata ← statPath component;
      _ ← match metadata with
          | Some _ => validateSafeDirectory component
          | None =>
              if (length parents <? 2)%nat
              then lift (Err (ErrNew ("required host directory is missing: " +:+ component)))
              else create_directory parents component
          end;
      secure_loop (parents ++ [component]) components
  end.

Definition secureManagedHierarchy (dir : string) : SE W unit :=
  components ← lift (managedDirectoryComponents dir);
  secure_loop [] components.

(** The part of [Install] the deferred removal covers: up to the rename. *)
Definition stage_and_rename (dir target tempPath rendered : string) : SE W unit :=
  _ ← validateStagingFile tempPath;
  r ← RunInput rendered [Tool_Tee tools; tempPath];
  _ ← lift (fail_if (negb (succeeded r)) (ErrNew "write host wrapper staging file"));
  _ ← validateStagingFile tempPath;
  _ ← se_map (wrap_err "chown host wrapper staging file: ") (run [Tool_Chown tools; "0:0"; tempPath]);
  _ ← validateStagingFile tempPath;
  _ ← se_map (wrap_err "chmod host wrapper staging file: ") (run [Tool_Chmod tools; "0700"; tempPath]);
  _ ← validateRegularRootFile tempPath true;
  _ ← se_map (wrap_err "fsync host wrapper staging file: ") (run [Tool_Sync tools; "-f"; tempPath]);
  _ ← revalidateManagedHierarchy dir;
  _ ← validateTarget target;
  _ ← validateRegularRootFile tempPath true;
  se_map (wrap_err "rename host wrapper staging file: ") (run [Tool_Mv tools; "-T"; "-f"; tempPath; target]).

(** [defer]: an error before the rename removes the staging file. *)
Definition staged (dir target tempPath rendered : string) : SE W unit :=
  r ← attempt (stage_and_rename dir target tempPath rendered);
  match r with
  | Ok _ => mret tt
  | Err e => _ ← attempt (run [Tool_Rm tools; "-f"; tempPath]); lift (Err e)
  end.

Definition install_at (dir target rendered : string) : SE W string :=
  _ ← requireCanonicalHostTarget target;
  _ ← secureManagedHierarchy dir;
  _ ← validateTarget target;
  _ ← revalidateManagedHierarchy dir;
  r ← Run [Tool_Mktemp tools; PathJoin [dir; ".run.sh.tmp-XXXXXXXX"]];
  _ ← lift (fail_if (negb (succeeded r)) (ErrNew "create host wrapper staging file"));
  tempPath ← lift (validateWrapperTempPath dir (Stdout r));
  _ ← staged dir target tempPath rendered;
  _ ← validateRegularRootFile target true;
  _ ← revalidateManagedHierarchy dir;
  _ ← se_map (wrap_err "fsync host wrapper directory: ") (run [Tool_Sync tools; "-f"; dir]);
  mret target.
End Store.

(** [s == nil || s.runner == nil] does not arise: the runner is the class. *)
Definition Install {W} `{!HostCommandRunner W} (plan : ExecutionPlan) : SE W string :=
  _ ← lift (validateManagedWrapperPath plan);
  rendered ← lift (wrap_err "render host wrapper: " (Render plan));
  _ ← lift (validateStoreTools (Plan_HostTools plan));
  install_at (Plan_HostTools plan) (Dir (Plan_WrapperPath plan)) (Plan_WrapperPath plan) rendered.

(** ** Watching the host

    Any host, with a record of every command it was given and its answer, oldest
    first. *)

Definition command : Type := string * list string.
Notation trace := (list (command * CommandResult)).

Definition traced (W : Type) `{!HostCommandRunner W} : HostCommandRunner (W * trace) := fun input argv wt =>
  let (r, w') := RunInput_ input argv wt.1 in (r, (w', wt.2 ++ [((input, argv), r)])).

Section Trace.
Context {W : Type} `{host : !HostCommandRunner W} (tools : HostToolPaths).
#[local] Instance traced_host : HostCommandRunner (W * trace) := traced W.

(** [m] extends the record by some [l], related to its result by [P]. *)
Definition emits {A} (m : SE (W * trace) A) (P : result A -> trace -> Prop) : Prop :=
  forall w tr, let (r, wt) := m (w, tr) in exists l, wt.2 = tr ++ l /\ P r l.

Lemma emits_ret {A} (a : A) (P : result A -> trace -> Prop) : P (Ok a) [] -> emits (mret a) P.
Proof. intros H w tr. exists []. split; [by rewrite app_nil_r|done]. Qed.

Lemma emits_lift {A} (r : result A) (P : result A -> trace -> Prop) : P r [] -> emits (lift r) P.
Proof. intros H w tr. exists []. split; [by rewrite app_nil_r|done]. Qed.

Lemma emits_bind {A B} (m : SE _ A) (f : A -> SE _ B) P Q R :
  emits m P -> (forall a, emits (f a) (Q a)) ->
  (forall e l, P (Err e) l -> R (Err e) l) ->
  (forall a r l1 l2, P (Ok a) l1 -> Q a r l2 -> R r (l1 ++ l2)) -> emits (x ← m; f x) R.
Proof.
  intros Hm Hf He Hok w tr. specialize (Hm w tr). rewrite SE_bind_unfold.
  destruct (m (w, tr)) as [[a|e] [w1 tr1]]; simpl in Hm; destruct Hm as (l1 & -> & H1); [|by exists l1; auto].
  pose proof (Hf a w1 (tr ++ l1)) as Hfa. destruct (f a (w1, tr ++ l1)) as [r wt].
  destruct Hfa as (l2 & Hl & H2). exists (l1 ++ l2). rewrite app_assoc. eauto.
Qed.

Lemma emits_weaken {A} (m : SE _ A) (P Q : result A -> trace -> Prop) :
  emits m P -> (forall r l, P r l -> Q r l) -> emits m Q.
Proof. intros H HPQ w tr. specialize (H w tr). destruct (m (w, tr)). destruct H as (l & ? & ?). eauto. Qed.

Lemma emits_run input argv :
  emits (RunInput input argv) (fun r l => exists c, r = Ok c /\ l = [((input, argv), c)]).
Proof.
  intros w tr. cbv [RunInput RunInput_ traced_host traced]. cbn [fst snd].
  destruct (host input argv w) as [c w']. cbn [fst snd]. eexists. split; [done|]. eauto.
Qed.

(** Commands that only look. *)
Definition is_read (x : command * CommandResult) : Prop :=
  exists path, x.1 = ("", [Tool_Readlink tools; "-m"; path]) \/
               x.1 = ("", [Tool_Stat tools; "-c"; "%f:%u:%g:%a"; path]).
Definition looks {A} (_ : result A) (l : trace) : Prop := Forall is_read l.

Lemma looks_bind {A B} (m : SE _ A) (f : A -> SE _ B) :
  emits m looks -> (forall a, emits (f a) looks) -> emits (x ← m; f x) looks.
Proof.
  intros Hm Hf. eapply emits_bind; [exact Hm|exact Hf|done|]. intros a r l1 l2 H1 H2. by apply Forall_app.
Qed.

Lemma looks_ret {A} (a : A) : emits (mret a) looks.
Proof. apply emits_ret. constructor. Qed.
Lemma looks_lift {A} (r : result A) : emits (lift r) looks.
Proof. apply emits_lift. constructor. Qed.

Lemma looks_run argv : (forall c, is_read (("", argv), c)) -> emits (Run argv) looks.
Proof.
  intros H. eapply emits_weaken; [apply emits_run|]. intros r l (c & -> & ->). apply Forall_singleton. apply H.
Qed.

Create HintDb looks.
#[local] Hint Resolve looks_bind looks_ret looks_lift : looks.

Lemma looks_canonical path : emits (requireCanonicalHostTarget tools path) looks.
Proof. apply looks_bind; [apply looks_run; intros c; exists path; auto|]. auto with looks. Qed.
Lemma looks_stat path : emits (statPath tools path) looks.
Proof. apply looks_bind; [apply looks_run; intros c; exists path; auto|]. auto with looks. Qed.
#[local] Hint Resolve looks_canonical looks_stat : looks.
Lemma looks_safe_directory path : emits (validateSafeDirectory tools path) looks.
Proof. unfold validateSafeDirectory. auto with looks. Qed.
Lemma looks_regular path b : emits (validateRegularRootFile tools path b) looks.
Proof. unfold validateRegularRootFile. auto with looks. Qed.
#[local] Hint Resolve looks_safe_directory looks_regular : looks.
Lemma looks_target path : emits (validateTarget tools path) looks.
Proof.
  unfold validateTarget. apply looks_bind; [auto with looks|]. intros _. apply looks_bind; [auto with looks|].
  intros [m|]; auto with looks.
Qed.
Lemma looks_directories l : emits (validate_directories tools l) looks.
Proof. induction l as [|c l IH]; simpl; auto with looks. Qed.
#[local] Hint Resolve looks_target looks_directories : looks.
Lemma looks_revalidate dir : emits (revalidateManagedHierarchy tools dir) looks.
Proof. unfold revalidateManagedHierarchy. auto with looks. Qed.
#[local] Hint Resolve looks_revalidate : looks.

(** ** Preparing the directories *)

(** Looking, or creating and restricting one of the managed directories. *)
Definition prepares (components : list string) (x : command * CommandResult) : Prop :=
  is_read x \/ exists component, component ∈ components /\
    (x.1 = ("", [Tool_Mkdir tools; component]) \/ x.1 = ("", [Tool_Chown tools; "0:0"; component]) \/
     x.1 = ("", [Tool_Chmod tools; "0700"; component])).
Definition preparing {A} (components : list string) (_ : result A) (l : trace) : Prop := Forall (prepares components) l.

Lemma preparing_bind {A B} cs (m : SE _ A) (f : A -> SE _ B) :
  emits m (preparing cs) -> (forall a, emits (f a) (preparing cs)) -> emits (x ← m; f x) (preparing cs).
Proof.
  intros Hm Hf. eapply emits_bind; [exact Hm|exact Hf|done|]. intros a r l1 l2 H1 H2. by apply Forall_app.
Qed.

Lemma looks_preparing {A} cs (m : SE _ A) : emits m looks -> emits m (preparing cs).
Proof.
  intros H. eapply emits_weaken; [exact H|]. intros r l Hl. eapply Forall_impl; [exact Hl|]. by left.
Qed.

Lemma emits_map {A} pre (m : SE _ A) (P : result A -> trace -> Prop) :
  (forall r l, P r l -> P (wrap_err pre r) l) -> emits m P -> emits (se_map (wrap_err pre) m) P.
Proof.
  intros HP H w tr. specialize (H w tr). unfold se_map. destruct (m (w, tr)) as [r wt].
  destruct H as (l & ? & ?). eauto.
Qed.

Lemma emits_store_run argv :
  emits (run argv) (fun r l => exists c, l = [(("", argv), c)] /\ is_Ok r = succeeded c).
Proof.
  unfold run. eapply (emits_bind _ _ _ (fun c r l => l = [] /\ is_Ok r = succeeded c)); [apply emits_run| | |].
  - intros c. unfold succeeded. destruct (CommandErr c); [by apply emits_lift|by apply emits_ret].
  - by intros e l (c & ? & _).
  - intros c r l1 l2 (c' & [= <-] & ->) [-> ->]. by exists c.
Qed.

Lemma preparing_run cs pre argv :
  (forall c, prepares cs (("", argv), c)) -> emits (se_map (wrap_err pre) (run argv)) (preparing cs).
Proof.
  intros H. apply emits_map; [by intros [] l|]. eapply emits_weaken; [apply emits_store_run|].
  intros r l (c & -> & _). apply Forall_singleton. apply H.
Qed.

Lemma preparing_create cs parents component :
  component ∈ cs -> emits (create_directory tools parents component) (preparing cs).
Proof.
  intros Hc. unfold create_directory.
  assert (forall pre argv, argv ∈ [[Tool_Mkdir tools; component]; [Tool_Chown tools; "0:0"; component];
      [Tool_Chmod tools; "0700"; component]] -> emits (se_map (wrap_err pre) (run argv)) (preparing cs)) as Hrun.
  { intros pre argv Hin. apply preparing_run. intros b. right. exists component. split; [done|].
    rewrite !elem_of_cons, elem_of_nil in Hin. simpl. naive_solver. }
  repeat first
    [ apply looks_preparing; solve [auto with looks]
    | apply Hrun; rewrite !elem_of_cons; auto
    | apply preparing_bind; [|intros ?] ].
Qed.

Lemma preparing_secure cs components : forall parents,
  (forall c, c ∈ components -> c ∈ cs) -> emits (secure_loop tools parents components) (preparing cs).
Proof.
  induction components as [|c components IH]; intros parents Hcs; [apply looks_preparing, looks_ret|].
  cbn [secure_loop]. apply preparing_bind; [apply looks_preparing; auto with looks|]. intros metadata.
  apply preparing_bind; [|intros ?; apply IH; intros c' Hc'; apply Hcs; by right].
  destruct metadata as [m|]; [apply looks_preparing; auto with looks|].
  case_goal; [apply looks_preparing, looks_lift|]. apply preparing_create, Hcs. by left.
Qed.

(** ** Steps in a fixed order *)

(** [l] runs the commands [cs] in order, each of them with success, with looking
    in between. *)
Inductive follows : list command -> trace -> Prop :=
  | follows_nil : follows [] []
  | follows_read x cs l : is_read x -> follows cs l -> follows cs (x :: l)
  | follows_command c r cs l : succeeded r = true -> follows cs l -> follows (c :: cs) ((c, r) :: l).

(** [l] follows [cs] up to a command that fails, or that is not run because of
    what was found before it. *)
Inductive breaks : list command -> trace -> Prop :=
  | breaks_before c cs : breaks (c :: cs) []
  | breaks_at c r cs : succeeded r = false -> breaks (c :: cs) [(c, r)]
  | breaks_read x cs l : is_read x -> breaks cs l -> breaks cs (x :: l)
  | breaks_command c r cs l : succeeded r = true -> breaks cs l -> breaks (c :: cs) ((c, r) :: l).

Lemma follows_app cs1 cs2 l1 l2 : follows cs1 l1 -> follows cs2 l2 -> follows (cs1 ++ cs2) (l1 ++ l2).
Proof. induction 1; intros H2; simpl; [done|apply follows_read; auto|apply follows_command; auto]. Qed.

Lemma looks_follows l cs l' : Forall is_read l -> follows cs l' -> follows cs (l ++ l').
Proof. induction 1; intros H'; simpl; [done|apply follows_read; auto]. Qed.

Lemma looks_breaks l cs l' : Forall is_read l -> breaks cs l' -> breaks cs (l ++ l').
Proof. induction 1; intros H'; simpl; [done|apply breaks_read; auto]. Qed.

(** [m] runs [cs] to the end, or stops somewhere in it with an error. *)
Definition performs {A} (cs : list command) : SE (W * trace) A -> Prop := fun m =>
  emits m (fun r l => match r with Ok _ => follows cs l | Err _ => breaks cs l end).

Lemma performs_look {A B} c cs (m : SE _ A) (f : A -> SE _ B) :
  emits m looks -> (forall a, performs (c :: cs) (f a)) -> performs (c :: cs) (x ← m; f x).
Proof.
  intros Hm Hf. eapply emits_bind; [exact Hm|exact Hf| |].
  - intros e l Hl. rewrite <-(app_nil_r l). apply looks_breaks; [exact Hl|constructor].
  - intros a [b|e] l1 l2 H1 H2; [by apply looks_follows|by apply looks_breaks].
Qed.

Lemma performs_run pre argv : performs [("", argv)] (se_map (wrap_err pre) (run argv)).
Proof.
  apply emits_map; [by intros [] l|]. eapply emits_weaken; [apply emits_store_run|].
  intros [u|e] l (c & -> & Hc); cbn in Hc; [by apply follows_command; [|constructor]|by apply breaks_at].
Qed.

Lemma performs_step {A} cs pre argv (k : SE _ A) :
  performs cs k -> performs (("", argv) :: cs) (_ ← se_map (wrap_err pre) (run argv); k).
Proof.
  intros Hk. eapply (emits_bind _ _ (fun r l => exists c, l = [(("", argv), c)] /\ is_Ok r = succeeded c)
    (fun _ r l => match r with Ok _ => follows cs l | Err _ => breaks cs l end)); [|intros _; exact Hk| |].
  - apply emits_map; [by intros [] l|apply emits_store_run].
  - intros e l (c & -> & Hc). by apply breaks_at.
  - intros u r l1 l2 (c & -> & Hc) H2. cbn in Hc. destruct r; [by apply follows_command|by apply breaks_command].
Qed.

Lemma performs_input {A} cs input argv e (k : SE _ A) :
  performs cs k ->
  performs ((input, argv) :: cs)
    (r ← RunInput input argv; _ ← lift (fail_if (negb (succeeded r)) e); k).
Proof.
  intros Hk. eapply (emits_bind _ _ _ (fun c r l =>
      if succeeded c then match r with Ok _ => follows cs l | Err _ => breaks cs l end
      else is_Ok r = false /\ l = [])); [apply emits_run| | |].
  - intros c. destruct (succeeded c); simpl.
    + exact Hk.
    + by apply (emits_lift (Err e)).
  - by intros e' l (c & ? & _).
  - intros c r l1 l2 (c' & [= <-] & ->) H2. destruct (succeeded c) eqn:Ec.
    + destruct r as [a|e']; [by apply follows_command|by apply breaks_command].
    + destruct H2 as [Hr ->]. destruct r; [done|]. by apply breaks_at.
Qed.

Lemma performs_ret {A} (a : A) : performs [] (mret a).
Proof. apply emits_ret. constructor. Qed.

Definition script (target temp rendered : string) : list command :=
  [ (rendered, [Tool_Tee tools; temp]); ("", [Tool_Chown tools; "0:0"; temp]); ("", [Tool_Chmod tools; "0700"; temp]);
    ("", [Tool_Sync tools; "-f"; temp]); ("", [Tool_Mv tools; "-T"; "-f"; temp; target]) ].

Lemma stage_and_rename_performs dir target temp rendered :
  performs (script target temp rendered) (stage_and_rename tools dir target temp rendered).
Proof.
  unfold stage_and_rename, script, validateStagingFile.
  apply performs_look; [auto with looks|intros _]. apply performs_input.
  apply performs_look; [auto with looks|intros _]. apply performs_step.
  apply performs_look; [auto with looks|intros _]. apply performs_step.
  apply performs_look; [auto with looks|intros _]. apply performs_step.
  do 3 (apply performs_look; [auto with looks|intros _]). apply performs_run.
Qed.

Definition removal (temp : string) : command := ("", [Tool_Rm tools; "-f"; temp]).

(** A stop before the rename, and the removal of the staging file. *)
Definition removed (target temp rendered : string) (l : trace) : Prop :=
  exists l' c, l = l' ++ [(removal temp, c)] /\ breaks (script target temp rendered) l'.

Lemma staged_emits dir target temp rendered :
  emits (staged tools dir target temp rendered) (fun r l =>
    match r with Ok _ => follows (script target temp rendered) l | Err _ => removed target temp rendered l end).
Proof.
  intros w tr. pose proof (stage_and_rename_performs dir target temp rendered w tr) as H.
  unfold staged. rewrite SE_bind_unfold. unfold attempt at 1.
  destruct (stage_and_rename tools dir target temp rendered (w, tr)) as [[u|e] [w1 tr1]];
    simpl in H; destruct H as (l & -> & H); [by exists l|].
  rewrite SE_bind_unfold. unfold attempt.
  pose proof (emits_store_run [Tool_Rm tools; "-f"; temp] w1 (tr ++ l)) as Hrm.
  destruct (run [Tool_Rm tools; "-f"; temp] (w1, tr ++ l)) as [rr [w2 tr2]]. simpl in Hrm.
  destruct Hrm as (l2 & -> & c & -> & _). simpl. eexists. split; [by rewrite <-app_assoc|]. by exists l, c.
Qed.

(** A staging path: canonical, in [dir], under the temporary prefix. *)
Definition staging (dir temp : string) : Prop :=
  validateAbsoluteCanonicalPath temp = Ok tt /\ Dir temp = dir /\ HasPrefix (Base temp) temp_prefix = true /\
  Base temp <> temp_prefix.

Lemma validateWrapperTempPath_Ok dir out temp : validateWrapperTempPath dir out = Ok temp -> staging dir temp.
Proof.
  unfold validateWrapperTempPath. intros H. res_inv. bool_simpl. str_eqb. by split_and!.
Qed.

Definition mktemp_command (dir : string) : command := ("", [Tool_Mktemp tools; PathJoin [dir; ".run.sh.tmp-XXXXXXXX"]]).
Definition sync_directory (dir : string) : command := ("", [Tool_Sync tools; "-f"; dir]).

(** The commands once the staging path is known, by outcome: an error after the
    rename leaves no staging file to remove. *)
Definition after_temp (dir target temp rendered : string) (r : result string) (l : trace) : Prop :=
  match r with
  | Ok path => path = target /\ follows (script target temp rendered ++ [sync_directory dir]) l
  | Err _ => removed target temp rendered l \/
             exists l1 l2, l = l1 ++ l2 /\ follows (script target temp rendered) l1 /\ breaks [sync_directory dir] l2
  end.

(** The commands after the directories are prepared, by outcome.  The answer to
    the first decides whether there is a staging file, and its name. *)
Definition installed (dir target rendered : string) (r : result string) (l : trace) : Prop :=
  match l with
  | [] => is_Ok r = false
  | (command, answer) :: l =>
      command = mktemp_command dir /\
      match (if succeeded answer then validateWrapperTempPath dir (Stdout answer) else Err (ErrNew "mktemp")) with
      | Err _ => is_Ok r = false /\ l = []
      | Ok temp => staging dir temp /\ after_temp dir target temp rendered r l
      end
  end.

(** [install_at] after the rename, and after the directories are prepared. *)
Definition install_finish (dir target : string) : SE (W * trace) string :=
  _ ← validateRegularRootFile tools target true;
  _ ← revalidateManagedHierarchy tools dir;
  _ ← se_map (wrap_err "fsync host wrapper directory: ") (run [Tool_Sync tools; "-f"; dir]);
  mret target.

Definition install_tail (dir target rendered : string) : SE (W * trace) string :=
  r ← Run [Tool_Mktemp tools; PathJoin [dir; ".run.sh.tmp-XXXXXXXX"]];
  _ ← lift (fail_if (negb (succeeded r)) (ErrNew "create host wrapper staging file"));
  tempPath ← lift (validateWrapperTempPath dir (Stdout r));
  _ ← staged tools dir target tempPath rendered;
  install_finish dir target.

Lemma finish_performs dir target : performs [sync_directory dir] (install_finish dir target).
Proof.
  do 2 (apply performs_look; [auto with looks|intros _]). apply performs_step, performs_ret.
Qed.

Lemma returns_target dir target (w : W) tr r wt : install_finish dir target (w, tr) = (Ok r, wt) -> r = target.
Proof. unfold install_finish. intros H. by se_inv. Qed.

Lemma after_temp_emits dir target temp rendered :
  emits (_ ← staged tools dir target temp rendered; install_finish dir target) (after_temp dir target temp rendered).
Proof.
  eapply (emits_bind _ _ _ (fun _ r l => match r with Ok path => path = target /\ follows [sync_directory dir] l
                                          | Err _ => breaks [sync_directory dir] l end)).
  - apply staged_emits.
  - intros _ w tr. pose proof (finish_performs dir target w tr) as H.
    destruct (install_finish dir target (w, tr)) as [[path|e] wt] eqn:E; destruct H as (l & ? & ?); [|by exists l].
    apply returns_target in E as ->. by exists l.
  - intros e l H. by left.
  - intros u [path|e] l1 l2 H1 H2.
    + destruct H2 as [-> H2]. split; [done|]. by apply follows_app.
    + right. by exists l1, l2.
Qed.

Lemma install_tail_emits dir target rendered :
  emits (install_tail dir target rendered) (installed dir target rendered).
Proof.
  unfold install_tail. eapply (emits_bind _ _ _ (fun c r l =>
     match (if succeeded c then validateWrapperTempPath dir (Stdout c) else Err (ErrNew "mktemp")) with
     | Err _ => is_Ok r = false /\ l = []
     | Ok temp => staging dir temp /\ after_temp dir target temp rendered r l
     end)); [apply emits_run| | |].
  - intros c. destruct (succeeded c); [|by apply (emits_lift (Err _))].
    change (emits (temp ← lift (validateWrapperTempPath dir (Stdout c));
       _ ← staged tools dir target temp rendered; install_finish dir target)
      (fun r l => match validateWrapperTempPath dir (Stdout c) with
        | Err _ => is_Ok r = false /\ l = []
        | Ok temp => staging dir temp /\ after_temp dir target temp rendered r l end)).
    destruct (validateWrapperTempPath dir (Stdout c)) as [temp|e] eqn:Et; [|by apply (emits_lift (Err e))].
    apply validateWrapperTempPath_Ok in Et.
    eapply emits_weaken; [apply (after_temp_emits dir target temp rendered)|]. done.
  - by intros e l (c & ? & _).
  - intros c r l1 l2 (c' & [= <-] & ->) Hl. by split.
Qed.

Definition managed_components (dir : string) : list string :=
  match managedDirectoryComponents dir with Ok components => components | Err _ => [] end.

Lemma secure_preparing dir : emits (secureManagedHierarchy tools dir) (preparing (managed_components dir)).
Proof.
  unfold secureManagedHierarchy, managed_components.
  destruct (managedDirectoryComponents dir) as [components|e]; [|by apply (emits_lift (Err e)); constructor].
  by apply (preparing_secure components components []).
Qed.

(** Preparing commands followed by an installation. *)
Definition prepared (dir target rendered : string) (r : result string) (l : trace) : Prop :=
  exists before after, l = before ++ after /\ Forall (prepares (managed_components dir)) before /\
    installed dir target rendered r after.

Lemma prepared_bind {A} dir target rendered (m : SE _ A) (k : SE _ string) :
  emits m (preparing (managed_components dir)) -> emits k (prepared dir target rendered) ->
  emits (_ ← m; k) (prepared dir target rendered).
Proof.
  intros Hm Hk. apply (emits_bind _ _ (preparing (managed_components dir)) (fun _ => prepared dir target rendered));
    [exact Hm|intros _; exact Hk| |].
  - intros e l Hl. exists l, []. rewrite app_nil_r. split; [done|]. done.
  - intros a r l1 l2 H1 (before & after & -> & Hb & Ha). exists (l1 ++ before), after.
    rewrite app_assoc. split; [done|]. split; [by apply Forall_app|done].
Qed.

Lemma install_at_emits dir target rendered :
  emits (install_at tools dir target rendered) (prepared dir target rendered).
Proof.
  unfold install_at. apply prepared_bind; [apply looks_preparing; auto with looks|].
  apply prepared_bind; [apply secure_preparing|].
  do 2 (apply prepared_bind; [apply looks_preparing; auto with looks|]).
  eapply emits_weaken; [apply (install_tail_emits dir target rendered)|].
  intros r l H. exists [], l. split; [done|]. split; [constructor|done].
Qed.

Lemma prepared_target dir target rendered path l : prepared dir target rendered (Ok path) l -> path = target.
Proof.
  intros (before & after & _ & _ & H). destruct after as [|[command answer] after]; [done|].
  destruct H as [_ H]. destruct (if succeeded answer then _ else _); [|by destruct H]. by destruct H as (_ & -> & _).
Qed.
End Trace.

(** ** Properties *)

(** C9: what installing a wrapper does to the host, on any host and for any
    answers of its commands.  First come only lookups and the creation of
    managed directories.  Then, when [Install] succeeds, exactly these commands
    ran, in this order and each successfully, with only lookups between: make a
    staging file in the managed directory, write the rendered script to it as
    input, give it to root, restrict it to 0700, sync it, rename it over the
    wrapper, sync the directory.  When it fails, either no staging file was made
    or its name was refused, and then nothing more ran; or the commands ran up to
    one that failed or was not reached, and when the rename had not succeeded the
    last command removed the staging file, whatever stopped the installation. *)
Theorem Install_steps {W} `{host : !HostCommandRunner W} (plan : ExecutionPlan) (w : W) :
  let tools := Plan_HostTools plan in
  let dir := Dir (Plan_WrapperPath plan) in
  let (r, wt) := @Install (W * trace) (traced W) plan (w, []) in
  match validateManagedWrapperPath plan, Render plan with
  | Ok _, Ok rendered => prepared tools dir (Plan_WrapperPath plan) rendered r wt.2
  | _, _ => is_Ok r = false /\ wt.2 = []
  end.
Proof.
  intros tools dir. unfold Install. rewrite !SE_bind_unfold. unfold lift at 1.
  destruct (validateManagedWrapperPath plan) as [[]|e]; [|done].
  rewrite SE_bind_unfold. unfold lift at 1. destruct (Render plan) as [rendered|e]; [|done]. cbn [wrap_err].
  rewrite SE_bind_unfold. unfold lift.
  destruct (validateStoreTools (Plan_HostTools plan)) as [[]|e].
  - pose proof (install_at_emits tools dir (Plan_WrapperPath plan) rendered w []) as H.
    fold tools dir. destruct (install_at tools dir (Plan_WrapperPath plan) rendered (w, [])) as [r wt].
    destruct H as (l & Hl & H). by rewrite Hl.
  - exists [], []. split; [done|]. by split; [constructor|].
Qed.
