(* ===== verification/WrapperProofs.v ===== *)
(** * Properties of the wrapper renderer

    A lexer for the fragment of POSIX shell simple commands the wrapper's final
    command uses, the proof that quoting is exact and cannot be escaped, and the
    proof that every compiled plan renders. *)

From S2P Require Import Prelude GoStrings Model HostCommand Capabilities ExecutionPlan ExecutionPlanProofs.
From S2P Require Import Wrapper WrapperStore.

(** ** Shell words

    Token recognition and quote removal (POSIX.1-2017, Shell Command Language,
    2.2 and 2.3) for words made of plain characters, single quotes and double
    quotes holding parameters.  Anything else that is special to the shell
    outside quotes (a parameter, a substitution, an operator, a comment, a
    pattern, an assignment's tilde, a lone backslash) makes the lexer give up. *)

Inductive piece := Lit (c : ascii) | Var (name : string).
Definition word := list piece.

Fixpoint lits (s : string) : word := match s with EmptyString => [] | String c r => Lit c :: lits r end.

Inductive lex_mode := Plain | Escape | Single | Double | Param (name : string).

Definition plain_char (c : ascii) : bool := is_alnum c || char_in "_-/=.:,+%@" c.
Definition name_char (c : ascii) : bool := is_alnum c || char_in "_" c.
Definition is_newline (c : ascii) : bool := (byte_val c =? 10)%Z.
Definition backslash : ascii := Ascii.ascii_of_nat 92.

(** [cur] is the word being read, [None] between words; the command ends at the
    first newline or semicolon outside quotes, and the text after it is returned. *)
Fixpoint lex (mode : lex_mode) (cur : option word) (s : string) : option (list word * string) :=
  let flush (k : option (list word * string)) :=
    match cur with None => k | Some w => '(ws, rest) ← k; Some (w :: ws, rest) end in
  let add (p : piece) := Some (default [] cur ++ [p]) in
  match s with
  | EmptyString => None
  | String c r =>
      match mode with
      | Plain =>
          if is_newline c || ascii_eqb c ";" then flush (Some ([], r))
          else if ascii_eqb c " " then flush (lex Plain None r)
          else if ascii_eqb c quote_single then lex Single (Some (default [] cur)) r
          else if ascii_eqb c quote_double then lex Double (Some (default [] cur)) r
          else if ascii_eqb c backslash then lex Escape cur r
          else if plain_char c then lex Plain (add (Lit c)) r
          else None
      | Escape => if is_newline c then lex Plain cur r else None
      | Single => if ascii_eqb c quote_single then lex Plain cur r else lex Single (add (Lit c)) r
      | Double =>
          if ascii_eqb c quote_double then lex Plain cur r
          else if ascii_eqb c "$" then lex (Param "") cur r
          else if ascii_eqb c backslash || ascii_eqb c "`" then None
          else lex Double (add (Lit c)) r
      | Param name =>
          if name_char c then lex (Param (name +:+ str1 c)) cur r
          else if string_eqb name "" then None
          else if ascii_eqb c quote_double then lex Plain (add (Var name)) r
          else if plain_char c then lex Double (Some (default [] cur ++ [Var name; Lit c])) r
          else None
      end
  end.

(** ** Quoting *)

Lemma lits_app s t : lits (s +:+ t) = lits s ++ lits t.
Proof. induction s as [|c s IH]; [done|]. rewrite ?app_cons; simpl. by rewrite IH. Qed.

Lemma ReplaceByte_cons c by_ x s :
  ReplaceByte c by_ (String x s) = (if ascii_eqb x c then by_ else str1 x) +:+ ReplaceByte c by_ s.
Proof. done. Qed.

Lemma escaped_quote r :
  sh "'`'`'" +:+ r =
  String quote_single (String quote_double (String quote_single (String quote_double (String quote_single r)))).
Proof. reflexivity. Qed.

(** Inside single quotes, the replaced text reads back as the input. *)
Lemma lex_single_quoted s : forall cur rest,
  lex Single (Some cur) (ReplaceByte quote_single (sh "'`'`'") s +:+ "'" +:+ rest) =
  lex Plain (Some (cur ++ lits s)) rest.
Proof.
  induction s as [|c s IH]; intros cur rest.
  - simpl. rewrite !app_nil_r. done.
  - rewrite ReplaceByte_cons. destruct (ascii_eqb c quote_single) eqn:E.
    + apply ascii_eqb_true in E. subst. rewrite app_assoc_str, escaped_quote. simpl lex. rewrite IH. simpl. by rewrite <-app_assoc.
    + rewrite app_assoc_str. unfold str1. rewrite app_cons, app_empty_l. simpl lex. rewrite E. rewrite IH.
      f_equal. f_equal. simpl. by rewrite <-app_assoc.
Qed.

(** [ShellQuote s] extends the current word by exactly the characters of [s]. *)
Lemma lex_ShellQuote s cur rest :
  lex Plain cur (ShellQuote s +:+ rest) = lex Plain (Some (default [] cur ++ lits s)) rest.
Proof.
  unfold ShellQuote. rewrite !app_assoc_str. rewrite app_cons, app_empty_l. simpl lex. apply lex_single_quoted.
Qed.

(** Quoting is exact.  Whatever text [s] is (quotes, newlines, dollars,
    semicolons), the shell reads [ShellQuote s] as one word, wherever a word may
    start, and the value of that word is [s]: nothing in [s] is expanded, ends
    the word or ends the command. *)
Theorem ShellQuote_exact s rest :
  lex Plain None (ShellQuote s +:+ " " +:+ rest) =
    ('(ws, r) ← lex Plain None rest; Some (lits s :: ws, r)) /\
  lex Plain None (ShellQuote s +:+ newline +:+ rest) = Some ([lits s], rest).
Proof. by rewrite !lex_ShellQuote. Qed.

(** ** The final command *)

(** A separator between two words of the command. *)
Definition separator (sep : string) : Prop :=
  forall w rest, lex Plain (Some w) (sep +:+ rest) = ('(ws, r) ← lex Plain None rest; Some (w :: ws, r)).

Lemma separator_blank : separator " ".
Proof. intros w rest. done. Qed.

Lemma lex_blanks rest : lex Plain None ("    " +:+ rest) = lex Plain None rest.
Proof. done. Qed.

Lemma separator_continuation : separator (sh " \~    ").
Proof.
  intros w rest. change (sh " \~    " +:+ rest) with (" " +:+ String backslash (newline +:+ "    " +:+ rest)). done.
Qed.

(** What the words [ws] at the head of [s] contribute, before [rest]. *)
Definition reads (s : string) (ws : list word) : Prop :=
  forall rest, lex Plain None (s +:+ rest) = ('(more, r) ← lex Plain None rest; Some (ws ++ more, r)).

Lemma reads_word s sep : separator sep -> reads (ShellQuote s +:+ sep) [lits s].
Proof. intros H rest. rewrite app_assoc_str, lex_ShellQuote. apply H. Qed.

Lemma reads_app s t ws vs : reads s ws -> reads t vs -> reads (s +:+ t) (ws ++ vs).
Proof.
  intros Hs Ht rest. rewrite app_assoc_str, Hs, Ht. destruct (lex Plain None rest) as [[more r]|]; [|done].
  simpl. by rewrite app_assoc.
Qed.

Lemma reads_blanks s ws : reads s ws -> reads ("    " +:+ s) ws.
Proof. intros H rest. rewrite app_assoc_str, lex_blanks. apply H. Qed.

Lemma separator_line : separator (sh " \~").
Proof. intros w rest. change (sh " \~" +:+ rest) with (" " +:+ String backslash (newline +:+ rest)). done. Qed.

Lemma reads_words l sep : separator sep -> l <> [] -> reads (quote_words l +:+ sep) (map lits l).
Proof.
  intros Hsep Hne. induction l as [|x l IH]; [done|]. destruct l as [|y l].
  - by apply reads_word.
  - unfold quote_words in *. change (map ShellQuote (x :: y :: l)) with (ShellQuote x :: map ShellQuote (y :: l)).
    rewrite Join_cons by done. rewrite !app_assoc_str, <-(app_assoc_str (ShellQuote x)).
    apply (reads_app _ _ [lits x]); [apply reads_word, separator_blank|by apply IH].
Qed.

(** The value of a word of the plan's argv. *)
Definition argv_word (arg : string) : word :=
  if string_eqb arg syncBackupDirToken then [Var "backup_dir"] else lits arg.

Definition terminator (t : string) : Prop :=
  forall w rest, lex Plain (Some w) (t +:+ rest) = Some ([w], rest).

Lemma lex_exec_word arg rest : lex Plain None (exec_word arg +:+ rest) = lex Plain (Some (argv_word arg)) rest.
Proof.
  unfold exec_word, argv_word. destruct (string_eqb arg syncBackupDirToken); [done|]. apply lex_ShellQuote.
Qed.

Lemma lex_exec_argv argv t rest :
  argv <> [] -> terminator t -> lex Plain None (exec_argv argv +:+ t +:+ rest) = Some (map argv_word argv, rest).
Proof.
  intros Hne Ht. induction argv as [|arg argv IH]; [done|]. destruct argv as [|b argv].
  - cbn [exec_argv]. rewrite app_assoc_str, lex_blanks, lex_exec_word. apply Ht.
  - change (exec_argv (arg :: b :: argv)) with ("    " +:+ exec_word arg +:+ sh " \~" +:+ exec_argv (b :: argv)).
    rewrite !app_assoc_str, lex_blanks, lex_exec_word, separator_line, IH by done. done.
Qed.

Lemma reads_entries entries :
  reads (cat (map (fun entry => "    " +:+ ShellQuote entry +:+ sh " \~") entries)) (map lits entries).
Proof.
  induction entries as [|e entries IH].
  - intros rest. change (cat _ +:+ rest) with rest. by destruct (lex Plain None rest) as [[more r]|].
  - apply (reads_app _ _ [lits e]); [|exact IH]. apply reads_blanks, reads_word, separator_line.
Qed.

Definition fixed_words (tools : wrapperToolPaths) : list word :=
  [lits (wt_setpriv tools); lits "--reuid"; [Var "run_uid"]; lits "--regid"; [Var "run_gid"];
   lits "--init-groups"; lits "--reset-env"; lits "--"; lits (wt_env tools); lits "-i"; lits "--";
   lits "HOME=" ++ [Var "run_home"]; lits "USER=" ++ [Var "run_user"]; lits "LOGNAME=" ++ [Var "run_user"];
   lits "SHELL=" ++ [Var "run_shell"]].

(** The words of the final command: setpriv, a cleared environment with the
    account's variables, the plan's environment and its argv. *)
Definition exec_words (tools : wrapperToolPaths) (plan : ExecutionPlan) : list word :=
  fixed_words tools ++ map lits (Plan_Environment plan) ++ map argv_word (Plan_Argv plan).

Lemma reads_var : reads (sh "`$run_uid` ") [[Var "run_uid"]] /\ reads (sh "`$run_gid` ") [[Var "run_gid"]].
Proof. split; intros rest; reflexivity. Qed.

Lemma reads_account :
  reads (sh "    `HOME=$run_home` \~    `USER=$run_user` \~    `LOGNAME=$run_user` \~    `SHELL=$run_shell` \~")
    [lits "HOME=" ++ [Var "run_home"]; lits "USER=" ++ [Var "run_user"]; lits "LOGNAME=" ++ [Var "run_user"];
     lits "SHELL=" ++ [Var "run_shell"]].
Proof.
  change (sh "    `HOME=$run_home` \~    `USER=$run_user` \~    `LOGNAME=$run_user` \~    `SHELL=$run_shell` \~")
    with (sh "    `HOME=$run_home` \~" +:+ sh "    `USER=$run_user` \~" +:+ sh "    `LOGNAME=$run_user` \~" +:+
          sh "    `SHELL=$run_shell` \~").
  do 3 (apply (reads_app _ _ [_]); [intros rest; reflexivity|]). intros rest. reflexivity.
Qed.

Lemma exec_command_reads tools plan :
  exists head, exec_command tools plan = head +:+ exec_argv (Plan_Argv plan) /\
    reads head (fixed_words tools ++ map lits (Plan_Environment plan)).
Proof.
  destruct reads_var as [Hu Hg].
  exists (cat [ quote_words [wt_setpriv tools; "--reuid"] +:+ " "; sh "`$run_uid` "; ShellQuote "--regid" +:+ " ";
      sh "`$run_gid` "; quote_words ["--init-groups"; "--reset-env"; "--"] +:+ sh " \~";
      "    " +:+ quote_words [wt_env tools; "-i"; "--"] +:+ sh " \~";
      sh "    `HOME=$run_home` \~    `USER=$run_user` \~    `LOGNAME=$run_user` \~    `SHELL=$run_shell` \~";
      cat (map (fun entry => "    " +:+ ShellQuote entry +:+ sh " \~") (Plan_Environment plan)) ]).
  split.
  - unfold exec_command, cat, fold_right.
    change (sh " `$run_uid` ") with (" " +:+ sh "`$run_uid` "). change (sh " `$run_gid` ") with (" " +:+ sh "`$run_gid` ").
    rewrite !app_assoc_str, !app_empty_r. done.
  - unfold cat at 1, fold_right. unfold fixed_words.
    apply (reads_app _ _ [lits (wt_setpriv tools); lits "--reuid"]); [apply (reads_words [_; _]); [apply separator_blank|done]|].
    apply (reads_app _ _ [[Var "run_uid"]]); [exact Hu|].
    apply (reads_app _ _ [lits "--regid"]); [apply reads_word, separator_blank|].
    apply (reads_app _ _ [[Var "run_gid"]]); [exact Hg|].
    apply (reads_app _ _ [lits "--init-groups"; lits "--reset-env"; lits "--"]);
      [apply (reads_words [_; _; _]); [apply separator_line|done]|].
    apply (reads_app _ _ [lits (wt_env tools); lits "-i"; lits "--"]);
      [apply reads_blanks, (reads_words [_; _; _]); [apply separator_line|done]|].
    apply (reads_app _ _ [_; _; _; _]); [exact reads_account|].
    rewrite app_empty_r. apply reads_entries.
Qed.

Lemma lex_exec_command tools plan t rest :
  Plan_Argv plan <> [] -> terminator t ->
  lex Plain None (exec_command tools plan +:+ t +:+ rest) = Some (exec_words tools plan, rest).
Proof.
  intros Hne Ht. destruct (exec_command_reads tools plan) as (head & -> & Hr).
  rewrite app_assoc_str, Hr, lex_exec_argv by done. simpl. unfold exec_words. by rewrite app_assoc.
Qed.

(** The last command, read by the shell. *)
Lemma renderExec_reads tools plan :
  Plan_Argv plan <> [] ->
  exists rest, lex Plain None (renderExec tools plan) =
    Some (lits (if with_backup plan then "if" else "exec") :: exec_words tools plan, rest).
Proof.
  intros Hne. unfold renderExec. destruct (with_backup plan).
  - eexists. unfold cat, fold_right. change (lits "if" :: ?l) with ([lits "if"] ++ l).
    change (sh "; then~    run_status=0~else~    run_status=$?~fi~")
      with (";" +:+ sh " then~    run_status=0~else~    run_status=$?~fi~").
    rewrite app_assoc_str.
    change (lex Plain None ("if " +:+ ?s)) with ('(ws, r) ← lex Plain None s; Some (lits "if" :: ws, r)).
    rewrite lex_exec_command by done. reflexivity.
  - eexists. unfold cat, fold_right.
    change (lex Plain None ("exec " +:+ ?s)) with ('(ws, r) ← lex Plain None s; Some (lits "exec" :: ws, r)).
    rewrite lex_exec_command by done. reflexivity.
Qed.

(** C8: the command the wrapper ends in.  For every plan, whatever its
    environment entries and arguments contain, the shell reads the last command
    of the script as exactly: [exec] (or [if], when a backup rotation follows),
    setpriv to the verified UID and GID with the groups of the account, [env -i],
    the four account variables, each environment entry as one word, each
    argument as one word; only the backup token becomes a variable. *)
Theorem renderExec_words tools plan :
  ~ (Plan_Argv plan = []) ->
  exists rest, lex Plain None (renderExec tools plan) =
    Some (lits (if with_backup plan then "if" else "exec") :: exec_words tools plan, rest).
Proof. exact (renderExec_reads tools plan). Qed.

(** ** Every compiled plan has a managed wrapper path *)

Definition path_char (c : ascii) : bool :=
  negb (ascii_eqb c slash) && negb (ascii_eqb c nul) && negb ((byte_val c <? 32) || (byte_val c =? 127))%Z.

Lemma path_chars s :
  string_forallb path_char s = true -> has_byte slash s = false /\ has_byte nul s = false /\ has_control s = false.
Proof.
  intros H. rewrite !has_byte_false. unfold has_control. rewrite negb_false_iff.
  split_and!; (eapply string_forallb_impl; [|exact H]; unfold path_char; intros c Hc;
    apply andb_true_iff in Hc as [Hc ?]; by apply andb_true_iff in Hc as [? ?]).
Qed.

Lemma instance_component id :
  instanceIDPattern id = true -> good_component id /\ string_forallb path_char id = true.
Proof.
  unfold instanceIDPattern, match_name. intros H. apply andb_true_iff in H as [H _].
  destruct id as [|c id]; [done|]. apply andb_true_iff in H as [Hc Hid].
  assert (string_forallb path_char (String c id) = true) as Hp.
  { simpl. apply andb_true_iff. split; [revert Hc; revert c; all_bytes|].
    eapply string_forallb_impl; [|exact Hid]. all_bytes. }
  split; [|done]. split_and!; [done|by intros [= -> _]|by intros [= -> _]|]. by apply path_chars.
Qed.

Lemma digits_component s :
  s <> "" -> string_forallb is_digit s = true -> good_component s /\ string_forallb path_char s = true.
Proof.
  intros Hne H. assert (string_forallb path_char s = true) as Hp.
  { eapply string_forallb_impl; [|exact H]. all_bytes. }
  split; [|done]. split_and!; [done|by intros ->|by intros ->|]. by apply path_chars.
Qed.

Lemma Itoa_component n : (0 <= n)%Z -> good_component (Itoa n) /\ string_forallb path_char (Itoa n) = true.
Proof.
  intros Hn. unfold Itoa. assert (n <? 0 = false)%Z as -> by lia. apply digits_component; [|by apply FormatUint_digits].
  by destruct (FormatUint_cons n) as (c & r & ->).
Qed.

Definition wrapper_components (instanceID : string) (jobID : Z) : list string :=
  ["var"; "lib"; "syncbridge"; "instances"; instanceID; "jobs"; Itoa jobID; "run.sh"].

Lemma wrapper_path_comps id n : wrapper_path id n = abs_path (wrapper_components id n).
Proof. unfold wrapper_path, abs_path, wrapper_components. simpl Join. by rewrite ?app_assoc_str. Qed.

Lemma path_ok_comps comps :
  Forall good_component comps -> Forall (fun c => string_forallb path_char c = true) comps ->
  validateAbsoluteCanonicalPath (abs_path comps) = Ok tt.
Proof.
  intros Hg Hp. apply validateAbsoluteCanonicalPath_Ok. split; [apply HasPrefix_app|]. split; [by apply Clean_abs_path|].
  assert (string_forallb (fun c => ascii_eqb c slash || path_char c) (abs_path comps) = true) as Hall.
  { unfold abs_path. rewrite string_forallb_app. apply andb_true_iff. split; [done|].
    clear Hg. induction Hp as [|c comps Hc Hp IH]; [done|]. destruct comps as [|d comps].
    - simpl. eapply string_forallb_impl; [|exact Hc]. intros x ->. apply orb_true_r.
    - rewrite Join_cons by done. rewrite !string_forallb_app. apply andb_true_iff. split.
      + eapply string_forallb_impl; [|exact Hc]. intros x ->. apply orb_true_r.
      + apply andb_true_iff. by split. }
  rewrite has_byte_false. unfold has_control. rewrite negb_false_iff.
  split; (eapply string_forallb_impl; [|exact Hall]; all_bytes).
Qed.

Lemma wrapper_components_ok id n :
  instanceIDPattern id = true -> (0 < n)%Z ->
  Forall good_component (wrapper_components id n) /\
  Forall (fun c => string_forallb path_char c = true) (wrapper_components id n).
Proof.
  intros Hid Hn. destruct (instance_component id Hid) as [? ?]. destruct (Itoa_component n) as [? ?]; [lia|].
  split; repeat (constructor; [done|]); constructor.
Qed.

(** The path the compiler emits is accepted by the store, under its own layout. *)
Lemma validateManagedWrapperPath_compiled plan id :
  instanceIDPattern id = true -> (0 < Plan_JobID plan < two63)%Z ->
  Plan_WrapperPath plan = wrapper_path id (Plan_JobID plan) -> validateManagedWrapperPath plan = Ok tt.
Proof.
  intros Hid Hn Hp. unfold validateManagedWrapperPath. rewrite Hp.
  destruct (wrapper_components_ok id (Plan_JobID plan) Hid ltac:(lia)) as [Hg Hc].
  rewrite wrapper_path_comps at 1. rewrite path_ok_comps by done. simpl wrap_err. simpl mbind.
  assert (wrapper_path id (Plan_JobID plan) = managed_prefix +:+ Join "/" [id; "jobs"; Itoa (Plan_JobID plan); "run.sh"])
    as Hsplit by reflexivity.
  rewrite Hsplit, HasPrefix_app, TrimPrefix_app. cbn [negb fail_if].
  change "/" with (str1 slash). rewrite Split_Join; [|done|].
  - rewrite Hid, Atoi_Itoa by (unfold in_s64, two63 in *; lia). rewrite !string_eqb_refl. cbn [negb orb].
    rewrite Z.eqb_refl. assert (Plan_JobID plan <=? 0 = false)%Z as -> by lia. done.
  - unfold wrapper_components in Hg. do 4 apply Forall_inv_tail in Hg. by apply good_no_slash.
Qed.

(** ** Every compiled plan is accepted by the renderer *)

(** The entries the renderer accepts. *)
Definition wrapper_entry (e : string) : Prop :=
  exists n v, e = env_entry n v /\ environmentNamePattern n = true /\ has_byte "=" n = false /\
    has_byte nul v = false /\ n ∉ ["HOME"; "USER"; "LOGNAME"; "SHELL"] /\ (n = "PATH" -> v = jobExecutionPATH).

Lemma validate_environment_ok env : forall seen b,
  Forall wrapper_entry env -> NoDup (env_name <$> env) -> Forall (fun e => env_name e ∉ seen) env ->
  validate_environment env seen b = Ok (b || bool_decide ("PATH" ∈ env_name <$> env)).
Proof.
  induction env as [|e env IH]; intros seen b Hw Hnd Hs.
  { cbn [validate_environment]. rewrite bool_decide_eq_false_2, orb_false_r by apply not_elem_of_nil. done. }
  apply Forall_cons in Hw as [(n & v & -> & Hp & Hn & Hv & Hr & Hpath) Hw]. apply Forall_cons in Hs as [Hs Hss].
  rewrite fmap_cons, env_name_entry in * by done. apply NoDup_cons in Hnd as [Hni Hnd].
  cbn [validate_environment]. rewrite Cut_entry by done. rewrite Hp, Hv. cbn [negb orb].
  rewrite bool_decide_eq_false_2 by done. rewrite bool_decide_eq_false_2 by done.
  assert (Forall (fun e => env_name e ∉ ({[n]} ∪ seen : gset string)) env) as Hs'.
  { rewrite Forall_forall in Hss |- *. intros e He. rewrite not_elem_of_union, not_elem_of_singleton.
    split; [|by apply Hss]. intros Heq. apply Hni. rewrite <-Heq. by apply list_elem_of_fmap_2. }
  destruct (string_eqb n "PATH") eqn:E; str_eqb.
  - rewrite Hpath, string_eqb_refl by done. cbn [negb]. rewrite IH by done. subst.
    rewrite (bool_decide_eq_true_2 ("PATH" ∈ "PATH" :: _)) by (by left). by rewrite orb_true_r.
  - rewrite IH by done. do 2 f_equal. apply bool_decide_ext. rewrite elem_of_cons. naive_solver.
Qed.

Lemma no_nul (f : ascii -> bool) s :
  (forall c, f c = true -> negb (ascii_eqb c nul) = true) -> string_forallb f s = true -> has_byte nul s = false.
Proof. intros Hf H. apply has_byte_false. by eapply string_forallb_impl. Qed.

Lemma runID_no_nul s : runIDPattern s = true -> has_byte nul s = false.
Proof.
  unfold runIDPattern, match_name. intros H. apply andb_true_iff in H as [H _]. destruct s as [|c s]; [done|].
  apply andb_true_iff in H as [Hc Hs]. apply (no_nul (fun c => is_alnum c || char_in "_.:-" c)); [all_bytes|].
  simpl. by rewrite Hc, Hs.
Qed.

Lemma FormatUint_no_nul n : (0 <= n)%Z -> has_byte nul (FormatUint n) = false.
Proof. intros Hn. apply (no_nul is_digit); [all_bytes|by apply FormatUint_digits]. Qed.

Lemma Itoa_no_nul n : (0 <= n)%Z -> has_byte nul (Itoa n) = false.
Proof. intros Hn. unfold Itoa. assert (n <? 0 = false)%Z as -> by lia. by apply FormatUint_no_nul. Qed.

Lemma base_wrapper_entry job request n v :
  runIDPattern (Request_RunID request) = true -> (0 <= Job_ID job)%Z -> (0 <= Job_Revision job)%Z ->
  Request_Origin request ∈ [RunOriginManual; RunOriginCron; RunOriginWatch; RunOriginSystem] ->
  base_environment job request !! n = Some v -> wrapper_entry (env_entry n v).
Proof.
  intros Hrun Hid Hrev Horg H. exists n, v. split; [done|].
  assert (has_byte nul (Request_Origin request) = false) as Ho
    by (repeat (apply elem_of_cons in Horg as [->|Horg]; [done|]); by apply elem_of_nil in Horg).
  unfold base_environment in H. apply elem_of_list_to_map_2 in H.
  repeat (apply elem_of_cons in H as [[= -> ->]|H];
    [split; [reflexivity|]; split; [reflexivity|]; split; [|split; [in_list|done]];
     first [reflexivity | by apply runID_no_nul | by apply Itoa_no_nul | by apply FormatUint_no_nul | exact Ho
           | by destruct (Request_DryRun request)]|]).
  by apply elem_of_nil in H.
Qed.

(** The fields of the other action types are empty, as the job forms leave them. *)
Definition action_tidy (a : Action) : Prop :=
  (Action_Type a = ActionScript -> Action_Command a = "" /\ Action_Sync a = zeroSyncAction) /\
  (Action_Type a = ActionCommand -> Action_Sync a = zeroSyncAction) /\
  (Action_Type a = ActionSync -> Action_Command a = "").

Definition printable (p : string) : Prop := has_byte nul p = false /\ has_control p = false.
Definition tools_printable (t : HostToolPaths) : Prop := Forall printable (tool_list t).

(** The tools a probe finds are. *)
Lemma tools_known_printable t : tools_known t -> tools_printable t.
Proof.
  intros [_ Hk]. unfold tools_printable. revert Hk. generalize (tool_list t).
  assert (Forall (fun name => Forall printable (hostToolCandidates name)) hostToolNames) as Hall
    by (repeat (constructor; [repeat (constructor; [by split|]); constructor|]); constructor).
  revert Hall. induction 1 as [|name names Hn _ IH]; intros l Hl; inversion Hl as [|p ? l' ? Hp Hl']; subst; [constructor|].
  constructor; [by eapply Forall_forall in Hn|by apply IH].
Qed.

Lemma tool_path_ok p : canonical p /\ printable p -> validateAbsoluteCanonicalPath p = Ok tt.
Proof. intros [[? ?] [? ?]]. by apply validateAbsoluteCanonicalPath_Ok. Qed.

Lemma validate_tool_paths_ok paths :
  Forall (fun p => canonical p /\ printable p) paths -> validate_tool_paths paths = Ok tt.
Proof. induction 1 as [|p paths Hp _ IH]; [done|]. cbn [validate_tool_paths]. by rewrite tool_path_ok. Qed.

Lemma validate_store_paths_ok paths :
  Forall (fun p => canonical p /\ printable p) paths -> validate_store_paths paths = Ok tt.
Proof. induction 1 as [|p paths Hp _ IH]; [done|]. cbn [validate_store_paths]. by rewrite tool_path_ok. Qed.

Lemma optional_path_ok name p : p = "" \/ validateAbsoluteCanonicalPath p = Ok tt -> optional_path name p = Ok tt.
Proof. unfold optional_path. intros [->|H]; [done|]. case_goal; [done|]. by rewrite H. Qed.

Section CompiledRender.
Context {W : Type} `{!HostInspector W} (c : PlanCompiler) (job : Job) (request : RunRequest) (plan : ExecutionPlan).
Context (Hc : compiled (W := W) c job request plan) (Htidy : action_tidy (Job_Action job)).
Context (Hrev : (0 <= Job_Revision job)%Z) (Hjob : (Job_ID job < two63)%Z) (Htools : tools_printable (Plan_HostTools plan)).

Lemma compiled_pre_facts :
  instanceIDPattern (compiler_instanceID c) = true /\ (0 < Job_ID job)%Z /\
  runIDPattern (Request_RunID request) = true /\
  Request_Origin request ∈ [RunOriginManual; RunOriginCron; RunOriginWatch; RunOriginSystem] /\
  (Plan_DryRun plan = true -> Plan_ActionType plan = ActionSync).
Proof.
  destruct (compiled_copies _ _ _ _ Hc) as (_ & _ & _ & _ & -> & -> & _).
  pose proof (compiled_pre _ _ _ _ Hc) as Hpre. unfold compile_preconditions in Hpre. res_inv. bool_simpl.
  split_and!; [done|lia|done|done|]. intros Hd. rewrite Hd in *. bool_simpl.
  match goal with H : true && negb ?b = false |- _ => destruct b eqn:E; [by apply string_eqb_true in E|done] end.
Qed.

Lemma compiled_tool_facts :
  tools_ok (Plan_HostTools plan) /\ Forall (fun p => canonical p /\ printable p) (tool_list (Plan_HostTools plan)).
Proof.
  pose proof (HostTools_inv _ _ (compiled_tools _ _ _ _ Hc)) as (Hok & _). split; [done|].
  apply Forall_and. by destruct Hok.
Qed.

(** The renderer and the store each look at some of the tools. *)
Lemma compiled_tool_paths :
  validate_tool_paths (wrapper_tool_list (Tool_Shell (Plan_HostTools plan)) (render_tools (Plan_HostTools plan))) = Ok tt /\
  validateStoreTools (Plan_HostTools plan) = Ok tt.
Proof.
  destruct compiled_tool_facts as [[Hp _] Hl]. unfold tool_list in Hl.
  repeat match goal with H : Forall _ (_ :: _) |- _ => apply Forall_cons in H as [? H] end. split.
  - apply validate_tool_paths_ok. unfold wrapper_tool_list, render_tools. simpl. repeat (constructor; [assumption|]). constructor.
  - unfold validateStoreTools. rewrite Hp. cbn [negb]. apply validate_store_paths_ok. repeat (constructor; [assumption|]). constructor.
Qed.

Lemma compiled_environment_ok : validate_environment (Plan_Environment plan) ∅ false = Ok true.
Proof.
  destruct compiled_pre_facts as (_ & Hid & Hrun & Horg & _).
  pose proof (compileEnvironment_char job request) as Henv. cbv zeta in Henv.
  rewrite (compiled_environment _ _ _ _ Hc) in Henv.
  destruct Henv as (Huser & _ & _ & Hnd & _ & Hres & Hfrom).
  rewrite validate_environment_ok; [|..].
  - cbn [orb]. rewrite bool_decide_eq_true_2; [done|].
    assert (env_entry "PATH" jobExecutionPATH ∈ Plan_Environment plan) as Hin
      by (apply Hres; [reflexivity|in_list]).
    apply (list_elem_of_fmap_2 env_name) in Hin. by rewrite env_name_entry in Hin.
  - apply Forall_forall. intros e He. destruct (Hfrom e He) as [Hu|(n & v & Hv & -> & _)].
    + rewrite Forall_forall in Huser. destruct (Huser e Hu) as (n & v & -> & Hp & Hn & Hz & Hr).
      exists n, v. split_and!; [done..| |].
      * intros Hin. apply Hr. unfold reserved_names.
        change ["HOME"; "USER"; "LOGNAME"; "SHELL"; "PATH"; "SYNCBRIDGE_RUN_ID"; "SYNCBRIDGE_JOB_ID";
          "SYNCBRIDGE_JOB_REVISION"; "SYNCBRIDGE_RUN_ORIGIN"; "SYNCBRIDGE_DRY_RUN"]
          with (["HOME"; "USER"; "LOGNAME"; "SHELL"] ++ ["PATH"; "SYNCBRIDGE_RUN_ID"; "SYNCBRIDGE_JOB_ID";
          "SYNCBRIDGE_JOB_REVISION"; "SYNCBRIDGE_RUN_ORIGIN"; "SYNCBRIDGE_DRY_RUN"]).
        apply elem_of_app. by left.
      * intros ->. exfalso. apply Hr. in_list.
    + apply (base_wrapper_entry job request); [done|lia|done|done|done].
  - done.
  - apply Forall_forall. intros e _. apply not_elem_of_empty.
Qed.

Lemma compiled_identity_ok : validate_identity plan = Ok tt.
Proof.
  destruct (compiled_copies _ _ _ _ Hc) as (_ & _ & _ & _ & _ & Htype & _). unfold validate_identity.
  destruct (compiled_identity _ _ _ _ Hc) as [[_ (Hm & Hf & _)]|(-> & Hs & _)].
  - rewrite Hm. change (string_eqb IdentityFixed IdentityScriptOwner) with false. by rewrite string_eqb_refl, Hf.
  - rewrite Htype, Hs. done.
Qed.

Lemma sync_paths_apart s d :
  Forall good_component s -> Forall good_component d -> ~ s `prefix_of` d -> ~ d `prefix_of` s ->
  string_eqb (abs_path s) (abs_path d) = false /\
  pathWithin (abs_path s) (abs_path d) = false /\ pathWithin (abs_path d) (abs_path s) = false.
Proof.
  intros Hs Hd H1 H2. split_and!.
  - apply string_eqb_false. intros Heq. apply abs_path_inj in Heq as ->; [|done..]. by apply H1.
  - destruct (pathWithin _ _) eqn:E; [|done]. apply pathWithin_comps in E as (rest & _ & ->); [|done..].
    exfalso. apply H1. by eexists.
  - destruct (pathWithin _ _) eqn:E; [|done]. apply pathWithin_comps in E as (rest & _ & ->); [|done..].
    exfalso. apply H2. by eexists.
Qed.

Lemma abs_not_empty comps : string_eqb (abs_path comps) "" = false.
Proof. done. Qed.

Lemma compiled_action_valid :
  validate_action plan = Ok tt /\ validateArgv (Plan_Argv plan) = Ok tt /\
  Forall (fun p => p = "" \/ validateAbsoluteCanonicalPath p = Ok tt)
    [Plan_SourcePath plan; Plan_DestinationPath plan; Plan_NonEmptySourceDir plan].
Proof.
  destruct compiled_pre_facts as (_ & _ & _ & _ & Hdry). destruct compiled_tool_facts as [_ Ht].
  destruct (compiled_copies _ _ _ _ Hc) as (_ & _ & _ & _ & _ & Htype & Hcmd & Hsync & Heng & Hmode & _).
  destruct Htidy as (T1 & T2 & T3). unfold validate_action.
  destruct (compiled_action_ok _ _ _ _ Hc) as
    [(Et & Hargv & Hsrc & -> & -> & Hva & Hp & _)
    |[(Et & _ & (tools & Htl & Hargv) & -> & -> & -> & Htrim & Hnul)
    |(Et & _ & Hsrc & Hdst & destr & s & d & info & Ha & Hva & Hps & Hpd & Hgs & Hgd & Es & Ed & N1 & N2 & _ & _ & _ & _ & Hguard)]].
  - rewrite Hcmd, Hsync, Heng, Hmode, Htype, Et. destruct (T1 Et) as [-> ->].
    split_and!; [|done|repeat (constructor; [first [by left|by right]|]); constructor].
    assert (Plan_DryRun plan = false) as -> by (destruct (Plan_DryRun plan); [|done]; rewrite Htype, Et in Hdry; by specialize (Hdry eq_refl)).
    rewrite Hargv. cbn [List.hd]. rewrite Hsrc, string_eqb_refl.
    assert (string_eqb (Action_ScriptPath (Job_Action job)) "" = false) as ->; [|by rewrite !string_eqb_refl].
    apply string_eqb_false. intros E. by rewrite Hsrc, E in Hp.
  - rewrite Hcmd, Hsync, Heng, Hmode, Htype, Et, (T2 Et).
    rewrite (compiled_tools _ _ _ _ Hc) in Htl. injection Htl as <-. rewrite Hargv.
    assert (Plan_DryRun plan = false) as -> by (destruct (Plan_DryRun plan); [|done]; rewrite Htype, Et in Hdry; by specialize (Hdry eq_refl)).
    split_and!; [|..|repeat (constructor; [first [by left|by right]|]); constructor].
    + change (string_eqb ActionCommand ActionScript) with false. rewrite string_eqb_refl.
      rewrite (proj2 (string_eqb_false _ _) Htrim), bool_decide_eq_true_2 by done. done.
    + apply Forall_cons in Ht as [[[Hab _] [Hz _]] _]. cbn [validateArgv].
      rewrite (proj2 (string_eqb_false _ _)) by (intros E; by rewrite E in Hab). cbn [existsb]. by rewrite Hz, Hnul.
  - rewrite Hcmd, Hsync, Heng, Hmode, Htype, Et, (T3 Et), Ha, Hsrc, Hdst.
    split_and!; [|done|constructor; [by right|constructor; [by right|constructor; [|constructor]]]].
    + change (string_eqb ActionSync ActionScript) with false. change (string_eqb ActionSync ActionCommand) with false.
      rewrite !string_eqb_refl. rewrite bool_decide_eq_true_2 by done.
      destruct (sync_paths_apart s d) as (H1 & H2 & H3); [done..|]. rewrite Es, Ed in *. rewrite H1, H2, H3, !abs_not_empty.
      cbn [negb orb fail_if mbind result_bind]. rewrite Hguard. destruct destr; [by rewrite string_eqb_refl|]. done.
    + rewrite Hguard. destruct destr; [by right|by left].
Qed.

Lemma compiled_validate : validate (render_tools (Plan_HostTools plan)) plan = Ok tt.
Proof.
  destruct compiled_action_valid as (Hact & Hargv & Hpaths). destruct compiled_tool_facts as [[Hprof _] _].
  destruct compiled_pre_facts as (Hid & Hpos & _).
  destruct (compiled_copies _ _ _ _ Hc) as (_ & Hj & _ & _ & _ & _ & _ & _ & _ & _ & Hl & Hw).
  pose proof (compileExecutionBounds_char (Job_Execution job)) as Hb. rewrite (compiled_bounds _ _ _ _ Hc) in Hb.
  destruct Hb as (_ & _ & Hum & _ & _ & Heq & _).
  repeat match goal with H : Forall _ (_ :: _) |- _ => apply Forall_cons in H as [? H] end.
  unfold validate. rewrite Hprof. cbn [negb fail_if mbind result_bind].
  rewrite (compiled_directory _ _ _ _ Hc). cbn [wrap_err mbind result_bind].
  destruct (wrapper_components_ok _ _ Hid Hpos) as [Hg Hpc].
  rewrite Hw, wrapper_path_comps, path_ok_comps by done. cbn [wrap_err mbind result_bind].
  rewrite !optional_path_ok by done. cbn [mbind result_bind]. rewrite Hargv.
  assert (Plan_Umask plan >? 511 = false)%Z as ->
    by (rewrite Z.gtb_ltb; apply Z.ltb_ge; rewrite Heq; destruct (_ =? _)%Z; lia).
  rewrite Hl, bool_decide_eq_true_2 by done. cbn [negb fail_if mbind result_bind].
  rewrite Hact, compiled_identity_ok, compiled_environment_ok. cbn [negb fail_if mbind result_bind].
  by apply compiled_tool_paths.
Qed.
End CompiledRender.

Lemma render_body_exec tools plan : exists body, render_body tools plan = body +:+ renderExec tools plan.
Proof.
  unfold render_body. set (e := renderExec tools plan). unfold cat at 1, fold_right. rewrite (app_empty_r e).
  eexists. rewrite <-!app_assoc_str. reflexivity.
Qed.

(** A script that was rendered ends in the plan's final command, and the shell
    reads that command as the plan's words. *)
Lemma Render_reads plan rendered :
  Render plan = Ok rendered ->
  let tools := render_tools (Plan_HostTools plan) in
  exists body rest, rendered = body +:+ renderExec tools plan /\
    lex Plain None (renderExec tools plan) =
      Some (lits (if with_backup plan then "if" else "exec") :: exec_words tools plan, rest).
Proof.
  intros H tools. unfold Render in H. fold tools in H. apply bind_Ok in H as (u & Hv & [= <-]).
  destruct (render_body_exec tools plan) as [body Hb].
  assert (Plan_Argv plan <> []) as Hargv.
  { unfold validate in Hv. res_inv. match goal with H : validateArgv _ = Ok _ |- _ => by intros E; rewrite E in H end. }
  destruct (renderExec_reads tools plan Hargv) as [rest Hr]. by exists body, rest.
Qed.

(** C23: a plan the compiler accepts is a plan the wrapper accepts.  When the
    unused fields of the action are empty and the probed tool paths hold no
    control character (those a probe finds do not), every compiled plan passes all
    the checks that the renderer and the store repeat: paths, argv, identity,
    environment with the fixed PATH, disjoint sync directories, destructive guard,
    managed path, the tools of the store.  The rendered script ends in the plan's
    final command, and on any host [Install] gets to its first command: it is the
    installation of that script at the plan's path. *)
Theorem Compile_Render {W} `{!HostInspector W} c now job request (w : W) plan w' :
  Compile c now job request w = (Ok plan, w') ->
  action_tidy (Job_Action job) -> in_u64 (Job_Revision job) -> in_s64 (Job_ID job) ->
  tools_printable (Plan_HostTools plan) ->
  validateManagedWrapperPath plan = Ok tt /\ validateStoreTools (Plan_HostTools plan) = Ok tt /\
  exists body, let script := body +:+ renderExec (render_tools (Plan_HostTools plan)) plan in
    Render plan = Ok script /\
    forall (V : Type) (host : HostCommandRunner V) (v : V),
      Install plan v = install_at (Plan_HostTools plan) (Dir (Plan_WrapperPath plan)) (Plan_WrapperPath plan) script v.
Proof.
  intros H Htidy [Hrev _] [_ Hjob] Ht. apply Compile_Ok in H as (c' & -> & Hc).
  assert (validateManagedWrapperPath plan = Ok tt) as Hpath.
  { destruct (compiled_copies _ _ _ _ Hc) as (_ & Hj & _ & _ & _ & _ & _ & _ & _ & _ & _ & Hw).
    destruct (compiled_pre_facts c' job request plan Hc) as (Hid & Hpos & _).
    eapply validateManagedWrapperPath_compiled; [exact Hid|by rewrite Hj|by rewrite Hj]. }
  destruct (compiled_tool_paths c' job request plan Hc Ht) as [_ Hstore].
  split; [done|]. split; [done|]. destruct (render_body_exec (render_tools (Plan_HostTools plan)) plan) as [body Hb]. exists body.
  assert (Render plan = Ok (body +:+ renderExec (render_tools (Plan_HostTools plan)) plan)) as Hren
    by (unfold Render; rewrite (compiled_validate c' job request plan Hc Htidy Hrev Ht); by rewrite <-Hb).
  split; [exact Hren|]. intros V host v. unfold Install. rewrite Hpath, Hren, Hstore. reflexivity.
Qed.

Lemma renderExec_words_witness :
  exists plan rest, demo_compile = (Ok plan, tt) /\
    lex Plain None (renderExec (render_tools (Plan_HostTools plan)) plan) =
      Some (lits "if" :: exec_words (render_tools (Plan_HostTools plan)) plan, rest).
Proof.
  assert (exists plan, demo_compile = (Ok plan, tt) /\ with_backup plan = true /\ length (Plan_Argv plan) <> 0%nat)
    as (plan & Hp & Hb & Hl) by (eexists; split; [|split]; vm_compute; [reflexivity..|discriminate]).
  assert (~ (Plan_Argv plan = [])) as Hargv by (intros E; by rewrite E in Hl).
  destruct (renderExec_words (render_tools (Plan_HostTools plan)) plan Hargv) as [rest Hr].
  exists plan, rest. split; [exact Hp|]. by rewrite Hb in Hr.
Defined.

Lemma Compile_Render_witness :
  exists plan, demo_compile = (Ok plan, tt) /\ validateManagedWrapperPath plan = Ok tt.
Proof.
  assert (exists plan, demo_compile = (Ok plan, tt) /\ Plan_HostTools plan = demo_tools) as (plan & Hp & Ht)
    by (eexists; split; vm_compute; reflexivity).
  exists plan. split; [exact Hp|].
  apply (@Compile_Render unit demo_inspector (Some demo_compiler) 1%Z demo_sync_job demo_request tt plan tt Hp).
  - split_and!; vm_compute; (done || discriminate).
  - vm_compute. split; [discriminate|reflexivity].
  - vm_compute. split; [discriminate|reflexivity].
  - rewrite Ht. unfold tools_printable. repeat (constructor; [split; vm_compute; reflexivity|]). constructor.
Defined.
