(* ===== verification/RunService.v ===== *)
(** * The run service ([run_service.go])

    [RunService] owns every run: it reserves a run per request, at most one
    active and one queued per job, executes it in a goroutine, and records how it
    ended.  The state is what the service's mutex protects, plus the goroutines
    it has started; a step is one critical section, or one answer of a component
    it calls (the compiler, the wrapper store, the executor, the history file).
    Any interleaving of the goroutines and of the API calls is a sequence of
    steps. *)

From S2P Require Import Prelude GoStrings Model LogBuffer HostCommand Capabilities ExecutionPlan.

(** ** Data *)

Definition RunQueued : string := "queued".
Definition RunRunning : string := "running".
Definition RunSkippedOverlap : string := "skipped_overlap".
(** [host_executor.go] *)
Definition RunSucceeded : string := "succeeded".
Definition RunFailed : string := "failed".
Definition RunKilled : string := "killed".
Definition RunTimedOut : string := "timed_out".
Definition RunStartFailed : string := "start_failed".

Definition ErrOverlap : goerror := ErrVar "job already has an active run".
Definition ErrRunNotFound : goerror := ErrVar "run not found".
Definition ErrRunNotActive : goerror := ErrVar "run is not active".

Record RunResult := MkRunResult {
  Result_Status : string;
  Result_ExitCode : Z;
  Result_KillEscalated : bool;
  Result_DroppedLogLines : Z;
  Result_Err : option goerror;
  Result_LogError : option goerror;
  Result_ControlError : option goerror
}.

(** Times are instants; 0 is the zero [time.Time]. *)
Record RunSnapshot := MkRunSnapshot {
  Run_ID : string;
  Run_JobID : Z;
  Run_Revision : Z;
  Run_Status : string;
  Run_Origin : string;
  Run_DryRun : bool;
  Run_RequestedAt : Z;
  Run_StartedAt : Z;
  Run_FinishedAt : Z;
  Run_EffectiveUID : Z;
  Run_EffectiveGID : Z;
  Run_ExitCode : Z;
  Run_KillEscalated : bool;
  Run_DroppedLogLines : Z;
  Run_LogError : string;
  Run_ControlError : string;
  Run_HistoryError : string;
  Run_Error : string
}.

Record StartRunInput := MkStartRunInput {
  Start_JobID : Z; Start_Revision : Z; Start_Origin : string; Start_DryRun : bool
}.
Record RunFilter := MkRunFilter { Filter_JobID : Z; Filter_Status : string; Filter_Limit : Z }.

Definition RunEventState : string := "state".
Definition RunEventLog : string := "log".
Record RunEvent := MkRunEvent { Event_ID : Z; Event_Kind : string; Event_Run : RunSnapshot; Event_Log : string }.

(** [handle != nil] and a cancelled context are flags. *)
Record runState := MkRunState {
  rs_snapshot : RunSnapshot;
  rs_job : Job;
  rs_log : LogBuffer;
  rs_handle : bool;
  rs_cancelled : bool;
  rs_starting : bool;
  rs_stopRequested : bool
}.

(** A subscriber's channel: its capacity and what it holds, oldest first. *)
Record subscriber := MkSubscriber { sub_capacity : nat; sub_buffer : list RunEvent }.

(** ** Goroutines *)

(** Where a goroutine running [execute] is, between two of its critical
    sections or calls. *)
Inductive exec_phase :=
  | EBegin
  | ECompile (job : Job) (request : RunRequest)
  | ECompiled (r : result ExecutionPlan)
  | EInstall (plan : ExecutionPlan)
  | EInstalled (r : result ExecutionPlan)
  | EReserve (plan : ExecutionPlan)
  | EStarting (plan : ExecutionPlan)
  | EStarted (plan : ExecutionPlan)
  | EWait (stop : bool)
  | EFinish (r : RunResult).

(** A call of [persistHistory] waiting for its turn, or between the append and
    the end; [persist_hook] is the job the terminal hook will be called with. *)
Inductive persist_phase := PWait | PRecord (err : option goerror).
Record persister := MkPersister {
  persist_sequence : Z;
  persist_snapshot : RunSnapshot;
  persist_logs : string;
  persist_hook : option Job;
  persist_at : persist_phase
}.

(** The counters are [uint64] in Go; they count single events of one process and
    are kept unbounded here. *)
Record RunService := MkRunService {
  sv_limits : LogLimits;
  sv_runs : gmap string runState;
  sv_active : gmap Z string;
  sv_pending : gmap Z string;
  sv_eventID : Z;
  sv_events : list RunEvent;
  sv_subscribers : gmap Z subscriber;
  sv_nextSubID : Z;
  sv_historyNext : Z;
  sv_historySequence : Z;
  sv_execs : list (string * exec_phase);
  sv_persisters : list persister;
  sv_history : list (Z * RunSnapshot);   (* what was given to [historyAppend], in order *)
  sv_hooks : list (Job * RunSnapshot)    (* the calls of the terminal hook, in order *)
}.

Definition NewRunService (limits : LogLimits) : RunService :=
  let limits := if (MaxRuns limits <=? 0)%Z
                then MkLogLimits (MaxBytes limits) (MaxLineBytes limits) 100 (MaxAge limits) else limits in
  let limits := if (MaxAge limits <=? 0)%Z
                then MkLogLimits (MaxBytes limits) (MaxLineBytes limits) (MaxRuns limits) (24 * 3600 * second)
                else limits in
  MkRunService limits ∅ ∅ ∅ 0 [] ∅ 0 1 0 [] [] [] [].

(** Updates of one field. *)
Definition set_runs (f : gmap string runState -> gmap string runState) (s : RunService) : RunService :=
  MkRunService (sv_limits s) (f (sv_runs s)) (sv_active s) (sv_pending s) (sv_eventID s) (sv_events s)
    (sv_subscribers s) (sv_nextSubID s) (sv_historyNext s) (sv_historySequence s) (sv_execs s) (sv_persisters s)
    (sv_history s) (sv_hooks s).
Definition set_slots (active pending : gmap Z string) (s : RunService) : RunService :=
  MkRunService (sv_limits s) (sv_runs s) active pending (sv_eventID s) (sv_events s)
    (sv_subscribers s) (sv_nextSubID s) (sv_historyNext s) (sv_historySequence s) (sv_execs s) (sv_persisters s)
    (sv_history s) (sv_hooks s).
Definition set_execs (f : list (string * exec_phase) -> list (string * exec_phase)) (s : RunService) : RunService :=
  MkRunService (sv_limits s) (sv_runs s) (sv_active s) (sv_pending s) (sv_eventID s) (sv_events s)
    (sv_subscribers s) (sv_nextSubID s) (sv_historyNext s) (sv_historySequence s) (f (sv_execs s)) (sv_persisters s)
    (sv_history s) (sv_hooks s).
Definition set_events (eventID : Z) (events : list RunEvent) (subs : gmap Z subscriber) (nextSubID : Z)
    (s : RunService) : RunService :=
  MkRunService (sv_limits s) (sv_runs s) (sv_active s) (sv_pending s) eventID events subs nextSubID
    (sv_historyNext s) (sv_historySequence s) (sv_execs s) (sv_persisters s) (sv_history s) (sv_hooks s).
Definition set_history (next sequence : Z) (persisters : list persister) (history : list (Z * RunSnapshot))
    (hooks : list (Job * RunSnapshot)) (s : RunService) : RunService :=
  MkRunService (sv_limits s) (sv_runs s) (sv_active s) (sv_pending s) (sv_eventID s) (sv_events s)
    (sv_subscribers s) (sv_nextSubID s) next sequence (sv_execs s) persisters history hooks.

(** ** Events *)

Definition isTerminalRunStatus (status : string) : bool :=
  bool_decide (status ∈ [RunSucceeded; RunFailed; RunKilled; RunTimedOut; RunStartFailed; RunSkippedOverlap]).

Definition terminal (r : runState) : bool := isTerminalRunStatus (Run_Status (rs_snapshot r)).

(** [select { case subscriber <- event: default: }] *)
Definition offer (event : RunEvent) (sub : subscriber) : subscriber :=
  if (length (sub_buffer sub) <? sub_capacity sub)%nat
  then MkSubscriber (sub_capacity sub) (sub_buffer sub ++ [event]) else sub.

Definition keep_last (max : Z) (events : list RunEvent) : list RunEvent :=
  if (Z.of_nat (length events) >? max)%Z then drop (length events - Z.to_nat max) events else events.

Definition publish_event (kind : string) (run : RunSnapshot) (log : string) (s : RunService) : RunService :=
  let eventID := (sv_eventID s + 1)%Z in
  let event := MkRunEvent eventID kind run log in
  set_events eventID (keep_last (MaxRuns (sv_limits s) * 8) (sv_events s ++ [event]))
    (offer event <$> sv_subscribers s) (sv_nextSubID s) s.

Definition publishLocked (snapshot : RunSnapshot) (s : RunService) : RunService :=
  publish_event RunEventState snapshot "" s.

Definition publishLog (id line : string) (s : RunService) : RunService :=
  match sv_runs s !! id with
  | Some run => if terminal run then s else publish_event RunEventLog (rs_snapshot run) line s
  | None => s
  end.

(** ** Retention *)

Definition finished_le (a b : string * runState) : Prop :=
  (Run_FinishedAt (rs_snapshot a.2) <= Run_FinishedAt (rs_snapshot b.2))%Z.
#[export] Instance finished_le_dec : RelDecision finished_le := fun a b => Z_le_dec _ _.

Definition delete_ids (ids : list string) (runs : gmap string runState) : gmap string runState :=
  fold_right delete runs ids.

(** Runs that finished at the same instant are removed in the order of the map;
    Go leaves that order open. *)
Definition trimLocked (now : Z) (s : RunService) : RunService :=
  let cutoff := (now - MaxAge (sv_limits s))%Z in
  let runs := (fun r => MkRunState (rs_snapshot r) (rs_job r) (TrimBefore (Some cutoff) (rs_log r)) (rs_handle r)
                          (rs_cancelled r) (rs_starting r) (rs_stopRequested r)) <$> sv_runs s in
  let runs := filter (fun kr => negb (terminal kr.2 && (Run_FinishedAt (rs_snapshot kr.2) <? cutoff)%Z) = true) runs in
  let terminals := merge_sort finished_le (filter (fun kr => terminal kr.2 = true) (map_to_list runs)) in
  let excess := (length terminals - Z.to_nat (MaxRuns (sv_limits s)))%nat in
  set_runs (fun _ => delete_ids (map fst (take excess terminals)) runs) s.

(** ** Finishing *)

Definition error_string (e : option goerror) (otherwise : string) : string :=
  match e with Some e => error_text e | None => otherwise end.

Definition finished_snapshot (now : Z) (result : RunResult) (r : RunSnapshot) : RunSnapshot :=
  MkRunSnapshot (Run_ID r) (Run_JobID r) (Run_Revision r)
    (if string_eqb (Result_Status result) "" then RunFailed else Result_Status result)
    (Run_Origin r) (Run_DryRun r) (Run_RequestedAt r) (Run_StartedAt r) now (Run_EffectiveUID r) (Run_EffectiveGID r)
    (Result_ExitCode result) (Result_KillEscalated result) (Result_DroppedLogLines result)
    (error_string (Result_LogError result) (Run_LogError r))
    (error_string (Result_ControlError result) (Run_ControlError r)) (Run_HistoryError r)
    (error_string (Result_Err result) (Run_Error r)).

Definition set_snapshot (snapshot : RunSnapshot) (r : runState) : runState :=
  MkRunState snapshot (rs_job r) (rs_log r) (rs_handle r) (rs_cancelled r) (rs_starting r) (rs_stopRequested r).
Definition cancel_run (r : runState) : runState :=
  MkRunState (rs_snapshot r) (rs_job r) (rs_log r) (rs_handle r) true (rs_starting r) (rs_stopRequested r).

(** [if m[k] == id { delete(m, k) }] *)
Definition delete_if (k : Z) (id : string) (m : gmap Z string) : gmap Z string :=
  if bool_decide (m !! k = Some id) then delete k m else m.

(** The slots once [run] is out: a pending run of the job is promoted and its
    goroutine started. *)
Definition promote (jobID : Z) (s : RunService) : RunService :=
  match sv_pending s !! jobID with
  | None => s
  | Some next =>
      set_execs (fun execs => execs ++ [(next, EBegin)])
        (set_slots (<[jobID := next]> (sv_active s)) (delete jobID (sv_pending s)) s)
  end.

(** [finishLocked] of the run [id]: [None] is [false], nothing changed;
    otherwise the final snapshot, the logs and the job are what the callers
    read from [run] afterwards. *)
Definition finishLocked (now : Z) (id : string) (result : RunResult) (s : RunService) :
    option (RunSnapshot * string * Job) * RunService :=
  match sv_runs s !! id with
  | None => (None, s)
  | Some run =>
      if terminal run then (None, s)
      else
        let snapshot := finished_snapshot now result (rs_snapshot run) in
        let run := set_snapshot snapshot (cancel_run run) in
        let jobID := Run_JobID snapshot in
        let s := set_runs (<[id := run]>) s in
        let s := set_slots (delete_if jobID id (sv_active s)) (delete_if jobID id (sv_pending s)) s in
        let s := publishLocked snapshot s in
        let logs := Bytes (TrimBefore (Some (now - MaxAge (sv_limits s))%Z) (rs_log run)) in
        let s := trimLocked now s in
        (Some (snapshot, logs, rs_job run), promote jobID s)
  end.

(** [nextHistoryLocked], then the call of [persistHistory] as a pending activity. *)
Definition persistHistory (snapshot : RunSnapshot) (logs : string) (hook : option Job) (s : RunService) : RunService :=
  let sequence := (sv_historySequence s + 1)%Z in
  set_history (sv_historyNext s) sequence
    (sv_persisters s ++ [MkPersister sequence snapshot logs hook PWait]) (sv_history s) (sv_hooks s) s.

(** [finish]: the hook runs after the history of this run is written. *)
Definition finish (now : Z) (id : string) (result : RunResult) (s : RunService) : RunService :=
  match finishLocked now id result s with
  | (None, s) => s
  | (Some (snapshot, logs, job), s) => persistHistory snapshot logs (Some (cloneJob job)) s
  end.

(** ** API calls *)

Definition new_run (id : string) (now : Z) (limits : LogLimits) (job : Job) (input : StartRunInput) : runState :=
  let origin := if string_eqb (Start_Origin input) "" then RunOriginManual else Start_Origin input in
  MkRunState
    (MkRunSnapshot id (Job_ID job) (Job_Revision job) RunQueued origin (Start_DryRun input) now 0 0 0 0 (-1) false 0 "" "" "" "")
    (cloneJob job) (NewLogBuffer limits) false false false false.

Definition overlap_snapshot (now : Z) (r : RunSnapshot) : RunSnapshot :=
  MkRunSnapshot (Run_ID r) (Run_JobID r) (Run_Revision r) RunSkippedOverlap (Run_Origin r) (Run_DryRun r)
    (Run_RequestedAt r) (Run_StartedAt r) now (Run_EffectiveUID r) (Run_EffectiveGID r) (Run_ExitCode r)
    (Run_KillEscalated r) (Run_DroppedLogLines r) (Run_LogError r) (Run_ControlError r) (Run_HistoryError r)
    (error_text ErrOverlap).

Definition overlap_result : RunResult := MkRunResult RunSkippedOverlap (-1) false 0 (Some ErrOverlap) None None.

(** The reservation of [Start], once the job is known.  [id] is the run ID
    [newRunID] generated; the snapshot is returned together with the error. *)
Definition reserve (id : string) (now : Z) (job : Job) (input : StartRunInput) (s : RunService) :
    RunSnapshot * option goerror * RunService :=
  let run := new_run id now (sv_limits s) job input in
  match sv_active s !! Job_ID job with
  | Some _ =>
      if negb (string_eqb (Exec_Overlap (Job_Execution job)) "queue-latest") then
        let snapshot := overlap_snapshot now (rs_snapshot run) in
        let s := set_runs (<[id := set_snapshot snapshot (cancel_run run)]>) s in
        let s := publishLocked snapshot s in
        (snapshot, Some ErrOverlap, persistHistory snapshot "" None s)
      else
        let '(replaced, s) :=
          match sv_pending s !! Job_ID job with
          | None => (None, s)
          | Some previous => finishLocked now previous overlap_result s
          end in
        let s := match replaced with
                 | Some (snapshot, logs, _) => persistHistory snapshot logs None s
                 | None => s
                 end in
        let s := set_runs (<[id := run]>) s in
        let s := set_slots (sv_active s) (<[Job_ID job := id]> (sv_pending s)) s in
        (rs_snapshot run, None, publishLocked (rs_snapshot run) s)
  | None =>
      let s := set_runs (<[id := run]>) s in
      let s := set_slots (<[Job_ID job := id]> (sv_active s)) (sv_pending s) s in
      let s := publishLocked (rs_snapshot run) s in
      (rs_snapshot run, None, set_execs (fun execs => execs ++ [(id, EBegin)]) s)
  end.

(** [Start]; [found] is the answer of the job repository, [newID] of the
    random source. *)
Definition Start (found : option Job) (newID : result string) (now : Z) (input : StartRunInput) (s : RunService) :
    result RunSnapshot * RunService :=
  match found with
  | None => (Err (ErrVar "job not found"), s)
  | Some job =>
      if negb (Start_Revision input =? 0)%Z && negb (Start_Revision input =? Job_Revision job)%Z
      then (Err (ErrVar "job revision conflict"), s)
      else match newID with
      | Err e => (Err (ErrWrap "generate run ID: " e ""), s)
      | Ok id =>
          let '(snapshot, err, s) := reserve id now job input s in
          (match err with Some e => Err e | None => Ok snapshot end, s)
      end
  end.

(** [Stop]: the error, whether the handle must be stopped, and the new state. *)
Definition Stop (now : Z) (id : string) (s : RunService) : option goerror * bool * RunService :=
  match sv_runs s !! id with
  | None => (Some ErrRunNotFound, false, s)
  | Some run =>
      if string_eqb (Run_Status (rs_snapshot run)) RunQueued then
        if rs_starting run then
          (None, false, set_runs (<[id := MkRunState (rs_snapshot run) (rs_job run) (rs_log run) (rs_handle run) true
                                            (rs_starting run) true]>) s)
        else
          match finishLocked now id (MkRunResult RunKilled (-1) false 0 None None None) s with
          | (None, s) => (None, false, s)
          | (Some (snapshot, logs, _), s) => (None, false, persistHistory snapshot logs None s)
          end
      else if negb (string_eqb (Run_Status (rs_snapshot run)) RunRunning) || negb (rs_handle run)
      then (Some ErrRunNotActive, false, s)
      else (None, true, s)
  end.

Definition prune (now : Z) (s : RunService) : RunService := trimLocked now s.

Definition Get (id : string) (now : Z) (s : RunService) : option RunSnapshot * RunService :=
  let s := prune now s in (rs_snapshot <$> sv_runs s !! id, s).

Definition Logs (id : string) (now : Z) (s : RunService) : option string * RunService :=
  let s := prune now s in ((fun r => Bytes (rs_log r)) <$> sv_runs s !! id, s).

Definition matches_filter (filter : RunFilter) (r : RunSnapshot) : bool :=
  negb ((negb (Filter_JobID filter =? 0)%Z && negb (Filter_JobID filter =? Run_JobID r)%Z) ||
        (negb (string_eqb (Filter_Status filter) "") && negb (string_eqb (Filter_Status filter) (Run_Status r)))).

Definition newest_first (a b : RunSnapshot) : Prop := (Run_RequestedAt b <= Run_RequestedAt a)%Z.
#[export] Instance newest_first_dec : RelDecision newest_first := fun a b => Z_le_dec _ _.

(** Runs requested at the same instant come in the order of the map. *)
Definition List_ (filter : RunFilter) (now : Z) (s : RunService) : list RunSnapshot * RunService :=
  let s := prune now s in
  let l := List.filter (matches_filter filter) (map (fun kr => rs_snapshot kr.2) (map_to_list (sv_runs s))) in
  let l := merge_sort newest_first l in
  (if (Filter_Limit filter >? 0)%Z && (Z.of_nat (length l) >? Filter_Limit filter)%Z
   then take (Z.to_nat (Filter_Limit filter)) l else l, s).

(** [Subscribe]: the new subscriber's channel already holds the replay. *)
Definition Subscribe (afterEventID : Z) (s : RunService) : Z * RunService :=
  let replay := List.filter (fun e => (Event_ID e >? afterEventID)%Z) (sv_events s) in
  let id := (sv_nextSubID s + 1)%Z in
  (id, set_events (sv_eventID s) (sv_events s)
         (<[id := MkSubscriber (length replay + 64) replay]> (sv_subscribers s)) id s).

(** The subscription's [Close]. *)
Definition Unsubscribe (id : Z) (s : RunService) : RunService :=
  set_events (sv_eventID s) (sv_events s) (delete id (sv_subscribers s)) (sv_nextSubID s) s.

(** A subscriber receives the oldest event of its channel. *)
Definition receive (id : Z) (s : RunService) : option RunEvent * RunService :=
  match sv_subscribers s !! id with
  | Some sub =>
      match sub_buffer sub with
      | event :: rest =>
          (Some event, set_events (sv_eventID s) (sv_events s)
             (<[id := MkSubscriber (sub_capacity sub) rest]> (sv_subscribers s)) (sv_nextSubID s) s)
      | [] => (None, s)
      end
  | None => (None, s)
  end.

(** ** Steps *)

Definition run_request (r : RunSnapshot) : RunRequest :=
  MkRunRequest (Run_ID r) (Run_JobID r) (Run_Revision r) (Run_Origin r) (Run_DryRun r) (Run_RequestedAt r).

Definition queued (id : string) (s : RunService) : bool :=
  match sv_runs s !! id with Some r => string_eqb (Run_Status (rs_snapshot r)) RunQueued | None => false end.

Definition start_failed (e : goerror) : RunResult := MkRunResult RunStartFailed (-1) false 0 (Some e) None None.

(** [plan.WrapperPath, err = s.installer.Install(ctx, plan)] *)
Definition set_wrapper_path (path : string) (p : ExecutionPlan) : ExecutionPlan :=
  MkExecutionPlan (Plan_RunID p) (Plan_JobID p) (Plan_Revision p) (Plan_Origin p) (Plan_DryRun p) (Plan_RequestedAt p)
    (Plan_ActionType p) (Plan_Command p) (Plan_SyncEngine p) (Plan_SyncMode p) (Plan_Sync p) (Plan_Argv p)
    (Plan_Identity p) (Plan_Environment p) (Plan_WorkingDirectory p) (Plan_Umask p) (Plan_Timeout p)
    (Plan_StopGrace p) path (Plan_SourcePath p) (Plan_DestinationPath p) (Plan_NonEmptySourceDir p)
    (Plan_HostTools p) (Plan_LauncherEnvironment p).

Definition set_starting (r : runState) : runState :=
  MkRunState (rs_snapshot r) (rs_job r) (rs_log r) (rs_handle r) (rs_cancelled r) true (rs_stopRequested r).

(** The run becomes running, with the identity of the plan. *)
Definition running_snapshot (now : Z) (plan : ExecutionPlan) (r : RunSnapshot) : RunSnapshot :=
  MkRunSnapshot (Run_ID r) (Run_JobID r) (Run_Revision r) RunRunning (Run_Origin r) (Run_DryRun r)
    (Run_RequestedAt r) now (Run_FinishedAt r) (Identity_UID (Plan_Identity plan)) (Identity_GID (Plan_Identity plan))
    (Run_ExitCode r) (Run_KillEscalated r) (Run_DroppedLogLines r) (Run_LogError r) (Run_ControlError r)
    (Run_HistoryError r) (Run_Error r).

Definition mark_running (now : Z) (plan : ExecutionPlan) (r : runState) : runState :=
  MkRunState (running_snapshot now plan (rs_snapshot r)) (rs_job r) (rs_log r) true (rs_cancelled r) false
    (rs_stopRequested r).

(** The critical section after the executor started the process. *)
Definition started (now : Z) (id : string) (plan : ExecutionPlan) (s : RunService) : bool * RunService :=
  match sv_runs s !! id with
  | Some r =>
      if string_eqb (Run_Status (rs_snapshot r)) RunQueued
      then (rs_stopRequested r,
            publishLocked (running_snapshot now plan (rs_snapshot r)) (set_runs (<[id := mark_running now plan r]>) s))
      else (false, s)
  | None => (false, s)
  end.

(** What the log consumer does with a line. *)
Definition consume (now : Z) (id line : string) (s : RunService) : RunService :=
  publishLog id line
    (set_runs (alter (fun r => MkRunState (rs_snapshot r) (rs_job r) (AppendAt now line (rs_log r)) (rs_handle r)
                                 (rs_cancelled r) (rs_starting r) (rs_stopRequested r)) id) s).

(** The executor's contract: the status of a result is terminal, or empty. *)
Definition executor_result (r : RunResult) : Prop :=
  Result_Status r = "" \/ isTerminalRunStatus (Result_Status r) = true.

Definition consuming (phase : exec_phase) : Prop :=
  match phase with EStarting _ | EStarted _ | EWait _ => True | _ => False end.

(** One step of the goroutine of [id]; [None] is its end. *)
Inductive exec_step (id : string) : exec_phase -> RunService -> option exec_phase -> RunService -> Prop :=
  | x_begin s r : sv_runs s !! id = Some r ->
      exec_step id EBegin s (Some (ECompile (cloneJob (rs_job r)) (run_request (rs_snapshot r)))) s
  | x_gone s : sv_runs s !! id = None -> exec_step id EBegin s None s
  | x_compile s job request r : exec_step id (ECompile job request) s (Some (ECompiled r)) s
  | x_compiled s r :
      exec_step id (ECompiled r) s
        (if queued id s then Some (match r with Ok plan => EInstall plan | Err e => EInstalled (Err e) end) else None) s
  | x_install s plan r :
      exec_step id (EInstall plan) s
        (Some (EInstalled (match r with Ok path => Ok (set_wrapper_path path plan) | Err e => Err e end))) s
  | x_installed s r :
      exec_step id (EInstalled r) s
        (if queued id s then Some (match r with Ok plan => EReserve plan | Err e => EFinish (start_failed e) end) else None) s
  | x_reserve s plan r : sv_runs s !! id = Some r -> Run_Status (rs_snapshot r) = RunQueued ->
      exec_step id (EReserve plan) s (Some (EStarting plan)) (set_runs (<[id := set_starting r]>) s)
  | x_unreserved s plan : queued id s = false -> exec_step id (EReserve plan) s None s
  | x_starting s plan (r : result unit) :
      exec_step id (EStarting plan) s (Some (match r with Ok _ => EStarted plan | Err e => EFinish (start_failed e) end)) s
  | x_started s plan now :
      exec_step id (EStarted plan) s (Some (EWait (started now id plan s).1)) (started now id plan s).2
  | x_wait s stop r : executor_result r -> exec_step id (EWait stop) s (Some (EFinish r)) s
  | x_finish s r now : exec_step id (EFinish r) s None (finish now id r s)
  | x_log s phase now line : consuming phase -> exec_step id phase s (Some phase) (consume now id line s).

(** The thread at position [i] moves on or ends. *)
Definition update_exec (i : nat) (id : string) (next : option exec_phase) : RunService -> RunService :=
  set_execs (fun execs => match next with Some phase => <[i := (id, phase)]> execs | None => delete i execs end).

(** After the append, the error is noted on the run. *)
Definition record_error (snapshot : RunSnapshot) (err : option goerror) (s : RunService) : RunService :=
  match err with
  | None => s
  | Some e =>
      match sv_runs s !! Run_ID snapshot with
      | None => s
      | Some r =>
          let snapshot := rs_snapshot r in
          let snapshot := MkRunSnapshot (Run_ID snapshot) (Run_JobID snapshot) (Run_Revision snapshot) (Run_Status snapshot)
            (Run_Origin snapshot) (Run_DryRun snapshot) (Run_RequestedAt snapshot) (Run_StartedAt snapshot)
            (Run_FinishedAt snapshot) (Run_EffectiveUID snapshot) (Run_EffectiveGID snapshot) (Run_ExitCode snapshot)
            (Run_KillEscalated snapshot) (Run_DroppedLogLines snapshot) (Run_LogError snapshot)
            (Run_ControlError snapshot) (error_text e) (Run_Error snapshot) in
          publishLocked snapshot (set_runs (<[Run_ID snapshot := set_snapshot snapshot r]>) s)
      end
  end.

(** [historyMu] is held from the append to the end. *)
Definition persist_append (i : nat) (p : persister) (err : option goerror) (s : RunService) : RunService :=
  set_history (sv_historyNext s) (sv_historySequence s)
    (<[i := MkPersister (persist_sequence p) (persist_snapshot p) (persist_logs p) (persist_hook p) (PRecord err)]>
       (sv_persisters s))
    (sv_history s ++ [(persist_sequence p, persist_snapshot p)]) (sv_hooks s) s.

Definition persist_end (i : nat) (p : persister) (err : option goerror) (s : RunService) : RunService :=
  let s := record_error (persist_snapshot p) err s in
  set_history (sv_historyNext s + 1) (sv_historySequence s) (delete i (sv_persisters s)) (sv_history s)
    (sv_hooks s ++ match persist_hook p with Some job => [(job, persist_snapshot p)] | None => [] end) s.

(** No run, goroutine or record has used this ID: it is 128 random bits. *)
Definition fresh_id (id : string) (s : RunService) : Prop :=
  sv_runs s !! id = None /\ id ∉ (sv_execs s).*1 /\
  id ∉ map (fun p => Run_ID (persist_snapshot p)) (sv_persisters s) /\
  id ∉ map (fun h => Run_ID h.2) (sv_history s).

Inductive step : RunService -> RunService -> Prop :=
  | step_start s job newID now input :
      (forall id, newID = Ok id -> fresh_id id s) -> step s (Start job newID now input s).2
  | step_stop s now id : step s (Stop now id s).2
  | step_prune s now : step s (prune now s)
  | step_subscribe s after : step s (Subscribe after s).2
  | step_unsubscribe s id : step s (Unsubscribe id s)
  | step_receive s id : step s (receive id s).2
  | step_exec s i id phase next s' :
      sv_execs s !! i = Some (id, phase) -> exec_step id phase s next s' -> step s (update_exec i id next s')
  | step_append s i p err :
      sv_persisters s !! i = Some p -> persist_at p = PWait -> persist_sequence p = sv_historyNext s ->
      step s (persist_append i p err s)
  | step_record s i p err :
      sv_persisters s !! i = Some p -> persist_at p = PRecord err -> step s (persist_end i p err s).

(** The states a service started with [limits] can reach. *)
Inductive reachable (limits : LogLimits) : RunService -> Prop :=
  | reachable_new : reachable limits (NewRunService limits)
  | reachable_step s s' : reachable limits s -> step s s' -> reachable limits s'.
