(* ===== verification/RunServiceProofs.v ===== *)
(** * Invariants of the run service

    What holds in every reachable state, whatever the interleaving: the slots,
    the goroutines and the runs agree, the history is written in order and once
    per run, a finished run stays finished, and the event log is bounded. *)

From S2P Require Import Prelude GoStrings Model LogBuffer HostCommand Capabilities ExecutionPlan.
From S2P Require Import RunService.

(** ** The invariant *)

(** Two versions of a run that agree on what the slots depend on. *)
Definition same_run (r r' : runState) : Prop :=
  Run_ID (rs_snapshot r) = Run_ID (rs_snapshot r') /\ Run_JobID (rs_snapshot r) = Run_JobID (rs_snapshot r') /\
  Run_Status (rs_snapshot r) = Run_Status (rs_snapshot r') /\
  rs_starting r = rs_starting r' /\ rs_handle r = rs_handle r'.

Definition is_queued (r : runState) : Prop := Run_Status (rs_snapshot r) = RunQueued.
Definition is_running (r : runState) : Prop := Run_Status (rs_snapshot r) = RunRunning.
Definition job_of (r : runState) : Z := Run_JobID (rs_snapshot r).

(** What the goroutine of [id] can rely on between two of its steps. *)
Definition phase_ok (runs : gmap string runState) (id : string) (phase : exec_phase) : Prop :=
  match phase with
  | EStarting _ | EStarted _ => exists r, runs !! id = Some r /\ is_queued r /\ rs_starting r = true
  | EWait _ => exists r, runs !! id = Some r /\ is_running r /\ rs_handle r = true
  | EFinish result => executor_result result
  | _ => forall r, runs !! id = Some r -> terminal r = false -> is_queued r /\ rs_starting r = false
  end.

Record slots_ok (runs : gmap string runState) (active pending : gmap Z string) (execs : list (string * exec_phase)) : Prop := {
  ok_run : forall id r, runs !! id = Some r ->
    Run_ID (rs_snapshot r) = id /\ (terminal r = false -> is_queued r \/ is_running r);
  ok_active : forall j id, active !! j = Some id ->
    id ∈ execs.*1 /\ exists r, runs !! id = Some r /\ job_of r = j /\ terminal r = false;
  ok_pending : forall j id, pending !! j = Some id ->
    is_Some (active !! j) /\ id ∉ execs.*1 /\
    exists r, runs !! id = Some r /\ job_of r = j /\ is_queued r /\ rs_starting r = false;
  ok_slot : forall id r, runs !! id = Some r -> terminal r = false ->
    active !! job_of r = Some id \/ pending !! job_of r = Some id;
  ok_unique : NoDup execs.*1;
  ok_phase : forall id phase, (id, phase) ∈ execs -> phase_ok runs id phase
}.

Definition inv (s : RunService) : Prop := slots_ok (sv_runs s) (sv_active s) (sv_pending s) (sv_execs s).

(** ** Changing what the invariant does not look at *)

Definition runs_agree (runs runs' : gmap string runState) : Prop :=
  (forall id r', runs' !! id = Some r' -> exists r, runs !! id = Some r /\ same_run r r') /\
  (forall id r, runs !! id = Some r -> terminal r = false -> exists r', runs' !! id = Some r' /\ same_run r r').

Lemma same_run_terminal r r' : same_run r r' -> terminal r = terminal r'.
Proof. intros (_ & _ & H & _). unfold terminal. by rewrite H. Qed.
Lemma same_run_job r r' : same_run r r' -> job_of r = job_of r'.
Proof. by intros (_ & H & _). Qed.
Lemma same_run_queued r r' : same_run r r' -> is_queued r -> is_queued r'.
Proof. unfold is_queued. by intros (_ & _ & <- & _). Qed.
Lemma same_run_running r r' : same_run r r' -> is_running r -> is_running r'.
Proof. unfold is_running. by intros (_ & _ & <- & _). Qed.
Lemma same_run_starting r r' : same_run r r' -> rs_starting r = rs_starting r'.
Proof. by intros (_ & _ & _ & H & _). Qed.
#[export] Hint Resolve same_run_queued same_run_running : core.

Lemma queued_not_terminal r : is_queued r -> terminal r = false.
Proof. unfold terminal, is_queued. intros ->. done. Qed.
Lemma running_not_terminal r : is_running r -> terminal r = false.
Proof. unfold terminal, is_running. intros ->. done. Qed.
#[export] Hint Resolve queued_not_terminal running_not_terminal : core.

Lemma slots_ok_agree runs runs' active pending execs :
  slots_ok runs active pending execs -> runs_agree runs runs' -> slots_ok runs' active pending execs.
Proof.
  intros [Hrun Hact Hpend Hslot Huniq Hph] [Hback Hfwd].
  assert (forall (P : runState -> Prop) id, (forall r r', same_run r r' -> P r -> P r') ->
    (exists r, runs !! id = Some r /\ terminal r = false /\ P r) -> exists r', runs' !! id = Some r' /\ P r') as Hkeep.
  { intros P id HP (r & Hr & Ht & Hp). destruct (Hfwd _ _ Hr Ht) as (r' & Hr' & Hs). eauto. }
  split.
  - intros id r' Hr'. destruct (Hback _ _ Hr') as (r & Hr & Hs). destruct (Hrun _ _ Hr) as [Hid Hst].
    rewrite (same_run_terminal _ _ Hs) in Hst. split; [by destruct Hs as (<- & _)|].
    intros Ht. destruct (Hst Ht); eauto.
  - intros j id Hj. destruct (Hact _ _ Hj) as (Hin & r & Hr & Hjob & Ht). split; [done|].
    apply (Hkeep (fun r => job_of r = j /\ terminal r = false)); [|eauto].
    intros x x' Hs [Hx Hx']. by rewrite <-(same_run_terminal _ _ Hs), <-(same_run_job _ _ Hs).
  - intros j id Hj. destruct (Hpend _ _ Hj) as (Ha & Hni & r & Hr & Hjob & Hq & Hs). split; [done|]. split; [done|].
    apply (Hkeep (fun r => job_of r = j /\ is_queued r /\ rs_starting r = false)); [|eauto 8].
    intros x x' Hxx (Hx1 & Hx2 & Hx3). rewrite <-(same_run_job _ _ Hxx), <-(same_run_starting _ _ Hxx). eauto.
  - intros id r' Hr' Ht. destruct (Hback _ _ Hr') as (r & Hr & Hs). rewrite <-(same_run_terminal _ _ Hs) in Ht.
    rewrite <-(same_run_job _ _ Hs). eauto.
  - done.
  - intros id phase Hin. specialize (Hph _ _ Hin).
    assert ((forall r, runs !! id = Some r -> terminal r = false -> is_queued r /\ rs_starting r = false) ->
      forall r', runs' !! id = Some r' -> terminal r' = false -> is_queued r' /\ rs_starting r' = false) as Hearly.
    { intros H r' Hr' Ht. destruct (Hback _ _ Hr') as (r & Hr & Hs). rewrite <-(same_run_terminal _ _ Hs) in Ht.
      rewrite <-(same_run_starting _ _ Hs). destruct (H _ Hr Ht). eauto. }
    destruct phase; simpl in *; try (by apply Hearly); try done.
    1-2: destruct Hph as (r & Hr & Hq & Hs); apply (Hkeep (fun r => is_queued r /\ rs_starting r = true)); [|eauto 8];
      intros x x' Hxx [H1 H2]; rewrite <-(same_run_starting _ _ Hxx); eauto.
    destruct Hph as (r & Hr & Hq & Hs). apply (Hkeep (fun r => is_running r /\ rs_handle r = true)); [|eauto 8].
    intros x x' Hxx [H1 H2]. split; [eauto|]. by destruct Hxx as (_ & _ & _ & _ & <-).
Qed.

Lemma same_run_refl r : same_run r r.
Proof. done. Qed.
#[export] Hint Resolve same_run_refl : core.

(** ** Retention removes terminal runs only *)

Lemma delete_ids_lookup ids runs id :
  delete_ids ids runs !! id = if bool_decide (id ∈ ids) then None else runs !! id.
Proof.
  unfold delete_ids. induction ids as [|x ids IH]; simpl; [done|].
  destruct (decide (id = x)) as [->|Hne].
  - rewrite lookup_delete_eq, bool_decide_eq_true_2; [done|by left].
  - rewrite lookup_delete_ne, IH by done. erewrite bool_decide_ext; [done|]. rewrite elem_of_cons. naive_solver.
Qed.

Lemma trim_agree now s : runs_agree (sv_runs s) (sv_runs (trimLocked now s)).
Proof.
  unfold trimLocked. cbn [sv_runs set_runs].
  set (g := fun r => MkRunState (rs_snapshot r) (rs_job r) (TrimBefore _ (rs_log r)) (rs_handle r)
                       (rs_cancelled r) (rs_starting r) (rs_stopRequested r)).
  set (kept := filter _ (g <$> sv_runs s)). set (terminals := merge_sort finished_le _).
  assert (forall id r', kept !! id = Some r' -> exists r, sv_runs s !! id = Some r /\ r' = g r) as Hkept.
  { intros id r' [Hr' _]%map_lookup_filter_Some. rewrite lookup_fmap in Hr'.
    destruct (sv_runs s !! id) as [r|]; [|done]. injection Hr' as <-. eauto. }
  split.
  - intros id r'. rewrite delete_ids_lookup. case_bool_decide; [done|]. intros (r & Hr & ->)%Hkept. by exists r.
  - intros id r Hr Ht. exists (g r). split; [|done]. rewrite delete_ids_lookup, bool_decide_eq_false_2.
    + apply map_lookup_filter_Some. rewrite lookup_fmap, Hr. split; [done|]. simpl.
      change (terminal (g r)) with (terminal r). by rewrite Ht.
    + intros ([k x] & -> & Hin)%list_elem_of_fmap. apply elem_of_take in Hin as (i & Hi & _).
      apply list_elem_of_lookup_2 in Hi. unfold terminals in Hi. rewrite merge_sort_Permutation in Hi.
      apply list_elem_of_filter in Hi as [Hx Hin]. apply elem_of_map_to_list in Hin.
      apply Hkept in Hin as (r0 & Hr0 & ->). simpl in *. rewrite Hr in Hr0. injection Hr0 as <-.
      change (terminal (g r)) with (terminal r) in Hx. congruence.
Qed.

(** ** Replacing one run *)

(** The run [id] is replaced by a non-terminal version of the same run. *)
Lemma slots_ok_update runs active pending execs id r r' :
  slots_ok runs active pending execs -> runs !! id = Some r -> terminal r = false ->
  Run_ID (rs_snapshot r') = id -> job_of r' = job_of r -> (is_queued r' \/ is_running r') ->
  (pending !! job_of r = Some id -> is_queued r' /\ rs_starting r' = false) ->
  (forall phase, (id, phase) ∈ execs -> phase_ok (<[id := r']> runs) id phase) ->
  slots_ok (<[id := r']> runs) active pending execs.
Proof.
  intros [Hrun Hact Hpend Hslot Huniq Hph] Hr Ht Hid Hjob Hst Hp Hphase.
  assert (terminal r' = false) as Ht' by (destruct Hst; auto). split.
  - intros k x Hx. destruct (decide (k = id)) as [->|Hne].
    + rewrite lookup_insert_eq in Hx. injection Hx as <-. done.
    + rewrite lookup_insert_ne in Hx by done. eauto.
  - intros j k Hj. destruct (Hact _ _ Hj) as (Hin & x & Hx & Hxj & Hxt). split; [done|].
    destruct (decide (k = id)) as [->|Hne].
    + rewrite lookup_insert_eq. exists r'. rewrite Hr in Hx. injection Hx as <-. split_and!; congruence.
    + rewrite lookup_insert_ne by done. eauto.
  - intros j k Hj. destruct (Hpend _ _ Hj) as (Ha & Hni & x & Hx & Hxj & Hxq & Hxs). split; [done|]. split; [done|].
    destruct (decide (k = id)) as [->|Hne].
    + rewrite lookup_insert_eq. exists r'. rewrite Hr in Hx. injection Hx as <-.
      rewrite <-Hxj in Hj. destruct (Hp Hj). split_and!; [done|congruence|done|done].
    + rewrite lookup_insert_ne by done. eauto 8.
  - intros k x Hx Hxt. destruct (decide (k = id)) as [->|Hne].
    + rewrite lookup_insert_eq in Hx. injection Hx as <-. rewrite Hjob. eauto.
    + rewrite lookup_insert_ne in Hx by done. eauto.
  - done.
  - intros k phase Hin. destruct (decide (k = id)) as [->|Hne]; [by apply Hphase|].
    specialize (Hph _ _ Hin). destruct phase; simpl in *; by rewrite ?lookup_insert_ne by done.
Qed.

(** A new terminal run takes no slot. *)
Lemma slots_ok_add_terminal runs active pending execs id r :
  slots_ok runs active pending execs -> runs !! id = None -> id ∉ execs.*1 ->
  Run_ID (rs_snapshot r) = id -> terminal r = true -> slots_ok (<[id := r]> runs) active pending execs.
Proof.
  intros [Hrun Hact Hpend Hslot Huniq Hph] Hnone Hni Hid Ht. split.
  - intros k x Hx. destruct (decide (k = id)) as [->|Hne].
    + rewrite lookup_insert_eq in Hx. injection Hx as <-. split; [done|congruence].
    + rewrite lookup_insert_ne in Hx by done. eauto.
  - intros j k Hj. destruct (Hact _ _ Hj) as (Hin & x & Hx & ?). split; [done|]. exists x.
    rewrite lookup_insert_ne by (intros ->; congruence). done.
  - intros j k Hj. destruct (Hpend _ _ Hj) as (Ha & Hk & x & Hx & ?). split; [done|]. split; [done|]. exists x.
    rewrite lookup_insert_ne by (intros ->; congruence). done.
  - intros k x Hx Hxt. destruct (decide (k = id)) as [->|Hne].
    + rewrite lookup_insert_eq in Hx. injection Hx as <-. congruence.
    + rewrite lookup_insert_ne in Hx by done. eauto.
  - done.
  - intros k phase Hin. assert (k <> id) as Hne.
    { intros ->. apply Hni. apply (list_elem_of_fmap_2 fst) in Hin. done. }
    specialize (Hph _ _ Hin). destruct phase; simpl in *; by rewrite ?lookup_insert_ne by done.
Qed.

(** ** The goroutines *)

(** A goroutine moves to another phase. *)
Lemma slots_ok_move runs active pending execs i id phase phase' :
  slots_ok runs active pending execs -> execs !! i = Some (id, phase) -> phase_ok runs id phase' ->
  slots_ok runs active pending (<[i := (id, phase')]> execs).
Proof.
  intros [Hrun Hact Hpend Hslot Huniq Hph] Hi Hok.
  assert ((<[i := (id, phase')]> execs).*1 = execs.*1) as Hfst.
  { rewrite list_fmap_insert. simpl. apply list_insert_id. by rewrite list_lookup_fmap, Hi. }
  split; rewrite ?Hfst; try done.
  intros k p (n & Hn)%list_elem_of_lookup. destruct (decide (n = i)) as [->|Hne].
  - rewrite list_lookup_insert_eq in Hn by (by eapply lookup_lt_Some). by injection Hn as <- <-.
  - rewrite list_lookup_insert_ne in Hn by done. apply Hph. by eapply list_elem_of_lookup_2.
Qed.

(** A goroutine whose run is finished, or gone, ends. *)
Lemma slots_ok_end runs active pending execs i id phase :
  slots_ok runs active pending execs -> execs !! i = Some (id, phase) ->
  (forall r, runs !! id = Some r -> terminal r = true) -> slots_ok runs active pending (delete i execs).
Proof.
  intros [Hrun Hact Hpend Hslot Huniq Hph] Hi Hfin.
  assert (execs ≡ₚ (id, phase) :: delete i execs) as Hperm by (by apply delete_Permutation).
  assert (execs.*1 ≡ₚ id :: (delete i execs).*1) as Hp1 by (by rewrite Hperm at 1).
  split; try done.
  - intros j k Hj. destruct (Hact _ _ Hj) as (Hin & r & Hr & Hjob & Ht). split; [|eauto].
    rewrite Hp1 in Hin. apply elem_of_cons in Hin as [->|Hin]; [|done]. rewrite (Hfin _ Hr) in Ht. done.
  - intros j k Hj. destruct (Hpend _ _ Hj) as (Ha & Hni & Hr). split; [done|]. split; [|done].
    intros Hin. apply Hni. rewrite Hp1. by right.
  - rewrite Hp1 in Huniq. by apply NoDup_cons in Huniq as [_ ?].
  - intros k p Hin. apply Hph. rewrite Hperm. by right.
Qed.

(** ** Finishing a run *)

(** Phases in which another party may finish the run. *)
Definition interruptible (phase : exec_phase) : Prop :=
  match phase with EStarting _ | EStarted _ | EWait _ => False | _ => True end.

Section Finish.
Context (runs : gmap string runState) (active pending : gmap Z string) (execs : list (string * exec_phase)).
Context (id : string) (r r' : runState).
Context (Hok : slots_ok runs active pending execs) (Hr : runs !! id = Some r) (Ht : terminal r = false).
Context (Ht' : terminal r' = true) (Hid : Run_ID (rs_snapshot r') = id) (Hjob : job_of r' = job_of r).
Context (Hint : forall phase, (id, phase) ∈ execs -> interruptible phase).

Lemma finish_run : forall k x, <[id := r']> runs !! k = Some x ->
  Run_ID (rs_snapshot x) = k /\ (terminal x = false -> is_queued x \/ is_running x).
Proof.
  intros k x Hx. destruct (decide (k = id)) as [->|Hne].
  - rewrite lookup_insert_eq in Hx. injection Hx as <-. split; [done|congruence].
  - rewrite lookup_insert_ne in Hx by done. by eapply ok_run.
Qed.

Lemma finish_phase k phase : (k, phase) ∈ execs -> phase_ok (<[id := r']> runs) k phase.
Proof.
  intros Hin. pose proof (ok_phase _ _ _ _ Hok _ _ Hin) as Hph. destruct (decide (k = id)) as [->|Hne].
  - specialize (Hint _ Hin). destruct phase; simpl in *; try done;
      intros x Hx Hxt; rewrite lookup_insert_eq in Hx; injection Hx as <-; congruence.
  - destruct phase; simpl in *; by rewrite ?lookup_insert_ne by done.
Qed.

(** Other runs keep what the slots say about them. *)
Lemma finish_other (P : runState -> Prop) k :
  k <> id -> (exists x, runs !! k = Some x /\ P x) -> exists x, <[id := r']> runs !! k = Some x /\ P x.
Proof. intros Hne (x & Hx & HP). exists x. by rewrite lookup_insert_ne. Qed.

Lemma job_slot j k x : runs !! k = Some x -> (active !! j = Some k \/ pending !! j = Some k) -> job_of x = j.
Proof.
  intros Hx [H|H].
  - apply (ok_active _ _ _ _ Hok) in H as (_ & y & Hy & ? & _). congruence.
  - apply (ok_pending _ _ _ _ Hok) in H as (_ & _ & y & Hy & ? & _). congruence.
Qed.

Lemma finish_pending :
  pending !! job_of r = Some id -> slots_ok (<[id := r']> runs) active (delete (job_of r) pending) execs.
Proof.
  intros Hp. pose proof (ok_pending _ _ _ _ Hok _ _ Hp) as (_ & Hni & _). split.
  - exact finish_run.
  - intros j k Hj. destruct (ok_active _ _ _ _ Hok _ _ Hj) as [Hin Hx]. split; [done|].
    apply finish_other; [|done]. by intros ->.
  - intros j k [Hne Hj]%lookup_delete_Some. destruct (ok_pending _ _ _ _ Hok _ _ Hj) as (Ha & Hk & Hx).
    split; [done|]. split; [done|]. apply finish_other; [|done]. intros ->. apply Hne.
    apply (job_slot j id r Hr). by right.
  - intros k x Hx Hxt. destruct (decide (k = id)) as [->|Hne].
    + rewrite lookup_insert_eq in Hx. injection Hx as <-. congruence.
    + rewrite lookup_insert_ne in Hx by done. destruct (ok_slot _ _ _ _ Hok _ _ Hx Hxt) as [H|H]; [by left|right].
      apply lookup_delete_Some. split; [|done]. intros E. rewrite <-E in H. congruence.
  - exact (ok_unique _ _ _ _ Hok).
  - exact finish_phase.
Qed.

Lemma finish_active_alone :
  active !! job_of r = Some id -> pending !! job_of r = None ->
  slots_ok (<[id := r']> runs) (delete (job_of r) active) pending execs.
Proof.
  intros Ha Hnone. split.
  - exact finish_run.
  - intros j k [Hne Hj]%lookup_delete_Some. destruct (ok_active _ _ _ _ Hok _ _ Hj) as [Hin Hx]. split; [done|].
    apply finish_other; [|done]. intros ->. apply Hne. apply (job_slot j id r Hr). by left.
  - intros j k Hj. destruct (ok_pending _ _ _ _ Hok _ _ Hj) as (Hsome & Hk & Hx).
    assert (j <> job_of r) as Hne by (intros ->; congruence).
    rewrite lookup_delete_ne by done. split; [done|]. split; [done|]. apply finish_other; [|done].
    intros ->. apply Hne. symmetry. apply (job_slot j id r Hr). by right.
  - intros k x Hx Hxt. destruct (decide (k = id)) as [->|Hne].
    + rewrite lookup_insert_eq in Hx. injection Hx as <-. congruence.
    + rewrite lookup_insert_ne in Hx by done. destruct (ok_slot _ _ _ _ Hok _ _ Hx Hxt) as [H|H]; [left|by right].
      apply lookup_delete_Some. split; [|done]. intros E. rewrite <-E in H. congruence.
  - exact (ok_unique _ _ _ _ Hok).
  - exact finish_phase.
Qed.

Lemma finish_active_promote next :
  active !! job_of r = Some id -> pending !! job_of r = Some next ->
  slots_ok (<[id := r']> runs) (<[job_of r := next]> (delete (job_of r) active)) (delete (job_of r) pending)
    (execs ++ [(next, EBegin)]).
Proof.
  intros Ha Hp. destruct (ok_pending _ _ _ _ Hok _ _ Hp) as (_ & Hnext & xn & Hxn & Hjn & Hqn & Hsn).
  assert (next <> id) as Hni.
  { intros ->. apply Hnext. by apply (ok_active _ _ _ _ Hok) in Ha as [? _]. }
  split.
  - exact finish_run.
  - intros j k Hj. rewrite fmap_app, elem_of_app. destruct (decide (j = job_of r)) as [->|Hne].
    + rewrite lookup_insert_eq in Hj. injection Hj as <-. split; [right; by left|].
      exists xn. rewrite lookup_insert_ne by done. auto.
    + rewrite lookup_insert_ne, lookup_delete_ne in Hj by done.
      destruct (ok_active _ _ _ _ Hok _ _ Hj) as [Hin Hx]. split; [by left|].
      apply finish_other; [|done]. intros ->. apply Hne. symmetry. apply (job_slot j id r Hr). by left.
  - intros j k [Hne Hj]%lookup_delete_Some. destruct (ok_pending _ _ _ _ Hok _ _ Hj) as (Hsome & Hk & Hx).
    rewrite lookup_insert_ne, lookup_delete_ne by done. split; [done|].
    rewrite fmap_app, not_elem_of_app. split.
    { split; [done|]. simpl. rewrite elem_of_cons, elem_of_nil. intros [->|[]].
      apply Hne. rewrite <-Hjn. apply (job_slot j next xn Hxn). by right. }
    apply finish_other; [|done]. intros ->. apply Hne. apply (job_slot j id r Hr). by right.
  - intros k x Hx Hxt. destruct (decide (k = id)) as [->|Hne].
    + rewrite lookup_insert_eq in Hx. injection Hx as <-. congruence.
    + rewrite lookup_insert_ne in Hx by done. destruct (decide (job_of x = job_of r)) as [Ej|Nj].
      * left. rewrite Ej, lookup_insert_eq. f_equal.
        destruct (ok_slot _ _ _ _ Hok _ _ Hx Hxt) as [H|H]; rewrite Ej in H; congruence.
      * destruct (ok_slot _ _ _ _ Hok _ _ Hx Hxt) as [H|H]; [left|right].
        -- by rewrite lookup_insert_ne, lookup_delete_ne.
        -- by rewrite lookup_delete_ne.
  - rewrite fmap_app. apply NoDup_app. split; [exact (ok_unique _ _ _ _ Hok)|]. split; [|apply NoDup_singleton].
    intros k Hk Hin. simpl in Hin. apply list_elem_of_singleton in Hin as ->. done.
  - intros k phase [Hin|Hin]%elem_of_app; [by apply finish_phase|].
    apply list_elem_of_singleton in Hin as [= -> ->]. simpl. intros x Hx _.
    rewrite lookup_insert_ne in Hx by done. rewrite Hxn in Hx. by injection Hx as <-.
Qed.
End Finish.

Lemma finished_terminal now result r :
  executor_result result -> terminal (set_snapshot (finished_snapshot now result (rs_snapshot r)) (cancel_run r)) = true.
Proof.
  unfold executor_result, terminal. simpl. intros [->|H]; [done|]. case_goal; [done|exact H].
Qed.

(** The runs a finished run's critical section leaves, before retention. *)
Lemma finishLocked_inv now id result s out s' :
  inv s -> executor_result result -> (forall phase, (id, phase) ∈ sv_execs s -> interruptible phase) ->
  finishLocked now id result s = (out, s') ->
  inv s' /\ (forall r, sv_runs s' !! id = Some r -> terminal r = true).
Proof.
  intros Hinv Hres Hint. unfold finishLocked. destruct (sv_runs s !! id) as [r|] eqn:Hr.
  2:{ intros [= <- <-]. split; [done|]. by rewrite Hr. }
  destruct (terminal r) eqn:Ht.
  { intros [= <- <-]. split; [done|]. rewrite Hr. by intros ? [= <-]. }
  set (snapshot := finished_snapshot now result (rs_snapshot r)). set (r' := set_snapshot snapshot (cancel_run r)).
  assert (terminal r' = true) as Ht' by (by apply finished_terminal).
  assert (Run_ID (rs_snapshot r') = id) as Hid by (apply (ok_run _ _ _ _ Hinv _ _ Hr)).
  assert (job_of r' = job_of r) as Hjob by done.
  change (Run_JobID snapshot) with (job_of r). set (j := job_of r) in *.
  set (s1 := publishLocked snapshot _). intros [= <- <-].
  assert (runs_agree (<[id := r']> (sv_runs s)) (sv_runs (trimLocked now s1))) as Hag by apply (trim_agree now s1).
  assert (forall x, sv_runs (trimLocked now s1) !! id = Some x -> terminal x = true) as Hterm.
  { intros x Hx. destruct Hag as [Hback _]. destruct (Hback _ _ Hx) as (y & Hy & Hs).
    rewrite lookup_insert_eq in Hy. injection Hy as <-. by rewrite <-(same_run_terminal _ _ Hs). }
  unfold promote.
  assert (sv_pending (trimLocked now s1) = delete_if j id (sv_pending s)) as Hp by done.
  assert (sv_active (trimLocked now s1) = delete_if j id (sv_active s)) as Ha by done.
  assert (sv_execs (trimLocked now s1) = sv_execs s) as He by done.
  unfold inv in *. rewrite Hp. unfold delete_if in *.
  destruct (ok_slot _ _ _ _ Hinv _ _ Hr Ht) as [Hslot|Hslot]; fold j in Hslot.
  - assert (sv_pending s !! j <> Some id) as Hnp.
    { intros Hpe. apply (ok_pending _ _ _ _ Hinv) in Hpe as (_ & Hni & _).
      by apply (ok_active _ _ _ _ Hinv) in Hslot as [? _]. }
    rewrite bool_decide_eq_true_2 in Ha by done. rewrite bool_decide_eq_false_2 in Hp by done.
    rewrite bool_decide_eq_false_2 by done.
    destruct (sv_pending s !! j) as [next|] eqn:Hnext.
    + split; [|exact Hterm]. cbn [sv_runs sv_active sv_pending sv_execs set_execs set_slots]. rewrite Ha, ?Hp, He.
      eapply slots_ok_agree; [|exact Hag]. apply (finish_active_promote _ _ _ _ id r r'); done.
    + split; [|exact Hterm]. rewrite Ha, ?Hp, He.
      eapply slots_ok_agree; [|exact Hag]. apply (finish_active_alone _ _ _ _ id r r'); done.
  - assert (sv_active s !! j <> Some id) as Hna.
    { intros Hac. apply (ok_active _ _ _ _ Hinv) in Hac as [Hin _].
      by apply (ok_pending _ _ _ _ Hinv) in Hslot as (_ & ? & _). }
    rewrite bool_decide_eq_false_2 in Ha by done. rewrite bool_decide_eq_true_2 in Hp by done.
    rewrite bool_decide_eq_true_2 by done. rewrite lookup_delete_eq. split; [|exact Hterm]. rewrite Ha, ?Hp, He.
    eapply slots_ok_agree; [|exact Hag]. apply (finish_pending _ _ _ _ id r r'); done.
Qed.

Lemma persistHistory_inv snapshot logs hook s : inv s -> inv (persistHistory snapshot logs hook s).
Proof. done. Qed.

Lemma finish_inv now id result s :
  inv s -> executor_result result -> (forall phase, (id, phase) ∈ sv_execs s -> interruptible phase) ->
  inv (finish now id result s) /\ (forall r, sv_runs (finish now id result s) !! id = Some r -> terminal r = true).
Proof.
  intros Hinv Hres Hint. unfold finish. destruct (finishLocked now id result s) as [out s'] eqn:E.
  apply finishLocked_inv in E; [|done..]. by destruct out as [[[? ?] ?]|].
Qed.

(** ** Start *)

Lemma new_run_queued id now limits job input : is_queued (new_run id now limits job input).
Proof. done. Qed.

(** A new queued run in the free active slot, with its goroutine. *)
Lemma slots_ok_activate runs active pending execs id r :
  slots_ok runs active pending execs -> runs !! id = None -> id ∉ execs.*1 ->
  Run_ID (rs_snapshot r) = id -> is_queued r -> rs_starting r = false -> active !! job_of r = None ->
  slots_ok (<[id := r]> runs) (<[job_of r := id]> active) pending (execs ++ [(id, EBegin)]).
Proof.
  intros [Hrun Hact Hpend Hslot Huniq Hph] Hnone Hni Hid Hq Hs Hfree.
  assert (forall k x, runs !! k = Some x -> k <> id) as Hne by (intros k x Hx ->; congruence). split.
  - intros k x Hx. destruct (decide (k = id)) as [->|Hk].
    + rewrite lookup_insert_eq in Hx. injection Hx as <-. auto.
    + rewrite lookup_insert_ne in Hx by done. eauto.
  - intros j k Hj. rewrite fmap_app, elem_of_app. destruct (decide (j = job_of r)) as [->|Hjne].
    + rewrite lookup_insert_eq in Hj. injection Hj as <-. split; [right; by left|]. exists r.
      rewrite lookup_insert_eq. auto.
    + rewrite lookup_insert_ne in Hj by done. destruct (Hact _ _ Hj) as (Hin & x & Hx & ?). split; [by left|].
      exists x. rewrite lookup_insert_ne by (by apply not_eq_sym; eauto). done.
  - intros j k Hj. destruct (Hpend _ _ Hj) as (Ha & Hk & x & Hx & ?).
    assert (j <> job_of r) as Hjne by (intros ->; rewrite Hfree in Ha; by destruct Ha).
    rewrite lookup_insert_ne by done. split; [done|]. rewrite fmap_app, not_elem_of_app. split.
    { split; [done|]. simpl. rewrite elem_of_cons, elem_of_nil. intros [->|[]]. by eapply Hne. }
    exists x. rewrite lookup_insert_ne by (by apply not_eq_sym; eauto). done.
  - intros k x Hx Hxt. destruct (decide (k = id)) as [->|Hk].
    + rewrite lookup_insert_eq in Hx. injection Hx as <-. left. apply lookup_insert_eq.
    + rewrite lookup_insert_ne in Hx by done. destruct (Hslot _ _ Hx Hxt) as [H|H]; [left|by right].
      rewrite lookup_insert_ne; [done|]. intros E. rewrite <-E in H. congruence.
  - rewrite fmap_app. apply NoDup_app. split; [done|]. split; [|apply NoDup_singleton].
    intros k Hk Hin. simpl in Hin. apply list_elem_of_singleton in Hin as ->. done.
  - intros k phase [Hin|Hin]%elem_of_app.
    + assert (k <> id) as Hk by (intros ->; apply Hni; by apply (list_elem_of_fmap_2 fst) in Hin).
      specialize (Hph _ _ Hin). destruct phase; simpl in *; by rewrite ?lookup_insert_ne by done.
    + apply list_elem_of_singleton in Hin as [= -> ->]. simpl. intros x Hx _. rewrite lookup_insert_eq in Hx.
      by injection Hx as <-.
Qed.

(** A new queued run behind an active one. *)
Lemma slots_ok_enqueue runs active pending execs id r :
  slots_ok runs active pending execs -> runs !! id = None -> id ∉ execs.*1 ->
  Run_ID (rs_snapshot r) = id -> is_queued r -> rs_starting r = false ->
  is_Some (active !! job_of r) -> pending !! job_of r = None ->
  slots_ok (<[id := r]> runs) active (<[job_of r := id]> pending) execs.
Proof.
  intros [Hrun Hact Hpend Hslot Huniq Hph] Hnone Hni Hid Hq Hs Hbusy Hfree.
  assert (forall k x, runs !! k = Some x -> k <> id) as Hne by (intros k x Hx ->; congruence). split.
  - intros k x Hx. destruct (decide (k = id)) as [->|Hk].
    + rewrite lookup_insert_eq in Hx. injection Hx as <-. auto.
    + rewrite lookup_insert_ne in Hx by done. eauto.
  - intros j k Hj. destruct (Hact _ _ Hj) as (Hin & x & Hx & ?). split; [done|].
    exists x. rewrite lookup_insert_ne by (by apply not_eq_sym; eauto). done.
  - intros j k Hj. destruct (decide (j = job_of r)) as [->|Hjne].
    + rewrite lookup_insert_eq in Hj. injection Hj as <-. split; [done|]. split; [done|]. exists r.
      rewrite lookup_insert_eq. auto.
    + rewrite lookup_insert_ne in Hj by done. destruct (Hpend _ _ Hj) as (Ha & Hk & x & Hx & ?).
      split; [done|]. split; [done|]. exists x. rewrite lookup_insert_ne by (by apply not_eq_sym; eauto). done.
  - intros k x Hx Hxt. destruct (decide (k = id)) as [->|Hk].
    + rewrite lookup_insert_eq in Hx. injection Hx as <-. right. apply lookup_insert_eq.
    + rewrite lookup_insert_ne in Hx by done. destruct (Hslot _ _ Hx Hxt) as [H|H]; [by left|right].
      rewrite lookup_insert_ne; [done|]. intros E. rewrite <-E in H. congruence.
  - done.
  - intros k phase Hin. assert (k <> id) as Hk by (intros ->; apply Hni; by apply (list_elem_of_fmap_2 fst) in Hin).
    specialize (Hph _ _ Hin). destruct phase; simpl in *; by rewrite ?lookup_insert_ne by done.
Qed.

Lemma promote_runs j s : sv_runs (promote j s) = sv_runs s.
Proof. unfold promote. by destruct (sv_pending s !! j). Qed.

Lemma finishLocked_keys now id result s out s' k :
  finishLocked now id result s = (out, s') -> sv_runs s !! k = None -> sv_runs s' !! k = None.
Proof.
  unfold finishLocked. destruct (sv_runs s !! id) as [r|] eqn:Hr; [|by intros [= <- <-]].
  destruct (terminal r); [by intros [= <- <-]|]. set (s1 := publishLocked _ _). intros [= <- <-] Hk.
  rewrite promote_runs. destruct (sv_runs (trimLocked now s1) !! k) as [x|] eqn:E; [|done].
  destruct (trim_agree now s1) as [Hback _]. destruct (Hback _ _ E) as (y & Hy & _). simpl in Hy.
  rewrite lookup_insert_ne in Hy by (intros ->; congruence). congruence.
Qed.

(** Finishing a run that waits behind an active one frees only its slot. *)
Lemma finishLocked_pending now id result s j :
  inv s -> sv_pending s !! j = Some id ->
  let s' := (finishLocked now id result s).2 in
  sv_active s' = sv_active s /\ sv_pending s' = delete j (sv_pending s) /\ sv_execs s' = sv_execs s.
Proof.
  intros Hinv Hp. destruct (ok_pending _ _ _ _ Hinv _ _ Hp) as (Ha & Hni & r & Hr & Hj & Hq & _).
  unfold finishLocked. rewrite Hr, (queued_not_terminal _ Hq).
  set (s1 := publishLocked _ _). cbn [snd]. change (Run_JobID (finished_snapshot now result (rs_snapshot r))) with (job_of r).
  rewrite Hj. unfold promote.
  assert (sv_pending (trimLocked now s1) = delete_if (job_of r) id (sv_pending s)) as -> by done.
  assert (sv_active s !! j <> Some id) as Hna.
  { intros Hac. by apply (ok_active _ _ _ _ Hinv) in Hac as [Hin _]. }
  unfold delete_if. rewrite Hj, bool_decide_eq_true_2, lookup_delete_eq by done.
  change (sv_active (trimLocked now s1)) with (delete_if (job_of r) id (sv_active s)).
  change (sv_pending (trimLocked now s1)) with (delete_if (job_of r) id (sv_pending s)).
  unfold delete_if. rewrite Hj, bool_decide_eq_false_2, bool_decide_eq_true_2 by done. done.
Qed.

Lemma overlap_terminal : executor_result overlap_result.
Proof. by right. Qed.

Lemma reserve_inv id now job input s :
  inv s -> fresh_id id s -> inv (reserve id now job input s).2.
Proof.
  intros Hinv (Hfresh & Hni & _). unfold reserve. destruct (sv_active s !! Job_ID job) as [act|] eqn:Ha.
  - destruct (negb _) eqn:E; cbn [snd].
    + apply persistHistory_inv. unfold inv. cbn. by apply slots_ok_add_terminal.
    + destruct (sv_pending s !! Job_ID job) as [previous|] eqn:Hp.
      * destruct (finishLocked now previous overlap_result s) as [out s1] eqn:Ef.
        pose proof (finishLocked_pending now previous overlap_result s _ Hinv Hp) as Hs. rewrite Ef in Hs. cbn [snd] in Hs.
        destruct Hs as (Hsa & Hsp & Hse). pose proof (finishLocked_keys _ _ _ _ _ _ id Ef Hfresh) as Hkeep.
        apply finishLocked_inv in Ef as [Hinv1 _]; [|done|apply overlap_terminal|].
        2:{ intros phase Hin. destruct (ok_pending _ _ _ _ Hinv _ _ Hp) as (_ & Hn & _). exfalso. apply Hn.
            by apply (list_elem_of_fmap_2 fst) in Hin. }
        assert (slots_ok (<[id := new_run id now (sv_limits s) job input]> (sv_runs s1)) (sv_active s1)
          (<[Job_ID job := id]> (sv_pending s1)) (sv_execs s1)) as Hgoal.
        { apply (slots_ok_enqueue _ _ _ _ id (new_run id now (sv_limits s) job input)); try done.
          - by rewrite Hse.
          - change (job_of _) with (Job_ID job). by rewrite Hsa, Ha.
          - change (job_of _) with (Job_ID job). by rewrite Hsp, lookup_delete_eq. }
        by destruct out as [[[? ?] ?]|].
      * unfold inv. cbn. by apply (slots_ok_enqueue _ _ _ _ id (new_run id now (sv_limits s) job input)); try done;
        change (job_of _) with (Job_ID job); rewrite ?Ha.
  - unfold inv. cbn. by apply (slots_ok_activate _ _ _ _ id (new_run id now (sv_limits s) job input)).
Qed.

Lemma Start_inv found newID now input s :
  inv s -> (forall id, newID = Ok id -> fresh_id id s) -> inv (Start found newID now input s).2.
Proof.
  intros Hinv Hfresh. unfold Start. destruct found as [job|]; [|done]. case_goal; [done|].
  destruct newID as [id|e]; [|done]. pose proof (reserve_inv id now job input s Hinv (Hfresh _ eq_refl)) as H.
  by destruct (reserve id now job input s) as [[snapshot err] s'].
Qed.

Lemma unique_phase s id phase phase' :
  inv s -> (id, phase) ∈ sv_execs s -> (id, phase') ∈ sv_execs s -> phase = phase'.
Proof.
  intros Hinv (i & Hi)%list_elem_of_lookup (j & Hj)%list_elem_of_lookup.
  pose proof (ok_unique _ _ _ _ Hinv) as Hnd. assert (i = j) as ->; [|congruence].
  eapply (NoDup_lookup _ i j id Hnd); by rewrite list_lookup_fmap, ?Hi, ?Hj.
Qed.

Lemma Stop_inv now id s : inv s -> inv (Stop now id s).2.
Proof.
  intros Hinv. unfold Stop. destruct (sv_runs s !! id) as [r|] eqn:Hr; [|done].
  destruct (string_eqb _ RunQueued) eqn:Eq; [|by case_goal]. str_eqb. destruct (rs_starting r) eqn:Es.
  - cbn [snd]. unfold inv. cbn. eapply slots_ok_agree; [exact Hinv|]. split.
    + intros k x Hx. destruct (decide (k = id)) as [->|Hne].
      * rewrite lookup_insert_eq in Hx. injection Hx as <-. exists r. split; [done|]. split_and!; done.
      * rewrite lookup_insert_ne in Hx by done. eauto.
    + intros k x Hx _. destruct (decide (k = id)) as [->|Hne].
      * rewrite Hr in Hx. injection Hx as <-. rewrite lookup_insert_eq. eexists. split; [done|]. split_and!; done.
      * rewrite lookup_insert_ne by done. eauto.
  - destruct (finishLocked now id _ s) as [out s1] eqn:Ef. apply finishLocked_inv in Ef as [H1 _]; [|done|by right|].
    + by destruct out as [[[? ?] ?]|].
    + intros phase Hin. pose proof (ok_phase _ _ _ _ Hinv _ _ Hin) as Hph. destruct phase; simpl in *; try done.
      1-2: destruct Hph as (x & Hx & _ & ?); congruence.
      destruct Hph as (x & Hx & Hrun & _). rewrite Hr in Hx. injection Hx as <-. unfold is_running in Hrun. by rewrite Eq in Hrun.
Qed.

(** ** The goroutine steps *)

Lemma agree_insert runs id r r' : runs !! id = Some r -> same_run r r' -> runs_agree runs (<[id := r']> runs).
Proof.
  intros Hr Hs. split.
  - intros k x Hx. destruct (decide (k = id)) as [->|Hne].
    + rewrite lookup_insert_eq in Hx. injection Hx as <-. eauto.
    + rewrite lookup_insert_ne in Hx by done. eauto.
  - intros k x Hx _. destruct (decide (k = id)) as [->|Hne].
    + rewrite Hr in Hx. injection Hx as <-. rewrite lookup_insert_eq. eauto.
    + rewrite lookup_insert_ne by done. eauto.
Qed.

Lemma publishLog_core id line s :
  sv_runs (publishLog id line s) = sv_runs s /\ sv_active (publishLog id line s) = sv_active s /\
  sv_pending (publishLog id line s) = sv_pending s /\ sv_execs (publishLog id line s) = sv_execs s.
Proof. unfold publishLog. destruct (sv_runs s !! id) as [r|]; [|done]. by case_goal. Qed.

Lemma consume_inv now id line s : inv s -> inv (consume now id line s).
Proof.
  intros Hinv. unfold consume, inv. set (s1 := set_runs _ s).
  destruct (publishLog_core id line s1) as (-> & -> & -> & ->). cbn. eapply slots_ok_agree; [exact Hinv|]. destruct (sv_runs s !! id) as [r|] eqn:Hr.
  - rewrite (alter_alt_Some _ _ _ r Hr). by eapply agree_insert.
  - rewrite alter_id' by done. split; eauto.
Qed.

Lemma consume_execs now id line s : sv_execs (consume now id line s) = sv_execs s.
Proof. unfold consume. set (s1 := set_runs _ s). by destruct (publishLog_core id line s1) as (_ & _ & _ & ->). Qed.

(** A goroutine changes its run and moves on. *)
Lemma slots_ok_step runs active pending execs i id phase phase' r r' :
  slots_ok runs active pending execs -> execs !! i = Some (id, phase) -> runs !! id = Some r -> terminal r = false ->
  Run_ID (rs_snapshot r') = Run_ID (rs_snapshot r) -> job_of r' = job_of r -> is_queued r' \/ is_running r' ->
  phase_ok (<[id := r']> runs) id phase' ->
  slots_ok (<[id := r']> runs) active pending (<[i := (id, phase')]> execs).
Proof.
  intros Hok Hi Hr Ht Hid Hjob Hst Hph. set (mid := EFinish overlap_result).
  assert (i < length execs)%nat as Hlt by (by eapply lookup_lt_Some).
  assert (slots_ok runs active pending (<[i := (id, mid)]> execs)) as Hmid.
  { eapply slots_ok_move; [done..|]. by right. }
  rewrite <-(list_insert_insert_eq execs i (id, phase') (id, mid)).
  apply (slots_ok_move _ _ _ _ _ _ mid); [|by apply list_lookup_insert_eq|done].
  assert (id ∈ (<[i := (id, mid)]> execs).*1) as Hin.
  { apply (list_elem_of_fmap_2' fst _ (id, mid)); [|done]. apply list_elem_of_insert. done. }
  apply (slots_ok_update _ _ _ _ _ r); try done.
  - rewrite Hid. by apply (ok_run _ _ _ _ Hok).
  - intros Hp. by apply (ok_pending _ _ _ _ Hmid) in Hp as (_ & ? & _).
  - intros p Hp. assert (p = mid) as ->; [|by right].
    pose proof (ok_unique _ _ _ _ Hmid) as Hnd. apply list_elem_of_lookup in Hp as (j & Hj).
    assert (j = i) as ->; [|rewrite list_lookup_insert_eq in Hj by done; congruence].
    eapply (NoDup_lookup _ j i id Hnd); [by rewrite list_lookup_fmap, Hj|].
    by rewrite list_lookup_fmap, list_lookup_insert_eq.
Qed.

Lemma finish_execs now id result s : sv_execs s `prefix_of` sv_execs (finish now id result s).
Proof.
  unfold finish, finishLocked. destruct (sv_runs s !! id) as [r|]; [|done]. destruct (terminal r); [done|].
  unfold promote. case_match; [by eexists|done].
Qed.

Lemma early_not_queued s id :
  (forall r, sv_runs s !! id = Some r -> terminal r = false -> is_queued r /\ rs_starting r = false) ->
  queued id s = false -> forall r, sv_runs s !! id = Some r -> terminal r = true.
Proof.
  intros Hph Hq r Hr. destruct (terminal r) eqn:Ht; [done|]. destruct (Hph _ Hr Ht) as [Hqr _].
  unfold queued in Hq. rewrite Hr in Hq. unfold is_queued in Hqr. by rewrite Hqr in Hq.
Qed.

Lemma exec_inv s i id phase next s' :
  inv s -> sv_execs s !! i = Some (id, phase) -> exec_step id phase s next s' -> inv (update_exec i id next s').
Proof.
  intros Hinv Hi Hstep. pose proof (ok_phase _ _ _ _ Hinv _ _ (list_elem_of_lookup_2 _ _ _ Hi)) as Hph.
  assert (forall phase', phase_ok (sv_runs s) id phase' -> inv (update_exec i id (Some phase') s)) as Hmove.
  { intros phase' H. unfold inv. cbn. by eapply slots_ok_move. }
  assert ((forall r, sv_runs s !! id = Some r -> terminal r = true) -> inv (update_exec i id None s)) as Hend.
  { intros H. unfold inv. cbn. by eapply slots_ok_end. }
  destruct Hstep as [s r Hr|s Hr|s job request r|s r|s plan r|s r|s plan r Hr Hq|s plan Hq|s plan r|s plan now|s stop r Hres|s r now|s phase now line Hc];
    simpl in Hph; try (by apply Hmove).
  - apply Hend. congruence.
  - destruct (queued id s) eqn:Eq; [apply Hmove; by destruct r|apply Hend; by apply early_not_queued].
  - destruct (queued id s) eqn:Eq; [apply Hmove|apply Hend; by apply early_not_queued].
    destruct r as [|e]; [done|]. simpl. by right.
  - destruct (Hph _ Hr (queued_not_terminal _ Hq)) as [_ Hs]. unfold inv. cbn.
    apply (slots_ok_step _ _ _ _ _ _ (EReserve plan) _ r); auto. exists (set_starting r). by rewrite lookup_insert_eq.
  - apply Hend. by apply early_not_queued.
  - destruct r; [by apply Hmove|]. apply Hmove. by right.
  - destruct Hph as (r & Hr & Hq & Hs). unfold started. rewrite Hr. unfold is_queued in Hq. rewrite Hq. unfold inv. cbn.
    apply (slots_ok_step _ _ _ _ _ _ (EStarted plan) _ r); auto; [by right|]. eexists. by rewrite lookup_insert_eq.
  - destruct (finish_inv now id r s Hinv Hph) as [Hf Ht].
    { intros phase Hin. by rewrite (unique_phase s id phase (EFinish r) Hinv Hin (list_elem_of_lookup_2 _ _ _ Hi)). }
    unfold inv in *. cbn. eapply slots_ok_end; [exact Hf| |exact Ht].
    destruct (finish_execs now id r s) as [l ->]. by apply lookup_app_l_Some.
  - unfold inv. pose proof (consume_inv now id line s Hinv) as Hci. cbn. rewrite consume_execs.
    rewrite list_insert_id by done. unfold inv in Hci. by rewrite consume_execs in Hci.
Qed.

(** ** Every reachable state *)

Lemma record_error_inv snapshot err s : inv s -> inv (record_error snapshot err s).
Proof.
  intros Hinv. unfold record_error. destruct err as [e|]; [|done]. destruct (sv_runs s !! Run_ID snapshot) as [r|] eqn:Hr; [|done].
  unfold inv in *. cbn. destruct (ok_run _ _ _ _ Hinv _ _ Hr) as [Hid _]. rewrite Hid.
  eapply slots_ok_agree; [exact Hinv|]. by eapply agree_insert.
Qed.

Lemma step_inv s s' : inv s -> step s s' -> inv s'.
Proof.
  intros Hinv Hstep.
  destruct Hstep as [s found newID now input Hfresh|s now id|s now|s after|s id|s id|s i id phase next s' Hi Hx|s i p err Hi Hw Hs|s i p err Hi Hw].
  - by apply Start_inv.
  - by apply Stop_inv.
  - unfold prune, inv. eapply slots_ok_agree; [exact Hinv|]. apply trim_agree.
  - done.
  - done.
  - unfold receive. repeat case_match; done.
  - by eapply exec_inv.
  - done.
  - unfold persist_end. exact (record_error_inv (persist_snapshot p) err s Hinv).
Qed.

Lemma NewRunService_inv limits : inv (NewRunService limits).
Proof.
  assert (forall l, inv (MkRunService l ∅ ∅ ∅ 0 [] ∅ 0 1 0 [] [] [] [])) as H.
  { intros l. split; cbn; try (intros ? ? H; by rewrite lookup_empty in H).
    - apply NoDup_nil_2.
    - intros id phase H. by apply elem_of_nil in H. }
  apply H.
Qed.

Lemma reachable_inv limits s : reachable limits s -> inv s.
Proof. induction 1; [apply NewRunService_inv|by eapply step_inv]. Qed.

(** ** The history *)

(** The record of finished runs: what was written, then what waits for its turn. *)
Definition waits (p : persister) : bool := match persist_at p with PWait => true | PRecord _ => false end.
Definition waiting (s : RunService) : list persister := filter (fun p => waits p = true) (sv_persisters s).
Definition records (s : RunService) : list (Z * RunSnapshot) :=
  sv_history s ++ map (fun p => (persist_sequence p, persist_snapshot p)) (waiting s).
Definition recorded (s : RunService) : list string := map (fun h => Run_ID h.2) (records s).

Record history_ok (s : RunService) : Prop := {
  hi_sequence : (records s).*1 = seqZ 1 (sv_historySequence s);
  hi_count : (0 <= sv_historySequence s)%Z;
  hi_turn : exists recording, (length recording <= 1)%nat /\ sv_persisters s = recording ++ waiting s /\
    Forall (fun p => exists err, persist_at p = PRecord err) recording /\
    (sv_historyNext s + Z.of_nat (length recording) = Z.of_nat (length (sv_history s)) + 1)%Z;
  hi_once : NoDup (recorded s);
  hi_terminal : Forall (fun h => isTerminalRunStatus (Run_Status h.2) = true) (records s);
  hi_run : forall id r, sv_runs s !! id = Some r -> (terminal r = true <-> id ∈ recorded s)
}.

Lemma history_agree s s' :
  history_ok s ->
  sv_historyNext s' = sv_historyNext s -> sv_historySequence s' = sv_historySequence s ->
  sv_persisters s' = sv_persisters s -> sv_history s' = sv_history s ->
  (forall id r', sv_runs s' !! id = Some r' ->
     (exists r, sv_runs s !! id = Some r /\ terminal r = terminal r') \/ terminal r' = false /\ id ∉ recorded s) ->
  history_ok s'.
Proof.
  intros [H1 H2 H3 H4 H5 H6] En Es Ep Eh Hback.
  assert (waiting s' = waiting s) as Ew by (unfold waiting; by rewrite Ep).
  assert (records s' = records s) as Er by (unfold records; by rewrite Eh, Ew).
  assert (recorded s' = recorded s) as Ei by (unfold recorded; by rewrite Er).
  split; rewrite ?Er, ?Ei, ?Es, ?En, ?Ep, ?Ew, ?Eh; try done.
  intros id r' Hr'. destruct (Hback _ _ Hr') as [(r & Hr & <-)|[Ht Hni]]; [eauto|]. rewrite Ht. naive_solver.
Qed.

Lemma agree_terminal runs runs' : runs_agree runs runs' ->
  forall id r', runs' !! id = Some r' -> exists r, runs !! id = Some r /\ terminal r = terminal r'.
Proof.
  intros [Hback _] id r' Hr'. destruct (Hback _ _ Hr') as (r & Hr & Hs). exists r. split; [done|].
  by apply same_run_terminal.
Qed.

Lemma records_persist snapshot logs hook s :
  records (persistHistory snapshot logs hook s) = records s ++ [((sv_historySequence s + 1)%Z, snapshot)].
Proof.
  unfold records, waiting. cbn. rewrite filter_app, filter_cons_True, filter_nil by done.
  by rewrite map_app, app_assoc.
Qed.

(** A run that just became terminal is recorded. *)
Lemma history_record snapshot logs hook s0 s :
  history_ok s0 ->
  sv_historyNext s = sv_historyNext s0 -> sv_historySequence s = sv_historySequence s0 ->
  sv_persisters s = sv_persisters s0 -> sv_history s = sv_history s0 ->
  isTerminalRunStatus (Run_Status snapshot) = true -> Run_ID snapshot ∉ recorded s0 ->
  (forall id r', sv_runs s !! id = Some r' ->
     if bool_decide (id = Run_ID snapshot) then terminal r' = true
     else exists r, sv_runs s0 !! id = Some r /\ terminal r = terminal r') ->
  history_ok (persistHistory snapshot logs hook s).
Proof.
  intros [H1 H2 H3 H4 H5 H6] En Es Ep Eh Ht Hnew Hback.
  assert (waiting s = waiting s0) as Ew by (unfold waiting; by rewrite Ep).
  assert (records s = records s0) as Er by (unfold records; by rewrite Eh, Ew).
  assert (recorded (persistHistory snapshot logs hook s) = recorded s0 ++ [Run_ID snapshot]) as Ei.
  { unfold recorded. by rewrite records_persist, map_app, Er. }
  split; rewrite ?Ei, ?records_persist, ?Er; cbn [sv_historySequence sv_historyNext sv_history sv_runs persistHistory set_history].
  - rewrite Es, fmap_app, H1, seqZ_app by lia. f_equal. unfold seqZ. simpl. f_equal. lia.
  - lia.
  - destruct H3 as (rec & Hl & Hp & Hf & Hn). exists rec. rewrite En, Eh. split; [done|]. split; [|done].
    unfold waiting in *. cbn. rewrite filter_app, filter_cons_True, filter_nil by done. rewrite app_assoc. f_equal. by rewrite Ep.
  - apply NoDup_app. split; [done|]. split; [|apply NoDup_singleton].
    intros x Hx Hin%list_elem_of_singleton. by subst x.
  - apply Forall_app. split; [done|]. by constructor.
  - intros id r' Hr'. specialize (Hback _ _ Hr'). rewrite elem_of_app, list_elem_of_singleton.
    case_bool_decide as E; [subst; tauto|]. destruct Hback as (r & Hr & <-). rewrite (H6 _ _ Hr). tauto.
Qed.

Lemma history_finish now id result s snapshot logs job s1 hook :
  history_ok s -> inv s -> executor_result result ->
  finishLocked now id result s = (Some (snapshot, logs, job), s1) -> history_ok (persistHistory snapshot logs hook s1).
Proof.
  intros Hok Hinv Hres. unfold finishLocked. destruct (sv_runs s !! id) as [r|] eqn:Hr; [|done].
  destruct (terminal r) eqn:Ht; [done|]. set (snap := finished_snapshot now result (rs_snapshot r)).
  set (s2 := publishLocked _ _). intros [= <- <- <- <-].
  assert (Run_ID snap = id) as Hid by (by apply (ok_run _ _ _ _ Hinv)).
  assert (forall j, promote j (trimLocked now s2) = set_runs (fun _ => sv_runs (trimLocked now s2)) (promote j s2)) as Hpr.
  { intros j. unfold promote. change (sv_pending (trimLocked now s2)) with (sv_pending s2). by destruct (sv_pending s2 !! j). }
  apply (history_record _ _ _ s); try done.
  - rewrite Hpr. unfold promote. by case_match.
  - rewrite Hpr. unfold promote. by case_match.
  - rewrite Hpr. unfold promote. by case_match.
  - rewrite Hpr. unfold promote. by case_match.
  - exact (finished_terminal now result r Hres).
  - rewrite Hid. intros Hin. apply (hi_run _ Hok _ _ Hr) in Hin. congruence.
  - intros k x. rewrite promote_runs. intros Hx. destruct (agree_terminal _ _ (trim_agree now s2) _ _ Hx) as (y & Hy & <-).
    unfold s2 in Hy. simpl in Hy. rewrite Hid. destruct (decide (k = id)) as [->|Hne].
    + rewrite bool_decide_eq_true_2 by done. rewrite lookup_insert_eq in Hy. injection Hy as <-.
      exact (finished_terminal now result r Hres).
    + rewrite bool_decide_eq_false_2 by done. rewrite lookup_insert_ne in Hy by done. eauto.
Qed.

Lemma finishLocked_None now id result s s1 : finishLocked now id result s = (None, s1) -> s1 = s.
Proof.
  unfold finishLocked. destruct (sv_runs s !! id) as [r|]; [|by intros [= <-]]. destruct (terminal r); by intros [= <-].
Qed.

Lemma finishLocked_id now id result s snapshot logs job s1 :
  inv s -> finishLocked now id result s = (Some (snapshot, logs, job), s1) -> Run_ID snapshot = id /\ recorded s1 = recorded s.
Proof.
  intros Hinv. unfold finishLocked. destruct (sv_runs s !! id) as [r|] eqn:Hr; [|done]. destruct (terminal r); [done|].
  intros [= <- <- <- <-]. split; [by apply (ok_run _ _ _ _ Hinv)|]. unfold promote. by case_match.
Qed.

Lemma recorded_persist snapshot logs hook s :
  recorded (persistHistory snapshot logs hook s) = recorded s ++ [Run_ID snapshot].
Proof. unfold recorded. by rewrite records_persist, map_app. Qed.

Lemma fresh_unrecorded id s : fresh_id id s -> id ∉ recorded s.
Proof.
  intros (_ & _ & Hp & Hh). unfold recorded, records. rewrite map_app, not_elem_of_app. split; [done|].
  rewrite map_map. cbn. intros (p & -> & Hin)%list_elem_of_fmap. apply Hp. apply list_elem_of_filter in Hin as [_ Hin].
  apply (list_elem_of_fmap_2 (fun p => Run_ID (persist_snapshot p))) in Hin. done.
Qed.

Lemma reserve_history id now job input s :
  history_ok s -> inv s -> fresh_id id s -> history_ok (reserve id now job input s).2.
Proof.
  intros Hok Hinv Hfresh. pose proof (fresh_unrecorded _ _ Hfresh) as Hnew. destruct Hfresh as (Hnone & _).
  assert (forall s0 s', history_ok s0 -> id ∉ recorded s0 ->
    sv_historyNext s' = sv_historyNext s0 -> sv_historySequence s' = sv_historySequence s0 ->
    sv_persisters s' = sv_persisters s0 -> sv_history s' = sv_history s0 ->
    sv_runs s' = <[id := new_run id now (sv_limits s) job input]> (sv_runs s0) -> history_ok s') as Hadd.
  { intros s0 s' H0 Hn E1 E2 E3 E4 E5. apply (history_agree s0); [done..|]. rewrite E5. intros k r' Hr'.
    destruct (decide (k = id)) as [->|Hne].
    - rewrite lookup_insert_eq in Hr'. injection Hr' as <-. auto.
    - rewrite lookup_insert_ne in Hr' by done. eauto. }
  unfold reserve. destruct (sv_active s !! Job_ID job) as [act|].
  - destruct (negb _); cbn [snd].
    + apply (history_record _ _ _ s); try done. cbn. intros k r' Hr'. case_bool_decide as E.
      * subst k. rewrite lookup_insert_eq in Hr'. by injection Hr' as <-.
      * rewrite lookup_insert_ne in Hr' by done. eauto.
    + destruct (sv_pending s !! Job_ID job) as [previous|] eqn:Hp; [|by apply (Hadd s)].
      destruct (finishLocked now previous overlap_result s) as [[[[snapshot logs] j]|] s1] eqn:Ef.
      * pose proof (history_finish _ _ _ _ _ _ _ _ None Hok Hinv overlap_terminal Ef) as H1.
        apply finishLocked_id in Ef as [Hid Hrec]; [|done].
        apply (Hadd (persistHistory snapshot logs None s1)); try done.
        rewrite recorded_persist, Hrec, Hid, not_elem_of_app, list_elem_of_singleton. split; [done|]. intros ->.
        apply (ok_pending _ _ _ _ Hinv) in Hp as (_ & _ & r & Hr & _). congruence.
      * apply finishLocked_None in Ef as ->. by apply (Hadd s).
  - by apply (Hadd s).
Qed.

Lemma Stop_history now id s : history_ok s -> inv s -> history_ok (Stop now id s).2.
Proof.
  intros Hok Hinv. unfold Stop. destruct (sv_runs s !! id) as [r|] eqn:Hr; [|done].
  destruct (string_eqb _ RunQueued) eqn:Eq; [|by case_goal]. str_eqb. destruct (rs_starting r) eqn:Es.
  - cbn [snd]. apply (history_agree s); try done. cbn. intros k x Hx. left.
    eapply agree_terminal; [|exact Hx]. by eapply agree_insert.
  - destruct (finishLocked now id _ s) as [[[[snapshot logs] j]|] s1] eqn:Ef; cbn [snd].
    + eapply history_finish; [done|done| |exact Ef]. by right.
    + by apply finishLocked_None in Ef as ->.
Qed.

Lemma finish_history now id result s :
  history_ok s -> inv s -> executor_result result -> history_ok (finish now id result s).
Proof.
  intros Hok Hinv Hres. unfold finish. destruct (finishLocked now id _ s) as [[[[snapshot logs] j]|] s1] eqn:Ef.
  - by eapply history_finish.
  - by apply finishLocked_None in Ef as ->.
Qed.

Lemma publishLog_history id line s :
  sv_historyNext (publishLog id line s) = sv_historyNext s /\ sv_historySequence (publishLog id line s) = sv_historySequence s /\
  sv_persisters (publishLog id line s) = sv_persisters s /\ sv_history (publishLog id line s) = sv_history s.
Proof. unfold publishLog. destruct (sv_runs s !! id) as [r|]; [|done]. by case_goal. Qed.

Lemma consume_agree now id line s : runs_agree (sv_runs s) (sv_runs (consume now id line s)).
Proof.
  unfold consume. set (s1 := set_runs _ s). destruct (publishLog_core id line s1) as (-> & _). cbn.
  destruct (sv_runs s !! id) as [r|] eqn:Hr.
  - rewrite (alter_alt_Some _ _ _ r Hr). by eapply agree_insert.
  - rewrite alter_id' by done. split; eauto.
Qed.

Lemma exec_history s i id phase next s' :
  history_ok s -> inv s -> sv_execs s !! i = Some (id, phase) -> exec_step id phase s next s' ->
  history_ok (update_exec i id next s').
Proof.
  intros Hok Hinv Hi Hstep. pose proof (ok_phase _ _ _ _ Hinv _ _ (list_elem_of_lookup_2 _ _ _ Hi)) as Hph.
  assert (forall s1, history_ok s1 -> history_ok (update_exec i id next s1)) as Hmove.
  { intros s1 H. apply (history_agree s1); [done..|]. eauto. }
  apply Hmove. clear Hmove.
  destruct Hstep as [s r Hr|s Hr|s job request r|s r|s plan r|s r|s plan r Hr Hq|s plan Hq|s plan r|s plan now|s stop r Hres|s r now|s phase now line Hc];
    try done; simpl in Hph.
  - apply (history_agree s); [done..|]. cbn. intros k x Hx. left. destruct (decide (k = id)) as [->|Hne].
    + rewrite lookup_insert_eq in Hx. injection Hx as <-. eauto.
    + rewrite lookup_insert_ne in Hx by done. eauto.
  - destruct Hph as (r & Hr & Hq & _). unfold started. rewrite Hr. unfold is_queued in Hq. rewrite Hq, string_eqb_refl. cbn [snd].
    apply (history_agree s); [done..|]. cbn. intros k x Hx. left. destruct (decide (k = id)) as [->|Hne].
    + rewrite lookup_insert_eq in Hx. injection Hx as <-. exists r. split; [done|]. by rewrite queued_not_terminal.
    + rewrite lookup_insert_ne in Hx by done. eauto.
  - by apply finish_history.
  - pose proof (consume_agree now id line s) as Hag. unfold consume in *. set (s1 := set_runs _ s) in *.
    destruct (publishLog_history id line s1) as (E1 & E2 & E3 & E4).
    apply (history_agree s); [done..|]. intros k x Hx. left. by eapply agree_terminal.
Qed.

(** The first in the queue of records, if it is its turn, is the one [step_append] takes. *)
Lemma append_turn s i p :
  history_ok s -> sv_persisters s !! i = Some p -> persist_at p = PWait -> persist_sequence p = sv_historyNext s ->
  i = 0%nat /\ exists rest, sv_persisters s = p :: rest /\ waiting s = p :: rest.
Proof.
  intros Hok Hi Hw Hseq. destruct (hi_turn _ Hok) as (rec & Hl & Hp & Hf & Hn).
  assert (length rec <= i)%nat as Hge.
  { destruct (decide (length rec <= i)%nat) as [|Hlt]; [done|]. rewrite Hp, lookup_app_l in Hi by lia.
    rewrite Forall_lookup in Hf. destruct (Hf _ _ Hi) as [err He]. congruence. }
  rewrite Hp, lookup_app_r in Hi by lia.
  pose proof (hi_sequence _ Hok) as Hs. unfold records in Hs. rewrite fmap_app in Hs.
  assert ((map (fun p => (persist_sequence p, persist_snapshot p)) (waiting s)).*1 !! (i - length rec)%nat
    = Some (persist_sequence p)) as Hpi.
  { rewrite list_lookup_fmap, list_lookup_fmap, Hi. done. }
  assert (seqZ 1 (sv_historySequence s) !! (length (sv_history s) + (i - length rec))%nat = Some (persist_sequence p)) as Hz.
  { rewrite <-Hs, lookup_app_r; rewrite length_fmap; [|lia]. by replace (length (sv_history s) + (i - length rec) - length (sv_history s))%nat with (i - length rec)%nat by lia. }
  apply lookup_seqZ in Hz as [Hz _]. assert (rec = [] /\ i = 0%nat) as [-> ->].
  { destruct rec as [|x [|y l]]; simpl in *; [split; [done|lia]|exfalso; lia|lia]. }
  split; [done|]. simpl in *. rewrite Hp. destruct (waiting s) as [|q rest] eqn:E; [done|]. injection Hi as ->. eauto.
Qed.

Lemma append_history s i p err :
  history_ok s -> sv_persisters s !! i = Some p -> persist_at p = PWait -> persist_sequence p = sv_historyNext s ->
  history_ok (persist_append i p err s) /\ records (persist_append i p err s) = records s.
Proof.
  intros Hok Hi Hw Hseq. destruct (append_turn s i p Hok Hi Hw Hseq) as (-> & rest & Hp & Hwait).
  assert (waiting (persist_append 0 p err s) = rest) as Hwait'.
  { unfold waiting in *. cbn. rewrite Hp in *. cbn [insert list_insert].
    rewrite filter_cons_False by done. rewrite filter_cons_True in Hwait by (unfold waits; by rewrite Hw). by injection Hwait. }
  assert (records (persist_append 0 p err s) = records s) as Hrec.
  { unfold records. rewrite Hwait', Hwait. cbn. by rewrite <-app_assoc. }
  destruct Hok as [H1 H2 (rec & Hl & Hpr & Hf & Hn) H4 H5 H6]. split; [|done].
  split; unfold recorded; rewrite ?Hrec; try done.
  rewrite Hwait'. exists [MkPersister (persist_sequence p) (persist_snapshot p) (persist_logs p) (persist_hook p) (PRecord err)].
  assert (rec = []) as ->.
  { rewrite Hpr, Hwait in Hp. apply (f_equal length) in Hp. rewrite length_app in Hp. simpl in Hp. destruct rec; [done|simpl in Hp; lia]. }
  split; [simpl; lia|]. split; [cbn; by rewrite Hp|]. split; [by repeat econstructor|].
  cbn. rewrite length_app. simpl in *. lia.
Qed.

Lemma end_turn s i p err :
  history_ok s -> sv_persisters s !! i = Some p -> persist_at p = PRecord err ->
  i = 0%nat /\ exists rest, sv_persisters s = p :: rest /\ waiting s = rest /\
    (sv_historyNext s = Z.of_nat (length (sv_history s)))%Z.
Proof.
  intros Hok Hi Hw. destruct (hi_turn _ Hok) as (rec & Hl & Hp & Hf & Hn).
  assert (i < length rec)%nat as Hlt.
  { destruct (decide (i < length rec)%nat) as [|Hge]; [done|]. rewrite Hp, lookup_app_r in Hi by lia.
    apply list_elem_of_lookup_2 in Hi. unfold waiting in Hi. apply list_elem_of_filter in Hi as [Hwt _].
    unfold waits in Hwt. by rewrite Hw in Hwt. }
  destruct rec as [|q [|? ?]]; simpl in Hl, Hlt; try lia. assert (i = 0%nat) as -> by lia. split; [done|].
  rewrite Hp in Hi. injection Hi as ->. exists (waiting s). split_and!; [done..|]. simpl in Hn. lia.
Qed.

Lemma record_error_history snapshot err s : inv s ->
  let s' := record_error snapshot err s in
  sv_historyNext s' = sv_historyNext s /\ sv_historySequence s' = sv_historySequence s /\
  sv_persisters s' = sv_persisters s /\ sv_history s' = sv_history s /\ runs_agree (sv_runs s) (sv_runs s').
Proof.
  intros Hinv. unfold record_error. assert (runs_agree (sv_runs s) (sv_runs s)) as Hsame by (split; eauto).
  destruct err as [e|]; [|done]. destruct (sv_runs s !! Run_ID snapshot) as [r|] eqn:Hr; [|done].
  split_and!; try done. cbn. destruct (ok_run _ _ _ _ Hinv _ _ Hr) as [Hid _]. rewrite Hid. by eapply agree_insert.
Qed.

Lemma end_history s i p err :
  history_ok s -> inv s -> sv_persisters s !! i = Some p -> persist_at p = PRecord err ->
  history_ok (persist_end i p err s) /\ records (persist_end i p err s) = records s.
Proof.
  intros Hok Hinv Hi Hw. destruct (end_turn s i p err Hok Hi Hw) as (-> & rest & Hp & Hwait & Hnext).
  destruct (record_error_history (persist_snapshot p) err s Hinv) as (E1 & E2 & E3 & E4 & Hag).
  assert (waiting (persist_end 0 p err s) = waiting s) as Hwait'.
  { unfold waiting in *. cbn. rewrite E3, Hp in *. cbn [delete list_delete].
    rewrite filter_cons_False in *; [done|unfold waits; by rewrite Hw..]. }
  assert (records (persist_end 0 p err s) = records s) as Hrec.
  { unfold records. rewrite Hwait'. cbn. by rewrite E4. }
  split; [|done]. destruct Hok as [H1 H2 _ H4 H5 H6]. split; unfold recorded; rewrite ?Hrec; try done;
    try (cbn; rewrite E2; done).
  - exists []. rewrite Hwait', Hwait. cbn. rewrite E1, E3, E4, Hp. split_and!; [lia|done|constructor|lia].
  - intros id r' Hr'. destruct (agree_terminal _ _ Hag _ _ Hr') as (r & Hr & <-). by apply H6.
Qed.

Lemma step_history s s' : inv s -> history_ok s -> step s s' -> history_ok s'.
Proof.
  intros Hinv Hok Hstep.
  destruct Hstep as [s found newID now input Hfresh|s now id|s now|s after|s id|s id|s i id phase next s' Hi Hx|s i p err Hi Hw Hs|s i p err Hi Hw].
  - unfold Start. destruct found as [job|]; [|done]. case_goal; [done|]. destruct newID as [id|e]; [|done].
    pose proof (reserve_history id now job input s Hok Hinv (Hfresh _ eq_refl)) as H.
    by destruct (reserve id now job input s) as [[snapshot err] s'].
  - by apply Stop_history.
  - apply (history_agree s); [done..|]. intros id r' Hr'. left. eapply agree_terminal; [apply trim_agree|exact Hr'].
  - apply (history_agree s); [done..|]. eauto.
  - apply (history_agree s); [done..|]. eauto.
  - unfold receive. repeat case_match; try done. apply (history_agree s); [done..|]. eauto.
  - by eapply exec_history.
  - by apply append_history.
  - by apply end_history.
Qed.

Lemma reachable_history limits s : reachable limits s -> history_ok s.
Proof.
  induction 1 as [|s s' Hr IH Hstep].
  - split; cbn; try done.
    + exists []. split_and!; [simpl; lia|done|constructor|done].
    + apply NoDup_nil_2.
  - eapply step_history; [by eapply reachable_inv|done..].
Qed.
