(* ===== verification/RunServiceSpec.v ===== *)
(** * What the run service guarantees

    The theorems about every reachable state and every step, proved from the
    invariants of [RunServiceProofs]: exclusion between the runs of a job, the
    written history, the finality of a finished run and the event stream. *)

From S2P Require Import Prelude GoStrings Model LogBuffer HostCommand Capabilities ExecutionPlan.
From S2P Require Import ExecutionPlanProofs.
From S2P Require Import RunService RunServiceProofs.

(** ** What a step does to a run *)

(** Everything a snapshot says, less the note on a history that could not be
    written. *)
Definition final (r : runState) : RunSnapshot :=
  let s := rs_snapshot r in
  MkRunSnapshot (Run_ID s) (Run_JobID s) (Run_Revision s) (Run_Status s) (Run_Origin s) (Run_DryRun s)
    (Run_RequestedAt s) (Run_StartedAt s) (Run_FinishedAt s) (Run_EffectiveUID s) (Run_EffectiveGID s)
    (Run_ExitCode s) (Run_KillEscalated s) (Run_DroppedLogLines s) (Run_LogError s) (Run_ControlError s) ""
    (Run_Error s).

(** The changes of a run: its log, its flags or the note on the history; its
    end; its start, with a plan [L] allows. *)
Inductive run_change (L : ExecutionPlan -> Prop) : runState -> runState -> Prop :=
  | change_aside r r' :
      final r' = final r -> rs_job r' = rs_job r -> rs_handle r' = rs_handle r -> run_change L r r'
  | change_finish now result r :
      terminal r = false -> executor_result result ->
      run_change L r (set_snapshot (finished_snapshot now result (rs_snapshot r)) (cancel_run r))
  | change_running now plan r : is_queued r -> L plan -> run_change L r (mark_running now plan r).

(** Every run that is left was there and went through such changes. *)
Definition changed (L : string -> ExecutionPlan -> Prop) (runs runs' : gmap string runState) : Prop :=
  forall id r', runs' !! id = Some r' -> exists r, runs !! id = Some r /\ rtc (run_change (L id)) r r'.

#[export] Instance changed_preorder L : PreOrder (changed L).
Proof.
  split.
  - intros runs id r Hr. exists r. split; [done|constructor].
  - intros a b c Hab Hbc id r3 Hr3. destruct (Hbc _ _ Hr3) as (r2 & Hr2 & H2). destruct (Hab _ _ Hr2) as (r1 & Hr1 & H1).
    exists r1. split; [done|by etrans].
Qed.

Lemma changed_insert L runs id r r' :
  runs !! id = Some r -> run_change (L id) r r' -> changed L runs (<[id := r']> runs).
Proof.
  intros Hr H k x Hx. destruct (decide (k = id)) as [->|Hne].
  - rewrite lookup_insert_eq in Hx. injection Hx as <-. exists r. split; [done|by apply rtc_once].
  - rewrite lookup_insert_ne in Hx by done. exists x. split; [done|constructor].
Qed.

Section Changes.
Variable L : string -> ExecutionPlan -> Prop.

Lemma changed_trim now s : changed L (sv_runs s) (sv_runs (trimLocked now s)).
Proof.
  intros id r'. unfold trimLocked. cbn. rewrite delete_ids_lookup. case_bool_decide; [done|].
  intros [H1 _]%map_lookup_filter_Some. rewrite lookup_fmap in H1. destruct (sv_runs s !! id) as [r|]; [|done].
  injection H1 as <-. exists r. split; [done|]. by apply rtc_once, change_aside.
Qed.

Lemma changed_finishLocked now id result s : executor_result result ->
  changed L (sv_runs s) (sv_runs (finishLocked now id result s).2).
Proof.
  intros Hres. unfold finishLocked. destruct (sv_runs s !! id) as [r|] eqn:Hr; [|done]. destruct (terminal r) eqn:Ht; [done|].
  cbn [snd]. rewrite promote_runs. etrans; [|apply changed_trim]. cbn. eapply changed_insert; [done|by apply change_finish].
Qed.

Lemma changed_Stop now id s : changed L (sv_runs s) (sv_runs (Stop now id s).2).
Proof.
  unfold Stop. destruct (sv_runs s !! id) as [r|] eqn:Hr; [|done]. case_goal; [|by case_goal]. case_goal.
  - cbn. eapply changed_insert; [done|by apply change_aside].
  - pose proof (changed_finishLocked now id (MkRunResult RunKilled (-1) false 0 None None None) s ltac:(by right)) as H.
    by destruct (finishLocked _ _ _ _) as [[[[? ?] ?]|] s1].
Qed.

Lemma changed_exec id phase s next s' :
  (forall plan, phase = EStarted plan -> L id plan) -> (forall r, phase = EFinish r -> executor_result r) ->
  exec_step id phase s next s' -> changed L (sv_runs s) (sv_runs s').
Proof.
  intros HL Hres. destruct 1 as [| | | | | |s plan r Hr Hq| | |s plan now| |s r now|s phase now line Hc]; try done.
  - cbn. eapply changed_insert; [done|by apply change_aside].
  - unfold started. destruct (sv_runs s !! id) as [r|] eqn:Hr; [|done]. case_goal; [|done]. str_eqb. cbn.
    eapply changed_insert; [done|apply change_running; [done|by apply HL]].
  - unfold finish. pose proof (changed_finishLocked now id r s (Hres r eq_refl)) as H.
    by destruct (finishLocked _ _ _ _) as [[[[? ?] ?]|] s1].
  - unfold consume. set (s1 := set_runs _ s). destruct (publishLog_core id line s1) as (-> & _). cbn.
    destruct (sv_runs s !! id) as [r|] eqn:Hr.
    + rewrite (alter_alt_Some _ _ _ r Hr). eapply changed_insert; [done|by apply change_aside].
    + by rewrite alter_id'.
Qed.

Lemma changed_record snapshot err s : inv s -> changed L (sv_runs s) (sv_runs (record_error snapshot err s)).
Proof.
  intros Hinv. unfold record_error. destruct err as [e|]; [|done]. destruct (sv_runs s !! Run_ID snapshot) as [r|] eqn:Hr; [|done].
  cbn. destruct (ok_run _ _ _ _ Hinv _ _ Hr) as [Hid _]. rewrite Hid. eapply changed_insert; [done|].
  apply change_aside; [|done..]. unfold final. cbn. by rewrite Hid.
Qed.

(** A reservation changes the old runs and adds the new one, without a process. *)
Lemma changed_reserve id now job input s :
  sv_runs s !! id = None -> exists runs r, changed L (sv_runs s) runs /\
    sv_runs (reserve id now job input s).2 = <[id := r]> runs /\ rs_handle r = false /\ ~ is_running r.
Proof.
  intros Hnone. unfold reserve. destruct (sv_active s !! Job_ID job).
  - case_goal; [by eexists _, _|]. destruct (sv_pending s !! Job_ID job) as [previous|]; [|by eexists _, _].
    pose proof (changed_finishLocked now previous overlap_result s overlap_terminal) as H.
    destruct (finishLocked _ _ _ _) as [[[[? ?] ?]|] s1]; by eexists _, _.
  - by eexists _, _.
Qed.
End Changes.

(** A run after a step is a run before it that went through changes, a start
    with the plan its goroutine holds among them, or one a call of [Start] just
    made, of a new identifier and without a process. *)
Lemma step_changes s s' id r' :
  inv s -> step s s' -> sv_runs s' !! id = Some r' ->
  (exists r, sv_runs s !! id = Some r /\ rtc (run_change (fun plan => (id, EStarted plan) ∈ sv_execs s)) r r') \/
  (sv_runs s !! id = None /\ id ∉ (sv_execs s).*1 /\ rs_handle r' = false /\ ~ is_running r').
Proof.
  intros Hinv Hstep Hr'. set (L := fun k plan => (k, EStarted plan) ∈ sv_execs s).
  assert (changed L (sv_runs s) (sv_runs s') -> exists r, sv_runs s !! id = Some r /\ rtc (run_change (L id)) r r') as Hall
    by (intros H; exact (H _ _ Hr')).
  destruct Hstep as [s found newID now input Hfresh|s now k|s now|s after|s k|s k|s i k phase next s' Hi Hx|s i p err Hi Hw Hs|s i p err Hi Hw].
  - unfold Start in *. destruct found as [job|]; [|left; by apply Hall].
    destruct (negb (Start_Revision input =? 0)%Z && negb (Start_Revision input =? Job_Revision job)%Z); [left; by apply Hall|].
    destruct newID as [k|e]; [|left; by apply Hall].
    destruct (Hfresh _ eq_refl) as (Hnone & Hex & _). destruct (changed_reserve L k now job input s Hnone) as (runs & x & H & Heq & Hh & Hnr).
    destruct (reserve k now job input s) as [[snapshot err] s']. cbn in *. rewrite Heq in Hr'.
    destruct (decide (id = k)) as [->|Hne].
    + rewrite lookup_insert_eq in Hr'. injection Hr' as <-. by right.
    + rewrite lookup_insert_ne in Hr' by done. left. exact (H _ _ Hr').
  - left. apply Hall, changed_Stop.
  - left. apply Hall, changed_trim.
  - left. by apply Hall.
  - left. by apply Hall.
  - left. apply Hall. unfold receive. repeat case_match; done.
  - left. apply Hall. refine (changed_exec L _ _ _ _ _ _ _ Hx); [intros plan ->; by eapply list_elem_of_lookup_2|].
    intros r ->. exact (ok_phase _ _ _ _ Hinv _ _ (list_elem_of_lookup_2 _ _ _ Hi)).
  - left. by apply Hall.
  - left. apply Hall. exact (changed_record L (persist_snapshot p) err s Hinv).
Qed.

(** ** A running run has a process *)

Definition handled (s : RunService) : Prop := forall id r, sv_runs s !! id = Some r -> is_running r -> rs_handle r = true.

Lemma change_handled L r r' : run_change L r r' -> (is_running r -> rs_handle r = true) -> is_running r' -> rs_handle r' = true.
Proof.
  intros [x x' H _ Hh|now result x _ Hres|now plan x _ _] Hx Hr; [|exfalso|done].
  - rewrite Hh. apply Hx. unfold is_running in *. by rewrite <-(f_equal Run_Status H : Run_Status (rs_snapshot x') = Run_Status (rs_snapshot x)).
  - pose proof (finished_terminal now result x Hres) as Ht. by rewrite (running_not_terminal _ Hr) in Ht.
Qed.

Lemma changes_handled L r r' : rtc (run_change L) r r' -> (is_running r -> rs_handle r = true) -> is_running r' -> rs_handle r' = true.
Proof. induction 1 as [|x y z H _ IH]; [auto|]. intros Hx. apply IH. by apply (change_handled _ _ _ H). Qed.

Lemma reachable_handled limits s : reachable limits s -> handled s.
Proof.
  induction 1 as [|s s' Hr IH Hstep]; [intros id r H; cbn in H; by rewrite lookup_empty in H|]. intros id r' Hr' Hrun.
  destruct (step_changes s s' id r' (reachable_inv _ _ Hr) Hstep Hr') as [(r & Hrid & H)|(_ & _ & _ & ?)]; [|done].
  exact (changes_handled _ _ _ H (IH id r Hrid) Hrun).
Qed.

(** ** A finished run stays as it is *)

Lemma change_settles L r r' : run_change L r r' -> terminal r = true -> final r' = final r /\ terminal r' = true.
Proof.
  intros [x x' H _ _|now result x H _|now plan x H _] Ht; [|congruence|by rewrite (queued_not_terminal _ H) in Ht].
  split; [done|]. unfold terminal in *. by rewrite (f_equal Run_Status H : Run_Status (rs_snapshot x') = _).
Qed.

Lemma changes_settle L r r' : rtc (run_change L) r r' -> terminal r = true -> final r' = final r.
Proof.
  induction 1 as [|x y z H _ IH]; [done|]. intros Ht. destruct (change_settles _ _ _ H Ht) as [<- Ht']. auto.
Qed.

Lemma step_settles s s' id r r' :
  inv s -> step s s' -> sv_runs s !! id = Some r -> terminal r = true -> sv_runs s' !! id = Some r' -> final r' = final r.
Proof.
  intros Hinv Hstep Hr Ht Hr'. destruct (step_changes _ _ _ _ Hinv Hstep Hr') as [(x & Hx & H)|(Hnone & _)]; [|congruence].
  assert (x = r) as -> by congruence. by eapply changes_settle.
Qed.

Definition known_kind (kind : string) : bool := string_eqb kind RunEventState || string_eqb kind RunEventLog.

(** ** The event stream *)

Record events_ok (s : RunService) : Prop := {
  ev_limit : (0 < MaxRuns (sv_limits s))%Z;
  ev_count : (0 <= sv_eventID s)%Z;
  ev_ids : map Event_ID (sv_events s) =
    seqZ (sv_eventID s - Z.of_nat (length (sv_events s)) + 1) (Z.of_nat (length (sv_events s)));
  ev_bound : (Z.of_nat (length (sv_events s)) <= MaxRuns (sv_limits s) * 8)%Z;
  ev_subs : forall k sub, sv_subscribers s !! k = Some sub ->
    (length (sub_buffer sub) <= sub_capacity sub)%nat /\
    StronglySorted Z.lt (map Event_ID (sub_buffer sub)) /\
    Forall (fun e => (Event_ID e <= sv_eventID s)%Z) (sub_buffer sub);
  ev_kinds : Forall (fun e => known_kind (Event_Kind e) = true) (sv_events s)
}.

(** The state as far as events go. *)
Definition same_events (s s' : RunService) : Prop :=
  sv_limits s' = sv_limits s /\ sv_eventID s' = sv_eventID s /\ sv_events s' = sv_events s /\
  sv_subscribers s' = sv_subscribers s.

Lemma events_agree s s' : events_ok s -> same_events s s' -> events_ok s'.
Proof. intros [H1 H2 H3 H4 H5 H6] (E1 & E2 & E3 & E4). split; rewrite ?E1, ?E2, ?E3, ?E4; done. Qed.

Lemma keep_last_length max events :
  (0 <= max)%Z -> (Z.of_nat (length (keep_last max events)) <= max)%Z.
Proof. intros H. unfold keep_last. case_goal; [rewrite length_drop|]; lia. Qed.

Lemma keep_last_suffix max events :
  (0 <= max)%Z -> exists old, events = old ++ keep_last max events.
Proof.
  intros H. unfold keep_last. case_goal; [|by exists []].
  exists (take (length events - Z.to_nat max) events). by rewrite take_drop.
Qed.

Lemma seqZ_suffix l1 l2 m :
  l1 ++ l2 = seqZ m (Z.of_nat (length (l1 ++ l2))) -> l2 = seqZ (m + Z.of_nat (length l1)) (Z.of_nat (length l2)).
Proof.
  intros H. rewrite length_app, Nat2Z.inj_add, seqZ_app in H by lia. apply app_inj_1 in H; [tauto|].
  rewrite length_seqZ. lia.
Qed.

Lemma sorted_snoc (l : list Z) x : StronglySorted Z.lt l -> Forall (fun y => (y < x)%Z) l -> StronglySorted Z.lt (l ++ [x]).
Proof.
  induction 1 as [|y l Hs IH Hy]; intros H; simpl; [by repeat constructor|].
  apply Forall_cons in H as [Hyx Hl]. constructor; [by apply IH|]. apply Forall_app. split; [done|]. by constructor.
Qed.

Lemma publish_ok kind run log s : known_kind kind = true -> events_ok s -> events_ok (publish_event kind run log s).
Proof.
  intros Hkind [H1 H2 H3 H4 H5 H6]. unfold publish_event. set (event := MkRunEvent (sv_eventID s + 1) kind run log).
  assert (0 <= MaxRuns (sv_limits s) * 8)%Z as Hmax by lia.
  split; cbn [sv_limits sv_eventID sv_events sv_subscribers set_events]; try done; try lia.
  - assert (map Event_ID (sv_events s ++ [event]) = seqZ (sv_eventID s - Z.of_nat (length (sv_events s)) + 1)
      (Z.of_nat (length (sv_events s ++ [event])))) as Hall.
    { rewrite map_app, H3, length_app, Nat2Z.inj_add, seqZ_app by lia. f_equal. unfold seqZ. simpl. f_equal. lia. }
    destruct (keep_last_suffix _ (sv_events s ++ [event]) Hmax) as [old Hold]. set (kept := keep_last _ _) in *.
    assert (length old + length kept = length (sv_events s) + 1)%nat as Hlen.
    { rewrite <-length_app, <-Hold, length_app. done. }
    rewrite Hold in Hall. rewrite map_app in Hall. rewrite <-(length_map Event_ID (old ++ kept)), map_app in Hall.
    apply seqZ_suffix in Hall. rewrite Hall, !length_map. f_equal. lia.
  - by apply keep_last_length.
  - intros k sub Hk. rewrite lookup_fmap in Hk. destruct (sv_subscribers s !! k) as [sub0|] eqn:E; [|done].
    injection Hk as <-. destruct (H5 _ _ E) as (Hc & Hs & Hf). unfold offer. destruct (_ <? _)%nat eqn:El; simpl.
    + apply Nat.ltb_lt in El. split; [rewrite length_app; simpl; lia|]. split.
      * rewrite map_app. apply sorted_snoc; [done|]. apply Forall_map. eapply Forall_impl; [exact Hf|]. simpl. lia.
      * apply Forall_app. split; [|repeat constructor; simpl; lia]. eapply Forall_impl; [exact Hf|]. simpl. lia.
    + split; [done|]. split; [done|]. eapply Forall_impl; [exact Hf|]. simpl. lia.
  - assert (Forall (fun e => known_kind (Event_Kind e) = true) (sv_events s ++ [event])) as Hall
      by (apply Forall_app; split; [done|by apply Forall_singleton]).
    destruct (keep_last_suffix _ (sv_events s ++ [event]) Hmax) as [old Hold]. rewrite Hold in Hall. by apply Forall_app in Hall as [_ ?].
Qed.

Lemma finishLocked_events now id result s : events_ok s -> events_ok (finishLocked now id result s).2.
Proof.
  intros H. unfold finishLocked. destruct (sv_runs s !! id) as [r|]; [|done]. destruct (terminal r); [done|]. cbn [snd].
  set (s1 := set_slots _ _ (set_runs _ s)). set (snap := finished_snapshot _ _ _).
  assert (events_ok (publishLocked snap s1)) as H1 by (apply publish_ok, (events_agree s); done).
  apply (events_agree (publishLocked snap s1)); [done|]. unfold promote. by case_match.
Qed.

Lemma reserve_events id now job input s : events_ok s -> events_ok (reserve id now job input s).2.
Proof.
  intros H. unfold reserve. destruct (sv_active s !! Job_ID job).
  - case_goal.
    + cbn [snd]. match goal with |- events_ok (persistHistory ?a ?b ?c ?s1) => apply (events_agree s1); [|done] end.
      apply publish_ok, (events_agree s); done.
    + destruct (sv_pending s !! Job_ID job) as [previous|].
      * pose proof (finishLocked_events now previous overlap_result s H) as H1.
        destruct (finishLocked _ _ _ _) as [[[[? ?] ?]|] s1]; cbn [snd] in *;
          apply publish_ok, (events_agree s1); done.
      * cbn [snd]. apply publish_ok, (events_agree s); done.
  - cbn [snd]. match goal with |- events_ok (set_execs ?f ?s1) => apply (events_agree s1); [|done] end.
    apply publish_ok, (events_agree s); done.
Qed.

Lemma exec_events id phase s next s' : exec_step id phase s next s' -> events_ok s -> events_ok s'.
Proof.
  destruct 1 as [| | | | | |s plan r Hr Hq| | |s plan now| |s r now|s phase now line Hc]; try done; intros H.
  - by apply (events_agree s).
  - unfold started. destruct (sv_runs s !! id) as [r|] eqn:Hr; [|done]. case_goal; [|done].
    cbn [snd]. apply publish_ok, (events_agree s); done.
  - unfold finish. pose proof (finishLocked_events now id r s H) as H1.
    destruct (finishLocked _ _ _ _) as [[[[? ?] ?]|] s1]; [|done]. by apply (events_agree s1).
  - unfold consume, publishLog. set (s1 := set_runs _ s). assert (events_ok s1) as H1 by (by apply (events_agree s)).
    destruct (sv_runs s1 !! id); [|done]. case_goal; [done|]. by apply publish_ok.
Qed.

Lemma seqZ_sorted m n : StronglySorted Z.lt (seqZ m n).
Proof.
  unfold seqZ. generalize 0%nat as k. induction (Z.to_nat n) as [|j IH]; intros k; simpl; [constructor|].
  constructor; [apply IH|]. apply Forall_fmap, Forall_seq. simpl. lia.
Qed.

Lemma subscribe_sorted after l m n : map Event_ID l = seqZ m n ->
  StronglySorted Z.lt (map Event_ID (List.filter (fun e => (Event_ID e >? after)%Z) l)).
Proof.
  intros H. assert (StronglySorted Z.lt (map Event_ID l)) as Hs.
  { rewrite H. apply seqZ_sorted. }
  clear H. induction l as [|e l IH]; simpl in *; [constructor|]. apply StronglySorted_inv in Hs as [Hs Hf].
  case_goal; simpl; [|by apply IH]. constructor; [by apply IH|]. apply List.Forall_forall.
  intros x (y & <- & [Hy _]%filter_In)%in_map_iff. rewrite List.Forall_forall in Hf. by apply Hf, in_map.
Qed.

Lemma step_events s s' : step s s' -> events_ok s -> events_ok s'.
Proof.
  intros Hstep H.
  destruct Hstep as [s found newID now input Hfresh|s now k|s now|s after|s k|s k|s i k phase next s' Hi Hx|s i p err Hi Hw Hs|s i p err Hi Hw].
  - unfold Start. destruct found as [job|]; [|done]. case_goal; [done|]. destruct newID as [k|e]; [|done].
    pose proof (reserve_events k now job input s H) as H1. by destruct (reserve k now job input s) as [[? ?] ?].
  - unfold Stop. destruct (sv_runs s !! k) as [r|] eqn:Hr; [|done]. case_goal; [|by case_goal].
    case_goal; [by apply (events_agree s)|].
    pose proof (finishLocked_events now k (MkRunResult RunKilled (-1) false 0 None None None) s H) as H1.
    destruct (finishLocked _ _ _ _) as [[[[? ?] ?]|] s1]; [|done]. by apply (events_agree s1).
  - by apply (events_agree s).
  - destruct H as [H1 H2 H3 H4 H5 H6]. split; try done. cbn. intros j sub Hj. set (replay := List.filter _ _) in *.
    destruct (decide (j = (sv_nextSubID s + 1)%Z)) as [->|Hne]; [|rewrite lookup_insert_ne in Hj by done; eauto].
    rewrite lookup_insert_eq in Hj. injection Hj as <-. cbn. split; [lia|]. split; [by eapply subscribe_sorted|].
    apply List.Forall_forall. intros e [He _]%filter_In. apply (in_map Event_ID) in He. rewrite H3 in He.
    apply list_elem_of_In, elem_of_seqZ in He. lia.
  - destruct H as [H1 H2 H3 H4 H5 H6]. split; try done. cbn. intros j sub [_ Hj]%lookup_delete_Some. eauto.
  - unfold receive. destruct (sv_subscribers s !! k) as [sub|] eqn:Hk; [|done]. destruct (sub_buffer sub) as [|e rest] eqn:Hb; [done|].
    destruct H as [H1 H2 H3 H4 H5 H6]. split; try done. cbn. intros j sub' Hj.
    destruct (decide (j = k)) as [->|Hne]; [|rewrite lookup_insert_ne in Hj by done; eauto].
    rewrite lookup_insert_eq in Hj. injection Hj as <-. destruct (H5 _ _ Hk) as (Ha & Hs & Hf). rewrite Hb in *. cbn in *.
    apply StronglySorted_inv in Hs as [? _]. apply Forall_cons in Hf as [_ ?]. split; [lia|done].
  - apply (events_agree s'); [by eapply exec_events|done].
  - by apply (events_agree s).
  - apply (events_agree (record_error (persist_snapshot p) err s)); [|done]. unfold record_error.
    destruct err as [e|]; [|done]. destruct (sv_runs s !! _); [|done]. apply publish_ok, (events_agree s); done.
Qed.

Lemma NewRunService_limit limits : (0 < MaxRuns (sv_limits (NewRunService limits)))%Z.
Proof. unfold NewRunService. cbn. repeat case_match; cbn in *; lia. Qed.

Lemma reachable_events limits s : reachable limits s -> events_ok s.
Proof.
  induction 1 as [|s s' Hr IH Hstep]; [|by eapply step_events].
  split; [apply NewRunService_limit|done|done| |done|constructor]. pose proof (NewRunService_limit limits). cbn. simpl in *. lia.
Qed.

(** ** The writers drain *)

Lemma records_head s : history_ok s ->
  sv_persisters s = [] \/ exists p rest, sv_persisters s = p :: rest /\
    ((exists err, persist_at p = PRecord err) \/ persist_at p = PWait /\ persist_sequence p = sv_historyNext s).
Proof.
  intros Hok. destruct (hi_turn _ Hok) as (rec & Hl & Hp & Hf & Hn). destruct rec as [|p rec].
  2:{ right. exists p, (rec ++ waiting s). split; [done|]. apply Forall_cons in Hf as [? _]. by left. }
  simpl in *. destruct (waiting s) as [|p rest] eqn:Ew; [by left|]. right. exists p, rest. split; [done|]. right.
  assert (waits p = true) as Hw.
  { assert (p ∈ waiting s) as Hin by (rewrite Ew; by left). unfold waiting in Hin. by apply list_elem_of_filter in Hin as [? _]. }
  split; [unfold waits in Hw; by destruct (persist_at p)|].
  pose proof (hi_sequence _ Hok) as Hs. unfold records in Hs. rewrite Ew, fmap_app in Hs.
  assert (seqZ 1 (sv_historySequence s) !! length (sv_history s) = Some (persist_sequence p)) as Hz.
  { rewrite <-Hs, lookup_app_r; rewrite length_fmap; [|done]. by rewrite Nat.sub_diag. }
  apply lookup_seqZ in Hz as [Hz _]. lia.
Qed.

(** The work left: two steps for a waiting record, one for a written one. *)
Definition backlog (s : RunService) : nat := length (sv_persisters s) + length (waiting s).

Lemma drains limits s : reachable limits s ->
  exists s', rtc step s s' /\ sv_persisters s' = [] /\ sv_history s' = records s.
Proof.
  remember (backlog s) as n eqn:Hn. revert s Hn. induction n as [n IH] using lt_wf_ind. intros s -> Hr.
  pose proof (reachable_history _ _ Hr) as Hok. pose proof (reachable_inv _ _ Hr) as Hinv.
  assert (forall s', step s s' -> records s' = records s -> (backlog s' < backlog s)%nat ->
    exists s'', rtc step s s'' /\ sv_persisters s'' = [] /\ sv_history s'' = records s) as Hgo.
  { intros s' Hs Hrec Hlt. destruct (IH _ Hlt s' eq_refl) as (s'' & Hsteps & H1 & H2); [by eapply reachable_step|].
    exists s''. split; [by eapply rtc_l|]. by rewrite H2. }
  destruct (records_head s Hok) as [Hnil|(p & rest & Hp & Hcase)].
  { exists s. split; [done|]. split; [done|]. unfold records, waiting. rewrite Hnil. simpl. by rewrite app_nil_r. }
  assert (sv_persisters s !! 0%nat = Some p) as H0 by (by rewrite Hp).
  destruct Hcase as [[err Herr]|[Hw Hseq]].
  - destruct (end_history s 0 p err Hok Hinv H0 Herr) as [_ Hrec].
    apply (Hgo (persist_end 0 p err s)); [by apply step_record|done|].
    destruct (record_error_history (persist_snapshot p) err s Hinv) as (_ & _ & E3 & _).
    unfold backlog, waiting. cbn [persist_end sv_persisters set_history]. rewrite E3, Hp. cbn [delete list_delete].
    rewrite filter_cons_False by (unfold waits; by rewrite Herr). simpl. lia.
  - destruct (append_history s 0 p None Hok H0 Hw Hseq) as [_ Hrec].
    apply (Hgo (persist_append 0 p None s)); [by apply step_append|done|].
    unfold backlog, waiting. cbn [persist_append sv_persisters set_history]. rewrite Hp. cbn [insert list_insert].
    rewrite filter_cons_False, filter_cons_True by (unfold waits; simpl; by rewrite ?Hw). simpl. lia.
Qed.

(** ** The slots of a job *)

Lemma queue_latest_slots id now job input s previous act :
  inv s -> sv_runs s !! id = None -> sv_active s !! Job_ID job = Some act -> sv_pending s !! Job_ID job = Some previous ->
  Exec_Overlap (Job_Execution job) = "queue-latest" ->
  let '(snapshot, err, s') := reserve id now job input s in
  snapshot = rs_snapshot (new_run id now (sv_limits s) job input) /\ err = None /\
  sv_active s' = sv_active s /\ sv_pending s' = <[Job_ID job := id]> (sv_pending s) /\ sv_execs s' = sv_execs s /\
  recorded s' = recorded s ++ [previous] /\
  (forall r, sv_runs s' !! previous = Some r -> Run_Status (rs_snapshot r) = RunSkippedOverlap).
Proof.
  intros Hinv Hnone Ha Hp Hpol. unfold reserve. rewrite Ha, Hp, Hpol. cbn [negb string_eqb].
  rewrite string_eqb_refl. cbn [negb].
  pose proof (finishLocked_pending now previous overlap_result s _ Hinv Hp) as Hs.
  destruct (finishLocked now previous overlap_result s) as [out s1] eqn:Ef. cbn [snd] in Hs. destruct Hs as (Hsa & Hsp & Hse).
  assert (exists snapshot logs j, out = Some (snapshot, logs, j) /\
    forall r, sv_runs s1 !! previous = Some r -> Run_Status (rs_snapshot r) = RunSkippedOverlap) as (snapshot & logs & j & -> & Hst).
  { revert Ef. unfold finishLocked. destruct (ok_pending _ _ _ _ Hinv _ _ Hp) as (_ & _ & r & Hr & _ & Hq & _).
    rewrite Hr, queued_not_terminal by done. set (s2 := publishLocked _ _). intros [= <- <-]. eexists _, _, _. split; [done|].
    intros x Hx. rewrite promote_runs in Hx. destruct (trim_agree now s2) as [Hback _].
    destruct (Hback _ _ Hx) as (y & Hy & Hsame). unfold s2 in Hy. simpl in Hy. rewrite lookup_insert_eq in Hy. injection Hy as <-.
    by destruct Hsame as (_ & _ & <- & _). }
  destruct (finishLocked_id _ _ _ _ _ _ _ _ Hinv Ef) as [Hid Hrec].
  assert (previous <> id) as Hne.
  { intros ->. apply (ok_pending _ _ _ _ Hinv) in Hp as (_ & _ & r & Hr & _). congruence. }
  split_and!; try done; cbn.
  - by rewrite Hsp, insert_delete_eq.
  - change (recorded (persistHistory snapshot logs None s1) = recorded s ++ [previous]).
    by rewrite recorded_persist, Hrec, Hid.
  - intros r. rewrite lookup_insert_ne by done. apply Hst.
Qed.

Lemma finish_promotes_slots now id result s r next :
  inv s -> sv_runs s !! id = Some r -> terminal r = false -> sv_active s !! job_of r = Some id ->
  sv_pending s !! job_of r = Some next ->
  let s' := finish now id result s in
  sv_active s' = <[job_of r := next]> (sv_active s) /\ sv_pending s' = delete (job_of r) (sv_pending s) /\
  sv_execs s' = sv_execs s ++ [(next, EBegin)].
Proof.
  intros Hinv Hr Ht Ha Hp. unfold finish, finishLocked. rewrite Hr, Ht. cbn -[promote trimLocked].
  unfold promote. cbn [sv_pending trimLocked set_runs publishLocked publish_event set_events set_slots].
  change (Run_JobID (rs_snapshot r)) with (job_of r).
  assert (delete_if (job_of r) id (sv_pending s) = sv_pending s) as Hd.
  { unfold delete_if. rewrite bool_decide_eq_false_2; [done|]. intros E.
    apply (ok_pending _ _ _ _ Hinv) in E as (_ & Hni & _). by apply (ok_active _ _ _ _ Hinv) in Ha as [? _]. }
  rewrite Hd, Hp. cbn. rewrite ?Hd. unfold delete_if. rewrite bool_decide_eq_true_2 by done.
  by rewrite insert_delete_eq.
Qed.

(** ** Properties *)

(** C1: runs of one job never overlap.  In every reachable state, whatever the
    interleaving of requests and goroutines, a run that is not finished either
    holds the job's active slot and has its one goroutine, or waits, queued and
    without a goroutine, behind another unfinished run that holds the slot; two
    runs of a job that are both running or being started are the same run. *)
Theorem runs_exclusive limits s :
  reachable limits s ->
  (forall id r, sv_runs s !! id = Some r -> terminal r = false ->
     (sv_active s !! job_of r = Some id /\ exists! phase, (id, phase) ∈ sv_execs s) \/
     (sv_pending s !! job_of r = Some id /\ is_queued r /\ rs_starting r = false /\ id ∉ (sv_execs s).*1 /\
      exists act ra, sv_active s !! job_of r = Some act /\ act <> id /\ sv_runs s !! act = Some ra /\ terminal ra = false)) /\
  (forall id1 id2 r1 r2, sv_runs s !! id1 = Some r1 -> sv_runs s !! id2 = Some r2 -> job_of r1 = job_of r2 ->
     (is_running r1 \/ is_queued r1 /\ rs_starting r1 = true) ->
     (is_running r2 \/ is_queued r2 /\ rs_starting r2 = true) -> id1 = id2).
Proof.
  intros Hinv%reachable_inv. split.
  - intros id r Hr Ht. destruct (ok_slot _ _ _ _ Hinv _ _ Hr Ht) as [Ha|Hp]; [left|right].
    + split; [done|]. destruct (ok_active _ _ _ _ Hinv _ _ Ha) as [Hin _].
      apply list_elem_of_fmap in Hin as ([k phase] & -> & Hin). exists phase. split; [done|].
      intros phase' Hin'. by eapply unique_phase.
    + destruct (ok_pending _ _ _ _ Hinv _ _ Hp) as ([act Ha] & Hni & x & Hx & _ & Hq & Hs).
      rewrite Hr in Hx. injection Hx as <-. split_and!; try done. exists act.
      destruct (ok_active _ _ _ _ Hinv _ _ Ha) as (Hin & ra & Hra & _ & Hta). exists ra. split_and!; try done. by intros ->.
  - assert (forall id r, sv_runs s !! id = Some r -> (is_running r \/ is_queued r /\ rs_starting r = true) ->
      sv_active s !! job_of r = Some id) as Hact.
    { intros id r Hr Hrun. destruct (ok_slot _ _ _ _ Hinv _ _ Hr) as [Ha|Hp]; [destruct Hrun as [?|[? _]]; auto|done|].
      destruct (ok_pending _ _ _ _ Hinv _ _ Hp) as (_ & _ & x & Hx & _ & Hq & Hs). rewrite Hr in Hx. injection Hx as <-.
      destruct Hrun as [Hrun|[_ ?]]; [|congruence]. unfold is_queued, is_running in *. by rewrite Hq in Hrun. }
    intros id1 id2 r1 r2 H1 H2 Hj Hr1 Hr2. pose proof (Hact _ _ H1 Hr1) as E1. pose proof (Hact _ _ H2 Hr2) as E2. congruence.
Qed.

(** C13: the history is complete, ordered and free of repetitions.  In every
    reachable state the records given to the history file are numbered 1, 2,
    3, ... in the order they are written, no run is recorded twice, every record
    is of a finished run, and a run still held by the service is finished exactly
    when it was recorded or its record waits for its turn. *)
Theorem run_history_once limits s :
  reachable limits s ->
  (sv_history s).*1 = seqZ 1 (Z.of_nat (length (sv_history s))) /\
  NoDup (map (fun h => Run_ID h.2) (sv_history s)) /\
  Forall (fun h => isTerminalRunStatus (Run_Status h.2) = true) (sv_history s) /\
  (forall id r, sv_runs s !! id = Some r ->
     (terminal r = true <-> id ∈ map (fun h => Run_ID h.2) (sv_history s) \/
        exists p, p ∈ sv_persisters s /\ persist_at p = PWait /\ Run_ID (persist_snapshot p) = id)).
Proof.
  intros Hok%reachable_history. destruct Hok as [H1 H2 H3 H4 H5 H6].
  unfold recorded, records in *. rewrite map_app in H4. rewrite fmap_app in H1. apply NoDup_app in H4 as [H4 _].
  apply Forall_app in H5 as [H5 _]. split_and!; [|done|done|].
  - assert (length (sv_history s) <= Z.to_nat (sv_historySequence s))%nat as Hl.
    { apply (f_equal length) in H1. rewrite length_app, length_seqZ, length_fmap in H1. lia. }
    apply (f_equal (take (length (sv_history s)))) in H1. rewrite take_app_length' in H1 by (by rewrite length_fmap).
    rewrite H1. replace (sv_historySequence s) with (Z.of_nat (length (sv_history s)) +
      (sv_historySequence s - Z.of_nat (length (sv_history s))))%Z by lia.
    rewrite seqZ_app, take_app_length' by (rewrite ?length_seqZ; lia). done.
  - intros id r Hr. rewrite (H6 _ _ Hr), map_app, elem_of_app, map_map. cbn. f_equiv. split.
    + intros (p & -> & Hin)%list_elem_of_fmap. apply list_elem_of_filter in Hin as [Hw Hin]. exists p. split; [done|].
      split; [|done]. unfold waits in Hw. by destruct (persist_at p).
    + intros (p & Hin & Hw & <-). apply list_elem_of_fmap. exists p. split; [done|]. apply list_elem_of_filter.
      split; [|done]. unfold waits. by rewrite Hw.
Qed.

(** C31: writing the history cannot deadlock.  From every reachable state the
    goroutines that wait for their turn can all finish, and what they leave in
    the history is what was written already followed by the waiting records, in
    the order the runs finished. *)
Theorem run_history_drains limits s :
  reachable limits s ->
  exists s', rtc step s s' /\ sv_persisters s' = [] /\
    sv_history s' = sv_history s ++
      map (fun p => (persist_sequence p, persist_snapshot p)) (filter (fun p => waits p = true) (sv_persisters s)).
Proof. intros Hr. exact (drains limits s Hr). Qed.

(** A finished run stays finished.  No step changes the outcome of a run that
    is terminal: its status, exit code, times, errors and identity stay (only
    the note on a history that could not be written may be added). *)
Theorem finished_run_final limits s s' id r r' :
  reachable limits s -> step s s' -> sv_runs s !! id = Some r -> terminal r = true -> sv_runs s' !! id = Some r' ->
  terminal r' = true /\ final r' = final r.
Proof.
  intros Hinv%reachable_inv Hstep Hr Ht Hr'. pose proof (step_settles _ _ _ _ _ Hinv Hstep Hr Ht Hr') as Hf.
  split; [|done]. pose proof (f_equal Run_Status Hf) as E. simpl in E. unfold terminal in *. by rewrite E.
Qed.

(** The event stream is bounded, gap-free and ordered.  In every reachable
    state the events kept for replay are the last ones published, with
    consecutive IDs ending at the current one and at most eight times [MaxRuns]
    of them; what a subscriber's channel holds has strictly increasing IDs and
    fits its capacity. *)
Theorem event_stream limits s :
  reachable limits s ->
  map Event_ID (sv_events s) =
    seqZ (sv_eventID s - Z.of_nat (length (sv_events s)) + 1) (Z.of_nat (length (sv_events s))) /\
  (Z.of_nat (length (sv_events s)) <= MaxRuns (sv_limits s) * 8)%Z /\
  (forall k sub, sv_subscribers s !! k = Some sub ->
     (length (sub_buffer sub) <= sub_capacity sub)%nat /\ StronglySorted Z.lt (map Event_ID (sub_buffer sub)) /\
     Forall (fun e => (Event_ID e <= sv_eventID s)%Z) (sub_buffer sub)).
Proof. by intros [H1 H2 H3 H4 H5 H6]%reachable_events. Qed.

(** [queue-latest] keeps the newest request.  When a job has an active run
    and a pending one, a new request takes the pending slot, starts no
    goroutine and leaves the active run alone; the run it replaces is finished
    as [skipped_overlap] and is the one record added to the history. *)
Theorem queue_latest_replaces limits s job id now input previous act :
  reachable limits s -> sv_runs s !! id = None ->
  sv_active s !! Job_ID job = Some act -> sv_pending s !! Job_ID job = Some previous ->
  Exec_Overlap (Job_Execution job) = "queue-latest" ->
  Start_Revision input = 0%Z \/ Start_Revision input = Job_Revision job ->
  let '(res, s') := Start (Some job) (Ok id) now input s in
  res = Ok (rs_snapshot (new_run id now (sv_limits s) job input)) /\
  sv_active s' = sv_active s /\ sv_pending s' = <[Job_ID job := id]> (sv_pending s) /\ sv_execs s' = sv_execs s /\
  recorded s' = recorded s ++ [previous] /\
  (forall r, sv_runs s' !! previous = Some r -> Run_Status (rs_snapshot r) = RunSkippedOverlap).
Proof.
  intros Hinv%reachable_inv Hnone Ha Hp Hpol Hrev. unfold Start.
  replace (negb _ && negb _) with false by (destruct Hrev as [-> | ->]; rewrite ?Z.eqb_refl, ?andb_false_r; done).
  pose proof (queue_latest_slots id now job input s previous act Hinv Hnone Ha Hp Hpol) as H.
  destruct (reserve id now job input s) as [[snapshot err] s']. destruct H as (-> & -> & H). done.
Qed.

(** A queued run is not forgotten.  When the active run of a job finishes, the
    pending run of the job takes the active slot and gets a goroutine. *)
Theorem finish_promotes limits s now id result r next :
  reachable limits s -> sv_runs s !! id = Some r -> terminal r = false ->
  sv_active s !! job_of r = Some id -> sv_pending s !! job_of r = Some next ->
  let s' := finish now id result s in
  sv_active s' = <[job_of r := next]> (sv_active s) /\ sv_pending s' = delete (job_of r) (sv_pending s) /\
  sv_execs s' = sv_execs s ++ [(next, EBegin)].
Proof. intros Hinv%reachable_inv. by apply finish_promotes_slots. Qed.

(** ** Witnesses *)

Definition demo_queue_job : Job :=
  MkJob 2 7 3 "nightly" true false (MkAction ActionSync "" [] "" example_sync)
    (MkIdentity IdentityFixed "alice" 1000 "users" 100) (MkExecutionPolicy "" [] 0 0 0 "queue-latest") TriggerCron
    (MkSchedulerPolicy SchedulerSyncBridge) "" "" "" "" "" "" "" "" "" "" 0 0 0 "" "" false 0 0 false false "" false "" "".

Definition demo_limits : LogLimits := MkLogLimits 1000 100 10 100.
Definition demo_input : StartRunInput := MkStartRunInput 7 0 "" false.
Definition demo_start (id : string) (s : RunService) : RunService :=
  (Start (Some demo_queue_job) (Ok id) 5 demo_input s).2.
Definition demo_one : RunService := demo_start "a" (NewRunService demo_limits).
(** One run active, one queued behind it, then the queued one stopped. *)
Definition demo_two : RunService := demo_start "b" demo_one.
Definition demo_stopped : RunService := (Stop 6 "b" demo_two).2.

Lemma demo_start_step id s :
  fresh_id id s -> step s (demo_start id s).
Proof. intros H. apply step_start. by intros k [= <-]. Qed.

Lemma demo_one_reachable : reachable demo_limits demo_one.
Proof.
  eapply reachable_step; [apply reachable_new|]. apply demo_start_step.
  split; [done|]. split_and!; cbn; apply not_elem_of_nil.
Qed.

Lemma demo_two_reachable : reachable demo_limits demo_two.
Proof.
  eapply reachable_step; [apply demo_one_reachable|]. apply demo_start_step.
  split; [done|]. split_and!; cbn; try apply not_elem_of_nil.
  apply not_elem_of_cons. split; [done|apply not_elem_of_nil].
Qed.

Lemma demo_stopped_reachable : reachable demo_limits demo_stopped.
Proof. eapply reachable_step; [apply demo_two_reachable|apply step_stop]. Qed.

Lemma runs_exclusive_witness :
  exists r, sv_runs demo_two !! "b" = Some r /\
    (sv_active demo_two !! job_of r = Some "b" \/ sv_pending demo_two !! job_of r = Some "b").
Proof.
  destruct (sv_runs demo_two !! "b") as [r|] eqn:E; [|discriminate (eq_trans (eq_sym E) eq_refl)]. exists r. split; [done|].
  assert (terminal r = false) as Ht by (vm_compute in E; injection E as <-; reflexivity).
  destruct (proj1 (runs_exclusive _ _ demo_two_reachable) "b" r E Ht) as [[H _]|[H _]]; auto.
Defined.

Lemma run_history_once_witness :
  Forall (fun h => isTerminalRunStatus (Run_Status h.2) = true) (sv_history demo_stopped) /\ reachable demo_limits demo_stopped.
Proof.
  split; [|exact demo_stopped_reachable].
  exact (proj1 (proj2 (proj2 (run_history_once _ _ demo_stopped_reachable)))).
Defined.

Lemma run_history_drains_witness :
  length (sv_persisters demo_stopped) = 1%nat /\
  exists s', rtc step demo_stopped s' /\ sv_persisters s' = [].
Proof.
  split; [vm_compute; reflexivity|]. destruct (run_history_drains _ _ demo_stopped_reachable) as (s' & H1 & H2 & _).
  by exists s'.
Defined.

Lemma finished_run_final_witness :
  exists r r', sv_runs demo_stopped !! "b" = Some r /\ sv_runs (Stop 7 "a" demo_stopped).2 !! "b" = Some r' /\
    final r' = final r.
Proof.
  destruct (sv_runs demo_stopped !! "b") as [r|] eqn:E; [|discriminate (eq_trans (eq_sym E) eq_refl)].
  destruct (sv_runs (Stop 7 "a" demo_stopped).2 !! "b") as [r'|] eqn:E'; [|vm_compute in E'; discriminate E'].
  exists r, r'. split; [done|]. split; [done|].
  assert (terminal r = true) as Ht by (vm_compute in E; injection E as <-; reflexivity).
  exact (proj2 (finished_run_final _ _ _ "b" r r' demo_stopped_reachable (step_stop _ 7 "a") E Ht E')).
Defined.

Lemma event_stream_witness :
  map Event_ID (sv_events demo_stopped) = [1; 2; 3]%Z /\ (3 <= MaxRuns (sv_limits demo_stopped) * 8)%Z.
Proof.
  split; [vm_compute; reflexivity|]. exact (proj1 (proj2 (event_stream _ _ demo_stopped_reachable))).
Defined.

Lemma queue_latest_replaces_witness :
  sv_pending demo_two !! 7%Z = Some "b" /\
  sv_pending (Start (Some demo_queue_job) (Ok "c") 8 demo_input demo_two).2 = <[7%Z := "c"]> (sv_pending demo_two).
Proof.
  split; [reflexivity|].
  exact (proj1 (proj2 (proj2 (queue_latest_replaces demo_limits demo_two demo_queue_job "c" 8 demo_input "b" "a" demo_two_reachable
    eq_refl eq_refl eq_refl eq_refl (or_introl eq_refl))))).
Defined.

Lemma finish_promotes_witness :
  exists r, sv_runs demo_two !! "a" = Some r /\
    sv_execs (finish 9 "a" overlap_result demo_two) = sv_execs demo_two ++ [("b", EBegin)].
Proof.
  destruct (sv_runs demo_two !! "a") as [r|] eqn:E; [|discriminate (eq_trans (eq_sym E) eq_refl)]. exists r. split; [done|].
  assert (terminal r = false /\ job_of r = 7%Z) as [Ht Hj] by (vm_compute in E; injection E as <-; split; reflexivity).
  refine (proj2 (proj2 (finish_promotes demo_limits demo_two 9 "a" overlap_result r "b" demo_two_reachable E Ht _ _)));
    rewrite Hj; reflexivity.
Defined.
