(* ===== verification/History.v ===== *)
(** * Run history and terminal effects ([history.go], [run_effects.go],
      [appendRunHistory] of [run_service.go])

    The history file maps a job ID, in decimal, to its latest runs.  [histMu] is
    held from the read to the replacement of the file, so each operation is one
    function on the file system.  JSON is the interface [HistoryCodec].  The
    second half is what follows a run that ended: the retention of the
    timestamped backup directories, and the notification. *)

From S2P Require Import Prelude GoStrings Model AtomicFile JobRepository HostCommand ExecutionPlan.
From S2P Require Import RunService.

(** ** Data *)

Definition histKeep : nat := 20.

Record RunRecord := MkRunRecord { Rec_TS : string; Rec_Status : string; Rec_Dur : Z; Rec_Note : string }.

(** Go's [map[string][]RunRecord]; the nil slice is the empty list. *)
Definition history : Type := gmap string (list RunRecord).

(** [json.Unmarshal] into a map that is empty: what the map is afterwards
    ([None]: the nil map that a JSON null leaves) and the error. *)
Class HistoryCodec := {
  unmarshal_history : string -> option history * option goerror;
  marshal_history : history -> result string;
  history_encodable : history -> Prop;
  unmarshal_marshal m d :
    history_encodable m -> marshal_history m = Ok d -> unmarshal_history (d +:+ newline) = (Some m, None)
}.

Section History.
Context {codec : HistoryCodec}.

Definition loadHistoryAt (path : string) : SE FS history :=
  content ← fs_ReadFile path;
  match content with
  | None => mret (∅ : history)
  | Some b =>
      match unmarshal_history b with
      | (_, Some err) => lift (Err err)
      | (None, None) => mret (∅ : history)
      | (Some m, None) => mret m
      end
  end.

Definition pushed (rec : RunRecord) (l : list RunRecord) : list RunRecord :=
  let l := [rec] ++ l in
  if (histKeep <? length l)%nat then take histKeep l else l.

Definition appendHistoryAtomicAt (path : string) (owner : FileOwner) (id : Z) (rec : RunRecord) : SE FS unit :=
  m ← loadHistoryAt path;
  let key := Itoa id in
  let m := <[key := pushed rec (default [] (m !! key))]> m in
  b ← lift (marshal_history m);
  AtomicWriteFile path (b +:+ newline) 416 owner.

Definition appendHistory (path : string) (owner : FileOwner) (id : Z) (rec : RunRecord) : SE FS unit :=
  ignore (appendHistoryAtomicAt path owner id rec).

(** [loadHistory] ignores both errors, so what was decoded before an error counts. *)
Definition loadHistory (path : string) : SE FS history :=
  content ← attempt (fs_ReadFile path);
  mret (match content with
        | Ok (Some b) => default ∅ (unmarshal_history b).1
        | _ => ∅
        end).

Definition removeHistory (path : string) (owner : FileOwner) (id : Z) : SE FS unit :=
  m ← loadHistory path;
  match marshal_history (delete (Itoa id) m) with
  | Ok b => _ ← attempt (AtomicWriteFile path (b +:+ newline) 416 owner); mret tt
  | Err _ => mret tt
  end.
End History.

(** ** Notes *)

(** What [strings.ToLower] makes of a text, up to letters outside ASCII that
    have no lower-case form in ASCII: of the others only U+0130 and U+212A do. *)
Definition lower_byte (c : ascii) : ascii :=
  if is_upper c then Ascii.ascii_of_nat (Ascii.nat_of_ascii c + 32) else c.
Fixpoint ToLower (s : string) : string :=
  match s with
  | EmptyString => EmptyString
  | String c1 r =>
      match r with
      | String c2 r2 =>
          if byte_is 196 c1 && byte_is 176 c2 then String "i"%char (ToLower r2)
          else match r2 with
          | String c3 r3 =>
              if byte_is 226 c1 && byte_is 132 c2 && byte_is 170 c3 then String "k"%char (ToLower r3)
              else String (lower_byte c1) (ToLower r)
          | EmptyString => String (lower_byte c1) (ToLower r)
          end
      | EmptyString => String (lower_byte c1) (ToLower r)
      end
  end.

(** The bytes of U+2026. *)
Definition ellipsis : string :=
  String (Ascii.ascii_of_nat 226) (String (Ascii.ascii_of_nat 128) (str1 (Ascii.ascii_of_nat 166))).

Definition speaks_of_failure (low : string) : bool :=
  Contains low "erreur" || Contains low "error" || Contains low "failed" || Contains low "abandon".

Fixpoint errNote (lines : list string) : string :=
  match lines with
  | [] => ""
  | l :: lines =>
      let t := TrimSpace l in
      if string_eqb t "" then errNote lines
      else if speaks_of_failure (ToLower t)
      then if (160 <? String.length t)%nat then take_str 160 t +:+ ellipsis else t
      else errNote lines
  end.

(** The whole seconds of a run; times are in nanoseconds. *)
Definition run_seconds (run : RunSnapshot) : Z :=
  if negb (Run_StartedAt run =? 0)%Z && negb (Run_FinishedAt run =? 0)%Z
  then Z.quot (Run_FinishedAt run - Run_StartedAt run) second else 0.

Definition run_record (format_time : Z -> string) (run : RunSnapshot) (logs : string) : RunRecord :=
  let note := Run_Error run in
  let note := if string_eqb note "" then errNote (Split (Ascii.ascii_of_nat 10) logs) else note in
  MkRunRecord (format_time (Run_FinishedAt run)) (Run_Status run) (run_seconds run) note.

Definition appendRunHistory `{!HistoryCodec} (format_time : Z -> string) (path : string) (owner : FileOwner)
    (run : RunSnapshot) (logs : string) : SE FS unit :=
  appendHistoryAtomicAt path owner (Run_JobID run) (run_record format_time run logs).

(** ** Backup retention *)

(** [^[0-9]{8}-[0-9]{6}(?:-[0-9]+)?$] *)
Definition digits_n (n : nat) (s : string) : bool := (String.length s =? n)%nat && string_forallb is_digit s.
Definition backupDirectoryPattern (s : string) : bool :=
  match Split "-" s with
  | [d; t] => digits_n 8 d && digits_n 6 t
  | [d; t; n] => digits_n 8 d && digits_n 6 t && negb (string_eqb n "") && string_forallb is_digit n
  | _ => false
  end.

(** The directories of the host that hold backups: their entries, each with
    whether it is a directory.  Every operation takes an outcome of the script:
    [Some e] fails, an exhausted script succeeds. *)
Record BackupFS := MkBackupFS {
  bk_dirs : gmap string (gmap string bool);
  bk_script : list (option goerror)
}.

Definition bk_outcome : SE BackupFS (option goerror) := fun fs =>
  match bk_script fs with
  | [] => (Ok None, fs)
  | o :: script => (Ok o, MkBackupFS (bk_dirs fs) script)
  end.

(** [None]: the directory does not exist. *)
Definition bk_ReadDir (base : string) : SE BackupFS (option (list (string * bool))) :=
  o ← bk_outcome;
  match o with
  | Some e => lift (Err e)
  | None => fs ← get_state; mret (map_to_list <$> bk_dirs fs !! base)
  end.

Definition bk_RemoveAll (base name : string) : SE BackupFS unit :=
  o ← bk_outcome;
  match o with
  | Some e => lift (Err e)
  | None => modify_state (fun fs => MkBackupFS (alter (delete name) base (bk_dirs fs)) (bk_script fs))
  end.

Fixpoint remove_loop (base : string) (names : list string) : SE BackupFS unit :=
  match names with
  | [] => mret tt
  | name :: names =>
      _ ← se_map (wrap_err ("remove backup " +:+ name +:+ ": ")) (bk_RemoveAll base name);
      remove_loop base names
  end.

Definition backup_names (entries : list (string * bool)) : list string :=
  (List.filter (fun e => e.2 && backupDirectoryPattern e.1) entries).*1.

Definition rotateBackupsHost (destination : string) (keep : Z) : SE BackupFS unit :=
  if (keep <=? 0)%Z then mret tt
  else
    base ← lift (hostFilesystemPath (PathJoin [destination; ".sb-backup"]));
    entries ← bk_ReadDir base;
    match entries with
    | None => mret tt
    | Some entries =>
        let dirs := backup_names entries in
        if (Z.of_nat (length dirs) <=? keep)%Z then mret tt
        else
          let dirs := merge_sort string_le dirs in
          remove_loop base (take (length dirs - Z.to_nat keep) dirs)
    end.

(** ** What follows a run

    The notification [notifyRun] is asked for, and the file system; an error of
    the retention is only printed. *)
Definition handleRunTerminalEffects (job : Job) (run : RunSnapshot) (fs : BackupFS) :
    option (string * string) * BackupFS :=
  if Run_DryRun run then (None, fs)
  else
    let fs :=
      if string_eqb (Run_Status run) RunSucceeded && string_eqb (Action_Type (Job_Action job)) ActionSync then
        let sync := Action_Sync (Job_Action job) in
        if Sync_Backup sync && (Sync_BackupKeep sync >? 0)%Z
        then (rotateBackupsHost (Sync_Dest sync) (Sync_BackupKeep sync) fs).2 else fs
      else fs in
    if string_eqb (Run_Status run) RunSkippedOverlap then (None, fs)
    else
      let status := if string_eqb (Run_Status run) RunSucceeded then "ok"
                    else if string_eqb (Run_Status run) RunKilled then "stopped" else "error" in
      (Some (Job_Name job, status), fs).

(** The settings a notification depends on, and the title and level [postNotify]
    is started with. *)
Record NotifySettings := MkNotifySettings { NotifyURL : string; NotifyAll : bool }.
Definition notifyRun (s : NotifySettings) (name status : string) : option (string * string * bool) :=
  if string_eqb (NotifyURL s) "" then None
  else if negb (string_eqb status "error") && negb (NotifyAll s) then None
  else Some (NotifyURL s, "SyncBridge : " +:+ name, string_eqb status "error").
