(* ===== verification/HistoryProofs.v ===== *)
(** * What the history keeps and what retention removes ([History.v]) *)

From S2P Require Import Prelude GoStrings Model AtomicFile JobRepository HostCommand ExecutionPlan.
From S2P Require Import ExecutionPlanProofs RunService History.

(** ** The history file *)

Section History.
Context {codec : HistoryCodec}.

Definition decode_history (content : option string) : option history :=
  match content with
  | None => Some ∅
  | Some b => match unmarshal_history b with (Some m, None) => Some m | _ => None end
  end.
Definition history_at (path : string) (fs : FS) : option history :=
  decode_history (file_data <$> (fs_files fs !! path)).

(** What one append means. *)
Definition push (m : history) (e : Z * RunRecord) : history :=
  <[Itoa e.1 := pushed e.2 (default [] (m !! Itoa e.1))]> m.

(** [appendHistoryAtomicAt] for one entry after the other: which ones returned
    nil, and the file system afterwards. *)
Fixpoint append_all (path : string) (owner : FileOwner) (es : list (Z * RunRecord)) (fs : FS) : list bool * FS :=
  match es with
  | [] => ([], fs)
  | e :: es =>
      let (r, fs) := appendHistoryAtomicAt path owner e.1 e.2 fs in
      let (oks, fs) := append_all path owner es fs in
      (is_Ok r :: oks, fs)
  end.

(** [took oks es kept]: [kept] are the entries of [es] that took effect, every
    one that was reported as a success among them. *)
Inductive took : list bool -> list (Z * RunRecord) -> list (Z * RunRecord) -> Prop :=
  | took_nil : took [] [] []
  | took_kept b oks e es kept : took oks es kept -> took (b :: oks) (e :: es) (e :: kept)
  | took_lost oks e es kept : took oks es kept -> took (false :: oks) (e :: es) kept.

Lemma took_sublist oks es kept : took oks es kept -> sublist kept es.
Proof. induction 1; by constructor. Qed.

Lemma append_step path owner e fs m :
  history_at path fs = Some m -> history_encodable (push m e) ->
  let (r, fs') := appendHistoryAtomicAt path owner e.1 e.2 fs in
  history_at path fs' = Some (push m e) \/ (is_Ok r = false /\ history_at path fs' = Some m).
Proof.
  intros Hm He. unfold appendHistoryAtomicAt, loadHistoryAt. rewrite !SE_bind_unfold.
  destruct (fs_ReadFile_cases path fs) as (fs1 & Hfs & [->|[err ->]]).
  2:{ right. split; [done|]. unfold history_at. by rewrite Hfs. }
  assert (history_at path fs1 = Some m) as Hm1 by (unfold history_at in *; by rewrite Hfs).
  assert (forall k : history -> SE FS unit,
    (match (match file_data <$> (fs_files fs !! path) with
      | None => mret (∅ : history)
      | Some b =>
          match unmarshal_history b with
          | (_, Some err) => lift (Err err)
          | (None, None) => mret (∅ : history)
          | (Some m0, None) => mret m0
          end
      end : SE FS history) fs1 with (Ok a, s') => k a s' | (Err err, s') => (Err err, s') end) = k m fs1) as ->.
  { intros k. unfold history_at, decode_history in Hm. destruct (file_data <$> _) as [b|]; [|by injection Hm as <-].
    destruct (unmarshal_history b) as [[m0|] [err|]]; try done. by injection Hm as <-. }
  rewrite SE_bind_unfold. unfold lift. destruct (marshal_history _) as [d|err] eqn:Ed.
  2:{ right. by split. }
  destruct (AtomicWriteFile path (d +:+ newline) 416 owner fs1) as [r fs'] eqn:Ea.
  apply AtomicWriteFile_reader in Ea as [Hok Hread].
  assert (forall f, fs_files fs' !! path = Some f -> file_data f = d +:+ newline -> history_at path fs' = Some (push m e))
    as Hnew.
  { intros f Hf Hd. unfold history_at. rewrite Hf. simpl. rewrite Hd.
    by rewrite (unmarshal_marshal _ _ He Ed). }
  destruct r as [u|err]; [left; eapply Hnew; [by apply Hok|done]|].
  destruct Hread as [Hr|Hr]; [|left; by eapply Hnew]. right. split; [done|]. unfold history_at in *. by rewrite Hr.
Qed.

Lemma append_all_took path owner es : forall fs m,
  history_at path fs = Some m -> (forall l, sublist l es -> history_encodable (fold_left push l m)) ->
  let (oks, fs') := append_all path owner es fs in
  exists kept, took oks es kept /\ history_at path fs' = Some (fold_left push kept m).
Proof.
  induction es as [|e es IH]; intros fs m Hm He; simpl.
  { exists []. split; [constructor|done]. }
  pose proof (append_step path owner e fs m Hm (He [e] ltac:(constructor; apply sublist_nil_l))) as Hs.
  destruct (appendHistoryAtomicAt path owner e.1 e.2 fs) as [r fs1].
  destruct Hs as [Hs|[Hr Hs]].
  - specialize (IH fs1 (push m e) Hs). destruct (append_all path owner es fs1) as [oks fs'].
    destruct IH as (kept & Ht & Hd). { intros l Hl. apply (He (e :: l)). by constructor. }
    exists (e :: kept). split; [by constructor|done].
  - specialize (IH fs1 m Hs). destruct (append_all path owner es fs1) as [oks fs'].
    destruct IH as (kept & Ht & Hd). { intros l Hl. apply He. by constructor. }
    exists kept. rewrite Hr. split; [by constructor|done].
Qed.

(** The records of one job, oldest first. *)
Definition records_of (id : Z) (es : list (Z * RunRecord)) : list RunRecord :=
  (List.filter (fun e => (e.1 =? id)%Z) es).*2.

Definition recorded (m : history) (id : Z) : list RunRecord := default [] (m !! Itoa id).

Lemma pushed_take rec l : (length l <= histKeep)%nat -> pushed rec l = take histKeep (rec :: l).
Proof.
  intros Hl. unfold pushed. cbn [app]. destruct (histKeep <? _)%nat eqn:E; [done|].
  apply Nat.ltb_ge in E. by rewrite take_ge.
Qed.

Lemma take_app_take {A} n (a b : list A) : take n (a ++ take n b) = take n (a ++ b).
Proof. rewrite !take_app, take_take. do 2 f_equal. lia. Qed.

Lemma push_recorded m e id :
  in_s64 id -> in_s64 e.1 ->
  recorded (push m e) id = if (e.1 =? id)%Z then pushed e.2 (recorded m id) else recorded m id.
Proof.
  intros Hid He. unfold recorded, push. destruct (e.1 =? id)%Z eqn:E.
  - apply Z.eqb_eq in E as ->. unfold history. by rewrite lookup_insert_eq.
  - apply Z.eqb_neq in E. unfold history. rewrite lookup_insert_ne; [done|]. intros H. by apply Itoa_inj in H.
Qed.

Lemma fold_push_recorded id es : forall m,
  in_s64 id -> Forall (fun e => in_s64 e.1) es -> (length (recorded m id) <= histKeep)%nat ->
  recorded (fold_left push es m) id = take histKeep (rev (records_of id es) ++ recorded m id).
Proof.
  induction es as [|e es IH]; intros m Hid Hes Hm; simpl; [by rewrite take_ge|].
  apply Forall_cons in Hes as [He Hes]. rewrite IH; [|done..|].
  - rewrite push_recorded by done. unfold records_of. simpl. destruct (e.1 =? id)%Z; [|done].
    rewrite pushed_take by done. rewrite fmap_cons. cbn [rev]. rewrite <-app_assoc. apply take_app_take.
  - rewrite push_recorded by done. case_goal; [|done]. rewrite pushed_take by done.
    rewrite length_take. lia.
Qed.
End History.

(** C18: the history keeps the newest runs.  Whatever the faults of the file
    system, after a sequence of appends the file decodes to the appends that
    took effect, all the acknowledged ones among them: of every job the newest
    20 records, newest first, in front of those it had. *)
Theorem history_keeps_newest `{!HistoryCodec} path owner es fs m :
  history_at path fs = Some m -> (forall l, sublist l es -> history_encodable (fold_left push l m)) ->
  Forall (fun e => in_s64 e.1) es ->
  let (oks, fs') := append_all path owner es fs in
  exists kept m', took oks es kept /\ history_at path fs' = Some m' /\
    forall id, in_s64 id -> (length (recorded m id) <= histKeep)%nat ->
      recorded m' id = take histKeep (rev (records_of id kept) ++ recorded m id).
Proof.
  intros Hm He Hes. pose proof (append_all_took path owner es fs m Hm He) as Ht.
  destruct (append_all path owner es fs) as [oks fs']. destruct Ht as (kept & Ht & Hd).
  exists kept, (fold_left push kept m). split; [done|]. split; [done|]. intros id Hid Hl.
  apply fold_push_recorded; [done| |done].
  apply took_sublist in Ht. rewrite Forall_forall in *. intros e Hin. by apply Hes, (sublist_subseteq _ _ Ht).
Qed.

(** ** Retention *)

Lemma Ascii_compare_trans a b c :
  Ascii.compare a b <> Gt -> Ascii.compare b c <> Gt -> Ascii.compare a c <> Gt.
Proof. unfold Ascii.compare. rewrite !N.compare_le_iff. lia. Qed.
Lemma Ascii_compare_Eq a b : Ascii.compare a b = Eq -> a = b.
Proof.
  unfold Ascii.compare. intros H%N.compare_eq. rewrite <-(Ascii.ascii_N_embedding a), <-(Ascii.ascii_N_embedding b).
  by rewrite H.
Qed.
Lemma Ascii_compare_refl a : Ascii.compare a a = Eq.
Proof. apply N.compare_refl. Qed.

Lemma leb_cons a s b t :
  String.leb (String a s) (String b t) = match Ascii.compare a b with Eq => String.leb s t | Lt => true | Gt => false end.
Proof. unfold String.leb. simpl. by destruct (Ascii.compare a b). Qed.

#[export] Instance string_le_trans : Transitive string_le.
Proof.
  unfold string_le. intros s. induction s as [|a s IH]; intros [|b t] [|c u]; try done.
  rewrite !leb_cons. intros H1 H2.
  destruct (Ascii.compare a b) eqn:E1, (Ascii.compare b c) eqn:E2; try done.
  - apply Ascii_compare_Eq in E1 as ->, E2 as ->. rewrite Ascii_compare_refl. by eapply IH.
  - apply Ascii_compare_Eq in E1 as ->. by rewrite E2.
  - apply Ascii_compare_Eq in E2 as ->. by rewrite E1.
  - assert (Ascii.compare a c = Lt) as ->; [|done].
    unfold Ascii.compare in *. rewrite !N.compare_lt_iff in *. lia.
Qed.

(** The file system without some entries of one directory. *)
Definition without (base : string) (removed : list string) (entries : gmap string bool) (fs : BackupFS) :
    gmap string (gmap string bool) :=
  <[base := filter (fun kv => kv.1 ∉ removed) entries]> (bk_dirs fs).

Lemma filter_without entries (removed : list string) name :
  delete name (filter (fun kv => kv.1 ∉ removed) entries) =
  filter (fun kv => kv.1 ∉ name :: removed) (entries : gmap string bool).
Proof.
  apply map_eq. intros k. rewrite lookup_delete, !map_lookup_filter.
  destruct (decide (name = k)) as [->|Hne].
  - destruct (entries !! k); simpl; [|done]. rewrite option_guard_False; [done|]. intros H. apply H. by left.
  - destruct (entries !! k); simpl; [|done]. repeat case_guard; try done; set_solver.
Qed.

Lemma remove_loop_spec base (names : list string) : forall removed (entries : gmap string bool) dirs fs,
  bk_dirs fs = <[base := filter (fun kv => kv.1 ∉ removed) entries]> dirs ->
  let (r, fs') := remove_loop base names fs in
  exists done_ rest, names = done_ ++ rest /\ (is_Ok r = true -> rest = []) /\
    bk_dirs fs' = <[base := filter (fun kv => kv.1 ∉ rev done_ ++ removed) entries]> dirs.
Proof.
  induction names as [|name names IH]; intros removed entries dirs fs Hd.
  { exists [], []. done. }
  cbn [remove_loop]. rewrite SE_bind_unfold. unfold se_map, bk_RemoveAll. rewrite SE_bind_unfold. unfold bk_outcome.
  assert (forall fs1, bk_dirs fs1 = bk_dirs fs ->
    bk_dirs (MkBackupFS (alter (delete name) base (bk_dirs fs1)) (bk_script fs1)) =
    <[base := filter (fun kv => kv.1 ∉ name :: removed) entries]> dirs) as Hrm.
  { intros fs1 ->. cbn. rewrite Hd, alter_insert_eq. f_equal. apply filter_without. }
  assert (forall fs1, bk_dirs fs1 = <[base := filter (fun kv => kv.1 ∉ name :: removed) entries]> dirs ->
    let (r, fs') := remove_loop base names fs1 in
    exists done_ rest, name :: names = done_ ++ rest /\ (is_Ok r = true -> rest = []) /\
      bk_dirs fs' = <[base := filter (fun kv => kv.1 ∉ rev done_ ++ removed) entries]> dirs) as Hgo.
  { intros fs1 H1. specialize (IH (name :: removed) entries dirs fs1 H1).
    destruct (remove_loop base names fs1) as [r fs']. destruct IH as (dn & rest & -> & Hr & ->).
    exists (name :: dn), rest. split; [done|]. split; [done|]. cbn [rev]. by rewrite <-app_assoc. }
  destruct (bk_script fs) as [|[e|] script] eqn:Es; cbn.
  - apply Hgo. pose proof (Hrm fs eq_refl) as H. by rewrite Es in H.
  - exists [], (name :: names). done.
  - apply Hgo. by apply (Hrm (MkBackupFS (bk_dirs fs) script)).
Qed.

Lemma backup_names_in (entries : gmap string bool) name :
  name ∈ backup_names (map_to_list entries) <-> entries !! name = Some true /\ backupDirectoryPattern name = true.
Proof.
  unfold backup_names. rewrite list_elem_of_fmap. split.
  - intros ([n d] & -> & Hin). apply list_elem_of_In, filter_In in Hin as [Hin Hb]. cbn in *.
    apply andb_true_iff in Hb as [-> Hb]. apply list_elem_of_In, elem_of_map_to_list in Hin. done.
  - intros [He Hp]. exists (name, true). split; [done|]. apply list_elem_of_In, filter_In.
    split; [|exact Hp]. by apply list_elem_of_In, elem_of_map_to_list.
Qed.

(** Sorted oldest first, what comes before is not newer. *)
Lemma sorted_app_le l1 l2 a b :
  StronglySorted string_le (l1 ++ l2) -> a ∈ l1 -> b ∈ l2 -> string_le a b.
Proof.
  induction l1 as [|x l1 IH]; intros Hs Ha Hb; [by apply elem_of_nil in Ha|].
  apply StronglySorted_inv in Hs as [Hs Hx]. apply elem_of_cons in Ha as [->|Ha]; [|by apply IH].
  rewrite Forall_forall in Hx. apply Hx. apply elem_of_app. by right.
Qed.

Lemma without_nothing base entries fs :
  bk_dirs fs !! base = Some entries -> bk_dirs fs = without base [] entries fs.
Proof.
  intros He. unfold without. rewrite map_filter_id; [by rewrite insert_id|]. intros k v _. cbn. set_solver.
Qed.

(** The outcome of a retention that removed [removed] and left [kept]. *)
Definition retained (keep : Z) (entries : gmap string bool) (base : string) (fs : BackupFS) (r : result unit)
    (fs' : BackupFS) : Prop :=
  exists removed kept,
    (forall name, name ∈ removed ++ kept <-> entries !! name = Some true /\ backupDirectoryPattern name = true) /\
    NoDup (removed ++ kept) /\
    (forall old new_, old ∈ removed -> new_ ∈ kept -> string_le old new_) /\
    (removed = [] \/ (keep <= Z.of_nat (length kept))%Z) /\
    (is_Ok r = true -> (Z.of_nat (length kept) <= keep)%Z) /\
    bk_dirs fs' = without base removed entries fs.

Lemma backup_names_NoDup (entries : gmap string bool) : NoDup (backup_names (map_to_list entries)).
Proof.
  unfold backup_names. pose proof (NoDup_fst_map_to_list entries) as Hn. revert Hn.
  generalize (map_to_list entries). intros l. induction l as [|[n d] l IH]; [done|]. rewrite fmap_cons.
  intros [Hni Hnd]%NoDup_cons. cbn. destruct (d && _); [|by apply IH]. rewrite fmap_cons. apply NoDup_cons.
  split; [|by apply IH]. intros Hin. apply Hni. apply list_elem_of_fmap in Hin as (y & Hy & Hin).
  apply list_elem_of_In, filter_In in Hin as [Hin _]. apply list_elem_of_fmap. exists y.
  split; [done|by apply list_elem_of_In].
Qed.

Lemma retained_split keep entries base fs r fs' removed kept :
  merge_sort string_le (backup_names (map_to_list entries)) = removed ++ kept ->
  (removed = [] \/ (keep <= Z.of_nat (length kept))%Z) -> (is_Ok r = true -> (Z.of_nat (length kept) <= keep)%Z) ->
  bk_dirs fs' = without base removed entries fs -> retained keep entries base fs r fs'.
Proof.
  intros Hs Hk Hr Hd. exists removed, kept. rewrite <-Hs. split; [|split; [|split; [|done]]].
  - intros name. rewrite (merge_sort_Permutation string_le). apply backup_names_in.
  - rewrite (merge_sort_Permutation string_le). apply backup_names_NoDup.
  - intros old new_. apply sorted_app_le. rewrite <-Hs. apply StronglySorted_merge_sort; apply _.
Qed.

(** Retention removes only old backups.  With a positive limit, whatever
    fails, only timestamped directories are removed, no removed one is newer
    than one that stays, and as many as the limit stay; when it succeeds no more
    than that many are left, and every other entry and directory is as before. *)
Theorem rotateBackupsHost_spec destination keep base entries fs :
  (0 < keep)%Z -> hostFilesystemPath (PathJoin [destination; ".sb-backup"]) = Ok base ->
  bk_dirs fs !! base = Some entries ->
  let (r, fs') := rotateBackupsHost destination keep fs in
  (is_Ok r = false /\ bk_dirs fs' = bk_dirs fs) \/ retained keep entries base fs r fs'.
Proof.
  intros Hk Hb He. unfold rotateBackupsHost. rewrite (proj2 (Z.leb_gt _ _) Hk), SE_bind_unfold, Hb.
  cbn [lift]. rewrite SE_bind_unfold. unfold bk_ReadDir. rewrite SE_bind_unfold. unfold bk_outcome.
  set (names := backup_names (map_to_list entries)).
  assert (forall fs1, bk_dirs fs1 = bk_dirs fs ->
    let (r, fs') := (if (Z.of_nat (length names) <=? keep)%Z then mret tt
      else remove_loop base (take (length (merge_sort string_le names) - Z.to_nat keep) (merge_sort string_le names))) fs1 in
    retained keep entries base fs r fs') as Hgo.
  { intros fs1 H1. pose proof (Permutation_length (merge_sort_Permutation string_le names)) as Hlen.
    destruct (Z.of_nat (length names) <=? keep)%Z eqn:El; bool_simpl.
    - apply (retained_split _ _ _ _ _ _ [] (merge_sort string_le names)); [done|by left| |].
      + intros _. fold names in Hlen. lia.
      + rewrite H1. by apply without_nothing.
    - set (k := (length (merge_sort string_le names) - Z.to_nat keep)%nat).
      pose proof (remove_loop_spec base (take k (merge_sort string_le names)) [] entries (bk_dirs fs) fs1) as Hl.
      destruct (remove_loop base _ fs1) as [r fs']. destruct Hl as (dn & rest & Hn & Hr & Hd).
      { rewrite H1. by apply without_nothing. }
      pose proof (take_drop k (merge_sort string_le names)) as Htd. rewrite Hn, <-app_assoc in Htd.
      assert (length (drop k (merge_sort string_le names)) = Z.to_nat keep) as Hdl
        by (rewrite length_drop; unfold k; lia).
      apply (retained_split _ _ _ _ _ _ dn (rest ++ drop k (merge_sort string_le names))); [done|right| |].
      + rewrite length_app, Hdl. lia.
      + intros Hok. rewrite (Hr Hok). simpl. rewrite Hdl. lia.
      + rewrite Hd. unfold without. f_equal. apply map_filter_ext. intros n b _. cbn. rewrite app_nil_r.
        by rewrite !list_elem_of_In, <-in_rev. }
  assert (forall fs1, bk_dirs fs1 = bk_dirs fs ->
    let (r, fs') := (entries ← (mret (map_to_list <$> bk_dirs fs !! base) : SE BackupFS _);
      match entries with
      | None => mret tt
      | Some entries =>
          let dirs := backup_names entries in
          if (Z.of_nat (length dirs) <=? keep)%Z then mret tt
          else let dirs := merge_sort string_le dirs in remove_loop base (take (length dirs - Z.to_nat keep) dirs)
      end) fs1 in
    (is_Ok r = false /\ bk_dirs fs' = bk_dirs fs) \/ retained keep entries base fs r fs') as Hdo.
  { intros fs1 H1. rewrite He. specialize (Hgo fs1 H1). rewrite SE_bind_unfold. cbn [fmap option_fmap option_map mret SE_ret].
    fold names. cbv zeta. destruct (_ fs1) as [r fs']. by right. }
  destruct (bk_script fs) as [|[e|] script]; cbn.
  - by apply (Hdo fs).
  - by left.
  - by apply (Hdo (MkBackupFS (bk_dirs fs) script)).
Qed.

(** ** Witnesses *)

(** A codec for the history of job 1: the times of its records, as decimal
    numbers behind a mark. *)
Definition demo_record (t : Z) : RunRecord := MkRunRecord (FormatUint t) RunSucceeded 0 "".
Definition demo_history (ts : list Z) : history := <["1" := demo_record <$> ts]> ∅.

Definition history_times (m : history) : option (list Z) :=
  mapM (fun rec => ParseUint 10 64 (Rec_TS rec)) (default [] (m !! "1")).

Definition demo_history_encodable (m : history) : Prop :=
  exists ts, history_times m = Some ts /\ Forall in_u64 ts /\ m = demo_history ts.

Definition demo_unmarshal (t : string) : option history * option goerror :=
  match demo_numbers t with
  | Some (_ :: ts) => (Some (demo_history ts), None)
  | _ => (Some ∅, Some (ErrNew "syntax"))
  end.
Definition demo_marshal_history (m : history) : result string :=
  match history_times m with
  | Some ts => Ok (demo_text (0%Z :: ts))
  | None => Err (ErrNew "unsupported")
  end.

#[export] Program Instance demo_history_codec : HistoryCodec := {|
  unmarshal_history := demo_unmarshal; marshal_history := demo_marshal_history;
  history_encodable := demo_history_encodable
|}.
Next Obligation.
  intros m d (ts & Hts & Hu & Hm) Hd. unfold demo_marshal_history in Hd. rewrite Hts in Hd. injection Hd as <-.
  unfold demo_unmarshal. rewrite demo_numbers_text; [by rewrite Hm|by constructor|done].
Qed.

Definition demo_es : list (Z * RunRecord) := [(1%Z, demo_record 10); (1%Z, demo_record 20)].

Lemma demo_history_fits l : sublist l demo_es -> demo_history_encodable (fold_left push l (demo_history [5%Z])).
Proof.
  intros Hl.
  assert (l ∈ [[]; [(1%Z, demo_record 20)]; [(1%Z, demo_record 10)]; demo_es]) as Hin.
  { unfold demo_es in *. repeat match goal with
    | H : sublist _ (_ :: _) |- _ => apply sublist_cons_r in H as [H|(? & -> & H)]
    | H : sublist _ [] |- _ => apply sublist_nil_r in H as ->
    end; set_solver. }
  rewrite !elem_of_cons in Hin. destruct Hin as [->|[->|[->|[->|H]]]]; [..|by apply elem_of_nil in H];
    (eexists; split; [vm_compute; reflexivity|]; split; [by repeat constructor|]); vm_compute; reflexivity.
Qed.

Lemma history_keeps_newest_witness :
  let fs := MkFS {[ "/data/history.json" := MkFile (demo_text [0; 5]%Z +:+ newline) 416 process_owner true ]} []
              [Succeeds ""; Succeeds ""; Succeeds "a"; Succeeds ""; Fails 0] in
  (append_all "/data/history.json" process_owner demo_es fs).1 = [false; true] /\
  let (oks, fs') := append_all "/data/history.json" process_owner demo_es fs in
  exists kept m', took oks demo_es kept /\ history_at "/data/history.json" fs' = Some m' /\
    forall id, in_s64 id -> (length (recorded (demo_history [5%Z]) id) <= histKeep)%nat ->
      recorded m' id = take histKeep (rev (records_of id kept) ++ recorded (demo_history [5%Z]) id).
Proof.
  split; [vm_compute; reflexivity|].
  apply (history_keeps_newest "/data/history.json" process_owner demo_es _ (demo_history [5%Z])).
  - vm_compute. reflexivity.
  - exact demo_history_fits.
  - by repeat constructor.
Defined.

Definition demo_backups : gmap string bool :=
  list_to_map [("20260101-000000", true); ("20260103-000000", true); ("20260102-000000-2", true); ("notes", true);
               ("20250101-000000", false)].

Lemma rotateBackupsHost_spec_witness :
  let fs := MkBackupFS {[ "/proc/1/root/srv/.sb-backup" := demo_backups ]} [] in
  let (r, fs') := rotateBackupsHost "/srv" 1 fs in
  (is_Ok r = false /\ bk_dirs fs' = bk_dirs fs) \/
  retained 1 demo_backups "/proc/1/root/srv/.sb-backup" fs r fs'.
Proof.
  apply rotateBackupsHost_spec; [done|vm_compute; reflexivity|].
  vm_compute. reflexivity.
Defined.

(** The two newest stay of three, whatever else is there. *)
Example rotate_removes :
  map_to_list <$> (bk_dirs (rotateBackupsHost "/srv" 2
     (MkBackupFS {[ "/proc/1/root/srv/.sb-backup" := demo_backups ]} [])).2 !! "/proc/1/root/srv/.sb-backup") =
  Some (map_to_list (delete "20260101-000000" demo_backups)).
Proof. vm_compute. reflexivity. Qed.
