(* ===== verification/HostExecutor.v ===== *)
(** * The process group of a run ([host_executor.go])

    A wrapper runs as the leader of its own process group.  [control] is the
    loop that owns every signal sent to the group: it waits for the leader's
    exit, stop requests, the context, the timeout, the poll ticker and the grace
    timer, and returns only then the process may be reaped.  One round of its
    [select] is [control_event]; the events and the host's answers are
    arbitrary. *)

From S2P Require Import Prelude GoStrings HostCommand ExecutionPlan RunService.

(** ** Data *)

Inductive signal := SIGTERM | SIGKILL.
#[export] Instance signal_eq_dec : EqDecision signal.
Proof. solve_decision. Defined.

(** [syscall.ESRCH] *)
Definition ESRCH : goerror := ErrVar "no such process".
Definition is_ESRCH (e : goerror) : bool := errors_Is e "no such process".

Definition terminationTimeout : Z := 1.
Definition terminationManual : Z := 2.

Record stopRequest := MkStopRequest { stop_reason : Z; stop_grace : Z }.

Record controlResult := MkControlResult {
  ctl_reason : Z;
  ctl_initiated : bool;
  ctl_killEscalated : bool;
  ctl_err : option goerror
}.

(** What [executionHandle.Stop], the only sender, puts on the channel. *)
Definition Stop_request (grace : Z) : stopRequest := MkStopRequest terminationManual (Z.max grace 0).

(** The fields of [executionHandle] that [control] calls. *)
Class ProcessGroup (W : Type) := {
  signalGroup : Z -> signal -> W -> result unit * W;
  groupHasLiveMember : Z -> W -> result bool * W
}.

(** The local variables of [control]; a channel variable is a flag that says
    whether it is not nil, the grace timer holds its duration. *)
Record control_state := MkControl {
  cs_result : controlResult;
  cs_timeoutC : bool;
  cs_graceC : option Z;
  cs_pollC : bool;
  cs_contextDone : bool;
  cs_leaderExitC : bool;
  cs_leaderObserved : bool;
  cs_observationDone : bool;
  cs_killSent : bool;
  cs_probeErrorRecorded : bool
}.

Definition control_start (timeout : Z) : control_state :=
  MkControl (MkControlResult 0 false false None) (timeout >? 0)%Z None false true true false false false false.

Inductive control_message :=
  | LeaderExit (err : option goerror)
  | StopRequested (grace : Z)
  | ContextDone (deadline : bool)
  | TimeoutFired
  | PollTick
  | GraceFired.

(** The cases of the [select] that can be chosen.  The capability to send on
    [stopRequests] is never withdrawn. *)
Definition ready (m : control_message) (c : control_state) : bool :=
  match m with
  | LeaderExit _ => cs_leaderExitC c
  | StopRequested _ => true
  | ContextDone _ => cs_contextDone c
  | TimeoutFired => cs_timeoutC c
  | PollTick => cs_pollC c
  | GraceFired => bool_decide (is_Some (cs_graceC c))
  end.

(** ** Field updates *)

Definition set_result (r : controlResult) (c : control_state) : control_state :=
  MkControl r (cs_timeoutC c) (cs_graceC c) (cs_pollC c) (cs_contextDone c) (cs_leaderExitC c) (cs_leaderObserved c)
    (cs_observationDone c) (cs_killSent c) (cs_probeErrorRecorded c).
Definition set_timers (timeoutC : bool) (graceC : option Z) (pollC : bool) (c : control_state) : control_state :=
  MkControl (cs_result c) timeoutC graceC pollC (cs_contextDone c) (cs_leaderExitC c) (cs_leaderObserved c)
    (cs_observationDone c) (cs_killSent c) (cs_probeErrorRecorded c).
Definition set_contextDone (b : bool) (c : control_state) : control_state :=
  MkControl (cs_result c) (cs_timeoutC c) (cs_graceC c) (cs_pollC c) b (cs_leaderExitC c) (cs_leaderObserved c)
    (cs_observationDone c) (cs_killSent c) (cs_probeErrorRecorded c).
Definition set_leader (exitC observed done_ : bool) (c : control_state) : control_state :=
  MkControl (cs_result c) (cs_timeoutC c) (cs_graceC c) (cs_pollC c) (cs_contextDone c) exitC observed done_
    (cs_killSent c) (cs_probeErrorRecorded c).
Definition set_killSent (b : bool) (c : control_state) : control_state :=
  MkControl (cs_result c) (cs_timeoutC c) (cs_graceC c) (cs_pollC c) (cs_contextDone c) (cs_leaderExitC c)
    (cs_leaderObserved c) (cs_observationDone c) b (cs_probeErrorRecorded c).
Definition set_probeErrorRecorded (b : bool) (c : control_state) : control_state :=
  MkControl (cs_result c) (cs_timeoutC c) (cs_graceC c) (cs_pollC c) (cs_contextDone c) (cs_leaderExitC c)
    (cs_leaderObserved c) (cs_observationDone c) (cs_killSent c) b.

(** [result.err = errors.Join(result.err, fmt.Errorf(text+": %w", err))] *)
Definition join_err (text : string) (e : goerror) (c : control_state) : control_state :=
  let r := cs_result c in
  set_result (MkControlResult (ctl_reason r) (ctl_initiated r) (ctl_killEscalated r)
                (errors_Join [ctl_err r; Some (ErrWrap text e "")])) c.

(** ** One round *)

Section Control.
Context {W : Type} `{!ProcessGroup W}.
Context (pid defaultGrace : Z).

Definition probeGroup (c : control_state) (w : W) : bool * control_state * W :=
  match groupHasLiveMember pid w with
  | (Ok live, w) => (live, c, w)
  | (Err e, w) =>
      (true, if cs_probeErrorRecorded c then c else set_probeErrorRecorded true (join_err "inspect process group: " e c), w)
  end.

Definition start_termination (request : stopRequest) (c : control_state) : control_state :=
  let r := cs_result c in
  set_timers false (Some (Z.max (stop_grace request) 0)) (cs_pollC c)
    (set_result (MkControlResult (stop_reason request) true (ctl_killEscalated r) (ctl_err r)) c).

Definition initiate (request : stopRequest) (c : control_state) (w : W) : bool * control_state * W :=
  let r := cs_result c in
  if ctl_initiated r then
    (true, if (stop_reason request >? ctl_reason r)%Z
           then set_result (MkControlResult (stop_reason request) true (ctl_killEscalated r) (ctl_err r)) c else c, w)
  else match signalGroup pid SIGTERM w with
  | (Ok _, w) => (true, start_termination request c, w)
  | (Err e, w) =>
      if is_ESRCH e then (false, c, w)
      else (true, start_termination request (join_err "signal process group TERM: " e c), w)
  end.

(** The case of the leader's exit. *)
Definition leader_exit (err : option goerror) (c : control_state) (w : W) : bool * control_state * W :=
  let c := set_leader false (cs_leaderObserved c) true c in
  match err with
  | Some e =>
      let c := join_err "observe leader exit: " e c in
      (negb (ctl_initiated (cs_result c)) || cs_killSent c, c, w)
  | None =>
      let c := set_leader false true true c in
      if cs_killSent c then (true, c, w)
      else
        let '(live, c, w) := probeGroup c w in
        if negb live then (true, c, w)
        else
          let '(going, c, w) :=
            if ctl_initiated (cs_result c) then (true, c, w) else initiate (MkStopRequest 0 defaultGrace) c w in
          if negb going then (true, c, w)
          else (false, set_timers (cs_timeoutC c) (cs_graceC c) true c, w)
  end.

(** The case of the grace timer. *)
Definition grace_fired (c : control_state) (w : W) : bool * control_state * W :=
  let '(live, c, w) := if cs_leaderObserved c then probeGroup c w else (true, c, w) in
  if negb live then (true, c, w)
  else
    let '(r, w) := signalGroup pid SIGKILL w in
    let c := match r with
             | Ok _ => set_result (MkControlResult (ctl_reason (cs_result c)) (ctl_initiated (cs_result c)) true
                                     (ctl_err (cs_result c))) c
             | Err e => if is_ESRCH e then c else join_err "signal process group KILL: " e c
             end in
    let c := set_timers (cs_timeoutC c) None false (set_killSent true c) in
    (cs_observationDone c, c, w).

(** One round of the loop: whether [control] returns, and the new state. *)
Definition control_event (m : control_message) (c : control_state) (w : W) : bool * control_state * W :=
  match m with
  | LeaderExit err => leader_exit err c w
  | StopRequested grace => let '(_, c, w) := initiate (Stop_request grace) c w in (false, c, w)
  | ContextDone deadline =>
      let reason := if deadline then terminationTimeout else terminationManual in
      let '(_, c, w) := initiate (MkStopRequest reason defaultGrace) c w in
      (false, set_contextDone false c, w)
  | TimeoutFired =>
      let '(_, c, w) := initiate (MkStopRequest terminationTimeout defaultGrace) c w in
      (false, set_timers false (cs_graceC c) (cs_pollC c) c, w)
  | PollTick => let '(live, c, w) := probeGroup c w in (negb live, c, w)
  | GraceFired => grace_fired c w
  end.

(** The states [control] goes through: [reached ms b c w] after the messages
    [ms] (last first), [b] when it has returned. *)
Inductive reached (timeout : Z) (w0 : W) : list control_message -> bool -> control_state -> W -> Prop :=
  | reached_start : reached timeout w0 [] false (control_start timeout) w0
  | reached_event ms c w m b c' w' :
      reached timeout w0 ms false c w -> ready m c = true -> control_event m c w = (b, c', w') ->
      reached timeout w0 (m :: ms) b c' w'.
End Control.

(** ** Reaping *)

Record logStreamResult := MkLogStreamResult { stream_err : option goerror; stream_dropped : Z }.

(** [exitCode] is -1 when there is no process state. *)
Definition reap (control : controlResult) (waitErr : option goerror) (exitCode : Z) (logs : logStreamResult) : RunResult :=
  let status :=
    if ctl_initiated control && (ctl_reason control =? terminationManual)%Z then RunKilled
    else if ctl_initiated control && (ctl_reason control =? terminationTimeout)%Z then RunTimedOut
    else if (exitCode =? 0)%Z then RunSucceeded else RunFailed in
  MkRunResult status exitCode (ctl_killEscalated control) (stream_dropped logs) waitErr (stream_err logs) (ctl_err control).

(** ** Members of a process group *)

(** [strings.LastIndexByte(s, c)]: what follows the last [c], if any. *)
Fixpoint after_last (c : ascii) (s : string) : option string :=
  match s with
  | EmptyString => None
  | String x r => match after_last c r with Some t => Some t | None => if ascii_eqb x c then Some r else None end
  end.

(** [signalProcessGroup] refuses groups that are not positive. *)
Definition signalProcessGroup (kill : Z -> signal -> result unit) (pgid : Z) (s : signal) : result unit :=
  if (pgid <=? 0)%Z then Err ESRCH else kill (- pgid)%Z s.

(** The process group and the state letter of [/proc/<pid>/stat]. *)
Definition parse_stat (name text : string) : result (string * Z) :=
  match after_last ")" text with
  | None => Err (ErrNew ("parse /proc/" +:+ name +:+ "/stat: missing command terminator"))
  | Some rest =>
      match Fields rest with
      | state :: _ :: group :: _ =>
          match Atoi group with
          | Some g => Ok (state, g)
          | None => Err (ErrWrap ("parse /proc/" +:+ name +:+ "/stat process group: ") (ErrNew "invalid syntax") "")
          end
      | _ => Err (ErrNew ("parse /proc/" +:+ name +:+ "/stat: missing process group"))
      end
  end.

(** [os.ErrNotExist] *)
Definition stat_gone (e : goerror) : bool := errors_Is e "file does not exist".

(** The directory listing of [/proc] with what reading each stat file gives. *)
Fixpoint live_member (pgid : Z) (entries : list (string * result string)) : result bool :=
  match entries with
  | [] => Ok false
  | (name, stat) :: entries =>
      match Atoi name with
      | None => live_member pgid entries
      | Some _ =>
          match stat with
          | Err e => if stat_gone e then live_member pgid entries
                     else Err (ErrWrap ("read /proc/" +:+ name +:+ "/stat: ") e "")
          | Ok text =>
              match parse_stat name text with
              | Err e => Err e
              | Ok (state, group) =>
                  if (group =? pgid)%Z && negb (string_eqb state "Z") then Ok true else live_member pgid entries
              end
          end
      end
  end.

Definition processGroupHasLiveMember (pgid : Z) (proc : result (list (string * result string))) : result bool :=
  match proc with
  | Err e => Err (ErrWrap "read /proc: " e "")
  | Ok entries => live_member pgid entries
  end.
