(* ===== verification/HostExecutorProofs.v ===== *)
(** * What [control] guarantees, on any host

    The calls of the loop are recorded, with the host's answers, by running it
    over the host paired with a log; the invariant [control_ok] ties the local
    variables to that log, and the properties follow. *)

From S2P Require Import Prelude GoStrings HostCommand ExecutionPlan RunService HostExecutor.

(** ** The log of calls *)

Inductive host_call := Signalled (s : signal) (r : result unit) | Probed (r : result bool).

Definition calls : Type := list host_call.

(** Newest call first. *)
#[export] Instance traced_group (W : Type) `{!ProcessGroup W} : ProcessGroup (W * calls) := {|
  signalGroup pid s w := let '(r, w') := signalGroup pid s w.1 in (r, (w', Signalled s r :: w.2));
  groupHasLiveMember pid w := let '(r, w') := groupHasLiveMember pid w.1 in (r, (w', Probed r :: w.2))
|}.

Definition is_signal (c : host_call) : bool := match c with Signalled _ _ => true | Probed _ => false end.
Definition signals (log : calls) : calls := List.filter is_signal log.

Lemma signals_cons s r log : signals (Signalled s r :: log) = Signalled s r :: signals log.
Proof. done. Qed.

(** The host knows no such group. *)
Definition refused (r : result unit) : bool := match r with Ok _ => false | Err e => is_ESRCH e end.

Definition live_answer (r : result bool) : bool := match r with Ok live => live | Err _ => true end.

(** ** The invariant *)

(** TERM attempts the host refused, then the accepted one, then at most one
    KILL. *)
Definition signal_order (c : control_state) (log : calls) : Prop :=
  exists kill term old,
    signals log = kill ++ term ++ map (Signalled SIGTERM) old /\ Forall (fun r => refused r = true) old /\
    (if ctl_initiated (cs_result c) then exists r, term = [Signalled SIGTERM r] /\ refused r = false else term = []) /\
    (if cs_killSent c then exists r, kill = [Signalled SIGKILL r] /\ ctl_killEscalated (cs_result c) = is_Ok r
     else kill = [] /\ ctl_killEscalated (cs_result c) = false).

(** Why the loop may end. *)
Definition clean_end (c : control_state) (log : calls) : Prop :=
  if cs_leaderObserved c then
    cs_killSent c = true \/ head log = Some (Probed (Ok false)) \/
    (exists r, head log = Some (Signalled SIGTERM r) /\ refused r = true)
  else ctl_err (cs_result c) <> None /\ (ctl_initiated (cs_result c) = false \/ cs_killSent c = true).

Record control_ok (b : bool) (c : control_state) (log : calls) : Prop := {
  co_signals : signal_order c log;
  co_kill : cs_killSent c = true -> ctl_initiated (cs_result c) = true;
  co_grace : is_Some (cs_graceC c) <-> ctl_initiated (cs_result c) = true /\ cs_killSent c = false;
  co_done : cs_leaderExitC c = negb (cs_observationDone c);
  co_observed : cs_leaderObserved c = true -> cs_observationDone c = true;
  co_failed : cs_observationDone c = true -> cs_leaderObserved c = false -> ctl_err (cs_result c) <> None;
  co_going : b = false -> cs_observationDone c = true -> ctl_initiated (cs_result c) = true /\ cs_killSent c = false;
  co_timeout : cs_timeoutC c = true -> ctl_initiated (cs_result c) = false;
  co_end : b = true -> cs_observationDone c = true /\ clean_end c log
}.

Lemma join_not_None a e : errors_Join [a; Some e] <> None.
Proof. unfold errors_Join. by destruct a. Qed.
#[export] Hint Resolve join_not_None : core.

Section Invariant.
Context {W : Type} `{!ProcessGroup W}.
Context (pid defaultGrace : Z).
Implicit Types (w : W * calls) (c : control_state).

(** A probe changes nothing but the error. *)
Lemma probe_inv c w live c' w' :
  probeGroup pid c w = (live, c', w') ->
  exists r err p, live = live_answer r /\ w'.2 = Probed r :: w.2 /\
    (ctl_err (cs_result c) <> None -> err <> None) /\
    c' = set_probeErrorRecorded p (set_result (MkControlResult (ctl_reason (cs_result c)) (ctl_initiated (cs_result c))
           (ctl_killEscalated (cs_result c)) err) c).
Proof.
  destruct c as [[reason ini esc err] tC gC pC cD lC lO oD kS pR]. destruct w as [w0 log]. unfold probeGroup.
  cbn -[groupHasLiveMember]. cbn [groupHasLiveMember traced_group fst snd].
  destruct (groupHasLiveMember pid w0) as [[l|e] w1]; cbn -[errors_Join]; intros [= <- <- <-].
  - exists (Ok l), err, pR. done.
  - destruct pR; [by exists (Err e), err, true|]. eexists (Err e), _, true. split; [done|]. split; [done|].
    split; [|reflexivity]. intros _. apply join_not_None.
Qed.

(** What [initiate] does. *)
Lemma initiate_inv request c w ok c' w' :
  initiate pid request c w = (ok, c', w') ->
  let r := cs_result c in
  if ctl_initiated r then
    ok = true /\ w' = w /\
    c' = set_result (MkControlResult (Z.max (ctl_reason r) (stop_reason request)) true (ctl_killEscalated r) (ctl_err r)) c
  else exists answer err, w'.2 = Signalled SIGTERM answer :: w.2 /\ ok = negb (refused answer) /\
    (ctl_err r <> None -> err <> None) /\
    c' = if refused answer then c else
         set_timers false (Some (Z.max (stop_grace request) 0)) (cs_pollC c)
           (set_result (MkControlResult (stop_reason request) true (ctl_killEscalated r) err) c).
Proof.
  destruct c as [[reason ini esc err] tC gC pC cD lC lO oD kS pR]. destruct w as [w0 log]. unfold initiate. cbn -[signalGroup Z.max].
  destruct ini.
  - intros [= <- <- <-]. split; [done|]. split; [done|]. destruct (_ >? _)%Z eqn:E; bool_simpl; unfold set_result; cbn -[Z.max]; do 2 f_equal; lia.
  - cbn [signalGroup traced_group fst snd]. destruct (signalGroup pid SIGTERM w0) as [[[]|e] w1]; cbn -[errors_Join Z.max].
    + intros [= <- <- <-]. by exists (Ok tt), err.
    + destruct (is_ESRCH e) eqn:Ee; intros [= <- <- <-].
      * exists (Err e), err. cbn -[Z.max]. rewrite Ee. done.
      * eexists (Err e), _. cbn -[Z.max errors_Join]. rewrite Ee. split; [done|]. split; [done|]. split; [|reflexivity].
        intros _. apply join_not_None.
Qed.

(** Probing keeps the order of the signals. *)
Lemma order_probe c c' log r :
  signal_order c log -> ctl_initiated (cs_result c') = ctl_initiated (cs_result c) ->
  ctl_killEscalated (cs_result c') = ctl_killEscalated (cs_result c) -> cs_killSent c' = cs_killSent c ->
  signal_order c' (Probed r :: log).
Proof. unfold signal_order. intros H -> -> ->. exact H. Qed.

Lemma order_same c c' log :
  signal_order c log -> ctl_initiated (cs_result c') = ctl_initiated (cs_result c) ->
  ctl_killEscalated (cs_result c') = ctl_killEscalated (cs_result c) -> cs_killSent c' = cs_killSent c ->
  signal_order c' log.
Proof. unfold signal_order. intros H -> -> ->. exact H. Qed.

Lemma order_term c c' log answer :
  signal_order c log -> ctl_initiated (cs_result c) = false -> cs_killSent c = false ->
  ctl_initiated (cs_result c') = negb (refused answer) ->
  ctl_killEscalated (cs_result c') = ctl_killEscalated (cs_result c) -> cs_killSent c' = false ->
  signal_order c' (Signalled SIGTERM answer :: log).
Proof.
  unfold signal_order. intros (kill & term & old & Hs & Hold & Ht & Hk) Ei Ek Ei' Ee Ek'. rewrite Ei in Ht. rewrite Ek in Hk.
  rewrite Ei', Ek', Ee. destruct Hk as [-> Hesc]. subst term. setoid_rewrite signals_cons. rewrite Hs.
  destruct (refused answer) eqn:Er; cbn.
  - exists [], [], (answer :: old). split; [done|]. split; [by constructor|]. done.
  - exists [], [Signalled SIGTERM answer], old. split; [done|]. split; [done|]. split; [|done]. eauto.
Qed.

Lemma order_kill c c' log answer :
  signal_order c log -> ctl_initiated (cs_result c) = true -> cs_killSent c = false ->
  ctl_initiated (cs_result c') = true -> ctl_killEscalated (cs_result c') = is_Ok answer -> cs_killSent c' = true ->
  signal_order c' (Signalled SIGKILL answer :: log).
Proof.
  unfold signal_order. intros (kill & term & old & Hs & Hold & Ht & Hk) Ei Ek -> -> ->. rewrite Ei in Ht. rewrite Ek in Hk.
  destruct Hk as [-> Hesc]. exists [Signalled SIGKILL answer], term, old. rewrite signals_cons, Hs. split; [done|].
  split; [done|]. split; [done|]. eauto.
Qed.

Lemma initiate_ok request c w ok c' w' :
  control_ok false c w.2 -> initiate pid request c w = (ok, c', w') -> control_ok false c' w'.2.
Proof.
  intros [Hs Hk Hg Hd Ho Hf Hgo Ht He] H. apply initiate_inv in H. cbv zeta in H.
  destruct (ctl_initiated (cs_result c)) eqn:Ei.
  - destruct H as (-> & -> & ->). split; cbn; rewrite ?Ei; try tauto; try discriminate. eapply order_same; [exact Hs|done..].
  - destruct H as (answer & err & Hw & -> & Herr & ->). rewrite Hw.
    assert (cs_killSent c = false) as Ek by (destruct (cs_killSent c) eqn:E; [discriminate (Hk eq_refl)|done]).
    assert (cs_observationDone c = false) as Eo.
    { destruct (cs_observationDone c) eqn:E; [|done]. by destruct (Hgo eq_refl eq_refl). }
    destruct (refused answer) eqn:Er.
    + split; rewrite ?Ei; try tauto; try discriminate. eapply order_term; [exact Hs|done|done|by rewrite Er|done|done].
    + split; cbn; rewrite ?Ek, ?Eo; try tauto; try discriminate.
      * eapply order_term; [exact Hs|done|done|by rewrite Er|done|done].
      * split; [done|eauto].
      * by rewrite Hd, Eo.
Qed.

Lemma probe_ok c w live c' w' :
  control_ok false c w.2 -> probeGroup pid c w = (live, c', w') -> control_ok false c' w'.2.
Proof.
  intros [Hs Hk Hg Hd Ho Hf Hgo Ht He] H. apply probe_inv in H as (r & err & p & -> & -> & Herr & ->).
  split; cbn; try tauto; discriminate.
Qed.

(** The loop ends after a probe that found nobody. *)
Lemma probe_end c w c' w' :
  control_ok false c w.2 -> cs_leaderObserved c = true -> probeGroup pid c w = (false, c', w') -> control_ok true c' w'.2.
Proof.
  intros Hok Hl H. pose proof (probe_ok _ _ _ _ _ Hok H) as [Hs Hk Hg Hd Ho Hf Hgo Ht He].
  apply probe_inv in H as (r & err & p & Hlive & Hw & Herr & ->).
  split; try done. intros _. assert (cs_observationDone c = true) as Hod by (by apply (co_observed _ _ _ Hok)).
  split; [done|]. unfold clean_end. cbn. rewrite Hl, Hw. right. left. simpl. destruct r as [[]|]; done.
Qed.

Lemma leader_exit_ok err c w b c' w' :
  control_ok false c w.2 -> cs_leaderExitC c = true -> leader_exit pid defaultGrace err c w = (b, c', w') ->
  control_ok b c' w'.2.
Proof.
  intros [Hs Hk Hg Hd Ho Hf Hgo Ht He] Hready. rewrite Hd in Hready. apply negb_true_iff in Hready.
  assert (cs_leaderObserved c = false) as Hl by (destruct (cs_leaderObserved c) eqn:E; [rewrite (Ho eq_refl) in Hready; discriminate|done]).
  unfold leader_exit. destruct err as [e|].
  - intros [= <- <- <-]. cbn -[errors_Join]. split; cbn -[errors_Join]; try tauto; try discriminate; try congruence.
    + intros _ _. apply join_not_None.
    + intros H _. apply orb_false_iff in H as [H1%negb_false_iff H2]. done.
    + intros H. apply orb_true_iff in H. rewrite negb_true_iff in H. split; [done|]. unfold clean_end. cbn -[errors_Join].
      rewrite Hl. split; [apply join_not_None|done].
  - cbn [cs_killSent set_leader]. destruct (cs_killSent c) eqn:Ek.
    + intros [= <- <- <-]. split; cbn; try tauto; try discriminate; try congruence.
    + set (c1 := set_leader false true true (set_leader false (cs_leaderObserved c) true c)).
      destruct (probeGroup pid c1 w) as [[live c2] w2] eqn:Ep.
      apply probe_inv in Ep as (r & err & p & -> & Hw2 & Herr & ->).
      destruct (live_answer r) eqn:El; cbn [negb].
      * cbn [ctl_initiated cs_result set_probeErrorRecorded set_result].
        change (ctl_initiated (cs_result c1)) with (ctl_initiated (cs_result c)).
        destruct (ctl_initiated (cs_result c)) eqn:Ei; cbn [negb].
        -- intros [= <- <- <-]. rewrite Hw2. split; cbn; rewrite ?Ei, ?Ek; try tauto; try discriminate; try congruence.
           eapply order_probe; [exact Hs|cbn; congruence..].
        -- set (c2 := set_probeErrorRecorded p _). assert (ctl_initiated (cs_result c2) = false) as Ei2 by done.
           destruct (initiate pid _ c2 w2) as [[ok c3] w3] eqn:Ein. apply initiate_inv in Ein. cbv zeta in Ein.
           rewrite Ei2 in Ein.
           destruct Ein as (answer & err' & Hw3 & -> & Herr' & ->). rewrite Hw2 in Hw3.
           assert (signal_order c (Probed r :: w.2)) as Hs2 by (by eapply order_probe).
           destruct (refused answer) eqn:Er; cbn [negb]; intros [= <- <- <-]; rewrite Hw3; split; cbn; rewrite ?Ei, ?Ek;
             try tauto; try discriminate; try congruence.
           ++ eapply order_term; [exact Hs2|done|done|cbn; by rewrite Er|done|done].
           ++ intros _. split; [done|]. unfold clean_end. cbn. right. right. by exists answer.
           ++ eapply order_term; [exact Hs2|done|done|cbn; by rewrite Er|done|done].
           ++ split; [done|eauto].
      * intros [= <- <- <-]. rewrite Hw2. split; cbn; rewrite ?Ek; try tauto; try discriminate; try congruence.
        intros _. split; [done|]. unfold clean_end. cbn. right. left. destruct r as [[]|]; done.
Qed.

Lemma grace_fired_ok c w b c' w' :
  control_ok false c w.2 -> is_Some (cs_graceC c) -> grace_fired pid c w = (b, c', w') -> control_ok b c' w'.2.
Proof.
  intros Hok Hready. pose proof (proj1 (co_grace _ _ _ Hok) Hready) as [Hi Hk]. unfold grace_fired.
  assert (forall c1 w1, control_ok false c1 w1.2 -> ctl_initiated (cs_result c1) = true -> cs_killSent c1 = false ->
    cs_leaderObserved c1 = cs_leaderObserved c ->
    (let '(r, w) := signalGroup pid SIGKILL w1 in
     let c := match r with
              | Ok _ => set_result (MkControlResult (ctl_reason (cs_result c1)) (ctl_initiated (cs_result c1)) true
                                     (ctl_err (cs_result c1))) c1
              | Err e => if is_ESRCH e then c1 else join_err "signal process group KILL: " e c1
              end in
     let c := set_timers (cs_timeoutC c) None false (set_killSent true c) in (cs_observationDone c, c, w)) = (b, c', w') ->
    control_ok b c' w'.2) as Hkill.
  { clear Hok Hi Hk. intros c1 [w1 log1] [Hs Hk Hg Hd Ho Hf Hgo Ht He] Hi Hks Hl. cbn [snd] in *. cbn [signalGroup traced_group fst snd].
    destruct (signalGroup pid SIGKILL w1) as [r w2] eqn:Esig.
    assert (exists err, (ctl_err (cs_result c1) <> None -> err <> None) /\
      match r with
      | Ok _ => set_result (MkControlResult (ctl_reason (cs_result c1)) (ctl_initiated (cs_result c1)) true
                                     (ctl_err (cs_result c1))) c1
      | Err e => if is_ESRCH e then c1 else join_err "signal process group KILL: " e c1
      end = set_result (MkControlResult (ctl_reason (cs_result c1)) true (is_Ok r) err) c1) as (err & Herr & Heq).
    { destruct Hs as (kill & term & old & _ & _ & _ & Hesc). rewrite Hks in Hesc. destruct Hesc as [_ Hesc].
      destruct c1 as [[reason ini esc err1] tC gC pC cD lC lO oD kS pR]. cbn in *. subst.
      destruct r as [[]|e]; [by exists err1|]. destruct (is_ESRCH e); [by exists err1|].
      eexists. split; [|reflexivity]. intros _. apply join_not_None. }
    rewrite Heq. intros [= <- <- <-]. split; cbn; rewrite ?Hks; try tauto; try discriminate.
    - eapply order_kill; [exact Hs|done..].
    - split; [by intros [? ?]|by intros [_ ?]].
    - congruence.
    - intros H. specialize (Ht H). congruence.
    - intros H. split; [done|]. unfold clean_end. cbn. destruct (cs_leaderObserved c1) eqn:El; [by left|].
      split; [|by right]. by apply Herr, Hf. }
  destruct (cs_leaderObserved c) eqn:El; [|by apply Hkill].
  destruct (probeGroup pid c w) as [[live c2] w2] eqn:Ep. destruct live; cbn [negb].
  - apply Hkill.
    + by eapply probe_ok.
    + apply probe_inv in Ep as (r & err & p & _ & _ & _ & ->). done.
    + apply probe_inv in Ep as (r & err & p & _ & _ & _ & ->). done.
    + apply probe_inv in Ep as (r & err & p & _ & _ & _ & ->). by rewrite <-El.
  - intros [= <- <- <-]. by eapply probe_end.
Qed.

Lemma event_ok m c w b c' w' :
  control_ok false c w.2 -> ready m c = true -> (cs_pollC c = true -> cs_leaderObserved c = true) ->
  control_event pid defaultGrace m c w = (b, c', w') -> control_ok b c' w'.2.
Proof.
  intros Hok Hready Hpoll. destruct m as [err|grace|deadline| | |]; cbn [control_event].
  - by apply leader_exit_ok.
  - destruct (initiate pid _ c w) as [[ok c2] w2] eqn:Ei. intros [= <- <- <-]. by eapply initiate_ok.
  - destruct (initiate _ _ c w) as [[ok c2] w2] eqn:Ei. intros [= <- <- <-]. apply initiate_ok in Ei; [|done].
    destruct Ei. by split.
  - destruct (initiate _ _ c w) as [[ok c2] w2] eqn:Ei. intros [= <- <- <-]. apply initiate_ok in Ei; [|done].
    destruct Ei. by split.
  - destruct (probeGroup pid c w) as [[live c2] w2] eqn:Ep. intros [= <- <- <-]. destruct live; cbn [negb].
    + by eapply probe_ok.
    + eapply probe_end; [done|by apply Hpoll|done].
  - apply grace_fired_ok; [done|]. unfold ready in Hready. by case_bool_decide.
Qed.
End Invariant.

(** ** Runs of the loop *)

(** What a probe or an [initiate] leaves alone. *)
Record same_wiring (c c' : control_state) : Prop := {
  sw_poll : cs_pollC c' = cs_pollC c;
  sw_context : cs_contextDone c' = cs_contextDone c;
  sw_leader : cs_leaderExitC c' = cs_leaderExitC c;
  sw_observed : cs_leaderObserved c' = cs_leaderObserved c;
  sw_done : cs_observationDone c' = cs_observationDone c;
  sw_kill : cs_killSent c' = cs_killSent c;
  sw_timeout : cs_timeoutC c' = true -> cs_timeoutC c = true
}.

(** The answers so far never said that the group does not exist. *)
Definition term_delivered (log : calls) : Prop :=
  Forall (fun call => match call with Signalled SIGTERM r => refused r = false | _ => True end) log.

Definition message_reason (m : control_message) : option Z :=
  match m with
  | StopRequested _ => Some terminationManual
  | ContextDone deadline => Some (if deadline then terminationTimeout else terminationManual)
  | TimeoutFired => Some terminationTimeout
  | _ => None
  end.

Definition strongest (ms : list control_message) : Z := fold_right Z.max 0%Z (omap message_reason ms).

(** Messages that can come any number of times. *)
Definition repeatable (m : control_message) : bool :=
  match m with StopRequested _ | PollTick => true | _ => false end.

Definition budget (c : control_state) : nat :=
  (Nat.b2n (cs_leaderExitC c) + Nat.b2n (cs_contextDone c) + Nat.b2n (cs_timeoutC c) + Nat.b2n (negb (cs_killSent c)))%nat.

Section Runs.
Context {W : Type} `{!ProcessGroup W}.
Context (pid defaultGrace : Z).
Implicit Types (w : W * calls) (c : control_state).

Lemma probe_wiring c w live c' w' : probeGroup pid c w = (live, c', w') -> same_wiring c c'.
Proof. intros H. apply probe_inv in H as (r & err & p & _ & _ & _ & ->). by split. Qed.

Lemma initiate_wiring request c w ok c' w' : initiate pid request c w = (ok, c', w') -> same_wiring c c'.
Proof.
  intros H. apply initiate_inv in H. cbv zeta in H. destruct (ctl_initiated _).
  - destruct H as (_ & _ & ->). by split.
  - destruct H as (answer & err & _ & _ & _ & ->). destruct (refused answer); by split.
Qed.

Lemma budget_wiring c c' : same_wiring c c' -> (budget c' <= budget c)%nat.
Proof.
  intros [_ Hc Hl _ _ Hk Ht]. unfold budget. rewrite Hc, Hl, Hk. destruct (cs_timeoutC c'); [rewrite Ht by done|]; simpl; lia.
Qed.

Definition poll_ok (c : control_state) : Prop := cs_pollC c = true -> cs_leaderObserved c = true.

Lemma poll_wiring c c' : same_wiring c c' -> poll_ok c -> poll_ok c'.
Proof. unfold poll_ok. by intros [-> _ _ -> _ _ _]. Qed.

Lemma event_poll m c w b c' w' :
  poll_ok c -> control_event pid defaultGrace m c w = (b, c', w') -> poll_ok c'.
Proof.
  intros Hp. destruct m as [err|grace|deadline| | |]; cbn [control_event].
  - unfold leader_exit. destruct err as [e|]; [by intros [= <- <- <-]|]. cbn [cs_killSent set_leader].
    destruct (cs_killSent c); [by intros [= <- <- <-]|].
    destruct (probeGroup _ _ w) as [[live c2] w2] eqn:Ep. apply probe_wiring in Ep.
    assert (poll_ok c2) as H2 by (by apply (poll_wiring _ _ Ep)). assert (cs_leaderObserved c2 = true) as Hl by (by rewrite (sw_observed _ _ Ep)).
    destruct live; cbn [negb]; [|by intros [= <- <- <-]].
    destruct (ctl_initiated (cs_result c2)); cbn [negb]; [intros [= <- <- <-]; intros _; exact Hl|].
    destruct (initiate _ _ c2 w2) as [[ok c3] w3] eqn:Ei. apply initiate_wiring in Ei.
    destruct ok; cbn [negb]; intros [= <- <- <-]; [|by apply (poll_wiring _ _ Ei)].
    intros _. cbn. rewrite (sw_observed _ _ Ei). exact Hl.
  - destruct (initiate _ _ c w) as [[ok c2] w2] eqn:Ei. intros [= <- <- <-]. by apply initiate_wiring, poll_wiring in Ei.
  - destruct (initiate _ _ c w) as [[ok c2] w2] eqn:Ei. intros [= <- <- <-]. by apply initiate_wiring, poll_wiring in Ei.
  - destruct (initiate _ _ c w) as [[ok c2] w2] eqn:Ei. intros [= <- <- <-]. by apply initiate_wiring, poll_wiring in Ei.
  - destruct (probeGroup pid c w) as [[live c2] w2] eqn:Ep. intros [= <- <- <-]. by apply probe_wiring, poll_wiring in Ep.
  - unfold grace_fired.
    destruct (if cs_leaderObserved c then _ else _) as [[live c2] w2] eqn:Ep.
    assert (poll_ok c2) as H2.
    { destruct (cs_leaderObserved c); [by apply probe_wiring, poll_wiring in Ep|by injection Ep as <- <- <-]. }
    destruct live; cbn [negb]; [|by intros [= <- <- <-]]. destruct (signalGroup _ _ w2) as [r w3]. by intros [= <- <- <-].
Qed.

(** When the grace timer fires after the leader's exit, the loop ends. *)
Lemma grace_ends c w b c' w' :
  cs_observationDone c = true -> grace_fired pid c w = (b, c', w') -> b = true.
Proof.
  intros Hd. unfold grace_fired. destruct (if cs_leaderObserved c then _ else _) as [[live c2] w2] eqn:Ep.
  assert (cs_observationDone c2 = true) as H2.
  { destruct (cs_leaderObserved c); [|by injection Ep as <- <- <-]. apply probe_wiring in Ep. by rewrite (sw_done _ _ Ep). }
  destruct live; cbn [negb]; [|by intros [= <- <- <-]]. destruct (signalGroup _ _ w2) as [r w3]. intros [= <- <- <-].
  cbn. destruct r as [[]|e]; [done|]. by destruct (is_ESRCH e).
Qed.

(** Every message that is not repeatable uses up one of the sources, or ends the
    loop. *)
Lemma event_budget m c w b c' w' :
  control_ok false c w.2 -> ready m c = true -> control_event pid defaultGrace m c w = (b, c', w') ->
  (budget c' + (if repeatable m then 0 else 1) <= budget c + (if b then 1 else 0))%nat.
Proof.
  intros Hok Hready. destruct m as [err|grace|deadline| | |]; cbn [control_event repeatable ready] in *.
  - unfold leader_exit.
    assert (budget (set_leader false true true c) + 1 <= budget c)%nat as Hb.
    { unfold budget. cbn. rewrite Hready. simpl. lia. }
    destruct err as [e|]; [intros [= <- <- <-]; unfold budget in *; cbn in *; lia|]. cbn [cs_killSent set_leader].
    destruct (cs_killSent c); [intros [= <- <- <-]; unfold budget in *; cbn in *; lia|].
    destruct (probeGroup _ _ w) as [[live c2] w2] eqn:Ep. apply probe_wiring, budget_wiring in Ep.
    change (budget (set_leader false true true _)) with (budget (set_leader false true true c)) in Ep.
    destruct live; cbn [negb]; [|intros [= <- <- <-]; lia].
    destruct (ctl_initiated (cs_result c2)); cbn [negb]; [intros [= <- <- <-]; unfold budget in *; cbn in *; lia|].
    destruct (initiate _ _ c2 w2) as [[ok c3] w3] eqn:Ei. apply initiate_wiring, budget_wiring in Ei.
    destruct ok; cbn [negb]; intros [= <- <- <-]; unfold budget in *; cbn in *; lia.
  - destruct (initiate _ _ c w) as [[ok c2] w2] eqn:Ei. intros [= <- <- <-]. apply initiate_wiring, budget_wiring in Ei. lia.
  - destruct (initiate _ _ c w) as [[ok c2] w2] eqn:Ei. intros [= <- <- <-]. apply initiate_wiring in Ei.
    pose proof (budget_wiring _ _ Ei) as Hb. unfold budget in *. cbn. rewrite (sw_context _ _ Ei), Hready in *. simpl in *. lia.
  - destruct (initiate _ _ c w) as [[ok c2] w2] eqn:Ei. intros [= <- <- <-]. apply initiate_wiring in Ei.
    destruct Ei as [_ Hc Hl _ _ Hk _]. unfold budget. cbn. rewrite Hc, Hl, Hk, Hready. simpl. lia.
  - destruct (probeGroup pid c w) as [[live c2] w2] eqn:Ep. intros [= <- <- <-]. apply probe_wiring, budget_wiring in Ep. lia.
  - case_bool_decide as Hg; [|done]. destruct (proj1 (co_grace _ _ _ Hok) Hg) as [_ Hk]. unfold grace_fired.
    destruct (if cs_leaderObserved c then _ else _) as [[live c2] w2] eqn:Ep.
    assert (same_wiring c c2) as Hw.
    { destruct (cs_leaderObserved c); [by apply probe_wiring in Ep|injection Ep as <- <- <-; by split]. }
    destruct live; cbn [negb]; [|intros [= <- <- <-]; apply budget_wiring in Hw; lia].
    destruct (signalGroup _ _ w2) as [r w3]. intros [= <- <- <-].
    apply budget_wiring in Hw as Hb. destruct Hw as [_ Hc Hl _ _ Hk2 _]. unfold budget in *.
    assert (forall c3, cs_leaderExitC (set_timers (cs_timeoutC c3) None false (set_killSent true c3)) = cs_leaderExitC c3) by done.
    destruct r as [[]|e]; [|destruct (is_ESRCH e)]; cbn; rewrite Hk2, Hk in *; simpl in *; lia.
Qed.

(** The reason is the strongest one asked for, as long as the host knows the group. *)
Definition reason_ok (ms : list control_message) (c : control_state) (log : calls) : Prop :=
  term_delivered log ->
  ctl_reason (cs_result c) = strongest ms /\ (ctl_initiated (cs_result c) = false -> omap message_reason ms = []).

Lemma probe_reason ms c w live c' w' :
  reason_ok ms c w.2 -> probeGroup pid c w = (live, c', w') -> reason_ok ms c' w'.2.
Proof.
  intros Hr H Hlog. apply probe_inv in H as (r & err & p & _ & Hw & _ & ->). rewrite Hw in Hlog.
  apply Forall_cons in Hlog as [_ Hlog]. by apply Hr.
Qed.

Lemma initiate_reason m ms request c w ok c' w' :
  reason_ok ms c w.2 -> message_reason m = Some (stop_reason request) -> (0 <= stop_reason request)%Z ->
  initiate pid request c w = (ok, c', w') -> reason_ok (m :: ms) c' w'.2.
Proof.
  intros Hr Hm Hpos H Hlog. apply initiate_inv in H. cbv zeta in H. unfold strongest. cbn [omap list_omap]. rewrite Hm.
  destruct (ctl_initiated (cs_result c)) eqn:Ei.
  - destruct H as (_ & -> & ->). destruct (Hr Hlog) as [Hreason _]. cbn -[Z.max]. rewrite Hreason. unfold strongest.
    split; [lia|done].
  - destruct H as (answer & err & Hw & _ & _ & ->). rewrite Hw in Hlog. apply Forall_cons in Hlog as [Ha Hlog].
    destruct (Hr Hlog) as [_ Hnone]. rewrite (Hnone Ei), Ha. cbn -[Z.max]. split; [lia|done].
Qed.

Lemma skip_reason m ms c c' log :
  message_reason m = None -> cs_result c' = cs_result c -> reason_ok ms c log -> reason_ok (m :: ms) c' log.
Proof. unfold reason_ok, strongest. intros Hm Hc. cbn [omap list_omap]. rewrite Hm, Hc. done. Qed.

Lemma err_reason ms c c' log :
  ctl_reason (cs_result c') = ctl_reason (cs_result c) -> ctl_initiated (cs_result c') = ctl_initiated (cs_result c) ->
  reason_ok ms c log -> reason_ok ms c' log.
Proof. unfold reason_ok. by intros -> ->. Qed.

Lemma leader_exit_reason ms err c w b c' w' :
  reason_ok ms c w.2 -> leader_exit pid defaultGrace err c w = (b, c', w') -> reason_ok ms c' w'.2.
Proof.
  intros Hr. unfold leader_exit. destruct err as [e|]; [by intros [= <- <- <-]|]. cbn [cs_killSent set_leader].
  destruct (cs_killSent c); [by intros [= <- <- <-]|].
  destruct (probeGroup _ _ w) as [[live c2] w2] eqn:Ep. apply (probe_reason ms) in Ep as H2; [|done].
  destruct live; cbn [negb]; [|by intros [= <- <- <-]].
  destruct (ctl_initiated (cs_result c2)) eqn:Ei; cbn [negb]; [by intros [= <- <- <-]|].
  destruct (initiate _ _ c2 w2) as [[ok c3] w3] eqn:Hi. apply initiate_inv in Hi. cbv zeta in Hi. rewrite Ei in Hi.
  destruct Hi as (answer & err & Hw & -> & _ & ->). intros H Hlog.
  assert (w' = w3) as -> by (by destruct (refused answer); injection H as <- <- <-). rewrite Hw in Hlog.
  apply Forall_cons in Hlog as [Ha Hlog]. rewrite Ha in H. injection H as <- <-. destruct (H2 Hlog) as [_ Hnone].
  cbn. unfold strongest. rewrite (Hnone Ei). done.
Qed.

Lemma grace_reason ms c w b c' w' :
  reason_ok ms c w.2 -> grace_fired pid c w = (b, c', w') -> reason_ok ms c' w'.2.
Proof.
  intros Hr. unfold grace_fired. destruct (if cs_leaderObserved c then _ else _) as [[live c2] w2] eqn:Ep.
  assert (reason_ok ms c2 w2.2) as H2.
  { destruct (cs_leaderObserved c); [by apply (probe_reason ms) in Ep|by injection Ep as <- <- <-]. }
  destruct live; cbn [negb]; [|by intros [= <- <- <-]]. destruct w2 as [w2 log]. cbn [signalGroup traced_group fst snd].
  destruct (signalGroup _ _ w2) as [r w3]. intros [= <- <- <-] Hlog. apply Forall_cons in Hlog as [_ Hlog].
  destruct r as [[]|e]; [|destruct (is_ESRCH e)]; by apply H2.
Qed.

Lemma event_reason ms m c w b c' w' :
  reason_ok ms c w.2 -> control_event pid defaultGrace m c w = (b, c', w') -> reason_ok (m :: ms) c' w'.2.
Proof.
  intros Hr. destruct m as [err|grace|deadline| | |]; cbn [control_event].
  - intros H. eapply skip_reason; [done|done|]. by eapply leader_exit_reason.
  - destruct (initiate _ _ c w) as [[ok c2] w2] eqn:Ei. intros [= <- <- <-].
    apply (initiate_reason (StopRequested grace) ms) in Ei; [exact Ei|done|done|by vm_compute].
  - destruct (initiate _ _ c w) as [[ok c2] w2] eqn:Ei. intros [= <- <- <-].
    apply (initiate_reason (ContextDone deadline) ms) in Ei; [exact Ei|done|done|destruct deadline; by vm_compute].
  - destruct (initiate _ _ c w) as [[ok c2] w2] eqn:Ei. intros [= <- <- <-].
    apply (initiate_reason TimeoutFired ms) in Ei; [exact Ei|done|done|by vm_compute].
  - destruct (probeGroup pid c w) as [[live c2] w2] eqn:Ep. intros [= <- <- <-].
    eapply skip_reason; [done|done|]. by eapply probe_reason.
  - intros H. eapply skip_reason; [done|done|]. by eapply grace_reason.
Qed.

(** Every state of the loop. *)
Lemma reached_ok timeout (w0 : W) ms b c w :
  reached pid defaultGrace timeout (w0, []) ms b c w ->
  control_ok b c w.2 /\ poll_ok c /\ reason_ok ms c w.2 /\
  (length (List.filter (fun m => negb (repeatable m)) ms) + budget c <= 4 + (if b then 1 else 0))%nat.
Proof.
  induction 1 as [|ms c w m b c' w' Hr (Hok & Hpoll & Hreason & Hbudget) Hready Hev].
  - split; [|split; [done|split; [done|]]].
    + split; try done.
      * exists [], [], []. done.
      * split; [by intros [? ?]|by intros [? ?]].
    + unfold budget. cbn. destruct (timeout >? 0)%Z; simpl; lia.
  - split; [by eapply event_ok|]. split; [by eapply event_poll|]. split; [by eapply event_reason|].
    pose proof (event_budget m c w b c' w' Hok Hready Hev). cbn [List.filter].
    destruct (repeatable m); cbn [negb length] in *; lia.
Qed.
End Runs.

(** ** The processes of [/proc] *)

Lemma after_last_none c t : has_byte c t = false -> after_last c t = None.
Proof.
  induction t as [|x t IH]; [done|]. unfold has_byte in *. cbn. intros H. apply negb_false_iff, andb_true_iff in H as [Hx Ht].
  rewrite IH by (by rewrite Ht). by destruct (ascii_eqb x c).
Qed.

Lemma after_last_app c s t : has_byte c t = false -> after_last c (s +:+ String c t) = Some t.
Proof.
  intros Ht. induction s as [|x s IH].
  - rewrite app_empty_l. cbn [after_last]. by rewrite after_last_none, ascii_eqb_refl.
  - rewrite app_cons. cbn [after_last]. by rewrite IH.
Qed.

(** What the kernel writes to [/proc/<pid>/stat]: the command name in
    parentheses may hold any bytes, also parentheses and spaces. *)
Record process := MkProcess {
  pr_pid : Z; pr_comm : string; pr_state : string; pr_ppid : Z; pr_group : Z; pr_tail : string
}.

Definition stat_text (p : process) : string :=
  Itoa (pr_pid p) +:+ " (" +:+ pr_comm p +:+ String ")" (" " +:+ pr_state p +:+ " " +:+ Itoa (pr_ppid p) +:+ " " +:+
    Itoa (pr_group p) +:+ " " +:+ pr_tail p).

Definition process_ok (p : process) : Prop :=
  in_s64 (pr_pid p) /\ in_s64 (pr_ppid p) /\ in_s64 (pr_group p) /\ pr_state p <> "" /\
  string_forallb plain_char (pr_state p) = true /\ has_byte ")" (pr_state p) = false /\ has_byte ")" (pr_tail p) = false.

Lemma Itoa_no_paren n : (in_s64 n) -> has_byte ")" (Itoa n) = false.
Proof. intros _. by apply Itoa_without. Qed.

Lemma parse_stat_text name p : process_ok p -> parse_stat name (stat_text p) = Ok (pr_state p, pr_group p).
Proof.
  intros (Hpid & Hppid & Hgroup & Hne & Hplain & Hns & Hnt). unfold parse_stat, stat_text.
  set (rest := " " +:+ pr_state p +:+ _).
  assert (has_byte ")" rest = false) as Hr.
  { unfold rest. by rewrite !has_byte_app, Hns, Hnt, !Itoa_no_paren. }
  replace (Itoa (pr_pid p) +:+ " (" +:+ pr_comm p +:+ String ")" rest)
    with ((Itoa (pr_pid p) +:+ " (" +:+ pr_comm p) +:+ String ")" rest) by (by rewrite !app_assoc_str).
  rewrite after_last_app by done.
  assert (exists l, Fields rest = pr_state p :: Itoa (pr_ppid p) :: Itoa (pr_group p) :: l) as [l ->].
  { destruct (Itoa_plain (pr_ppid p) Hppid) as [H1 H2]. destruct (Itoa_plain (pr_group p) Hgroup) as [H3 H4].
    unfold Fields. set (n := String.length (pr_tail p)).
    replace (S (String.length rest))
      with (S (S (String.length (pr_state p) + S (String.length (Itoa (pr_ppid p)) + S (String.length (Itoa (pr_group p)) + S n)))))
      by (unfold rest, n; rewrite !length_app_str; simpl; lia).
    unfold rest.
    rewrite fields_space. cbn [app].
    rewrite (fields_next _ _ _ Hne Hplain), (fields_next _ _ _ H2 H1), (fields_next _ _ _ H4 H3). by eexists. }
  by rewrite Atoi_Itoa.
Qed.

(** An entry of [/proc]: a process, one that vanished, or something else. *)
Inductive proc_entry :=
  | ProcEntry (p : process)
  | GoneEntry (pid : Z)
  | OtherEntry (name : string) (content : result string).

Definition render_entry (e : proc_entry) : string * result string :=
  match e with
  | ProcEntry p => (Itoa (pr_pid p), Ok (stat_text p))
  | GoneEntry pid => (Itoa pid, Err (ErrVar "file does not exist"))
  | OtherEntry name content => (name, content)
  end.

Definition entry_fine (e : proc_entry) : Prop :=
  match e with ProcEntry p => process_ok p | GoneEntry pid => in_s64 pid | OtherEntry name _ => Atoi name = None end.

Definition is_live_member (pgid : Z) (e : proc_entry) : bool :=
  match e with ProcEntry p => (pr_group p =? pgid)%Z && negb (string_eqb (pr_state p) "Z") | _ => false end.

(** ** Properties *)

(** The process table is read right.  Whatever the names of the commands
    (they may hold parentheses, spaces and newlines), [/proc] holds a live
    member of the group exactly when some process is in the group and is not a
    zombie; processes that vanish meanwhile and other entries do not count. *)
Theorem live_member_exact pgid entries :
  Forall entry_fine entries ->
  processGroupHasLiveMember pgid (Ok (map render_entry entries)) = Ok (existsb (is_live_member pgid) entries).
Proof.
  cbn. induction 1 as [|e entries He _ IH]; [done|]. cbn. destruct e as [p|pid|name content]; cbn in *.
  - rewrite Atoi_Itoa by apply He. rewrite parse_stat_text by done. by destruct (_ && _).
  - by rewrite Atoi_Itoa.
  - by rewrite He.
Qed.

(** C10: the signals of a run, on any host and for any messages.  The group gets
    TERM attempts the host answers with no such group, then one accepted TERM,
    then at most one KILL, never a KILL before a TERM; [killEscalated] says
    exactly whether the KILL was delivered. *)
Theorem control_signals {W} `{!ProcessGroup W} pid defaultGrace timeout (w0 : W) ms b c w :
  reached pid defaultGrace timeout (w0, []) ms b c w ->
  exists kill term old,
    signals w.2 = kill ++ term ++ map (Signalled SIGTERM) old /\ Forall (fun r => refused r = true) old /\
    (term = [] /\ kill = [] \/ exists r, term = [Signalled SIGTERM r] /\ refused r = false) /\
    (kill = [] /\ ctl_killEscalated (cs_result c) = false \/
     exists r, kill = [Signalled SIGKILL r] /\ ctl_killEscalated (cs_result c) = is_Ok r).
Proof.
  intros H. destruct (proj1 (reached_ok _ _ _ _ _ _ _ _ H)) as [(kill & term & old & Hs & Ho & Ht & Hk) Hki _ _ _ _ _ _ _].
  exists kill, term, old. split; [done|]. split; [done|].
  destruct (cs_killSent c) eqn:Ek; [rewrite Hki in Ht by done; eauto|]. destruct Hk as [-> ?].
  split; [|by left]. destruct (ctl_initiated (cs_result c)); [eauto|auto].
Qed.

(** C15: the process is reaped only when the group needs no more care.  When
    [control] returns, the leader's exit was observed and then the group was seen
    without a live member, or KILL was sent to it, or the host knew no such
    group; the one other way out is a failed observation of the leader, which is
    reported, after KILL if a termination had begun. *)
Theorem control_returns {W} `{!ProcessGroup W} pid defaultGrace timeout (w0 : W) ms c w :
  reached pid defaultGrace timeout (w0, []) ms true c w ->
  if cs_leaderObserved c then
    (exists r, Signalled SIGKILL r ∈ w.2) \/ head w.2 = Some (Probed (Ok false)) \/
    (exists r, head w.2 = Some (Signalled SIGTERM r) /\ refused r = true)
  else ctl_err (cs_result c) <> None /\
    (ctl_initiated (cs_result c) = false \/ exists r, Signalled SIGKILL r ∈ w.2).
Proof.
  intros H. destruct (proj1 (reached_ok _ _ _ _ _ _ _ _ H)) as [(kill & term & old & Hs & _ & _ & Hk) _ _ _ _ _ _ _ He].
  assert (cs_killSent c = true -> exists r, Signalled SIGKILL r ∈ w.2) as Hkill.
  { intros E. rewrite E in Hk. destruct Hk as (r & -> & _). exists r. apply list_elem_of_In.
    assert (forall l, signals w.2 = l -> In (Signalled SIGKILL r) l -> In (Signalled SIGKILL r) w.2) as Hin.
    { intros l <- Hin. by apply filter_In in Hin as [? _]. }
    apply (Hin _ Hs). by left. }
  destruct (He eq_refl) as [_ Hend]. unfold clean_end in Hend. destruct (cs_leaderObserved c); [naive_solver|].
  destruct Hend as [? [?|?]]; eauto.
Qed.

(** C21: [control] ends.  In every state of the loop the leader's exit is still
    awaited or the grace timer runs; once the leader's exit was reported, the
    grace timer running out ends the loop, whatever the host answers; and only
    stop requests and poll ticks can come more than once, so that at most five
    other messages are ever handled. *)
Theorem control_ends {W} `{!ProcessGroup W} pid defaultGrace timeout (w0 : W) ms b c w :
  reached pid defaultGrace timeout (w0, []) ms b c w ->
  (length (List.filter (fun m => negb (repeatable m)) ms) <= 5)%nat /\
  (b = false ->
     (cs_leaderExitC c = true \/ is_Some (cs_graceC c)) /\
     (cs_leaderExitC c = false -> ready GraceFired c = true /\
        forall b' c' w', control_event pid defaultGrace GraceFired c w = (b', c', w') -> b' = true)).
Proof.
  intros H. destruct (reached_ok _ _ _ _ _ _ _ _ H) as (Hok & _ & _ & Hb). split; [destruct b; lia|]. intros ->.
  destruct Hok as [_ _ Hg Hd _ _ Hgo _ _].
  assert (cs_leaderExitC c = false -> cs_observationDone c = true /\ is_Some (cs_graceC c)) as Hlast.
  { intros E. rewrite E in Hd. symmetry in Hd. apply negb_false_iff in Hd. split; [done|]. by apply Hg, Hgo. }
  split; [destruct (cs_leaderExitC c); [by left|right; by apply Hlast]|].
  intros E. destruct (Hlast E) as [Hdone Hgrace]. split; [by apply bool_decide_eq_true|].
  intros b' c' w' Hev. by eapply grace_ends.
Qed.

(** A stop, or a cancellation that is not a deadline. *)
Definition manual (m : control_message) : bool :=
  match m with StopRequested _ | ContextDone false => true | _ => false end.
Definition timed (m : control_message) : bool :=
  match m with TimeoutFired | ContextDone true => true | _ => false end.

Lemma strongest_spec ms :
  strongest ms = if existsb manual ms then terminationManual else if existsb timed ms then terminationTimeout else 0%Z.
Proof.
  unfold strongest. induction ms as [|m ms IH]; [done|].
  destruct m as [err|grace|[]| | |]; cbn -[Z.max]; rewrite ?IH; try done;
    destruct (existsb manual ms), (existsb timed ms); by vm_compute.
Qed.

Lemma no_reason ms : omap message_reason ms = [] -> existsb manual ms = false /\ existsb timed ms = false.
Proof.
  induction ms as [|m ms IH]; [done|]. cbn. destruct m as [err|grace|[]| | |]; cbn; try done; exact IH.
Qed.

(** The status of a run.  When the host did not answer TERM with no such
    group, a run is killed exactly when it was stopped or cancelled while
    [control] ran, else timed out exactly when a timeout or a deadline was
    handled, and otherwise it succeeded or failed by its exit code, also when
    the leader left processes behind that had to be terminated. *)
Theorem reap_status {W} `{!ProcessGroup W} pid defaultGrace timeout (w0 : W) ms c w waitErr exitCode logs :
  reached pid defaultGrace timeout (w0, []) ms true c w -> term_delivered w.2 ->
  Result_Status (reap (cs_result c) waitErr exitCode logs) =
    if existsb manual ms then RunKilled else if existsb timed ms then RunTimedOut
    else if (exitCode =? 0)%Z then RunSucceeded else RunFailed.
Proof.
  intros H Hlog. destruct (reached_ok _ _ _ _ _ _ _ _ H) as (_ & _ & Hreason & _).
  destruct (Hreason Hlog) as [Hr Hnone]. cbn. rewrite Hr, strongest_spec.
  destruct (ctl_initiated (cs_result c)).
  - destruct (existsb manual ms), (existsb timed ms); done.
  - destruct (no_reason ms (Hnone eq_refl)) as [-> ->]. done.
Qed.

(** ** Witnesses *)

(** A host where TERM is ignored: the group has a live member until KILL. *)
#[export] Instance demo_group : ProcessGroup bool := {|
  signalGroup _ s alive := (Ok tt, match s with SIGTERM => alive | SIGKILL => false end);
  groupHasLiveMember _ alive := (Ok alive, alive)
|}.

Definition demo_event (m : control_message) (s : bool * control_state * (bool * calls)) : bool * control_state * (bool * calls) :=
  control_event 42 10 m s.1.2 s.2.
Definition demo_0 : bool * control_state * (bool * calls) := (false, control_start 60, (true, [])).
Definition demo_1 : bool * control_state * (bool * calls) := demo_event TimeoutFired demo_0.
Definition demo_2 : bool * control_state * (bool * calls) := demo_event (LeaderExit None) demo_1.
Definition demo_3 : bool * control_state * (bool * calls) := demo_event GraceFired demo_2.

Lemma demo_reached_2 :
  reached 42 10 60 (true, []) [LeaderExit None; TimeoutFired] false demo_2.1.2 demo_2.2.
Proof.
  apply (reached_event 42 10 60 (true, []) [TimeoutFired] demo_1.1.2 demo_1.2); [|reflexivity|reflexivity].
  apply (reached_event 42 10 60 (true, []) [] demo_0.1.2 demo_0.2); [apply reached_start|reflexivity|reflexivity].
Qed.

Lemma demo_reached_3 :
  reached 42 10 60 (true, []) [GraceFired; LeaderExit None; TimeoutFired] true demo_3.1.2 demo_3.2.
Proof.
  apply (reached_event 42 10 60 (true, []) [LeaderExit None; TimeoutFired] demo_2.1.2 demo_2.2);
    [apply demo_reached_2|reflexivity|reflexivity].
Qed.

Lemma control_signals_witness :
  signals demo_3.2.2 = [Signalled SIGKILL (Ok tt); Signalled SIGTERM (Ok tt)] /\
  exists kill term old, signals demo_3.2.2 = kill ++ term ++ map (Signalled SIGTERM) old.
Proof.
  split; [reflexivity|]. destruct (control_signals _ _ _ _ _ _ _ _ demo_reached_3) as (kill & term & old & H & _). eauto.
Defined.

Lemma control_returns_witness :
  cs_leaderObserved demo_3.1.2 = true /\
  if cs_leaderObserved demo_3.1.2 then
    (exists r, Signalled SIGKILL r ∈ demo_3.2.2) \/ head demo_3.2.2 = Some (Probed (Ok false)) \/
    (exists r, head demo_3.2.2 = Some (Signalled SIGTERM r) /\ refused r = true)
  else True.
Proof. split; [reflexivity|]. exact (control_returns _ _ _ _ _ _ _ demo_reached_3). Defined.

Lemma control_ends_witness : (length [GraceFired; LeaderExit None; TimeoutFired] <= 5)%nat /\ demo_3.1.1 = true.
Proof. split; [exact (proj1 (control_ends _ _ _ _ _ _ _ _ demo_reached_3))|reflexivity]. Defined.

Lemma reap_status_witness :
  Result_Status (reap (cs_result demo_3.1.2) None (-1) (MkLogStreamResult None 0)) = RunTimedOut.
Proof.
  rewrite (reap_status _ _ _ _ _ _ _ None (-1) (MkLogStreamResult None 0) demo_reached_3); [reflexivity|].
  repeat constructor.
Defined.

Definition demo_process : process := MkProcess 7 "a) Z (b" "S" 1 42 "0 0".

Lemma live_member_exact_witness :
  processGroupHasLiveMember 42 (Ok (map render_entry [OtherEntry "self" (Ok ""); GoneEntry 3; ProcEntry demo_process])) = Ok true.
Proof.
  apply (live_member_exact 42 [OtherEntry "self" (Ok ""); GoneEntry 3; ProcEntry demo_process]).
  repeat constructor; vm_compute; (discriminate || reflexivity).
Defined.
