(* ===== verification/LogStream.v ===== *)
(** * The log stream of a run ([host_executor.go]: [LogSink],
    [streamExecutionLogs], [executionLineSplitter])

    The wrapper's output comes from a pipe in pieces of any size; the stream cuts
    it into lines and offers each one to a bounded channel without ever waiting.
    [bufio.Scanner] is the standard library's loop, written out for the one
    split function it is used with. *)

From S2P Require Import Prelude GoStrings Model LogBuffer HostCommand Capabilities ExecutionPlan.
From S2P Require Import RunService HostExecutor.

(** ** Splitting *)

(** The data up to the first CR or LF, that byte, and the data after it. *)
Fixpoint line_end (data : string) : option (string * ascii * string) :=
  match data with
  | EmptyString => None
  | String c r =>
      if ascii_eqb c LF || ascii_eqb c CR then Some (EmptyString, c, r)
      else match line_end r with Some (line, t, rest) => Some (String c line, t, rest) | None => None end
  end.

(** The closure of [executionLineSplitter]: its variable [skipLF], the data and
    [atEOF] give the advance, the token and the new [skipLF]. *)
Definition split_line (skipLF : bool) (data : string) (atEOF : bool) : nat * option string * bool :=
  match line_end data with
  | Some (line, t, rest) =>
      let advance := S (String.length line) in
      if ascii_eqb t CR then
        match rest with
        | String d _ => if ascii_eqb d LF then (S advance, Some line, skipLF) else (advance, Some line, skipLF)
        | EmptyString => if negb atEOF then (advance, Some line, true) else (advance, Some line, skipLF)
        end
      else (advance, Some line, skipLF)
  | None =>
      if atEOF && negb (string_eqb data "") then (String.length data, Some data, skipLF) else (0%nat, None, skipLF)
  end.

Definition executionLineSplitter (skipLF : bool) (data : string) (atEOF : bool) : nat * option string * bool :=
  match data with
  | String c _ =>
      if skipLF then if ascii_eqb c LF then (1%nat, None, false) else split_line false data atEOF
      else split_line skipLF data atEOF
  | EmptyString => split_line skipLF data atEOF
  end.

(** ** Scanning *)

Definition ErrTooLong : goerror := ErrVar "bufio.Scanner: token too long".

(** [Scanner.Scan] until it returns false: the tokens and [Err].  [buf] is the
    unread part of the buffer, [reads] what the pipe will give; a read fills at
    most the room that is left below [limit]. *)
Fixpoint scan (fuel limit : nat) (skipLF : bool) (buf : string) (eof : bool) (reads : list string) :
    list string * option goerror :=
  match fuel with
  | O => ([], None)
  | S fuel =>
      let '(advance, token, skipLF) :=
        if negb (string_eqb buf "") || eof then executionLineSplitter skipLF buf eof else (0%nat, None, skipLF) in
      let buf := drop_str advance buf in
      match token with
      | Some line => let '(lines, err) := scan fuel limit skipLF buf eof reads in (line :: lines, err)
      | None =>
          if eof then ([], None)
          else if (limit <=? String.length buf)%nat then ([], Some ErrTooLong)
          else match reads with
          | [] => scan fuel limit skipLF buf true []
          | piece :: reads =>
              let room := (limit - String.length buf)%nat in
              scan fuel limit skipLF (buf +:+ take_str room piece) false
                (if string_eqb (drop_str room piece) "" then reads else drop_str room piece :: reads)
          end
      end
  end.

Definition total_length (reads : list string) : nat := list_sum (map String.length reads).

(** Every round takes a byte out of the buffer, moves one into it, drops an
    empty read or sees the end. *)
Definition scan_fuel (buf : string) (reads : list string) : nat :=
  String.length buf + 2 * total_length reads + 2 * length reads + 2.

Definition scan_limit : nat := Z.to_nat (MaxExecutionLogLineBytes + 1).

Definition scan_all (reads : list string) : list string * option goerror :=
  scan (scan_fuel EmptyString reads) scan_limit false EmptyString false reads.

(** ** The sink *)

(** The state behind a [LogSink]; [None] is the zero sink.  The channel holds
    the records a consumer has not received yet, oldest first. *)
Record logSinkState := MkLogSinkState { sink_capacity : nat; sink_lines : list string; sink_reserved : bool }.
Definition LogSink : Type := option logSinkState.

Definition NewLogSink (maxLines : Z) : LogSink := Some (MkLogSinkState (Z.to_nat maxLines) [] false).

(** [CompareAndSwap(false, true)] *)
Definition sink_reserve (s : LogSink) : bool * LogSink :=
  match s with
  | None => (true, None)
  | Some st => (negb (sink_reserved st), Some (MkLogSinkState (sink_capacity st) (sink_lines st) true))
  end.

Definition sink_release (s : LogSink) : LogSink :=
  match s with None => None | Some st => Some (MkLogSinkState (sink_capacity st) (sink_lines st) false) end.

(** What a consumer does between two offers: it receives [n] records. *)
Definition sink_receive (n : nat) (s : LogSink) : LogSink :=
  match s with None => None | Some st => Some (MkLogSinkState (sink_capacity st) (drop n (sink_lines st)) (sink_reserved st)) end.

(** The non-blocking send: a record that does not fit is dropped and counted; a
    send on the nil channel of the zero sink never succeeds. *)
Definition sink_offer (line : string) (s : LogSink) : bool * LogSink :=
  match s with
  | None => (false, None)
  | Some st =>
      if (length (sink_lines st) <? sink_capacity st)%nat
      then (true, Some (MkLogSinkState (sink_capacity st) (sink_lines st ++ [line]) (sink_reserved st)))
      else (false, s)
  end.

(** The lines are offered in order; before each one the consumer receives some
    records.  The result: what was accepted, and how many were dropped. *)
Fixpoint offer_all (consumer : list nat) (lines : list string) (s : LogSink) : list string * Z * LogSink :=
  match lines with
  | [] => ([], 0%Z, s)
  | line :: lines =>
      let s := sink_receive (default 0%nat (head consumer)) s in
      let '(ok, s) := sink_offer line s in
      let '(accepted, dropped, s) := offer_all (tail consumer) lines s in
      if ok then (line :: accepted, dropped, s) else (accepted, (dropped + 1)%Z, s)
  end.

Definition stream_error (e : goerror) : goerror :=
  ErrWrap ("scan execution log (maximum line " +:+ Itoa MaxExecutionLogLineBytes +:+ " bytes): ") e "".

(** [streamExecutionLogs]: what the consumer is sent, and the result. [drainErr]
    is the answer of discarding the rest of the pipe. *)
Definition streamExecutionLogs (reads : list string) (drainErr : option goerror) (consumer : list nat) (s : LogSink) :
    list string * logStreamResult * LogSink :=
  let '(lines, err) := scan_all reads in
  let records := map (fun line => line +:+ newline) lines in
  match err with
  | None => let '(accepted, dropped, s) := offer_all consumer records s in (accepted, MkLogStreamResult None dropped, s)
  | Some e =>
      let e := stream_error e in
      let records := records ++ ["[syncbridge] log stream error: " +:+ error_text e +:+ newline] in
      let '(accepted, dropped, s) := offer_all consumer records s in
      let e := match drainErr with
               | None => Some e
               | Some d => errors_Join [Some e; Some (ErrWrap "drain execution log: " d "")]
               end in
      (accepted, MkLogStreamResult e dropped, s)
  end.

(** ** What the stream promises *)

(** The lines of a text up to the first one that is too long. *)
Fixpoint fitting (limit : nat) (lines : list string) : list string * option goerror :=
  match lines with
  | [] => ([], None)
  | line :: lines =>
      if (String.length line <? limit)%nat then let '(l, e) := fitting limit lines in (line :: l, e)
      else ([], Some ErrTooLong)
  end.

Definition concat_str (reads : list string) : string := fold_right String.append EmptyString reads.
