(* ===== verification/LogStreamProofs.v ===== *)
(** * The log stream delivers the lines of the output

    Whatever the sizes of the reads, the scanner finds the same lines the log
    buffer would, up to the first one that is too long; the offers to the
    channel never block, keep the order and lose nothing uncounted. *)

From S2P Require Import Prelude GoStrings Model LogBuffer HostCommand Capabilities ExecutionPlan.
From S2P Require Import RunService HostExecutor LogStream.

(** ** Lines *)

Definition eol (c : ascii) : bool := ascii_eqb c LF || ascii_eqb c CR.
Definition one_line (s : string) : Prop := string_forallb (fun c => negb (eol c)) s = true.

Lemma line_end_Some data line t rest :
  line_end data = Some (line, t, rest) -> data = line +:+ String t rest /\ one_line line /\ eol t = true.
Proof.
  revert line. induction data as [|c data IH]; intros line; [done|]. cbn [line_end]. destruct (_ || _) eqn:E.
  - by intros [= <- <- <-].
  - destruct (line_end data) as [[[l t'] rest']|]; [|done]. intros [= <- -> ->].
    destruct (IH _ eq_refl) as (-> & Hl & Ht). split; [done|]. split; [|done]. unfold one_line in *. cbn. unfold eol at 1. by rewrite E.
Qed.

Lemma line_end_None data : line_end data = None -> one_line data.
Proof.
  induction data as [|c data IH]; [done|]. cbn [line_end]. destruct (_ || _) eqn:E; [done|].
  destruct (line_end data) as [[[? ?] ?]|]; [done|]. intros _. unfold one_line in *. cbn. unfold eol at 1. rewrite E. by apply IH.
Qed.

Lemma lines_plain line x cur : one_line line -> lines_of (line +:+ x) false cur = lines_of x false (rev_string line cur).
Proof.
  revert cur. induction line as [|c line IH]; intros cur Hl; [done|].
  unfold one_line in Hl. cbn in Hl. apply andb_true_iff in Hl as [Hc Hl]. apply negb_true_iff, orb_false_iff in Hc as [H1 H2].
  rewrite app_cons. cbn [lines_of andb]. rewrite H1, H2. by apply IH.
Qed.

Lemma rev_twice s : rev_string (rev_string s "") "" = s.
Proof. rewrite rev_string_rev. cbn [rev_string]. apply app_empty_r. Qed.

(** A finished line comes first. *)
Lemma lines_first line t rest :
  one_line line -> eol t = true -> lines_of (line +:+ String t rest) false "" = line :: lines_of rest (ascii_eqb t CR) "".
Proof.
  intros Hl Ht. rewrite lines_plain by done. cbn [lines_of andb]. unfold eol in Ht.
  destruct (ascii_eqb t LF) eqn:E1.
  - rewrite rev_twice. apply ascii_eqb_true in E1 as ->. done.
  - simpl in Ht. rewrite Ht. by rewrite rev_twice.
Qed.

Lemma lines_last line : one_line line -> line <> "" -> lines_of line false "" = [line].
Proof.
  intros Hl Hne. rewrite <-(app_empty_r line) at 1. rewrite lines_plain by done. cbn [lines_of].
  pose proof (rev_twice line) as Hr. destruct (rev_string line "") as [|c s]; [by simpl in Hr; congruence|]. by rewrite Hr.
Qed.

(** An unfinished line is the beginning of the first one. *)
Lemma lines_grow cur x : cur <> "" -> exists l ls, lines_of x false cur = (rev_string cur "" +:+ l) :: ls.
Proof.
  revert cur. induction x as [|c x IH]; intros cur Hne.
  - cbn [lines_of]. destruct cur; [done|]. exists "", []. by rewrite app_empty_r.
  - cbn [lines_of andb]. destruct (ascii_eqb c LF); [by exists "", (lines_of x false ""); rewrite app_empty_r|].
    destruct (ascii_eqb c CR); [by exists "", (lines_of x true ""); rewrite app_empty_r|].
    destruct (IH (String c cur)) as (l & ls & ->); [done|]. exists (String c l), ls.
    change (rev_string (String c cur) "") with (rev_string cur (String c "")).
    by rewrite (rev_string_acc cur (String c "")), app_assoc_str.
Qed.

Lemma lines_skip_other c x : ascii_eqb c LF = false -> lines_of (String c x) true "" = lines_of (String c x) false "".
Proof. intros H. cbn [lines_of]. by rewrite H. Qed.

Lemma fitting_cons limit line lines :
  (String.length line < limit)%nat ->
  fitting limit (line :: lines) = (line :: (fitting limit lines).1, (fitting limit lines).2).
Proof. intros H. cbn [fitting]. apply Nat.ltb_lt in H. rewrite H. by destruct (fitting limit lines). Qed.

(** ** Reads *)

Lemma take_drop_str n s : take_str n s +:+ drop_str n s = s.
Proof. revert n. induction s as [|c s IH]; intros [|n]; try done. cbn [take_str drop_str]. rewrite app_cons. by rewrite IH. Qed.

Lemma length_take_str n s : String.length (take_str n s) = Nat.min n (String.length s).
Proof. revert n. induction s as [|c s IH]; intros [|n]; try done. cbn [take_str String.length]. rewrite IH. lia. Qed.

Definition rest_reads (room : nat) (piece : string) (reads : list string) : list string :=
  if string_eqb (drop_str room piece) "" then reads else drop_str room piece :: reads.

Lemma rest_concat room piece reads :
  take_str room piece +:+ concat_str (rest_reads room piece reads) = concat_str (piece :: reads).
Proof.
  assert (take_str room piece +:+ (drop_str room piece +:+ concat_str reads) = concat_str (piece :: reads)) as H.
  { rewrite <-app_assoc_str, take_drop_str. done. }
  unfold rest_reads. destruct (string_eqb _ _) eqn:E; [|exact H]. apply string_eqb_true in E. by rewrite E in H.
Qed.

Definition scan_measure (buf : string) (eof : bool) (reads : list string) : nat :=
  String.length buf + 2 * total_length reads + 2 * length reads + (if eof then 0 else 1).

Lemma rest_measure room buf piece reads :
  (0 < room)%nat ->
  (scan_measure (buf +:+ take_str room piece) false (rest_reads room piece reads) < scan_measure buf false (piece :: reads))%nat.
Proof.
  intros Hroom. unfold scan_measure, rest_reads, total_length. rewrite length_app_str.
  pose proof (f_equal String.length (take_drop_str room piece)) as Hl. rewrite length_app_str in Hl.
  pose proof (length_take_str room piece) as Ht.
  destruct (string_eqb _ _) eqn:E.
  - apply string_eqb_true in E. rewrite E in Hl. cbn [String.length map list_sum fold_right length] in *.
    unfold list_sum. simpl. lia.
  - apply string_eqb_false in E. unfold list_sum. simpl.
    destruct (drop_str room piece) as [|c s] eqn:Ed; [done|]. simpl in *. lia.
Qed.

(** ** The scanner *)

Section Scan.
Context (limit : nat) (Hlimit : (0 < limit)%nat).

Definition scans (fuel : nat) : Prop := forall skipLF buf eof reads,
  (String.length buf <= limit)%nat ->
  (eof = true -> reads = [] /\ (String.length buf < limit)%nat /\ (skipLF = true -> buf = "")) ->
  (scan_measure buf eof reads < fuel)%nat ->
  scan fuel limit skipLF buf eof reads = fitting limit (lines_of (buf +:+ concat_str reads) skipLF "").

(** What the loop does when it has to read. *)
Definition more (fuel : nat) (skipLF : bool) (buf : string) (reads : list string) : list string * option goerror :=
  match reads with
  | [] => scan fuel limit skipLF buf true []
  | piece :: reads =>
      let room := (limit - String.length buf)%nat in
      scan fuel limit skipLF (buf +:+ take_str room piece) false (rest_reads room piece reads)
  end.

Lemma scan_more fuel skipLF buf reads :
  scans fuel -> (String.length buf < limit)%nat -> (skipLF = true -> buf = "") ->
  (scan_measure buf false reads <= fuel)%nat ->
  more fuel skipLF buf reads = fitting limit (lines_of (buf +:+ concat_str reads) skipLF "").
Proof.
  intros IH Hlen Hskip Hm. unfold more. destruct reads as [|piece reads].
  - apply IH; [lia|done|]. unfold scan_measure in *. simpl in *. lia.
  - set (room := (limit - String.length buf)%nat). assert (0 < room)%nat as Hroom by (unfold room; lia).
    pose proof (rest_measure room buf piece reads Hroom).
    rewrite IH; [|rewrite length_app_str, length_take_str; unfold room; lia|done|lia].
    by rewrite app_assoc_str, rest_concat.
Qed.

Lemma scan_token fuel skipLF buf eof reads line skipLF' :
  scans fuel -> (String.length line < limit)%nat -> (String.length buf <= limit)%nat ->
  (eof = true -> reads = [] /\ (String.length buf < limit)%nat /\ (skipLF = true -> buf = "")) ->
  (scan_measure buf eof reads < fuel)%nat -> skipLF = skipLF' ->
  (let '(lines, err) := scan fuel limit skipLF buf eof reads in (line :: lines, err)) =
    fitting limit (line :: lines_of (buf +:+ concat_str reads) skipLF' "").
Proof.
  intros IH Hl Hb He Hm <-. rewrite (IH skipLF buf eof reads Hb He Hm), fitting_cons by done. by destruct (fitting _ _).
Qed.

Lemma split_false data atEOF : data <> "" -> executionLineSplitter false data atEOF = split_line false data atEOF.
Proof. by destruct data. Qed.

(** One round on a non-empty buffer whose first byte is not to be skipped. *)
Lemma scan_round fuel buf eof reads :
  scans fuel -> buf <> "" -> (String.length buf <= limit)%nat ->
  (eof = true -> reads = [] /\ (String.length buf < limit)%nat) ->
  (scan_measure buf eof reads <= fuel)%nat ->
  (let '(advance, token, skipLF) := split_line false buf eof in
   let buf := drop_str advance buf in
   match token with
   | Some line => let '(lines, err) := scan fuel limit skipLF buf eof reads in (line :: lines, err)
   | None => if eof then ([], None) else if (limit <=? String.length buf)%nat then ([], Some ErrTooLong) else more fuel skipLF buf reads
   end) = fitting limit (lines_of (buf +:+ concat_str reads) false "").
Proof.
  intros IH Hne Hb He Hm. unfold split_line. destruct (line_end buf) as [[[line t] rest]|] eqn:El.
  - apply line_end_Some in El as (-> & Hl & Ht). rewrite length_app_str in Hb. simpl in Hb.
    assert (forall n, drop_str (S (String.length line + n)) (line +:+ String t rest) = drop_str n rest) as Hdrop.
    { intros n. clear. induction line as [|c line IHl]; [done|]. exact IHl. }
    rewrite app_assoc_str. cbn [String.append]. change (String t rest +:+ ?x) with (String t (rest +:+ x)).
    assert (forall k skipLF, (k <= String.length rest)%nat -> (skipLF = true -> drop_str k rest = "" /\ eof = false) ->
      lines_of (rest +:+ concat_str reads) (ascii_eqb t CR) "" = lines_of (drop_str k rest +:+ concat_str reads) skipLF "" ->
      (let '(lines, err) := scan fuel limit skipLF (drop_str k rest) eof reads in (line :: lines, err)) =
        fitting limit (lines_of (line +:+ String t (rest +:+ concat_str reads)) false "")) as Htok.
    { intros k skipLF Hk Hskip Heq. rewrite lines_first, Heq by done.
      assert (String.length (drop_str k rest) <= String.length rest)%nat as Hd.
      { rewrite <-(take_drop_str k rest) at 2. rewrite length_app_str. lia. }
      apply scan_token; try done; try lia.
      - intros E. destruct (He E) as [-> Hlt]. rewrite length_app_str in Hlt. simpl in Hlt.
        split; [done|]. split; [lia|]. intros Hs. by apply Hskip.
      - unfold scan_measure in *. rewrite length_app_str in Hm. simpl in Hm. lia. }
    destruct (ascii_eqb t CR) eqn:Et.
    + destruct rest as [|d rest].
      * destruct eof; cbn [negb]; replace (S (String.length line)) with (S (String.length line + 0)) by lia;
          rewrite Hdrop; apply Htok; try done. destruct (He eq_refl) as [-> _]. done.
      * destruct (ascii_eqb d LF) eqn:Ed.
        -- replace (S (S (String.length line))) with (S (String.length line + 1)) by lia. rewrite Hdrop.
           apply Htok; [simpl; lia|done|]. cbn [String.append lines_of]. change (String d rest +:+ ?x) with (String d (rest +:+ x)).
           cbn [lines_of drop_str]. by rewrite Ed.
        -- replace (S (String.length line)) with (S (String.length line + 0)) by lia. rewrite Hdrop.
           apply Htok; [lia|done|]. cbn [drop_str]. change (String d rest +:+ ?x) with (String d (rest +:+ x)).
           by rewrite lines_skip_other.
    + replace (S (String.length line)) with (S (String.length line + 0)) by lia. rewrite Hdrop. apply Htok; [lia|done|done].
  - apply line_end_None in El. destruct eof.
    + destruct (He eq_refl) as [-> Hlt]. apply string_eqb_false in Hne as Hne'. rewrite Hne'. cbn [andb negb concat_str fold_right].
      rewrite app_empty_r, lines_last by done.
      assert (drop_str (String.length buf) buf = "") as -> by (clear; induction buf; [done|exact IHbuf]).
      destruct fuel as [|fuel]; [unfold scan_measure in Hm; destruct buf; [done|simpl in Hm; lia]|].
      rewrite (IH false "" true []); [|simpl; lia|split; [done|split; [simpl; lia|done]]|].
      * cbn [concat_str fold_right lines_of fitting]. apply Nat.ltb_lt in Hlt. by rewrite Hlt.
      * unfold scan_measure in *. simpl in *. destruct buf; [done|simpl in Hm; lia].
    + cbn [andb drop_str]. destruct (limit <=? String.length buf)%nat eqn:E.
      * apply Nat.leb_le in E. rewrite lines_plain by done.
        destruct (lines_grow (rev_string buf "") (concat_str reads)) as (l & ls & ->).
        { intros Hr. pose proof (rev_twice buf) as H2. rewrite Hr in H2. simpl in H2. congruence. }
        rewrite rev_twice. cbn [fitting]. rewrite length_app_str.
        assert (String.length buf + String.length l <? limit = false)%nat as -> by (apply Nat.ltb_ge; lia). done.
      * apply Nat.leb_gt in E. by apply scan_more.
Qed.

Lemma scan_correct fuel : scans fuel.
Proof.
  induction fuel as [|fuel IH]; intros skipLF buf eof reads Hb He Hm; [lia|]. cbn [scan].
  change (scan fuel limit) with (scan fuel limit).
  destruct buf as [|c buf].
  - cbn [string_eqb negb orb]. rewrite string_eqb_refl. cbn [negb orb]. destruct eof.
    + destruct (He eq_refl) as (-> & _). cbn. by destruct skipLF.
    + cbn [drop_str]. assert (limit <=? String.length "" = false)%nat as -> by (apply Nat.leb_gt; simpl; lia).
      apply (scan_more fuel skipLF "" reads); [done|simpl; lia|done|]. unfold scan_measure in *. simpl in *. lia.
  - assert (string_eqb (String c buf) "" = false) as -> by (by apply string_eqb_false). cbn [negb orb].
    destruct skipLF.
    + destruct eof; [destruct (He eq_refl) as (_ & _ & Hs); discriminate (Hs eq_refl)|]. cbn [executionLineSplitter].
      destruct (ascii_eqb c LF) eqn:Ec.
      * cbn [drop_str]. simpl in Hb. assert (limit <=? String.length buf = false)%nat as -> by (apply Nat.leb_gt; lia).
        change (String c buf +:+ ?x) with (String c (buf +:+ x)). cbn [lines_of andb]. rewrite Ec.
        apply (scan_more fuel false buf reads); [done|lia|done|]. unfold scan_measure in *. simpl in *. lia.
      * change (String c buf +:+ ?x) with (String c (buf +:+ x)). rewrite lines_skip_other by done.
        apply (scan_round fuel (String c buf) false reads); [done|done|done|done|lia].
    + rewrite split_false by done. apply scan_round; [done|done|done| |lia]. intros E. by destruct (He E) as (? & ? & _).
Qed.
End Scan.

(** ** The sink *)

(** A channel never holds more than its capacity. *)
Definition sink_ok (s : LogSink) : Prop :=
  match s with None => True | Some st => (length (sink_lines st) <= sink_capacity st)%nat end.

(** The room left in a channel. *)
Definition sink_room (s : LogSink) : nat :=
  match s with None => 0 | Some st => sink_capacity st - length (sink_lines st) end.

Lemma receive_ok n s : sink_ok s -> sink_ok (sink_receive n s) /\ (sink_room s <= sink_room (sink_receive n s))%nat.
Proof. destruct s as [st|]; [|done]. simpl. rewrite length_drop. lia. Qed.

Lemma offer_ok line s ok s' :
  sink_ok s -> sink_offer line s = (ok, s') ->
  sink_ok s' /\ ((0 < sink_room s)%nat -> ok = true) /\ (sink_room s <= sink_room s' + 1)%nat.
Proof.
  unfold sink_offer. destruct s as [st|]; [|by intros _ [= <- <-]; simpl; lia]. simpl. intros Hs.
  destruct (_ <? _)%nat eqn:E; intros [= <- <-]; simpl; rewrite ?length_app; simpl.
  - apply Nat.ltb_lt in E. split_and!; [lia|done|lia].
  - apply Nat.ltb_ge in E. split_and!; [done|lia|lia].
Qed.

Lemma offer_all_spec lines : forall consumer s accepted dropped s',
  sink_ok s -> offer_all consumer lines s = (accepted, dropped, s') ->
  sublist accepted lines /\ (Z.of_nat (length accepted) + dropped = Z.of_nat (length lines))%Z /\ sink_ok s' /\
  ((length lines <= sink_room s)%nat -> accepted = lines).
Proof.
  induction lines as [|line lines IH]; intros consumer s accepted dropped s' Hs.
  { intros [= <- <- <-]. split_and!; done. }
  cbn [offer_all]. destruct (receive_ok (default 0%nat (head consumer)) s Hs) as [Hr Hroom].
  destruct (sink_offer line _) as [ok s2] eqn:E. destruct (offer_ok _ _ _ _ Hr E) as (Hs2 & Hfit & Hroom2).
  destruct (offer_all (tail consumer) lines s2) as [[acc d] s3] eqn:Er.
  destruct (IH _ _ _ _ _ Hs2 Er) as (Hsub & Hd & Hs3 & Hall).
  destruct ok; intros [= <- <- <-]; simpl.
  - split_and!; [by constructor|lia|done|]. intros Hl. f_equal. apply Hall. lia.
  - split_and!; [by constructor|lia|done|]. intros Hl. assert (false = true) by (apply Hfit; lia). done.
Qed.

(** What the stream has to deliver for a text. *)
Definition log_records (text : string) : list string :=
  let '(lines, err) := fitting scan_limit (lines_of text false "") in
  map (fun line => line +:+ newline) lines ++
  match err with
  | None => []
  | Some e => ["[syncbridge] log stream error: " +:+ error_text (stream_error e) +:+ newline]
  end.

Lemma scan_limit_pos : (0 < scan_limit)%nat.
Proof. unfold scan_limit, MaxExecutionLogLineBytes. lia. Qed.

Lemma scan_all_lines reads : scan_all reads = fitting scan_limit (lines_of (concat_str reads) false "").
Proof.
  unfold scan_all. rewrite (scan_correct scan_limit scan_limit_pos (scan_fuel "" reads) false "" false reads);
    [by rewrite app_empty_l|simpl; lia|done|].
  unfold scan_measure, scan_fuel. lia.
Qed.

Lemma fitting_None limit lines :
  (fitting limit lines).2 = None <-> Forall (fun line => String.length line < limit)%nat lines.
Proof.
  induction lines as [|line lines IH]; [done|]. cbn [fitting]. destruct (_ <? _)%nat eqn:E.
  - apply Nat.ltb_lt in E. rewrite Forall_cons. destruct (fitting limit lines). simpl in *. tauto.
  - apply Nat.ltb_ge in E. rewrite Forall_cons. simpl. split; [done|lia].
Qed.

(** ** Properties *)

(** C19: the lines of a run do not depend on how the output arrives.  For any
    sequence of reads, also one that ends between a CR and its LF, the scanner
    finds exactly the lines of the whole output, as the log buffer defines them;
    only a line of more than [MaxExecutionLogLineBytes] bytes stops it, with an
    error and after every line before it. *)
Theorem scan_all_exact reads :
  scan_all reads = fitting scan_limit (lines_of (concat_str reads) false "") /\
  ((scan_all reads).2 = None <->
     Forall (fun line => String.length line < scan_limit)%nat (lines_of (concat_str reads) false "")).
Proof. rewrite scan_all_lines. split; [done|]. apply fitting_None. Qed.

(** The stream never waits and never loses a line silently.  Whatever the
    reads and whenever the consumer receives, the records sent are, in order,
    among the lines of the output (followed by an error record exactly when a
    line was too long), every record that was not sent is counted as dropped, the
    channel stays within its capacity, and nothing is dropped when the records
    fit into it. *)
Theorem streamExecutionLogs_spec reads drainErr consumer s :
  sink_ok s ->
  let '(accepted, result, s') := streamExecutionLogs reads drainErr consumer s in
  let records := log_records (concat_str reads) in
  sublist accepted records /\
  (Z.of_nat (length accepted) + stream_dropped result = Z.of_nat (length records))%Z /\ sink_ok s' /\
  ((length records <= sink_room s)%nat -> accepted = records) /\
  (stream_err result = None <->
     Forall (fun line => String.length line < scan_limit)%nat (lines_of (concat_str reads) false "")).
Proof.
  intros Hs. unfold streamExecutionLogs, log_records. rewrite scan_all_lines.
  pose proof (fitting_None scan_limit (lines_of (concat_str reads) false "")) as Hf.
  destruct (fitting _ _) as [lines [e|]]; cbn [snd] in *.
  - destruct (offer_all consumer _ s) as [[accepted dropped] s'] eqn:E. apply offer_all_spec in E as (H1 & H2 & H3 & H4); [|done].
    split_and!; try done. rewrite <-Hf. split; [|done]. by destruct drainErr.
  - rewrite app_nil_r. destruct (offer_all consumer _ s) as [[accepted dropped] s'] eqn:E.
    apply offer_all_spec in E as (H1 & H2 & H3 & H4); [|done]. split_and!; done.
Qed.

Lemma streamExecutionLogs_spec_witness :
  let '(accepted, result, s') := streamExecutionLogs ["a" +:+ str1 CR; str1 LF +:+ "b"] None [] (NewLogSink 4) in
  accepted = ["a" +:+ newline; "b" +:+ newline] /\ stream_dropped result = 0%Z /\ sink_ok s'.
Proof.
  pose proof (streamExecutionLogs_spec ["a" +:+ str1 CR; str1 LF +:+ "b"] None [] (NewLogSink 4)) as H.
  assert (sink_ok (NewLogSink 4)) as Hok by (simpl; lia). specialize (H Hok).
  destruct (streamExecutionLogs _ _ _ _) as [[accepted result] s'] eqn:E. destruct H as (_ & Hd & H & Hfit & _).
  assert (log_records (concat_str ["a" +:+ str1 CR; str1 LF +:+ "b"]) = ["a" +:+ newline; "b" +:+ newline]) as Hr by reflexivity.
  rewrite Hr in Hd, Hfit. assert (accepted = ["a" +:+ newline; "b" +:+ newline]) as -> by (apply Hfit; simpl; lia).
  split; [done|]. split; [simpl in Hd; lia|exact H].
Defined.
