(* ===== verification/ExecutorStart.v ===== *)
(** * Starting a run ([host_executor.go]: [HostExecutor.Start], [executionHandle])

    The pipe, the ownership of the sink and the start of the wrapper as the leader
    of a process group of its own, and the handle that is given out.  The pipe and
    the start of a process are the host's; the descriptors this process keeps open
    are counted.  A context that is done, which keeps a command from starting, is
    one of the host's refusals. *)

From S2P Require Import Prelude GoStrings Model LogBuffer HostCommand Capabilities ExecutionPlan.
From S2P Require Import RunService HostExecutor LogStream.

(** [exec.Cmd]: the path, the arguments, the environment, [Setpgid]. *)
Record HostProcess := MkHostProcess { hp_path : string; hp_args : list string; hp_env : list string; hp_setpgid : bool }.

Record HostExecutor := MkHostExecutor { he_hostArgv : list string -> list string; he_commandPath : string }.

Definition hostNsenterPath : string := "/usr/bin/nsenter".
Definition NewHostExecutor : HostExecutor := MkHostExecutor HostArgv hostNsenterPath.

(** [os.Pipe] and [command.Start], which gives the process's number. *)
Class Launcher (W : Type) := {
  open_pipe : W -> result unit * W;
  start_process : HostProcess -> W -> result Z * W
}.

(** [ex_open]: the ends of pipes open in this process. *)
Record ExecState (W : Type) := MkExecState { ex_sink : LogSink; ex_open : nat; ex_host : W }.
Arguments MkExecState {W}.
Arguments ex_sink {W}.
Arguments ex_open {W}.
Arguments ex_host {W}.

(** The handle: [h_result] is there once [done] is closed. *)
Record executionHandle := MkExecutionHandle { h_pid : Z; h_result : option RunResult }.

Definition startFailedHandle (err : goerror) : executionHandle * option goerror :=
  (MkExecutionHandle 0 (Some (MkRunResult RunStartFailed (-1) false 0 (Some err) None None)), Some err).

(** [Wait]: [None] while it blocks. *)
Definition Wait (h : executionHandle) : option RunResult := h_result h.

(** [Stop]: at once what the finished run says, or the request for [control]. *)
Definition handle_Stop (grace : Z) (h : executionHandle) : option goerror + stopRequest :=
  match h_result h with
  | Some r => inl (Result_ControlError r)
  | None => inr (Stop_request grace)
  end.

(** The rest of [reap]: the result is stored and [done] closed. *)
Definition finished (r : RunResult) (h : executionHandle) : executionHandle := MkExecutionHandle (h_pid h) (Some r).

Section Start.
Context {W : Type} {launcher : Launcher W}.

Definition launcher_env (plan : ExecutionPlan) : list string :=
  if (length (Plan_LauncherEnvironment plan) =? 0)%nat then HostLauncherEnvironment else Plan_LauncherEnvironment plan.

Definition host_process (e : HostExecutor) (argv : list string) (plan : ExecutionPlan) : HostProcess :=
  MkHostProcess (if negb (string_eqb (he_commandPath e) "") then he_commandPath e else default "" (head argv)) argv
    (launcher_env plan) true.

Definition Start (e : HostExecutor) (plan : ExecutionPlan) (s : ExecState W) : (executionHandle * option goerror) * ExecState W :=
  let argv := he_hostArgv e [Plan_WrapperPath plan] in
  if (length argv =? 0)%nat then (startFailedHandle (ErrNew "host execution argv is empty"), s)
  else match open_pipe (ex_host s) with
  | (Err err, w) =>
      (startFailedHandle (ErrWrap "create execution log pipe: " err ""), MkExecState (ex_sink s) (ex_open s) w)
  | (Ok _, w) =>
      let open := (ex_open s + 2)%nat in
      match sink_reserve (ex_sink s) with
      | (false, sink) =>
          (startFailedHandle (ErrNew "log sink is already owned by an execution"), MkExecState sink (open - 2) w)
      | (true, sink) =>
          match start_process (host_process e argv plan) w with
          | (Err err, w) => (startFailedHandle err, MkExecState (sink_release sink) (open - 2) w)
          | (Ok pid, w) => ((MkExecutionHandle pid None, None), MkExecState sink (open - 1) w)
          end
      end
  end.

(** ** Properties *)

(** Reserving a sink twice, or reserving and releasing it. *)
Lemma reserve_cases sink :
  match sink_reserve sink with
  | (false, sink') => sink' = sink
  | (true, sink') => sink_release sink' = sink /\ (sink' = None \/ (sink_reserve sink').1 = false)
  end.
Proof.
  destruct sink as [[capacity lines [|]]|]; cbn; [done|split; [done|by right]|split; [done|by left]].
Qed.

(** C22: starting a run, on every branch.  When Start fails, the handle it gives
    out is finished with that error, stopping it reports nothing, and the sink and
    the open descriptors are as before.  When it succeeds, nsenter was started at
    its fixed path with the plan's wrapper and the launcher's environment as the
    leader of a process group of its own, one end of the pipe stays open, the
    handle blocks until the run is reaped, a stop reaches the controller with a
    grace that is not negative, and no second run can be started with the same
    sink, the zero sink apart. *)
Theorem Start_spec plan (s : ExecState W) :
  let '((h, err), s') := Start NewHostExecutor plan s in
  match err with
  | Some e =>
      Wait h = Some (MkRunResult RunStartFailed (-1) false 0 (Some e) None None) /\ (forall grace, handle_Stop grace h = inl None) /\
      ex_sink s' = ex_sink s /\ ex_open s' = ex_open s
  | None =>
      (exists w, open_pipe (ex_host s) = (Ok tt, w) /\
         start_process (MkHostProcess hostNsenterPath (HostArgv [Plan_WrapperPath plan]) (launcher_env plan) true) w =
           (Ok (h_pid h), ex_host s')) /\
      Wait h = None /\
      (forall grace, exists r, handle_Stop grace h = inr r /\ stop_reason r = terminationManual /\ (0 <= stop_grace r)%Z) /\
      ex_open s' = S (ex_open s) /\
      forall plan' n w', ex_sink s' = None \/
        (Start NewHostExecutor plan' (MkExecState (ex_sink s') n w')).1.2 <> None
  end.
Proof.
  unfold Start. change (length (he_hostArgv NewHostExecutor [Plan_WrapperPath plan]) =? 0)%nat with false. cbn iota.
  destruct (open_pipe (ex_host s)) as [[[]|e] w] eqn:Ep; [|by split_and!].
  pose proof (reserve_cases (ex_sink s)) as Hr. destruct (sink_reserve (ex_sink s)) as [[|] sink]; [|split_and!; [done..|cbn; lia]].
  destruct Hr as [Hrel Hown]. destruct (start_process _ w) as [[pid|e] w'] eqn:Es; [|split_and!; [done..|cbn; lia]].
  split_and!; [by exists w|done| |cbn; lia|].
  - intros grace. eexists. split; [reflexivity|]. cbn. split; [done|lia].
  - intros plan' n w2. destruct Hown as [->|Hown]; [by left|right]. cbn [ex_sink ex_host].
    change (length (he_hostArgv NewHostExecutor [Plan_WrapperPath plan']) =? 0)%nat with false. cbn iota.
    destruct (open_pipe w2) as [[[]|e] w3]; [|done]. destruct (sink_reserve sink) as [b sink']. cbn in Hown. by subst b.
Qed.
End Start.
