(* ===== verification/RunPipeline.v ===== *)
(** * A run from the request to the process ([run_service.go]: [execute])

    The run service with its real components: a goroutine of [execute] asks the
    plan compiler, the wrapper store and the executor of this repository, on a
    host that changes freely between the calls.  What holds for the service with
    any components holds here; what is added is what the process of a run is. *)

From S2P Require Import Prelude GoStrings Model LogBuffer HostCommand Capabilities ExecutionPlan.
From S2P Require Import ExecutionPlanProofs Wrapper WrapperProofs WrapperStore.
From S2P Require Import RunService RunServiceProofs RunServiceSpec HostExecutor LogStream ExecutorStart.

Section Pipeline.
Context {W : Type} `{inspector : !HostInspector W} `{host : !HostCommandRunner W} `{launcher : !Launcher W}.
Variable c : PlanCompiler.

(** ** The service on a host *)

(** The answers of the three components, in the host's state at that moment. *)
Definition answered (phase phase' : exec_phase) : Prop :=
  match phase, phase' with
  | ECompile job request, ECompiled r => exists now w, r = (Compile (Some c) now job request w).1
  | EInstall plan, EInstalled r =>
      exists w, r = match (@Install (W * trace) (traced W) plan (w, [])).1 with
                    | Ok path => Ok (set_wrapper_path path plan)
                    | Err e => Err e
                    end
  | EStarting plan, _ =>
      exists st, phase' = match (ExecutorStart.Start NewHostExecutor plan st).1.2 with
                          | None => EStarted plan
                          | Some e => EFinish (start_failed e)
                          end
  | _, _ => True
  end.

(** Whenever a goroutine moved on, a component answered. *)
Definition moves_answered (s s' : RunService) : Prop :=
  forall id phase phase', (id, phase) ∈ sv_execs s -> (id, phase') ∈ sv_execs s' -> phase <> phase' ->
    answered phase phase'.

Definition hosted_step (s s' : RunService) : Prop := step s s' /\ moves_answered s s'.

Inductive hosted (limits : LogLimits) : RunService -> Prop :=
  | hosted_new : hosted limits (NewRunService limits)
  | hosted_next s s' : hosted limits s -> hosted_step s s' -> hosted limits s'.

Lemma hosted_reachable limits s : hosted limits s -> reachable limits s.
Proof. induction 1 as [|s s' _ IH [Hs _]]; [constructor|by eapply reachable_step]. Qed.

(** ** What a goroutine has in hand *)

(** The plan of a job and its wrapper: compiled on this host, then rendered and
    put in place by exactly the commands of an installation. *)
Record in_place (job : Job) (request : RunRequest) (plan : ExecutionPlan) : Prop := {
  in_place_compiled : compiled c job request plan;
  in_place_wrapper : exists rendered w wt,
    Render plan = Ok rendered /\
    @Install (W * trace) (traced W) plan (w, []) = (Ok (Plan_WrapperPath plan), wt) /\
    prepared (Plan_HostTools plan) (Dir (Plan_WrapperPath plan)) (Plan_WrapperPath plan) rendered
      (Ok (Plan_WrapperPath plan)) wt.2
}.

(** A process: nsenter at its fixed path was given the wrapper as its command,
    and nothing of the environment of this process. *)
Definition launched (plan : ExecutionPlan) : Prop :=
  exists w w' pid,
    start_process (MkHostProcess hostNsenterPath (HostArgv [Plan_WrapperPath plan]) HostLauncherEnvironment true) w =
      (Ok pid, w').

Definition thread_ok (job : Job) (request : RunRequest) (phase : exec_phase) : Prop :=
  match phase with
  | ECompile job' request' => job' = job /\ request' = request
  | ECompiled (Ok plan) | EInstall plan => compiled c job request plan
  | EInstalled (Ok plan) | EReserve plan | EStarting plan => in_place job request plan
  | EStarted plan => in_place job request plan /\ launched plan
  | _ => True
  end.

Lemma set_wrapper_path_same plan : set_wrapper_path (Plan_WrapperPath plan) plan = plan.
Proof. by destruct plan. Qed.

Lemma Install_in_place job request plan w path wt :
  compiled c job request plan -> @Install (W * trace) (traced W) plan (w, []) = (Ok path, wt) ->
  path = Plan_WrapperPath plan /\ in_place job request plan.
Proof.
  intros Hc H. pose proof H as Hi. unfold Install in H. se_inv.
  match goal with H : Render plan = Ok ?x |- _ => rename x into rendered, H into Hr end.
  pose proof (install_at_emits (Plan_HostTools plan) (Dir (Plan_WrapperPath plan)) (Plan_WrapperPath plan) rendered w []) as He.
  match goal with H : install_at _ _ _ _ _ = _ |- _ => unfold emits, traced_host in He; rewrite H in He end.
  destruct He as (l & Hl & Hp). assert (path = Plan_WrapperPath plan) as -> by (by eapply prepared_target).
  split; [done|]. split; [done|]. exists rendered, w, wt. rewrite Hl. done.
Qed.

Lemma Start_launched job request plan st :
  compiled c job request plan -> (ExecutorStart.Start NewHostExecutor plan st).1.2 = None -> launched plan.
Proof.
  intros Hc H. destruct (compiled_copies _ _ _ _ Hc) as (_ & _ & _ & _ & _ & _ & _ & _ & _ & _ & Hl & _).
  unfold ExecutorStart.Start in H. destruct (_ =? 0)%nat; [done|]. destruct (open_pipe _) as [[[]|e] w]; [|done].
  destruct (sink_reserve _) as [[|] sink]; [|done]. destruct (start_process _ w) as [[pid|e] w'] eqn:E; [|done].
  exists w, w', pid. rewrite <-E. unfold host_process, launcher_env. by rewrite Hl.
Qed.

(** ** The goroutines of a step *)

(** Goroutines that were added are at their beginning. *)
Definition more_threads (s s' : RunService) : Prop :=
  forall x, x ∈ sv_execs s' -> x ∈ sv_execs s \/ x.2 = EBegin.

Lemma same_threads s s' : sv_execs s' = sv_execs s -> more_threads s s'.
Proof. intros E x. rewrite E. by left. Qed.

Lemma one_more_thread s s' id : sv_execs s' = sv_execs s ++ [(id, EBegin)] -> more_threads s s'.
Proof. intros E x. rewrite E, elem_of_app, list_elem_of_singleton. intros [?| ->]; [by left|by right]. Qed.

Lemma finishLocked_threads now id result s : more_threads s (finishLocked now id result s).2.
Proof.
  unfold finishLocked. destruct (sv_runs s !! id) as [r|]; [|by apply same_threads].
  destruct (terminal r); [by apply same_threads|]. cbn [snd]. unfold promote. case_match; [|by apply same_threads].
  by eapply one_more_thread.
Qed.

Lemma finish_threads now id result s : more_threads s (finish now id result s).
Proof.
  unfold finish. pose proof (finishLocked_threads now id result s) as H.
  by destruct (finishLocked _ _ _ _) as [[[[? ?] ?]|] s1].
Qed.

Lemma reserve_threads id now job input s : more_threads s (reserve id now job input s).2.
Proof.
  unfold reserve. destruct (sv_active s !! Job_ID job); [|by eapply one_more_thread].
  case_goal; [by apply same_threads|]. destruct (sv_pending s !! Job_ID job) as [previous|]; [|by apply same_threads].
  pose proof (finishLocked_threads now previous overlap_result s) as H.
  by destruct (finishLocked _ _ _ _) as [[[[? ?] ?]|] s1].
Qed.

Lemma Start_threads found newID now input s : more_threads s (RunService.Start found newID now input s).2.
Proof.
  unfold RunService.Start. destruct found as [job|]; [|by apply same_threads]. case_goal; [by apply same_threads|].
  destruct newID as [id|e]; [|by apply same_threads].
  pose proof (reserve_threads id now job input s) as H. by destruct (reserve _ _ _ _ _) as [[snapshot err] s1].
Qed.

Lemma Stop_threads now id s : more_threads s (Stop now id s).2.
Proof.
  unfold Stop. destruct (sv_runs s !! id) as [r|]; [|by apply same_threads].
  case_goal; [|case_goal; by apply same_threads]. case_goal; [by apply same_threads|].
  pose proof (finishLocked_threads now id (MkRunResult RunKilled (-1) false 0 None None None) s) as H.
  by destruct (finishLocked _ _ _ _) as [[[[? ?] ?]|] s1].
Qed.

Lemma exec_threads id phase s next s' : exec_step id phase s next s' -> more_threads s s'.
Proof.
  destruct 1 as [| | | | | | | | |s plan now| |s r now|s phase now line Hc]; try by apply same_threads.
  - apply same_threads. unfold started. repeat case_match; done.
  - apply finish_threads.
  - apply same_threads, consume_execs.
Qed.

(** A goroutine of a later state is new, was there, or made the step. *)
Lemma step_threads s s' id phase' :
  step s s' -> (id, phase') ∈ sv_execs s' ->
  phase' = EBegin \/ exists phase, (id, phase) ∈ sv_execs s /\
    (phase = phase' \/ exists s1, exec_step id phase s (Some phase') s1).
Proof.
  intros Hstep Hin.
  assert (more_threads s s' -> phase' = EBegin \/ exists phase, (id, phase) ∈ sv_execs s /\
    (phase = phase' \/ exists s1, exec_step id phase s (Some phase') s1)) as Hall.
  { intros H. destruct (H _ Hin) as [Hs|Hb]; [right; by exists phase'; auto|by left]. }
  destruct Hstep as [s found newID now input Hfresh|s now k|s now|s after|s k|s k|s i k phase next s' Hi Hx|s i p err Hi Hw Hs|s i p err Hi Hw].
  - apply Hall, Start_threads.
  - apply Hall, Stop_threads.
  - by apply Hall, same_threads.
  - by apply Hall, same_threads.
  - by apply Hall, same_threads.
  - apply Hall, same_threads. unfold receive. repeat case_match; done.
  - unfold update_exec in Hin. cbn in Hin. pose proof (exec_threads _ _ _ _ _ Hx) as Hmore.
    assert ((id, phase') ∈ sv_execs s' \/ (id, Some phase') = (k, next)) as [H|[= <- <-]].
    { destruct next as [q|].
      - apply list_elem_of_lookup in Hin as [j Hj]. destruct (decide (j = i)) as [->|Hne].
        + right. apply list_lookup_insert_Some in Hj as [(_ & [= -> ->] & _)|[? _]]; done.
        + left. rewrite list_lookup_insert_ne in Hj by done. by eapply list_elem_of_lookup_2.
      - left. by apply list_elem_of_delete_inv in Hin. }
    + destruct (Hmore _ H) as [Hs|Hb]; [right; by exists phase'; auto|by left].
    + right. exists phase. split; [by eapply list_elem_of_lookup_2|]. right. by exists s'.
  - by apply Hall, same_threads.
  - apply Hall, same_threads. unfold persist_end. cbn. unfold record_error. repeat case_match; done.
Qed.

(** What a goroutine has in hand after its step. *)
Lemma exec_thread_ok id phase phase' s s1 job request :
  exec_step id phase s (Some phase') s1 -> (phase <> phase' -> answered phase phase') ->
  (forall r, sv_runs s !! id = Some r -> rs_job r = job /\ run_request (rs_snapshot r) = request) ->
  thread_ok job request phase -> thread_ok job request phase'.
Proof.
  intros Hx Hans Hrun Hok. inversion Hx; subst; try done.
  - simpl. rewrite cloneJob_id. by apply Hrun.
  - destruct Hok as [-> ->]. destruct Hans as (now & w & ->); [done|]. cbn [thread_ok].
    destruct (Compile (Some c) now job request w) as [[plan|e] w'] eqn:E; [|done].
    apply Compile_Ok in E as (c' & [= <-] & Hc). done.
  - destruct (queued id s1); [|done]. match goal with H : Some _ = Some _ |- _ => injection H as <- end. by destruct r.
  - destruct Hans as (w & ->); [done|]. destruct (Install plan (w, [])) as [[path|e] wt] eqn:E; [|done]. cbn in *.
    destruct (Install_in_place _ _ _ _ _ _ Hok E) as [-> H]. by rewrite set_wrapper_path_same.
  - destruct (queued id s1); [|done]. match goal with H : Some _ = Some _ |- _ => injection H as <- end. by destruct r.
  - destruct Hans as (st & Hst); [by destruct r|]. destruct r as [[]|e]; [|done].
    split; [exact Hok|]. destruct (ExecutorStart.Start NewHostExecutor plan st).1.2 eqn:E; [done|].
    eapply Start_launched; [apply Hok|exact E].
Qed.
(** ** The runs of a step *)

Definition account (r : runState) : Z * Z := (Run_EffectiveUID (rs_snapshot r), Run_EffectiveGID (rs_snapshot r)).
Definition plan_account (plan : ExecutionPlan) : Z * Z := (Identity_UID (Plan_Identity plan), Identity_GID (Plan_Identity plan)).

(** A run keeps its job and its request; a process, and the account noted for it,
    come from the plan its goroutine started. *)
Definition carries (L : ExecutionPlan -> Prop) (r r' : runState) : Prop :=
  rs_job r' = rs_job r /\ run_request (rs_snapshot r') = run_request (rs_snapshot r) /\
  (rs_handle r' = true -> (rs_handle r = true /\ account r' = account r) \/ exists plan, L plan /\ account r' = plan_account plan).

Lemma change_carries L r r' : run_change L r r' -> carries L r r'.
Proof.
  intros [x x' Hf Hj Hh|now result x _ _|now plan x _ HL]; [|split_and!; auto..].
  - split; [done|]. split; [|rewrite Hh; left; split; [done|]].
    + exact (f_equal run_request Hf).
    + exact (f_equal (fun f => (Run_EffectiveUID f, Run_EffectiveGID f)) Hf).
  - intros _. right. by exists plan.
Qed.

Lemma changes_carry L r r' : rtc (run_change L) r r' -> carries L r r'.
Proof.
  induction 1 as [x|x y z H _ (J2 & Q2 & P2)]; [split_and!; auto|].
  destruct (change_carries _ _ _ H) as (J1 & Q1 & P1). split_and!; [congruence..|].
  intros Hz. destruct (P2 Hz) as [[Hy ->]|?]; auto.
Qed.

(** The process of a run: it runs the wrapper of a plan compiled for the run's
    job and request, and the account noted for the run is the plan's. *)
Definition process_of (r : runState) : Prop :=
  exists plan, in_place (rs_job r) (run_request (rs_snapshot r)) plan /\ launched plan /\ account r = plan_account plan.

Record hosted_ok (s : RunService) : Prop := {
  hosted_threads : forall id phase r, (id, phase) ∈ sv_execs s -> sv_runs s !! id = Some r ->
    thread_ok (rs_job r) (run_request (rs_snapshot r)) phase;
  hosted_processes : forall id r, sv_runs s !! id = Some r -> rs_handle r = true -> process_of r
}.

Lemma hosted_step_ok s s' : inv s -> hosted_ok s -> hosted_step s s' -> hosted_ok s'.
Proof.
  intros Hinv [Ht Hp] [Hstep Hans]. split.
  - intros id phase' r' Hin Hr'. destruct (step_threads _ _ _ _ Hstep Hin) as [->|(phase & Hph & Hmove)]; [done|].
    destruct (step_changes _ _ _ _ Hinv Hstep Hr') as [(r & Hr & H)|(_ & Hex & _)].
    + apply changes_carry in H as (-> & -> & _). pose proof (Ht _ _ _ Hph Hr) as Hok.
      destruct Hmove as [<-|[s1 Hx]]; [done|]. refine (exec_thread_ok _ _ _ _ _ _ _ Hx (Hans _ _ _ Hph Hin) _ Hok).
      intros r2 Hr2. by assert (r2 = r) as -> by congruence.
    + destruct Hex. by apply (list_elem_of_fmap_2' fst _ (id, phase)).
  - intros id r' Hr' Hh. destruct (step_changes _ _ _ _ Hinv Hstep Hr') as [(r & Hr & H)|(_ & _ & ? & _)]; [|congruence].
    apply changes_carry in H as (Hj & Hq & H). unfold process_of. rewrite Hj, Hq.
    destruct (H Hh) as [[Hrh Ha]|(plan & Hin & Ha)]; rewrite Ha; [exact (Hp _ _ Hr Hrh)|].
    destruct (Ht _ _ _ Hin Hr). by exists plan.
Qed.

Lemma hosted_invariant limits s : hosted limits s -> hosted_ok s.
Proof.
  induction 1 as [|s s' H IH Hs].
  - split.
    + intros id phase r Hin. by apply elem_of_nil in Hin.
    + intros id r Hr. unfold NewRunService in Hr. cbn [sv_runs] in Hr. by rewrite lookup_empty in Hr.
  - apply (hosted_step_ok s); [by eapply reachable_inv, hosted_reachable|done..].
Qed.

(** ** A run alone gets its process *)

(** The state with its only goroutine, that of [id], at a phase. *)
Definition at_phase (id : string) (s : RunService) (phase : exec_phase) : RunService := set_execs (fun _ => [(id, phase)]) s.

Lemma hosted_move limits id s s' p q :
  hosted limits (at_phase id s p) -> exec_step id p (at_phase id s p) (Some q) (at_phase id s' p) -> answered p q ->
  hosted limits (at_phase id s' q).
Proof.
  intros Hs Hx Ha. apply (hosted_next _ (at_phase id s p)); [done|]. split.
  - exact (step_exec (at_phase id s p) 0 id p (Some q) (at_phase id s' p) eq_refl Hx).
  - intros k x y Hp Hq _. cbn in Hp, Hq.
    apply list_elem_of_singleton in Hp as [= -> ->]. by apply list_elem_of_singleton in Hq as [= ->].
Qed.

(** The run [id] is queued, nothing else is at work, and the components succeed. *)
Lemma hosted_alone limits id s r plan now w w2 st :
  hosted limits (at_phase id s EBegin) -> sv_runs s !! id = Some r -> is_queued r ->
  (Compile (Some c) now (rs_job r) (run_request (rs_snapshot r)) w).1 = Ok plan ->
  (@Install (W * trace) (traced W) plan (w2, [])).1 = Ok (Plan_WrapperPath plan) ->
  (ExecutorStart.Start NewHostExecutor plan st).1.2 = None ->
  exists s' r', hosted limits s' /\ sv_runs s' !! id = Some r' /\ rs_handle r' = true.
Proof.
  intros H Hr Hq Hc Hi Hst. assert (forall p, queued id (at_phase id s p) = true) as Hqueued.
  { intros p. unfold queued, at_phase. cbn. rewrite Hr. unfold is_queued in Hq. by rewrite Hq. }
  apply (hosted_move _ _ s s _ (ECompile (rs_job r) (run_request (rs_snapshot r)))) in H; [|rewrite <-(cloneJob_id (rs_job r)) at 1; by constructor|done].
  apply (hosted_move _ _ s s _ (ECompiled (Ok plan))) in H; [|constructor|by exists now, w].
  apply (hosted_move _ _ s s _ (EInstall plan)) in H; [|pose proof (x_compiled id (at_phase id s (ECompiled (Ok plan))) (Ok plan)) as Hx; by rewrite Hqueued in Hx|done].
  apply (hosted_move _ _ s s _ (EInstalled (Ok plan))) in H.
  2: { rewrite <-(set_wrapper_path_same plan) at 3. exact (x_install id (at_phase id s (EInstall plan)) plan (Ok _)). }
  2: { exists w2. by rewrite Hi, set_wrapper_path_same. }
  apply (hosted_move _ _ s s _ (EReserve plan)) in H; [|pose proof (x_installed id (at_phase id s (EInstalled (Ok plan))) (Ok plan)) as Hx; by rewrite Hqueued in Hx|done].
  set (s1 := set_runs (<[id := set_starting r]>) s).
  apply (hosted_move _ _ s s1 _ (EStarting plan)) in H; [|exact (x_reserve id (at_phase id s (EReserve plan)) plan r Hr Hq)|done].
  assert (sv_runs s1 !! id = Some (set_starting r)) as Hr1 by apply lookup_insert_eq. clearbody s1.
  apply (hosted_move _ _ s1 s1 _ (EStarted plan)) in H; [|exact (x_starting id (at_phase id s1 (EStarting plan)) plan (Ok tt))|exists st; by rewrite Hst].
  pose proof (x_started id (at_phase id s1 (EStarted plan)) plan 0) as Hx.
  unfold started in Hx. cbn [sv_runs at_phase set_execs] in Hx. rewrite Hr1 in Hx. unfold is_queued in Hq.
  cbn [rs_snapshot set_starting] in Hx. rewrite Hq in Hx. cbn [string_eqb fst snd] in Hx.
  set (r' := mark_running 0 plan (set_starting r)) in Hx.
  apply (hosted_move _ _ s1 (publishLocked (rs_snapshot r') (set_runs (<[id := r']>) s1)) _ (EWait (rs_stopRequested r))) in H;
    [|exact Hx|done].
  eexists _, r'. split; [exact H|]. split; [apply lookup_insert_eq|done].
Qed.

(** ** Properties *)

(** C2: what the process of a run is.  The service runs with this repository's
    compiler, wrapper store and executor, on a host that may change in any way
    between two calls, under any interleaving of runs, stops and history writes.
    Then every run that got a process was compiled: for exactly the job and the
    request the run was made of, reviewed, at the asked revision, as an identity
    the host confirmed.  Its script was rendered from that plan; the shell reads
    its last command as the plan's words; it was put at the managed path by
    exactly the commands of an installation, all successful.  The process is
    nsenter with that path as its command and a fixed environment, and the run
    shows the UID and GID of the plan. *)
Theorem run_process limits s id r :
  hosted limits s -> sv_runs s !! id = Some r -> rs_handle r = true ->
  exists plan rendered body rest w wt,
    let path := Plan_WrapperPath plan in
    let tools := render_tools (Plan_HostTools plan) in
    compiled c (rs_job r) (run_request (rs_snapshot r)) plan /\
    Render plan = Ok rendered /\ rendered = body +:+ renderExec tools plan /\
    lex Plain None (renderExec tools plan) =
      Some (lits (if with_backup plan then "if" else "exec") :: exec_words tools plan, rest) /\
    @Install (W * trace) (traced W) plan (w, []) = (Ok path, wt) /\
    prepared (Plan_HostTools plan) (Dir path) path rendered (Ok path) wt.2 /\
    launched plan /\ account r = plan_account plan.
Proof.
  intros Hs Hr Hh. destruct (hosted_processes _ (hosted_invariant _ _ Hs) _ _ Hr Hh) as (plan & [Hc Hw] & Hl & Ha).
  destruct Hw as (rendered & w & wt & Hren & Hi & Hp). destruct (Render_reads _ _ Hren) as (body & rest & Hb & Hx).
  by exists plan, rendered, body, rest, w, wt.
Qed.
End Pipeline.

(** ** A run on a host that works *)

(** Every lookup answers as on a host whose managed directories exist. *)
Definition demo_answer (argv : list string) : string :=
  match argv with
  | [tool; _; _; path] =>
      if string_eqb tool (Tool_Stat demo_tools)
      then if HasPrefix (Base path) ".run.sh.tmp-" || string_eqb (Base path) "run.sh"
           then "81c0:0:0:700" +:+ newline else "41c0:0:0:700" +:+ newline
      else ""
  | [tool; _; path] => if string_eqb tool (Tool_Readlink demo_tools) then path +:+ newline else ""
  | [tool; path] => if string_eqb tool (Tool_Mktemp demo_tools) then path +:+ newline else ""
  | _ => ""
  end.

Definition demo_host : HostCommandRunner unit := fun _ argv w => (MkCommandResult (demo_answer argv) "" 0 None, w).
Definition demo_launcher : Launcher unit := {| open_pipe w := (Ok tt, w); start_process _ w := (Ok 42%Z, w) |}.

Definition demo_run_request : RunRequest := MkRunRequest "run-1" 7 3 RunOriginManual false 1.
Definition demo_requested : RunService :=
  (RunService.Start (Some demo_sync_job) (Ok "run-1") 1 demo_input (NewRunService demo_limits)).2.

Lemma demo_plan_installs :
  exists plan, (@Compile unit demo_inspector (Some demo_compiler) 1 demo_sync_job demo_run_request tt).1 = Ok plan /\
    (@Install (unit * trace) (@traced unit demo_host) plan (tt, [])).1 = Ok (Plan_WrapperPath plan).
Proof. eexists. split; [vm_compute; reflexivity|]. vm_compute. reflexivity. Qed.

Notation demo_hosted := (@hosted unit demo_inspector demo_host demo_launcher demo_compiler demo_limits).

Lemma demo_requested_hosted : demo_hosted demo_requested.
Proof.
  apply (hosted_next _ _ (NewRunService demo_limits)); [constructor|]. split.
  - apply step_start. intros id [= <-]. split; [done|]. split_and!; cbn; apply not_elem_of_nil.
  - intros id phase phase' H. by apply elem_of_nil in H.
Qed.

Definition demo_exec_state : ExecState unit := MkExecState (NewLogSink 256) 0 tt.

Lemma demo_process :
  exists s r, demo_hosted s /\ sv_runs s !! "run-1" = Some r /\ rs_handle r = true.
Proof.
  destruct demo_plan_installs as (plan & Hc & Hi).
  apply (hosted_alone demo_compiler demo_limits "run-1" demo_requested
           (new_run "run-1" 1 (sv_limits (NewRunService demo_limits)) demo_sync_job demo_input) plan 1 tt tt demo_exec_state).
  - exact demo_requested_hosted.
  - reflexivity.
  - reflexivity.
  - exact Hc.
  - exact Hi.
  - reflexivity.
Qed.

Lemma run_process_witness :
  exists s r plan, demo_hosted s /\ sv_runs s !! "run-1" = Some r /\
    @compiled unit demo_inspector demo_compiler (rs_job r) (run_request (rs_snapshot r)) plan /\ account r = plan_account plan.
Proof.
  destruct demo_process as (s & r & Hs & Hr & Hh).
  destruct (@run_process unit demo_inspector demo_host demo_launcher demo_compiler demo_limits s "run-1" r Hs Hr Hh) as (plan & _ & _ & _ & _ & _ & Hc & _ & _ & _ & _ & _ & _ & Ha).
  by exists s, r, plan.
Defined.
