(* ===== verification/Scheduler.v ===== *)
(** * The cron scheduler ([scheduler.go])

    [Scheduler] keeps one cron registration per eligible job and turns a firing
    of the current registration into one request to the run service.  The cron
    engine (robfig/cron) is a parameter: the class [CronEngine] is the interface
    [cronEngine], [CronLaws] its documented behaviour.  [reconcileMu] keeps
    reconciliations and [Close] apart; callbacks take only [s.mu], so they come
    between the pieces of a reconciliation: its two critical sections, each call of
    the engine, and each of the two sections of a callback.  [Reconcile] is the
    composition of the pieces when no callback comes between; [SchedulerSteps]
    interleaves them. *)

From S2P Require Import Prelude GoStrings Model LogBuffer HostCommand Capabilities ExecutionPlan.
From S2P Require Import RunService.

(** ** The cron engine *)

(** The arguments a registered function calls [fire] with. *)
Notation callback := (Z * Z * Z)%type.

Class CronEngine (E : Type) := {
  AddFunc : string -> callback -> E -> result Z * E;
  RemoveFunc : Z -> E -> E;
  registered : E -> gmap Z (string * callback)
}.

(** A registration gets a new non-zero ID; a specification that does not parse
    registers nothing. *)
Class CronLaws (E : Type) `{!CronEngine E} := {
  AddFunc_Ok spec cb e id e' :
    AddFunc spec cb e = (Ok id, e') ->
    id <> 0%Z /\ registered e !! id = None /\ registered e' = <[id := (spec, cb)]> (registered e);
  AddFunc_Err spec cb e err e' : AddFunc spec cb e = (Err err, e') -> registered e' = registered e;
  RemoveFunc_registered id e : registered (RemoveFunc id e) = delete id (registered e)
}.

(** ** Data *)

Record scheduledJob := MkScheduledJob { sj_entry : Z; sj_revision : Z; sj_spec : string; sj_generation : Z }.

Record Scheduler := MkScheduler {
  sch_entries : gmap Z scheduledJob;
  sch_errors : gmap Z goerror;
  sch_nextGen : Z;
  sch_closed : bool
}.

Definition newScheduler : Scheduler := MkScheduler ∅ ∅ 0 false.

Definition schedulerEligible (job : Job) (trigger : string) : bool :=
  Job_Enabled job && negb (Job_NeedsReview job) && string_eqb (Policy_Owner (Job_Scheduler job)) SchedulerSyncBridge &&
  string_eqb (Job_Trigger job) trigger.

Definition normalizeCronSpec (spec : string) : result string :=
  let fields := Fields spec in
  if (length fields =? 5)%nat then Ok ("0 " +:+ Join " " fields)
  else if (length fields =? 6)%nat then Ok (Join " " fields)
  else Err (ErrNew "cron expression must have five or six fields").

(** [mapErrors], in the order of the map. *)
Definition mapErrors (values : gmap Z goerror) : list goerror :=
  map (fun kv => ErrWrap ("job " +:+ Itoa kv.1 +:+ ": ") kv.2 "") (map_to_list values).

(** ** Reconcile *)

(** The first loop: what the jobs ask for, and which of them cannot be had. *)
Definition wanted_jobs (jobs : list Job) : gmap Z scheduledJob * gmap Z goerror :=
  fold_left (fun '(desired, invalid) job =>
    if negb (schedulerEligible job TriggerCron) then (desired, invalid)
    else match normalizeCronSpec (Job_Cron job) with
         | Err e => (desired, <[Job_ID job := e]> invalid)
         | Ok spec => (<[Job_ID job := MkScheduledJob 0 (Job_Revision job) spec 0]> desired, invalid)
         end) jobs (∅, ∅).

Definition set_generation (g : Z) (w : scheduledJob) : scheduledJob :=
  MkScheduledJob (sj_entry w) (sj_revision w) (sj_spec w) g.
Definition set_entry (n : Z) (w : scheduledJob) : scheduledJob :=
  MkScheduledJob n (sj_revision w) (sj_spec w) (sj_generation w).

(** [next], [added], [removed] and [s.nextGen]. *)
Record plan_state := MkPlan {
  pl_next : gmap Z scheduledJob; pl_added : list (Z * scheduledJob); pl_removed : list Z; pl_gen : Z
}.

Definition plan_add (id : Z) (want : scheduledJob) (removed : list Z) (p : plan_state) : plan_state :=
  let g := wrap_u64 (pl_gen p + 1) in
  let want := set_generation g want in
  MkPlan (<[id := want]> (pl_next p)) (pl_added p ++ [(id, want)]) (pl_removed p ++ removed) g.

(** The loop over the current entries, in the order of the map; Go's is
    arbitrary. *)
Definition plan_current (desired : gmap Z scheduledJob) (invalid : gmap Z goerror) (p : plan_state) (kv : Z * scheduledJob) :
    plan_state :=
  let '(id, current) := kv in
  if bool_decide (is_Some (invalid !! id)) then MkPlan (<[id := current]> (pl_next p)) (pl_added p) (pl_removed p) (pl_gen p)
  else match desired !! id with
  | None => MkPlan (pl_next p) (pl_added p) (pl_removed p ++ [sj_entry current]) (pl_gen p)
  | Some want =>
      if (sj_revision current =? sj_revision want)%Z && string_eqb (sj_spec current) (sj_spec want)
      then MkPlan (<[id := current]> (pl_next p)) (pl_added p) (pl_removed p) (pl_gen p)
      else plan_add id want [sj_entry current] p
  end.

(** The loop over the jobs that have no entry. *)
Definition plan_new (entries : gmap Z scheduledJob) (p : plan_state) (kv : Z * scheduledJob) : plan_state :=
  if bool_decide (is_Some (entries !! kv.1)) then p else plan_add kv.1 kv.2 [] p.

Definition make_plan (desired : gmap Z scheduledJob) (invalid : gmap Z goerror) (s : Scheduler) : plan_state :=
  fold_left (plan_new (sch_entries s)) (map_to_list desired)
    (fold_left (plan_current desired invalid) (map_to_list (sch_entries s)) (MkPlan ∅ [] [] (sch_nextGen s))).

Section Engine.
Context {E : Type} `{!CronEngine E}.

Definition remove_all (entries : list Z) (e : E) : E := fold_left (fun e n => RemoveFunc n e) entries e.

(** The loop that registers [added]: on an error what was registered so far is
    removed again.  [installed] are the entries it got. *)
Fixpoint install_added (added : list (Z * scheduledJob)) (installed : list Z) (next : gmap Z scheduledJob) (e : E) :
    (gmap Z scheduledJob + Z * goerror) * E :=
  match added with
  | [] => (inl next, e)
  | (id, want) :: added =>
      match AddFunc (sj_spec want) (id, sj_revision want, sj_generation want) e with
      | (Ok entry, e) => install_added added (installed ++ [entry]) (<[id := set_entry entry want]> next) e
      | (Err err, e) => (inr (id, err), remove_all installed e)
      end
  end.

(** The errors after a successful reconciliation. *)
Definition reconciled_errors (desired : gmap Z scheduledJob) (invalid errors : gmap Z goerror) : gmap Z goerror :=
  filter (fun kv => is_Some (invalid !! kv.1) \/ desired !! kv.1 = None) (invalid ∪ errors).

(** The first critical section leaves [s.nextGen]. *)
Definition planned (p : plan_state) (s : Scheduler) : Scheduler :=
  MkScheduler (sch_entries s) (sch_errors s) (pl_gen p) (sch_closed s).

(** A specification the engine refuses: its error is kept. *)
Definition add_failed (id : Z) (err : goerror) (s : Scheduler) : Scheduler :=
  if sch_closed s then s else MkScheduler (sch_entries s) (<[id := err]> (sch_errors s)) (sch_nextGen s) false.

(** The second critical section of a scheduler that is open. *)
Definition publish_jobs (desired : gmap Z scheduledJob) (invalid : gmap Z goerror) (next : gmap Z scheduledJob) (s : Scheduler) :
    Scheduler :=
  MkScheduler next (reconciled_errors desired invalid (sch_errors s)) (sch_nextGen s) false.

(** The entries of [added] when all are registered. *)
Definition added_entries (added : list (Z * scheduledJob)) (next : gmap Z scheduledJob) : list Z :=
  omap (fun kw => sj_entry <$> next !! kw.1) added.

Definition Reconcile (jobs : list Job) (s : Scheduler) (e : E) : option goerror * Scheduler * E :=
  let '(desired, invalid) := wanted_jobs jobs in
  if sch_closed s then (Some (ErrNew "scheduler is closed"), s, e)
  else
    let p := make_plan desired invalid s in
    let s := planned p s in
    match install_added (pl_added p) [] (pl_next p) e with
    | (inr (id, err), e) => (Some (ErrWrap ("job " +:+ Itoa id +:+ ": ") err ""), add_failed id err s, e)
    | (inl next, e) =>
        if sch_closed s then (Some (ErrNew "scheduler is closed"), s, remove_all (added_entries (pl_added p) next) e)
        else (errors_Join (Some <$> mapErrors invalid), publish_jobs desired invalid next s, remove_all (pl_removed p) e)
    end.

(** [Close]: the engine is stopped and the running callbacks are awaited. *)
Definition Close (s : Scheduler) : Scheduler :=
  if sch_closed s then s else MkScheduler ∅ (sch_errors s) (sch_nextGen s) true.
End Engine.

(** ** Firing *)

(** The first critical section of [fire]: the request to the run service, if
    the registration is still the current one. *)
Definition fire (id revision generation : Z) (s : Scheduler) : option StartRunInput :=
  match sch_entries s !! id with
  | Some entry =>
      if sch_closed s || negb (sj_revision entry =? revision)%Z || negb (sj_generation entry =? generation)%Z then None
      else Some (MkStartRunInput id revision RunOriginCron false)
  | None => None
  end.

(** The second one: an error that is not an overlap is kept for the job. *)
Definition fired (id generation : Z) (err : option goerror) (s : Scheduler) : Scheduler :=
  match err, sch_entries s !! id with
  | Some e, Some current =>
      if negb (errors_Is e "job already has an active run") && (sj_generation current =? generation)%Z
      then MkScheduler (sch_entries s) (<[id := e]> (sch_errors s)) (sch_nextGen s) (sch_closed s) else s
  | _, _ => s
  end.

Definition LastError (id : Z) (s : Scheduler) : option goerror := sch_errors s !! id.
