(* ===== verification/SchedulerProofs.v ===== *)
(** * The registrations of the scheduler are exactly its entries

    For any cron engine that satisfies [CronLaws]: reconciling keeps the
    one-to-one correspondence between the entries and the registered callbacks,
    does what the jobs ask for or nothing at all, and only the current
    registration of a job starts runs. *)

From S2P Require Import Prelude GoStrings Model LogBuffer HostCommand Capabilities ExecutionPlan.
From S2P Require Import RunService Scheduler.

(** ** The plan *)

Definition same_schedule (a b : scheduledJob) : Prop := sj_revision a = sj_revision b /\ sj_spec a = sj_spec b.

Section Plan.
Context (desired : gmap Z scheduledJob) (invalid : gmap Z goerror) (entries : gmap Z scheduledJob).

(** What becomes of the job [id]. *)
Inductive fate (p : plan_state) (id : Z) : Prop :=
  | fate_kept cur : entries !! id = Some cur -> pl_next p !! id = Some cur -> id ∉ (pl_added p).*1 ->
      (is_Some (invalid !! id) \/ exists want, desired !! id = Some want /\ invalid !! id = None /\ same_schedule cur want) ->
      fate p id
  | fate_dropped cur : entries !! id = Some cur -> pl_next p !! id = None -> sj_entry cur ∈ pl_removed p ->
      id ∉ (pl_added p).*1 -> invalid !! id = None -> desired !! id = None -> fate p id
  | fate_added want g : desired !! id = Some want -> pl_next p !! id = Some (set_generation g want) ->
      (id, set_generation g want) ∈ pl_added p ->
      (entries !! id = None \/ exists cur, entries !! id = Some cur /\ sj_entry cur ∈ pl_removed p /\ invalid !! id = None /\
                                ~ same_schedule cur want) ->
      fate p id.

Record plan_ok (done : gset Z) (p : plan_state) : Prop := {
  po_todo : forall id, id ∉ done -> pl_next p !! id = None /\ id ∉ (pl_added p).*1;
  po_done : forall id, id ∈ done -> fate p id;
  po_added : forall id w, (id, w) ∈ pl_added p -> pl_next p !! id = Some w;
  po_once : NoDup (pl_added p).*1;
  po_removed : forall n, n ∈ pl_removed p -> exists id cur, id ∈ done /\ entries !! id = Some cur /\ sj_entry cur = n /\
    (pl_next p !! id = None \/ id ∈ (pl_added p).*1)
}.

(** Deciding one more job leaves the others alone. *)
Lemma fate_grow p p' id :
  fate p id -> pl_next p' !! id = pl_next p !! id -> (forall x, x ∈ pl_removed p -> x ∈ pl_removed p') ->
  (forall w, (id, w) ∈ pl_added p' <-> (id, w) ∈ pl_added p) -> fate p' id.
Proof.
  intros H En Hr Ha.
  assert (id ∈ (pl_added p').*1 <-> id ∈ (pl_added p).*1) as Hf.
  { rewrite !list_elem_of_fmap. split; intros ([k w] & -> & Hin); exists (k, w); split; try done; by apply Ha. }
  destruct H as [cur H1 H2 H3 H4|cur H1 H2 H3 H4 H5 H6|want g H1 H2 H3 H5].
  - eapply fate_kept; [done|by rewrite En|by rewrite Hf|done].
  - eapply fate_dropped; [done|by rewrite En|auto|by rewrite Hf|done|done].
  - eapply (fate_added _ _ want g); [done|by rewrite En|by apply Ha|]. destruct H5 as [?|(cur & ? & ? & ? & ?)]; eauto 8.
Qed.

Lemma ok_keep done_ p id cur :
  plan_ok done_ p -> id ∉ done_ -> entries !! id = Some cur ->
  (is_Some (invalid !! id) \/ exists want, desired !! id = Some want /\ invalid !! id = None /\ same_schedule cur want) ->
  plan_ok (done_ ∪ {[id]}) (MkPlan (<[id := cur]> (pl_next p)) (pl_added p) (pl_removed p) (pl_gen p)).
Proof.
  intros [Ht Hd Ha Ho Hr] Hnew Hc Hwhy. destruct (Ht _ Hnew) as [Hn Hna].
  split; cbn [pl_next pl_added pl_removed pl_gen]; try done.
  - intros k Hk. rewrite lookup_insert_ne by set_solver. apply Ht. set_solver.
  - intros k Hk. destruct (decide (k = id)) as [->|Hne].
    + eapply fate_kept; cbn; [done|apply lookup_insert_eq|done|done].
    + eapply fate_grow; [apply Hd; set_solver|cbn; by rewrite lookup_insert_ne|done|done].
  - intros k w Hin. assert (k <> id) as Hne by (intros ->; apply Hna; by apply (list_elem_of_fmap_2 fst) in Hin).
    rewrite lookup_insert_ne by done. by apply Ha.
  - intros n Hin. destruct (Hr n Hin) as (k & c & Hk & Hkc & He & Hor). exists k, c.
    rewrite lookup_insert_ne by (intros ->; done). split; [set_solver|done].
Qed.

Lemma ok_drop done_ p id cur :
  plan_ok done_ p -> id ∉ done_ -> entries !! id = Some cur -> invalid !! id = None -> desired !! id = None ->
  plan_ok (done_ ∪ {[id]}) (MkPlan (pl_next p) (pl_added p) (pl_removed p ++ [sj_entry cur]) (pl_gen p)).
Proof.
  intros [Ht Hd Ha Ho Hr] Hnew Hc Hi Hdes. destruct (Ht _ Hnew) as [Hn Hna].
  split; cbn [pl_next pl_added pl_removed pl_gen]; try done.
  - intros k Hk. apply Ht. set_solver.
  - intros k Hk. destruct (decide (k = id)) as [->|Hne].
    + eapply fate_dropped; cbn; [done|done|apply elem_of_app; right; by left|done|done|done].
    + eapply fate_grow; [apply Hd; set_solver|done|cbn; intros; apply elem_of_app; by left|done].
  - intros n [Hin|Hin%list_elem_of_singleton]%elem_of_app.
    + destruct (Hr n Hin) as (k & c & Hk & H). exists k, c. split; [set_solver|done].
    + exists id, cur. split; [set_solver|]. split; [done|]. split; [done|]. by left.
Qed.

Lemma ok_add done_ p id want removed :
  plan_ok done_ p -> id ∉ done_ -> desired !! id = Some want ->
  (entries !! id = None /\ removed = [] \/
   exists cur, entries !! id = Some cur /\ removed = [sj_entry cur] /\ invalid !! id = None /\ ~ same_schedule cur want) ->
  plan_ok (done_ ∪ {[id]}) (plan_add id want removed p).
Proof.
  intros [Ht Hd Ha Ho Hr] Hnew Hw Hcur. destruct (Ht _ Hnew) as [Hn Hna]. unfold plan_add.
  split; cbn [pl_next pl_added pl_removed pl_gen]; try lia.
  - intros k Hk. rewrite lookup_insert_ne by set_solver. destruct (Ht k) as [? Hk2]; [set_solver|]. split; [done|].
    rewrite fmap_app, not_elem_of_app. split; [done|]. cbn. intros ->%list_elem_of_singleton. set_solver.
  - intros k Hk. destruct (decide (k = id)) as [->|Hne].
    + apply (fate_added _ _ want (wrap_u64 (pl_gen p + 1))); cbn; [done|apply lookup_insert_eq|apply elem_of_app; right; by left|].
      destruct Hcur as [[? _]|(cur & ? & -> & ? & ?)]; [by left|]. right. exists cur. split; [done|]. split; [|done].
      apply elem_of_app. right. by left.
    + eapply fate_grow; [apply Hd; set_solver|cbn; by rewrite lookup_insert_ne|cbn; intros; apply elem_of_app; by left|].
      intros w. cbn. rewrite elem_of_app, list_elem_of_singleton. naive_solver.
  - intros k w [Hin|Hin]%elem_of_app.
    + assert (k <> id) as Hne by (intros ->; apply Hna; by apply (list_elem_of_fmap_2 fst) in Hin).
      rewrite lookup_insert_ne by done. by apply Ha.
    + apply list_elem_of_singleton in Hin as [= -> ->]. apply lookup_insert_eq.
  - rewrite fmap_app. apply NoDup_app. split; [done|]. split; [|apply NoDup_singleton].
    intros k Hk Hin. cbn in Hin. apply list_elem_of_singleton in Hin as ->. done.
  - intros n [Hin|Hin]%elem_of_app.
    + destruct (Hr n Hin) as (k & c & Hk & Hkc & He & Hor). exists k, c.
      rewrite lookup_insert_ne by (intros ->; done). split; [set_solver|]. split; [done|]. split; [done|].
      rewrite fmap_app, elem_of_app. tauto.
    + destruct Hcur as [[_ ->]|(cur & Hc & -> & _ & _)]; [by apply elem_of_nil in Hin|].
      apply list_elem_of_singleton in Hin as ->. exists id, cur. split; [set_solver|]. split; [done|]. split; [done|].
      right. rewrite fmap_app, elem_of_app. right. by left.
Qed.

Lemma ok_current done_ p id cur :
  plan_ok done_ p -> id ∉ done_ -> entries !! id = Some cur ->
  plan_ok (done_ ∪ {[id]}) (plan_current desired invalid p (id, cur)).
Proof.
  intros Hok Hnew Hc. unfold plan_current. case_bool_decide as Hi; [apply ok_keep; auto|].
  apply eq_None_not_Some in Hi. destruct (desired !! id) as [want|] eqn:Ed; [|by apply ok_drop].
  destruct (_ && _) eqn:E.
  - apply andb_true_iff in E as [E1%Z.eqb_eq E2%string_eqb_true]. apply ok_keep; [done..|]. right. by exists want.
  - apply ok_add; [done..|]. right. exists cur. split_and!; try done. intros [E1 E2]. apply not_true_iff_false in E. apply E.
    apply andb_true_iff. split; [by apply Z.eqb_eq|by apply string_eqb_true].
Qed.

Lemma current_loop l : forall done_ p,
  plan_ok done_ p -> NoDup l.*1 -> (forall id cur, (id, cur) ∈ l -> id ∉ done_ /\ entries !! id = Some cur) ->
  plan_ok (done_ ∪ list_to_set l.*1) (fold_left (plan_current desired invalid) l p).
Proof.
  induction l as [|[id cur] l IH]; intros done_ p Hok Hnd Hl; cbn [fold_left].
  - change (plan_ok (done_ ∪ ∅) p). by rewrite union_empty_r_L.
  - cbn [fmap list_fmap fst] in Hnd. apply NoDup_cons in Hnd as [Hni Hnd]. destruct (Hl id cur) as [H1 H2]; [by left|].
    replace (done_ ∪ list_to_set ((id, cur) :: l).*1) with ((done_ ∪ {[id]}) ∪ list_to_set l.*1 : gset Z)
      by (cbn; by rewrite (assoc_L (∪))).
    apply IH; [by apply ok_current|done|]. intros k c Hin. destruct (Hl k c) as [H3 H4]; [by right|]. split; [|done].
    rewrite not_elem_of_union. split; [done|]. intros ->%elem_of_singleton. apply Hni. by apply (list_elem_of_fmap_2 fst) in Hin.
Qed.

Lemma new_loop l : forall done_ p,
  plan_ok done_ p -> NoDup l.*1 -> (forall id cur, entries !! id = Some cur -> id ∈ done_) ->
  (forall id want, (id, want) ∈ l -> desired !! id = Some want /\ (id ∈ done_ -> is_Some (entries !! id))) ->
  plan_ok (done_ ∪ list_to_set l.*1) (fold_left (plan_new entries) l p).
Proof.
  induction l as [|[id want] l IH]; intros done_ p Hok Hnd He Hl; cbn [fold_left].
  - change (plan_ok (done_ ∪ ∅) p). by rewrite union_empty_r_L.
  - cbn [fmap list_fmap fst] in Hnd. apply NoDup_cons in Hnd as [Hni Hnd]. destruct (Hl id want) as [H1 H2]; [by left|].
    replace (done_ ∪ list_to_set ((id, want) :: l).*1) with ((done_ ∪ {[id]}) ∪ list_to_set l.*1 : gset Z)
      by (cbn; by rewrite (assoc_L (∪))).
    assert (plan_ok (done_ ∪ {[id]}) (plan_new entries p (id, want))) as Hok'.
    { unfold plan_new. cbn [fst snd]. case_bool_decide as Hs.
      - destruct Hs as [cur Hc]. replace (done_ ∪ {[id]}) with done_; [done|]. specialize (He _ _ Hc). set_solver.
      - apply ok_add; [done| |done|left; split; [by apply eq_None_not_Some|done]]. intros Hin. by apply Hs, H2. }
    apply IH; [done|done|set_solver|]. intros k w Hin. destruct (Hl k w) as [H3 H4]; [by right|]. split; [done|].
    intros [Hk| ->%elem_of_singleton]%elem_of_union; [by apply H4|]. exfalso. apply Hni.
    by apply (list_elem_of_fmap_2 fst) in Hin.
Qed.
End Plan.

Lemma make_plan_ok desired invalid s :
  exists done_, plan_ok desired invalid (sch_entries s) done_ (make_plan desired invalid s) /\
    (forall id, is_Some (sch_entries s !! id) \/ is_Some (desired !! id) -> id ∈ done_).
Proof.
  set (d1 := list_to_set (map_to_list (sch_entries s)).*1 : gset Z). set (d2 := list_to_set (map_to_list desired).*1 : gset Z).
  assert (forall id (A : Type) (m : gmap Z A), id ∈ (list_to_set (map_to_list m).*1 : gset Z) <-> is_Some (m !! id)) as Hdom.
  { intros id A m. rewrite elem_of_list_to_set, list_elem_of_fmap. split.
    - intros ([k x] & -> & Hin%elem_of_map_to_list). eauto.
    - intros [x Hx]. exists (id, x). by rewrite elem_of_map_to_list. }
  exists (d1 ∪ d2). split.
  - unfold make_plan. apply new_loop.
    + replace d1 with (∅ ∪ d1) by (by rewrite union_empty_l_L). apply current_loop.
      * split; cbn; try done; try lia; [| |apply NoDup_nil_2|].
        -- intros id _. split; [apply lookup_empty|apply not_elem_of_nil].
        -- intros k w Hin. by apply elem_of_nil in Hin.
        -- intros n Hin. by apply elem_of_nil in Hin.
      * apply NoDup_fst_map_to_list.
      * intros id cur Hin. apply elem_of_map_to_list in Hin. split; [set_solver|done].
    + apply NoDup_fst_map_to_list.
    + intros id cur Hc. apply Hdom. eauto.
    + intros id want Hin. apply elem_of_map_to_list in Hin. split; [done|]. apply Hdom.
  - intros id [H|H]; apply elem_of_union; [left|right]; by apply Hdom.
Qed.

(** ** Installing *)

Section Engine.
Context {E : Type} `{!CronEngine E} `{!CronLaws E}.

Definition delete_all (ns : list Z) (m : gmap Z (string * callback)) : gmap Z (string * callback) :=
  fold_left (fun m n => delete n m) ns m.

Lemma remove_all_registered ns e : registered (remove_all ns e) = delete_all ns (registered e).
Proof.
  unfold remove_all, delete_all. revert e. induction ns as [|n ns IH]; intros e; [done|]. cbn [fold_left].
  by rewrite IH, RemoveFunc_registered.
Qed.

Lemma delete_all_lookup ns m n : delete_all ns m !! n = if bool_decide (n ∈ ns) then None else m !! n.
Proof.
  unfold delete_all. revert m. induction ns as [|x ns IH]; intros m; [done|]. cbn [fold_left]. rewrite IH.
  destruct (decide (n = x)) as [->|Hne].
  - rewrite lookup_delete_eq. rewrite (bool_decide_eq_true_2 (x ∈ x :: ns)) by (by left). by case_bool_decide.
  - rewrite lookup_delete_ne by done. erewrite bool_decide_ext; [done|]. rewrite elem_of_cons. naive_solver.
Qed.

Definition cb_of (id : Z) (w : scheduledJob) : string * callback := (sj_spec w, (id, sj_revision w, sj_generation w)).

Record installed_ok (added : list (Z * scheduledJob)) (next next' : gmap Z scheduledJob) (e e' : E) : Prop := {
  io_other : forall id, id ∉ added.*1 -> next' !! id = next !! id;
  io_added : forall id w, (id, w) ∈ added -> exists n,
    next' !! id = Some (set_entry n w) /\ registered e' !! n = Some (cb_of id w) /\ registered e !! n = None;
  io_old : forall n x, registered e !! n = Some x -> registered e' !! n = Some x;
  io_new : forall n x, registered e' !! n = Some x ->
    registered e !! n = Some x \/ exists id w, (id, w) ∈ added /\ next' !! id = Some (set_entry n w)
}.

Lemma install_ok added : forall installed next e next' e',
  NoDup added.*1 -> install_added added installed next e = (inl next', e') -> installed_ok added next next' e e'.
Proof.
  induction added as [|[id w] added IH]; intros installed next e next' e' Hnd; cbn [install_added].
  - intros [= <- <-]. split; try done; [|auto]. intros id w Hin. by apply elem_of_nil in Hin.
  - cbn [fmap list_fmap fst] in Hnd. apply NoDup_cons in Hnd as [Hni Hnd].
    destruct (AddFunc _ _ e) as [[n|err] e1] eqn:Ea; [|done]. intros H. apply IH in H as [Ho Ha Hold Hnew]; [|done].
    destruct (AddFunc_Ok _ _ _ _ _ Ea) as (Hn0 & Hfree & Hreg).
    split.
    + intros k Hk. cbn [fmap list_fmap fst] in Hk. apply not_elem_of_cons in Hk as [Hkne Hk].
      rewrite Ho by done. by rewrite lookup_insert_ne.
    + intros k v [[= -> ->]|Hin]%elem_of_cons.
      * exists n. rewrite Ho by done. split; [apply lookup_insert_eq|]. split; [|done]. apply Hold. rewrite Hreg.
        apply lookup_insert_eq.
      * destruct (Ha _ _ Hin) as (n' & H1 & H2 & H3). exists n'. split; [done|]. split; [done|].
        rewrite Hreg in H3. by apply lookup_insert_None in H3 as [? _].
    + intros k x Hk. apply Hold. rewrite Hreg, lookup_insert_ne by (intros ->; congruence). done.
    + intros k x Hk. destruct (Hnew _ _ Hk) as [H|(id' & w' & Hin & H)].
      * rewrite Hreg in H. destruct (decide (k = n)) as [->|Hne].
        -- right. exists id, w. split; [by left|]. rewrite Ho by done. apply lookup_insert_eq.
        -- rewrite lookup_insert_ne in H by done. by left.
      * right. exists id', w'. split; [by right|done].
Qed.

(** A failed installation leaves the registrations it found. *)
Lemma install_failed added : forall installed next e x e' base,
  (forall n, registered e !! n = if bool_decide (n ∈ installed) then registered e !! n else base !! n) ->
  (forall n, n ∈ installed -> base !! n = None) ->
  install_added added installed next e = (inr x, e') -> registered e' = base.
Proof.
  induction added as [|[id w] added IH]; intros installed next e x e' base Hb Hn; cbn [install_added]; [done|].
  destruct (AddFunc _ _ e) as [[n|err] e1] eqn:Ea.
  - destruct (AddFunc_Ok _ _ _ _ _ Ea) as (Hn0 & Hfree & Hreg). intros H. eapply (IH _ _ _ _ _ base); [| |exact H].
    + intros k. case_bool_decide as Hin; [done|]. apply not_elem_of_app in Hin as [Hin Hkn]. rewrite Hreg.
      rewrite lookup_insert_ne by (intros ->; apply Hkn; by left). specialize (Hb k). by rewrite bool_decide_eq_false_2 in Hb.
    + intros k [Hin|Hin%list_elem_of_singleton]%elem_of_app; [by apply Hn|]. subst k.
      specialize (Hb n). case_bool_decide as Hi; [by apply Hn|congruence].
  - intros [= <- <-]. apply map_eq. intros n. rewrite remove_all_registered, delete_all_lookup.
    rewrite (AddFunc_Err _ _ _ _ _ Ea). specialize (Hb n). case_bool_decide as Hi; [by rewrite Hn|done].
Qed.

(** The first of [added] the engine refuses, when they are registered in order. *)
Fixpoint first_refused (added : list (Z * scheduledJob)) (e : E) : option (Z * goerror) :=
  match added with
  | [] => None
  | (id, want) :: added =>
      match AddFunc (sj_spec want) (id, sj_revision want, sj_generation want) e with
      | (Ok _, e) => first_refused added e
      | (Err err, _) => Some (id, err)
      end
  end.

Lemma install_refused added : forall installed next e,
  first_refused added e = match (install_added added installed next e).1 with inl _ => None | inr x => Some x end.
Proof.
  induction added as [|[id w] added IH]; intros installed next e; [done|]. cbn [first_refused install_added].
  by destruct (AddFunc _ _ e) as [[n|err] e1].
Qed.

(** ** The invariant *)

(** The engine runs exactly the current registrations. *)
Record sched_ok (s : Scheduler) (e : E) : Prop := {
  so_entry : forall id w, sch_entries s !! id = Some w -> registered e !! sj_entry w = Some (cb_of id w);
  so_registered : forall n x, registered e !! n = Some x -> exists id w, sch_entries s !! id = Some w /\ sj_entry w = n
}.

Lemma entry_injective s e id1 id2 w1 w2 :
  sched_ok s e -> sch_entries s !! id1 = Some w1 -> sch_entries s !! id2 = Some w2 -> sj_entry w1 = sj_entry w2 -> id1 = id2.
Proof.
  intros [He _] H1 H2 Heq. apply He in H1. apply He in H2. rewrite Heq in H1. unfold cb_of in *. congruence.
Qed.

(** What the entries become when everything could be registered. *)
Definition reconciled (desired : gmap Z scheduledJob) (invalid : gmap Z goerror) (old new : gmap Z scheduledJob) : Prop :=
  forall id,
    match invalid !! id with
    | Some _ => desired !! id = None -> new !! id = old !! id
    | None => match desired !! id with
              | Some want => exists w, new !! id = Some w /\ same_schedule w want
              | None => new !! id = None
              end
    end.

Lemma Reconcile_installed s e desired invalid next e' :
  sched_ok s e ->
  install_added (pl_added (make_plan desired invalid s)) [] (pl_next (make_plan desired invalid s)) e = (inl next, e') ->
  forall errors,
  sched_ok (MkScheduler next errors (pl_gen (make_plan desired invalid s)) false)
    (remove_all (pl_removed (make_plan desired invalid s)) e') /\
  reconciled desired invalid (sch_entries s) next.
Proof.
  intros Hok Hinst errors. destruct (make_plan_ok desired invalid s) as (done_ & Hplan & Hall).
  set (p := make_plan desired invalid s) in *. destruct Hplan as [Ht Hd Ha Ho Hr].
  apply install_ok in Hinst as [Hother Hadded Hold Hnew]; [|done].
  assert (forall n, n ∈ pl_removed p -> is_Some (registered e !! n)) as Hremreg.
  { intros n Hn. destruct (Hr n Hn) as (id & cur & _ & Hc & <- & _). apply (so_entry _ _ Hok) in Hc. eauto. }
  assert (forall id w, next !! id = Some w ->
    (sch_entries s !! id = Some w /\ id ∉ (pl_added p).*1 /\ pl_next p !! id = Some w) \/
    (exists n want, w = set_entry n want /\ (id, want) ∈ pl_added p /\ registered e' !! n = Some (cb_of id want) /\ registered e !! n = None))
    as Hnext.
  { intros id w Hw. destruct (decide (id ∈ (pl_added p).*1)) as [Hin|Hni].
    - right. apply list_elem_of_fmap in Hin as ([k want] & -> & Hin). destruct (Hadded _ _ Hin) as (n & H1 & H2 & H3).
      cbn [fst] in Hw. exists n, want. split; [congruence|]. done.
    - left. rewrite Hother in Hw by done. destruct (decide (id ∈ done_)) as [Hid|Hid].
      + destruct (Hd _ Hid) as [cur H1 H2 H3 H4|cur H1 H2 H3 H4 H5 H6|want g H1 H2 H3 H5]; try congruence.
        * rewrite H2 in Hw. injection Hw as ->. done.
        * exfalso. apply Hni. apply (list_elem_of_fmap_2 fst) in H3. exact H3.
      + destruct (Ht _ Hid). congruence. }
  split.
  - split; cbn [sch_entries].
    + intros id w Hw. rewrite remove_all_registered, delete_all_lookup.
      destruct (Hnext _ _ Hw) as [(Hc & Hni & Hpn)|(n & want & -> & Hin & Hreg & Hfree)].
      * rewrite bool_decide_eq_false_2; [by apply Hold, (so_entry _ _ Hok)|]. intros Hrem.
        destruct (Hr _ Hrem) as (id2 & cur2 & _ & Hc2 & Heq & Hor).
        assert (id2 = id) as -> by (by eapply entry_injective). destruct Hor as [Hor|Hor]; [congruence|done].
      * cbn [sj_entry set_entry]. rewrite bool_decide_eq_false_2; [exact Hreg|]. intros Hrem. destruct (Hremreg _ Hrem). congruence.
    + intros n x. rewrite remove_all_registered, delete_all_lookup. case_bool_decide as Hrem; [done|]. intros Hx.
      destruct (Hnew _ _ Hx) as [Hx'|(id & w & Hin & Hw)]; [|eauto].
      destruct (so_registered _ _ Hok _ _ Hx') as (id & cur & Hc & <-).
      destruct (Hd id (Hall id (or_introl (mk_is_Some _ _ Hc)))) as [cur' H1 H2 H3 H4|cur' H1 H2 H3 H4 H5 H6|want g H1 H2 H3 H5].
      * assert (cur' = cur) as -> by congruence. exists id, cur. split; [|done]. by rewrite Hother.
      * assert (cur' = cur) as -> by congruence. done.
      * destruct H5 as [H5|(cur' & H5 & H6 & _ & _)]; [congruence|]. assert (cur' = cur) as -> by congruence. done.
  - intros id. destruct (decide (id ∈ done_)) as [Hid|Hid].
    2:{ destruct (Ht _ Hid) as [Hn Hna]. rewrite (Hother _ Hna), Hn.
        assert (sch_entries s !! id = None) as -> by (apply eq_None_not_Some; intros H; apply Hid, Hall; by left).
        assert (desired !! id = None) as -> by (apply eq_None_not_Some; intros H; apply Hid, Hall; by right).
        by destruct (invalid !! id). }
    destruct (Hd _ Hid) as [cur H1 H2 H3 H4|cur H1 H2 H3 H4 H5 H6|want g H1 H2 H3 H5].
    + rewrite (Hother _ H3), H2. destruct (invalid !! id) eqn:Ei; [by rewrite H1|].
      destruct H4 as [[? ?]|(want & -> & _ & Hsame)]; [done|]. eauto.
    + rewrite (Hother _ H4), H5, H6. done.
    + destruct (Hadded _ _ H3) as (n & Hn & _ & _). rewrite H1, Hn. destruct (invalid !! id); [done|]. by eexists.
Qed.

(** What the jobs ask for. *)
Definition asks (job : Job) (desired : gmap Z scheduledJob) (invalid : gmap Z goerror) : Prop :=
  if schedulerEligible job TriggerCron then
    match normalizeCronSpec (Job_Cron job) with
    | Ok spec => desired !! Job_ID job = Some (MkScheduledJob 0 (Job_Revision job) spec 0) /\ invalid !! Job_ID job = None
    | Err e => desired !! Job_ID job = None /\ invalid !! Job_ID job = Some e
    end
  else desired !! Job_ID job = None /\ invalid !! Job_ID job = None.

Lemma wanted_jobs_spec jobs : NoDup (map Job_ID jobs) ->
  let '(desired, invalid) := wanted_jobs jobs in
  (forall job, job ∈ jobs -> asks job desired invalid) /\
  (forall id, id ∉ map Job_ID jobs -> desired !! id = None /\ invalid !! id = None).
Proof.
  unfold wanted_jobs. induction jobs as [|job jobs IH] using rev_ind; intros Hnd.
  { cbn. split; [intros job Hin; by apply elem_of_nil in Hin|]. intros id _. by rewrite !lookup_empty. }
  rewrite map_app in Hnd. apply NoDup_app in Hnd as (Hnd & Hdis & _). rewrite fold_left_app.
  specialize (IH Hnd). destruct (fold_left _ jobs _) as [desired invalid]. destruct IH as [IH1 IH2].
  assert (Job_ID job ∉ map Job_ID jobs) as Hnew by (intros Hin; apply (Hdis _ Hin); by left).
  destruct (IH2 _ Hnew) as [Hd Hi]. cbn [fold_left].
  assert (forall x, x ∈ jobs -> Job_ID x <> Job_ID job) as Hne.
  { intros x Hx Heq. apply Hnew. rewrite <-Heq. by apply (list_elem_of_fmap_2 Job_ID) in Hx. }
  assert (forall d i, (forall k, k <> Job_ID job -> d !! k = desired !! k /\ i !! k = invalid !! k) -> asks job d i ->
    (forall x, x ∈ jobs ++ [job] -> asks x d i) /\
    (forall id, id ∉ map Job_ID (jobs ++ [job]) -> d !! id = None /\ i !! id = None)) as Hstep.
  { intros d i Hsame Hjob. split.
    - intros x [Hx| ->%list_elem_of_singleton]%elem_of_app; [|done]. specialize (IH1 _ Hx). unfold asks in *.
      destruct (Hsame _ (Hne _ Hx)) as [-> ->]. done.
    - intros id Hid. rewrite map_app, not_elem_of_app in Hid. destruct Hid as [H1 H2].
      destruct (Hsame id) as [-> ->]; [intros ->; apply H2; by left|]. by apply IH2. }
  destruct (schedulerEligible job TriggerCron) eqn:Ee; cbn [negb].
  - destruct (normalizeCronSpec (Job_Cron job)) as [spec|e] eqn:Es; apply Hstep;
      try (intros k Hk; by rewrite ?lookup_insert_ne by done); unfold asks; rewrite Ee, Es, lookup_insert_eq; done.
  - apply Hstep; [done|]. unfold asks. by rewrite Ee.
Qed.

(** The effect of a successful reconciliation, job by job. *)
Definition follows_jobs (jobs : list Job) (old new : gmap Z scheduledJob) : Prop :=
  (forall job, job ∈ jobs ->
     if schedulerEligible job TriggerCron then
       match normalizeCronSpec (Job_Cron job) with
       | Ok spec => exists w, new !! Job_ID job = Some w /\ sj_revision w = Job_Revision job /\ sj_spec w = spec
       | Err _ => new !! Job_ID job = old !! Job_ID job
       end
     else new !! Job_ID job = None) /\
  (forall id, id ∉ map Job_ID jobs -> new !! id = None).

Lemma reconciled_follows jobs desired invalid old new :
  NoDup (map Job_ID jobs) -> wanted_jobs jobs = (desired, invalid) -> reconciled desired invalid old new ->
  follows_jobs jobs old new.
Proof.
  intros Hnd Hw Hr. pose proof (wanted_jobs_spec jobs Hnd) as H. rewrite Hw in H. destruct H as [H1 H2]. split.
  - intros job Hin. specialize (H1 _ Hin). specialize (Hr (Job_ID job)). unfold asks in H1.
    destruct (schedulerEligible job TriggerCron); [destruct (normalizeCronSpec (Job_Cron job)) as [spec|e]|];
      destruct H1 as [E1 E2]; rewrite E1, E2 in Hr; [|auto|done].
    destruct Hr as (w & Hw' & Hs1 & Hs2). exists w. split; [done|]. split; [exact Hs1|exact Hs2].
  - intros id Hid. destruct (H2 _ Hid) as [E1 E2]. specialize (Hr id). by rewrite E1, E2 in Hr.
Qed.

Lemma joined_None (invalid : gmap Z goerror) : errors_Join (Some <$> mapErrors invalid) = None <-> invalid = ∅.
Proof.
  rewrite errors_Join_None. unfold mapErrors. split.
  - intros H. apply map_to_list_empty_iff. destruct (map_to_list invalid) as [|kv l]; [done|].
    cbn in H. apply Forall_cons in H as [H _]. done.
  - intros ->. rewrite map_to_list_empty. constructor.
Qed.

(** The registrations a reconciliation has to make: the eligible jobs whose
    expression can be normalised and that are not registered like that already. *)
Definition asks_new (jobs : list Job) (entries : gmap Z scheduledJob) (id revision : Z) (spec : string) : Prop :=
  exists job, job ∈ jobs /\ Job_ID job = id /\ schedulerEligible job TriggerCron = true /\
    Job_Revision job = revision /\ normalizeCronSpec (Job_Cron job) = Ok spec /\
    forall cur, entries !! id = Some cur -> ~ (sj_revision cur = revision /\ sj_spec cur = spec).
Definition to_register (jobs : list Job) (entries : gmap Z scheduledJob) (added : list (Z * scheduledJob)) : Prop :=
  NoDup added.*1 /\
  (forall id w, (id, w) ∈ added -> asks_new jobs entries id (sj_revision w) (sj_spec w)) /\
  (forall id revision spec, asks_new jobs entries id revision spec -> id ∈ added.*1).

Lemma plan_registers jobs s : NoDup (map Job_ID jobs) ->
  let '(desired, invalid) := wanted_jobs jobs in to_register jobs (sch_entries s) (pl_added (make_plan desired invalid s)).
Proof.
  intros Hnd. pose proof (wanted_jobs_spec jobs Hnd) as H. destruct (wanted_jobs jobs) as [desired invalid]. destruct H as [Hask Hnone].
  destruct (make_plan_ok desired invalid s) as (done_ & Hplan & Hall). set (p := make_plan desired invalid s) in *.
  destruct Hplan as [Ht Hd Ha Ho Hr]. split; [done|]. split.
  - intros id w Hin. pose proof (Ha _ _ Hin) as Hnext.
    destruct (decide (id ∈ done_)) as [Hid|Hid]; [|destruct (Ht _ Hid); congruence].
    assert (id ∈ (pl_added p).*1) as Hin' by (by apply (list_elem_of_fmap_2 fst) in Hin).
    destruct (Hd _ Hid) as [cur H1 H2 H3 H4|cur H1 H2 H3 H4 H5 H6|want g H1 H2 H3 H5]; [done|done|].
    assert (w = set_generation g want) as -> by congruence. cbn [sj_revision sj_spec set_generation].
    destruct (decide (id ∈ map Job_ID jobs)) as [Hj|Hj]; [|destruct (Hnone _ Hj); congruence].
    apply list_elem_of_fmap in Hj as (job & -> & Hj). specialize (Hask _ Hj). unfold asks in Hask.
    destruct (schedulerEligible job TriggerCron) eqn:Ee; [|destruct Hask; congruence].
    destruct (normalizeCronSpec (Job_Cron job)) as [spec|e] eqn:Es; [|destruct Hask; congruence].
    destruct Hask as [Hw _]. assert (want = MkScheduledJob 0 (Job_Revision job) spec 0) as -> by congruence.
    exists job. split_and!; try done. intros cur Hc. destruct H5 as [H5|(cur' & H5 & _ & _ & H6)]; [congruence|].
    assert (cur' = cur) as -> by congruence. exact H6.
  - intros id revision spec (job & Hj & <- & Ee & <- & Es & Hnew). specialize (Hask _ Hj). unfold asks in Hask. rewrite Ee, Es in Hask.
    destruct Hask as [Hw Hi].
    destruct (Hd _ (Hall (Job_ID job) (or_intror (mk_is_Some _ _ Hw)))) as [cur H1 H2 H3 H4|cur H1 H2 H3 H4 H5 H6|want g H1 H2 H3 H5].
    + destruct H4 as [[? ?]|(want & Hwant & _ & Hs1 & Hs2)]; [congruence|]. exfalso. apply (Hnew _ H1).
      assert (want = MkScheduledJob 0 (Job_Revision job) spec 0) as -> by congruence. done.
    + congruence.
    + by apply (list_elem_of_fmap_2 fst) in H3.
Qed.

(** The errors kept after a reconciliation the engine did not refuse. *)
Definition errors_follow (jobs : list Job) (old new : gmap Z goerror) : Prop :=
  (forall job, job ∈ jobs -> schedulerEligible job TriggerCron = true ->
     new !! Job_ID job = match normalizeCronSpec (Job_Cron job) with Ok _ => None | Err e => Some e end) /\
  (forall id, (forall job, job ∈ jobs -> Job_ID job = id -> schedulerEligible job TriggerCron = false) -> new !! id = old !! id).

Lemma reconciled_errors_follow jobs desired invalid old :
  NoDup (map Job_ID jobs) -> wanted_jobs jobs = (desired, invalid) -> errors_follow jobs old (reconciled_errors desired invalid old).
Proof.
  intros Hnd Hw. pose proof (wanted_jobs_spec jobs Hnd) as H. rewrite Hw in H. destruct H as [Hask Hnone]. unfold reconciled_errors.
  split; [intros job Hj He; specialize (Hask _ Hj); unfold asks in Hask; rewrite He in Hask|intros id Hid];
    rewrite map_lookup_filter, lookup_union.
  - destruct (normalizeCronSpec (Job_Cron job)) as [spec|e]; destruct Hask as [E1 E2]; rewrite E2.
    + destruct (old !! Job_ID job); [|done]. cbn. rewrite option_guard_False; [done|]. rewrite E1, E2. by intros [[? ?]|?].
    + rewrite (union_Some_l e). cbn. rewrite option_guard_True; [done|]. left. rewrite E2. eauto.
  - assert (desired !! id = None /\ invalid !! id = None) as [E1 E2].
    { destruct (decide (id ∈ map Job_ID jobs)) as [Hin|Hni]; [|by apply Hnone].
      apply list_elem_of_fmap in Hin as (job & -> & Hin). specialize (Hask _ Hin). unfold asks in Hask. by rewrite (Hid job) in Hask. }
    rewrite E2. destruct (old !! id); [|done]. cbn. rewrite option_guard_True; [done|]. by right.
Qed.

(** No expression of an eligible job is malformed. *)
Definition all_wellformed (jobs : list Job) : Prop :=
  forall job, job ∈ jobs -> schedulerEligible job TriggerCron = true -> is_Ok (normalizeCronSpec (Job_Cron job)) = true.

Lemma none_invalid jobs desired invalid : NoDup (map Job_ID jobs) -> wanted_jobs jobs = (desired, invalid) ->
  errors_Join (Some <$> mapErrors invalid) = None <-> all_wellformed jobs.
Proof.
  intros Hnd Ew. rewrite joined_None. pose proof (wanted_jobs_spec jobs Hnd) as H. rewrite Ew in H. destruct H as [Hask Hnone]. split.
  - intros -> job Hin He. specialize (Hask _ Hin). unfold asks in Hask. rewrite He in Hask.
    destruct (normalizeCronSpec (Job_Cron job)); [done|]. destruct Hask as [_ Hask]. by rewrite lookup_empty in Hask.
  - intros Hall. apply map_eq. intros id. rewrite lookup_empty. destruct (decide (id ∈ map Job_ID jobs)) as [Hin|Hni]; [|by apply Hnone].
    apply list_elem_of_fmap in Hin as (job & -> & Hin). specialize (Hask _ Hin). specialize (Hall _ Hin). unfold asks in Hask.
    destruct (schedulerEligible job TriggerCron); [|by destruct Hask]. specialize (Hall eq_refl).
    destruct (normalizeCronSpec (Job_Cron job)); [by destruct Hask|done].
Qed.

Lemma Reconcile_decides jobs s e :
  NoDup (map Job_ID jobs) -> sched_ok s e -> sch_closed s = false ->
  let '(err, s', e') := Reconcile jobs s e in
  sched_ok s' e' /\ sch_closed s' = false /\
  exists added, to_register jobs (sch_entries s) added /\
    match first_refused added e with
    | None => follows_jobs jobs (sch_entries s) (sch_entries s') /\ errors_follow jobs (sch_errors s) (sch_errors s') /\
              (err = None <-> all_wellformed jobs)
    | Some (id, refusal) =>
        err = Some (ErrWrap ("job " +:+ Itoa id +:+ ": ") refusal "") /\
        sch_entries s' = sch_entries s /\ registered e' = registered e /\ sch_errors s' = <[id := refusal]> (sch_errors s)
    end.
Proof.
  intros Hnd Hok Hopen. unfold Reconcile. pose proof (plan_registers jobs s Hnd) as Hreg.
  destruct (wanted_jobs jobs) as [desired invalid] eqn:Ew. rewrite Hopen. cbv zeta. unfold planned. cbn [sch_closed]. rewrite Hopen.
  set (p := make_plan desired invalid s) in *. pose proof (install_refused (pl_added p) [] (pl_next p) e) as Hfirst.
  destruct (install_added _ _ _ e) as [[next|[id err]] e'] eqn:Ei; cbn [fst] in Hfirst.
  - destruct (Reconcile_installed s e desired invalid next e' Hok Ei (reconciled_errors desired invalid (sch_errors s))) as [H1 H2].
    split; [exact H1|]. split; [done|]. exists (pl_added p). split; [done|]. rewrite Hfirst.
    split; [by eapply reconciled_follows|]. split; [by apply reconciled_errors_follow|]. by eapply none_invalid.
  - apply (install_failed _ [] _ _ _ _ (registered e)) in Ei; [|intros n; by case_bool_decide|intros n Hn; by apply elem_of_nil in Hn].
    unfold add_failed. cbn [sch_closed sch_entries sch_errors sch_nextGen].
    split; [|split; [done|exists (pl_added p); split; [done|]; by rewrite Hfirst]].
    destruct Hok as [H1 H2]. split; cbn [sch_entries]; rewrite Ei; done.
Qed.

Lemma Reconcile_cases jobs s e :
  NoDup (map Job_ID jobs) -> sched_ok s e -> sch_closed s = false ->
  let '(err, s', e') := Reconcile jobs s e in
  sched_ok s' e' /\ sch_closed s' = false /\
  (follows_jobs jobs (sch_entries s) (sch_entries s') /\ (err = None <-> all_wellformed jobs) \/
   err <> None /\ sch_entries s' = sch_entries s /\ registered e' = registered e).
Proof.
  intros Hnd Hok Hopen. pose proof (Reconcile_decides jobs s e Hnd Hok Hopen) as H. destruct (Reconcile jobs s e) as [[err s'] e'].
  destruct H as (H1 & H2 & added & _ & H). split; [done|]. split; [done|]. destruct (first_refused added e) as [[id refusal]|].
  - destruct H as (-> & ? & ? & _). by right.
  - destruct H as (? & _ & ?). by left.
Qed.

(** The states of a scheduler and its engine. *)
Inductive sched_reach : Scheduler -> E -> Prop :=
  | reach_new e : registered e = ∅ -> sched_reach newScheduler e
  | reach_reconcile s e jobs : sched_reach s e -> NoDup (map Job_ID jobs) ->
      sched_reach (Reconcile jobs s e).1.2 (Reconcile jobs s e).2
  | reach_fired s e id generation err : sched_reach s e -> sched_reach (fired id generation err s) e
  | reach_close s e e' : sched_reach s e -> sched_reach (Close s) e'.

Lemma fired_entries id generation err s :
  sch_entries (fired id generation err s) = sch_entries s /\ sch_closed (fired id generation err s) = sch_closed s.
Proof. unfold fired. destruct err as [e|]; [|done]. destruct (sch_entries s !! id); [|done]. by case_goal. Qed.

Lemma reach_ok s e : sched_reach s e ->
  if sch_closed s then sch_entries s = ∅ else sched_ok s e.
Proof.
  induction 1 as [e He|s e jobs Hr IH Hnd|s e id generation err Hr IH|s e e' Hr IH].
  - cbn. split; cbn; [intros id w Hw; by rewrite lookup_empty in Hw|]. intros n x. by rewrite He, lookup_empty.
  - destruct (sch_closed s) eqn:Ec.
    + unfold Reconcile. destruct (wanted_jobs jobs). rewrite Ec. cbn. by rewrite Ec.
    + pose proof (Reconcile_cases jobs s e Hnd IH Ec) as H. destruct (Reconcile jobs s e) as [[err s'] e'].
      cbn. destruct H as (H & -> & _). exact H.
  - destruct (fired_entries id generation err s) as [H1 H2]. rewrite H2, H1. destruct (sch_closed s); [done|].
    destruct IH as [IH1 IH2]. split; rewrite H1; done.
  - unfold Close. destruct (sch_closed s) eqn:Ec; [by rewrite Ec|done].
Qed.
End Engine.

(** ** Properties *)

(** C16: reconciling does what the jobs ask for, or nothing.  With any engine, a
    scheduler whose registrations match its entries keeps that match.  The
    registrations to make are those of the eligible jobs whose expression can be
    normalised and that are not registered at that revision and schedule; a
    malformed expression is none of them.  When the engine takes them all,
    afterwards every eligible job is registered with its revision and normalised
    schedule and has no error, a job whose expression has not five or six fields
    keeps what it had and has its error, and no other job is registered; the result
    is nil exactly when no expression was of that kind.  When the engine refuses
    one of them, the result and the error kept for that job are the engine's, and
    the entries and the engine's registrations are what they were, for all jobs. *)
Theorem Reconcile_spec {E} `{!CronEngine E} `{!CronLaws E} jobs s (e : E) :
  NoDup (map Job_ID jobs) -> sched_ok s e -> sch_closed s = false ->
  let '(err, s', e') := Reconcile jobs s e in
  sched_ok s' e' /\ sch_closed s' = false /\
  exists added, to_register jobs (sch_entries s) added /\
    match first_refused added e with
    | None => follows_jobs jobs (sch_entries s) (sch_entries s') /\ errors_follow jobs (sch_errors s) (sch_errors s') /\
              (err = None <-> all_wellformed jobs)
    | Some (id, refusal) =>
        err = Some (ErrWrap ("job " +:+ Itoa id +:+ ": ") refusal "") /\
        sch_entries s' = sch_entries s /\ registered e' = registered e /\ sch_errors s' = <[id := refusal]> (sch_errors s)
    end.
Proof. apply Reconcile_decides. Qed.

(** C27: only the current registration of a job starts runs.  In every state an
    application can reach by reconciling, firing and closing, a callback that
    fires asks for a run exactly when the engine still has it registered (the
    request names the job and the revision it was registered for); a callback
    of a removed or replaced registration that is still in flight starts nothing,
    and nothing fires after [Close]. *)
Theorem fire_current {E} `{!CronEngine E} `{!CronLaws E} s (e : E) id revision generation :
  sched_reach s e ->
  (fire id revision generation s = Some (MkStartRunInput id revision RunOriginCron false) \/ fire id revision generation s = None) /\
  (fire id revision generation s <> None <->
     sch_closed s = false /\ exists n spec, registered e !! n = Some (spec, (id, revision, generation))).
Proof.
  intros Hr%reach_ok. unfold fire. destruct (sch_closed s) eqn:Ec.
  - rewrite Hr, lookup_empty. split; [by right|]. split; [done|by intros [? _]].
  - destruct Hr as [He Hreg]. split.
    { destruct (sch_entries s !! id); [|by right]. case_goal; auto. }
    split.
    + destruct (sch_entries s !! id) as [w|] eqn:Hw; [|done]. case_goal; [done|]. intros _. split; [done|].
      apply orb_false_iff in Heqb as [Hb1 Hb2]. cbn in Hb1. apply negb_false_iff, Z.eqb_eq in Hb1, Hb2. subst.
      exists (sj_entry w), (sj_spec w). exact (He _ _ Hw).
    + intros (_ & n & spec & Hn). destruct (Hreg _ _ Hn) as (id' & w & Hw & Hnw).
      pose proof (He _ _ Hw) as Hw'. rewrite Hnw, Hn in Hw'.
      unfold cb_of in Hw'. injection Hw' as _ -> -> ->. rewrite Hw. cbn. by rewrite !Z.eqb_refl.
Qed.

(** ** Witnesses *)

(** An engine that numbers its registrations and refuses the specification of
    the 61st minute. *)
Record demo_engine := MkDemoEngine { de_next : positive; de_regs : gmap Z (string * callback) }.

#[export] Instance demo_cron : CronEngine demo_engine := {|
  AddFunc spec cb e :=
    if string_eqb spec "0 61 * * * *" then (Err (ErrNew "end of range (61) above maximum (59)"), e)
    else if bool_decide (de_regs e !! Zpos (de_next e) = None)
    then (Ok (Zpos (de_next e)), MkDemoEngine (de_next e + 1) (<[Zpos (de_next e) := (spec, cb)]> (de_regs e)))
    else (Err (ErrNew "full"), e);
  RemoveFunc id e := MkDemoEngine (de_next e) (delete id (de_regs e));
  registered := de_regs
|}.

#[export] Instance demo_cron_laws : CronLaws demo_engine.
Proof.
  split.
  - intros spec cb e id e'. cbn. case_goal; [done|]. case_bool_decide as H; [|done]. by intros [= <- <-].
  - intros spec cb e err e'. cbn. case_goal; [by intros [= _ <-]|]. case_bool_decide; [done|]. by intros [= _ <-].
  - done.
Qed.

Definition cron_job (id revision : Z) (spec : string) : Job :=
  MkJob 2 id revision "nightly" true false (MkAction ActionCommand "" [] "true" zeroSyncAction)
    (MkIdentity IdentityFixed "alice" 1000 "users" 100) (MkExecutionPolicy "" [] 0 0 0 "skip") TriggerCron
    (MkSchedulerPolicy SchedulerSyncBridge) "" "" "" "" "" "" "" spec "" "" 0 0 0 "" "" false 0 0 false false "" false "" "".

Definition demo_empty : demo_engine := MkDemoEngine 1 ∅.
Definition demo_reconciled : option goerror * Scheduler * demo_engine :=
  Reconcile [cron_job 7 3 "5 4 * * *"] newScheduler demo_empty.

Lemma demo_sched_reach : sched_reach demo_reconciled.1.2 demo_reconciled.2.
Proof. apply reach_reconcile; [by apply reach_new|]. repeat constructor. apply not_elem_of_nil. Qed.

Lemma Reconcile_spec_witness :
  sch_closed demo_reconciled.1.2 = false /\
  let '(err, s', e') := Reconcile [cron_job 8 1 "61 * * * *"; cron_job 7 4 "5 5 * * *"] demo_reconciled.1.2 demo_reconciled.2 in
  err <> None /\ sched_ok s' e'.
Proof.
  split; [reflexivity|].
  pose proof (Reconcile_spec [cron_job 8 1 "61 * * * *"; cron_job 7 4 "5 5 * * *"] demo_reconciled.1.2 demo_reconciled.2) as H.
  assert (is_Some ((Reconcile [cron_job 8 1 "61 * * * *"; cron_job 7 4 "5 5 * * *"] demo_reconciled.1.2 demo_reconciled.2).1.1)) as Hs.
  { vm_compute. eauto. }
  destruct (Reconcile _ demo_reconciled.1.2 demo_reconciled.2) as [[err s'] e']. split.
  - cbn in Hs. by destruct Hs as [x ->].
  - apply H; [|exact (reach_ok _ _ demo_sched_reach)|reflexivity].
    apply NoDup_cons. split; [vm_compute; intros Hin; by apply list_elem_of_singleton in Hin|apply NoDup_singleton].
Defined.

Lemma fire_current_witness :
  fire 7 3 1 demo_reconciled.1.2 <> None /\ fire 7 2 1 demo_reconciled.1.2 = None.
Proof.
  split; [|reflexivity]. apply (fire_current _ _ 7 3 1 demo_sched_reach). split; [reflexivity|].
  exists 1%Z, "0 5 4 * * *". vm_compute. reflexivity.
Defined.
