(* ===== verification/SchedulerSteps.v ===== *)
(** * The scheduler under any interleaving ([scheduler.go])

    Callbacks of the cron engine take only [s.mu], so they run between the pieces
    of a reconciliation: the critical section that plans, each registration and
    removal at the engine, and the critical section that publishes.  [reconcileMu]
    keeps other reconciliations and [Close] out until the last piece.  The calls of
    the run service lie between the two sections of a callback. *)

From S2P Require Import Prelude GoStrings Model LogBuffer HostCommand Capabilities ExecutionPlan.
From S2P Require Import RunService Scheduler SchedulerProofs.

(** ** Steps *)

(** Where a reconciliation is: registering [added], with what is [installed]
    already, or removing what was replaced. *)
Inductive sched_phase :=
  | SRegister (desired : gmap Z scheduledJob) (invalid : gmap Z goerror) (plan : plan_state)
      (added : list (Z * scheduledJob)) (installed : list Z) (next : gmap Z scheduledJob)
  | SRemove (removed : list Z).

(** [ct_callbacks]: the engine called the function, which has not looked at the
    entries yet.  [ct_running]: it is calling the run service. *)
Record cron_state (E : Type) := MkCronState {
  ct_sched : Scheduler;
  ct_engine : E;
  ct_phase : option sched_phase;
  ct_callbacks : list callback;
  ct_running : list callback;
  ct_requests : list StartRunInput;
  ct_jobs : list Job
}.
Arguments MkCronState {E}.
Arguments ct_sched {E}.
Arguments ct_engine {E}.
Arguments ct_phase {E}.
Arguments ct_callbacks {E}.
Arguments ct_running {E}.
Arguments ct_requests {E}.
Arguments ct_jobs {E}.

Section Steps.
Context {E : Type} `{!CronEngine E}.
Notation state := (cron_state E).

Definition cron_start (e : E) : state := MkCronState newScheduler e None [] [] [] [].

Definition set_sched (sch : Scheduler) (s : state) : state :=
  MkCronState sch (ct_engine s) (ct_phase s) (ct_callbacks s) (ct_running s) (ct_requests s) (ct_jobs s).
Definition to_phase (sch : Scheduler) (e : E) (p : option sched_phase) (s : state) : state :=
  MkCronState sch e p (ct_callbacks s) (ct_running s) (ct_requests s) (ct_jobs s).

(** The jobs given to [Reconcile] come from the repository: no ID twice. *)
Inductive cstep : state -> state -> Prop :=
  | step_plan s jobs desired invalid plan :
      ct_phase s = None -> NoDup (map Job_ID jobs) -> wanted_jobs jobs = (desired, invalid) ->
      sch_closed (ct_sched s) = false -> plan = make_plan desired invalid (ct_sched s) ->
      cstep s (MkCronState (planned plan (ct_sched s)) (ct_engine s)
                 (Some (SRegister desired invalid plan (pl_added plan) [] (pl_next plan)))
                 (ct_callbacks s) (ct_running s) (ct_requests s) (ct_jobs s ++ jobs))
  | step_register s desired invalid plan id want added installed next entry e :
      ct_phase s = Some (SRegister desired invalid plan ((id, want) :: added) installed next) ->
      AddFunc (sj_spec want) (id, sj_revision want, sj_generation want) (ct_engine s) = (Ok entry, e) ->
      cstep s (to_phase (ct_sched s) e
                 (Some (SRegister desired invalid plan added (installed ++ [entry]) (<[id := set_entry entry want]> next))) s)
  | step_refused s desired invalid plan id want added installed next err e :
      ct_phase s = Some (SRegister desired invalid plan ((id, want) :: added) installed next) ->
      AddFunc (sj_spec want) (id, sj_revision want, sj_generation want) (ct_engine s) = (Err err, e) ->
      cstep s (to_phase (add_failed id err (ct_sched s)) (remove_all installed e) None s)
  | step_publish_jobs s desired invalid plan installed next :
      ct_phase s = Some (SRegister desired invalid plan [] installed next) -> sch_closed (ct_sched s) = false ->
      cstep s (to_phase (publish_jobs desired invalid next (ct_sched s)) (ct_engine s) (Some (SRemove (pl_removed plan))) s)
  | step_remove s n removed :
      ct_phase s = Some (SRemove (n :: removed)) ->
      cstep s (to_phase (ct_sched s) (RemoveFunc n (ct_engine s)) (Some (SRemove removed)) s)
  | step_reconciled s : ct_phase s = Some (SRemove []) -> cstep s (to_phase (ct_sched s) (ct_engine s) None s)
  | step_tick s n spec cb :
      registered (ct_engine s) !! n = Some (spec, cb) ->
      cstep s (MkCronState (ct_sched s) (ct_engine s) (ct_phase s) (cb :: ct_callbacks s) (ct_running s) (ct_requests s) (ct_jobs s))
  | step_stale s before after id revision generation :
      ct_callbacks s = before ++ (id, revision, generation) :: after -> fire id revision generation (ct_sched s) = None ->
      cstep s (MkCronState (ct_sched s) (ct_engine s) (ct_phase s) (before ++ after) (ct_running s) (ct_requests s) (ct_jobs s))
  | step_fires s before after id revision generation request :
      ct_callbacks s = before ++ (id, revision, generation) :: after ->
      fire id revision generation (ct_sched s) = Some request ->
      cstep s (MkCronState (ct_sched s) (ct_engine s) (ct_phase s) (before ++ after) ((id, revision, generation) :: ct_running s)
                 (ct_requests s ++ [request]) (ct_jobs s))
  | step_fired s before after id revision generation err :
      ct_running s = before ++ (id, revision, generation) :: after ->
      cstep s (MkCronState (fired id generation err (ct_sched s)) (ct_engine s) (ct_phase s) (ct_callbacks s) (before ++ after)
                 (ct_requests s) (ct_jobs s))
  | step_close_sched s : ct_phase s = None -> cstep s (set_sched (Close (ct_sched s)) s).

Inductive csteps : state -> state -> Prop :=
  | csteps_refl s : csteps s s
  | csteps_next s s' s'' : csteps s s' -> cstep s' s'' -> csteps s s''.

(** ** The invariant *)

(** A reconciliation was given an eligible job with this revision and schedule. *)
Definition cron_wanted (jobs : list Job) (id revision : Z) (spec : string) : Prop :=
  exists job, job ∈ jobs /\ Job_ID job = id /\ Job_Revision job = revision /\
    schedulerEligible job TriggerCron = true /\ normalizeCronSpec (Job_Cron job) = Ok spec.
Definition all_wanted (jobs : list Job) (entries : gmap Z scheduledJob) : Prop :=
  forall id w, entries !! id = Some w -> cron_wanted jobs id (sj_revision w) (sj_spec w).

Context `{!CronLaws E}.

(** What is left to do ends as [Reconcile] does when nothing comes between. *)
Definition phase_ok (s : state) : Prop :=
  match ct_phase s with
  | None => sch_closed (ct_sched s) = true \/ sched_ok (ct_sched s) (ct_engine s)
  | Some (SRegister desired invalid plan added installed next) =>
      sch_closed (ct_sched s) = false /\
      exists s0 e0, sch_entries s0 = sch_entries (ct_sched s) /\ sched_ok s0 e0 /\ plan = make_plan desired invalid s0 /\
        install_added (pl_added plan) [] (pl_next plan) e0 = install_added added installed next (ct_engine s) /\
        all_wanted (ct_jobs s) desired
  | Some (SRemove removed) =>
      sch_closed (ct_sched s) = false /\ sched_ok (ct_sched s) (remove_all removed (ct_engine s))
  end.

Record cron_inv (s : state) : Prop := {
  ci_phase : phase_ok s;
  ci_entries : all_wanted (ct_jobs s) (sch_entries (ct_sched s));
  ci_requests : forall r, r ∈ ct_requests s -> Start_Origin r = RunOriginCron /\ Start_DryRun r = false /\
    exists spec, cron_wanted (ct_jobs s) (Start_JobID r) (Start_Revision r) spec
}.

Lemma cron_wanted_mono jobs more id revision spec : cron_wanted jobs id revision spec -> cron_wanted (jobs ++ more) id revision spec.
Proof. intros (job & Hj & H). exists job. split; [|done]. apply elem_of_app. by left. Qed.

Lemma sched_ok_entries s s' (e : E) : sch_entries s' = sch_entries s -> sched_ok s e -> sched_ok s' e.
Proof. intros Hs [H1 H2]. split; by rewrite Hs. Qed.

Lemma desired_wanted jobs more : NoDup (map Job_ID jobs) -> all_wanted (more ++ jobs) (wanted_jobs jobs).1.
Proof.
  intros Hnd id w Hw. pose proof (wanted_jobs_spec jobs Hnd) as H. destruct (wanted_jobs jobs) as [desired invalid]. cbn in Hw.
  destruct H as [Hask Hnone]. destruct (decide (id ∈ map Job_ID jobs)) as [Hin|Hni]; [|destruct (Hnone _ Hni); congruence].
  apply list_elem_of_fmap in Hin as (job & -> & Hin). specialize (Hask _ Hin). unfold asks in Hask.
  destruct (schedulerEligible job TriggerCron) eqn:Ee; [|destruct Hask; congruence].
  destruct (normalizeCronSpec (Job_Cron job)) as [spec|e] eqn:Es; [|destruct Hask; congruence]. destruct Hask as [Hd _].
  assert (w = MkScheduledJob 0 (Job_Revision job) spec 0) as -> by congruence. exists job.
  split; [apply elem_of_app; by right|done].
Qed.

Lemma phase_kept s sch callbacks running requests :
  sch_entries sch = sch_entries (ct_sched s) -> sch_closed sch = sch_closed (ct_sched s) -> phase_ok s ->
  phase_ok (MkCronState sch (ct_engine s) (ct_phase s) callbacks running requests (ct_jobs s)).
Proof.
  intros He Hc. unfold phase_ok. cbn. destruct (ct_phase s) as [[]|]; rewrite Hc, ?He; [done| |].
  - intros [? Hok]. split; [done|]. by eapply sched_ok_entries.
  - intros [?|Hok]; [by left|right]. by eapply sched_ok_entries.
Qed.

(** A step of a callback changes no entry. *)
Lemma callback_inv s sch callbacks running : cron_inv s -> sch_entries sch = sch_entries (ct_sched s) ->
  sch_closed sch = sch_closed (ct_sched s) ->
  cron_inv (MkCronState sch (ct_engine s) (ct_phase s) callbacks running (ct_requests s) (ct_jobs s)).
Proof. intros [Hp He Hr] Hent Hcl. split; cbn; [by apply phase_kept|by rewrite Hent|done]. Qed.

Lemma plan_inv s jobs desired invalid : cron_inv s -> ct_phase s = None -> NoDup (map Job_ID jobs) ->
  wanted_jobs jobs = (desired, invalid) -> sch_closed (ct_sched s) = false ->
  let plan := make_plan desired invalid (ct_sched s) in
  cron_inv (MkCronState (planned plan (ct_sched s)) (ct_engine s)
    (Some (SRegister desired invalid plan (pl_added plan) [] (pl_next plan)))
    (ct_callbacks s) (ct_running s) (ct_requests s) (ct_jobs s ++ jobs)).
Proof.
  intros [Hp He Hr] Eph Hnd Ew Hopen plan. unfold phase_ok in Hp. rewrite Eph in Hp. destruct Hp as [?|Hok]; [congruence|]. split; cbn.
  - split; [done|]. exists (ct_sched s), (ct_engine s). split_and!; try done.
    pose proof (desired_wanted jobs (ct_jobs s) Hnd) as Hd. by rewrite Ew in Hd.
  - intros id w Hw. apply cron_wanted_mono. by apply He.
  - intros r Hin. destruct (Hr r Hin) as (? & ? & spec & ?). split_and!; [done..|]. exists spec. by apply cron_wanted_mono.
Qed.

(** The entries a plan installs are those there were and those that are wanted. *)
Lemma next_wanted jobs desired invalid s0 e0 next e1 :
  sched_ok s0 e0 -> all_wanted jobs desired -> all_wanted jobs (sch_entries s0) ->
  install_added (pl_added (make_plan desired invalid s0)) [] (pl_next (make_plan desired invalid s0)) e0 = (inl next, e1) ->
  all_wanted jobs next.
Proof.
  intros Hok Hd He Hi. destruct (Reconcile_installed s0 e0 desired invalid next e1 Hok Hi ∅) as [_ Hr].
  destruct (make_plan_ok desired invalid s0) as (done_ & [Ht Hdone Ha Ho _] & _).
  apply install_ok in Hi as [Hother Hadded _ _]; [|done]. intros id w Hw.
  destruct (decide (id ∈ done_)) as [Hin|Hni]; [|destruct (Ht _ Hni) as [Hn Hna]; rewrite (Hother _ Hna) in Hw; congruence].
  destruct (Hdone _ Hin) as [cur H1 H2 H3 _|cur H1 H2 H3 H4 H5 H6|want g H1 H2 H3 _].
  - rewrite (Hother _ H3), H2 in Hw. injection Hw as <-. by apply He.
  - rewrite (Hother _ H4), H2 in Hw. done.
  - destruct (Hadded _ _ H3) as (n & Hn & _). rewrite Hn in Hw. injection Hw as <-. by apply (Hd id want).
Qed.

Lemma cstep_inv s s' : cron_inv s -> cstep s s' -> cron_inv s'.
Proof.
  intros Hinv Hstep. pose proof Hinv as [Hp He Hr]. unfold phase_ok in Hp.
  destruct Hstep as [s jobs desired invalid plan Eph Hnd Ew Hopen ->|s desired invalid plan id want added installed next entry e Eph Ea
    |s desired invalid plan id want added installed next err e Eph Ea|s desired invalid plan installed next Eph Hopen
    |s n removed Eph|s Eph|s n spec cb Hn|s before after id revision generation Ecb Ef
    |s before after id revision generation request Ecb Ef|s before after id revision generation err Ecb|s Eph].
  - by apply (plan_inv s jobs desired invalid).
  - rewrite Eph in Hp. destruct Hp as (Hopen & s0 & e0 & Hs0 & Hok & -> & Hrest & Hd). split; cbn; [|done..].
    split; [done|]. exists s0, e0. split_and!; try done. rewrite Hrest. cbn [install_added]. by rewrite Ea.
  - rewrite Eph in Hp. destruct Hp as (Hopen & s0 & e0 & Hs0 & Hok & -> & Hrest & Hd). unfold add_failed. rewrite Hopen.
    split; cbn; [|done..]. right. cbn [install_added] in Hrest. rewrite Ea in Hrest.
    apply (install_failed _ [] _ _ _ _ (registered e0)) in Hrest; [|intros n; by case_bool_decide|by intros n Hn%elem_of_nil].
    destruct Hok as [H1 H2]. split; cbn [sch_entries]; by rewrite Hrest, <-Hs0.
  - rewrite Eph in Hp. destruct Hp as (_ & s0 & e0 & Hs0 & Hok & -> & Hrest & Hd). cbn [install_added] in Hrest. split; cbn; [|..|done].
    + split; [done|]. pose proof (proj1 (Reconcile_installed s0 e0 desired invalid next _ Hok Hrest ∅)) as Hok'.
      eapply sched_ok_entries; [|exact Hok']. done.
    + apply (next_wanted _ desired invalid s0 e0 next (ct_engine s)); [done|done| |exact Hrest]. by rewrite Hs0.
  - rewrite Eph in Hp. split; cbn; [|done..]. exact Hp.
  - rewrite Eph in Hp. split; cbn; [|done..]. right. by destruct Hp.
  - by apply callback_inv.
  - by apply callback_inv.
  - split; cbn; [by apply phase_kept|done|]. intros r [Hin|Hin%list_elem_of_singleton]%elem_of_app; [by apply Hr|]. subst r.
    unfold fire in Ef. destruct (sch_entries (ct_sched s) !! id) as [w|] eqn:Hw; [|done].
    destruct (_ || _) eqn:Eb; [done|]. injection Ef as <-. bool_simpl. split_and!; [done..|]. exists (sj_spec w). cbn.
    replace revision with (sj_revision w) by (by repeat match goal with H : negb _ = false |- _ => apply negb_false_iff, Z.eqb_eq in H end).
    by apply He.
  - destruct (fired_entries id generation err (ct_sched s)). by apply callback_inv.
  - rewrite Eph in Hp. unfold set_sched, Close. destruct (sch_closed (ct_sched s)) eqn:Ec; [by rewrite Eph; destruct s; cbn in *; subst|].
    split; cbn; [|intros id w Hw; by rewrite lookup_empty in Hw|done]. rewrite Eph. by left.
Qed.

Lemma csteps_inv s s' : csteps s s' -> cron_inv s -> cron_inv s'.
Proof. induction 1 as [|s s' s'' _ IH Hstep]; intros H0; [done|]. eapply cstep_inv; [by apply IH|done]. Qed.

Lemma start_inv e : registered e = ∅ -> cron_inv (cron_start e).
Proof.
  intros He. split; cbn; [right|intros id w Hw; by rewrite lookup_empty in Hw|by intros r Hr%elem_of_nil].
  split; cbn; [intros id w Hw; by rewrite lookup_empty in Hw|]. intros n x. by rewrite He, lookup_empty.
Qed.

(** A scheduler that is closed stays so, and asks for nothing. *)
Lemma closed_step s s' : cstep s s' -> sch_closed (ct_sched s) = true -> sch_closed (ct_sched s') = true /\ ct_requests s' = ct_requests s.
Proof.
  intros Hstep Hc. destruct Hstep; cbn; try done; try congruence.
  - unfold add_failed. by rewrite Hc.
  - exfalso. unfold fire in *. rewrite Hc in *. by destruct (sch_entries (ct_sched s) !! id).
  - by rewrite (proj2 (fired_entries id generation err (ct_sched s))).
  - unfold Close. by rewrite Hc.
Qed.

Lemma closed_steps s s' : csteps s s' -> sch_closed (ct_sched s) = true -> sch_closed (ct_sched s') = true /\ ct_requests s' = ct_requests s.
Proof.
  induction 1 as [|s s' s'' _ IH Hstep]; intros Hc; [done|]. destruct (IH Hc) as [Hc' Hr].
  destruct (closed_step _ _ Hstep Hc') as [? ->]. done.
Qed.
End Steps.

(** ** Properties *)

(** C36: the cron scheduler under any interleaving of reconciliations, callbacks,
    the answers of the run service and [Close].  Every request names the ID and the
    revision of an eligible job with a well-formed expression that some
    reconciliation was given.  A request is made only by a callback whose job,
    revision and generation are those of the job's current entry, while the
    scheduler is open.  When no reconciliation is under way, the engine runs exactly
    the current entries, whatever callbacks came in between, so every one of its
    callbacks asks for its run.  Once the scheduler is closed nothing is requested
    ever after. *)
Theorem cron_requests {E} `{!CronEngine E} `{!CronLaws E} (e : E) s :
  registered e = ∅ -> csteps (cron_start e) s ->
  (forall r, r ∈ ct_requests s -> Start_Origin r = RunOriginCron /\ Start_DryRun r = false /\
     exists job, job ∈ ct_jobs s /\ Job_ID job = Start_JobID r /\ Job_Revision job = Start_Revision r /\
       schedulerEligible job TriggerCron = true /\ is_Ok (normalizeCronSpec (Job_Cron job)) = true) /\
  (forall s', cstep s s' -> ct_requests s' = ct_requests s \/
     sch_closed (ct_sched s) = false /\
     exists id revision generation w, (id, revision, generation) ∈ ct_callbacks s /\
       sch_entries (ct_sched s) !! id = Some w /\ sj_revision w = revision /\ sj_generation w = generation /\
       ct_requests s' = ct_requests s ++ [MkStartRunInput id revision RunOriginCron false]) /\
  (ct_phase s = None -> sch_closed (ct_sched s) = false ->
     sched_ok (ct_sched s) (ct_engine s) /\
     forall n spec id revision generation, registered (ct_engine s) !! n = Some (spec, (id, revision, generation)) ->
       fire id revision generation (ct_sched s) = Some (MkStartRunInput id revision RunOriginCron false)) /\
  (sch_closed (ct_sched s) = true -> forall s', csteps s s' -> ct_requests s' = ct_requests s).
Proof.
  intros He Hs. pose proof (csteps_inv _ _ Hs (start_inv e He)) as [Hp _ Hr]. split_and!.
  - intros r Hin. destruct (Hr r Hin) as (H1 & H2 & spec & job & Hj & Hid & Hrev & Hel & Hspec). split_and!; [done..|].
    exists job. split_and!; try done. by rewrite Hspec.
  - intros s' Hstep. destruct Hstep as [| | | | | | | |s before after id revision generation request Ecb Ef| |]; try (by left). right.
    unfold fire in Ef. destruct (sch_entries (ct_sched s) !! id) as [w|] eqn:Hw; [|done].
    destruct (_ || _) eqn:Eb; [done|]. injection Ef as <-. bool_simpl. split; [done|]. exists id, revision, generation, w.
    repeat match goal with H : negb _ = false |- _ => apply negb_false_iff, Z.eqb_eq in H end.
    split_and!; try done. rewrite Ecb. apply elem_of_app. right. by left.
  - intros Eph Hopen. unfold phase_ok in Hp. rewrite Eph in Hp. destruct Hp as [?|Hok]; [congruence|]. split; [done|].
    intros n spec id revision generation Hn. destruct (so_registered _ _ Hok _ _ Hn) as (id' & w & Hw & Hnw).
    pose proof (so_entry _ _ Hok _ _ Hw) as Hw'. rewrite Hnw, Hn in Hw'. unfold cb_of in Hw'. injection Hw' as _ -> -> ->.
    unfold fire. by rewrite Hw, Hopen, !Z.eqb_refl.
  - intros Hc s' Hs'. by apply (closed_steps _ _ Hs' Hc).
Qed.

(** ** Witness *)

(** A job is scheduled, the engine calls its function, and the job is edited while
    the callback is under way: the reconciliation has registered the new revision
    and not published it when the callback looks, so the old revision is still
    asked for. *)
Notation demo_state := (cron_state demo_engine).
Definition demo_jobs (revision : Z) : list Job := [cron_job 7 revision "5 4 * * *"].
Definition demo_desired (revision : Z) : gmap Z scheduledJob := {[ 7%Z := MkScheduledJob 0 revision "0 5 4 * * *" 0 ]}.
Definition demo_want (revision generation : Z) : scheduledJob := MkScheduledJob 0 revision "0 5 4 * * *" generation.

(** A reconciliation with the job at [revision], up to the publication. *)
Definition demo_planned (revision : Z) (s : demo_state) : demo_state :=
  let plan := make_plan (demo_desired revision) ∅ (ct_sched s) in
  MkCronState (planned plan (ct_sched s)) (ct_engine s)
    (Some (SRegister (demo_desired revision) ∅ plan (pl_added plan) [] (pl_next plan)))
    (ct_callbacks s) (ct_running s) (ct_requests s) (ct_jobs s ++ demo_jobs revision).
Definition demo_registered (revision generation entry : Z) (s s0 : demo_state) : demo_state :=
  let plan := make_plan (demo_desired revision) ∅ (ct_sched s0) in
  to_phase (ct_sched s) (AddFunc "0 5 4 * * *" (7, revision, generation)%Z (ct_engine s)).2
    (Some (SRegister (demo_desired revision) ∅ plan [] ([] ++ [entry])
             (<[7%Z := set_entry entry (demo_want revision generation)]> (pl_next plan)))) s.

Lemma demo_plan_step revision s : ct_phase s = None -> sch_closed (ct_sched s) = false -> cstep s (demo_planned revision s).
Proof. intros Hp Hc. refine (step_plan s (demo_jobs revision) _ _ _ Hp _ _ Hc eq_refl); [apply NoDup_singleton|vm_compute; reflexivity]. Qed.

Definition demo0 : demo_state := cron_start demo_empty.
Definition demo1 : demo_state := demo_registered 3 1 1 (demo_planned 3 demo0) demo0.
Definition demo2 : demo_state :=
  to_phase (publish_jobs (demo_desired 3) ∅ {[ 7%Z := set_entry 1 (demo_want 3 1) ]} (ct_sched demo1)) (ct_engine demo1) (Some (SRemove [])) demo1.
Definition demo3 : demo_state := to_phase (ct_sched demo2) (ct_engine demo2) None demo2.
Definition demo4 : demo_state :=
  MkCronState (ct_sched demo3) (ct_engine demo3) (ct_phase demo3) [(7, 3, 1)%Z] [] [] (ct_jobs demo3).
Definition demo5 : demo_state := demo_registered 4 2 2 (demo_planned 4 demo4) demo4.
Definition demo_racing : demo_state :=
  MkCronState (ct_sched demo5) (ct_engine demo5) (ct_phase demo5) ([] ++ []) [(7, 3, 1)%Z] ([] ++ [MkStartRunInput 7 3 RunOriginCron false])
    (ct_jobs demo5).

Lemma demo_racing_reached : csteps demo0 demo_racing.
Proof.
  apply (csteps_next _ demo5); [|refine (step_fires demo5 [] [] 7 3 1 _ _ _); vm_compute; reflexivity].
  apply (csteps_next _ (demo_planned 4 demo4)); [|refine (step_register (demo_planned 4 demo4) (demo_desired 4) ∅ _ 7 (demo_want 4 2) [] [] _ 2 _ _ _);
    vm_compute; reflexivity].
  apply (csteps_next _ demo4); [|by apply demo_plan_step; vm_compute].
  apply (csteps_next _ demo3); [|refine (step_tick demo3 1 "0 5 4 * * *" (7, 3, 1)%Z _); vm_compute; reflexivity].
  apply (csteps_next _ demo2); [|refine (step_reconciled demo2 _); reflexivity].
  apply (csteps_next _ demo1); [|refine (step_publish_jobs demo1 (demo_desired 3) ∅ (make_plan (demo_desired 3) ∅ newScheduler) [1%Z] _ _ _);
    vm_compute; reflexivity].
  apply (csteps_next _ (demo_planned 3 demo0)); [|refine (step_register (demo_planned 3 demo0) (demo_desired 3) ∅ _ 7 (demo_want 3 1) [] [] _ 1 _ _ _);
    vm_compute; reflexivity].
  apply (csteps_next _ demo0); [apply csteps_refl|by apply demo_plan_step; vm_compute].
Qed.

Lemma cron_requests_witness :
  ct_requests demo_racing = [MkStartRunInput 7 3 RunOriginCron false] /\
  (forall s', cstep demo_racing s' -> ct_requests s' = ct_requests demo_racing \/
     sch_closed (ct_sched demo_racing) = false /\
     exists id revision generation w, (id, revision, generation) ∈ ct_callbacks demo_racing /\
       sch_entries (ct_sched demo_racing) !! id = Some w /\ sj_revision w = revision /\ sj_generation w = generation /\
       ct_requests s' = ct_requests demo_racing ++ [MkStartRunInput id revision RunOriginCron false]).
Proof. split; [reflexivity|]. exact (proj1 (proj2 (cron_requests demo_empty demo_racing eq_refl demo_racing_reached))). Defined.
