(* ===== verification/JobApi.v ===== *)
(** * The versioned HTTP API ([api_v1.go], [api_v1_jobs.go], and the run handlers
      of [app.go])

    A handler is a function of the request and the application's state to the
    response and the new state.  It is the sequence of its calls; other requests
    may run between two of them, so what a theorem says of a handler is what its
    own calls decide.  The repository, the run service and the history file are
    the modelled ones; decoding JSON and media types is the interface
    [JSONDecoder], and [reconcileTriggers] is an argument. *)

From S2P Require Import Prelude GoStrings Model LogBuffer AtomicFile JobRepository HostCommand Capabilities.
From S2P Require Import ExecutionPlan RunService History Scheduler.

(** ** Requests and responses *)

Definition MethodGet : string := "GET".
Definition MethodPost : string := "POST".
Definition MethodPut : string := "PUT".
Definition MethodDelete : string := "DELETE".

(** [req_limit] is the value of the query parameter. *)
Record Request := MkRequest {
  req_method : string; req_path : string; req_contentType : string; req_ifMatch : string; req_limit : string;
  req_body : string
}.

Inductive api_body :=
  | NoBody
  | ErrorBody (code message : string)
  | JobsBody (jobs : list Job)
  | JobBody (job : Job)
  | RunsBody (runs : list RunSnapshot)
  | RunBody (run : option RunSnapshot)
  | OverlapBody (run : option RunSnapshot) (code message : string)
  | HistoryBody (records : list RunRecord).

Record Response := MkResponse { resp_status : Z; resp_etag : string; resp_allow : string; resp_body : api_body }.

Definition writeAPIError (status : Z) (code message : string) : Response :=
  MkResponse status "" "" (ErrorBody code message).
Definition writeJSONStatus (status : Z) (value : api_body) : Response :=
  MkResponse status "" "" (if (status =? 204)%Z then NoBody else value).
Definition set_etag (etag : string) (r : Response) : Response :=
  MkResponse (resp_status r) etag (resp_allow r) (resp_body r).

Definition method_not_allowed (allowed : list string) : Response :=
  MkResponse 405 "" (Join ", " allowed) (ErrorBody "method_not_allowed" "method not allowed").
(** The response that refuses the method, if it is refused. *)
Definition requireMethod (r : Request) (allowed : list string) : option Response :=
  if existsb (string_eqb (req_method r)) allowed then None else Some (method_not_allowed allowed).

(** ** Decoding *)

Definition maxJSONBody : Z := 1048576.

Definition io_EOF : goerror := ErrVar "EOF".
Definition errUnsupportedContentType : goerror := ErrVar "content type must be application/json".

(** [mime.ParseMediaType], and decoding one value of a given type from a text,
    with the text behind it; [decode_any] is the last [Decode], into [any]. *)
Class JSONDecoder := {
  ParseMediaType : string -> result string;
  decode_job : string -> result (Job * string);
  decode_start : string -> result (Z * bool * string);
  decode_object : string -> result (nat * string);   (* an object: the number of its members *)
  decode_any : string -> result unit
}.

Section Decode.
Context `{!JSONDecoder}.

(** Of a body that is too long the decoder sees the beginning, and an error
    where the end would be. *)
Definition decodeStrictJSON {A} (decode : string -> result (A * string)) (r : Request) : result A :=
  match ParseMediaType (req_contentType r) with
  | Err _ => Err errUnsupportedContentType
  | Ok mediaType =>
      if negb (string_eqb mediaType "application/json") then Err errUnsupportedContentType
      else
        let limited := (str_len (req_body r) >? maxJSONBody)%Z in
        match decode (if limited then take_str (Z.to_nat maxJSONBody) (req_body r) else req_body r) with
        | Err e => Err (ErrWrap "decode JSON: " e "")
        | Ok (v, rest) =>
            match decode_any rest with
            | Ok _ => Err (ErrNew "request body must contain one JSON value")
            | Err e =>
                if errors_Is e "EOF" && negb limited then Ok v else Err (ErrWrap "decode JSON trailer: " e "")
            end
        end
  end.
End Decode.

Definition handleDecodeError (e : goerror) : Response :=
  if errors_Is e "content type must be application/json" then writeAPIError 415 "unsupported_media_type" (error_text e)
  else writeAPIError 400 "invalid_json" "invalid JSON request".

Definition parsePositiveID (value : string) : result Z :=
  match Atoi value with
  | Some id => if (id <=? 0)%Z then Err (ErrNew "invalid id") else Ok id
  | None => Err (ErrNew "invalid id")
  end.

Definition revisionETag (revision : Z) : string :=
  str1 quote_double +:+ FormatUint revision +:+ str1 quote_double.

Definition parseIfMatch (header : string) : result Z :=
  let value := TrimSpace header in
  if string_eqb value "" then Err (ErrNew "If-Match is required")
  else
    let value := if HasPrefix value "W/" then TrimSpace (TrimPrefix value "W/") else value in
    let value := TrimByte quote_double value in
    match ParseUint 10 64 value with
    | Some rev => if (rev =? 0)%Z then Err (ErrNew "invalid If-Match revision") else Ok rev
    | None => Err (ErrNew "invalid If-Match revision")
    end.

Definition mapServiceError (e : goerror) : Response :=
  if errors_Is e "job not found" || errors_Is e "run not found"
  then writeAPIError 404 "not_found" "resource not found"
  else if errors_Is e "job revision conflict" || errors_Is e "job already has an active run" ||
          errors_Is e "run is not active"
  then writeAPIError 409 "conflict" (error_text e)
  else writeAPIError 500 "internal_error" "internal error".

(** ** Jobs *)

Definition Sync_set_paths (source dest : string) (a : SyncAction) : SyncAction :=
  MkSyncAction (Sync_Engine a) source dest (Sync_Mode a) (Sync_Compare a) (Sync_Bwlimit a) (Sync_Backup a)
    (Sync_BackupKeep a) (Sync_MaxDel a) (Sync_SkipNew a) (Sync_SysBackup a) (Sync_Exclude a).

Definition trim_paths (job : Job) : Job :=
  if string_eqb (Action_Type (Job_Action job)) ActionSync then
    let sync := Action_Sync (Job_Action job) in
    let sync := Sync_set_paths (TrimSpace (Sync_Source sync)) (TrimSpace (Sync_Dest sync)) sync in
    Job_set_Source (Sync_Source sync) (Job_set_Action (Action_set_Sync sync (Job_Action job)) job)
  else Job_set_Source (TrimSpace (Job_Source job)) job.

Definition default_overlap (job : Job) : Job :=
  if string_eqb (Exec_Overlap (Job_Execution job)) ""
  then Job_set_Execution (Exec_set_Overlap "skip" (Job_Execution job)) job else job.
Definition default_owner (job : Job) : Job :=
  if string_eqb (Policy_Owner (Job_Scheduler job)) ""
  then Job_set_Scheduler (MkSchedulerPolicy SchedulerSyncBridge) job else job.
Definition default_trigger (job : Job) : Job :=
  if string_eqb (Job_Trigger job) "" then Job_set_Trigger TriggerManual job else job.

Definition normalizeV2Job (job : Job) : Job :=
  let job := Job_set_SchemaVersion 2 job in
  let job := Job_set_ID 0 job in
  let job := Job_set_Revision 0 job in
  default_trigger (default_owner (default_overlap (trim_paths job))).

Definition validateTrigger (job : Job) : result unit :=
  let owner := Policy_Owner (Job_Scheduler job) in
  _ ← fail_if (negb (string_eqb (Job_Trigger job) TriggerManual) && negb (string_eqb (Job_Trigger job) TriggerCron) &&
               negb (string_eqb (Job_Trigger job) TriggerWatch)) (ErrNew "trigger must be manual, cron, or watch");
  _ ← fail_if (negb (string_eqb owner SchedulerSyncBridge) && negb (string_eqb owner SchedulerSystem))
        (ErrNew "scheduler owner must be syncbridge or system");
  _ ← fail_if (string_eqb owner SchedulerSystem && string_eqb (Job_Trigger job) TriggerManual)
        (ErrNew "system scheduling requires cron or watch trigger");
  _ ← (if string_eqb (Job_Trigger job) TriggerCron then
         _ ← normalizeCronSpec (Job_Cron job);
         fail_if (string_eqb owner SchedulerSystem && negb (length (Fields (Job_Cron job)) =? 5)%nat)
           (ErrNew "system cron expressions must have exactly five fields")
       else Ok tt);
  if string_eqb (Job_Trigger job) TriggerWatch then
    let source := TrimSpace (jobWatchSource job) in
    _ ← fail_if (string_eqb source "") (ErrNew "watch trigger requires a source directory");
    wrap_err "watch source: " (validateAbsoluteCanonicalPath source)
  else Ok tt.

Definition environment_entry_ok (entry : string) : bool :=
  let '(name, value, ok) := Cut "=" entry in
  ok && environmentNamePattern name && negb (has_byte nul value).

Definition validateExecution (e : ExecutionPolicy) : result unit :=
  _ ← fail_if (negb (string_eqb (Exec_Overlap e) "skip") && negb (string_eqb (Exec_Overlap e) "queue-latest"))
        (ErrNew "overlap must be skip or queue-latest");
  _ ← fail_if ((Exec_TimeoutSeconds e <? 0) || (Exec_StopGraceSeconds e <? 0) || (Exec_Umask e >? 511))%Z
        (ErrNew "invalid execution bounds");
  fail_if (negb (forallb environment_entry_ok (Exec_Environment e))) (ErrNew "invalid environment").

Definition canonical (p : string) : bool := IsAbs p && string_eqb (Clean p) p.

Definition validateAction (job : Job) : result unit :=
  let action := Job_Action job in
  let mode := Identity_Mode (Job_Identity job) in
  if string_eqb (Action_Type action) ActionScript then
    _ ← fail_if (negb (canonical (Action_ScriptPath action))) (ErrNew "script path must be absolute and canonical");
    fail_if (negb (string_eqb mode IdentityScriptOwner) && negb (string_eqb mode IdentityFixed))
      (ErrNew "script identity must be script-owner or fixed")
  else if string_eqb (Action_Type action) ActionCommand then
    _ ← fail_if (string_eqb (TrimSpace (Action_Command action)) "" || has_byte nul (Action_Command action))
          (ErrNew "command is required");
    fail_if (negb (string_eqb mode IdentityFixed)) (ErrNew "command actions require a fixed identity")
  else if string_eqb (Action_Type action) ActionSync then
    let s := Action_Sync action in
    _ ← validateSyncActionOptions s;
    _ ← fail_if (negb (canonical (Sync_Source s)) || negb (canonical (Sync_Dest s)) ||
                 string_eqb (Sync_Source s) (Sync_Dest s))
          (ErrNew "sync paths must be distinct absolute canonical paths");
    _ ← fail_if (pathWithin (Sync_Source s) (Sync_Dest s) || pathWithin (Sync_Dest s) (Sync_Source s))
          (ErrNew "sync paths must not contain one another");
    fail_if (negb (string_eqb mode IdentityFixed)) (ErrNew "sync actions require a fixed identity")
  else Err (ErrNew "unknown action type").

Definition validateFixedIdentity (i : Identity) : result unit :=
  if string_eqb (Identity_Mode i) IdentityFixed then
    fail_if (negb (accountNamePattern (Identity_User i)) || negb (accountNamePattern (Identity_Group i)) ||
             (Identity_UID i <? 0)%Z || (Identity_GID i <? 0)%Z)
      (ErrNew "fixed identity is incomplete or invalid")
  else Ok tt.

Definition validateV2Job (job : Job) : result unit :=
  _ ← fail_if (string_eqb (TrimSpace (Job_Name job)) "") (ErrNew "name is required");
  _ ← validateTrigger job;
  _ ← validateExecution (Job_Execution job);
  _ ← validateAction job;
  validateFixedIdentity (Job_Identity job).

(** ** The application's state *)

(** The repository with its file system, the run service, and the state of the
    trigger components. *)
Record AppState (T : Type) := MkAppState { app_world : World; app_runs : RunService; app_triggers : T }.
Arguments MkAppState {_} _ _ _.
Arguments app_world {_} _.
Arguments app_runs {_} _.
Arguments app_triggers {_} _.

Section Handlers.
Context `{!JSONDecoder} `{!JobCodec} `{!HistoryCodec}.
Context {T : Type} (reconcile : list Job -> T -> T).
Context (historyPath : string).
(** The clock, the random source, and what stopping a running handle returns. *)
Context (now : Z) (newID : result string) (handleStop : option goerror).

Definition set_world (w : World) (a : AppState T) : AppState T := MkAppState w (app_runs a) (app_triggers a).
Definition set_runservice (s : RunService) (a : AppState T) : AppState T := MkAppState (app_world a) s (app_triggers a).

(** [reconcileTriggers], whose error the handlers ignore. *)
Definition reconcileTriggers (a : AppState T) : AppState T :=
  MkAppState (app_world a) (app_runs a) (reconcile (JobRepository.List_ (w_repo (app_world a))) (app_triggers a)).

Definition jobHasActiveRun (id : Z) (a : AppState T) : bool * AppState T :=
  let (runs, s) := RunService.List_ (MkRunFilter id "" 0) now (app_runs a) in
  (existsb (fun run => negb (isTerminalRunStatus (Run_Status run))) runs, set_runservice s a).

(** The body of [POST]: the job, or the response that refuses it. *)
Definition decode_valid_job (r : Request) : Job + Response :=
  match decodeStrictJSON decode_job r with
  | Err e => inr (handleDecodeError e)
  | Ok job =>
      let job := normalizeV2Job job in
      match validateV2Job job with
      | Err e => inr (writeAPIError 400 "invalid_job" (error_text e))
      | Ok _ => inl job
      end
  end.

Definition handleV1Jobs (r : Request) (a : AppState T) : Response * AppState T :=
  if string_eqb (req_method r) MethodGet then
    (writeJSONStatus 200 (JobsBody (JobRepository.List_ (w_repo (app_world a)))), a)
  else if string_eqb (req_method r) MethodPost then
    match decode_valid_job r with
    | inr resp => (resp, a)
    | inl job =>
        match Create job (app_world a) with
        | (Err e, w) => (mapServiceError e, set_world w a)
        | (Ok created, w) =>
            (set_etag (revisionETag (Job_Revision created)) (writeJSONStatus 201 (JobBody created)),
             reconcileTriggers (set_world w a))
        end
    end
  else (method_not_allowed [MethodGet; MethodPost], a).

Definition handleV1JobHistory (r : Request) (id : Z) (a : AppState T) : Response * AppState T :=
  match requireMethod r [MethodGet] with
  | Some resp => (resp, a)
  | None =>
      match JobRepository.Get (w_repo (app_world a)) id with
      | None => (mapServiceError ErrJobNotFound, a)
      | Some _ =>
          let w := app_world a in
          let (h, fs) := loadHistoryAt historyPath (w_fs w) in
          let a := set_world (MkWorld (w_repo w) fs (w_stamp w)) a in
          match h with
          | Err _ => (writeAPIError 500 "history_unavailable" "run history is unavailable", a)
          | Ok history => (writeJSONStatus 200 (HistoryBody (default [] (history !! Itoa id))), a)
          end
      end
  end.

(** The limit of a listing; [None] when the parameter is refused. *)
Definition run_limit (raw : string) : option Z :=
  if string_eqb raw "" then Some 100%Z
  else match Atoi raw with
       | Some n => if (n >? 0)%Z && (n <=? 1000)%Z then Some n else None
       | None => None
       end.

(** The run that was rejected: [Start] stored it under the ID it generated. *)
Definition rejected_run (s : RunService) : option RunSnapshot :=
  match newID with Ok id => rs_snapshot <$> sv_runs s !! id | Err _ => None end.

Definition handleV1JobRuns (r : Request) (id : Z) (a : AppState T) : Response * AppState T :=
  if string_eqb (req_method r) MethodGet then
    match JobRepository.Get (w_repo (app_world a)) id with
    | None => (mapServiceError ErrJobNotFound, a)
    | Some _ =>
        match run_limit (req_limit r) with
        | None => (writeAPIError 400 "invalid_limit" "limit must be between 1 and 1000", a)
        | Some limit =>
            let (runs, s) := RunService.List_ (MkRunFilter id "" limit) now (app_runs a) in
            (writeJSONStatus 200 (RunsBody runs), set_runservice s a)
        end
    end
  else if string_eqb (req_method r) MethodPost then
    match decodeStrictJSON decode_start r with
    | Err e => (handleDecodeError e, a)
    | Ok (revision, dryRun) =>
        if (revision =? 0)%Z then (writeAPIError 400 "invalid_revision" "revision must be positive", a)
        else
          let (run, s) := Start (JobRepository.Get (w_repo (app_world a)) id) newID now
                            (MkStartRunInput id revision RunOriginManual dryRun) (app_runs a) in
          let a := set_runservice s a in
          match run with
          | Ok run => (writeJSONStatus 202 (RunBody (Some run)), a)
          | Err e =>
              if errors_Is e "job already has an active run"
              then (writeJSONStatus 409 (OverlapBody (rejected_run s) "conflict" (error_text e)), a)
              else (mapServiceError e, a)
          end
    end
  else (method_not_allowed [MethodGet; MethodPost], a).

Definition get_job (id : Z) (a : AppState T) : Response :=
  match JobRepository.Get (w_repo (app_world a)) id with
  | None => mapServiceError ErrJobNotFound
  | Some job => set_etag (revisionETag (Job_Revision job)) (writeJSONStatus 200 (JobBody job))
  end.

Definition put_job (r : Request) (id : Z) (a : AppState T) : Response * AppState T :=
  match parseIfMatch (req_ifMatch r) with
  | Err e => (writeAPIError 428 "precondition_required" (error_text e), a)
  | Ok revision =>
      match decode_valid_job r with
      | inr resp => (resp, a)
      | inl job =>
          match Update id revision job (app_world a) with
          | (Err e, w) => (mapServiceError e, set_world w a)
          | (Ok updated, w) =>
              (set_etag (revisionETag (Job_Revision updated)) (writeJSONStatus 200 (JobBody updated)),
               reconcileTriggers (set_world w a))
          end
      end
  end.

Definition delete_job (r : Request) (id : Z) (a : AppState T) : Response * AppState T :=
  match parseIfMatch (req_ifMatch r) with
  | Err e => (writeAPIError 428 "precondition_required" (error_text e), a)
  | Ok revision =>
      let (active, a) := jobHasActiveRun id a in
      if active then (writeAPIError 409 "active_run" "stop active run before deleting job", a)
      else match Delete id revision (app_world a) with
      | (Err e, w) => (mapServiceError e, set_world w a)
      | (Ok _, w) => (writeJSONStatus 204 NoBody, reconcileTriggers (set_world w a))
      end
  end.

Definition not_found : Response := writeAPIError 404 "not_found" "resource not found".

Definition job_route (path : string) : list string :=
  Split slash (TrimByte slash (TrimPrefix path "/api/v1/jobs/")).

Definition handleV1Job (r : Request) (a : AppState T) : Response * AppState T :=
  match job_route (req_path r) with
  | [] => (not_found, a)
  | part :: parts =>
      if string_eqb part "" then (not_found, a)
      else match parsePositiveID part with
      | Err _ => (writeAPIError 400 "invalid_id" "invalid job id", a)
      | Ok id =>
          match parts with
          | [sub] => if string_eqb sub "runs" then handleV1JobRuns r id a
                     else if string_eqb sub "history" then handleV1JobHistory r id a
                     else (not_found, a)
          | _ :: _ => (not_found, a)
          | [] =>
              if string_eqb (req_method r) MethodGet then (get_job id a, a)
              else if string_eqb (req_method r) MethodPut then put_job r id a
              else if string_eqb (req_method r) MethodDelete then delete_job r id a
              else (method_not_allowed [MethodGet; MethodPut; MethodDelete], a)
          end
      end
  end.

(** ** Runs *)

Definition run_route (path : string) : list string :=
  Split slash (TrimByte slash (TrimPrefix path "/api/v1/runs/")).

Definition stop_run (id : string) (a : AppState T) : Response * AppState T :=
  let '(err, stop, s) := Stop now id (app_runs a) in
  let err := match err with Some e => Some e | None => if stop then handleStop else None end in
  let a := set_runservice s a in
  match err with
  | Some e => (mapServiceError e, a)
  | None =>
      let (run, s) := RunService.Get id now (app_runs a) in
      (writeJSONStatus 202 (RunBody run), set_runservice s a)
  end.

Definition handleV1Run (r : Request) (a : AppState T) : Response * AppState T :=
  match run_route (req_path r) with
  | [] => (not_found, a)
  | id :: parts =>
      if string_eqb id "" then (not_found, a)
      else match parts with
      | [sub] =>
          if string_eqb sub "stop" then
            match requireMethod r [MethodPost] with
            | Some resp => (resp, a)
            | None =>
                match decodeStrictJSON decode_object r with
                | Err e => (handleDecodeError e, a)
                | Ok members =>
                    if negb (members =? 0)%nat
                    then (writeAPIError 400 "invalid_json" "stop body must be empty JSON object", a)
                    else stop_run id a
                end
            end
          else (not_found, a)
      | _ :: _ => (not_found, a)
      | [] =>
          match requireMethod r [MethodGet] with
          | Some resp => (resp, a)
          | None =>
              let (run, s) := RunService.Get id now (app_runs a) in
              let a := set_runservice s a in
              match run with
              | None => (mapServiceError ErrRunNotFound, a)
              | Some run => (writeJSONStatus 200 (RunBody (Some run)), a)
              end
          end
      end
  end.
End Handlers.
