(* ===== verification/JobApiProofs.v ===== *)
(** * The contract of the job handlers ([JobApi.v])

    The errors of the repository that are no answers of its own (I/O, a corrupt
    file) are told apart from the sentinels the API maps; then the writing
    handlers refine [api_spec], a function of the request and of what the file
    holds. *)

From S2P Require Import Prelude GoStrings Model LogBuffer AtomicFile JobRepository HostCommand Capabilities.
From S2P Require Import ExecutionPlan RunService History Scheduler JobApi.

(** ** Errors that are not answers *)

Definition api_sentinels : list string :=
  ["job not found"; "run not found"; "job revision conflict"; "job already has an active run"; "run is not active"].
Definition foreign (e : goerror) : bool := negb (existsb (errors_Is e) api_sentinels).

Definition internal_error : Response := writeAPIError 500 "internal_error" "internal error".

Lemma foreign_internal e : foreign e = true -> mapServiceError e = internal_error.
Proof.
  unfold foreign, api_sentinels, mapServiceError. intros H%negb_true_iff. cbn in H.
  repeat (apply orb_false_iff in H as [-> H]). done.
Qed.

Lemma foreign_wrap pre e post : foreign (ErrWrap pre e post) = foreign e.
Proof. done. Qed.

(** A computation whose errors are all foreign. *)
Definition io_only {S A} (m : SE S A) : Prop := forall s e s', m s = (Err e, s') -> foreign e = true.

Section IoOnly.
Context {S : Type}.

Lemma io_ret {A} (a : A) : io_only (mret a : SE S A).
Proof. done. Qed.
Lemma io_bind {A B} (m : SE S A) (k : A -> SE S B) : io_only m -> (forall a, io_only (k a)) -> io_only (x ← m; k x).
Proof.
  intros Hm Hk s e s'. rewrite SE_bind_unfold. destruct (m s) as [[a|e1] s1] eqn:E; [apply Hk|].
  intros [= <- <-]. by eapply Hm.
Qed.
Lemma io_lift {A} (r : result A) : (forall e, r = Err e -> foreign e = true) -> io_only (lift r : SE S A).
Proof. intros H s e s' [= -> <-]. by apply H. Qed.
Lemma io_wrap {A} pre (m : SE S A) : io_only m -> io_only (se_map (wrap_err pre) m).
Proof.
  intros Hm s e s'. unfold se_map. destruct (m s) as [[a|e1] s1] eqn:E; [done|]. intros [= <- <-].
  rewrite foreign_wrap. by eapply Hm.
Qed.
Lemma io_attempt {A} (m : SE S A) : io_only (attempt m).
Proof. intros s e s'. unfold attempt. by destruct (m s). Qed.
Lemma io_state : io_only (get_state : SE S S).
Proof. done. Qed.
Lemma io_modify f : io_only (modify_state f : SE S unit).
Proof. done. Qed.
End IoOnly.

(** An error built on the spot. *)
Ltac io_new := by apply io_lift; intros ? [= <-].

Create HintDb io.
#[export] Hint Resolve io_ret io_wrap io_attempt io_state io_modify : io.

Lemma io_outcome : io_only next_outcome.
Proof. intros s e s'. unfold next_outcome. by destruct (fs_script s). Qed.
Lemma io_fs_op what ok : io_only (fs_op what ok).
Proof. apply io_bind; [apply io_outcome|]. intros []; [apply io_modify|io_new]. Qed.
Lemma io_ignore m : io_only (ignore m).
Proof. apply io_bind; [apply io_attempt|]. intros; apply io_ret. Qed.
#[export] Hint Resolve io_fs_op io_ignore : io.

Lemma io_or_cleanup pre cleanup m : io_only cleanup -> io_only m -> io_only (or_cleanup pre cleanup m).
Proof.
  intros Hc Hm s e s'. unfold or_cleanup. rewrite SE_bind_unfold. unfold attempt.
  destruct (m s) as [[a|e1] s1] eqn:E; [done|]. rewrite SE_bind_unfold.
  destruct (cleanup s1) as [[u|e2] s2] eqn:E2.
  - intros [= <- <-]. rewrite foreign_wrap. by eapply Hm.
  - intros [= <- <-]. by eapply Hc.
Qed.

Lemma io_CreateTemp dir pattern : io_only (fs_CreateTemp dir pattern).
Proof.
  apply io_bind; [apply io_outcome|]. intros [suffix|n]; [|io_new].
  apply io_bind; [apply io_state|]. intros fs. case_goal; [io_new|].
  case_goal; [io_new|]. apply io_bind; [apply io_modify|]. intros _. apply io_ret.
Qed.

Lemma io_Write name data : io_only (fs_Write name data).
Proof.
  apply io_bind; [apply io_outcome|]. intros [suffix|n]; [apply io_modify|].
  apply io_bind; [apply io_modify|]. intros _. io_new.
Qed.

Lemma io_AtomicWriteFile path data mode owner : io_only (AtomicWriteFile path data mode owner).
Proof.
  apply io_bind; [apply io_wrap, io_fs_op|]. intros _.
  apply io_bind; [apply io_wrap, io_CreateTemp|]. intros tmp.
  assert (io_only (_ ← ignore (fs_Close tmp); ignore (fs_Remove tmp))) as Hc
    by (apply io_bind; [apply io_ignore|intros; apply io_ignore]).
  apply io_bind; [apply io_or_cleanup; [done|apply io_Write]|]. intros _.
  repeat (apply io_bind; [apply io_or_cleanup; auto with io; apply io_fs_op|intros _]).
  apply io_bind; [apply io_wrap, io_fs_op|]. intros _. apply io_wrap, io_fs_op.
Qed.

Lemma io_ReadFile path : io_only (fs_ReadFile path).
Proof.
  apply io_bind; [apply io_outcome|]. intros [suffix|n]; [|io_new].
  apply io_bind; [apply io_state|]. intros fs. apply io_ret.
Qed.

Lemma io_on_fs {A} (m : SE FS A) : io_only m -> io_only (on_fs m).
Proof.
  intros Hm w e w'. unfold on_fs. destruct (m (w_fs w)) as [r fs] eqn:E. intros [= -> _]. by eapply Hm.
Qed.

Lemma foreign_corrupt detail : foreign (corrupt detail) = true.
Proof. done. Qed.

(** ** The repository behind the handlers *)

(** The two outcomes of the computation that is run from [w]. *)
Ltac run_cases w :=
  match goal with |- context [mbind ?f ?m w] => destruct (mbind f m w) as [[?|?] ?] end.

Section Repository.
Context {codec : JobCodec}.

(** [encoding/json] has none of the service's errors. *)
Context (marshal_foreign : forall s e, marshal_store s = Err e -> foreign e = true).

Lemma io_replaceLocked next jobs : io_only (replaceLocked next jobs).
Proof.
  intros w e w'. unfold replaceLocked. case_goal; [by intros [= <- <-]|].
  destruct (replace_loop next ∅ jobs) as [r st] eqn:E. intros [= -> <-]. revert E. generalize next at 1.
  generalize (∅ : gmap Z Job). induction jobs as [|job jobs IH]; [done|]. intros acc n. cbn [replace_loop].
  case_goal; [by intros [= <- <-]|]. case_goal; [by intros [= <- <-]|]. apply IH.
Qed.

Lemma io_persist next jobs : io_only (persistCandidateLocked next jobs).
Proof.
  apply io_bind; [apply io_state|]. intros w. apply io_bind.
  - apply io_lift. intros e. destruct (marshal_store _) as [d|e0] eqn:E; [done|]. intros [= <-].
    rewrite foreign_wrap. by eapply marshal_foreign.
  - intros d. apply io_wrap, io_on_fs, io_AtomicWriteFile.
Qed.

Lemma io_loadLocked : io_only loadLocked.
Proof.
  apply io_bind; [apply io_state|]. intros w. apply io_bind; [apply io_wrap, io_on_fs, io_ReadFile|].
  intros [data|]; [|apply io_modify]. case_goal; [io_new|].
  destruct (header_of data) as [[v|]|e0]; [| |io_new].
  - case_goal; [io_new|].
    destruct (store_of data); [apply io_replaceLocked|io_new].
  - unfold migrateLegacyLocked. destruct (legacy_of data); [|io_new].
    case_goal; [io_new|]. apply io_bind; [apply io_replaceLocked|]. intros _.
    apply io_bind; [apply io_state|]. intros w1.
    apply io_bind; [apply io_wrap, io_on_fs, io_AtomicWriteFile|]. intros _. apply io_persist.
Qed.

Lemma io_lock {A} (fn : SE World A) : io_only fn -> io_only (withExclusiveFileLock fn).
Proof.
  intros Hf. apply io_bind; [apply io_state|]. intros w.
  repeat (apply io_bind; [apply io_wrap, io_on_fs, io_fs_op|intros _]). exact Hf.
Qed.

Lemma lock_then {A} (k : JobRepository -> SE World A) w :
  withExclusiveFileLock (_ ← loadLocked; r ← get_repo; k r) w =
  match withExclusiveFileLock loadLocked w with
  | (Ok _, w1) => k (w_repo w1) w1
  | (Err e, w1) => (Err e, w1)
  end.
Proof.
  unfold withExclusiveFileLock. rewrite !SE_bind_unfold. cbn [get_state].
  do 3 (rewrite !SE_bind_unfold; match goal with |- context [se_map ?f ?m ?w0] =>
    destruct (se_map f m w0) as [[[]|?] ?]; [|done] end).
  rewrite SE_bind_unfold. by destruct (loadLocked _) as [[[]|?] ?].
Qed.

(** What a mutation does once the file could be locked and read. *)
Lemma after_load {A} path st (k : JobRepository -> SE World A) w :
  disk_holds path st w ->
  (exists e w', withExclusiveFileLock (_ ← loadLocked; r ← get_repo; k r) w = (Err e, w') /\
     foreign e = true /\ ~ steady path (w_fs w) /\ disk_holds path st w') \/
  (exists w1, withExclusiveFileLock (_ ← loadLocked; r ← get_repo; k r) w = k (w_repo w1) w1 /\
     (steady path (w_fs w) -> steady path (w_fs w1)) /\ disk_holds path st w1 /\ memory_holds st w1).
Proof.
  intros Hd. rewrite lock_then.
  pose proof (hoare_lock path st loadLocked _ _ (hoare_load path st) (fun w H => H) w Hd) as Hh.
  assert (steady path (w_fs w) -> is_Ok (withExclusiveFileLock loadLocked w).1 = true /\
    steady path (w_fs (withExclusiveFileLock loadLocked w).2)) as Hsteady.
  { intros Hs. destruct (lock_steady path loadLocked w (proj1 Hd) Hs) as (w1 & -> & Hs1 & Hr & Hf).
    assert (disk_holds path st w1) as Hd1.
    { destruct Hd as [Hp Hd]. split; [by rewrite Hr|]. unfold decode_disk in *. by rewrite Hf. }
    by rewrite (loadLocked_steady _ _ _ Hd1 (steady_script _ _ Hs1)). }
  destruct (withExclusiveFileLock loadLocked w) as [[u|e] w1] eqn:E.
  - right. exists w1. split; [done|]. split; [|done]. intros Hs. apply (Hsteady Hs).
  - left. exists e, w1. split; [done|]. split; [by eapply (io_lock _ io_loadLocked)|]. split; [|done].
    intros Hs. by destruct (Hsteady Hs).
Qed.

(** Run the lock and the load of the mutation the goal is about. *)
Ltac run_load Hd :=
  match goal with |- context [withExclusiveFileLock (mbind (fun _ => mbind ?k get_repo) loadLocked) _] =>
    destruct (after_load _ _ k _ Hd) as [(e & w' & -> & He & Hns & Hd')|(w1 & -> & Hs1 & Hd1 & Hm1)] end.

Lemma commit_cases {A} path st st' w1 (a : A) :
  view_ok st' -> disk_holds path st w1 -> memory_holds st w1 ->
  let (r, w') := (_ ← persistCandidateLocked st'.1 st'.2; _ ← modify_state (set_repo st'.1 st'.2); mret a) w1 in
  match r with
  | Ok b => b = a /\ disk_holds path st' w' /\ memory_holds st' w'
  | Err e => foreign e = true /\ ~ undisturbed path st' w1 /\ (disk_holds path st w' \/ disk_holds path st' w')
  end.
Proof.
  intros Hok Hd Hm. pose proof (hoare_commit path st st' a Hok w1 (conj Hd Hm)) as Hh.
  assert (io_only (_ ← persistCandidateLocked st'.1 st'.2; _ ← modify_state (set_repo st'.1 st'.2); mret a)) as Hio.
  { apply io_bind; [apply io_persist|]. intros _. apply io_bind; [apply io_modify|]. intros _. apply io_ret. }
  specialize (Hio w1). rewrite SE_bind_unfold in Hh, Hio |- *. pose proof (persist_steady path st' w1 (proj1 Hd)) as Hs.
  destruct (persistCandidateLocked st'.1 st'.2 w1) as [[u|e] w']; [done|]. split; [by eapply Hio|]. split; [|done].
  intros Hu. by specialize (Hs Hu).
Qed.

(** [mutation_ok path st spec w r w']: the three outcomes of a mutation whose
    specification is [spec].  Another error than the specification's needs something
    in the way. *)
Definition mutation_ok {A} (path : string) (st : repo_view) (spec : result (A * repo_view)) (w : World) (r : result A)
    (w' : World) : Prop :=
  match r, spec with
  | Ok a, Ok (b, st') => a = b /\ disk_holds path st' w' /\ memory_holds st' w'
  | Ok _, Err _ => False
  | Err e, Ok (_, st') => foreign e = true /\ ~ undisturbed path st' w /\ (disk_holds path st w' \/ disk_holds path st' w')
  | Err e, Err e' => (e = e' \/ foreign e = true /\ ~ steady path (w_fs w)) /\ disk_holds path st w'
  end.

Definition with_job (op : repo_op) (job : Job) (st : repo_view) : result (Job * repo_view) :=
  match spec_step op st with Ok st' => Ok (job, st') | Err e => Err e end.

(** What is in the way of storing the view after the load was in the way before. *)
Lemma commit_ok {A} path st st' w w1 (a : A) (rw : result A * World) :
  (steady path (w_fs w) -> steady path (w_fs w1)) ->
  (let (r, w') := rw in match r with
   | Ok b => b = a /\ disk_holds path st' w' /\ memory_holds st' w'
   | Err e => foreign e = true /\ ~ undisturbed path st' w1 /\ (disk_holds path st w' \/ disk_holds path st' w')
   end) -> let (r, w') := rw in mutation_ok path st (Ok (a, st')) w r w'.
Proof.
  intros Hs. destruct rw as [[b|e] w']; [done|]. intros (He & Hu & Hd). split; [done|]. split; [|done].
  intros [H1 H2]. apply Hu. split; [by apply Hs|done].
Qed.

Lemma Create_ok path st job w :
  view_ok st -> op_fits (OpCreate job) st -> disk_holds path st w ->
  let (r, w') := Create job w in mutation_ok path st (with_job (OpCreate job) (stamp_job st.1 1 job) st) w r w'.
Proof.
  intros Hok Hfit Hd. pose proof (spec_step_ok (OpCreate job) st) as Hs. destruct st as [next jobs]. unfold Create.
  run_load Hd; [by split; [|split; [intros [? _]|left]]|].
  pose proof Hm1 as Hm2. unfold memory_holds in Hm2. injection Hm2 as Hn Hj. rewrite Hn, Hj, cloneJob_id.
  simpl in Hfit. rewrite wrap_s64_id by (destruct Hok; unfold in_s64, two63 in *; simpl in *; lia).
  pose proof (commit_cases path (next, jobs) ((next + 1)%Z, withJob jobs (stamp_job next 1 job)) w1 (stamp_job next 1 job)
    ltac:(by apply Hs) Hd1 Hm1) as Hc. cbn [fst snd] in Hc.
  exact (commit_ok _ _ _ _ _ _ _ Hs1 Hc).
Qed.

Lemma Update_ok path st id revision job w :
  view_ok st -> op_fits (OpUpdate id revision job) st -> disk_holds path st w ->
  let (r, w') := Update id revision job w in
  mutation_ok path st (with_job (OpUpdate id revision job) (stamp_job id (wrap_u64 (revision + 1)) job) st) w r w'.
Proof.
  intros Hok Hfit Hd. pose proof (spec_step_ok (OpUpdate id revision job) st) as Hs. unfold with_job.
  destruct st as [next jobs]. unfold Update.
  run_load Hd; [|].
  { destruct (spec_step _ _); [by split; [|split; [intros [? _]|left]]|by split; [right|]]. }
  pose proof Hm1 as Hm2. unfold memory_holds in Hm2. injection Hm2 as Hn Hj. rewrite Hj, Hn.
  cbn [spec_step] in *. destruct (jobs !! id) as [cur|] eqn:Eid; [|by split; [left|]].
  destruct (Job_Revision cur =? revision)%Z eqn:Er; [|by split; [left|]].
  apply Z.eqb_eq in Er as ->. cbn [negb]. rewrite cloneJob_id.
  pose proof (commit_cases path (next, jobs) (next, <[id := stamp_job id (wrap_u64 (revision + 1)) job]> jobs) w1
    (stamp_job id (wrap_u64 (revision + 1)) job) ltac:(by apply Hs) Hd1 Hm1) as Hc. cbn [fst snd] in Hc.
  exact (commit_ok _ _ _ _ _ _ _ Hs1 Hc).
Qed.

Lemma Delete_ok path st id revision w :
  view_ok st -> disk_holds path st w ->
  let (r, w') := Delete id revision w in
  mutation_ok path st (match spec_step (OpDelete id revision) st with Ok st' => Ok (tt, st') | Err e => Err e end) w r w'.
Proof.
  intros Hok Hd. pose proof (spec_step_ok (OpDelete id revision) st) as Hs.
  destruct st as [next jobs]. unfold Delete.
  run_load Hd; [|].
  { destruct (spec_step _ _); [by split; [|split; [intros [? _]|left]]|by split; [right|]]. }
  pose proof Hm1 as Hm2. unfold memory_holds in Hm2. injection Hm2 as Hn Hj. rewrite Hj, Hn.
  cbn [spec_step] in *. destruct (jobs !! id) as [cur|] eqn:Eid; [|by split; [left|]].
  destruct (Job_Revision cur =? revision)%Z eqn:Er; [|by split; [left|]]. cbn [negb].
  pose proof (commit_cases path (next, jobs) (next, delete id jobs) w1 tt ltac:(by apply Hs) Hd1 Hm1) as Hc.
  cbn [fst snd] in Hc. rewrite SE_bind_unfold in Hc |- *.
  pose proof (commit_ok path (next, jobs) (next, delete id jobs) w w1 tt) as Hcommit.
  destruct (persistCandidateLocked next (delete id jobs) w1) as [[u|e] w'].
  - exact (Hcommit (Ok tt, set_repo next (delete id jobs) w') Hs1 Hc).
  - exact (Hcommit (Err e, w') Hs1 Hc).
Qed.
End Repository.

(** ** The specification of the job routes *)

(** [App.Handler]'s dispatch of the two patterns. *)
Section Routes.
Context `{!JSONDecoder} `{!JobCodec} `{!HistoryCodec} {T : Type} (reconcile : list Job -> T -> T).
Context (historyPath : string) (now : Z) (newID : result string).

Definition collection (r : Request) : bool := string_eqb (req_path r) "/api/v1/jobs".

Definition serve_jobs (r : Request) (a : AppState T) : Response * AppState T :=
  if collection r then handleV1Jobs reconcile r a else handleV1Job reconcile historyPath now newID r a.

(** The job the path names, the revision and the job the request carries. *)
Definition request_id (r : Request) : option Z :=
  match job_route (req_path r) with
  | [part] => if string_eqb part "" then None else match parsePositiveID part with Ok id => Some id | Err _ => None end
  | _ => None
  end.
Definition request_revision (r : Request) : option Z :=
  match parseIfMatch (req_ifMatch r) with Ok revision => Some revision | Err _ => None end.
Definition request_job (r : Request) : option Job :=
  match decode_valid_job r with inl job => Some job | inr _ => None end.

(** The mutation a request asks for, if it is well-formed. *)
Definition request_op (r : Request) : option repo_op :=
  if collection r then
    if string_eqb (req_method r) MethodPost then job ← request_job r; Some (OpCreate job) else None
  else
    id ← request_id r;
    if string_eqb (req_method r) MethodPut then
      revision ← request_revision r; job ← request_job r; Some (OpUpdate id revision job)
    else if string_eqb (req_method r) MethodDelete then revision ← request_revision r; Some (OpDelete id revision)
    else None.

Definition success (op : repo_op) (st : repo_view) : Response :=
  match op with
  | OpCreate job => set_etag (revisionETag 1) (writeJSONStatus 201 (JobBody (stamp_job st.1 1 job)))
  | OpUpdate id revision job =>
      let next := wrap_u64 (revision + 1) in
      set_etag (revisionETag next) (writeJSONStatus 200 (JobBody (stamp_job id next job)))
  | OpDelete _ _ => writeJSONStatus 204 NoBody
  end.

Definition blocked (op : repo_op) (a : AppState T) : bool :=
  match op with OpDelete id _ => (jobHasActiveRun now id a).1 | _ => false end.

(** Neither the jobs nor what runs them changed. *)
Definition jobs_kept (path : string) (st : repo_view) (a a' : AppState T) : Prop :=
  disk_holds path st (app_world a') /\ app_triggers a' = app_triggers a.

Definition api_outcome (path : string) (st : repo_view) (r : Request) (a : AppState T) (resp : Response) (a' : AppState T) : Prop :=
  match request_op r with
  | None =>
      jobs_kept path st a a' /\ w_repo (app_world a') = w_repo (app_world a) /\
      resp_status resp <> 201%Z /\ resp_status resp <> 204%Z /\ (resp_status resp = 200%Z -> req_method r = MethodGet)
  | Some op =>
      if blocked op a
      then jobs_kept path st a a' /\ resp = writeAPIError 409 "active_run" "stop active run before deleting job"
      else match spec_step op st with
      | Err e =>
          jobs_kept path st a a' /\
          (resp = mapServiceError e \/ resp = internal_error /\ ~ steady path (w_fs (app_world a)))
      | Ok st' =>
          (resp = success op st /\ disk_holds path st' (app_world a') /\ memory_holds st' (app_world a') /\
           app_triggers a' = reconcile (sorted_jobs st'.2) (app_triggers a)) \/
          (resp = internal_error /\ ~ undisturbed path st' (app_world a) /\ app_triggers a' = app_triggers a /\
           (disk_holds path st (app_world a') \/ disk_holds path st' (app_world a')))
      end
  end.

Context (marshal_foreign : forall s e, marshal_store s = Err e -> foreign e = true).

(** A response that refuses a request without touching anything. *)
Definition plain_refusal (resp : Response) : Prop :=
  resp_status resp <> 200%Z /\ resp_status resp <> 201%Z /\ resp_status resp <> 204%Z.

Lemma no_op path st r a resp :
  request_op r = None -> disk_holds path st (app_world a) ->
  plain_refusal resp \/ (req_method r = MethodGet /\ resp_status resp <> 201%Z /\ resp_status resp <> 204%Z) ->
  forall s, api_outcome path st r a resp (set_runservice s a).
Proof. intros Hop Hd Hr s. unfold api_outcome. rewrite Hop. unfold plain_refusal in Hr. split; [done|]. naive_solver. Qed.

Lemma set_runservice_id (a : AppState T) : set_runservice (app_runs a) a = a.
Proof. by destruct a. Qed.

Lemma no_op_here path st r (a : AppState T) resp :
  request_op r = None -> disk_holds path st (app_world a) ->
  plain_refusal resp \/ (req_method r = MethodGet /\ resp_status resp <> 201%Z /\ resp_status resp <> 204%Z) ->
  api_outcome path st r a resp a.
Proof. intros Hop Hd Hr. rewrite <-(set_runservice_id a) at 2. by apply no_op. Qed.

Lemma decode_refusal r resp : decode_valid_job r = inr resp -> plain_refusal resp.
Proof.
  unfold decode_valid_job. destruct (decodeStrictJSON decode_job r) as [job|e].
  - destruct (validateV2Job _); [done|]. by intros [= <-].
  - intros [= <-]. unfold handleDecodeError. by case_goal.
Qed.

Lemma post_outcome path st r (a : AppState T) :
  view_ok st -> disk_holds path st (app_world a) -> (forall op, request_op r = Some op -> op_fits op st) ->
  collection r = true -> req_method r = MethodPost ->
  let (resp, a') := handleV1Jobs reconcile r a in api_outcome path st r a resp a'.
Proof.
  intros Hok Hd Hfit Hc Hm. unfold handleV1Jobs. rewrite Hm. cbn [string_eqb].
  replace (string_eqb MethodPost MethodGet) with false by done. replace (string_eqb MethodPost MethodPost) with true by done.
  assert (request_op r = (job ← request_job r; Some (OpCreate job))) as Hop
    by (unfold request_op; rewrite Hc, Hm; done).
  unfold request_job in Hop. destruct (decode_valid_job r) as [job|resp] eqn:Ej; cbn in Hop.
  - pose proof (Create_ok marshal_foreign path st job (app_world a) Hok (Hfit _ Hop) Hd) as Hcr.
    unfold api_outcome. rewrite Hop. cbn [blocked]. unfold with_job in Hcr.
    destruct (Create job (app_world a)) as [[created|e] w]; destruct st as [next jobs]; cbn [spec_step] in *.
    + destruct Hcr as (-> & Hd' & Hm'). left. split; [done|]. split; [done|]. split; [done|].
      cbn. unfold JobRepository.List_. pose proof Hm' as Hm2. unfold memory_holds in Hm2. by injection Hm2 as _ ->.
    + right. destruct Hcr as (He & Hu & Hcr). rewrite foreign_internal by done. done.
  - apply no_op_here; [done..|]. left. by eapply decode_refusal.
Qed.

Lemma put_outcome path st r id (a : AppState T) :
  view_ok st -> disk_holds path st (app_world a) -> (forall op, request_op r = Some op -> op_fits op st) ->
  request_op r = (revision ← request_revision r; job ← request_job r; Some (OpUpdate id revision job)) ->
  let (resp, a') := put_job reconcile r id a in api_outcome path st r a resp a'.
Proof.
  intros Hok Hd Hfit Hop. unfold put_job. unfold request_revision, request_job in Hop.
  destruct (parseIfMatch (req_ifMatch r)) as [revision|e] eqn:Er; cbn in Hop.
  2:{ apply no_op_here; [done..|]. by left. }
  destruct (decode_valid_job r) as [job|resp] eqn:Ej; cbn in Hop.
  2:{ apply no_op_here; [done..|]. left. by eapply decode_refusal. }
  pose proof (Update_ok marshal_foreign path st id revision job (app_world a) Hok (Hfit _ Hop) Hd) as Hup.
  unfold api_outcome. rewrite Hop. cbn [blocked]. unfold with_job in Hup.
  destruct (Update id revision job (app_world a)) as [[updated|e] w];
    destruct (spec_step (OpUpdate id revision job) st) as [st'|e'].
  - destruct Hup as (-> & Hd' & Hm'). left. split; [done|]. split; [done|]. split; [done|].
    cbn. unfold JobRepository.List_. pose proof Hm' as Hm2. unfold memory_holds in Hm2. destruct st'. by injection Hm2 as _ ->.
  - done.
  - right. destruct Hup as (He & Hu & Hup). rewrite foreign_internal by done. done.
  - destruct Hup as [[->|[He Hs]] Hup]; split; try done; [by left|right; split; [by apply foreign_internal|done]].
Qed.

Lemma delete_outcome path st r id (a : AppState T) :
  view_ok st -> disk_holds path st (app_world a) ->
  request_op r = (revision ← request_revision r; Some (OpDelete id revision)) ->
  let (resp, a') := delete_job reconcile now r id a in api_outcome path st r a resp a'.
Proof.
  intros Hok Hd Hop. unfold delete_job. unfold request_revision in Hop.
  destruct (parseIfMatch (req_ifMatch r)) as [revision|e] eqn:Er; cbn in Hop.
  2:{ apply no_op_here; [done..|]. by left. }
  unfold api_outcome. rewrite Hop. cbn [blocked].
  destruct (jobHasActiveRun now id a) as [active a1] eqn:Ea. cbn [fst].
  assert (app_world a1 = app_world a /\ app_triggers a1 = app_triggers a) as [Hw Ht].
  { unfold jobHasActiveRun in Ea. destruct (RunService.List_ _ _ _). by injection Ea as <- <-. }
  destruct active; [unfold jobs_kept; by rewrite Hw, Ht|].
  pose proof (Delete_ok marshal_foreign path st id revision (app_world a) Hok Hd) as Hde. rewrite Hw.
  destruct (Delete id revision (app_world a)) as [[u|e] w]; destruct (spec_step (OpDelete id revision) st) as [st'|e'].
  - destruct Hde as (_ & Hd' & Hm'). left. split; [done|]. split; [done|]. split; [done|].
    cbn. rewrite Ht. unfold JobRepository.List_. pose proof Hm' as Hm2. unfold memory_holds in Hm2. destruct st'.
    by injection Hm2 as _ ->.
  - done.
  - right. destruct Hde as (He & Hu & Hde). rewrite foreign_internal by done. done.
  - destruct Hde as [[->|[He Hs]] Hde]; unfold jobs_kept; rewrite <-Ht; split; try done; [by left|right; split; [by apply foreign_internal|done]].
Qed.

Lemma list_runs_outcome path st r id (a : AppState T) :
  request_op r = None -> disk_holds path st (app_world a) ->
  let (resp, a') := handleV1JobRuns now newID r id a in api_outcome path st r a resp a'.
Proof.
  intros Hop Hd. unfold handleV1JobRuns.
  destruct (string_eqb (req_method r) MethodGet) eqn:Eg.
  { apply string_eqb_true in Eg. destruct (JobRepository.Get _ _).
    - destruct (run_limit _); [|apply no_op_here; [done..|by left]].
      destruct (RunService.List_ _ _ _). apply no_op; [done..|]. by right.
    - apply no_op_here; [done..|]. by left. }
  destruct (string_eqb (req_method r) MethodPost).
  2:{ apply no_op_here; [done..|]. by left. }
  destruct (decodeStrictJSON decode_start r) as [[revision dryRun]|e].
  2:{ apply no_op_here; [done..|]. left. unfold handleDecodeError. by case_goal. }
  destruct (revision =? 0)%Z; [apply no_op_here; [done..|by left]|].
  destruct (Start _ _ _ _ _) as [[run|e] s]; [apply no_op; [done..|by left]|].
  destruct (errors_Is e "job already has an active run"); apply no_op; try done; left; [done|].
  unfold mapServiceError. repeat case_goal; done.
Qed.

Lemma history_outcome path st r id (a : AppState T) :
  request_op r = None -> disk_holds path st (app_world a) ->
  let (resp, a') := handleV1JobHistory historyPath r id a in api_outcome path st r a resp a'.
Proof.
  intros Hop Hd. unfold handleV1JobHistory, requireMethod. cbn [existsb].
  destruct (string_eqb (req_method r) MethodGet) eqn:Eg; cbn [orb].
  2:{ apply no_op_here; [done..|]. by left. }
  apply string_eqb_true in Eg. destruct (JobRepository.Get _ _).
  2:{ apply no_op_here; [done..|]. by left. }
  unfold loadHistoryAt. rewrite SE_bind_unfold.
  destruct (fs_ReadFile_cases historyPath (w_fs (app_world a))) as (fs & Hfs & Hread).
  assert (forall resp, resp_status resp <> 201%Z -> resp_status resp <> 204%Z ->
    api_outcome path st r a resp
      (set_world (MkWorld (w_repo (app_world a)) fs (w_stamp (app_world a))) a)) as Hgo.
  { intros resp Hs1 Hs2. unfold api_outcome. rewrite Hop. split; [|done]. split; [|done].
    destruct Hd as [Hp Hd]. split; [done|]. unfold decode_disk in *. cbn. by rewrite Hfs. }
  destruct Hread as [->|[e ->]]; [|by apply Hgo].
  destruct (file_data <$> _) as [b|]; [|by apply Hgo].
  destruct (unmarshal_history b) as [[m|] [e|]]; by apply Hgo.
Qed.

Lemma method_dispatch r (a : AppState T) path st allowed :
  request_op r = None -> disk_holds path st (app_world a) ->
  api_outcome path st r a (method_not_allowed allowed) a.
Proof. intros Hop Hd. apply no_op_here; [done..|]. by left. Qed.

Lemma job_outcome path st r (a : AppState T) :
  view_ok st -> disk_holds path st (app_world a) -> (forall op, request_op r = Some op -> op_fits op st) ->
  collection r = false ->
  let (resp, a') := handleV1Job reconcile historyPath now newID r a in api_outcome path st r a resp a'.
Proof.
  intros Hok Hd Hfit Hc. unfold handleV1Job.
  assert (forall resp, plain_refusal resp -> request_op r = None -> api_outcome path st r a resp a) as Hno.
  { intros resp Hr Hop. apply no_op_here; [done..|]. by left. }
  assert (request_id r = None -> request_op r = None) as Hnone.
  { intros Hi. unfold request_op. by rewrite Hc, Hi. }
  unfold request_id in Hnone.
  destruct (job_route (req_path r)) as [|part parts] eqn:Ep; [by apply Hno, Hnone|].
  destruct (string_eqb part "") eqn:E1; [apply Hno; [done|]; apply Hnone; by destruct parts|].
  destruct (parsePositiveID part) as [id|e] eqn:Eid; [|apply Hno; [done|]; apply Hnone; by destruct parts].
  destruct parts as [|sub [|? ?]]; [|clear Hno|by apply Hno, Hnone].
  - clear Hnone.
    assert (request_id r = Some id) as Hrid by (unfold request_id; by rewrite Ep, E1, Eid).
    destruct (string_eqb (req_method r) MethodGet) eqn:Eg.
    { apply string_eqb_true in Eg. apply no_op_here; [|done|].
      - unfold request_op. rewrite Hc, Hrid, Eg. done.
      - right. unfold get_job. by destruct (JobRepository.Get _ _). }
    destruct (string_eqb (req_method r) MethodPut) eqn:Epu.
    { apply put_outcome; [done..|]. unfold request_op. rewrite Hc, Hrid. cbn. by rewrite Epu. }
    destruct (string_eqb (req_method r) MethodDelete) eqn:Ede.
    { apply delete_outcome; [done..|]. unfold request_op. rewrite Hc, Hrid. cbn. by rewrite Epu, Ede. }
    apply Hno; [done|]. unfold request_op. rewrite Hc, Hrid. cbn. by rewrite Epu, Ede.
  - destruct (string_eqb sub "runs"); [apply list_runs_outcome; auto|].
    destruct (string_eqb sub "history"); [apply history_outcome; auto|].
    apply no_op_here; auto. by left.
Qed.

Lemma serve_outcome path st r (a : AppState T) :
  view_ok st -> disk_holds path st (app_world a) -> (forall op, request_op r = Some op -> op_fits op st) ->
  let (resp, a') := serve_jobs r a in api_outcome path st r a resp a'.
Proof.
  intros Hok Hd Hfit. unfold serve_jobs. destruct (collection r) eqn:Hc; [|by apply job_outcome].
  destruct (string_eqb (req_method r) MethodPost) eqn:Ep; [apply string_eqb_true in Ep; by apply post_outcome|].
  assert (request_op r = None) as Hop by (unfold request_op; by rewrite Hc, Ep).
  unfold handleV1Jobs. rewrite Ep. destruct (string_eqb (req_method r) MethodGet) eqn:Eg; [|by apply method_dispatch].
  apply string_eqb_true in Eg. apply no_op_here; [done..|]. by right.
Qed.
End Routes.

(** ** Properties *)

(** C4: the job routes of the API refine the repository's specification.  On a
    file that holds a well-formed view, a request either asks for no mutation,
    and then neither the jobs nor the trigger components change and only a GET
    answers 200; or it is a well-formed POST, PUT or DELETE.  A DELETE of a job
    with an active run is refused with 409.  Otherwise the specification decides:
    when it fails (unknown job, stale revision) the answer is that error, 404 or
    409, or an internal error, and nothing changed; when it succeeds the answer
    carries the new job and its entity tag, file and memory hold the new view and
    the triggers were reconciled with exactly its jobs, or the answer is an
    internal error, the triggers were not reconciled and the file holds the old
    or the new view.  An internal error needs a cause: a file operation that can
    fail, the temporary name taken, or a view that cannot be encoded. *)
Theorem jobs_api_refines `{!JSONDecoder} `{!JobCodec} `{!HistoryCodec} {T} (reconcile : list Job -> T -> T)
    historyPath now newID path st r (a : AppState T) :
  (forall s e, marshal_store s = Err e -> foreign e = true) ->
  view_ok st -> disk_holds path st (app_world a) -> (forall op, request_op r = Some op -> op_fits op st) ->
  let (resp, a') := serve_jobs reconcile historyPath now newID r a in
  api_outcome reconcile now path st r a resp a'.
Proof. intros Hm. by apply serve_outcome. Qed.

(** ** Entity tags *)

Lemma TrimByte_quoted s :
  has_byte quote_double s = false -> s <> "" ->
  TrimByte quote_double (str1 quote_double +:+ s +:+ str1 quote_double) = s.
Proof.
  intros Hs Hne.
  transitivity (TrimByteRight quote_double (TrimByteLeft quote_double (s +:+ str1 quote_double))); [reflexivity|].
  assert (TrimByteLeft quote_double (s +:+ str1 quote_double) = s +:+ str1 quote_double) as ->.
  { destruct s as [|c s]; [done|]. rewrite app_cons. cbn [TrimByteLeft]. apply has_byte_false in Hs. cbn [string_forallb] in Hs.
    apply andb_true_iff in Hs as [Hc _]. apply negb_true_iff in Hc. by rewrite Hc. }
  clear Hne. induction s as [|c s IH]; [done|]. rewrite app_cons. cbn [TrimByteRight].
  assert (has_byte quote_double s = false /\ ascii_eqb c quote_double = false) as [H1 H2].
  { rewrite !has_byte_false in *. cbn [string_forallb] in Hs. apply andb_true_iff in Hs as [Hc Hs]. by apply negb_true_iff in Hc. }
  rewrite (IH H1). destruct s; [by rewrite H2|done].
Qed.

Lemma digits_no_quote s : string_forallb is_digit s = true -> has_byte quote_double s = false.
Proof.
  intros Hs. apply has_byte_false. eapply string_forallb_impl; [|exact Hs]. intros c Hc.
  apply negb_true_iff, ascii_eqb_false. by intros ->.
Qed.

Lemma revisionETag_plain rev : (0 <= rev)%Z -> string_forallb plain_char (revisionETag rev) = true.
Proof.
  intros Hr. unfold revisionETag. rewrite !string_forallb_app.
  rewrite (string_forallb_impl is_digit plain_char _ digit_plain (FormatUint_digits rev Hr)). done.
Qed.

Lemma parse_tag rev header :
  in_u64 rev -> rev <> 0%Z -> TrimSpace header = revisionETag rev \/ TrimSpace header = "W/" +:+ revisionETag rev ->
  parseIfMatch header = Ok rev.
Proof.
  intros Hr Hne Hh. assert (0 <= rev)%Z as H0 by apply Hr.
  assert (TrimByte quote_double (revisionETag rev) = FormatUint rev) as Htag.
  { apply TrimByte_quoted; [by apply digits_no_quote, FormatUint_digits|].
    destruct (FormatUint_cons rev) as (c & r & ->). done. }
  unfold parseIfMatch. destruct Hh as [Hh|Hh]; rewrite Hh.
  - change (string_eqb (revisionETag rev) "") with false. change (HasPrefix (revisionETag rev) "W/") with false.
    cbv iota. rewrite Htag, ParseUint_FormatUint by done. by rewrite (proj2 (Z.eqb_neq _ _) Hne).
  - change (string_eqb ("W/" +:+ revisionETag rev) "") with false. rewrite HasPrefix_app, TrimPrefix_app.
    cbv iota. rewrite TrimSpace_plain by by apply revisionETag_plain.
    rewrite Htag, ParseUint_FormatUint by done. by rewrite (proj2 (Z.eqb_neq _ _) Hne).
Qed.

(** Entity tags round-trip.  The tag of every positive revision, also as a
    weak tag and with any white space a trim removes around it, is read back as
    that revision; and whatever a client sends, a revision that is accepted is a
    positive 64-bit number. *)
Theorem parseIfMatch_revisionETag header rev :
  in_u64 rev -> rev <> 0%Z ->
  parseIfMatch (revisionETag rev) = Ok rev /\ parseIfMatch ("W/" +:+ revisionETag rev) = Ok rev /\
  (TrimSpace header = revisionETag rev -> parseIfMatch header = Ok rev) /\
  (forall rev', parseIfMatch header = Ok rev' -> (0 < rev' < two64)%Z).
Proof.
  intros Hr Hne. assert (0 <= rev)%Z as H0 by apply Hr.
  assert (TrimSpace (revisionETag rev) = revisionETag rev) as Ht by by apply TrimSpace_plain, revisionETag_plain.
  split; [apply parse_tag; auto|]. split; [|split].
  - apply parse_tag; [done..|]. right. apply TrimSpace_plain. rewrite string_forallb_app.
    by rewrite revisionETag_plain.
  - intros Hh. apply parse_tag; auto.
  - unfold parseIfMatch. intros rev'. case_goal; [done|]. destruct (ParseUint 10 64 _) as [n|] eqn:En; [|done].
    apply ParseUint_range in En. unfold in_u64 in En. case_goal; [done|]. intros [= <-]. bool_simpl. lia.
Qed.

(** ** A job that is sent back *)

#[local] Arguments TrimSpace : simpl never.

(** The steps of the normalisation, field by field. *)
Definition trimmed_action (a : Action) : Action :=
  if string_eqb (Action_Type a) ActionSync
  then Action_set_Sync (Sync_set_paths (TrimSpace (Sync_Source (Action_Sync a))) (TrimSpace (Sync_Dest (Action_Sync a)))
                          (Action_Sync a)) a
  else a.
Definition trimmed_source (a : Action) (source : string) : string :=
  TrimSpace (if string_eqb (Action_Type a) ActionSync then Sync_Source (Action_Sync a) else source).
Definition defaulted (value s : string) : string := if string_eqb s "" then value else s.

Lemma trim_paths_fields job :
  trim_paths job = Job_set_Source (trimmed_source (Job_Action job) (Job_Source job))
                     (Job_set_Action (trimmed_action (Job_Action job)) job).
Proof. unfold trim_paths, trimmed_source, trimmed_action. destruct job as [????????????]. cbn. by case_goal. Qed.
Lemma default_overlap_fields job :
  default_overlap job = Job_set_Execution (Exec_set_Overlap (defaulted "skip" (Exec_Overlap (Job_Execution job))) (Job_Execution job)) job.
Proof. unfold default_overlap, defaulted. destruct job as [???????? []]. cbn. by case_goal. Qed.
Lemma default_owner_fields job :
  default_owner job = Job_set_Scheduler (MkSchedulerPolicy (defaulted SchedulerSyncBridge (Policy_Owner (Job_Scheduler job)))) job.
Proof. unfold default_owner, defaulted. destruct job as [?????????? []]. cbn. by case_goal. Qed.
Lemma default_trigger_fields job : default_trigger job = Job_set_Trigger (defaulted TriggerManual (Job_Trigger job)) job.
Proof. unfold default_trigger, defaulted. destruct job. cbn. by case_goal. Qed.

Lemma defaulted_idempotent v s : defaulted v (defaulted v s) = defaulted v s.
Proof. unfold defaulted. destruct (string_eqb s "") eqn:E; [by case_goal|by rewrite E]. Qed.
Lemma trimmed_action_idempotent a : trimmed_action (trimmed_action a) = trimmed_action a.
Proof.
  destruct a as [ty sp sa cm sy]. unfold trimmed_action. cbn. destruct (string_eqb ty ActionSync) eqn:E; cbn; rewrite E; [|done].
  by rewrite !TrimSpace_idempotent.
Qed.
Lemma trimmed_source_idempotent a s : trimmed_source (trimmed_action a) (trimmed_source a s) = trimmed_source a s.
Proof.
  destruct a as [ty sp sa cm sy]. unfold trimmed_source, trimmed_action. cbn.
  destruct (string_eqb ty ActionSync) eqn:E; cbn; rewrite E; by rewrite TrimSpace_idempotent.
Qed.

Lemma normalize_fields job :
  normalizeV2Job job =
    Job_set_Trigger (defaulted TriggerManual (Job_Trigger job))
      (Job_set_Scheduler (MkSchedulerPolicy (defaulted SchedulerSyncBridge (Policy_Owner (Job_Scheduler job))))
        (Job_set_Execution (Exec_set_Overlap (defaulted "skip" (Exec_Overlap (Job_Execution job))) (Job_Execution job))
          (Job_set_Source (trimmed_source (Job_Action job) (Job_Source job))
            (Job_set_Action (trimmed_action (Job_Action job))
              (Job_set_Revision 0 (Job_set_ID 0 (Job_set_SchemaVersion 2 job))))))).
Proof.
  unfold normalizeV2Job. cbv zeta.
  by rewrite trim_paths_fields, default_overlap_fields, default_owner_fields, default_trigger_fields.
Qed.

Lemma normalize_again job id revision :
  normalizeV2Job (stamp_job id revision (normalizeV2Job job)) = normalizeV2Job job.
Proof.
  unfold stamp_job. rewrite cloneJob_id, !normalize_fields. destruct job as [?????? act ? [] ? []]. cbn.
  by rewrite !defaulted_idempotent, trimmed_action_idempotent, trimmed_source_idempotent.
Qed.

(** ** Witnesses *)

Definition demo_sync_job : Job :=
  Job_set_Action (MkAction ActionSync "" [] ""
      (MkSyncAction "rsync" " /srv/data " "/mnt/copy" "mirror" "" "" false 0 0 false false ""))
    (MkJob 0 9 9 "copy" true false (MkAction "" "" [] "" zeroSyncAction) (MkIdentity IdentityFixed "root" 0 "root" 0)
       (MkExecutionPolicy "" ["A=b"] 18 60 5 "") TriggerWatch (MkSchedulerPolicy "") "" "" "" "" "" "" "" "" "" "" 0 0 0
       "" "" false 0 0 false false "" false "" "").

Lemma parseIfMatch_revisionETag_witness :
  parseIfMatch (revisionETag 41) = Ok 41%Z /\ parseIfMatch ("W/" +:+ revisionETag 41) = Ok 41%Z /\
  (TrimSpace "x" = revisionETag 41 -> parseIfMatch "x" = Ok 41%Z) /\
  (forall rev', parseIfMatch "x" = Ok rev' -> (0 < rev' < two64)%Z).
Proof. apply (parseIfMatch_revisionETag "x" 41); [by split|done]. Defined.

(** A decoder that reads nothing but the fixed job and empty objects. *)
#[export] Instance demo_decoder : JSONDecoder := {|
  ParseMediaType t := Ok t;
  decode_job t := if string_eqb t "{job}" then Ok (demo_sync_job, "") else Err (ErrNew "syntax");
  decode_start t := Err (ErrNew "syntax");
  decode_object t := if string_eqb t "{}" then Ok (0%nat, "") else Err (ErrNew "syntax");
  decode_any t := if string_eqb t "" then Err io_EOF else Ok tt
|}.

Definition demo_history_none : HistoryCodec.
Proof.
  refine {| unmarshal_history _ := (None, Some (ErrNew "syntax")); marshal_history _ := Err (ErrNew "unsupported");
            history_encodable _ := False |}.
  done.
Defined.

Definition demo_app : AppState (list (list Job)) :=
  MkAppState demo_start (NewRunService (MkLogLimits 10 10 10 10)) [].
Definition demo_delete (tag : string) : Request := MkRequest MethodDelete "/api/v1/jobs/1" "" tag "" "".

Lemma jobs_api_refines_witness :
  let codec := demo_history_none in
  let served := serve_jobs (fun jobs t => jobs :: t) "/data/history.json" 0 (Ok "r1") (demo_delete (revisionETag 3)) demo_app in
  resp_status served.1 = 204%Z /\
  let (resp, a') := served in
  api_outcome (fun jobs t => jobs :: t) 0 "/data/jobs.json" demo_view (demo_delete (revisionETag 3)) demo_app resp a'.
Proof.
  intros codec served. split; [vm_compute; reflexivity|].
  apply (jobs_api_refines (fun jobs t => jobs :: t) "/data/history.json" 0 (Ok "r1") "/data/jobs.json" demo_view).
  - intros s e. cbn. unfold demo_marshal. case_goal; [done|]. by intros [= <-].
  - exact demo_view_ok.
  - exact demo_start_holds.
  - intros op Hop. vm_compute in Hop. injection Hop as <-. exact I.
Defined.
