(* ===== verification/JobRules.v ===== *)
(** * The rules for jobs ([normalizeV2Job] and [validateV2Job] of [api_v1_jobs.go])

    What the versioned API accepts, as a property of the job that names no
    validator, and what it makes of the job it is sent. *)

From S2P Require Import Prelude GoStrings Model LogBuffer AtomicFile JobRepository HostCommand Capabilities.
From S2P Require Import ExecutionPlan ExecutionPlanProofs RunService History Scheduler JobApi JobApiProofs.

(** ** Paths *)

(** A path by its components. *)
Definition canonical_path (p : string) : Prop := exists comps, Forall good_component comps /\ p = abs_path comps.

(** [child] is [parent], or below it. *)
Definition at_or_below (parent child : string) : Prop :=
  exists comps rest, Forall good_component (comps ++ rest) /\ parent = abs_path comps /\ child = abs_path (comps ++ rest).

Lemma canonical_true p : canonical p = true <-> canonical_path p.
Proof. unfold canonical, canonical_path. by rewrite andb_true_iff, string_eqb_true, canonical_iff. Qed.

Lemma abs_path_app a b : a <> [] -> b <> [] -> abs_path (a ++ b) = abs_path a +:+ "/" +:+ Join "/" b.
Proof. intros Ha Hb. unfold abs_path. rewrite Join_app by done. by rewrite !app_assoc_str. Qed.

Lemma Split_slash_app a b : Split slash (a +:+ String slash b) = Split slash a ++ Split slash b.
Proof.
  induction a as [|c a IH]; [done|]. rewrite app_cons. cbn [Split]. rewrite IH.
  destruct (Split_nonempty slash a) as (h & t & E). rewrite E. by destruct (ascii_eqb c slash).
Qed.

Lemma pathWithin_iff a b : Forall good_component a -> Forall good_component b ->
  pathWithin (abs_path a) (abs_path b) = true <-> exists rest, rest <> [] /\ b = a ++ rest.
Proof.
  intros Ha Hb. unfold pathWithin. destruct (string_eqb (abs_path a) "/") eqn:E; str_eqb.
  - change "/" with (abs_path []) in E. apply abs_path_inj in E as ->; [|done|constructor].
    rewrite negb_true_iff, string_eqb_false. split.
    + intros Hne. exists b. split; [|done]. by intros ->.
    + intros (rest & Hne & ->) Hr. change "/" with (abs_path []) in Hr. apply abs_path_inj in Hr; [done|done|constructor].
  - assert (a <> []) as Hne by by intros ->. rewrite HasPrefix_iff. split.
    + intros [t Ht]. rewrite app_assoc_str in Ht. change ("/" +:+ t) with (String slash t) in Ht.
      apply (f_equal (Split slash)) in Ht. rewrite Split_slash_app, !Split_abs_path in Ht by done.
      destruct (Split_nonempty slash t) as (h & l & Es). rewrite Es in Ht. exists (h :: l). split; [done|].
      destruct a as [|x a]; [done|]. destruct b; cbn in Ht; injection Ht as ? Ht; [by destruct a|by subst].
    + intros (rest & Hr & ->). exists (Join "/" rest). rewrite abs_path_app by done. by rewrite app_assoc_str.
Qed.

Lemma below_iff source dest : canonical_path source -> canonical_path dest ->
  (string_eqb source dest = false /\ pathWithin source dest = false <-> ~ at_or_below source dest).
Proof.
  intros (a & Ha & ->) (b & Hb & ->). rewrite string_eqb_false, <-not_true_iff_false, pathWithin_iff by done. split.
  - intros [Hne Hno] (comps & rest & Hg & H1 & H2). apply Forall_app in Hg as Hc. destruct Hc as [Hc _].
    assert (comps = a) as -> by by apply abs_path_inj. assert (b = a ++ rest) as -> by by apply abs_path_inj.
    destruct rest as [|s rest]; [by rewrite app_nil_r in Hne|]. apply Hno. by exists (s :: rest).
  - intros Hno. split.
    + intros E. apply Hno. exists a, []. rewrite app_nil_r. by rewrite E.
    + intros (rest & _ & ->). apply Hno. by exists a, rest.
Qed.

(** ** The rules *)

Definition plain_path (p : string) : Prop := canonical_path p /\ has_byte nul p = false /\ has_control p = false.

(** [name=value] with a name an environment can have. *)
Definition env_assignment (entry : string) : Prop :=
  exists name value, entry = name +:+ "=" +:+ value /\ has_byte "=" name = false /\
    environmentNamePattern name = true /\ has_byte nul value = false.

(** The source a watch looks at. *)
Definition source_to_watch (job : Job) : string :=
  if decide (Action_Type (Job_Action job) = "sync") then Sync_Source (Action_Sync (Job_Action job)) else Job_Source job.

Inductive action_ok (mode : string) (a : Action) : Prop :=
  | script_ok : Action_Type a = "script" -> canonical_path (Action_ScriptPath a) -> mode ∈ ["script-owner"; "fixed"] -> action_ok mode a
  | command_ok : Action_Type a = "command" -> TrimSpace (Action_Command a) <> "" -> has_byte nul (Action_Command a) = false ->
      mode = "fixed" -> action_ok mode a
  | sync_ok : Action_Type a = "sync" -> sync_valid (Action_Sync a) ->
      canonical_path (Sync_Source (Action_Sync a)) -> canonical_path (Sync_Dest (Action_Sync a)) ->
      ~ at_or_below (Sync_Source (Action_Sync a)) (Sync_Dest (Action_Sync a)) ->
      ~ at_or_below (Sync_Dest (Action_Sync a)) (Sync_Source (Action_Sync a)) -> mode = "fixed" -> action_ok mode a.

Record wellformed (job : Job) : Prop := {
  wf_name : TrimSpace (Job_Name job) <> "";
  wf_trigger : Job_Trigger job ∈ ["manual"; "cron"; "watch"];
  wf_owner : Policy_Owner (Job_Scheduler job) ∈ ["syncbridge"; "system"];
  wf_system : Policy_Owner (Job_Scheduler job) = "system" -> Job_Trigger job <> "manual";
  wf_cron : Job_Trigger job = "cron" ->
    length (Fields (Job_Cron job)) = 5%nat \/
    length (Fields (Job_Cron job)) = 6%nat /\ Policy_Owner (Job_Scheduler job) <> "system";
  wf_watch : Job_Trigger job = "watch" -> plain_path (TrimSpace (source_to_watch job));
  wf_overlap : Exec_Overlap (Job_Execution job) ∈ ["skip"; "queue-latest"];
  wf_bounds : (0 <= Exec_TimeoutSeconds (Job_Execution job) /\ 0 <= Exec_StopGraceSeconds (Job_Execution job) /\
               Exec_Umask (Job_Execution job) <= 511)%Z;
  wf_environment : Forall env_assignment (Exec_Environment (Job_Execution job));
  wf_action : action_ok (Identity_Mode (Job_Identity job)) (Job_Action job);
  wf_identity : Identity_Mode (Job_Identity job) = "fixed" ->
    accountNamePattern (Identity_User (Job_Identity job)) = true /\ accountNamePattern (Identity_Group (Job_Identity job)) = true /\
    (0 <= Identity_UID (Job_Identity job) /\ 0 <= Identity_GID (Job_Identity job))%Z
}.

(** ** The validators decide the rules *)

Lemma unit_bind {A} (m : result unit) (k : result A) a : (_ ← m; k) = Ok a <-> m = Ok tt /\ k = Ok a.
Proof. destruct m as [[]|e]; cbn; naive_solver. Qed.

Lemma plain_path_iff p : validateAbsoluteCanonicalPath p = Ok tt <-> plain_path p.
Proof.
  unfold validateAbsoluteCanonicalPath, plain_path, canonical_path. rewrite fail_bind, fail_if_Ok, !orb_false_iff, !negb_false_iff.
  rewrite string_eqb_false, string_eqb_true, <-canonical_iff. split; [tauto|]. intros ((H1 & H2) & H3 & H4). split_and!; try done.
  by intros ->.
Qed.

Lemma environment_iff l : forallb environment_entry_ok l = true <-> Forall env_assignment l.
Proof.
  induction l as [|e l IH]; cbn; [split; [constructor|done]|]. rewrite andb_true_iff, IH, Forall_cons.
  assert (environment_entry_ok e = true <-> env_assignment e) as ->; [|done].
  unfold environment_entry_ok, env_assignment. split.
  - destruct (Cut "=" e) as [[name value] ok] eqn:E. rewrite !andb_true_iff, negb_true_iff. intros [[-> Hn] Hv].
    apply Cut_Some in E as [-> Hb]. by exists name, value.
  - intros (name & value & -> & Hb & Hn & Hv). change (name +:+ "=" +:+ value) with (name +:+ String "=" value).
    by rewrite Cut_app, Hn, Hv.
Qed.

Lemma trigger_iff job : validateTrigger job = Ok tt <->
  Job_Trigger job ∈ ["manual"; "cron"; "watch"] /\ Policy_Owner (Job_Scheduler job) ∈ ["syncbridge"; "system"] /\
  (Policy_Owner (Job_Scheduler job) = "system" -> Job_Trigger job <> "manual") /\
  (Job_Trigger job = "cron" -> length (Fields (Job_Cron job)) = 5%nat \/
    length (Fields (Job_Cron job)) = 6%nat /\ Policy_Owner (Job_Scheduler job) <> "system") /\
  (Job_Trigger job = "watch" -> plain_path (TrimSpace (source_to_watch job))).
Proof.
  unfold validateTrigger. rewrite !fail_bind, none_of_2, none_of_3, unit_bind, !elem_of_cons, !elem_of_nil.
  assert (string_eqb (Policy_Owner (Job_Scheduler job)) SchedulerSystem && string_eqb (Job_Trigger job) TriggerManual = false <->
    (Policy_Owner (Job_Scheduler job) = "system" -> Job_Trigger job <> "manual")) as ->.
  { rewrite andb_false_iff, !string_eqb_false. destruct (decide (Policy_Owner (Job_Scheduler job) = "system")); tauto. }
  assert ((if string_eqb (Job_Trigger job) TriggerCron
           then _ ← normalizeCronSpec (Job_Cron job);
                fail_if (string_eqb (Policy_Owner (Job_Scheduler job)) SchedulerSystem &&
                         negb (length (Fields (Job_Cron job)) =? 5)%nat)
                  (ErrNew "system cron expressions must have exactly five fields")
           else Ok tt) = Ok tt <->
    (Job_Trigger job = "cron" -> length (Fields (Job_Cron job)) = 5%nat \/
       length (Fields (Job_Cron job)) = 6%nat /\ Policy_Owner (Job_Scheduler job) <> "system")) as ->.
  { destruct (string_eqb (Job_Trigger job) TriggerCron) eqn:E; str_eqb; [|naive_solver]. rewrite E. unfold normalizeCronSpec.
    destruct (length (Fields (Job_Cron job)) =? 5)%nat eqn:E5; bool_simpl.
    - apply Nat.eqb_eq in E5. cbn. rewrite andb_false_r. naive_solver.
    - apply Nat.eqb_neq in E5. destruct (length (Fields (Job_Cron job)) =? 6)%nat eqn:E6; cbn.
      + apply Nat.eqb_eq in E6. rewrite andb_true_r, fail_if_Ok, string_eqb_false. naive_solver.
      + apply Nat.eqb_neq in E6. naive_solver. }
  assert ((if string_eqb (Job_Trigger job) TriggerWatch
           then _ ← fail_if (string_eqb (TrimSpace (jobWatchSource job)) "") (ErrNew "watch trigger requires a source directory");
                wrap_err "watch source: " (validateAbsoluteCanonicalPath (TrimSpace (jobWatchSource job)))
           else Ok tt) = Ok tt <-> (Job_Trigger job = "watch" -> plain_path (TrimSpace (source_to_watch job)))) as ->.
  { assert (source_to_watch job = jobWatchSource job) as ->.
    { unfold source_to_watch, jobWatchSource, string_eqb. by destruct (decide _); case_bool_decide. }
    destruct (string_eqb (Job_Trigger job) TriggerWatch) eqn:E; str_eqb; [|naive_solver]. rewrite E.
    rewrite fail_bind, wrap_err_Ok, plain_path_iff, string_eqb_false. split; [naive_solver|]. intros H. specialize (H eq_refl).
    split; [|done]. destruct H as ((comps & _ & ->) & _). done. }
  unfold SchedulerSyncBridge, SchedulerSystem, TriggerManual, TriggerCron, TriggerWatch. tauto.
Qed.

Lemma execution_iff e : validateExecution e = Ok tt <->
  Exec_Overlap e ∈ ["skip"; "queue-latest"] /\
  (0 <= Exec_TimeoutSeconds e /\ 0 <= Exec_StopGraceSeconds e /\ Exec_Umask e <= 511)%Z /\
  Forall env_assignment (Exec_Environment e).
Proof.
  unfold validateExecution. rewrite !fail_bind, fail_if_Ok, none_of_2, negb_false_iff, environment_iff, !orb_false_iff.
  rewrite !Z.ltb_ge, Z.gtb_ltb, Z.ltb_ge, !elem_of_cons, elem_of_nil. tauto.
Qed.

Lemma action_iff job : validateAction job = Ok tt <-> action_ok (Identity_Mode (Job_Identity job)) (Job_Action job).
Proof.
  unfold validateAction. cbv zeta. set (a := Job_Action job). set (mode := Identity_Mode (Job_Identity job)).
  destruct (string_eqb (Action_Type a) ActionScript) eqn:E1; str_eqb.
  { rewrite fail_bind, fail_if_Ok, negb_false_iff, none_of_2, canonical_true. split.
    - intros [Hp Hm]. apply script_ok; [done|done|]. rewrite !elem_of_cons. tauto.
    - intros [_ Hp Hm|Ht|Ht]; [|by rewrite E1 in Ht..]. rewrite !elem_of_cons, elem_of_nil in Hm. split; [done|]. tauto. }
  destruct (string_eqb (Action_Type a) ActionCommand) eqn:E2; str_eqb.
  { rewrite fail_bind, fail_if_Ok, negb_false_iff, orb_false_iff, string_eqb_false, string_eqb_true. split.
    - intros [[H1 H2] H3]. by apply command_ok.
    - intros [Ht|_ H1 H2 H3|Ht]; [by rewrite E2 in Ht|done|by rewrite E2 in Ht]. }
  destruct (string_eqb (Action_Type a) ActionSync) eqn:E3; str_eqb.
  2:{ split; [done|]. intros [Ht|Ht|Ht]; by rewrite Ht in *. }
  rewrite unit_bind, !fail_bind, fail_if_Ok, negb_false_iff, !orb_false_iff, !negb_false_iff, !canonical_true, string_eqb_true.
  rewrite validateSyncActionOptions_iff. split.
  - intros (Hs & [[H1 H2] H3] & [H4 H5] & H6). apply sync_ok; try done; apply below_iff; try done.
    split; [|done]. apply string_eqb_false. apply string_eqb_false in H3. congruence.
  - intros [Ht|Ht|_ Hs H1 H2 H3 H4 H5]; [by rewrite E3 in Ht..|]. apply below_iff in H3 as [H3 H6]; [|done|done].
    apply below_iff in H4 as [_ H4]; [|done|done]. done.
Qed.

Lemma identity_iff i : validateFixedIdentity i = Ok tt <->
  (Identity_Mode i = "fixed" -> accountNamePattern (Identity_User i) = true /\ accountNamePattern (Identity_Group i) = true /\
     (0 <= Identity_UID i /\ 0 <= Identity_GID i)%Z).
Proof.
  unfold validateFixedIdentity. destruct (string_eqb (Identity_Mode i) IdentityFixed) eqn:E; str_eqb; [|naive_solver].
  rewrite E, fail_if_Ok, !orb_false_iff, !negb_false_iff, !Z.ltb_ge. naive_solver.
Qed.

Lemma validateV2Job_iff job : validateV2Job job = Ok tt <-> wellformed job.
Proof.
  unfold validateV2Job. rewrite fail_bind, !unit_bind, string_eqb_false, trigger_iff, execution_iff, action_iff, identity_iff.
  split.
  - intros (H1 & (H2 & H3 & H4 & H5 & H6) & (H7 & H8 & H9) & H10 & H11). split; assumption.
  - intros []. tauto.
Qed.

(** ** What becomes of a job that is sent *)

(** The job made of the job that was sent: every field is given here. *)
Record normal_form (sent job : Job) : Prop := {
  nf_version : Job_SchemaVersion job = 2%Z;
  nf_id : Job_ID job = 0%Z;
  nf_revision : Job_Revision job = 0%Z;
  nf_trigger : Job_Trigger job = (if decide (Job_Trigger sent = "") then "manual" else Job_Trigger sent);
  nf_owner : Policy_Owner (Job_Scheduler job) =
    (if decide (Policy_Owner (Job_Scheduler sent) = "") then "syncbridge" else Policy_Owner (Job_Scheduler sent));
  nf_overlap : Job_Execution job =
    Exec_set_Overlap (if decide (Exec_Overlap (Job_Execution sent) = "") then "skip" else Exec_Overlap (Job_Execution sent))
      (Job_Execution sent);
  nf_action : Job_Action job =
    (if decide (Action_Type (Job_Action sent) = "sync")
     then Action_set_Sync (Sync_set_paths (TrimSpace (Sync_Source (Action_Sync (Job_Action sent))))
                             (TrimSpace (Sync_Dest (Action_Sync (Job_Action sent)))) (Action_Sync (Job_Action sent)))
            (Job_Action sent)
     else Job_Action sent);
  nf_source : Job_Source job = TrimSpace (source_to_watch sent);
  nf_rest : sent =
    Job_set_SchemaVersion (Job_SchemaVersion sent) (Job_set_ID (Job_ID sent) (Job_set_Revision (Job_Revision sent)
      (Job_set_Trigger (Job_Trigger sent) (Job_set_Scheduler (Job_Scheduler sent) (Job_set_Execution (Job_Execution sent)
        (Job_set_Action (Job_Action sent) (Job_set_Source (Job_Source sent) job)))))))
}.

#[local] Arguments TrimSpace : simpl never.

Lemma string_eqb_decide {A} a b (x y : A) : (if string_eqb a b then x else y) = if decide (a = b) then x else y.
Proof. unfold string_eqb. by destruct (decide (a = b)); case_bool_decide. Qed.

Lemma normalize_form sent : normal_form sent (normalizeV2Job sent).
Proof.
  rewrite normalize_fields. split; destruct sent; try done; cbn; unfold defaulted, trimmed_action, trimmed_source, source_to_watch;
    cbn; by rewrite string_eqb_decide.
Qed.

Lemma stored_watch sent : let job := normalizeV2Job sent in source_to_watch job = Job_Source job.
Proof.
  cbn zeta. destruct (normalize_form sent) as [_ _ _ _ _ _ Ha Hs _]. rewrite Hs. unfold source_to_watch. rewrite Ha.
  destruct (decide (Action_Type (Job_Action sent) = "sync")) as [E|E]; cbn; [by rewrite decide_True|].
  rewrite decide_False by done. rewrite Hs. unfold source_to_watch. by rewrite decide_False.
Qed.

Lemma stamp_watch id revision job : source_to_watch (stamp_job id revision job) = source_to_watch job /\
  Job_Source (stamp_job id revision job) = Job_Source job.
Proof. by split. Qed.

(** ** Properties *)

(** C33: what the API accepts as a job.  A job that a request's body decodes to is
    given its defaults and its paths are trimmed, and nothing else changes; the
    result is accepted when it is well-formed, and answered with 400 invalid_job
    when it is not.  Well-formed: it has a name; its trigger is manual, cron or watch
    and its scheduler the service or the system, not the system for a manual job; a
    cron line has five or six fields, five for the system; a watched source is a
    canonical absolute path without control characters; the bounds of the execution
    are in range, the environment is made of assignments; the action is a script at a
    canonical path, a command that is not blank, or a sync with valid options
    between two canonical paths of which neither is the other or below it, under an
    identity the action allows; and a fixed identity is complete.  The job stored
    under any ID and revision, sent back as it is, is the same job again; and a
    job watches its own source field. *)
Theorem job_rules `{!JSONDecoder} r sent id revision :
  decodeStrictJSON decode_job r = Ok sent ->
  exists job, normal_form sent job /\
    (wellformed job -> decode_valid_job r = inl job) /\
    (~ wellformed job -> exists text, decode_valid_job r = inr (writeAPIError 400 "invalid_job" text)) /\
    normal_form (stamp_job id revision job) job /\
    source_to_watch (stamp_job id revision job) = Job_Source (stamp_job id revision job).
Proof.
  intros Hd. exists (normalizeV2Job sent). split; [apply normalize_form|]. unfold decode_valid_job. rewrite Hd. cbv zeta.
  split; [|split; [|split]].
  - intros Hw%validateV2Job_iff. by rewrite Hw.
  - intros Hw. destruct (validateV2Job (normalizeV2Job sent)) as [[]|e] eqn:E; [|by eexists].
    by apply validateV2Job_iff in E.
  - pose proof (normalize_form (stamp_job id revision (normalizeV2Job sent))) as Hn. by rewrite normalize_again in Hn.
  - destruct (stamp_watch id revision (normalizeV2Job sent)) as [-> ->]. apply stored_watch.
Qed.

(** ** Witnesses *)

Definition demo_post : Request := MkRequest MethodPost "/api/v1/jobs" "application/json" "" "" "{job}".

Lemma job_rules_witness :
  (exists job, decode_valid_job demo_post = inl job) /\
  exists job, normal_form demo_sync_job job /\
    (wellformed job -> decode_valid_job demo_post = inl job) /\
    (~ wellformed job -> exists text, decode_valid_job demo_post = inr (writeAPIError 400 "invalid_job" text)) /\
    normal_form (stamp_job 7 3 job) job /\ source_to_watch (stamp_job 7 3 job) = Job_Source (stamp_job 7 3 job).
Proof.
  split; [eexists; vm_compute; reflexivity|]. apply (job_rules demo_post demo_sync_job 7 3). vm_compute. reflexivity.
Defined.
