(* ===== verification/WatchManager.v ===== *)
(** * The watch manager ([watch_manager.go])

    [WatchManager] keeps one watcher per eligible job and turns file events and
    polling into requests to the run service.  A handle is known by a number,
    Go's pointer; the handles are kept in a heap, and [m.active] maps a job to a
    pointer that can be nil.  [Reconcile] takes [m.mu] twice and prepares the
    watchers in between; a callback of the debounce timer takes it before it
    calls the run service.  The pieces between two releases of the lock are the
    steps of [wstep]; [Reconcile] is their composition when nothing else runs. *)

From S2P Require Import Prelude GoStrings Model LogBuffer HostCommand Capabilities ExecutionPlan.
From S2P Require Import RunService Scheduler.

(** ** Specifications *)

Record watchSpec := MkWatchSpec {
  ws_revision : Z; ws_generation : Z; ws_source : string; ws_viewSource : string; ws_mode : string;
  ws_debounce : Z; ws_poll : Z; ws_globs : list string
}.

Definition set_viewSource (v : string) (s : watchSpec) : watchSpec :=
  MkWatchSpec (ws_revision s) (ws_generation s) (ws_source s) v (ws_mode s) (ws_debounce s) (ws_poll s) (ws_globs s).
Definition set_ws_generation (g : Z) (s : watchSpec) : watchSpec :=
  MkWatchSpec (ws_revision s) g (ws_source s) (ws_viewSource s) (ws_mode s) (ws_debounce s) (ws_poll s) (ws_globs s).

(** [time.Duration(n) * time.Second], which wraps around. *)
Definition seconds (n : Z) : Z := wrap_s64 (n * second).

Definition watchSpecFor (job : Job) : result watchSpec :=
  let source := TrimSpace (jobWatchSource job) in
  if string_eqb source "" then Err (ErrNew "watch job source is required")
  else
    let mode := if string_eqb (Job_WatchMode job) "" then "hybrid" else Job_WatchMode job in
    if negb (string_eqb mode "event") && negb (string_eqb mode "poll") && negb (string_eqb mode "hybrid")
    then Err (ErrNew "watch mode must be event, poll, or hybrid")
    else
      let debounce := seconds (Job_Debounce job) in
      let debounce := if (debounce <=? 0)%Z then (10 * second)%Z else debounce in
      let poll := seconds (Job_PollSec job) in
      let poll := if (poll <=? 0)%Z then (5 * 60 * second)%Z else poll in
      Ok (MkWatchSpec (Job_Revision job) 0 source "" mode debounce poll (splitCSV (Job_WatchGlob job))).

Definition sameWatchSpec (a b : watchSpec) : bool :=
  (ws_revision a =? ws_revision b)%Z && string_eqb (ws_source a) (ws_source b) &&
  string_eqb (ws_viewSource a) (ws_viewSource b) && string_eqb (ws_mode a) (ws_mode b) &&
  (ws_debounce a =? ws_debounce b)%Z && (ws_poll a =? ws_poll b)%Z &&
  bool_decide (ws_globs a = ws_globs b).

(** ** Paths *)

(** [filepath.Rel], component by component: what is left of the two paths after
    their common beginning; [None] when one is absolute and the other is not, or
    when the base leaves its root. *)
Fixpoint strip_common (a b : list string) : list string * list string :=
  match a, b with
  | x :: a', y :: b' => if string_eqb x y then strip_common a' b' else (a, b)
  | _, _ => (a, b)
  end.
Definition path_components (p : string) : list string := rev (fold_left (clean_step (IsAbs p)) (Split slash p) []).
Definition Rel (base targ : string) : option string :=
  if negb (Bool.eqb (IsAbs base) (IsAbs targ)) then None
  else if string_eqb (Clean base) (Clean targ) then Some "."
  else
    let (b, t) := strip_common (path_components base) (path_components targ) in
    if string_eqb (default "" (head b)) ".." then None
    else Some (Join "/" (map (fun _ => "..") b ++ t)).

Definition samePath (a b : string) : bool := string_eqb (Clean a) (Clean b).

Definition watchPathWithin (root path : string) : bool :=
  match Rel root path with
  | None => false
  | Some rel => negb (string_eqb rel "..") && negb (HasPrefix rel "../")
  end.

(** ** The host *)

(** [m.resolvePath], [m.checkSource], the watcher factory, [watcher.Add],
    [addWatchDirectories], and [filepath.Match] (false for a bad pattern). *)
Class WatchHost (W : Type) := {
  resolvePath : string -> result string;
  checkSource : string -> W -> result unit * W;
  newWatcher : W -> result unit * W;
  addWatch : string -> W -> result unit * W;
  addWatchDirectories : string -> W -> result unit * W;
  filepath_Match : string -> string -> bool
}.

Section Glob.
Context {W : Type} `{!WatchHost W}.
Definition matchesWatch (globs : list string) (path : string) : bool :=
  match globs with
  | [] => true
  | _ => let name := Base path in existsb (fun glob => filepath_Match (TrimSpace glob) name) globs
  end.
End Glob.

(** ** State *)

(** [wh_cancelled]: the context of the handle is done. *)
Record watchHandle := MkWatchHandle {
  wh_spec : watchSpec; wh_cancelled : bool; wh_watcher : bool; wh_started : bool; wh_timer : bool
}.

(** [wm_panicked]: a method was called on a nil handle.  [wm_done]: the manager's
    context is done, because of [Close] or because its parent's is. *)
Record WatchManager := MkWatchManager {
  wm_active : gmap Z (option nat);
  wm_degraded : gset Z;
  wm_errors : gmap Z goerror;
  wm_nextGen : Z;
  wm_closed : bool;
  wm_handles : gmap nat watchHandle;
  wm_nextHandle : nat;
  wm_panicked : bool;
  wm_done : bool
}.

Definition newWatchManager : WatchManager := MkWatchManager ∅ ∅ ∅ 0 false ∅ 0 false false.

Definition set_active (v : gmap Z (option nat)) (m : WatchManager) : WatchManager :=
  MkWatchManager v (wm_degraded m) (wm_errors m) (wm_nextGen m) (wm_closed m) (wm_handles m) (wm_nextHandle m) (wm_panicked m) (wm_done m).
Definition set_degraded (d : gset Z) (e : gmap Z goerror) (m : WatchManager) : WatchManager :=
  MkWatchManager (wm_active m) d e (wm_nextGen m) (wm_closed m) (wm_handles m) (wm_nextHandle m) (wm_panicked m) (wm_done m).
Definition set_nextGen (g : Z) (m : WatchManager) : WatchManager :=
  MkWatchManager (wm_active m) (wm_degraded m) (wm_errors m) g (wm_closed m) (wm_handles m) (wm_nextHandle m) (wm_panicked m) (wm_done m).
Definition set_closed (m : WatchManager) : WatchManager :=
  MkWatchManager (wm_active m) (wm_degraded m) (wm_errors m) (wm_nextGen m) true (wm_handles m) (wm_nextHandle m) (wm_panicked m) true.
Definition set_handles (h : gmap nat watchHandle) (n : nat) (m : WatchManager) : WatchManager :=
  MkWatchManager (wm_active m) (wm_degraded m) (wm_errors m) (wm_nextGen m) (wm_closed m) h n (wm_panicked m) (wm_done m).
Definition set_panicked (m : WatchManager) : WatchManager :=
  MkWatchManager (wm_active m) (wm_degraded m) (wm_errors m) (wm_nextGen m) (wm_closed m) (wm_handles m) (wm_nextHandle m) true (wm_done m).

(** [m.active[id]]: nil for a job without an entry. *)
Definition active_handle (id : Z) (m : WatchManager) : option nat := default None (wm_active m !! id).

Definition handle_spec (h : nat) (m : WatchManager) : option watchSpec := wh_spec <$> wm_handles m !! h.

(** The context of a handle is done; [handle.stop()] also stops its timer. *)
Definition context_ended (h : watchHandle) : watchHandle := MkWatchHandle (wh_spec h) true (wh_watcher h) (wh_started h) (wh_timer h).
Definition cancelled (h : watchHandle) : watchHandle := MkWatchHandle (wh_spec h) true (wh_watcher h) (wh_started h) false.
Definition stop_handle (o : option nat) (m : WatchManager) : WatchManager :=
  match o with
  | Some n => set_handles (alter cancelled n (wm_handles m)) (wm_nextHandle m) m
  | None => set_panicked m
  end.
Definition stop_all (l : list (option nat)) (m : WatchManager) : WatchManager := fold_left (fun m o => stop_handle o m) l m.

(** ** Errors *)

(** [handle] nil means the error belongs to no watcher. *)
Definition publishError (id : Z) (handle : option nat) (err : goerror) (degraded : bool) (m : WatchManager) : WatchManager :=
  if wm_closed m || (bool_decide (is_Some handle) && negb (bool_decide (active_handle id m = handle))) then m
  else set_degraded (if degraded then {[id]} ∪ wm_degraded m else wm_degraded m) (<[id := err]> (wm_errors m)) m.

Definition degrade (id : Z) (h : nat) (err : option goerror) (m : WatchManager) : WatchManager :=
  match err with None => m | Some err => publishError id (Some h) err true m end.

Section Manager.
Context {W : Type} `{!WatchHost W}.

(** ** Reconcile *)

(** The loop over the jobs. *)
Definition want_watch (job : Job) (w : W) : result watchSpec * W :=
  match watchSpecFor job with
  | Err e => (Err e, w)
  | Ok spec =>
      match resolvePath (ws_source spec) with
      | Err e => (Err e, w)
      | Ok view =>
          match checkSource view w with
          | (Err e, w) => (Err e, w)
          | (Ok _, w) => (Ok (set_viewSource view spec), w)
          end
      end
  end.

Definition wanted_watches (jobs : list Job) (w : W) : gmap Z watchSpec * gmap Z goerror * W :=
  fold_left (fun '(desired, invalid, w) job =>
    if negb (schedulerEligible job TriggerWatch) then (desired, invalid, w)
    else match want_watch job w with
         | (Err e, w) => (desired, <[Job_ID job := e]> invalid, w)
         | (Ok spec, w) => (<[Job_ID job := spec]> desired, invalid, w)
         end) jobs (∅, ∅, w).

(** Whether the current watcher of a job can stay. *)
Definition keeps (id : Z) (want : watchSpec) (m : WatchManager) : bool :=
  match active_handle id m with
  | None => false
  | Some h => match handle_spec h m with
              | Some spec => sameWatchSpec spec want && negb (bool_decide (id ∈ wm_degraded m))
              | None => false
              end
  end.

(** The first critical section: which watchers are to be created. *)
Definition begin_create (desired : gmap Z watchSpec) (m : WatchManager) : gmap Z watchSpec * WatchManager :=
  fold_left (fun '(create, m) kv =>
    if keeps kv.1 kv.2 m then (create, m)
    else let g := wrap_u64 (wm_nextGen m + 1) in (<[kv.1 := set_ws_generation g kv.2]> create, set_nextGen g m))
    (map_to_list desired) (∅, m).

Definition events_mode (spec : watchSpec) : bool := string_eqb (ws_mode spec) "event" || string_eqb (ws_mode spec) "hybrid".

(** [newHandle]; a handle that fails is stopped and forgotten.  Its context is a
    child of the manager's: [ended] when that is done, and then [addTree] refuses. *)
Definition newHandle (ended : bool) (spec : watchSpec) (w : W) : result watchHandle * W :=
  match checkSource (ws_viewSource spec) w with
  | (Err e, w) => (Err e, w)
  | (Ok _, w) =>
      if negb (events_mode spec) then (Ok (MkWatchHandle spec ended false false false), w)
      else match newWatcher w with
      | (Err e, w) => (Err e, w)
      | (Ok _, w) =>
          let parent := Dir (ws_viewSource spec) in
          match (if string_eqb parent (ws_viewSource spec) then (Ok tt, w) else addWatch parent w) with
          | (Err e, w) => (Err e, w)
          | (Ok _, w) =>
              if ended then (Err (ErrVar "context canceled"), w)
              else match addWatchDirectories (ws_viewSource spec) w with
              | (Err e, w) => (Err e, w)
              | (Ok _, w) => (Ok (MkWatchHandle spec ended true false false), w)
              end
          end
      end
  end.

Definition alloc (h : watchHandle) (m : WatchManager) : nat * WatchManager :=
  (wm_nextHandle m, set_handles (<[wm_nextHandle m := h]> (wm_handles m)) (S (wm_nextHandle m)) m).

(** Between the critical sections: the new handles, or the job that failed,
    with the handles that were ready stopped. *)
Fixpoint prepare (create : list (Z * watchSpec)) (prepared : gmap Z nat) (m : WatchManager) (w : W) :
    (gmap Z nat + Z * goerror) * WatchManager * W :=
  match create with
  | [] => (inl prepared, m, w)
  | (id, spec) :: create =>
      match newHandle (wm_done m) spec w with
      | (Ok h, w) => let (n, m) := alloc h m in prepare create (<[id := n]> prepared) m w
      | (Err e, w) =>
          let m := stop_all (Some <$> (map_to_list prepared).*2) m in
          (inr (id, e), publishError id None e false m, w)
      end
  end.

(** The second critical section: the loop over the current watchers.  The last
    component is set when a nil pointer is dereferenced. *)
Definition publish_current (desired : gmap Z watchSpec) (invalid : gmap Z goerror) (prepared : gmap Z nat) (m : WatchManager)
    (st : gmap Z (option nat) * list (option nat) * bool) (kv : Z * option nat) : gmap Z (option nat) * list (option nat) * bool :=
  let '(next, stopped, nil_) := st in
  let '(id, current) := kv in
  if bool_decide (is_Some (invalid !! id)) then (<[id := current]> next, stopped, nil_)
  else match desired !! id with
  | None => (next, stopped ++ [current], nil_)
  | Some want =>
      match prepared !! id with
      | Some ready => (<[id := Some ready]> next, stopped ++ [current], nil_)
      | None =>
          match current with
          | None => (next, stopped, true)
          | Some _ => if keeps id want m then (<[id := current]> next, stopped, nil_) else (next, stopped, nil_)
          end
      end
  end.

Definition fill_desired (desired : gmap Z watchSpec) (prepared : gmap Z nat) (next : gmap Z (option nat)) : gmap Z (option nat) :=
  fold_left (fun next id => match next !! id with Some _ => next | None => <[id := prepared !! id]> next end)
    (map_to_list desired).*1 next.

(** [m.errors] and [m.degraded] after the publication. *)
Definition publish_errors (desired : gmap Z watchSpec) (invalid errors : gmap Z goerror) : gmap Z goerror :=
  filter (fun kv => is_Some (invalid !! kv.1) \/ desired !! kv.1 = None) (invalid ∪ errors).
Definition publish_degraded (desired : gmap Z watchSpec) (invalid : gmap Z goerror) (degraded : gset Z) : gset Z :=
  filter (fun id => is_Some (invalid !! id) \/ desired !! id = None) degraded.

Definition started_handle (h : watchHandle) : watchHandle :=
  MkWatchHandle (wh_spec h) (wh_cancelled h) (wh_watcher h) true (wh_timer h).
Definition start_all (l : list nat) (m : WatchManager) : WatchManager :=
  fold_left (fun m n => set_handles (alter started_handle n (wm_handles m)) (wm_nextHandle m) m) l m.

(** From the second critical section to the return. *)
Definition publish (desired : gmap Z watchSpec) (invalid : gmap Z goerror) (prepared : gmap Z nat) (m : WatchManager) :
    option goerror * WatchManager :=
  if wm_closed m then (Some (ErrNew "watch manager is closed"), stop_all (Some <$> (map_to_list prepared).*2) m)
  else
    let '(next, stopped, nil_) :=
      fold_left (publish_current desired invalid prepared m) (map_to_list (wm_active m)) (∅, [], false) in
    if nil_ then (None, set_panicked m)
    else
      let m := set_active (fill_desired desired prepared next) m in
      let m := set_degraded (publish_degraded desired invalid (wm_degraded m)) (publish_errors desired invalid (wm_errors m)) m in
      let m := stop_all stopped m in
      (errors_Join (Some <$> mapErrors invalid), start_all (map_to_list prepared).*2 m).

Definition Reconcile (jobs : list Job) (m : WatchManager) (w : W) : option goerror * WatchManager * W :=
  let '(desired, invalid, w) := wanted_watches jobs w in
  if wm_closed m then (Some (ErrNew "watch manager is closed"), m, w)
  else
    let (create, m) := begin_create desired m in
    match prepare (map_to_list create) ∅ m w with
    | (inr (id, err), m, w) => (Some (ErrWrap ("job " +:+ Itoa id +:+ ": ") err ""), m, w)
    | (inl prepared, m, w) => let (err, m) := publish desired invalid prepared m in (err, m, w)
    end.

(** ** Events *)

(** [addTree] refuses when the handle's context is done. *)
Definition addTree (h : nat) (root : string) (m : WatchManager) (w : W) : result unit * W :=
  match wm_handles m !! h with
  | Some hd => if wh_cancelled hd then (Err (ErrVar "context canceled"), w) else addWatchDirectories root w
  | None => (Err (ErrVar "context canceled"), w)
  end.

(** Arms the debounce timer anew. *)
Definition arm (h : watchHandle) : watchHandle := MkWatchHandle (wh_spec h) (wh_cancelled h) (wh_watcher h) (wh_started h) true.
Definition signalHandle (id : Z) (h : nat) (m : WatchManager) : WatchManager :=
  if wm_closed m || negb (bool_decide (active_handle id m = Some h)) || bool_decide (id ∈ wm_degraded m) then m
  else match wm_handles m !! h with
  | Some hd => if wh_cancelled hd then m else set_handles (alter arm h (wm_handles m)) (wm_nextHandle m) m
  | None => m
  end.

Definition rearmRoot (id : Z) (h : nat) (spec : watchSpec) (m : WatchManager) (w : W) : WatchManager * W :=
  match checkSource (ws_viewSource spec) w with
  | (Err e, w) => (degrade id h (Some e) m, w)
  | (Ok _, w) =>
      match addTree h (ws_viewSource spec) m w with
      | (Err e, w) => (degrade id h (Some e) m, w)
      | (Ok _, w) =>
          (if bool_decide (active_handle id m = Some h) && negb (wm_closed m)
           then set_degraded (wm_degraded m ∖ {[id]}) (delete id (wm_errors m)) m else m, w)
      end
  end.

(** An event of fsnotify; [ev_stat] is what [os.Stat] says of the name:
    whether it is a directory. *)
Record fsEvent := MkFsEvent { ev_name : string; ev_create : bool; ev_gone : bool; ev_stat : result bool }.

(** A created entry is added to the tree when it is a directory. *)
Definition event_created (h : nat) (e : fsEvent) (m : WatchManager) (w : W) : option goerror * W :=
  if negb (ev_create e) then (None, w)
  else match ev_stat e with
  | Err err => (Some err, w)
  | Ok false => (None, w)
  | Ok true => match addTree h (ev_name e) m w with (Err err, w) => (Some err, w) | (Ok _, w) => (None, w) end
  end.

Definition handleEvent (id : Z) (h : nat) (spec : watchSpec) (e : fsEvent) (m : WatchManager) (w : W) : WatchManager * W :=
  if samePath (ev_name e) (ws_viewSource spec) && ev_gone e
  then (degrade id h (Some (ErrNew "watch root disappeared")) m, w)
  else if samePath (ev_name e) (ws_viewSource spec) && ev_create e then rearmRoot id h spec m w
  else if negb (watchPathWithin (ws_viewSource spec) (ev_name e)) then (m, w)
  else match event_created h e m w with
  | (Some err, w) => (degrade id h (Some err) m, w)
  | (None, w) => (if matchesWatch (ws_globs spec) (ev_name e) then signalHandle id h m else m, w)
  end.

(** One tick of [poll]: the last signature and the new one, or an error. *)
Definition poll_tick (id : Z) (h : nat) (last : string) (next : result string) (m : WatchManager) : string * WatchManager :=
  match next with
  | Err e => (last, degrade id h (Some e) m)
  | Ok next => if string_eqb next last then (last, m) else (next, signalHandle id h m)
  end.

(** ** Firing *)

(** Up to the release of the lock: whether the callback goes on. *)
Definition fire_check (id : Z) (h : nat) (m : WatchManager) : bool :=
  negb (wm_closed m || negb (bool_decide (active_handle id m = Some h)) || bool_decide (id ∈ wm_degraded m)).

(** The request of a callback that goes on, unless its source is gone. *)
Definition fire_request (id : Z) (spec : watchSpec) (w : W) : result StartRunInput * W :=
  match checkSource (ws_viewSource spec) w with
  | (Err e, w) => (Err e, w)
  | (Ok _, w) => (Ok (MkStartRunInput id (ws_revision spec) RunOriginWatch false), w)
  end.

(** After the call of the run service. *)
Definition fire_result (id : Z) (h : nat) (err : option goerror) (m : WatchManager) : WatchManager :=
  match err with
  | Some e => if errors_Is e "job already has an active run" then m else publishError id (Some h) e false m
  | None => m
  end.

(** ** Close and observers *)

(** [Close] up to [m.callbacks.Wait]; cancelling the manager's context cancels
    every handle's. *)
Definition Close (m : WatchManager) : WatchManager :=
  if wm_closed m then m
  else
    let handles := (map_to_list (wm_active m)).*2 in
    let m := set_closed m in
    let m := set_handles (context_ended <$> wm_handles m) (wm_nextHandle m) m in
    stop_all handles (set_active ∅ m).

(** The parent of the manager's context is done. *)
Definition end_context (m : WatchManager) : WatchManager :=
  MkWatchManager (wm_active m) (wm_degraded m) (wm_errors m) (wm_nextGen m) (wm_closed m)
    (context_ended <$> wm_handles m) (wm_nextHandle m) (wm_panicked m) true.

Definition Active (id : Z) (m : WatchManager) : bool := bool_decide (is_Some (wm_active m !! id)).
Definition LastError (id : Z) (m : WatchManager) : option goerror := wm_errors m !! id.

(** [signal] of a job at a revision. *)
Definition signal_ (id revision : Z) (m : WatchManager) : WatchManager :=
  match active_handle id m with
  | Some h =>
      match handle_spec h m with
      | Some spec => if (ws_revision spec =? revision)%Z && negb (wm_closed m) && negb (bool_decide (id ∈ wm_degraded m))
                     then signalHandle id h m else m
      | None => m
      end
  | None => m
  end.
End Manager.
