(* ===== verification/WatchManagerProofs.v ===== *)
(** * What the watch manager guarantees ([WatchManager.v])

    First the reconciliation that nothing interrupts, from the effect of its
    parts on every job; then the manager's steps under any interleaving. *)

From S2P Require Import Prelude GoStrings Model LogBuffer HostCommand Capabilities ExecutionPlan.
From S2P Require Import RunService Scheduler SchedulerProofs WatchManager.

(** ** Stopping handles *)

Lemma cancelled_idempotent h : cancelled (cancelled h) = cancelled h.
Proof. done. Qed.

(** The fields that stopping, starting and allocating handles leave alone. *)
Definition same_table (m m' : WatchManager) : Prop :=
  wm_active m' = wm_active m /\ wm_degraded m' = wm_degraded m /\ wm_errors m' = wm_errors m /\ wm_closed m' = wm_closed m.

Lemma same_table_refl m : same_table m m.
Proof. by split_and!. Qed.
Lemma same_table_trans a b c : same_table a b -> same_table b c -> same_table a c.
Proof. intros (Ha1 & Ha2 & Ha3 & Ha4) (Hb1 & Hb2 & Hb3 & Hb4). split_and!; congruence. Qed.

Lemma stop_all_spec l : forall m,
  let m' := stop_all l m in
  same_table m m' /\ wm_nextHandle m' = wm_nextHandle m /\ wm_done m' = wm_done m /\
  wm_panicked m' = wm_panicked m || bool_decide (None ∈ l) /\
  forall n, wm_handles m' !! n = if bool_decide (Some n ∈ l) then cancelled <$> wm_handles m !! n else wm_handles m !! n.
Proof.
  induction l as [|o l IH]; intros m m'.
  { split; [apply same_table_refl|]. split_and!; [done|done|by rewrite orb_false_r|done]. }
  unfold m'. cbn [stop_all fold_left]. fold (stop_all l (stop_handle o m)).
  destruct (IH (stop_handle o m)) as (Ht & Hn & Hg & Hp & Hh). split; [|split; [|split; [|split]]].
  - eapply same_table_trans; [|exact Ht]. by destruct o.
  - rewrite Hn. by destruct o.
  - rewrite Hg. by destruct o.
  - rewrite Hp. destruct o as [n|]; cbn.
    + f_equal. apply bool_decide_ext. set_solver.
    + rewrite (bool_decide_eq_true_2 (None ∈ None :: l)) by by left. by rewrite orb_true_r.
  - intros n. rewrite Hh. destruct o as [k|]; cbn.
    + destruct (decide (n = k)) as [->|Hne].
      * rewrite lookup_alter_eq, (bool_decide_eq_true_2 (Some k ∈ Some k :: l)) by by left.
        destruct (wm_handles m !! k); [|by case_goal]. cbn. case_goal; [by rewrite cancelled_idempotent|done].
      * rewrite lookup_alter_ne by done. erewrite (bool_decide_ext (Some n ∈ Some k :: l)); [done|]. set_solver.
    + erewrite (bool_decide_ext (Some n ∈ None :: l)); [done|]. set_solver.
Qed.

Lemma start_all_spec l : forall m,
  let m' := start_all l m in
  same_table m m' /\ wm_nextHandle m' = wm_nextHandle m /\ wm_panicked m' = wm_panicked m /\
  wm_done m' = wm_done m /\
  forall n, wm_handles m' !! n =
    (fun h => MkWatchHandle (wh_spec h) (wh_cancelled h) (wh_watcher h) (bool_decide (n ∈ l) || wh_started h) (wh_timer h)) <$>
      wm_handles m !! n.
Proof.
  induction l as [|k l IH]; intros m m'.
  { split; [apply same_table_refl|]. split_and!; [done..|]. intros n. cbn. destruct (wm_handles m !! n) as [[]|]; done. }
  unfold m'. cbn [start_all fold_left]. fold (start_all l (set_handles (alter started_handle k (wm_handles m)) (wm_nextHandle m) m)).
  destruct (IH (set_handles (alter started_handle k (wm_handles m)) (wm_nextHandle m) m)) as (Ht & Hn & Hp & Hd & Hh).
  split; [exact Ht|]. split; [done|]. split; [done|]. split; [done|]. intros n. rewrite Hh. cbn.
  destruct (decide (n = k)) as [->|Hne].
  - rewrite lookup_alter_eq, (bool_decide_eq_true_2 (k ∈ k :: l)) by by left. destruct (wm_handles m !! k); [|done]. cbn.
    by rewrite orb_true_r.
  - rewrite lookup_alter_ne by done. erewrite (bool_decide_ext (n ∈ k :: l)); [done|]. set_solver.
Qed.

(** ** The parts of a reconciliation, job by job *)

Section Manager.
Context {W : Type} `{!WatchHost W}.

Lemma begin_create_spec desired m :
  let (create, m') := begin_create desired m in
  same_table m m' /\ wm_handles m' = wm_handles m /\ wm_nextHandle m' = wm_nextHandle m /\ wm_panicked m' = wm_panicked m /\
  wm_done m' = wm_done m /\
  forall id, match create !! id with
             | Some spec => exists want g, desired !! id = Some want /\ spec = set_ws_generation g want /\ keeps id want m = false
             | None => forall want, desired !! id = Some want -> keeps id want m = true
             end.
Proof.
  unfold begin_create.
  assert (forall (l : list (Z * watchSpec)) (create0 : gmap Z watchSpec) m0, NoDup l.*1 -> same_table m m0 -> wm_handles m0 = wm_handles m ->
    wm_nextHandle m0 = wm_nextHandle m -> wm_panicked m0 = wm_panicked m -> wm_done m0 = wm_done m -> (forall id, id ∈ l.*1 -> create0 !! id = None) ->
    let (create, m') := fold_left (fun '(create, m) kv => if keeps kv.1 kv.2 m then (create, m)
      else let g := wrap_u64 (wm_nextGen m + 1) in (<[kv.1 := set_ws_generation g kv.2]> create, set_nextGen g m)) l (create0, m0) in
    same_table m m' /\ wm_handles m' = wm_handles m /\ wm_nextHandle m' = wm_nextHandle m /\ wm_panicked m' = wm_panicked m /\
    wm_done m' = wm_done m /\
    forall id, create !! id = create0 !! id /\ (forall want, (id, want) ∈ l -> keeps id want m = true) \/
      exists want g, (id, want) ∈ l /\ create !! id = Some (set_ws_generation g want) /\ keeps id want m = false) as Hgen.
  { induction l as [|[k want] l IH]; intros create0 m0 Hnd Ht Hh Hn Hp Hd Hc.
    { split_and!; [done..|]. intros id. left. split; [done|]. intros w H. by apply elem_of_nil in H. }
    rewrite fmap_cons in Hnd. apply NoDup_cons in Hnd as [Hni Hnd]. cbn [fold_left fst snd].
    assert (keeps k want m0 = keeps k want m) as Hk.
    { destruct Ht as (Ha & Hdg & _). unfold keeps, active_handle, handle_spec. by rewrite Ha, Hdg, Hh. }
    assert (forall id, id ∈ l.*1 -> id <> k) as Hne by (intros id Hin ->; done).
    destruct (keeps k want m0) eqn:Ek.
    - specialize (IH create0 m0 Hnd Ht Hh Hn Hp Hd). destruct (fold_left _ l _) as [create m'].
      destruct IH as (H1 & H2 & H3 & H4 & H5 & Hid). { intros id Hin. apply Hc. set_solver. }
      split_and!; [done..|]. intros id. destruct (Hid id) as [[He Hall]|(w & g & Hin & Hs & Hf)].
      + left. split; [done|]. intros w [[= -> ->]|Hin]%elem_of_cons; [by rewrite <-Hk|by apply Hall].
      + right. exists w, g. split; [by right|done].
    - specialize (IH (<[k := set_ws_generation (wrap_u64 (wm_nextGen m0 + 1)) want]> create0) (set_nextGen (wrap_u64 (wm_nextGen m0 + 1)) m0)
        Hnd Ht Hh Hn Hp Hd). destruct (fold_left _ l _) as [create m'].
      destruct IH as (H1 & H2 & H3 & H4 & H5 & Hid).
      { intros id Hin. rewrite lookup_insert_ne by (apply not_eq_sym; auto). apply Hc. set_solver. }
      split_and!; [done..|]. intros id. destruct (Hid id) as [[He Hall]|(w & g & Hin & Hs & Hf)].
      + destruct (decide (id = k)) as [->|Hnk].
        * right. exists want, (wrap_u64 (wm_nextGen m0 + 1)). rewrite lookup_insert_eq in He. split; [by left|]. by rewrite <-Hk.
        * left. rewrite lookup_insert_ne in He by done. split; [done|].
          intros w [[= -> ->]|Hin]%elem_of_cons; [done|by apply Hall].
      + right. exists w, g. split; [by right|done]. }
  specialize (Hgen (map_to_list desired) ∅ m (NoDup_fst_map_to_list _) (same_table_refl m) eq_refl eq_refl eq_refl eq_refl
    ltac:(done)). destruct (fold_left _ _ _) as [create m']. destruct Hgen as (H1 & H2 & H3 & H4 & H5 & Hid).
  split_and!; [done..|]. intros id. destruct (Hid id) as [[He Hall]|(w & g & Hin & Hs & Hf)].
  - rewrite He, lookup_empty. intros want Hw. apply Hall. by apply elem_of_map_to_list.
  - rewrite Hs. exists w, g. apply elem_of_map_to_list in Hin. done.
Qed.

(** What the second critical section makes of a job's entry. *)
Definition next_entry (desired : gmap Z watchSpec) (invalid : gmap Z goerror) (prepared : gmap Z nat) (m : WatchManager)
    (id : Z) (current : option (option nat)) : option (option nat) :=
  match current with
  | Some c =>
      if bool_decide (is_Some (invalid !! id)) then Some c
      else match desired !! id with
      | None => None
      | Some want => match prepared !! id with
                     | Some ready => Some (Some ready)
                     | None => if keeps id want m then Some c else None
                     end
      end
  | None => None
  end.
Definition stops (desired : gmap Z watchSpec) (invalid : gmap Z goerror) (prepared : gmap Z nat) (id : Z) : bool :=
  negb (bool_decide (is_Some (invalid !! id))) &&
  (bool_decide (desired !! id = None) || bool_decide (is_Some (prepared !! id))).

Lemma publish_loop desired invalid prepared m l : forall next stopped,
  NoDup l.*1 -> (forall id, id ∈ l.*1 -> next !! id = None) -> Forall (fun kv => is_Some kv.2) l ->
  exists next' stopped',
    fold_left (publish_current desired invalid prepared m) l (next, stopped, false) = (next', stopped', false) /\
    (forall id, next' !! id = match (list_to_map l : gmap Z (option nat)) !! id with
                              | Some c => next_entry desired invalid prepared m id (Some c)
                              | None => next !! id
                              end) /\
    (forall o, o ∈ stopped' <-> o ∈ stopped \/ exists id, (id, o) ∈ l /\ stops desired invalid prepared id = true).
Proof.
  induction l as [|[k c] l IH]; intros next stopped Hnd Hnext Hsome.
  { exists next, stopped. split_and!; [done| |].
    - intros id. cbn. by rewrite lookup_empty.
    - intros o. split; [auto|]. intros [H|(id & H & _)]; [done|by apply elem_of_nil in H]. }
  rewrite fmap_cons in Hnd. apply NoDup_cons in Hnd as [Hni Hnd]. apply Forall_cons in Hsome as [Hc Hsome].
  cbn [fold_left fst snd] in *.
  assert (exists add stp, publish_current desired invalid prepared m (next, stopped, false) (k, c) =
      (match add with Some x => <[k := x]> next | None => next end, stopped ++ stp, false) /\
      add = next_entry desired invalid prepared m k (Some c) /\
      (stp = if stops desired invalid prepared k then [c] else [])) as (add & stp & -> & Hadd & Hstp).
  { unfold publish_current, next_entry, stops. destruct (bool_decide (is_Some (invalid !! k))) eqn:Ei; cbn [negb andb].
    { exists (Some c), []. by rewrite app_nil_r. }
    destruct (desired !! k) as [want|] eqn:Ed; cbn [bool_decide].
    - destruct (prepared !! k) as [r|] eqn:Er.
      + exists (Some (Some r)), [c]. rewrite (bool_decide_eq_true_2 (is_Some (Some r))) by eauto. by rewrite orb_true_r.
      + rewrite (bool_decide_eq_false_2 (Some want = None)) by done.
        rewrite (bool_decide_eq_false_2 (is_Some None)) by by intros [? ?]. destruct Hc as [h ->].
        destruct (keeps k want m); [exists (Some (Some h)), []|exists None, []]; by rewrite app_nil_r.
    - exists None, [c]. by rewrite (bool_decide_eq_true_2 (None = None)). }
  destruct (IH (match add with Some x => <[k := x]> next | None => next end) (stopped ++ stp)) as (next' & stopped' & -> & H1 & H2).
  { done. }
  { intros id Hin. assert (id <> k) by (intros ->; done). destruct add; [rewrite lookup_insert_ne by done|]; apply Hnext; set_solver. }
  { done. }
  exists next', stopped'. split; [done|]. split.
  - intros id. rewrite H1. cbn [list_to_map foldr fst snd]. destruct (decide (id = k)) as [->|Hne].
    + rewrite lookup_insert_eq. assert ((list_to_map l : gmap Z (option nat)) !! k = None) as -> by by apply not_elem_of_list_to_map_1.
      rewrite <-Hadd. destruct add; [by rewrite lookup_insert_eq|]. apply Hnext. by left.
    + rewrite lookup_insert_ne by done. destruct (list_to_map l !! id); [done|].
      destruct add; [by rewrite lookup_insert_ne|done].
  - intros o. rewrite H2, elem_of_app, Hstp. split.
    + intros [[Ho|Ho]|(id & Hin & Hs)]; [by left| |right; exists id; split; [by right|done]].
      destruct (stops _ _ _ k) eqn:Es; [|by apply elem_of_nil in Ho]. apply list_elem_of_singleton in Ho as ->.
      right. exists k. split; [by left|done].
    + intros [Ho|(id & [[= -> ->]|Hin]%elem_of_cons & Hs)]; [by left; left| |right; by exists id].
      left. right. rewrite Hs. by left.
Qed.

Lemma fill_desired_spec desired prepared next id :
  fill_desired desired prepared next !! id =
  match next !! id with Some x => Some x | None => if bool_decide (is_Some (desired !! id)) then Some (prepared !! id) else None end.
Proof.
  unfold fill_desired.
  assert (forall (l : list Z) (next0 : gmap Z (option nat)), fold_left (fun next id => match next !! id with Some _ => next | None => <[id := prepared !! id]> next end) l next0 !! id =
    match next0 !! id with Some x => Some x | None => if bool_decide (id ∈ l) then Some (prepared !! id) else None end) as Hgen.
  { induction l as [|k l IH]; intros next0; cbn [fold_left].
    { by destruct (next0 !! id). }
    rewrite IH. destruct (next0 !! k) as [x|] eqn:Ek.
    - destruct (decide (id = k)) as [->|Hne]; [by rewrite Ek|]. destruct (next0 !! id); [done|].
      erewrite (bool_decide_ext (id ∈ k :: l)); [done|]. set_solver.
    - destruct (decide (id = k)) as [->|Hne].
      + rewrite lookup_insert_eq, Ek. by rewrite bool_decide_eq_true_2 by by left.
      + rewrite lookup_insert_ne by done. destruct (next0 !! id); [done|].
        erewrite (bool_decide_ext (id ∈ k :: l)); [done|]. set_solver. }
  rewrite Hgen. destruct (next !! id); [done|]. erewrite bool_decide_ext; [done|].
  rewrite list_elem_of_fmap. split.
  - intros ([k v] & -> & Hin). apply elem_of_map_to_list in Hin. eauto.
  - intros [v Hv]. exists (id, v). split; [done|]. by apply elem_of_map_to_list.
Qed.

(** ** The invariant *)

(** The context is not done; every entry has a live, started handle of its own,
    and every live handle an entry. *)
Record wm_ok (m : WatchManager) : Prop := {
  ok_calm : wm_panicked m = false;
  ok_context : wm_done m = false;
  ok_active : forall id o, wm_active m !! id = Some o ->
    exists h hd, o = Some h /\ wm_handles m !! h = Some hd /\ wh_cancelled hd = false;
  ok_distinct : forall id1 id2 h, wm_active m !! id1 = Some (Some h) -> wm_active m !! id2 = Some (Some h) -> id1 = id2;
  ok_live : forall h hd, wm_handles m !! h = Some hd -> wh_cancelled hd = false -> exists id, wm_active m !! id = Some (Some h);
  ok_alloc : forall h hd, wm_handles m !! h = Some hd -> (h < wm_nextHandle m)%nat;
  ok_started : forall id h hd, wm_active m !! id = Some (Some h) -> wm_handles m !! h = Some hd -> wh_started hd = true
}.

(** A state of the preparation that began in [m0]. *)
Record prep_ok (create : gmap Z watchSpec) (m0 : WatchManager) (prepared : gmap Z nat) (m : WatchManager) : Prop := {
  po_table : same_table m0 m;
  po_calm : wm_panicked m = wm_panicked m0;
  po_done : wm_done m = wm_done m0;
  po_next : (wm_nextHandle m0 <= wm_nextHandle m)%nat;
  po_old : forall n, (n < wm_nextHandle m0)%nat -> wm_handles m !! n = wm_handles m0 !! n;
  po_new : forall id n, prepared !! id = Some n -> (wm_nextHandle m0 <= n)%nat /\
    exists spec hd, create !! id = Some spec /\ wm_handles m !! n = Some hd /\ wh_spec hd = spec /\ wh_cancelled hd = wm_done m0;
  po_distinct : forall (id1 id2 : Z) n, prepared !! id1 = Some n -> prepared !! id2 = Some n -> id1 = id2;
  po_handles : forall n hd, wm_handles m !! n = Some hd -> (wm_nextHandle m0 <= n)%nat ->
    (n < wm_nextHandle m)%nat /\ exists id : Z, prepared !! id = Some n
}.

Lemma prep_start create m0 :
  (forall h hd, wm_handles m0 !! h = Some hd -> (h < wm_nextHandle m0)%nat) -> prep_ok create m0 ∅ m0.
Proof.
  intros Hal. split; [apply same_table_refl|done|done|done|done| | |].
  - intros id n. by rewrite lookup_empty.
  - intros id1 id2 n. by rewrite lookup_empty.
  - intros n hd Hhd Hge. pose proof (Hal _ _ Hhd). lia.
Qed.

Lemma newHandle_spec ended spec w h w' :
  newHandle ended spec w = (Ok h, w') -> wh_spec h = spec /\ wh_cancelled h = ended.
Proof.
  unfold newHandle. destruct (checkSource _ w) as [[u|e] w1]; [|done]. case_goal; [by intros [= <- _]|].
  destruct (newWatcher w1) as [[?|?] w2]; [|done]. match goal with |- context [if ?b then (Ok tt, ?x) else ?y] => destruct (if b then (Ok tt, x) else y) as [[?|?] w3] end; [|done].
  destruct ended; [done|]. destruct (addWatchDirectories _ w3) as [[?|?] w4]; [|done]. by intros [= <- _].
Qed.

Lemma alloc_prep create m0 prepared m id spec h :
  prep_ok create m0 prepared m -> (forall n hd, wm_handles m0 !! n = Some hd -> (n < wm_nextHandle m0)%nat) ->
  create !! id = Some spec -> prepared !! id = None -> wh_spec h = spec -> wh_cancelled h = wm_done m0 ->
  prep_ok create m0 (<[id := (alloc h m).1]> prepared) (alloc h m).2.
Proof.
  intros [Ht Hc Hdn Hn Ho Hnew Hd Hh] Hal Hcr Hp Hs Hl.
  assert (forall k n, prepared !! k = Some n -> n <> wm_nextHandle m) as Hfresh.
  { intros k n Hk ->. destruct (Hnew _ _ Hk) as (Hge & ? & hd & _ & Hhd & _). destruct (Hh _ _ Hhd Hge). lia. }
  unfold alloc. cbn. split; cbn; try done; try lia.
  - intros n Hlt. rewrite lookup_insert_ne by lia. by apply Ho.
  - intros k n. destruct (decide (k = id)) as [->|Hne].
    + rewrite lookup_insert_eq. intros [= <-]. split; [lia|]. exists spec, h. by rewrite lookup_insert_eq.
    + rewrite lookup_insert_ne by done. intros Hk. destruct (Hnew _ _ Hk) as (Hge & sp & hd & H1 & H2 & H3).
      split; [done|]. exists sp, hd. rewrite lookup_insert_ne by (apply not_eq_sym; by eapply Hfresh). done.
  - intros id1 id2 n. destruct (decide (id1 = id)) as [->|H1], (decide (id2 = id)) as [->|H2];
      rewrite ?lookup_insert_eq, ?lookup_insert_ne by done; [done|..|apply Hd].
    + intros [= <-] Hk. by eapply Hfresh in Hk.
    + intros Hk [= <-]. by eapply Hfresh in Hk.
  - intros n hd. destruct (decide (n = wm_nextHandle m)) as [->|Hne].
    + intros _ _. split; [lia|]. exists id. by rewrite lookup_insert_eq.
    + rewrite lookup_insert_ne by done. intros Hhd Hge. destruct (Hh _ _ Hhd Hge) as [Hlt [k Hk]]. split; [lia|].
      exists k. rewrite lookup_insert_ne; [done|]. by intros ->; rewrite Hp in Hk.
Qed.

(** The two ends of the preparation. *)
Definition prepare_done (create : gmap Z watchSpec) (m0 : WatchManager) (r : gmap Z nat + Z * goerror) (m : WatchManager) : Prop :=
  match r with
  | inl prepared => prep_ok create m0 prepared m /\ forall id, is_Some (prepared !! id) <-> is_Some (create !! id)
  | inr (id, e) =>
      is_Some (create !! id) /\ wm_active m = wm_active m0 /\ wm_degraded m = wm_degraded m0 /\ wm_closed m = wm_closed m0 /\
      wm_panicked m = wm_panicked m0 /\ wm_done m = wm_done m0 /\ (wm_closed m0 = false -> wm_errors m = <[id := e]> (wm_errors m0)) /\
      (wm_nextHandle m0 <= wm_nextHandle m)%nat /\
      (forall n, (n < wm_nextHandle m0)%nat -> wm_handles m !! n = wm_handles m0 !! n) /\
      (forall n hd, wm_handles m !! n = Some hd -> (wm_nextHandle m0 <= n)%nat -> (n < wm_nextHandle m)%nat /\ wh_cancelled hd = true)
  end.

Lemma prepare_spec create m0 l : forall prepared m w,
  (forall n hd, wm_handles m0 !! n = Some hd -> (n < wm_nextHandle m0)%nat) ->
  prep_ok create m0 prepared m -> NoDup l.*1 -> (forall id, id ∈ l.*1 -> prepared !! id = None) ->
  (forall id spec, create !! id = Some spec <-> (id, spec) ∈ l \/ (id ∉ l.*1 /\ is_Some (prepared !! id) /\ create !! id = Some spec)) ->
  let '(r, m', _) := prepare l prepared m w in prepare_done create m0 r m'.
Proof.
  induction l as [|[id spec] l IH]; intros prepared m w Hal Hp Hnd Hnone Hin.
  { cbn. split; [done|]. intros id. split.
    - intros [n Hn]. destruct (po_new _ _ _ _ Hp _ _ Hn) as (_ & spec & _ & Hs & _). eauto.
    - intros [spec Hs]. apply Hin in Hs as Hs'. destruct Hs' as [H|(_ & H & _)]; [by apply elem_of_nil in H|done]. }
  rewrite fmap_cons in Hnd. apply NoDup_cons in Hnd as [Hni Hnd]. cbn [prepare fst] in *.
  assert (create !! id = Some spec) as Hcr by (apply Hin; left; by left).
  destruct (newHandle (wm_done m) spec w) as [[h|e] w1] eqn:Eh.
  - apply newHandle_spec in Eh as [Hs Hl]. rewrite (po_done _ _ _ _ Hp) in Hl.
    pose proof (alloc_prep _ _ _ _ id spec h Hp Hal Hcr (Hnone id ltac:(by left)) Hs Hl) as Hp'.
    destruct (alloc h m) as [n m1]. cbn [fst snd] in Hp'. apply IH; [done|done|done| |].
    + intros k Hk. rewrite lookup_insert_ne; [|by intros ->]. apply Hnone. by right.
    + intros k sp. split.
      * intros Hs'. pose proof Hs' as Hs2. apply Hin in Hs2 as [[[= -> ->]|Hl']%elem_of_cons|(Hnk & Hk & _)]; [right|by left|right].
        -- split; [done|]. rewrite lookup_insert_eq. eauto.
        -- cbn in Hnk. split; [set_solver|]. split; [|done]. rewrite lookup_insert_ne; [done|]. intros ->. apply Hnk. by left.
      * intros [Hl'|(_ & _ & Hs')]; [|done]. apply Hin. left. by right.
  - destruct Hp as [Ht Hc Hdn Hn Ho Hnew Hd Hh]. cbn.
    destruct (stop_all_spec (Some <$> (map_to_list prepared).*2) m) as (Hst & Hsn & Hsd & Hsp & Hsh).
    assert (None ∉ Some <$> (map_to_list prepared).*2) as Hnn.
    { intros H. apply list_elem_of_fmap in H as (? & ? & _). done. }
    rewrite (bool_decide_eq_false_2 _ Hnn), orb_false_r in Hsp.
    destruct Ht as (Ht1 & Ht2 & Ht3 & Ht4). destruct Hst as (Hs1 & Hs2 & Hs3 & Hs4).
    set (m1 := stop_all _ m) in *.
    assert (forall n, wm_handles (publishError id None e false m1) !! n = wm_handles m1 !! n /\
      wm_nextHandle (publishError id None e false m1) = wm_nextHandle m1 /\ wm_active (publishError id None e false m1) = wm_active m1 /\
      wm_degraded (publishError id None e false m1) = wm_degraded m1 /\ wm_closed (publishError id None e false m1) = wm_closed m1 /\
      wm_panicked (publishError id None e false m1) = wm_panicked m1 /\ wm_done (publishError id None e false m1) = wm_done m1) as Hpub.
    { intros n. unfold publishError. by case_goal. }
    destruct (Hpub 0%nat) as (_ & Hq1 & Hq2 & Hq3 & Hq4 & Hq5 & Hq6).
    split; [by eauto|]. split_and!; [congruence..| | | |].
    + intros Hcl. unfold publishError. rewrite Hs4, Ht4, Hcl. cbn. by rewrite Hs3, Ht3.
    + rewrite Hq1, Hsn. lia.
    + intros n Hlt. rewrite (proj1 (Hpub n)), Hsh. rewrite bool_decide_eq_false_2; [by apply Ho|].
      intros H. apply list_elem_of_fmap in H as (n' & [= <-] & H). apply list_elem_of_fmap in H as ([k v] & -> & H).
      apply elem_of_map_to_list in H. destruct (Hnew _ _ H). cbn in Hlt. lia.
    + intros n hd. rewrite (proj1 (Hpub n)), Hq1, Hsn, Hsh. intros Hhd Hge.
      destruct (wm_handles m !! n) as [hd0|] eqn:E0; [|by case_match].
      destruct (Hh _ _ E0 Hge) as [Hlt [k Hk]]. split; [done|].
      rewrite bool_decide_eq_true_2 in Hhd; [by injection Hhd as <-|].
      apply list_elem_of_fmap_2, list_elem_of_fmap. exists (k, n). split; [done|]. by apply elem_of_map_to_list.
Qed.

(** ** Publication *)

Definition final_entry (desired : gmap Z watchSpec) (invalid : gmap Z goerror) (prepared : gmap Z nat) (m : WatchManager)
    (id : Z) : option (option nat) :=
  match next_entry desired invalid prepared m id (wm_active m !! id) with
  | Some x => Some x
  | None => if bool_decide (is_Some (desired !! id)) then Some (prepared !! id) else None
  end.

(** A handle after the publication: stopped when its entry was dropped. *)
Definition published_handle (stopped started : bool) (h : watchHandle) : watchHandle :=
  let h := if stopped then cancelled h else h in
  MkWatchHandle (wh_spec h) (wh_cancelled h) (wh_watcher h) (started || wh_started h) (wh_timer h).

Lemma publish_entries desired invalid prepared m :
  wm_closed m = false -> (forall id o, wm_active m !! id = Some o -> is_Some o) ->
  exists m', publish desired invalid prepared m = (errors_Join (Some <$> mapErrors invalid), m') /\
    (forall id, wm_active m' !! id = final_entry desired invalid prepared m id) /\
    wm_degraded m' = publish_degraded desired invalid (wm_degraded m) /\
    wm_errors m' = publish_errors desired invalid (wm_errors m) /\ wm_closed m' = false /\
    wm_panicked m' = wm_panicked m /\ wm_nextHandle m' = wm_nextHandle m /\ wm_done m' = wm_done m /\
    forall n, exists b s, wm_handles m' !! n = published_handle b s <$> wm_handles m !! n /\
      (b = true <-> exists id, wm_active m !! id = Some (Some n) /\ stops desired invalid prepared id = true) /\
      (s = true <-> exists id : Z, prepared !! id = Some n).
Proof.
  intros Hcl Hsome. unfold publish. rewrite Hcl.
  destruct (publish_loop desired invalid prepared m (map_to_list (wm_active m)) ∅ []) as (next & stopped & -> & Hnext & Hst).
  { apply NoDup_fst_map_to_list. }
  { intros id _. apply lookup_empty. }
  { apply Forall_forall. intros [id o] Hin%elem_of_map_to_list. by eapply Hsome. }
  cbv iota zeta. set (m1 := set_degraded _ _ _).
  destruct (stop_all_spec stopped m1) as ((Ha & Hdg & He & Hc) & Hn & Hdn & Hp & Hh).
  destruct (start_all_spec (map_to_list prepared).*2 (stop_all stopped m1)) as ((Ha2 & Hdg2 & He2 & Hc2) & Hn2 & Hp2 & Hdn2 & Hh2).
  assert (None ∉ stopped) as Hnn.
  { intros H. apply Hst in H as [H|(id & Hin & _)]; [by apply elem_of_nil in H|].
    apply elem_of_map_to_list in Hin. by destruct (Hsome _ _ Hin). }
  exists (start_all (map_to_list prepared).*2 (stop_all stopped m1)). split; [done|]. split_and!.
  - intros id. rewrite Ha2, Ha. cbn. rewrite fill_desired_spec, Hnext, list_to_map_to_list, lookup_empty.
    unfold final_entry. by destruct (wm_active m !! id).
  - by rewrite Hdg2, Hdg.
  - by rewrite He2, He.
  - rewrite Hc2, Hc. done.
  - rewrite Hp2, Hp. cbn. rewrite (bool_decide_eq_false_2 _ Hnn). by rewrite orb_false_r.
  - by rewrite Hn2, Hn.
  - by rewrite Hdn2, Hdn.
  - intros n. exists (bool_decide (Some n ∈ stopped)), (bool_decide (n ∈ (map_to_list prepared).*2)). split; [|split].
    + rewrite Hh2, Hh. change (wm_handles m1 !! n) with (wm_handles m !! n). unfold published_handle.
      destruct (bool_decide (Some n ∈ stopped)), (wm_handles m !! n); done.
    + rewrite bool_decide_eq_true, Hst. split.
      * intros [H|(id & Hin & Hs2)]; [by apply elem_of_nil in H|]. exists id. by apply elem_of_map_to_list in Hin.
      * intros (id & Hin & Hs2). right. exists id. by rewrite elem_of_map_to_list.
    + rewrite bool_decide_eq_true, list_elem_of_fmap. split.
      * intros ([id k] & -> & Hin). exists id. by apply elem_of_map_to_list.
      * intros [id Hid]. exists (id, n). split; [done|]. by apply elem_of_map_to_list.
Qed.

(** What a reconciliation promises for one job. *)
Definition watch_follows (desired : gmap Z watchSpec) (invalid : gmap Z goerror) (m m' : WatchManager) (id : Z) : Prop :=
  match invalid !! id, desired !! id with
  | Some e, _ => wm_active m' !! id = wm_active m !! id /\ wm_errors m' !! id = Some e
  | None, None => wm_active m' !! id = None
  | None, Some want =>
      id ∉ wm_degraded m' /\ wm_errors m' !! id = None /\
      exists h hd, wm_active m' !! id = Some (Some h) /\ wm_handles m' !! h = Some hd /\ wh_cancelled hd = false /\
        sameWatchSpec (wh_spec hd) want = true /\
        (if keeps id want m then wm_active m !! id = Some (Some h) else wm_handles m !! h = None)
  end.

Section Published.
Context (desired : gmap Z watchSpec) (invalid : gmap Z goerror) (prepared : gmap Z nat) (create : gmap Z watchSpec).
Context (m m1 m' : WatchManager).
Context (Hdis : forall id, is_Some (invalid !! id) -> desired !! id = None).
Context (Hok : wm_ok m) (Hprep : prep_ok create m prepared m1).
Context (Hdom : forall id, is_Some (prepared !! id) <-> is_Some (create !! id)).
Context (Hcreate : forall id, match create !! id with
  | Some spec => exists want g, desired !! id = Some want /\ spec = set_ws_generation g want /\ keeps id want m = false
  | None => forall want, desired !! id = Some want -> keeps id want m = true end).
Context (Hact : forall id, wm_active m' !! id = final_entry desired invalid prepared m1 id).
Context (Hhan : forall n, exists b s, wm_handles m' !! n = published_handle b s <$> wm_handles m1 !! n /\
  (b = true <-> exists id, wm_active m1 !! id = Some (Some n) /\ stops desired invalid prepared id = true) /\
  (s = true <-> exists id : Z, prepared !! id = Some n)).

Lemma old_handle id h : wm_active m !! id = Some (Some h) ->
  (h < wm_nextHandle m)%nat /\ exists hd, wm_handles m1 !! h = Some hd /\ wm_handles m !! h = Some hd /\ wh_cancelled hd = false.
Proof.
  intros Hid. destruct (ok_active m Hok _ _ Hid) as (h' & hd & [= <-] & Hhd & Hc).
  pose proof (ok_alloc m Hok _ _ Hhd). split; [done|]. exists hd. by rewrite (po_old _ _ _ _ Hprep).
Qed.

Lemma keeps_prep id want : keeps id want m1 = keeps id want m.
Proof.
  destruct (po_table _ _ _ _ Hprep) as (Ha & Hd & _). unfold keeps, active_handle, handle_spec. rewrite Ha, Hd.
  destruct (wm_active m !! id) as [[h|]|] eqn:E; cbn; [|done..].
  destruct (old_handle _ _ E) as (_ & hd & -> & -> & _). done.
Qed.

Lemma not_created id want : desired !! id = Some want -> prepared !! id = None -> keeps id want m = true.
Proof.
  intros Hw Hp. specialize (Hcreate id). destruct (create !! id) as [spec|] eqn:E; [|by apply Hcreate].
  destruct (proj2 (Hdom id) (ex_intro _ spec E)) as [n Hn]. congruence.
Qed.
Lemma kept_active id want : keeps id want m = true -> exists h, wm_active m !! id = Some (Some h) /\
  exists hd, wm_handles m !! h = Some hd /\ sameWatchSpec (wh_spec hd) want = true.
Proof.
  unfold keeps, active_handle, handle_spec. destruct (wm_active m !! id) as [[h|]|]; cbn; [|done..].
  destruct (wm_handles m !! h) as [hd|] eqn:E; [|done]. cbn. intros [Hs _]%andb_true_iff. eauto.
Qed.
Lemma prepared_desired id n : prepared !! id = Some n -> exists want g hd,
  desired !! id = Some want /\ invalid !! id = None /\ keeps id want m = false /\ (wm_nextHandle m <= n)%nat /\
  wm_handles m1 !! n = Some hd /\ wh_cancelled hd = false /\ wh_spec hd = set_ws_generation g want.
Proof.
  intros Hn. destruct (po_new _ _ _ _ Hprep _ _ Hn) as (Hge & spec & hd & Hc & Hhd & Hs & Hl).
  specialize (Hcreate id). rewrite Hc in Hcreate. destruct Hcreate as (want & g & Hw & -> & Hk).
  exists want, g, hd. split_and!; try done; [|by rewrite Hl, (ok_context m Hok)]. destruct (invalid !! id) eqn:E; [|done].
  rewrite Hdis in Hw by eauto. done.
Qed.

(** The entry of a job, by what was asked for. *)
Lemma entry_cases id :
  match invalid !! id, desired !! id with
  | Some _, _ => wm_active m' !! id = wm_active m !! id
  | None, None => wm_active m' !! id = None
  | None, Some want => exists h, wm_active m' !! id = Some (Some h) /\
      ((prepared !! id = Some h /\ keeps id want m = false) \/
       (prepared !! id = None /\ keeps id want m = true /\ wm_active m !! id = Some (Some h)))
  end.
Proof.
  rewrite Hact. unfold final_entry, next_entry. destruct (po_table _ _ _ _ Hprep) as (Ha & _). rewrite Ha.
  destruct (invalid !! id) as [e|] eqn:Ei.
  { rewrite Hdis by eauto. rewrite (bool_decide_eq_false_2 (is_Some None)) by by intros [? ?].
    destruct (wm_active m !! id); [|done]. by rewrite bool_decide_eq_true_2 by eauto. }
  rewrite (bool_decide_eq_false_2 (is_Some None)) by by intros [? ?].
  destruct (desired !! id) as [want|] eqn:Ed.
  2:{ destruct (wm_active m !! id); done. }
  rewrite (bool_decide_eq_true_2 (is_Some (Some want))) by eauto. rewrite keeps_prep.
  destruct (prepared !! id) as [n|] eqn:Ep.
  - exists n. destruct (prepared_desired _ _ Ep) as (want' & g & hd & Hw & _ & Hk & _).
    assert (want' = want) as -> by congruence. split; [by destruct (wm_active m !! id)|]. by left.
  - pose proof (not_created _ _ Ed Ep) as Hk. destruct (kept_active _ _ Hk) as (h & -> & _). rewrite Hk.
    exists h. split; [done|]. by right.
Qed.

Lemma stops_cases id : stops desired invalid prepared id = true <->
  invalid !! id = None /\ (desired !! id = None \/ is_Some (prepared !! id)).
Proof.
  unfold stops. rewrite andb_true_iff, negb_true_iff, bool_decide_eq_false, orb_true_iff, !bool_decide_eq_true, <-eq_None_not_Some.
  done.
Qed.

Lemma published_live n hd : wm_handles m1 !! n = Some hd ->
  (forall id, wm_active m !! id = Some (Some n) -> stops desired invalid prepared id = false) ->
  exists hd', wm_handles m' !! n = Some hd' /\ wh_spec hd' = wh_spec hd /\ wh_cancelled hd' = wh_cancelled hd.
Proof.
  intros Hhd Hns. destruct (Hhan n) as (b & s & -> & Hb & _). rewrite Hhd. cbn. eexists. split; [done|].
  destruct b; [|done]. destruct (proj1 Hb eq_refl) as (id & Hid & Hs).
  destruct (po_table _ _ _ _ Hprep) as (Ha & _). rewrite Ha in Hid. by rewrite (Hns _ Hid) in Hs.
Qed.

(** The handle of a new entry is live; it was the old entry's, or it is new. *)
Lemma entry_live id h : wm_active m' !! id = Some (Some h) ->
  (exists hd, wm_handles m' !! h = Some hd /\ wh_cancelled hd = false /\
     forall want, desired !! id = Some want -> invalid !! id = None -> sameWatchSpec (wh_spec hd) want = true) /\
  ((wm_active m !! id = Some (Some h) /\ (h < wm_nextHandle m)%nat) \/ (prepared !! id = Some h /\ (wm_nextHandle m <= h)%nat)).
Proof.
  intros Hid. pose proof (entry_cases id) as Hc.
  assert (wm_active m !! id = Some (Some h) -> stops desired invalid prepared id = false ->
    (forall want, desired !! id = Some want -> invalid !! id = None -> keeps id want m = true) ->
    (exists hd, wm_handles m' !! h = Some hd /\ wh_cancelled hd = false /\
     forall want, desired !! id = Some want -> invalid !! id = None -> sameWatchSpec (wh_spec hd) want = true) /\
    ((wm_active m !! id = Some (Some h) /\ (h < wm_nextHandle m)%nat) \/ (prepared !! id = Some h /\ (wm_nextHandle m <= h)%nat)))
    as Hold.
  { intros Ho Hs Hk. destruct (old_handle _ _ Ho) as (Hlt & hd & H1 & H0 & Hl).
    destruct (published_live h hd H1) as (hd' & H2 & H3 & H4).
    { intros id' Hid'. by rewrite (ok_distinct m Hok _ _ _ Hid' Ho). }
    split; [|by left]. exists hd'. split; [done|]. split; [congruence|]. intros want Hw Hi.
    destruct (kept_active _ _ (Hk _ Hw Hi)) as (h0 & Ha0 & hd0 & Hh0 & Hsame). rewrite H3. congruence. }
  destruct (invalid !! id) as [e|] eqn:Ei.
  { rewrite Hc in Hid. apply Hold; [done| |done]. apply not_true_iff_false. rewrite stops_cases, Ei. by intros [? _]. }
  destruct (desired !! id) as [want|] eqn:Ed; [|congruence].
  destruct Hc as (h' & Hid' & [(Hp & Hk)|(Hp & Hk & Ho)]); assert (h' = h) as -> by congruence.
  - destruct (prepared_desired _ _ Hp) as (want' & g & hd & Hw & _ & _ & Hge & Hhd & Hl & Hs).
    destruct (published_live h hd Hhd) as (hd' & H2 & H3 & H4).
    { intros id' Hid''. destruct (old_handle _ _ Hid''). lia. }
    split; [|by right]. exists hd'. split; [done|]. split; [congruence|]. intros w [= <-] _.
    assert (want' = want) as -> by congruence. rewrite H3, Hs. unfold sameWatchSpec. cbn.
    by rewrite !Z.eqb_refl, !string_eqb_refl, bool_decide_eq_true_2.
  - apply Hold; [done| |by intros ? [= <-] _]. apply not_true_iff_false. rewrite stops_cases, Ed, Hp.
    intros [_ [?|[? ?]]]; done.
Qed.

Lemma published_ok : wm_panicked m' = false -> wm_done m' = wm_done m1 -> wm_nextHandle m' = wm_nextHandle m1 -> wm_ok m'.
Proof.
  intros Hcalm Hdone Hnext. split; [done|by rewrite Hdone, (po_done _ _ _ _ Hprep), (ok_context m Hok)|..].
  - intros id o Hid. pose proof (entry_cases id) as Hc.
    assert (exists h, o = Some h) as [h ->].
    { destruct (invalid !! id); [rewrite Hc in Hid; destruct (ok_active m Hok _ _ Hid) as (h & ? & -> & _); by exists h|].
      destruct (desired !! id); [destruct Hc as (h & Hh & _); exists h|]; congruence. }
    destruct (entry_live _ _ Hid) as [(hd & Hhd & Hl & _) _]. by exists h, hd.
  - intros id1 id2 h H1 H2. destruct (entry_live _ _ H1) as [_ [[Ha1 Hlt1]|[Hp1 Hge1]]], (entry_live _ _ H2) as [_ [[Ha2 Hlt2]|[Hp2 Hge2]]];
      [by eapply ok_distinct|lia|lia|by eapply (po_distinct _ _ _ _ Hprep)].
  - intros n hd' Hn Hl. destruct (Hhan n) as (b & s & Hn' & Hb & _). rewrite Hn in Hn'. symmetry in Hn'.
    apply fmap_Some in Hn' as (hd & Hhd & ->). destruct b; [done|]. cbn in Hl.
    assert (forall id, wm_active m !! id = Some (Some n) -> stops desired invalid prepared id = false) as Hns.
    { intros id Hid. apply not_true_iff_false. intros Hs. destruct (po_table _ _ _ _ Hprep) as (Ha & _).
      enough (false = true) by done. apply Hb. exists id. by rewrite Ha. }
    destruct (decide (n < wm_nextHandle m)%nat) as [Hlt|Hge].
    + rewrite (po_old _ _ _ _ Hprep) in Hhd by done. destruct (ok_live m Hok _ _ Hhd Hl) as [id Hid]. exists id.
      pose proof (entry_cases id) as Hc. specialize (Hns _ Hid). apply not_true_iff_false in Hns. rewrite stops_cases in Hns.
      destruct (invalid !! id); [by rewrite Hc|]. destruct (desired !! id) as [want|]; [|destruct Hns; auto].
      destruct Hc as (h & Hh & [(Hp & _)|(_ & _ & Ho)]); [destruct Hns; eauto|congruence].
    + destruct (po_handles _ _ _ _ Hprep _ _ Hhd ltac:(lia)) as [_ [id Hid]]. exists id.
      destruct (prepared_desired _ _ Hid) as (want & g & ? & Hw & Hi & _). pose proof (entry_cases id) as Hc. rewrite Hi, Hw in Hc.
      destruct Hc as (h & Hh & [(Hp & _)|(Hp & _)]); congruence.
  - intros n hd' Hn. destruct (Hhan n) as (b & s & Hn' & _). rewrite Hn in Hn'. symmetry in Hn'.
    apply fmap_Some in Hn' as (hd & Hhd & _). rewrite Hnext. destruct (decide (n < wm_nextHandle m)%nat) as [Hlt|Hge].
    + pose proof (po_next _ _ _ _ Hprep). lia.
    + by destruct (po_handles _ _ _ _ Hprep _ _ Hhd ltac:(lia)).
  - intros id h hd' Hid Hn. destruct (Hhan h) as (b & s & Hn' & _ & Hs). rewrite Hn in Hn'. symmetry in Hn'.
    apply fmap_Some in Hn' as (hd & Hhd & ->). cbn. destruct (entry_live _ _ Hid) as [_ [[Ha Hlt]|[Hp _]]].
    + rewrite (po_old _ _ _ _ Hprep) in Hhd by done. rewrite orb_true_iff. right.
      destruct b; cbn; by eapply (ok_started m Hok).
    + rewrite (proj2 Hs) by eauto. done.
Qed.

Lemma published_follows : wm_degraded m' = publish_degraded desired invalid (wm_degraded m1) ->
  wm_errors m' = publish_errors desired invalid (wm_errors m1) -> forall id, watch_follows desired invalid m m' id.
Proof.
  intros Hdg He id. pose proof (entry_cases id) as Hid. unfold watch_follows. destruct (invalid !! id) as [e|] eqn:Ei.
  { split; [done|]. rewrite He. unfold publish_errors. rewrite map_lookup_filter, lookup_union, Ei. cbn.
    rewrite (union_Some_l e). cbn. rewrite option_guard_True; [done|]. left. rewrite Ei. eauto. }
  destruct (desired !! id) as [want|] eqn:Ed; [|done]. destruct Hid as (h & Hid & Hcase).
  destruct (entry_live _ _ Hid) as [(hd & Hhd & Hl & Hsame) _]. split; [|split].
  - rewrite Hdg. unfold publish_degraded. rewrite elem_of_filter, Ei, Ed. intros [[[? ?]|?] _]; done.
  - rewrite He. unfold publish_errors. rewrite map_lookup_filter. destruct ((invalid ∪ wm_errors m1) !! id); [|done].
    cbn. rewrite option_guard_False; [done|]. cbn. rewrite Ei, Ed. intros [[? ?]|?]; done.
  - exists h, hd. split; [done|]. split; [done|]. split; [done|]. split; [by apply Hsame|].
    destruct Hcase as [(Hpi & Hkf)|(Hpi & Hkt & Ho)]; [rewrite Hkf|by rewrite Hkt].
    destruct (prepared_desired _ _ Hpi) as (_ & _ & _ & _ & _ & _ & Hge & _).
    destruct (wm_handles m !! h) eqn:E; [|done]. pose proof (ok_alloc m Hok _ _ E). lia.
Qed.
End Published.

(** ** What the jobs ask for *)

(** The watch a job asks for, apart from whether its source exists. *)
Definition watch_of (job : Job) (spec : watchSpec) : Prop :=
  schedulerEligible job TriggerWatch = true /\
  exists spec0 view, watchSpecFor job = Ok spec0 /\ resolvePath (ws_source spec0) = Ok view /\ spec = set_viewSource view spec0.

Lemma want_watch_Ok job w spec w' :
  schedulerEligible job TriggerWatch = true -> want_watch job w = (Ok spec, w') -> watch_of job spec.
Proof.
  intros He. unfold want_watch. destruct (watchSpecFor job) as [spec0|e] eqn:E1; [|done].
  destruct (resolvePath (ws_source spec0)) as [view|e] eqn:E2; [|done].
  destruct (checkSource view w) as [[u|e] w1]; [|done]. intros [= <- _]. split; [done|]. eauto.
Qed.

Definition wanted_ok (jobs : list Job) (desired : gmap Z watchSpec) (invalid : gmap Z goerror) : Prop :=
  (forall id spec, desired !! id = Some spec -> exists job, job ∈ jobs /\ Job_ID job = id /\ watch_of job spec) /\
  (forall id, is_Some (invalid !! id) -> exists job, job ∈ jobs /\ Job_ID job = id /\ schedulerEligible job TriggerWatch = true) /\
  (forall job, job ∈ jobs -> schedulerEligible job TriggerWatch = true ->
     is_Some (desired !! Job_ID job) \/ is_Some (invalid !! Job_ID job)).

(** The table of the jobs seen so far; an identifier that does not repeat is in
    one of the two maps at most. *)
Definition wanted_inv (seen : list Job) (desired : gmap Z watchSpec) (invalid : gmap Z goerror) : Prop :=
  wanted_ok seen desired invalid /\
  (NoDup (map Job_ID seen) -> forall id, is_Some (invalid !! id) -> desired !! id = None).

Lemma seen_prefix seen job : NoDup (map Job_ID (seen ++ [job])) ->
  NoDup (map Job_ID seen) /\ forall j, j ∈ seen -> Job_ID j <> Job_ID job.
Proof.
  rewrite map_app. intros (Hnd & Hout & _)%NoDup_app. split; [done|]. intros j Hj Heq.
  apply (Hout (Job_ID j)); [by apply list_elem_of_fmap_2|]. rewrite Heq. by left.
Qed.

Lemma wanted_skip seen job desired invalid : schedulerEligible job TriggerWatch = false ->
  wanted_inv seen desired invalid -> wanted_inv (seen ++ [job]) desired invalid.
Proof.
  intros Hel [(H1 & H2 & H3) Hd]. split; [split_and!|intros Hnd; apply Hd; by apply seen_prefix in Hnd as [? _]].
  - intros id s Hs. destruct (H1 _ _ Hs) as (j & ? & ?). exists j. set_solver.
  - intros id Hi. destruct (H2 _ Hi) as (j & ? & ?). exists j. set_solver.
  - intros j [Hj| ->%list_elem_of_singleton]%elem_of_app He; [by apply H3|congruence].
Qed.

Lemma wanted_add seen job desired invalid spec : watch_of job spec -> wanted_inv seen desired invalid ->
  wanted_inv (seen ++ [job]) (<[Job_ID job := spec]> desired) invalid.
Proof.
  intros Hspec [(H1 & H2 & H3) Hd]. split; [split_and!|].
  - intros id s. destruct (decide (id = Job_ID job)) as [->|Hn].
    + rewrite lookup_insert_eq. intros [= <-]. exists job. set_solver.
    + rewrite lookup_insert_ne by done. intros Hs. destruct (H1 _ _ Hs) as (j & ? & ?). exists j. set_solver.
  - intros id Hi. destruct (H2 _ Hi) as (j & ? & ?). exists j. set_solver.
  - intros j [Hj| ->%list_elem_of_singleton]%elem_of_app He; [|left; rewrite lookup_insert_eq; eauto].
    destruct (H3 _ Hj He) as [?|?]; [left|by right]. rewrite lookup_insert_is_Some. destruct (decide (Job_ID job = Job_ID j)); auto.
  - intros [Hnd Hne]%seen_prefix id Hi. rewrite lookup_insert_ne; [by apply Hd|].
    destruct (H2 _ Hi) as (j & Hj & <- & _). apply not_eq_sym. by apply Hne.
Qed.

Lemma wanted_error seen job desired invalid e : schedulerEligible job TriggerWatch = true -> wanted_inv seen desired invalid ->
  wanted_inv (seen ++ [job]) desired (<[Job_ID job := e]> invalid).
Proof.
  intros Hel [(H1 & H2 & H3) Hd]. split; [split_and!|].
  - intros id s Hs. destruct (H1 _ _ Hs) as (j & ? & ?). exists j. set_solver.
  - intros id. rewrite lookup_insert_is_Some. intros [<-|[_ Hi]]; [exists job; set_solver|].
    destruct (H2 _ Hi) as (j & ? & ?). exists j. set_solver.
  - intros j [Hj| ->%list_elem_of_singleton]%elem_of_app He; [|right; rewrite lookup_insert_eq; eauto].
    destruct (H3 _ Hj He) as [?|?]; [by left|right]. rewrite lookup_insert_is_Some. destruct (decide (Job_ID job = Job_ID j)); auto.
  - intros [Hnd Hne]%seen_prefix id. rewrite lookup_insert_is_Some. intros [<-|[_ Hi]]; [|by apply Hd].
    destruct (desired !! Job_ID job) as [spec|] eqn:E; [|done]. destruct (H1 _ _ E) as (j & Hj & Hid & _). by destruct (Hne j).
Qed.

Lemma wanted_watches_spec jobs w :
  let '(desired, invalid, _) := wanted_watches jobs w in
  wanted_ok jobs desired invalid /\
  (NoDup (map Job_ID jobs) -> forall id, is_Some (invalid !! id) -> desired !! id = None).
Proof.
  unfold wanted_watches. change jobs with ([] ++ jobs) at 2 3.
  assert (wanted_inv [] ∅ ∅) as Hinv.
  { split; [split_and!|].
    - intros id s. by rewrite lookup_empty.
    - intros id. rewrite lookup_empty. by intros [? ?].
    - by intros j ?%elem_of_nil.
    - intros _ id. rewrite lookup_empty. by intros [? ?]. }
  revert Hinv. generalize (∅ : gmap Z watchSpec) (∅ : gmap Z goerror) (@nil Job). revert w.
  induction jobs as [|job jobs IH]; intros w desired invalid seen Hinv; cbn [fold_left]; [by rewrite app_nil_r|].
  rewrite (cons_middle job seen jobs), app_assoc. destruct (schedulerEligible job TriggerWatch) eqn:Eel; cbn [negb].
  - destruct (want_watch job w) as [[spec|e] w1] eqn:Ew; apply IH; [|by apply wanted_error].
    apply wanted_add; [by eapply want_watch_Ok|done].
  - apply IH. by apply wanted_skip.
Qed.

Lemma watch_follows_same desired invalid m0 m m' id : wm_active m0 = wm_active m -> wm_handles m0 = wm_handles m ->
  (forall want, keeps id want m0 = keeps id want m) -> watch_follows desired invalid m0 m' id -> watch_follows desired invalid m m' id.
Proof. intros Ha Hh Hk. unfold watch_follows. destruct (invalid !! id), (desired !! id) as [want|]; by rewrite ?Ha, ?Hh, ?Hk. Qed.

(** ** Setting up the watchers *)

(** The calls to the host that set up a watcher. *)
Definition set_up_calls (spec : watchSpec) : list (W -> result unit * W) :=
  checkSource (ws_viewSource spec) ::
  (if bool_decide (ws_mode spec ∈ ["event"; "hybrid"])
   then newWatcher :: (if bool_decide (Dir (ws_viewSource spec) = ws_viewSource spec) then [] else [addWatch (Dir (ws_viewSource spec))]) ++
        [addWatchDirectories (ws_viewSource spec)]
   else []).

(** Calls in order, up to the first that fails. *)
Fixpoint run_calls (calls : list (W -> result unit * W)) (w : W) : option goerror * W :=
  match calls with
  | [] => (None, w)
  | call :: calls => match call w with (Err e, w) => (Some e, w) | (Ok _, w) => run_calls calls w end
  end.

Lemma events_mode_in spec : events_mode spec = bool_decide (ws_mode spec ∈ ["event"; "hybrid"]).
Proof.
  unfold events_mode, string_eqb. rewrite <-bool_decide_or. apply bool_decide_ext. set_solver.
Qed.

Lemma newHandle_calls spec w :
  newHandle false spec w =
  match run_calls (set_up_calls spec) w with
  | (None, w') => (Ok (MkWatchHandle spec false (events_mode spec) false false), w')
  | (Some e, w') => (Err e, w')
  end.
Proof.
  unfold newHandle, set_up_calls. cbn [run_calls]. destruct (checkSource _ w) as [[[]|e] w1]; [|done].
  rewrite <-events_mode_in. destruct (events_mode spec); cbn [negb]; [|done]. cbn [run_calls].
  destruct (newWatcher w1) as [[[]|e] w2]; [|done].
  unfold string_eqb. case_bool_decide; cbn [app run_calls].
  - by destruct (addWatchDirectories _ w2) as [[[]|e] w3].
  - destruct (addWatch _ w2) as [[[]|e] w3]; [|done]. by destruct (addWatchDirectories _ w3) as [[[]|e] w4].
Qed.

(** The first watcher that cannot be set up. *)
Fixpoint first_failed (create : list (Z * watchSpec)) (w : W) : option (Z * goerror) :=
  match create with
  | [] => None
  | (id, spec) :: create =>
      match run_calls (set_up_calls spec) w with
      | (Some e, _) => Some (id, e)
      | (None, w) => first_failed create w
      end
  end.

Lemma prepare_first l : forall prepared m w, wm_done m = false ->
  match (prepare l prepared m w).1.1, first_failed l w with
  | inl _, None => True
  | inr failure, Some failure' => failure = failure'
  | _, _ => False
  end.
Proof.
  induction l as [|[id spec] l IH]; intros prepared m w Hd; [done|]. cbn [prepare first_failed].
  rewrite Hd, newHandle_calls. destruct (run_calls _ w) as [[e|] w']; [done|]. by apply IH.
Qed.

(** The watchers that are to be created: those wanted and not kept. *)
Definition creates (desired : gmap Z watchSpec) (m : WatchManager) (created : gmap Z watchSpec) : Prop :=
  forall id, match created !! id with
    | Some spec => exists want g, desired !! id = Some want /\ spec = set_ws_generation g want /\ keeps id want m = false
    | None => forall want, desired !! id = Some want -> keeps id want m = true
    end.

Lemma watch_Reconcile_decides jobs m w :
  NoDup (map Job_ID jobs) -> wm_ok m -> wm_closed m = false ->
  let '(desired, invalid, w1) := wanted_watches jobs w in
  let '(err, m', _) := Reconcile jobs m w in
  wm_ok m' /\ wm_closed m' = false /\
  exists created, creates desired m created /\
  match first_failed (map_to_list created) w1 with
  | None => (forall id, watch_follows desired invalid m m' id) /\ (err = None <-> invalid = ∅)
  | Some (id, e) =>
      err = Some (ErrWrap ("job " +:+ Itoa id +:+ ": ") e "") /\ wm_errors m' = <[id := e]> (wm_errors m) /\
      wm_active m' = wm_active m /\ wm_degraded m' = wm_degraded m /\
      (forall h, (h < wm_nextHandle m)%nat -> wm_handles m' !! h = wm_handles m !! h)
  end.
Proof.
  intros Hnd Hok Hcl. pose proof (wanted_watches_spec jobs w) as Hw. unfold Reconcile.
  destruct (wanted_watches jobs w) as [[desired invalid] w1]. destruct Hw as [_ Hdis]. specialize (Hdis Hnd).
  rewrite Hcl. pose proof (begin_create_spec desired m) as Hb. destruct (begin_create desired m) as [create m0].
  destruct Hb as (Ht & Hh & Hn & Hp & Hdn & Hcr). pose proof Ht as (Ha & Hdg & He & Hc).
  assert (wm_ok m0) as Hok0.
  { destruct Hok as [O1 O2 O3 O4 O5 O6 O7]. split; rewrite ?Hp, ?Ha, ?Hh, ?Hn, ?Hdn; done. }
  assert (forall id want, keeps id want m0 = keeps id want m) as Hk.
  { intros id want. unfold keeps, active_handle, handle_spec. by rewrite Ha, Hdg, Hh. }
  pose proof (prepare_spec create m0 (map_to_list create) ∅ m0 w1 (ok_alloc m0 Hok0)) as Hpr.
  pose proof (prepare_first (map_to_list create) ∅ m0 w1 (ok_context m0 Hok0)) as Hfirst.
  destruct (prepare (map_to_list create) ∅ m0 w1) as [[[prepared|[id e]] m1] w2]; cbn in Hfirst.
  - destruct Hpr as [Hpo Hdom].
    { apply prep_start, Hok0. }
    { apply NoDup_fst_map_to_list. } { intros id _. apply lookup_empty. }
    { intros id spec. rewrite elem_of_map_to_list. split; [auto|by intros [?|(_ & _ & ?)]]. }
    assert (wm_closed m1 = false) as Hc1 by (destruct (po_table _ _ _ _ Hpo) as (_ & _ & _ & H); congruence).
    destruct (publish_entries desired invalid prepared m1 Hc1) as (m' & -> & Hact & Hdg' & He' & Hcl' & Hp' & Hn' & Hdn' & Hhan).
    { intros id o Hid. destruct (po_table _ _ _ _ Hpo) as (Ha1 & _). rewrite Ha1 in Hid.
      destruct (ok_active m0 Hok0 _ _ Hid) as (h & _ & -> & _). eauto. }
    assert (creates desired m0 create) as Hcr0.
    { intros id. specialize (Hcr id). destruct (create !! id); [|intros want; rewrite Hk; apply Hcr].
      destruct Hcr as (want & g & H). exists want, g. by rewrite Hk. }
    assert (wm_panicked m' = false) as Hcalm by (rewrite Hp', (po_calm _ _ _ _ Hpo); apply Hok0).
    split; [by apply (published_ok desired invalid prepared create m0 m1 m')|].
    split; [done|]. exists create. split; [exact Hcr|].
    destruct (first_failed (map_to_list create) w1); [done|]. split.
    + intros id. apply (watch_follows_same desired invalid m0); [done..|].
      by apply (published_follows desired invalid prepared create m0 m1 m').
    + apply joined_None.
  - destruct Hpr as (Hcid & P1 & P2 & P3 & P4 & P5 & Perr & P6 & P7 & P8).
    { apply prep_start, Hok0. }
    { apply NoDup_fst_map_to_list. } { intros k _. apply lookup_empty. }
    { intros k spec. rewrite elem_of_map_to_list. split; [auto|by intros [?|(_ & _ & ?)]]. }
    split; [|split; [congruence|exists create; split; [exact Hcr|]]].
    + destruct Hok0 as [O1 O2 O3 O4 O5 O6 O7]. split; rewrite ?P1, ?P4, ?P5; try done.
      * intros k o Hko. destruct (O3 _ _ Hko) as (h & hd & -> & Hhd & Hl). exists h, hd. split; [done|].
        rewrite P7; [done|]. by eapply O6.
      * intros h hd Hhd Hl. destruct (decide (h < wm_nextHandle m0)%nat) as [Hlt|Hge].
        -- rewrite P7 in Hhd by done. by eapply O5.
        -- destruct (P8 _ _ Hhd ltac:(lia)). congruence.
      * intros h hd Hhd. destruct (decide (h < wm_nextHandle m0)%nat) as [Hlt|Hge]; [lia|]. by apply (P8 _ _ Hhd ltac:(lia)).
      * intros k h hd Hid Hhd. destruct (O3 _ _ Hid) as (h' & hd' & [= <-] & Hhd' & _).
        rewrite P7 in Hhd by by eapply O6. by eapply O7.
    + destruct (first_failed (map_to_list create) w1) as [[id' e']|]; [|done]. injection Hfirst as <- <-.
      split; [done|]. split; [rewrite Perr, He; [done|congruence]|]. split; [congruence|]. split; [congruence|].
      intros h Hlt. rewrite P7, Hh; [done|lia].
Qed.

Lemma watch_Reconcile_cases jobs m w :
  NoDup (map Job_ID jobs) -> wm_ok m -> wm_closed m = false ->
  let '(desired, invalid, _) := wanted_watches jobs w in
  let '(err, m', _) := Reconcile jobs m w in
  wm_ok m' /\ wm_closed m' = false /\
  ((forall id, watch_follows desired invalid m m' id) /\ (err = None <-> invalid = ∅) \/ err <> None).
Proof.
  intros Hnd Hok Hcl. pose proof (watch_Reconcile_decides jobs m w Hnd Hok Hcl) as H.
  destruct (wanted_watches jobs w) as [[desired invalid] w1]. destruct (Reconcile jobs m w) as [[err m'] w2].
  destruct H as (H1 & H2 & created & _ & H). split; [done|]. split; [done|].
  destruct (first_failed _ w1) as [[id e]|]; [right|by left]. by destruct H as [-> _].
Qed.
End Manager.
