(* ===== verification/WatchSteps.v ===== *)
(** * The watch manager under any interleaving ([WatchManager.v])

    The steps are the pieces of the code between two releases of [m.mu].  Events,
    polls and timer callbacks may come between the two halves of a
    reconciliation, and the context of the manager may end at any time;
    [reconcileMu] keeps other reconciliations and [Close] out.
    Every step can meet any answers of the host. *)

From S2P Require Import Prelude GoStrings Model LogBuffer HostCommand Capabilities ExecutionPlan.
From S2P Require Import RunService Scheduler SchedulerProofs WatchManager WatchManagerProofs.

(** ** Steps *)

(** Where a reconciliation is. *)
Inductive reconcile_phase :=
  | RPrepare (desired : gmap Z watchSpec) (invalid : gmap Z goerror) (create : gmap Z watchSpec)
  | RPublish (desired : gmap Z watchSpec) (invalid : gmap Z goerror) (prepared : gmap Z nat).

(** [wt_callbacks] have passed the check of [fire]; [wt_answers] have called the
    run service.  [wt_requests] are the calls, [wt_jobs] every job a
    reconciliation was given. *)
Record watch_state := MkWatchState {
  wt_m : WatchManager;
  wt_reconcile : option reconcile_phase;
  wt_callbacks : list (Z * nat);
  wt_answers : list (Z * nat);
  wt_requests : list StartRunInput;
  wt_jobs : list Job
}.

Definition set_m (m : WatchManager) (s : watch_state) : watch_state :=
  MkWatchState m (wt_reconcile s) (wt_callbacks s) (wt_answers s) (wt_requests s) (wt_jobs s).
Definition set_phase (m : WatchManager) (p : option reconcile_phase) (s : watch_state) : watch_state :=
  MkWatchState m p (wt_callbacks s) (wt_answers s) (wt_requests s) (wt_jobs s).

Definition watch_start : watch_state := MkWatchState newWatchManager None [] [] [] [].

Section Steps.
Context {W : Type} `{!WatchHost W}.

Inductive wstep : watch_state -> watch_state -> Prop :=
  | step_begin s jobs w desired invalid w' create m :
      wt_reconcile s = None -> wanted_watches jobs w = (desired, invalid, w') -> wm_closed (wt_m s) = false ->
      begin_create desired (wt_m s) = (create, m) ->
      wstep s (MkWatchState m (Some (RPrepare desired invalid create)) (wt_callbacks s) (wt_answers s) (wt_requests s)
                 (wt_jobs s ++ jobs))
  | step_prepared s desired invalid create w prepared m w' :
      wt_reconcile s = Some (RPrepare desired invalid create) ->
      prepare (map_to_list create) ∅ (wt_m s) w = (inl prepared, m, w') ->
      wstep s (set_phase m (Some (RPublish desired invalid prepared)) s)
  | step_unprepared s desired invalid create w failure m w' :
      wt_reconcile s = Some (RPrepare desired invalid create) ->
      prepare (map_to_list create) ∅ (wt_m s) w = (inr failure, m, w') -> wstep s (set_phase m None s)
  | step_publish s desired invalid prepared :
      wt_reconcile s = Some (RPublish desired invalid prepared) ->
      wstep s (set_phase (publish desired invalid prepared (wt_m s)).2 None s)
  | step_event s id h spec e w :
      handle_spec h (wt_m s) = Some spec -> wstep s (set_m (handleEvent id h spec e (wt_m s) w).1 s)
  | step_error s id h err : wstep s (set_m (degrade id h err (wt_m s)) s)
  | step_poll s id h seen next : wstep s (set_m (poll_tick id h seen next (wt_m s)).2 s)
  | step_signal s id revision : wstep s (set_m (signal_ id revision (wt_m s)) s)
  | step_fire s id h :
      fire_check id h (wt_m s) = true ->
      wstep s (MkWatchState (wt_m s) (wt_reconcile s) ((id, h) :: wt_callbacks s) (wt_answers s) (wt_requests s) (wt_jobs s))
  | step_request s before after id h spec w request w' :
      wt_callbacks s = before ++ (id, h) :: after -> handle_spec h (wt_m s) = Some spec ->
      fire_request id spec w = (Ok request, w') ->
      wstep s (MkWatchState (wt_m s) (wt_reconcile s) (before ++ after) ((id, h) :: wt_answers s)
                 (wt_requests s ++ [request]) (wt_jobs s))
  | step_gone s before after id h spec w e w' :
      wt_callbacks s = before ++ (id, h) :: after -> handle_spec h (wt_m s) = Some spec ->
      fire_request id spec w = (Err e, w') ->
      wstep s (MkWatchState (degrade id h (Some e) (wt_m s)) (wt_reconcile s) (before ++ after) (wt_answers s)
                 (wt_requests s) (wt_jobs s))
  | step_answer s before after id h err :
      wt_answers s = before ++ (id, h) :: after ->
      wstep s (MkWatchState (fire_result id h err (wt_m s)) (wt_reconcile s) (wt_callbacks s) (before ++ after)
                 (wt_requests s) (wt_jobs s))
  | step_close s : wt_reconcile s = None -> wstep s (set_m (Close (wt_m s)) s)
  | step_context s : wstep s (set_m (end_context (wt_m s)) s).

Inductive wsteps : watch_state -> watch_state -> Prop :=
  | wsteps_refl s : wsteps s s
  | wsteps_next s s' s'' : wsteps s s' -> wstep s' s'' -> wsteps s s''.

(** ** What most steps leave alone *)

Definition quiet (m m' : WatchManager) : Prop :=
  wm_active m' = wm_active m /\ wm_closed m' = wm_closed m /\ wm_nextHandle m' = wm_nextHandle m /\
  (forall h, handle_spec h m' = handle_spec h m) /\ (forall h, is_Some (wm_handles m' !! h) <-> is_Some (wm_handles m !! h)).

Lemma quiet_refl m : quiet m m.
Proof. by split_and!. Qed.
Lemma quiet_publishError id h e d m : quiet m (publishError id h e d m).
Proof. unfold publishError. by case_goal. Qed.
Lemma quiet_degrade id h e m : quiet m (degrade id h e m).
Proof. destruct e; [apply quiet_publishError|apply quiet_refl]. Qed.

Lemma quiet_alter (f : watchHandle -> watchHandle) h m :
  (forall hd, wh_spec (f hd) = wh_spec hd) -> quiet m (set_handles (alter f h (wm_handles m)) (wm_nextHandle m) m).
Proof.
  intros Hf. split_and!; [done..| |]; intros k; unfold handle_spec; cbn; destruct (decide (k = h)) as [->|Hne];
    rewrite ?lookup_alter_eq, ?lookup_alter_ne by done; try done; destruct (wm_handles m !! h); cbn; try done.
  by rewrite Hf.
Qed.
Lemma quiet_signalHandle id h m : quiet m (signalHandle id h m).
Proof. unfold signalHandle. repeat case_goal; try apply quiet_refl. by apply quiet_alter. Qed.
Lemma quiet_signal id revision m : quiet m (signal_ id revision m).
Proof. unfold signal_. repeat case_goal; try apply quiet_refl. apply quiet_signalHandle. Qed.
Lemma quiet_rearm id h spec m w : quiet m (rearmRoot id h spec m w).1.
Proof.
  unfold rearmRoot. destruct (checkSource _ w) as [[u|e] w1]; [|apply quiet_degrade].
  destruct (addTree h _ m w1) as [[u'|e] w2]; [|apply quiet_degrade]. cbn. by case_goal.
Qed.
Lemma quiet_event id h spec e m w : quiet m (handleEvent id h spec e m w).1.
Proof.
  unfold handleEvent. case_goal; [apply quiet_degrade|]. case_goal; [apply quiet_rearm|]. case_goal; [apply quiet_refl|].
  destruct (event_created h e m w) as [[err|] w1]; [apply quiet_degrade|]. cbn. case_goal; [apply quiet_signalHandle|apply quiet_refl].
Qed.
Lemma quiet_poll id h last next m : quiet m (poll_tick id h last next m).2.
Proof. unfold poll_tick. destruct next; [case_goal; [apply quiet_refl|apply quiet_signalHandle]|apply quiet_degrade]. Qed.
Lemma quiet_result id h err m : quiet m (fire_result id h err m).
Proof. unfold fire_result. destruct err; [|apply quiet_refl]. case_goal; [apply quiet_refl|apply quiet_publishError]. Qed.

Lemma quiet_context m : quiet m (end_context m).
Proof.
  split_and!; [done..| |]; intros h; unfold handle_spec; cbn; rewrite lookup_fmap; by destruct (wm_handles m !! h).
Qed.

(** ** The invariant *)

(** A reconciliation was given a job that asks for this watch. *)
Definition wanted (jobs : list Job) (id : Z) (spec : watchSpec) : Prop :=
  exists job, job ∈ jobs /\ Job_ID job = id /\ Job_Revision job = ws_revision spec /\ schedulerEligible job TriggerWatch = true.

(** The handle exists, and watches what some job asked for. *)
Definition handle_for (jobs : list Job) (m : WatchManager) (id : Z) (h : nat) : Prop :=
  exists spec, handle_spec h m = Some spec /\ wanted jobs id spec.

Record watch_inv (s : watch_state) : Prop := {
  wi_alloc : forall h hd, wm_handles (wt_m s) !! h = Some hd -> (h < wm_nextHandle (wt_m s))%nat;
  wi_active : forall id h, wm_active (wt_m s) !! id = Some (Some h) -> handle_for (wt_jobs s) (wt_m s) id h;
  wi_callbacks : forall id h, (id, h) ∈ wt_callbacks s -> handle_for (wt_jobs s) (wt_m s) id h;
  wi_phase : match wt_reconcile s with
    | None => True
    | Some (RPrepare desired invalid create) => forall id spec, create !! id = Some spec -> wanted (wt_jobs s) id spec
    | Some (RPublish desired invalid prepared) => forall id h, prepared !! id = Some h -> handle_for (wt_jobs s) (wt_m s) id h
    end;
  wi_requests : forall r, r ∈ wt_requests s -> Start_Origin r = RunOriginWatch /\ Start_DryRun r = false /\
    exists job, job ∈ wt_jobs s /\ Job_ID job = Start_JobID r /\ Job_Revision job = Start_Revision r /\
      schedulerEligible job TriggerWatch = true
}.

Lemma wanted_mono jobs more id spec : wanted jobs id spec -> wanted (jobs ++ more) id spec.
Proof. intros (job & Hj & H). exists job. split; [|done]. apply elem_of_app. by left. Qed.

Lemma handle_for_mono jobs more m m' id h :
  handle_for jobs m id h -> (forall k, (k < wm_nextHandle m)%nat -> handle_spec k m' = handle_spec k m) ->
  (forall h hd, wm_handles m !! h = Some hd -> (h < wm_nextHandle m)%nat) -> handle_for (jobs ++ more) m' id h.
Proof.
  intros (spec & Hs & Hw) Hm Hal. exists spec. split; [|by apply wanted_mono]. rewrite Hm; [done|].
  unfold handle_spec in Hs. apply fmap_Some in Hs as (hd & Hhd & _). by eapply Hal.
Qed.

Lemma handle_for_same jobs m m' id h :
  handle_for jobs m id h -> (forall k, handle_spec k m' = handle_spec k m) -> handle_for jobs m' id h.
Proof. intros (spec & Hs & Hw) Hm. exists spec. by rewrite Hm. Qed.

(** A step that changes the manager quietly and loses callbacks at most. *)
Lemma quiet_inv s m callbacks answers :
  watch_inv s -> quiet (wt_m s) m -> (forall c, c ∈ callbacks -> c ∈ wt_callbacks s) ->
  watch_inv (MkWatchState m (wt_reconcile s) callbacks answers (wt_requests s) (wt_jobs s)).
Proof.
  intros [Hal Ha Hc Hp Hr] (Q1 & Q2 & Q3 & Q4 & Q5) Hsub. split; cbn.
  - intros h hd Hhd. rewrite Q3. destruct (proj1 (Q5 h)) as [hd' H]; [by eexists|]. by eapply Hal.
  - intros id h. rewrite Q1. intros Hid. eapply handle_for_same; [by apply Ha|done].
  - intros id h Hin. eapply handle_for_same; [by apply Hc, Hsub|done].
  - destruct (wt_reconcile s) as [[]|]; [done| |done]. intros id h Hid. eapply handle_for_same; [by apply Hp|done].
  - exact Hr.
Qed.

Lemma stop_all_handles l m : forall h, handle_spec h (stop_all l m) = handle_spec h m /\
  (is_Some (wm_handles (stop_all l m) !! h) <-> is_Some (wm_handles m !! h)).
Proof.
  intros h. destruct (stop_all_spec l m) as (_ & _ & _ & _ & Hh). unfold handle_spec. rewrite Hh.
  case_bool_decide; [|done]. by destruct (wm_handles m !! h).
Qed.

Lemma publish_table desired invalid prepared m :
  let m' := (publish desired invalid prepared m).2 in
  (forall id h, wm_active m' !! id = Some (Some h) -> wm_active m !! id = Some (Some h) \/ prepared !! id = Some h) /\
  wm_nextHandle m' = wm_nextHandle m /\ wm_closed m' = wm_closed m /\ (forall h, handle_spec h m' = handle_spec h m) /\
  (forall h, is_Some (wm_handles m' !! h) <-> is_Some (wm_handles m !! h)).
Proof.
  unfold publish. destruct (wm_closed m) eqn:Ec.
  { cbn. destruct (stop_all_spec (Some <$> (map_to_list prepared).*2) m) as ((Ha & _ & _ & Hc) & Hn & _).
    split; [intros id h; rewrite Ha; auto|]. split; [done|]. split; [congruence|]. split; intros h; apply stop_all_handles. }
  assert (forall l next stopped b, (forall id h, next !! id = Some (Some h) -> wm_active m !! id = Some (Some h) \/ prepared !! id = Some h) ->
    (forall kv, kv ∈ l -> wm_active m !! kv.1 = Some kv.2) ->
    forall id h, (fold_left (publish_current desired invalid prepared m) l (next, stopped, b)).1.1 !! id = Some (Some h) ->
      wm_active m !! id = Some (Some h) \/ prepared !! id = Some h) as Hloop.
  { induction l as [|[k c] l IH]; intros next stopped b Hnext Hl; [exact Hnext|]. cbn [fold_left].
    destruct (publish_current desired invalid prepared m (next, stopped, b) (k, c)) as [[next1 stopped1] b1] eqn:E.
    apply IH; [|intros kv Hkv; apply Hl; by right]. intros id h.
    assert (forall x, (x = c \/ exists r, prepared !! k = Some r /\ x = Some r) -> <[k := x]> next !! id = Some (Some h) ->
      wm_active m !! id = Some (Some h) \/ prepared !! id = Some h) as Hins.
    { intros x Hx. destruct (decide (id = k)) as [->|Hne]; [rewrite lookup_insert_eq; intros [= ->]|by rewrite lookup_insert_ne; [apply Hnext|]].
      destruct Hx as [Hx|(r & Hr & [= ->])]; [left; pose proof (Hl (k, c) ltac:(by left)); cbn in *; congruence|by right]. }
    unfold publish_current in E. destruct (bool_decide _); [injection E as <- _ _; apply Hins; auto|].
    destruct (desired !! k) as [want|]; [|injection E as <- _ _; apply Hnext].
    destruct (prepared !! k) as [r|] eqn:Er; [injection E as <- _ _; apply Hins; eauto|].
    destruct c as [c|]; [|injection E as <- _ _; apply Hnext]. destruct (keeps k want m); injection E as <- _ _; [apply Hins; auto|apply Hnext]. }
  specialize (Hloop (map_to_list (wm_active m)) ∅ [] false ltac:(intros id h; by rewrite lookup_empty)
    ltac:(intros [k c] Hkv; by apply elem_of_map_to_list in Hkv)).
  destruct (fold_left _ _ _) as [[next stopped] b]. cbn in Hloop. destruct b; [cbn; split_and!; auto|].
  cbv zeta. cbn [snd]. set (m1 := set_degraded _ _ _).
  destruct (stop_all_spec stopped m1) as ((Ha & _ & _ & Hc) & Hn & _).
  destruct (start_all_spec (map_to_list prepared).*2 (stop_all stopped m1)) as ((Ha2 & _ & _ & Hc2) & Hn2 & _ & _ & Hh2).
  split_and!.
  - intros id h. rewrite Ha2, Ha. cbn. rewrite fill_desired_spec. destruct (next !! id) as [x|] eqn:En.
    + intros [= ->]. by apply Hloop.
    + case_bool_decide; [|done]. intros [= ->]. by right.
  - by rewrite Hn2, Hn.
  - by rewrite Hc2, Hc.
  - intros h. transitivity (handle_spec h (stop_all stopped m1)); [|apply (stop_all_handles stopped m1)].
    unfold handle_spec. rewrite Hh2. by destruct (wm_handles _ !! h).
  - intros h. rewrite Hh2, fmap_is_Some. apply (stop_all_handles stopped m1).
Qed.

Lemma Close_table m :
  wm_active (Close m) = (if wm_closed m then wm_active m else ∅) /\ wm_closed (Close m) = true /\
  wm_nextHandle (Close m) = wm_nextHandle m /\ (forall h, handle_spec h (Close m) = handle_spec h m) /\
  (forall h, is_Some (wm_handles (Close m) !! h) <-> is_Some (wm_handles m !! h)).
Proof.
  unfold Close. destruct (wm_closed m) eqn:Ec; [by split_and!|]. cbv zeta. set (m1 := set_active ∅ _).
  destruct (stop_all_spec (map_to_list (wm_active m)).*2 m1) as ((Ha & _ & _ & Hc) & Hn & _).
  split; [by rewrite Ha|]. split; [by rewrite Hc|]. split; [by rewrite Hn|].
  assert (forall h, handle_spec h m1 = handle_spec h m /\ (is_Some (wm_handles m1 !! h) <-> is_Some (wm_handles m !! h))) as H1.
  { intros h. unfold handle_spec, m1. cbn. rewrite lookup_fmap. by destruct (wm_handles m !! h). }
  split; intros h; destruct (stop_all_handles (map_to_list (wm_active m)).*2 m1 h) as [Hs Hi], (H1 h) as [Hs1 Hi1].
  - by rewrite Hs, Hs1.
  - by rewrite Hi, Hi1.
Qed.

Lemma inv_prepared s desired invalid create w prepared m w' :
  watch_inv s -> wt_reconcile s = Some (RPrepare desired invalid create) ->
  prepare (map_to_list create) ∅ (wt_m s) w = (inl prepared, m, w') ->
  watch_inv (set_phase m (Some (RPublish desired invalid prepared)) s).
Proof.
  intros [Hal Ha Hc Hp Hr] Eph Epr. pose proof (prepare_spec create (wt_m s) (map_to_list create) ∅ (wt_m s) w Hal) as Hs.
  rewrite Epr in Hs. destruct Hs as [Hpo _].
  { by apply prep_start. } { apply NoDup_fst_map_to_list. } { intros k _. apply lookup_empty. }
  { intros k spec. rewrite elem_of_map_to_list. split; [auto|by intros [?|(_ & _ & ?)]]. }
  assert (forall k, (k < wm_nextHandle (wt_m s))%nat -> handle_spec k m = handle_spec k (wt_m s)) as Hold.
  { intros k Hk. unfold handle_spec. by rewrite (po_old _ _ _ _ Hpo). }
  assert (forall id h, handle_for (wt_jobs s) (wt_m s) id h -> handle_for (wt_jobs s) m id h) as Hkeep.
  { intros id h Hf. rewrite <-(app_nil_r (wt_jobs s)). by eapply handle_for_mono. }
  rewrite Eph in Hp. destruct (po_table _ _ _ _ Hpo) as (Hta & _). split; cbn.
  - intros h hd Hhd. destruct (decide (h < wm_nextHandle (wt_m s))%nat) as [Hlt|Hge].
    + pose proof (po_next _ _ _ _ Hpo). lia.
    + by destruct (po_handles _ _ _ _ Hpo _ _ Hhd ltac:(lia)).
  - intros id h. rewrite Hta. intros Hid. by apply Hkeep, Ha.
  - intros id h Hin. by apply Hkeep, Hc.
  - intros id h Hid. destruct (po_new _ _ _ _ Hpo _ _ Hid) as (_ & spec & hd & Hcr & Hhd & Hsp & _).
    exists spec. unfold handle_spec. rewrite Hhd. cbn. rewrite Hsp. split; [done|]. by apply Hp.
  - exact Hr.
Qed.

Lemma inv_unprepared s desired invalid create w failure m w' :
  watch_inv s -> wt_reconcile s = Some (RPrepare desired invalid create) ->
  prepare (map_to_list create) ∅ (wt_m s) w = (inr failure, m, w') -> watch_inv (set_phase m None s).
Proof.
  intros [Hal Ha Hc Hp Hr] Eph Epr. pose proof (prepare_spec create (wt_m s) (map_to_list create) ∅ (wt_m s) w Hal) as Hs.
  rewrite Epr in Hs. destruct failure as [k e]. destruct Hs as (_ & P1 & _ & _ & _ & _ & _ & P6 & P7 & P8).
  { by apply prep_start. } { apply NoDup_fst_map_to_list. } { intros j _. apply lookup_empty. }
  { intros j spec. rewrite elem_of_map_to_list. split; [auto|by intros [?|(_ & _ & ?)]]. }
  assert (forall id h, handle_for (wt_jobs s) (wt_m s) id h -> handle_for (wt_jobs s) m id h) as Hkeep.
  { intros id h Hf. rewrite <-(app_nil_r (wt_jobs s)). eapply handle_for_mono; [done| |done].
    intros n Hn. unfold handle_spec. by rewrite P7. }
  split; cbn; [| | |done|exact Hr].
  - intros h hd Hhd. destruct (decide (h < wm_nextHandle (wt_m s))%nat) as [Hlt|Hge]; [lia|].
    by apply (P8 _ _ Hhd ltac:(lia)).
  - intros id h. rewrite P1. intros Hid. by apply Hkeep, Ha.
  - intros id h Hin. by apply Hkeep, Hc.
Qed.

Lemma watchSpecFor_revision job spec : watchSpecFor job = Ok spec -> ws_revision spec = Job_Revision job.
Proof. unfold watchSpecFor. case_goal; [done|]. cbv zeta. case_goal; [done|]. by intros [= <-]. Qed.

Lemma inv_begin s jobs w desired invalid w' create m :
  watch_inv s -> wanted_watches jobs w = (desired, invalid, w') -> begin_create desired (wt_m s) = (create, m) ->
  watch_inv (MkWatchState m (Some (RPrepare desired invalid create)) (wt_callbacks s) (wt_answers s) (wt_requests s)
               (wt_jobs s ++ jobs)).
Proof.
  intros [Hal Ha Hc Hp Hr] Ew Eb. pose proof (wanted_watches_spec jobs w) as Hw. rewrite Ew in Hw. destruct Hw as [(Hw & _) _].
  pose proof (begin_create_spec desired (wt_m s)) as Hb. rewrite Eb in Hb. destruct Hb as ((Hta & _) & Hh & Hn & _ & _ & Hcr).
  assert (forall id h, handle_for (wt_jobs s) (wt_m s) id h -> handle_for (wt_jobs s ++ jobs) m id h) as Hkeep.
  { intros id h Hf. eapply handle_for_mono; [done| |done]. intros n _. unfold handle_spec. by rewrite Hh. }
  split; cbn.
  - intros h hd. rewrite Hh, Hn. apply Hal.
  - intros id h. rewrite Hta. intros Hid. by apply Hkeep, Ha.
  - intros id h Hin. by apply Hkeep, Hc.
  - intros id spec Hs. specialize (Hcr id). rewrite Hs in Hcr. destruct Hcr as (want & g & Hd & -> & _).
    destruct (Hw _ _ Hd) as (job & Hj & Hid & Hel & spec0 & view & Hs0 & _ & ->). exists job.
    split; [apply elem_of_app; by right|]. split; [done|]. split; [|done].
    cbn. symmetry. by apply watchSpecFor_revision.
  - intros r Hin. destruct (Hr _ Hin) as (H1 & H2 & job & Hj & H3). split; [done|]. split; [done|]. exists job.
    split; [apply elem_of_app; by left|done].
Qed.

Lemma inv_publish s desired invalid prepared :
  watch_inv s -> wt_reconcile s = Some (RPublish desired invalid prepared) ->
  watch_inv (set_phase (publish desired invalid prepared (wt_m s)).2 None s).
Proof.
  intros [Hal Ha Hc Hp Hr] Eph. rewrite Eph in Hp.
  destruct (publish_table desired invalid prepared (wt_m s)) as (Hact & Hn & _ & Hs & Hi). split; cbn; [| | |done|exact Hr].
  - intros h hd Hhd. rewrite Hn. destruct (proj1 (Hi h)) as [hd' H]; [by eexists|]. by eapply Hal.
  - intros id h Hid. apply Hact in Hid as [Hid|Hid]; eapply handle_for_same; eauto.
  - intros id h Hin. eapply handle_for_same; [by apply Hc|done].
Qed.

Lemma split_sub {A} (l before after : list A) c x : l = before ++ x :: after -> c ∈ before ++ after -> c ∈ l.
Proof. intros ->. rewrite !elem_of_app, elem_of_cons. tauto. Qed.

Lemma inv_step s s' : watch_inv s -> wstep s s' -> watch_inv s'.
Proof.
  intros Hi Hstep. destruct Hstep.
  - by eapply inv_begin.
  - by eapply inv_prepared.
  - by eapply inv_unprepared.
  - by eapply inv_publish.
  - apply quiet_inv; [done|apply quiet_event|done].
  - apply quiet_inv; [done|apply quiet_degrade|done].
  - apply quiet_inv; [done|apply quiet_poll|done].
  - apply quiet_inv; [done|apply quiet_signal|done].
  - destruct Hi as [Hal Ha Hc Hp Hr]. split; cbn; try done. intros id' h'.
    intros [[= -> ->]|Hin]%elem_of_cons; [|by apply Hc].
    unfold fire_check in *. bool_simpl. match goal with H : negb (negb (bool_decide _)) = _ |- _ => idtac | _ => idtac end.
    match goal with H : active_handle _ _ = _ |- _ => unfold active_handle in H;
      destruct (wm_active (wt_m s) !! id) as [[?|]|] eqn:E; cbn in H; try done; injection H as -> end.
    by apply Ha.
  - pose proof (split_sub (wt_callbacks s) before after) as Hsub.
    destruct Hi as [Hal Ha Hc Hp Hr]. split; cbn; try done.
    + intros id' h' Hin. apply Hc. by eapply Hsub.
    + intros r [Hin|Hin]%elem_of_app; [by apply Hr|]. apply list_elem_of_singleton in Hin as ->.
      destruct (Hc id h) as (spec' & Hs' & job & Hj & Hid & Hrev & Hel).
      { match goal with H : wt_callbacks s = _ |- _ => rewrite H end. apply elem_of_app. right. by left. }
      match goal with H : fire_request _ _ _ = _ |- _ => unfold fire_request in H; destruct (checkSource _ w) as [[u|e] w1]; [|done];
        injection H as <- _ end. cbn. split; [done|]. split; [done|]. exists job. split; [done|]. split; [done|]. split; [congruence|done].
  - apply quiet_inv; [done|apply quiet_degrade|]. intros c Hin. by eapply split_sub.
  - apply quiet_inv; [done|apply quiet_result|done].
  - destruct Hi as [Hal Ha Hc Hp Hr]. destruct (Close_table (wt_m s)) as (Ht & _ & Hn & Hs & Hh). split; cbn; [| | | |exact Hr].
    + intros h hd Hhd. rewrite Hn. destruct (proj1 (Hh h)) as [hd' H']; [by eexists|]. by eapply Hal.
    + intros id h. rewrite Ht. case_goal; [|by rewrite lookup_empty]. intros Hid. eapply handle_for_same; [by apply Ha|done].
    + intros id h Hin. eapply handle_for_same; [by apply Hc|done].
    + match goal with H : wt_reconcile s = None |- _ => by rewrite H end.
  - apply quiet_inv; [done|apply quiet_context|done].
Qed.

Lemma inv_start : watch_inv watch_start.
Proof.
  split; cbn; [| | |done|].
  - intros h hd. by rewrite lookup_empty.
  - intros id h. by rewrite lookup_empty.
  - intros id h Hin. by apply elem_of_nil in Hin.
  - intros r Hin. by apply elem_of_nil in Hin.
Qed.

Lemma inv_steps s s' : wsteps s s' -> watch_inv s -> watch_inv s'.
Proof. intros H Hi. induction H as [|s s' s'' _ IH Hstep]; [done|]. exact (inv_step _ _ (IH Hi) Hstep). Qed.

Lemma inv_reach s : wsteps watch_start s -> watch_inv s.
Proof. intros H. exact (inv_steps _ _ H inv_start). Qed.

(** ** Closing *)

Lemma prepare_closed s create w r m w' :
  watch_inv s -> prepare (map_to_list create) ∅ (wt_m s) w = (r, m, w') -> wm_closed m = wm_closed (wt_m s).
Proof.
  intros [Hal _ _ _ _] Epr. pose proof (prepare_spec create (wt_m s) (map_to_list create) ∅ (wt_m s) w Hal) as Hs.
  rewrite Epr in Hs. destruct r as [prepared|[k e]].
  - destruct Hs as [Hpo _].
    { by apply prep_start. } { apply NoDup_fst_map_to_list. } { intros j _. apply lookup_empty. }
    { intros j spec. rewrite elem_of_map_to_list. split; [auto|by intros [?|(_ & _ & ?)]]. }
    destruct (po_table _ _ _ _ Hpo) as (_ & _ & _ & Hc). done.
  - destruct Hs as (_ & _ & _ & Hc & _); [| | | |done].
    { by apply prep_start. } { apply NoDup_fst_map_to_list. } { intros j _. apply lookup_empty. }
    { intros j spec. rewrite elem_of_map_to_list. split; [auto|by intros [?|(_ & _ & ?)]]. }
Qed.

(** Once closed with no callback on its way, nothing is requested any more. *)
Definition drained (s : watch_state) : Prop := wm_closed (wt_m s) = true /\ wt_callbacks s = [].

Lemma drained_step s s' : watch_inv s -> wstep s s' -> drained s -> drained s' /\ wt_requests s' = wt_requests s.
Proof.
  intros Hi Hstep [Hcl Hcb]. unfold drained.
  assert (forall before c after, wt_callbacks s = before ++ c :: after -> False) as Hno.
  { intros before c after E. rewrite Hcb in E. by destruct before. }
  destruct Hstep; cbn; try (exfalso; by eapply Hno).
  - congruence.
  - split; [|done]. split; [|done]. by erewrite prepare_closed.
  - split; [|done]. split; [|done]. by erewrite prepare_closed.
  - split; [|done]. split; [|done]. destruct (publish_table desired invalid prepared (wt_m s)) as (_ & _ & Hc & _). congruence.
  - destruct (quiet_event id h spec e (wt_m s) w) as (_ & Hc & _). split; [|done]. split; [congruence|done].
  - destruct (quiet_degrade id h err (wt_m s)) as (_ & Hc & _). split; [|done]. split; [congruence|done].
  - destruct (quiet_poll id h seen next (wt_m s)) as (_ & Hc & _). split; [|done]. split; [congruence|done].
  - destruct (quiet_signal id revision (wt_m s)) as (_ & Hc & _). split; [|done]. split; [congruence|done].
  - unfold fire_check in *. by rewrite Hcl in *.
  - destruct (quiet_result id h err (wt_m s)) as (_ & Hc & _). split; [|done]. split; [congruence|done].
  - destruct (Close_table (wt_m s)) as (_ & Hc & _). done.
  - done.
Qed.

Lemma drained_steps s s' : wsteps s s' -> watch_inv s -> drained s -> drained s' /\ wt_requests s' = wt_requests s.
Proof.
  intros H. induction H as [|s s' s'' H IH Hstep]; intros Hi Hd; [done|].
  destruct (IH Hi Hd) as [Hd' Hr]. pose proof (inv_steps _ _ H Hi) as Hi'.
  destruct (drained_step _ _ Hi' Hstep Hd') as [? ->]. done.
Qed.

Lemma new_callback s s' id h :
  wstep s s' -> (id, h) ∈ wt_callbacks s' -> (id, h) ∈ wt_callbacks s \/ fire_check id h (wt_m s) = true.
Proof.
  intros Hstep. destruct Hstep; cbn; auto.
  - intros [[= -> ->]|Hin]%elem_of_cons; auto.
  - intros Hin. left. by eapply split_sub.
  - intros Hin. left. by eapply split_sub.
Qed.
End Steps.

(** ** Properties *)

(** C11: the watch manager asks only for runs that a job wants.  Under any
    interleaving of reconciliations, file events, polls, timer callbacks, the
    end of the manager's context and [Close], every request names the ID and the revision of a job that some
    reconciliation was given and that is eligible for watching; a callback goes
    on only when its watcher is the job's current one, is not degraded and the
    manager is open; and once the manager is closed and no callback is on its
    way, nothing is requested ever after. *)
Theorem watch_requests {W} `{!WatchHost W} s :
  wsteps watch_start s ->
  (forall r, r ∈ wt_requests s -> Start_Origin r = RunOriginWatch /\
     exists job, job ∈ wt_jobs s /\ Job_ID job = Start_JobID r /\ Job_Revision job = Start_Revision r /\
       schedulerEligible job TriggerWatch = true) /\
  (forall s' id h, wstep s s' -> (id, h) ∈ wt_callbacks s' -> (id, h) ∈ wt_callbacks s \/
     (wm_closed (wt_m s) = false /\ active_handle id (wt_m s) = Some h /\ id ∉ wm_degraded (wt_m s))) /\
  (drained s -> forall s', wsteps s s' -> wt_requests s' = wt_requests s).
Proof.
  intros Hs. apply inv_reach in Hs as Hi. split; [|split].
  - intros r Hr. destruct (wi_requests s Hi r Hr) as (H1 & _ & H2). done.
  - intros s' id h Hstep Hin. destruct (new_callback _ _ _ _ Hstep Hin) as [?|Hf]; [by left|right].
    unfold fire_check in Hf. by bool_simpl.
  - intros Hd s' Hs'. by apply (drained_steps _ _ Hs').
Qed.

(** ** A lost watcher

    A watcher that degrades between the two critical sections of a
    reconciliation that wanted to keep it is neither kept nor replaced nor
    stopped: the job's entry becomes a nil pointer, its error and its degraded
    mark are cleared, and closing the manager dereferences the pointer. *)
Lemma degraded_while_reconciling {W} `{!WatchHost W} desired invalid prepared m id h want e :
  wm_ok m -> wm_closed m = false -> active_handle id m = Some h ->
  desired !! id = Some want -> invalid !! id = None -> prepared !! id = None ->
  let m' := (publish desired invalid prepared (degrade id h (Some e) m)).2 in
  wm_active m' !! id = Some None /\ Active id m' = true /\ LastError id m' = None /\ id ∉ wm_degraded m' /\
  (exists hd, wm_handles m' !! h = Some hd /\ wh_cancelled hd = false) /\ wm_panicked (Close m') = true.
Proof.
  intros Hok Hcl Hact Hd Hi Hp m'.
  assert (wm_active m !! id = Some (Some h)) as Hid.
  { unfold active_handle in Hact. by destruct (wm_active m !! id) as [[?|]|]; cbn in Hact; simplify_eq. }
  destruct (ok_active m Hok _ _ Hid) as (h' & hd & [= <-] & Hhd & Hl).
  set (m1 := degrade id h (Some e) m) in *.
  assert (m1 = set_degraded ({[id]} ∪ wm_degraded m) (<[id := e]> (wm_errors m)) m) as Hm1.
  { unfold m1, degrade, publishError. rewrite Hcl, Hact. cbn. by rewrite bool_decide_eq_true_2. }
  assert (keeps id want m1 = false) as Hk.
  { unfold keeps, active_handle, handle_spec. rewrite Hm1. cbn. rewrite Hid. cbn. rewrite Hhd. cbn.
    rewrite (bool_decide_eq_true_2 (id ∈ {[id]} ∪ wm_degraded m)) by set_solver. apply andb_false_r. }
  destruct (publish_entries desired invalid prepared m1) as (m2 & Hpub & Hent & Hdeg & Herr & Hcl2 & _ & _ & _ & Hhan).
  { by rewrite Hm1. }
  { rewrite Hm1. intros k o Ho. destruct (ok_active m Hok _ _ Ho) as (? & _ & -> & _). eauto. }
  assert (m' = m2) as -> by (unfold m'; by rewrite Hpub).
  assert (wm_active m2 !! id = Some None) as Hnil.
  { rewrite Hent. unfold final_entry, next_entry. rewrite Hm1. cbn. rewrite Hid, Hi, Hd, Hp.
    rewrite (bool_decide_eq_false_2 (is_Some None)) by by intros [? ?]. rewrite <-Hm1, Hk.
    by rewrite bool_decide_eq_true_2 by eauto. }
  split; [done|]. split; [unfold Active; rewrite Hnil; apply bool_decide_eq_true; eauto|]. split; [|split; [|split]].
  - unfold LastError. rewrite Herr. unfold publish_errors. rewrite map_lookup_filter.
    destruct ((invalid ∪ wm_errors m1) !! id); [|done]. cbn. rewrite option_guard_False; [done|]. cbn. rewrite Hi, Hd.
    intros [[? ?]|?]; done.
  - rewrite Hdeg. unfold publish_degraded. rewrite elem_of_filter, Hi, Hd. intros [[[? ?]|?] _]; done.
  - destruct (Hhan h) as (b & s & Hh2 & Hb & _). rewrite Hm1 in Hh2. cbn in Hh2. rewrite Hhd in Hh2. cbn in Hh2.
    eexists. split; [exact Hh2|]. destruct b; [|done]. destruct (proj1 Hb eq_refl) as (k & Hka & Hks). rewrite Hm1 in Hka.
    rewrite (ok_distinct m Hok _ _ _ Hka Hid) in Hks. apply stops_cases in Hks as [_ [?|[? ?]]]; congruence.
  - unfold Close. rewrite Hcl2. cbv zeta. destruct (stop_all_spec (map_to_list (wm_active m2)).*2
      (set_active ∅ (set_handles (context_ended <$> wm_handles (set_closed m2)) (wm_nextHandle (set_closed m2)) (set_closed m2))))
      as (_ & _ & _ & Hpan & _). rewrite Hpan. rewrite bool_decide_eq_true_2; [apply orb_true_r|].
    apply list_elem_of_fmap. exists (id, None). split; [done|]. by apply elem_of_map_to_list.
Qed.

(** ** Witnesses *)

(** A host on which everything under /gone is missing. *)
#[export] Instance demo_watch_host : WatchHost unit := {|
  resolvePath := hostFilesystemPath;
  checkSource p w := (if HasPrefix p "/proc/1/root/gone" then Err (ErrVar "file does not exist") else Ok tt, w);
  newWatcher w := (Ok tt, w);
  addWatch _ w := (Ok tt, w);
  addWatchDirectories _ w := (Ok tt, w);
  filepath_Match := string_eqb
|}.

Definition watch_job (id revision : Z) (source : string) : Job :=
  MkJob 2 id revision "watch" true false (MkAction ActionCommand "" [] "true" zeroSyncAction)
    (MkIdentity IdentityFixed "root" 0 "root" 0) (MkExecutionPolicy "" [] 0 0 0 "skip") TriggerWatch
    (MkSchedulerPolicy SchedulerSyncBridge) "" "" "" source "" "" "" "" "" "event" 0 0 0 "" "" false 0 0 false false "" false "" "".

Lemma new_manager_ok : wm_ok newWatchManager.
Proof.
  split; cbn; [done|done|..].
  - intros id o. by rewrite lookup_empty.
  - intros id1 id2 h. by rewrite lookup_empty.
  - intros h hd. by rewrite lookup_empty.
  - intros h hd. by rewrite lookup_empty.
  - intros id h hd. by rewrite lookup_empty.
Qed.

(** One job is reconciled, its watcher sees a file, the timer fires and the run
    is asked for. *)
Definition demo_wanted : watchSpec := MkWatchSpec 3 0 "/srv/in" "/proc/1/root/srv/in" "event" (10 * second) (300 * second) [].
Definition demo_create : gmap Z watchSpec := {[ 1%Z := set_ws_generation 1 demo_wanted ]}.
Definition demo_preparing : WatchManager := (begin_create {[ 1%Z := demo_wanted ]} newWatchManager).2.
Definition demo_ready : WatchManager := (prepare (map_to_list demo_create) ∅ demo_preparing tt).1.2.
Definition demo_fired : watch_state :=
  MkWatchState (publish {[ 1%Z := demo_wanted ]} ∅ {[ 1%Z := 0%nat ]} demo_ready).2 None [] [(1%Z, 0%nat)]
    [MkStartRunInput 1 3 RunOriginWatch false] [watch_job 1 3 "/srv/in"].

Definition demo_stage (m : WatchManager) (p : option reconcile_phase) (callbacks : list (Z * nat)) : watch_state :=
  MkWatchState m p callbacks [] [] [watch_job 1 3 "/srv/in"].

Lemma demo_fired_reached : wsteps watch_start demo_fired.
Proof.
  set (desired := {[ 1%Z := demo_wanted ]} : gmap Z watchSpec). set (prepared := {[ 1%Z := 0%nat ]} : gmap Z nat).
  set (m := (publish desired ∅ prepared demo_ready).2).
  apply (wsteps_next _ (demo_stage m None [(1%Z, 0%nat)])).
  2:{ refine (step_request (demo_stage m None [(1%Z, 0%nat)]) [] [] 1 0%nat (set_ws_generation 1 demo_wanted) tt _ tt _ _ _);
        vm_compute; reflexivity. }
  apply (wsteps_next _ (demo_stage m None [])).
  2:{ refine (step_fire (demo_stage m None []) 1 0%nat _). vm_compute. reflexivity. }
  apply (wsteps_next _ (demo_stage demo_ready (Some (RPublish desired ∅ prepared)) [])).
  2:{ exact (step_publish (demo_stage demo_ready (Some (RPublish desired ∅ prepared)) []) desired ∅ prepared eq_refl). }
  apply (wsteps_next _ (demo_stage demo_preparing (Some (RPrepare desired ∅ demo_create)) [])).
  2:{ refine (step_prepared (demo_stage demo_preparing (Some (RPrepare desired ∅ demo_create)) []) desired ∅ demo_create tt
        prepared demo_ready tt eq_refl _). vm_compute. reflexivity. }
  apply (wsteps_next _ watch_start); [apply wsteps_refl|].
  refine (step_begin watch_start [watch_job 1 3 "/srv/in"] tt desired ∅ tt demo_create demo_preparing eq_refl _ eq_refl _);
    vm_compute; reflexivity.
Qed.

Lemma watch_requests_witness :
  (forall r, r ∈ wt_requests demo_fired -> Start_Origin r = RunOriginWatch /\
     exists job, job ∈ wt_jobs demo_fired /\ Job_ID job = Start_JobID r /\ Job_Revision job = Start_Revision r /\
       schedulerEligible job TriggerWatch = true) /\
  (forall s' id h, wstep demo_fired s' -> (id, h) ∈ wt_callbacks s' -> (id, h) ∈ wt_callbacks demo_fired \/
     (wm_closed (wt_m demo_fired) = false /\ active_handle id (wt_m demo_fired) = Some h /\ id ∉ wm_degraded (wt_m demo_fired))) /\
  (drained demo_fired -> forall s', wsteps demo_fired s' -> wt_requests s' = wt_requests demo_fired).
Proof. apply watch_requests. exact demo_fired_reached. Defined.
