(* ===== verification/WatchReconcile.v ===== *)
(** * What a reconciliation of the watch manager does ([WatchManager.v])

    The requirement is stated apart from the code: which jobs are to be watched and
    what each asks for, the verdict on every job as the host answers, and the calls
    that set a watcher up. *)

From S2P Require Import Prelude GoStrings Model LogBuffer HostCommand Capabilities ExecutionPlan.
From S2P Require Import RunService Scheduler SchedulerProofs WatchManager WatchManagerProofs WatchSteps.

(** ** What the jobs ask for *)

(** The jobs that are the watch manager's. *)
Record to_watch (job : Job) : Prop := {
  tw_enabled : Job_Enabled job = true;
  tw_reviewed : Job_NeedsReview job = false;
  tw_owner : Policy_Owner (Job_Scheduler job) = "syncbridge";
  tw_trigger : Job_Trigger job = "watch"
}.

Lemma to_watch_eligible job : to_watch job <-> schedulerEligible job TriggerWatch = true.
Proof.
  unfold schedulerEligible, string_eqb. rewrite !andb_true_iff, negb_true_iff, !bool_decide_eq_true.
  split; [intros []|intros [[[? ?] ?] ?]]; done.
Qed.

Definition watch_modes : list string := ["event"; "poll"; "hybrid"].

(** A number of seconds as a duration, unless it is not positive. *)
Definition seconds_or (n fallback : Z) : Z := let d := wrap_s64 (n * second) in if (0 <? d)%Z then d else (fallback * second)%Z.

(** What is wrong with the specification of a job. *)
Inductive malformed (job : Job) : goerror -> Prop :=
  | no_source : TrimSpace (jobWatchSource job) = "" -> malformed job (ErrNew "watch job source is required")
  | bad_mode : TrimSpace (jobWatchSource job) <> "" -> Job_WatchMode job ∉ "" :: watch_modes ->
      malformed job (ErrNew "watch mode must be event, poll, or hybrid").

Section Verdicts.
Context {W : Type} `{!WatchHost W}.

(** The watch a well-formed job asks for, but for the path in the host's view. *)
Record asks (job : Job) (want : watchSpec) : Prop := {
  as_revision : ws_revision want = Job_Revision job;
  as_source : ws_source want = TrimSpace (jobWatchSource job);
  as_some : ws_source want <> "";
  as_mode : ws_mode want = (if decide (Job_WatchMode job = "") then "hybrid" else Job_WatchMode job);
  as_known : ws_mode want ∈ watch_modes;
  as_debounce : ws_debounce want = seconds_or (Job_Debounce job) 10;
  as_poll : ws_poll want = seconds_or (Job_PollSec job) 300;
  as_globs : ws_globs want = splitCSV (Job_WatchGlob job);
  as_new : ws_generation want = 0%Z
}.

Lemma watchSpecFor_cases job :
  match watchSpecFor job with
  | Ok want => asks job want /\ ws_viewSource want = ""
  | Err e => malformed job e
  end.
Proof.
  unfold watchSpecFor. destruct (string_eqb (TrimSpace (jobWatchSource job)) "") eqn:Es; str_eqb; [by apply no_source|].
  set (mode := if string_eqb (Job_WatchMode job) "" then "hybrid" else Job_WatchMode job).
  assert (mode = if decide (Job_WatchMode job = "") then "hybrid" else Job_WatchMode job) as Hmode.
  { unfold mode, string_eqb. by destruct (decide _); case_bool_decide. }
  destruct (negb (string_eqb mode "event") && negb (string_eqb mode "poll") && negb (string_eqb mode "hybrid")) eqn:Em.
  - apply bad_mode; [done|]. rewrite !andb_true_iff, !negb_true_iff, !string_eqb_false in Em.
    rewrite Hmode in Em. unfold watch_modes. destruct (decide (Job_WatchMode job = "")); [by destruct Em as [_ ?]|set_solver].
  - split; [|done]. assert (mode ∈ watch_modes) as Hin.
    { unfold watch_modes. rewrite !andb_false_iff, !negb_false_iff, !string_eqb_true in Em. set_solver. }
    split; cbn; try done; unfold seconds_or, seconds; repeat case_goal; repeat case_match; try done; lia.
Qed.

(** The verdict on every job that is to be watched, in order, as the host answers. *)
Inductive judged : list Job -> W -> list (Z * result watchSpec) -> W -> Prop :=
  | judged_nil w : judged [] w [] w
  | judged_other job jobs w verdicts w' :
      ~ to_watch job -> judged jobs w verdicts w' -> judged (job :: jobs) w verdicts w'
  | judged_malformed job jobs e w verdicts w' :
      to_watch job -> malformed job e ->
      judged jobs w verdicts w' -> judged (job :: jobs) w ((Job_ID job, Err e) :: verdicts) w'
  | judged_unresolved job jobs want e w verdicts w' :
      to_watch job -> asks job want -> resolvePath (ws_source want) = Err e ->
      judged jobs w verdicts w' -> judged (job :: jobs) w ((Job_ID job, Err e) :: verdicts) w'
  | judged_missing job jobs want e w w1 verdicts w' :
      to_watch job -> asks job want -> resolvePath (ws_source want) = Ok (ws_viewSource want) ->
      checkSource (ws_viewSource want) w = (Err e, w1) ->
      judged jobs w1 verdicts w' -> judged (job :: jobs) w ((Job_ID job, Err e) :: verdicts) w'
  | judged_valid job jobs want w w1 verdicts w' :
      to_watch job -> asks job want -> resolvePath (ws_source want) = Ok (ws_viewSource want) ->
      checkSource (ws_viewSource want) w = (Ok tt, w1) ->
      judged jobs w1 verdicts w' -> judged (job :: jobs) w ((Job_ID job, Ok want) :: verdicts) w'.

Lemma asks_view job want view : asks job want -> asks job (set_viewSource view want).
Proof. by intros []. Qed.

Lemma judged_ids jobs w verdicts w' : judged jobs w verdicts w' -> forall id, id ∈ verdicts.*1 -> id ∈ map Job_ID jobs.
Proof.
  induction 1; cbn; intros id; rewrite ?elem_of_nil, ?elem_of_cons; try done; rewrite ?elem_of_cons in *; naive_solver.
Qed.

(** The tables of the code hold the verdicts. *)
Definition tabled (verdicts : list (Z * result watchSpec)) (d0 d : gmap Z watchSpec) (i0 i : gmap Z goerror) : Prop :=
  (forall id want, d !! id = Some want <-> d0 !! id = Some want \/ (id, Ok want) ∈ verdicts) /\
  (forall id e, i !! id = Some e <-> i0 !! id = Some e \/ (id, Err e) ∈ verdicts).

Lemma tabled_nil d i : tabled [] d d i i.
Proof. split; intros id x; rewrite elem_of_nil; tauto. Qed.

Lemma tabled_Ok id want verdicts d0 d i0 i : d0 !! id = None ->
  tabled verdicts (<[id := want]> d0) d i0 i -> tabled ((id, Ok want) :: verdicts) d0 d i0 i.
Proof.
  intros Hn [H1 H2]. split; intros k x; [rewrite H1|rewrite H2]; rewrite elem_of_cons; [|naive_solver].
  destruct (decide (k = id)) as [->|Hne]; [rewrite lookup_insert_eq, Hn|rewrite lookup_insert_ne by done]; naive_solver.
Qed.
Lemma tabled_Err id e verdicts d0 d i0 i : i0 !! id = None ->
  tabled verdicts d0 d (<[id := e]> i0) i -> tabled ((id, Err e) :: verdicts) d0 d i0 i.
Proof.
  intros Hn [H1 H2]. split; intros k x; [rewrite H1|rewrite H2]; rewrite elem_of_cons; [naive_solver|].
  destruct (decide (k = id)) as [->|Hne]; [rewrite lookup_insert_eq, Hn|rewrite lookup_insert_ne by done]; naive_solver.
Qed.

Definition want_step : gmap Z watchSpec * gmap Z goerror * W -> Job -> gmap Z watchSpec * gmap Z goerror * W :=
  fun '(desired, invalid, w) job =>
    if negb (schedulerEligible job TriggerWatch) then (desired, invalid, w)
    else match want_watch job w with
         | (Err e, w) => (desired, <[Job_ID job := e]> invalid, w)
         | (Ok spec, w) => (<[Job_ID job := spec]> desired, invalid, w)
         end.

Lemma wanted_judged jobs : forall d0 i0 w, NoDup (map Job_ID jobs) ->
  (forall id, id ∈ map Job_ID jobs -> d0 !! id = None /\ i0 !! id = None) ->
  let '(d, i, w') := fold_left want_step jobs (d0, i0, w) in
  exists verdicts, judged jobs w verdicts w' /\ tabled verdicts d0 d i0 i.
Proof.
  induction jobs as [|job jobs IH]; intros d0 i0 w Hnd Hnone.
  { exists []. split; [constructor|apply tabled_nil]. }
  cbn [map] in Hnd, Hnone. apply NoDup_cons in Hnd as [Hni Hnd]. cbn [fold_left want_step].
  assert (forall id, id ∈ map Job_ID jobs -> id <> Job_ID job) as Hne by (intros id Hin ->; done).
  assert (forall id, id ∈ map Job_ID jobs -> d0 !! id = None /\ i0 !! id = None) as Hrest.
  { intros id Hin. apply Hnone. by right. }
  destruct (Hnone (Job_ID job)) as [Hd Hi]; [by left|].
  destruct (schedulerEligible job TriggerWatch) eqn:Ee; cbn [negb].
  2:{ specialize (IH d0 i0 w Hnd Hrest). destruct (fold_left _ _ _) as [[d i] w']. destruct IH as (vs & Hj & Ht).
      exists vs. split; [|done]. apply judged_other; [|done]. by rewrite to_watch_eligible, Ee. }
  apply to_watch_eligible in Ee. unfold want_watch.
  assert (forall e w1, let '(d, i, w') := fold_left want_step jobs (d0, <[Job_ID job := e]> i0, w1) in
    exists vs, judged jobs w1 vs w' /\ tabled ((Job_ID job, Err e) :: vs) d0 d i0 i) as Hbad.
  { intros e w1. specialize (IH d0 (<[Job_ID job := e]> i0) w1 Hnd). destruct (fold_left _ _ _) as [[d i] w'].
    destruct IH as (vs & Hj & Ht).
    { intros id Hin. rewrite lookup_insert_ne by (apply not_eq_sym; auto). auto. }
    exists vs. split; [done|]. by apply tabled_Err. }
  pose proof (watchSpecFor_cases job) as Hspec. destruct (watchSpecFor job) as [spec|e].
  2:{ specialize (Hbad e w). destruct (fold_left _ _ _) as [[d i] w']. destruct Hbad as (vs & Hj & Ht).
      eexists. split; [by eapply judged_malformed|done]. }
  destruct Hspec as [Hspec _]. destruct (resolvePath (ws_source spec)) as [view|e] eqn:Er.
  2:{ specialize (Hbad e w). destruct (fold_left _ _ _) as [[d i] w']. destruct Hbad as (vs & Hj & Ht).
      eexists. split; [by eapply judged_unresolved|done]. }
  pose proof (asks_view _ _ view Hspec) as Hview. destruct (checkSource view w) as [[[]|e] w1] eqn:Ec.
  2:{ specialize (Hbad e w1). destruct (fold_left _ _ _) as [[d i] w']. destruct Hbad as (vs & Hj & Ht).
      eexists. split; [by eapply judged_missing|done]. }
  specialize (IH (<[Job_ID job := set_viewSource view spec]> d0) i0 w1 Hnd). destruct (fold_left _ _ _) as [[d i] w'].
  destruct IH as (vs & Hj & Ht).
  { intros id Hin. rewrite lookup_insert_ne by (apply not_eq_sym; auto). auto. }
  eexists. split; [by eapply judged_valid|by apply tabled_Ok].
Qed.

Lemma judged_tables jobs w : NoDup (map Job_ID jobs) ->
  let '(desired, invalid, w') := wanted_watches jobs w in
  exists verdicts, judged jobs w verdicts w' /\
    (forall id want, desired !! id = Some want <-> (id, Ok want) ∈ verdicts) /\
    (forall id e, invalid !! id = Some e <-> (id, Err e) ∈ verdicts).
Proof.
  intros Hnd. pose proof (wanted_judged jobs ∅ ∅ w Hnd) as H.
  change (wanted_watches jobs w) with (fold_left want_step jobs (∅, ∅, w)). destruct (fold_left _ _ _) as [[d i] w'].
  destruct H as (vs & Hj & H1 & H2). { intros id _. by rewrite !lookup_empty. }
  exists vs. split; [done|]. split; [intros id x; rewrite H1|intros id x; rewrite H2]; rewrite lookup_empty; naive_solver.
Qed.

(** ** The watchers *)

(** Two specifications that ask for the same watch. *)
Definition same_watch (a b : watchSpec) : Prop := set_ws_generation 0 a = set_ws_generation 0 b.

Lemma sameWatchSpec_iff a b : sameWatchSpec a b = true <-> same_watch a b.
Proof.
  unfold sameWatchSpec, same_watch. rewrite !andb_true_iff, !string_eqb_true, !Z.eqb_eq, bool_decide_eq_true.
  destruct a, b; unfold set_ws_generation; cbn. split; [intros [[[[[[? ?] ?] ?] ?] ?] ?]; congruence|by intros [= -> -> -> -> -> -> ->]].
Qed.

(** The job has a watcher at work for this watch. *)
Definition at_work (m : WatchManager) (id : Z) (h : nat) (want : watchSpec) : Prop :=
  wm_active m !! id = Some (Some h) /\
  exists hd, wm_handles m !! h = Some hd /\ wh_cancelled hd = false /\ wh_started hd = true /\ same_watch (wh_spec hd) want.

(** It has one that can stay. *)
Definition stays (m : WatchManager) (id : Z) (want : watchSpec) : Prop := id ∉ wm_degraded m /\ exists h, at_work m id h want.

Lemma stays_keeps m id want : wm_ok m -> keeps id want m = true <-> stays m id want.
Proof.
  intros Hok. unfold keeps, stays, at_work, active_handle, handle_spec. split.
  - destruct (wm_active m !! id) as [[h|]|] eqn:Ea; cbn; [|done..]. destruct (wm_handles m !! h) as [hd|] eqn:Eh; cbn; [|done].
    rewrite andb_true_iff, negb_true_iff, bool_decide_eq_false, sameWatchSpec_iff. intros [Hs Hn]. split; [done|].
    exists h. split; [done|]. exists hd. split; [done|]. destruct (ok_active m Hok _ _ Ea) as (h' & hd' & [= <-] & Hh & Hl).
    split; [congruence|]. split; [by eapply (ok_started m Hok)|done].
  - intros (Hn & h & -> & hd & Hh & _ & _ & Hs). cbn. rewrite Hh. cbn.
    by rewrite (proj2 (sameWatchSpec_iff _ _) Hs), bool_decide_eq_false_2.
Qed.

(** What becomes of a job with a verdict. *)
Definition obeys (m m' : WatchManager) (id : Z) (verdict : result watchSpec) : Prop :=
  match verdict with
  | Ok want =>
      id ∉ wm_degraded m' /\ wm_errors m' !! id = None /\
      exists h, at_work m' id h want /\ ((stays m id want /\ wm_active m !! id = Some (Some h)) \/
                                         (~ stays m id want /\ wm_handles m !! h = None))
  | Err e => wm_active m' !! id = wm_active m !! id /\ wm_errors m' !! id = Some e
  end.

Lemma follows_obeys desired invalid m m' id verdict : wm_ok m -> wm_ok m' ->
  watch_follows desired invalid m m' id ->
  match verdict with Ok want => desired !! id = Some want /\ invalid !! id = None | Err e => invalid !! id = Some e end ->
  obeys m m' id verdict.
Proof.
  intros Hok Hok'. unfold watch_follows, obeys. destruct verdict as [want|e]; [intros H [Hd Hi]|intros H Hi]; rewrite Hi, ?Hd in H; [|done].
  destruct H as (H1 & H2 & h & hd & Ha & Hh & Hl & Hs & Hk). split; [done|]. split; [done|]. exists h. split.
  - split; [done|]. exists hd. split; [done|]. split; [done|]. split; [by eapply (ok_started m' Hok')|by apply sameWatchSpec_iff].
  - destruct (keeps id want m) eqn:E; [left|right]; split; try done; [by apply stays_keeps|].
    rewrite <-stays_keeps, E by done. done.
Qed.
End Verdicts.

(** ** Properties *)

(** C17: a reconciliation installs exactly the watches the jobs ask for.  Every
    job that is enabled, reviewed, scheduled by the service and triggered by
    watching gets a verdict: the watch it asks for when its source, its mode, its
    path and the check of the source are all right, and otherwise the error.  When
    nothing else runs, from a manager that is open and in which every entry has a
    live and started watcher of its own and there are no others, [Reconcile] keeps
    that so.  It sets up the watches asked for that no undegraded watcher has yet,
    in some order; when all the host's calls for them succeed, every watch asked for
    has a started watcher, the old one when that could stay and a new one otherwise,
    and the job is neither degraded nor in error; a job with an error keeps the
    watcher it had, with the error; every other identifier has none; and the result
    is nil exactly when no verdict was an error.  When a call fails, the result and
    the recorded error are that call's, and every watcher is as before. *)
Theorem watch_Reconcile_spec {W} `{!WatchHost W} jobs m (w : W) :
  NoDup (map Job_ID jobs) -> wm_ok m -> wm_closed m = false ->
  let '(err, m', _) := Reconcile jobs m w in
  wm_ok m' /\ wm_closed m' = false /\
  exists verdicts w1 created,
    judged jobs w verdicts w1 /\ NoDup created.*1 /\
    (forall id want, (id, Ok want) ∈ verdicts ->
       (~ stays m id want <-> exists g, (id, set_ws_generation g want) ∈ created)) /\
    (forall id, id ∈ created.*1 -> exists want, (id, Ok want) ∈ verdicts) /\
    match first_failed created w1 with
    | None =>
        (forall id verdict, (id, verdict) ∈ verdicts -> obeys m m' id verdict) /\
        (forall id, id ∉ verdicts.*1 -> wm_active m' !! id = None) /\
        (err = None <-> forall id e, (id, Err e) ∉ verdicts)
    | Some (id, e) =>
        err = Some (ErrWrap ("job " +:+ Itoa id +:+ ": ") e "") /\ wm_errors m' = <[id := e]> (wm_errors m) /\
        wm_active m' = wm_active m /\ wm_degraded m' = wm_degraded m /\
        (forall h, (h < wm_nextHandle m)%nat -> wm_handles m' !! h = wm_handles m !! h)
    end.
Proof.
  intros Hnd Hok Hcl. pose proof (watch_Reconcile_decides jobs m w Hnd Hok Hcl) as H.
  pose proof (judged_tables jobs w Hnd) as Hj. pose proof (wanted_watches_spec jobs w) as Hdis.
  destruct (wanted_watches jobs w) as [[desired invalid] w1]. destruct Hdis as [_ Hdis]. specialize (Hdis Hnd).
  destruct (Reconcile jobs m w) as [[err m'] w2].
  destruct H as (Hok' & Hcl' & created & Hcr & H), Hj as (verdicts & Hj & Hd & Hi). split; [done|]. split; [done|].
  assert (forall id want, (id, Ok want) ∈ verdicts -> invalid !! id = None) as Hex.
  { intros id want Hin%Hd. destruct (invalid !! id) eqn:E; [|done]. rewrite Hdis in Hin by eauto. done. }
  exists verdicts, w1, (map_to_list created). split; [done|]. split; [apply NoDup_fst_map_to_list|]. split; [|split].
  - intros id want Hin. specialize (Hcr id). split; intros Hs.
    + destruct (created !! id) as [spec|] eqn:E.
      * destruct Hcr as (want' & g & Hw & -> & _). apply Hd in Hin. exists g. apply elem_of_map_to_list. congruence.
      * destruct Hs. apply stays_keeps, Hcr, Hd; done.
    + destruct Hs as [g Hg%elem_of_map_to_list]. rewrite Hg in Hcr. destruct Hcr as (want' & g' & Hw & _ & Hk).
      apply Hd in Hin. assert (want' = want) as -> by congruence. rewrite <-stays_keeps, Hk by done. done.
  - intros id ([k spec] & -> & Hin%elem_of_map_to_list)%list_elem_of_fmap. cbn. specialize (Hcr k). rewrite Hin in Hcr.
    destruct Hcr as (want & _ & Hw & _). exists want. by apply Hd.
  - destruct (first_failed _ w1) as [[id e]|]; [done|]. destruct H as [Hf He]. split; [|split].
    + intros id verdict Hin. eapply follows_obeys; [done|done|apply Hf|].
      destruct verdict as [want|e]; [split; [by apply Hd|by eapply Hex]|by apply Hi].
    + intros id Hn. specialize (Hf id). unfold watch_follows in Hf. destruct (invalid !! id) as [e|] eqn:E.
      { destruct Hn. apply Hi in E. by apply list_elem_of_fmap_2' with (x := (id, Err e)). }
      destruct (desired !! id) as [want|] eqn:Ed; [|done]. destruct Hn. apply Hd in Ed.
      by apply list_elem_of_fmap_2' with (x := (id, Ok want)).
    + rewrite He. split; [intros -> id e Hin%Hi; by rewrite lookup_empty in Hin|].
      intros Hno. apply map_eq. intros id. rewrite lookup_empty. destruct (invalid !! id) as [e|] eqn:E; [|done].
      apply Hi in E. by destruct (Hno id e).
Qed.

(** ** Witnesses *)

(** Job 1 watches a directory that exists, job 2 one that does not. *)
Lemma watch_Reconcile_spec_witness :
  let jobs := [watch_job 1 3 "/srv/in"; watch_job 2 1 "/gone/in"] in
  Active 1 (Reconcile jobs newWatchManager tt).1.2 = true /\
  let '(err, m', _) := Reconcile jobs newWatchManager tt in
  wm_ok m' /\ wm_closed m' = false /\
  exists verdicts w1 created,
    judged jobs tt verdicts w1 /\ NoDup created.*1 /\
    (forall id want, (id, Ok want) ∈ verdicts ->
       (~ stays newWatchManager id want <-> exists g, (id, set_ws_generation g want) ∈ created)) /\
    (forall id, id ∈ created.*1 -> exists want, (id, Ok want) ∈ verdicts) /\
    match first_failed created w1 with
    | None =>
        (forall id verdict, (id, verdict) ∈ verdicts -> obeys newWatchManager m' id verdict) /\
        (forall id, id ∉ verdicts.*1 -> wm_active m' !! id = None) /\
        (err = None <-> forall id e, (id, Err e) ∉ verdicts)
    | Some (id, e) =>
        err = Some (ErrWrap ("job " +:+ Itoa id +:+ ": ") e "") /\ wm_errors m' = <[id := e]> (wm_errors newWatchManager) /\
        wm_active m' = wm_active newWatchManager /\ wm_degraded m' = wm_degraded newWatchManager /\
        (forall h, (h < wm_nextHandle newWatchManager)%nat -> wm_handles m' !! h = wm_handles newWatchManager !! h)
    end.
Proof.
  intros jobs. split; [vm_compute; reflexivity|].
  apply (watch_Reconcile_spec jobs newWatchManager tt); [|exact new_manager_ok|reflexivity].
  cbn. apply NoDup_cons. split; [|apply NoDup_singleton]. intros H%list_elem_of_singleton. discriminate H.
Defined.
