(* ===== verification/HostFiles.v ===== *)
(** * Files of the host ([host_filesystem.go], [system_service.go])

    The persistent scheduler and the system service change files of the host
    below its root view.  The file system is the one of [AtomicFile.v]: every
    operation may fail.  The state pairs it with whatever else the host keeps,
    which the commands SyncBridge runs can change together with the files. *)

From S2P Require Import Prelude GoStrings Model AtomicFile JobRepository HostCommand ExecutionPlan.

Section HostState.
Context {W : Type}.

(** A file operation, in the state of the host. *)
Definition files_ {A} (m : SE FS A) : SE (FS * W) A :=
  fun s => let (r, fs) := m s.1 in (r, (fs, s.2)).
End HostState.

(** [os.Stat]: an error, no such file, or the file. *)
Definition fs_Stat (path : string) : SE FS (option file) :=
  o ← next_outcome;
  match o with
  | Fails _ => lift (Err (ErrNew "stat"))
  | Succeeds _ => fs ← get_state; mret (fs_files fs !! path)
  end.

(** The names of the files right below a directory. *)
Definition name_below (dir path : string) : option string :=
  if HasPrefix path (dir +:+ "/") then
    let name := TrimPrefix path (dir +:+ "/") in
    if string_eqb name "" || has_byte slash name then None else Some name
  else None.

Definition names_in (dir : string) (files : gmap string file) : list string :=
  merge_sort string_le (omap (name_below dir) (map_to_list files).*1).

(** [entries, _ := os.ReadDir(dir)]: a reading that fails returns the entries
    before the error, and the error is dropped. *)
Definition fs_ReadDir (dir : string) : SE FS (list string) :=
  o ← next_outcome;
  fs ← get_state;
  let names := names_in dir (fs_files fs) in
  mret (match o with Fails n => take n names | Succeeds _ => names end).

(** ** [atomicReplaceHostFile] *)

(** [if err := m; err != nil { tmp.Close(); return err }] *)
Definition or_close (name : string) (m : SE FS unit) : SE FS unit :=
  r ← attempt m;
  match r with
  | Ok _ => mret tt
  | Err e => _ ← ignore (fs_Close name); lift (Err e)
  end.

(** [defer os.Remove(name)] *)
Definition then_remove (name : string) (m : SE FS unit) : SE FS unit :=
  r ← attempt m;
  _ ← ignore (fs_Remove name);
  lift r.

Definition temp_prefix : string := ".syncbridge-".

(** The mode and the owner the new file takes over. *)
Definition stat_profile (fallbackMode : Z) (st : result (option file)) : Z * option FileOwner :=
  match st with
  | Ok (Some f) => (Z.land (file_mode f) 511, Some (file_owner f))
  | _ => (fallbackMode, None)
  end.

Definition write_temp (name view content : string) (profile : Z * option FileOwner) : SE FS unit :=
  _ ← or_close name (fs_Write name content);
  _ ← or_close name (fs_Sync name);
  _ ← or_close name (fs_Chmod name profile.1);
  _ ← match profile.2 with Some owner => ignore (fs_Chown name owner) | None => mret tt end;
  _ ← fs_Close name;
  fs_Rename name view.

Definition atomicReplaceHostFile (logical content : string) (fallbackMode : Z) : SE FS unit :=
  view ← lift (hostFilesystemPath logical);
  st ← attempt (fs_Stat view);
  _ ← fs_MkdirAll (Dir view);
  name ← fs_CreateTemp (Dir view) temp_prefix;
  then_remove name (write_temp name view content (stat_profile fallbackMode st)).

(** ** What it leaves behind *)

(** A step whose error the code inspects. *)
Lemma hoare_try {S A B} (P : S -> Prop) (m : SE S A) Q E (k : result A -> SE S B) (R : B -> S -> Prop) (E' : S -> Prop) :
  hoare P m Q E -> (forall a, hoare (Q a) (k (Ok a)) R E') -> (forall e, hoare E (k (Err e)) R E') ->
  hoare P (r ← attempt m; k r) R E'.
Proof.
  intros Hm Hok Herr s Hs. specialize (Hm s Hs). rewrite SE_bind_unfold. unfold attempt.
  destruct (m s) as [[a|e] s']; [by apply Hok|by apply Herr].
Qed.

(** The files, possibly with a leftover temporary one. *)
Definition leftover (files files' : gmap string file) : Prop :=
  files' = files \/
  exists tmp f, files !! tmp = None /\ HasPrefix (Base tmp) temp_prefix = true /\ files' = <[tmp := f]> files.

Definition temporary (path : string) : bool := HasPrefix (Base path) temp_prefix.

Lemma leftover_lookup files files' path :
  leftover files files' -> temporary path = false -> files' !! path = files !! path.
Proof.
  intros [->|(tmp & f & _ & Htmp & ->)] Hp; [done|]. apply lookup_insert_ne.
  intros ->. unfold temporary in Hp. congruence.
Qed.

Section Replace.
Context (F : gmap string file) (tmp : string).
Hypothesis tmp_fresh : F !! tmp = None.
Hypothesis tmp_name : HasPrefix (Base tmp) temp_prefix = true.

Definition holds (f : file) (fs : FS) : Prop := fs_files fs = <[tmp := f]> F.
Definition holds_some (fs : FS) : Prop := exists f, holds f fs.
(** A prefix of the work: the files as they were, or with the temporary one. *)
Definition pending (fs : FS) : Prop := fs_files fs = F \/ holds_some fs.

Lemma remove_pending (P : FS -> Prop) E :
  (forall fs, P fs -> pending fs) -> hoare P (ignore (fs_Remove tmp)) (fun _ fs => leftover F (fs_files fs)) E.
Proof.
  intros HP. apply (hoare_weaken _ pending _ _ (fun _ fs => leftover F (fs_files fs)) _ E); [|exact HP|done|done]. apply hoare_ignore, hoare_fs_op; [done| |].
  - intros fs [H|[f H]]; left; cbn; rewrite H; [by apply delete_id|by apply delete_insert_id].
  - intros fs [H|[f H]]; [by left|right]. by exists tmp, f.
Qed.

Lemma close_some m (P Q E : FS -> Prop) :
  (forall fs, E fs -> holds_some fs) ->
  hoare P m (fun _ => Q) E -> hoare P (or_close tmp m) (fun _ => Q) holds_some.
Proof.
  intros HE Hm. unfold or_close.
  eapply hoare_try; [exact Hm|intros ?; by apply hoare_ret|]. intros e fs Hfs. apply HE in Hfs. revert fs Hfs.
  eapply hoare_seq; [apply hoare_ignore, (hoare_fs_op _ _ _ holds_some); done|]. by apply hoare_err.
Qed.

Lemma alter_holds (f : file) g what : hoare (holds f) (fs_op what (alter_file tmp g)) (fun _ => holds (g f)) (holds f).
Proof.
  apply hoare_fs_op; [done| |done]. intros fs H. unfold holds in *. cbn. rewrite H. apply alter_insert_eq.
Qed.

Lemma write_holds content :
  hoare (holds (MkFile "" 384 process_owner false)) (fs_Write tmp content)
    (fun _ => holds (MkFile content 384 process_owner false)) holds_some.
Proof.
  intros fs Hfs. unfold fs_Write. rewrite SE_bind_unfold. unfold next_outcome.
  unfold holds_some, holds in *.
  destruct (fs_script fs) as [|[suffix|n] script]; cbn; rewrite Hfs; [| |eexists; apply alter_insert_eq];
    by rewrite alter_insert_eq.
Qed.

Definition written (content : string) (profile : Z * option FileOwner) (f : file) : Prop :=
  file_data f = content /\ file_mode f = profile.1 /\ file_synced f = true /\
  (file_owner f = process_owner \/ Some (file_owner f) = profile.2).
Definition holds_written (content : string) (profile : Z * option FileOwner) (fs : FS) : Prop :=
  exists f, written content profile f /\ holds f fs.

Lemma write_temp_hoare view content profile :
  hoare (holds (MkFile "" 384 process_owner false)) (write_temp tmp view content profile)
    (fun _ fs => exists f, written content profile f /\ fs_files fs = <[view := f]> F) holds_some.
Proof.
  unfold write_temp.
  eapply hoare_bind; [eapply close_some, write_holds; done|]. intros [].
  eapply hoare_bind; [eapply close_some, alter_holds; by eexists|]. intros [].
  eapply hoare_bind; [eapply close_some, alter_holds; by eexists|]. intros []. cbn.
  eapply (hoare_bind _ _ (fun _ => holds_written content profile)).
  { destruct profile as [mode [owner|]]; cbn.
    - apply hoare_ignore. eapply hoare_weaken; [apply alter_holds|done|..]; cbn.
      + intros _ fs H. eexists. split; [|exact H]. repeat split. by right.
      + intros fs H. eexists. split; [|exact H]. repeat split. by left.
    - apply hoare_ret. intros fs H. eexists. split; [|exact H]. repeat split. by left. }
  intros ?. eapply (hoare_bind _ _ (fun _ => holds_written content profile)).
  { apply hoare_fs_op; [done|done|]. intros fs (f & _ & Hf). by exists f. }
  intros ?. apply hoare_fs_op; [done| |]; intros fs (f & Hw & Hf); exists f; [|exact Hf].
  split; [done|]. unfold holds in Hf. cbn. rewrite Hf. unfold rename_files.
  by rewrite lookup_insert_eq, delete_insert_id.
Qed.

Lemma then_remove_hoare view content profile :
  temporary view = false \/ is_Some (F !! view) ->
  hoare (holds (MkFile "" 384 process_owner false)) (then_remove tmp (write_temp tmp view content profile))
    (fun _ fs => exists f, written content profile f /\ fs_files fs = <[view := f]> F)
    (fun fs => leftover F (fs_files fs)).
Proof.
  intros Hv. unfold then_remove.
  eapply hoare_try; [apply (write_temp_hoare view content profile)|intros u|intros e].
  - apply (hoare_seq _ _ (fun fs => exists f, written content profile f /\ fs_files fs = <[view := f]> F));
      [|by intros fs H].
    apply hoare_ignore, hoare_fs_op; [done| |done].
    intros fs (f & Hw & Hf). exists f. split; [done|]. cbn. rewrite Hf. apply delete_id.
    rewrite lookup_insert_ne; [done|]. intros ->. unfold temporary in Hv. destruct Hv as [Hv|[? Hv]]; congruence.
  - eapply hoare_seq; [apply remove_pending; intros fs H; by right|]. by apply hoare_err.
Qed.
End Replace.

Lemma create_temp_fresh F dir pattern :
  has_byte slash pattern = false -> pattern <> "" ->
  hoare (fun fs => fs_files fs = F) (fs_CreateTemp dir pattern)
    (fun tmp fs => F !! tmp = None /\ HasPrefix (Base tmp) pattern = true /\ holds F tmp (MkFile "" 384 process_owner false) fs)
    (fun fs => fs_files fs = F).
Proof.
  intros Hsl Hne fs Hfs. unfold fs_CreateTemp. rewrite SE_bind_unfold. unfold next_outcome.
  assert (forall suffix fs', fs_files fs' = F ->
    let m := if has_byte slash (pattern +:+ suffix) then lift (Err (ErrNew "pattern contains path separator"))
             else if bool_decide (is_Some (fs_files fs' !! joinPath dir (pattern +:+ suffix)))
             then lift (Err (ErrNew "file exists"))
             else (_ ← modify_state (fs_set_files (<[joinPath dir (pattern +:+ suffix) :=
                         MkFile "" 384 process_owner false]>));
                   mret (joinPath dir (pattern +:+ suffix))) in
    match m fs' with
    | (Ok tmp, s') => F !! tmp = None /\ HasPrefix (Base tmp) pattern = true /\
                      holds F tmp (MkFile "" 384 process_owner false) s'
    | (Err _, s') => fs_files s' = F end) as Hbody.
  { intros suffix fs' Hfs'. cbn. case_goal; [done|]. case_goal; [done|]. bool_simpl. cbn.
    split; [rewrite <-Hfs'; by apply eq_None_not_Some|]. split; [|unfold holds; cbn; by rewrite Hfs'].
    assert (Base (joinPath dir (pattern +:+ suffix)) = pattern +:+ suffix) as ->; [|apply HasPrefix_app].
    assert (pattern +:+ suffix <> "") by (intros [? ?]%app_nil_str; done).
    unfold joinPath. destruct (HasSuffix dir "/") eqn:Es; [|by apply Base_last].
    apply HasSuffix_iff in Es as [d ->]. rewrite app_assoc_str. by apply Base_last. }
  destruct (fs_script fs) as [|[suffix|n] script]; [by apply Hbody..|done].
Qed.

(** The host file is replaced as a whole, or nothing but a temporary file is
    left behind. *)
Lemma atomicReplaceHostFile_hoare F logical content fallbackMode view :
  hostFilesystemPath logical = Ok view -> temporary view = false \/ is_Some (F !! view) ->
  hoare (fun fs => fs_files fs = F) (atomicReplaceHostFile logical content fallbackMode)
    (fun _ fs => exists f, file_data f = content /\ fs_files fs = <[view := f]> F)
    (fun fs => leftover F (fs_files fs)).
Proof.
  intros Hview Htmp. unfold atomicReplaceHostFile. rewrite Hview.
  assert (forall fs, fs_files fs = F -> leftover F (fs_files fs)) as Hstart by (intros fs ->; by left).
  eapply (hoare_bind _ _ (fun v fs => v = view /\ fs_files fs = F)).
  { apply hoare_lift; [by intros ? ? [= ->]|done]. }
  intros v. eapply (hoare_bind _ _ (fun _ fs => v = view /\ fs_files fs = F)).
  { intros fs [-> Hfs]. unfold attempt, fs_Stat. rewrite SE_bind_unfold. unfold next_outcome.
    by destruct (fs_script fs) as [|[suffix|n] script]; cbn. }
  intros st. eapply hoare_seq with (R := fun fs => v = view /\ fs_files fs = F).
  { apply hoare_fs_op; [done|done|]. intros fs [-> H]. by apply Hstart. }
  intros fs [-> Hfs]. rewrite SE_bind_unfold.
  pose proof (create_temp_fresh F (Dir view) temp_prefix eq_refl ltac:(done) fs Hfs) as Hcreate.
  destruct (fs_CreateTemp (Dir view) temp_prefix fs) as [[tmp|e] fs']; [|by apply Hstart].
  destruct Hcreate as (Hfresh & Hname & Hh).
  pose proof (then_remove_hoare F tmp Hfresh Hname view content (stat_profile fallbackMode st) Htmp fs' Hh) as H.
  destruct (then_remove _ _ fs') as [[u|e] fs'']; [|exact H].
  destruct H as (f & (Hd & _) & Hf). by exists f.
Qed.

(** ** A file system on which everything works *)

Record working (fs : FS) : Prop := {
  works_script : fs_script fs = [];
  works_clean : forall path, temporary path = true -> fs_files fs !! path = None
}.

(** Nothing fails when the script has run out. *)
Definition goes {A} (m : SE FS A) : Prop :=
  forall fs, fs_script fs = [] -> exists a fs', m fs = (Ok a, fs') /\ fs_script fs' = [].

Lemma goes_ret {A} (a : A) : goes (mret a).
Proof. intros fs H. by exists a, fs. Qed.

Lemma goes_bind {A B} (m : SE FS A) (k : A -> SE FS B) : goes m -> (forall a, goes (k a)) -> goes (x ← m; k x).
Proof.
  intros Hm Hk fs H. destruct (Hm fs H) as (a & fs1 & E1 & H1). destruct (Hk a fs1 H1) as (b & fs2 & E2 & H2).
  exists b, fs2. split; [|done]. by rewrite SE_bind_unfold, E1.
Qed.

Lemma goes_attempt {A} (m : SE FS A) : goes m -> goes (attempt m).
Proof. intros Hm fs H. destruct (Hm fs H) as (a & fs1 & E1 & H1). exists (Ok a), fs1. unfold attempt. by rewrite E1. Qed.

Lemma goes_op what ok : (forall fs, fs_script (ok fs) = fs_script fs) -> goes (fs_op what ok).
Proof.
  intros Hok fs H. exists tt, (ok fs). unfold fs_op. rewrite SE_bind_unfold. unfold next_outcome. rewrite H.
  split; [done|]. by rewrite Hok.
Qed.

Lemma goes_ignore m : goes m -> goes (ignore m).
Proof. intros Hm. apply goes_bind; [by apply goes_attempt|]. intros ?. apply goes_ret. Qed.

Lemma goes_after {A B} (m : SE FS A) (k : result A -> SE FS B) :
  goes m -> (forall a, goes (k (Ok a))) -> goes (r ← attempt m; k r).
Proof.
  intros Hm Hk fs H. destruct (Hm fs H) as (a & fs1 & E1 & H1). destruct (Hk a fs1 H1) as (b & fs2 & E2 & H2).
  exists b, fs2. split; [|done]. rewrite SE_bind_unfold. unfold attempt. by rewrite E1.
Qed.

Lemma goes_close name m : goes m -> goes (or_close name m).
Proof. intros Hm. apply goes_after; [done|]. intros []. apply goes_ret. Qed.

Lemma goes_write name data : goes (fs_Write name data).
Proof.
  intros fs H. unfold fs_Write. rewrite SE_bind_unfold. unfold next_outcome. rewrite H. cbn. by do 2 eexists.
Qed.

Lemma goes_stat path : goes (fs_Stat path).
Proof. intros fs H. unfold fs_Stat. rewrite SE_bind_unfold. unfold next_outcome. rewrite H. cbn. by do 2 eexists. Qed.

Create HintDb goesdb.
#[export] Hint Resolve goes_ret goes_bind goes_attempt goes_ignore goes_close goes_write goes_stat : goesdb.
#[export] Hint Extern 1 (goes (fs_op _ _)) => (apply goes_op; done) : goesdb.

Lemma goes_write_temp name view content profile : goes (write_temp name view content profile).
Proof.
  unfold write_temp, fs_Sync, fs_Chmod, fs_Close, fs_Rename.
  do 3 (apply goes_bind; [eauto with goesdb|intros ?]).
  apply goes_bind; [destruct profile as [? [owner|]]; cbn; unfold fs_Chown; eauto with goesdb|intros ?].
  apply goes_bind; [eauto with goesdb|intros ?]. by apply goes_op.
Qed.

Lemma temp_name dir name : name <> "" -> has_byte slash name = false -> Base (joinPath dir name) = name.
Proof.
  intros Hne Hsl. unfold joinPath. destruct (HasSuffix dir "/") eqn:Es; [|by apply Base_last].
  apply HasSuffix_iff in Es as [d ->]. rewrite app_assoc_str. by apply Base_last.
Qed.

Lemma bind_step {S A B} (m : SE S A) (k : A -> SE S B) s a s' : m s = (Ok a, s') -> (x ← m; k x) s = k a s'.
Proof. intros H. by rewrite SE_bind_unfold, H. Qed.

Lemma works_op what ok fs : fs_script fs = [] -> fs_op what ok fs = (Ok tt, ok fs).
Proof. intros H. unfold fs_op. rewrite SE_bind_unfold. unfold next_outcome. by rewrite H. Qed.

Lemma works_stat path fs : fs_script fs = [] -> fs_Stat path fs = (Ok (fs_files fs !! path), fs).
Proof. intros H. unfold fs_Stat. rewrite SE_bind_unfold. unfold next_outcome. by rewrite H. Qed.

Lemma works_create dir pattern fs :
  fs_script fs = [] -> fs_files fs !! joinPath dir (pattern +:+ "0") = None ->
  has_byte slash (pattern +:+ "0") = false ->
  exists tmp fs', fs_CreateTemp dir pattern fs = (Ok tmp, fs') /\ fs_script fs' = [].
Proof.
  intros H Hn Hsl. unfold fs_CreateTemp. rewrite SE_bind_unfold. unfold next_outcome. rewrite H, Hsl, SE_bind_unfold.
  unfold get_state. rewrite bool_decide_eq_false_2 by (rewrite Hn; by intros [? ?]). cbn. by do 2 eexists.
Qed.

Lemma atomicReplaceHostFile_works logical content fallbackMode view fs :
  hostFilesystemPath logical = Ok view -> temporary view = false -> working fs ->
  exists f fs', atomicReplaceHostFile logical content fallbackMode fs = (Ok tt, fs') /\
    working fs' /\ file_data f = content /\ fs_files fs' = <[view := f]> (fs_files fs).
Proof.
  intros Hview Htmp [Hs Hclean].
  pose proof (atomicReplaceHostFile_hoare (fs_files fs) logical content fallbackMode view Hview (or_introl Htmp) fs eq_refl) as H.
  enough (exists u fs', atomicReplaceHostFile logical content fallbackMode fs = (Ok u, fs') /\ fs_script fs' = [])
    as ([] & fs' & Hrun & Hs').
  { rewrite Hrun in H. destruct H as (f & Hd & Hf). exists f, fs'. split; [done|]. split; [|done]. split; [done|].
    intros p Hp. rewrite Hf, lookup_insert_ne by (intros ->; congruence). by apply Hclean. }
  clear H. unfold atomicReplaceHostFile. rewrite Hview.
  rewrite (bind_step (lift _) _ _ view fs) by done.
  rewrite (bind_step (attempt _) _ _ (Ok (fs_files fs !! view)) fs)
    by (unfold attempt; by rewrite works_stat).
  rewrite (bind_step (fs_MkdirAll _) _ _ tt fs) by by apply works_op.
  destruct (works_create (Dir view) temp_prefix fs Hs) as (tmp & fs1 & Hc & Hs1); [|done|].
  { apply Hclean. unfold temporary. by rewrite temp_name. }
  rewrite (bind_step _ _ _ _ _ Hc).
  apply goes_after; [apply goes_write_temp|intros ?|exact Hs1].
  apply goes_bind; [unfold fs_Remove; eauto with goesdb|intros ? fs' Hf; by do 2 eexists].
Qed.

Lemma name_below_joined dir name :
  name <> "" -> has_byte slash name = false -> name_below dir (dir +:+ String slash name) = Some name.
Proof.
  intros Hne Hs. unfold name_below. change (String slash name) with ("/" +:+ name). rewrite <-app_assoc_str.
  rewrite HasPrefix_app, TrimPrefix_app, Hs. by apply string_eqb_false in Hne as ->.
Qed.

Lemma names_in_elem dir name (files : gmap string file) f :
  name <> "" -> has_byte slash name = false -> files !! (dir +:+ String slash name) = Some f -> name ∈ names_in dir files.
Proof.
  intros Hne Hs Hf. unfold names_in. rewrite merge_sort_Permutation. apply list_elem_of_omap.
  exists (dir +:+ String slash name). split; [|by apply name_below_joined].
  apply list_elem_of_fmap. exists (dir +:+ String slash name, f). split; [done|]. by apply elem_of_map_to_list.
Qed.

Lemma works_readdir dir fs : fs_script fs = [] -> fs_ReadDir dir fs = (Ok (names_in dir (fs_files fs)), fs).
Proof. intros H. unfold fs_ReadDir. rewrite SE_bind_unfold. unfold next_outcome. by rewrite H. Qed.
