(* ===== verification/PersistentScheduler.v ===== *)
(** * The persistent scheduler ([persistent_scheduler.go])

    Jobs of owner [system] are left to the host: a cron job becomes a file of
    [/etc/cron.d], a watch a systemd service with a path unit.  [Reconcile]
    compiles and installs the wrapper of every such job, writes its artifacts and
    removes those of jobs that are gone.  The plan compiler and the wrapper
    installer are the interfaces the Go code has; every file operation and every
    command may fail. *)

From S2P Require Import Prelude GoStrings Model AtomicFile JobRepository HostCommand ExecutionPlan HostFiles.

Definition sbMarker : string := "# syncbridge".

Definition persistentBase (instanceID : string) (jobID : Z) : string :=
  "syncbridge-" +:+ instanceID +:+ "-" +:+ Itoa jobID.

Definition cron_dir : string := "/etc/cron.d".
Definition systemd_dir : string := "/etc/systemd/system".

Definition lines_ (l : list string) : string := fold_right (fun x s => x +:+ newline +:+ s) "" l.

(** The cron file and the two units of a job. *)
Definition cron_content (job : Job) (wrapper : string) : string :=
  lines_ [ sbMarker +:+ " managed job " +:+ Itoa (Job_ID job) +:+ " revision " +:+ FormatUint (Job_Revision job);
           "SHELL=/bin/sh";
           "PATH=/usr/local/sbin:/usr/local/bin:/usr/sbin:/usr/bin:/sbin:/bin";
           TrimSpace (Job_Cron job) +:+ " root " +:+ wrapper ].

Definition service_content (job : Job) (wrapper : string) : string :=
  lines_ [ "[Unit]"; "Description=SyncBridge persistent job " +:+ Itoa (Job_ID job); "";
           "[Service]"; "Type=oneshot"; "ExecStart=" +:+ wrapper; "KillMode=control-group"; "NoNewPrivileges=yes" ] +:+
  (if (Exec_TimeoutSeconds (Job_Execution job) >? 0)%Z
   then lines_ [ "TimeoutStartSec=" +:+ Itoa (Exec_TimeoutSeconds (Job_Execution job)) +:+ "s" ] else "").

Definition path_content (job : Job) (base : string) : string :=
  lines_ [ "[Unit]"; "Description=SyncBridge persistent watch " +:+ Itoa (Job_ID job); "";
           "[Path]"; "PathModified=" +:+ TrimByteRight slash (jobWatchSource job); "Unit=" +:+ base +:+ ".service"; "";
           "[Install]"; "WantedBy=multi-user.target" ].

Section Persistent.
Context {W : Type} `{!HostCommandRunner (FS * W)}.
(** [executionPlanCompiler] and [WrapperInstaller] *)
Context (compile : Job -> RunRequest -> SE (FS * W) ExecutionPlan) (install : ExecutionPlan -> SE (FS * W) string).
Context (instanceID : string).

Definition systemctl (args : list string) : SE (FS * W) CommandResult := Run (["/usr/bin/env"; "systemctl"] ++ args).

Definition removeCron (base : string) : SE (FS * W) unit :=
  view ← lift (hostFilesystemPath (PathJoin [cron_dir; base]));
  files_ (fs_Remove view).

(** [view, _ := hostFilesystemPath(logical)] *)
Definition view_of (logical : string) : string :=
  match hostFilesystemPath logical with Ok view => view | Err _ => "" end.

Definition exists_ (st : result (option file)) : bool := match st with Ok (Some _) => true | _ => false end.

Definition removeSystemd (base : string) : SE (FS * W) unit :=
  let pathView := view_of (PathJoin [systemd_dir; base +:+ ".path"]) in
  let serviceView := view_of (PathJoin [systemd_dir; base +:+ ".service"]) in
  st ← attempt (files_ (fs_Stat pathView));
  let existed := exists_ st in
  _ ← (if existed then (_ ← systemctl ["disable"; "--now"; base +:+ ".path"]; mret tt) else mret tt);
  _ ← files_ (fs_Remove pathView);
  _ ← files_ (fs_Remove serviceView);
  if existed then
    r ← systemctl ["daemon-reload"];
    lift (match CommandErr r with Some e => Err e | None => Ok tt end)
  else mret tt.

Definition systemctl_ok (what : string) (args : list string) : SE (FS * W) unit :=
  r ← systemctl args;
  lift (fail_if (negb (succeeded r)) (ErrNew (what +:+ ": " +:+ TrimSpace (Stderr r)))).

Definition applyJob (job : Job) (wrapper : string) : SE (FS * W) unit :=
  let base := persistentBase instanceID (Job_ID job) in
  if string_eqb (Job_Trigger job) TriggerCron then
    _ ← removeSystemd base;
    files_ (atomicReplaceHostFile (PathJoin [cron_dir; base]) (cron_content job wrapper) 420)
  else if string_eqb (Job_Trigger job) TriggerWatch then
    _ ← attempt (removeCron base);
    _ ← files_ (atomicReplaceHostFile (PathJoin [systemd_dir; base +:+ ".service"]) (service_content job wrapper) 420);
    _ ← files_ (atomicReplaceHostFile (PathJoin [systemd_dir; base +:+ ".path"]) (path_content job base) 420);
    _ ← systemctl_ok "systemctl daemon-reload" ["daemon-reload"];
    systemctl_ok "systemctl enable path" ["enable"; "--now"; base +:+ ".path"]
  else lift (Err (ErrNew "unsupported persistent trigger")).

(** [errors.Join] of two steps that both run. *)
Definition join_steps (m1 m2 : SE (FS * W) unit) : SE (FS * W) unit :=
  r1 ← attempt m1;
  r2 ← attempt m2;
  lift (match errors_Join [err_of r1; err_of r2] with None => Ok tt | Some e => Err e end).

Definition removeJob (id : Z) : SE (FS * W) unit :=
  let base := persistentBase instanceID id in
  join_steps (removeCron base) (removeSystemd base).

(** ** Orphans *)

Definition artifact_id (name : string) : option Z :=
  let prefix := "syncbridge-" +:+ instanceID +:+ "-" in
  if HasPrefix name prefix then Atoi (TrimSuffix (TrimSuffix (TrimPrefix name prefix) ".service") ".path") else None.

Definition artifact_ids : SE (FS * W) (gset Z) :=
  cron ← files_ (fs_ReadDir (view_of cron_dir));
  units ← files_ (fs_ReadDir (view_of systemd_dir));
  mret (list_to_set (omap artifact_id (cron ++ units))).

Fixpoint remove_jobs (ids : list Z) (errs : list goerror) : SE (FS * W) (list goerror) :=
  match ids with
  | [] => mret errs
  | id :: ids =>
      r ← attempt (removeJob id);
      remove_jobs ids
        (match r with Ok _ => errs | Err e => errs ++ [ErrWrap ("remove persistent job " +:+ Itoa id +:+ ": ") e ""] end)
  end.

(** The error of the join; [kept] holds the desired and the preserved jobs. *)
Definition removeOrphans (kept : gset Z) : SE (FS * W) (option goerror) :=
  ids ← artifact_ids;
  errs ← remove_jobs (elements (ids ∖ kept)) [];
  mret (errors_Join (Some <$> errs)).

(** ** [Reconcile] *)

(** What the loop makes of a job: not one for the host, kept in spite of an
    error, or applied. *)
Inductive verdict := Ignored | Preserved (e : goerror) | Desired.

Definition persistent_request (job : Job) : RunRequest :=
  MkRunRequest ("persistent-" +:+ Itoa (Job_ID job) +:+ "-" +:+ FormatUint (Job_Revision job))
    (Job_ID job) (Job_Revision job) RunOriginSystem false 0.

Definition host_scheduled (job : Job) : bool :=
  string_eqb (Policy_Owner (Job_Scheduler job)) SchedulerSystem && (Job_Enabled job && negb (Job_NeedsReview job)).

Definition job_error (job : Job) (what : string) (e : goerror) : goerror :=
  ErrWrap ("job " +:+ Itoa (Job_ID job) +:+ what) e "".

Definition reconcile_job (job : Job) : SE (FS * W) verdict :=
  if negb (host_scheduled job) then mret Ignored
  else if negb (string_eqb (Job_Trigger job) TriggerCron) && negb (string_eqb (Job_Trigger job) TriggerWatch)
  then mret (Preserved (ErrNew ("job " +:+ Itoa (Job_ID job) +:+ ": system scheduling requires cron or watch trigger")))
  else
    r ← attempt (compile job (persistent_request job));
    match r with
    | Err e => mret (Preserved (job_error job ": compile persistent wrapper: " e))
    | Ok plan =>
        r ← attempt (install plan);
        match r with
        | Err e => mret (Preserved (job_error job ": install persistent wrapper: " e))
        | Ok wrapper =>
            r ← attempt (applyJob job wrapper);
            match r with
            | Err e => mret (Preserved (job_error job ": apply persistent scheduler: " e))
            | Ok _ => mret Desired
            end
        end
    end.

Fixpoint reconcile_jobs (jobs : list Job) (kept : gset Z) (errs : list goerror) : SE (FS * W) (gset Z * list goerror) :=
  match jobs with
  | [] => mret (kept, errs)
  | job :: jobs =>
      v ← reconcile_job job;
      match v with
      | Ignored => reconcile_jobs jobs kept errs
      | Preserved e => reconcile_jobs jobs ({[Job_ID job]} ∪ kept) (errs ++ [e])
      | Desired => reconcile_jobs jobs ({[Job_ID job]} ∪ kept) errs
      end
  end.

Definition Reconcile (jobs : list Job) : SE (FS * W) unit :=
  st ← reconcile_jobs jobs ∅ [];
  orphans ← removeOrphans st.1;
  lift (match errors_Join ((Some <$> st.2) ++ [orphans]) with None => Ok tt | Some e => Err e end).
End Persistent.
