(* ===== verification/PersistentProofs.v ===== *)
(** * The persistent scheduler: proofs

    Where the artifacts are, what each step leaves alone, and what is there
    after a reconciliation. *)

From S2P Require Import Prelude GoStrings Model AtomicFile JobRepository HostCommand ExecutionPlan ExecutionPlanProofs.
From S2P Require Import WrapperProofs HostFiles PersistentScheduler.

(** ** The artifacts *)

Inductive artifact := CronFile | ServiceUnit | PathUnit.

Definition artifact_dir (a : artifact) : list string :=
  match a with CronFile => ["etc"; "cron.d"] | _ => ["etc"; "systemd"; "system"] end.

Definition artifact_name (inst : string) (a : artifact) (id : Z) : string :=
  match a with
  | CronFile => persistentBase inst id
  | ServiceUnit => persistentBase inst id +:+ ".service"
  | PathUnit => persistentBase inst id +:+ ".path"
  end.

(** The file of an artifact, below the root view of the host. *)
Definition view (inst : string) (a : artifact) (id : Z) : string :=
  abs_path (["proc"; "1"; "root"] ++ artifact_dir a ++ [artifact_name inst a id]).

Lemma view_dir a : Forall good_component (["proc"; "1"; "root"] ++ artifact_dir a).
Proof. destruct a; repeat constructor; done. Qed.

Section Views.
Context (inst : string).
Hypothesis inst_ok : instanceIDPattern inst = true.

Lemma base_good id : good_component (persistentBase inst id) /\ has_byte slash (persistentBase inst id) = false.
Proof.
  assert (has_byte slash (persistentBase inst id) = false) as H.
  { unfold persistentBase. destruct (instance_component inst inst_ok) as [(_ & _ & _ & Hi) _].
    rewrite !has_byte_app, Hi, Itoa_without by done. done. }
  split; [|done]. unfold persistentBase in *. by split_and!.
Qed.

Lemma name_good a id : good_component (artifact_name inst a id).
Proof.
  destruct (base_good id) as [_ H]. unfold artifact_name. destruct a; [apply base_good|..];
    (split_and!; [done..|]; by rewrite has_byte_app, H).
Qed.

Lemma view_ok a id :
  hostFilesystemPath (PathJoin [abs_path (artifact_dir a); artifact_name inst a id]) = Ok (view inst a id).
Proof.
  assert (Forall good_component (artifact_dir a)) as Hd by (destruct a; repeat constructor; done).
  pose proof (name_good a id) as Hn. rewrite PathJoin_abs; [|by destruct a|done|done].
  apply hostFilesystemPath_abs, Forall_app. split; [done|]. by constructor.
Qed.

Lemma view_joined a id :
  view inst a id = abs_path (["proc"; "1"; "root"] ++ artifact_dir a) +:+ String slash (artifact_name inst a id).
Proof. unfold view. rewrite app_assoc. by rewrite abs_path_snoc by (by destruct a). Qed.

Lemma view_permanent a id : temporary (view inst a id) = false.
Proof.
  unfold temporary. destruct (name_good a id) as (Hne & _ & _ & Hs). rewrite view_joined, Base_last by done.
  by destruct a.
Qed.

(** Different artifacts are different files. *)
Lemma view_inj a1 a2 id1 id2 :
  in_s64 id1 -> in_s64 id2 -> view inst a1 id1 = view inst a2 id2 -> a1 = a2 /\ id1 = id2.
Proof.
  intros H1 H2 H. unfold view in H. apply abs_path_inj in H;
    [|rewrite app_assoc; apply Forall_app; split; [apply view_dir|]; constructor; [apply name_good|constructor]..].
  apply app_inv_head in H.
  assert (artifact_name inst a1 id1 = artifact_name inst a2 id2) as Hn by (destruct a1, a2; cbn [artifact_dir app] in H; congruence).
  assert (forall id, has_byte "." (Itoa id) = false) as Hd by (intros; by apply Itoa_without).
  unfold artifact_name, persistentBase in Hn. destruct a1, a2; try discriminate H;
    rewrite ?app_assoc_str in Hn; do 3 apply app_inj_l in Hn.
  - split; [done|]. by apply Itoa_inj.
  - apply (f_equal (Cut ".")) in Hn. change ".service" with (String "." "service") in Hn.
    rewrite !Cut_app in Hn by done. injection Hn as Hn. split; [done|]. by apply Itoa_inj.
  - apply (f_equal (Cut ".")) in Hn. change ".service" with (String "." "service") in Hn.
    change ".path" with (String "." "path") in Hn. rewrite !Cut_app in Hn by done. discriminate Hn.
  - apply (f_equal (Cut ".")) in Hn. change ".service" with (String "." "service") in Hn.
    change ".path" with (String "." "path") in Hn. rewrite !Cut_app in Hn by done. discriminate Hn.
  - apply (f_equal (Cut ".")) in Hn. change ".path" with (String "." "path") in Hn.
    rewrite !Cut_app in Hn by done. injection Hn as Hn. split; [done|]. by apply Itoa_inj.
Qed.
End Views.

(** ** What a step leaves alone *)

Section Steps.
Context {W : Type} `{!HostCommandRunner (FS * W)}.
Implicit Types s : FS * W.

Definition leaves {A} (p : string) (m : SE (FS * W) A) : Prop :=
  forall s, fs_files (m s).2.1 !! p = fs_files s.1 !! p.

Lemma leaves_ret {A} p (a : A) : leaves p (mret a).
Proof. done. Qed.
Lemma leaves_lift {A} p (r : result A) : leaves p (lift r).
Proof. done. Qed.
Lemma leaves_bind {A B} p (m : SE (FS * W) A) (k : A -> SE (FS * W) B) :
  leaves p m -> (forall a, leaves p (k a)) -> leaves p (x ← m; k x).
Proof.
  intros Hm Hk s. specialize (Hm s). rewrite SE_bind_unfold. destruct (m s) as [[a|e] s']; [|done].
  by rewrite Hk.
Qed.
Lemma leaves_attempt {A} p (m : SE (FS * W) A) : leaves p m -> leaves p (attempt m).
Proof. intros Hm s. specialize (Hm s). unfold attempt. by destruct (m s). Qed.
Lemma leaves_hoare {A} p (m : SE FS A) :
  (forall F, hoare (fun fs => fs_files fs = F) m (fun _ fs => fs_files fs !! p = F !! p) (fun fs => fs_files fs !! p = F !! p)) ->
  leaves p (files_ (W := W) m).
Proof.
  intros Hm [fs w]. specialize (Hm (fs_files fs) fs eq_refl). unfold files_. cbn.
  by destruct (m fs) as [[a|e] fs'].
Qed.
Lemma leaves_remove p q : p <> q -> leaves p (files_ (W := W) (fs_Remove q)).
Proof.
  intros H. apply leaves_hoare. intros F. apply hoare_fs_op; [done| |by intros fs ->].
  intros fs <-. cbn. by rewrite lookup_delete_ne.
Qed.
Lemma leaves_stat p q : leaves p (files_ (W := W) (fs_Stat q)).
Proof.
  apply leaves_hoare. intros F fs <-. unfold fs_Stat. rewrite SE_bind_unfold. unfold next_outcome.
  by destruct (fs_script fs) as [|[?|?] ?].
Qed.
Lemma leaves_readdir p q : leaves p (files_ (W := W) (fs_ReadDir q)).
Proof.
  apply leaves_hoare. intros F fs <-. unfold fs_ReadDir. rewrite SE_bind_unfold. unfold next_outcome.
  by destruct (fs_script fs) as [|[?|?] ?].
Qed.
Lemma leaves_replace p logical content mode v :
  hostFilesystemPath logical = Ok v -> temporary v = false -> temporary p = false -> p <> v ->
  leaves p (files_ (W := W) (atomicReplaceHostFile logical content mode)).
Proof.
  intros Hv Hn Hp Hne. apply leaves_hoare. intros F.
  eapply hoare_weaken; [apply (atomicReplaceHostFile_hoare F _ _ _ v); [done|by left]|done|..]; cbn.
  - intros _ fs (f & _ & ->). by rewrite lookup_insert_ne.
  - intros fs Hl. by apply leftover_lookup.
Qed.

Create HintDb leavesdb.
#[local] Hint Resolve leaves_ret leaves_lift leaves_bind leaves_attempt leaves_remove leaves_stat leaves_readdir
  leaves_replace : leavesdb.

Context (compile : Job -> RunRequest -> SE (FS * W) ExecutionPlan) (install : ExecutionPlan -> SE (FS * W) string).
Context (inst : string).
Hypothesis inst_ok : instanceIDPattern inst = true.

Section Foreign.
Context (p : string).
Hypothesis p_permanent : temporary p = false.
Hypothesis run_leaves : forall argv, leaves p (Run argv).

Lemma leaves_systemctl args : leaves p (systemctl args).
Proof. apply run_leaves. Qed.

Lemma removeCron_view id : removeCron (W := W) (persistentBase inst id) = files_ (fs_Remove (view inst CronFile id)).
Proof.
  unfold removeCron. change cron_dir with (abs_path (artifact_dir CronFile)).
  change (persistentBase inst id) with (artifact_name inst CronFile id). by rewrite view_ok.
Qed.

Lemma unit_view a id :
  a <> CronFile -> PathJoin [systemd_dir; artifact_name inst a id] = PathJoin [abs_path (artifact_dir a); artifact_name inst a id].
Proof. by destruct a. Qed.

Lemma view_of_unit a id : a <> CronFile -> view_of (PathJoin [systemd_dir; artifact_name inst a id]) = view inst a id.
Proof. intros Ha. unfold view_of. by rewrite unit_view, view_ok. Qed.

Lemma leaves_removeCron id : p <> view inst CronFile id -> leaves p (removeCron (W := W) (persistentBase inst id)).
Proof. intros H. rewrite removeCron_view. by apply leaves_remove. Qed.

Lemma leaves_removeSystemd id :
  p <> view inst ServiceUnit id -> p <> view inst PathUnit id -> leaves p (removeSystemd (persistentBase inst id)).
Proof.
  intros H1 H2. unfold removeSystemd.
  pose proof (view_of_unit PathUnit id ltac:(done)) as Hp. pose proof (view_of_unit ServiceUnit id ltac:(done)) as Hs.
  cbn [artifact_name] in Hp, Hs. rewrite Hp, Hs.
  apply leaves_bind; [eauto with leavesdb|]. intros st.
  apply leaves_bind; [destruct (exists_ st); eauto using leaves_systemctl with leavesdb|]. intros ?.
  apply leaves_bind; [eauto with leavesdb|]. intros ?. apply leaves_bind; [eauto with leavesdb|]. intros ?.
  destruct (exists_ st); eauto using leaves_systemctl with leavesdb.
Qed.

Lemma leaves_removeJob id : (forall a, p <> view inst a id) -> leaves p (removeJob inst id).
Proof.
  intros H. unfold removeJob, join_steps.
  eauto 8 using leaves_removeCron, leaves_removeSystemd with leavesdb.
Qed.

Lemma leaves_artifact a id content mode :
  p <> view inst a id ->
  leaves p (files_ (W := W) (atomicReplaceHostFile (PathJoin [abs_path (artifact_dir a); artifact_name inst a id]) content mode)).
Proof. intros H. eapply leaves_replace; [by apply view_ok|by apply view_permanent|done|done]. Qed.

Lemma leaves_applyJob job wrapper :
  (forall a, p <> view inst a (Job_ID job)) -> leaves p (applyJob inst job wrapper).
Proof.
  intros H. unfold applyJob. destruct (string_eqb _ TriggerCron).
  { apply leaves_bind; [by apply leaves_removeSystemd|]. intros ?. by apply (leaves_artifact CronFile). }
  destruct (string_eqb _ TriggerWatch); [|apply leaves_lift].
  apply leaves_bind; [apply leaves_attempt; by apply leaves_removeCron|]. intros ?.
  apply leaves_bind; [by apply (leaves_artifact ServiceUnit)|]. intros ?.
  apply leaves_bind; [by apply (leaves_artifact PathUnit)|]. intros ?.
  apply leaves_bind; [|intros ?]; unfold systemctl_ok; eauto using leaves_systemctl with leavesdb.
Qed.

Hypothesis compile_leaves : forall job request, leaves p (compile job request).
Hypothesis install_leaves : forall plan, leaves p (install plan).

Lemma leaves_reconcile_job job :
  (forall a, p <> view inst a (Job_ID job)) -> leaves p (reconcile_job compile install inst job).
Proof.
  intros H. unfold reconcile_job. destruct (negb (host_scheduled job)); [apply leaves_ret|].
  destruct (negb _ && _); [apply leaves_ret|].
  apply leaves_bind; [eauto with leavesdb|]. intros [plan|e]; [|apply leaves_ret].
  apply leaves_bind; [eauto with leavesdb|]. intros [wrapper|e]; [|apply leaves_ret].
  apply leaves_bind; [apply leaves_attempt; by apply leaves_applyJob|]. intros [?|?]; apply leaves_ret.
Qed.

Lemma leaves_reconcile_jobs jobs : (forall job a, job ∈ jobs -> p <> view inst a (Job_ID job)) ->
  forall kept errs, leaves p (reconcile_jobs compile install inst jobs kept errs).
Proof.
  induction jobs as [|job jobs IH]; intros H kept errs; [apply leaves_ret|]. cbn [reconcile_jobs].
  apply leaves_bind; [apply leaves_reconcile_job; intros ?; apply H; by left|].
  intros []; apply IH; intros job' a Hj; apply H; by right.
Qed.

Lemma leaves_remove_jobs ids : (forall id a, id ∈ ids -> p <> view inst a id) ->
  forall errs, leaves p (remove_jobs inst ids errs).
Proof.
  induction ids as [|id ids IH]; intros H errs; [apply leaves_ret|]. cbn [remove_jobs].
  apply leaves_bind; [apply leaves_attempt, leaves_removeJob; intros ?; apply H; by left|].
  intros ?; apply IH; intros id' a' Hi; apply H; by right.
Qed.

Lemma leaves_ids : leaves p (artifact_ids (W := W) inst).
Proof. unfold artifact_ids. eauto 8 with leavesdb. Qed.

Lemma leaves_Reconcile jobs : (forall a id, p <> view inst a id) -> leaves p (Reconcile compile install inst jobs).
Proof.
  intros H. unfold Reconcile. apply leaves_bind; [by apply leaves_reconcile_jobs|]. intros st.
  apply leaves_bind; [|intros ?; apply leaves_lift]. unfold removeOrphans.
  apply leaves_bind; [apply leaves_ids|]. intros ids. apply leaves_bind; [by apply leaves_remove_jobs|].
  intros ?. apply leaves_ret.
Qed.
End Foreign.

(** ** On a file system that works *)

Definition data_at s (a : artifact) (id : Z) : option string := file_data <$> fs_files s.1 !! view inst a id.

(** What the host has for a job: its cron file, its service and its path unit. *)
Definition artifacts s (id : Z) : option string * option string * option string :=
  (data_at s CronFile id, data_at s ServiceUnit id, data_at s PathUnit id).

Definition same s s' : Prop := forall a id, fs_files s'.1 !! view inst a id = fs_files s.1 !! view inst a id.

(** Compiling, installing and running commands may change anything but the
    artifacts. *)
Definition tame {A} (m : SE (FS * W) A) : Prop :=
  (forall a id, leaves (view inst a id) m) /\ (forall s, working s.1 -> working (m s).2.1).

Lemma same_artifacts' s s' id :
  (forall a, fs_files s'.1 !! view inst a id = fs_files s.1 !! view inst a id) -> artifacts s' id = artifacts s id.
Proof. intros H. unfold artifacts, data_at. by rewrite !H. Qed.
Lemma same_artifacts s s' id : same s s' -> artifacts s' id = artifacts s id.
Proof. intros H. unfold artifacts, data_at. by rewrite !H. Qed.
Lemma same_trans s1 s2 s3 : same s1 s2 -> same s2 s3 -> same s1 s3.
Proof. intros H1 H2 a id. by rewrite H2, H1. Qed.

Lemma tame_run {A} (m : SE (FS * W) A) s : tame m -> working s.1 -> working (m s).2.1 /\ same s (m s).2.
Proof. intros [H1 H2] Hs. split; [by apply H2|]. intros a id. apply H1. Qed.
Lemma tame_ret {A} (r : result A) : tame (lift r).
Proof. done. Qed.
Lemma tame_bind {A B} (m : SE (FS * W) A) (k : A -> SE (FS * W) B) :
  tame m -> (forall a, tame (k a)) -> tame (x ← m; k x).
Proof.
  intros [Hm1 Hm2] Hk. split; [intros a id; apply leaves_bind; [apply Hm1|intros x; apply Hk]|].
  intros s H. specialize (Hm2 s H). rewrite SE_bind_unfold. destruct (m s) as [[a|e] s']; [by apply Hk|done].
Qed.

(** Removing a file, and stat, on such a file system. *)
Lemma files_remove q s : working s.1 -> temporary q = false ->
  exists s', files_ (W := W) (fs_Remove q) s = (Ok tt, s') /\ working s'.1 /\ fs_files s'.1 = delete q (fs_files s.1).
Proof.
  destruct s as [fs w]. intros [Hs Hc] Hq. eexists. unfold files_, fs_Remove. cbn in *. rewrite works_op by done.
  split; [done|]. split; [|done]. split; [done|]. intros path Hp. cbn. rewrite lookup_delete_ne by congruence. by apply Hc.
Qed.

Lemma files_stat q s : working s.1 -> files_ (W := W) (fs_Stat q) s = (Ok (fs_files s.1 !! q), s).
Proof. destruct s as [fs w]. intros [Hs _]. unfold files_. cbn in *. by rewrite works_stat. Qed.

Lemma files_replace a id content mode s : working s.1 ->
  exists s', files_ (W := W) (atomicReplaceHostFile (PathJoin [abs_path (artifact_dir a); artifact_name inst a id]) content mode) s
             = (Ok tt, s') /\ working s'.1 /\ data_at s' a id = Some content.
Proof.
  destruct s as [fs w]. intros Hw.
  destruct (atomicReplaceHostFile_works _ content mode _ fs (view_ok inst inst_ok a id) (view_permanent inst inst_ok a id) Hw)
    as (f & fs' & Hr & Hw' & Hd & Hf).
  exists (fs', w). unfold files_. cbn. rewrite Hr. split; [done|]. split; [done|]. unfold data_at. cbn.
  by rewrite Hf, lookup_insert_eq, <-Hd.
Qed.

Section Working.
Hypothesis run_tame : forall argv, tame (Run argv).
Hypothesis compile_tame : forall job request, tame (compile job request).
Hypothesis install_tame : forall plan, tame (install plan).

Lemma disabled (b : bool) args s : working s.1 ->
  exists s', (if b then (_ ← systemctl (W := W) args; mret tt) else mret tt) s = (Ok tt, s') /\ working s'.1 /\ same s s'.
Proof.
  intros H. destruct b; [|by exists s].
  destruct (tame_run _ s (run_tame (["/usr/bin/env"; "systemctl"] ++ args)) H) as [H1 H2]. unfold systemctl.
  destruct (Run_total (["/usr/bin/env"; "systemctl"] ++ args) s) as (r & s' & Hr). exists s'. rewrite Hr in H1, H2.
  split; [|done]. by rewrite SE_bind_unfold, Hr.
Qed.

Lemma removeSystemd_effect id s : in_s64 id -> working s.1 ->
  exists r s', removeSystemd (persistentBase inst id) s = (r, s') /\ working s'.1 /\
    artifacts s' id = (data_at s CronFile id, None, None).
Proof.
  intros Hid Hw. unfold removeSystemd.
  pose proof (view_of_unit PathUnit id ltac:(done)) as Hp. pose proof (view_of_unit ServiceUnit id ltac:(done)) as Hs.
  cbn [artifact_name] in Hp, Hs. rewrite Hp, Hs. set (pv := view inst PathUnit id). set (sv := view inst ServiceUnit id).
  rewrite (bind_step (attempt _) _ _ (Ok (fs_files s.1 !! pv)) s) by (unfold attempt; by rewrite files_stat).
  set (b := exists_ _).
  destruct (disabled b ["disable"; "--now"; persistentBase inst id +:+ ".path"] s Hw) as (s1 & E1 & Hw1 & H1).
  rewrite (bind_step _ _ _ _ _ E1).
  destruct (files_remove pv s1 Hw1) as (s2 & E2 & Hw2 & H2); [by apply view_permanent|]. rewrite (bind_step _ _ _ _ _ E2).
  destruct (files_remove sv s2 Hw2) as (s3 & E3 & Hw3 & H3); [by apply view_permanent|]. rewrite (bind_step _ _ _ _ _ E3).
  assert (artifacts s3 id = (data_at s CronFile id, None, None)) as Ha.
  { assert (forall a, a <> CronFile -> view inst CronFile id <> view inst a id) as Hne.
    { intros a Ha E. by apply (view_inj inst inst_ok) in E as [<- _]. }
    assert (sv <> pv) as Hsp by (intros E; by apply (view_inj inst inst_ok) in E as [? _]).
    unfold artifacts, data_at. fold pv sv. rewrite H3, H2. rewrite !lookup_delete_eq, (lookup_delete_ne _ sv pv) by done.
    rewrite !lookup_delete_eq, !lookup_delete_ne by by apply not_eq_sym, Hne. by rewrite H1. }
  assert (tame (if b then (r ← systemctl (W := W) ["daemon-reload"];
    lift (match CommandErr r with Some e => Err e | None => Ok tt end)) else mret tt)) as Ht.
  { destruct b; [|apply (tame_ret (Ok tt))]. apply tame_bind; [apply run_tame|]. intros r. apply tame_ret. }
  match type of Ht with tame ?m => set (fin := m) in * end.
  apply (tame_run fin s3) in Ht; [|done]. destruct (fin s3) as [r s4]. destruct Ht as [Hw4 H4]. exists r, s4.
  split; [done|]. split; [done|]. by rewrite (same_artifacts s3 s4) by done.
Qed.

Definition wanted (job : Job) (wrapper : string) : option string * option string * option string :=
  if string_eqb (Job_Trigger job) TriggerCron then (Some (cron_content job wrapper), None, None)
  else (None, Some (service_content job wrapper), Some (path_content job (persistentBase inst (Job_ID job)))).

Lemma replace_others a b id content mode s s' r : in_s64 id -> b <> a ->
  files_ (W := W) (atomicReplaceHostFile (PathJoin [abs_path (artifact_dir a); artifact_name inst a id]) content mode) s = (r, s') ->
  data_at s' b id = data_at s b id.
Proof.
  intros Hid Hne H.
  pose proof (leaves_artifact (view inst b id) (view_permanent inst inst_ok b id) a id content mode) as Hl.
  specialize (Hl ltac:(intros E; by apply (view_inj inst inst_ok) in E as [<- _]) s). rewrite H in Hl.
  unfold data_at. f_equal. exact Hl.
Qed.

Lemma applyJob_effect job wrapper s : in_s64 (Job_ID job) -> working s.1 ->
  string_eqb (Job_Trigger job) TriggerCron = true \/ string_eqb (Job_Trigger job) TriggerWatch = true ->
  exists r s', applyJob inst job wrapper s = (r, s') /\ working s'.1 /\
    (artifacts s' (Job_ID job) = wanted job wrapper \/
     is_Ok r = false /\ string_eqb (Job_Trigger job) TriggerCron = true /\
     artifacts s' (Job_ID job) = (data_at s CronFile (Job_ID job), None, None)).
Proof.
  intros Hid Hw Htr. unfold applyJob, wanted. destruct (string_eqb (Job_Trigger job) TriggerCron) eqn:Ec.
  - destruct (removeSystemd_effect (Job_ID job) s Hid Hw) as (r & s1 & E1 & Hw1 & H1). rewrite SE_bind_unfold, E1.
    destruct r as [u|e]; [|eexists _, s1; split; [done|]; split; [done|]; by right].
    destruct (files_replace CronFile (Job_ID job) (cron_content job wrapper) 420 s1 Hw1) as (s2 & E2 & Hw2 & H2).
    exists (Ok tt), s2. split; [exact E2|]. split; [done|]. left. unfold artifacts in *. injection H1 as _ Hs Hp.
    by rewrite (replace_others CronFile ServiceUnit _ _ _ _ _ _ Hid ltac:(done) E2),
      (replace_others CronFile PathUnit _ _ _ _ _ _ Hid ltac:(done) E2), H2, Hs, Hp.
  - destruct Htr as [|Ht]; [done|]. rewrite Ht.
    destruct (files_remove (view inst CronFile (Job_ID job)) s Hw) as (s1 & E1 & Hw1 & H1); [by apply view_permanent|].
    rewrite (bind_step (attempt _) _ s (Ok tt) s1) by (unfold attempt; by rewrite removeCron_view, E1).
    destruct (files_replace ServiceUnit (Job_ID job) (service_content job wrapper) 420 s1 Hw1) as (s2 & E2 & Hw2 & H2).
    rewrite (bind_step _ _ _ _ _ E2).
    destruct (files_replace PathUnit (Job_ID job) (path_content job (persistentBase inst (Job_ID job))) 420 s2 Hw2)
      as (s3 & E3 & Hw3 & H3).
    rewrite (bind_step _ _ _ _ _ E3).
    match goal with |- context [?m s3 = _] => set (fin := m) end.
    assert (tame fin) as Hf.
    { unfold fin, systemctl_ok. repeat (apply tame_bind; [|intros ?]); first [apply run_tame|apply tame_ret]. }
    apply (tame_run fin s3) in Hf; [|done]. destruct (fin s3) as [r s4]. destruct Hf as [Hw4 H4].
    exists r, s4. split; [done|]. split; [done|]. left. rewrite (same_artifacts s3 s4) by done. unfold artifacts.
    rewrite (replace_others PathUnit CronFile _ _ _ _ _ _ Hid ltac:(done) E3),
      (replace_others ServiceUnit CronFile _ _ _ _ _ _ Hid ltac:(done) E2), (replace_others PathUnit ServiceUnit _ _ _ _ _ _ Hid ltac:(done) E3),
      H2, H3.
    unfold data_at. by rewrite H1, lookup_delete_eq.
Qed.

Lemma removeJob_effect id s : in_s64 id -> working s.1 ->
  exists r s', removeJob inst id s = (r, s') /\ working s'.1 /\ artifacts s' id = (None, None, None).
Proof.
  intros Hid Hw. unfold removeJob, join_steps.
  destruct (files_remove (view inst CronFile id) s Hw) as (s1 & E1 & Hw1 & H1); [by apply view_permanent|].
  rewrite (bind_step (attempt _) _ s (Ok tt) s1) by (unfold attempt; by rewrite removeCron_view, E1).
  destruct (removeSystemd_effect id s1 Hid Hw1) as (r & s2 & E2 & Hw2 & H2).
  rewrite (bind_step (attempt _) _ s1 r s2) by (unfold attempt; by rewrite E2).
  eexists _, s2. split; [done|]. split; [done|]. rewrite H2. unfold data_at. by rewrite H1, lookup_delete_eq.
Qed.

(** *** The jobs *)

(** The compiler and the installer produced this wrapper for the job. *)
Definition installed (job : Job) (wrapper : string) : Prop :=
  exists plan t t1 t2, compile job (persistent_request job) t = (Ok plan, t1) /\ install plan t1 = (Ok wrapper, t2).

(** What a job for the host ends with: its artifacts, or, with an error, what
    it had, but for the units of a former watch. *)
Definition job_fate (job : Job) s s' (ok : Prop) : Prop :=
  (exists wrapper, installed job wrapper /\ artifacts s' (Job_ID job) = wanted job wrapper) \/
  ~ ok /\ (artifacts s' (Job_ID job) = artifacts s (Job_ID job) \/
           Job_Trigger job = TriggerCron /\
           artifacts s' (Job_ID job) = ((artifacts s (Job_ID job)).1.1, None, None)).

Lemma same_others {A} (m : SE (FS * W) A) id s r s' :
  (forall a, leaves (view inst a id) m) -> m s = (r, s') -> artifacts s' id = artifacts s id.
Proof. intros H E. apply same_artifacts'. intros a. specialize (H a s). by rewrite E in H. Qed.

Lemma other_view id1 id2 a b : in_s64 id1 -> in_s64 id2 -> id1 <> id2 -> view inst a id1 <> view inst b id2.
Proof. intros H1 H2 Hne E. by apply (view_inj inst inst_ok) in E as [_ ?]. Qed.

Lemma reconcile_job_effect job s : in_s64 (Job_ID job) -> working s.1 ->
  exists v s', reconcile_job compile install inst job s = (Ok v, s') /\ working s'.1 /\
    match v with
    | Ignored => host_scheduled job = false /\ artifacts s' (Job_ID job) = artifacts s (Job_ID job)
    | Preserved _ => host_scheduled job = true /\ job_fate job s s' False
    | Desired => host_scheduled job = true /\ job_fate job s s' True
    end.
Proof.
  intros Hid Hw. unfold reconcile_job. destruct (host_scheduled job); cbn [negb]; [|by exists Ignored, s].
  destruct (_ && _) eqn:Ht.
  { eexists (Preserved _), s. split; [done|]. split; [done|]. split; [done|]. right. split; [tauto|by left]. }
  assert (string_eqb (Job_Trigger job) TriggerCron = true \/ string_eqb (Job_Trigger job) TriggerWatch = true) as Htr.
  { apply andb_false_iff in Ht as [Ht|Ht]; apply negb_false_iff in Ht; tauto. }
  pose proof (tame_run _ s (compile_tame job (persistent_request job)) Hw) as [Hw1 H1].
  destruct (compile job (persistent_request job) s) as [[plan|e] s1] eqn:E1;
    (rewrite (bind_step (attempt _) _ s _ s1) by (unfold attempt; by rewrite E1)).
  2: { eexists (Preserved _), s1. split; [done|]. split; [done|]. split; [done|]. right. split; [tauto|left].
       by apply same_artifacts. }
  pose proof (tame_run _ s1 (install_tame plan) Hw1) as [Hw2 H2].
  destruct (install plan s1) as [[wrapper|e] s2] eqn:E2;
    (rewrite (bind_step (attempt _) _ s1 _ s2) by (unfold attempt; by rewrite E2)).
  2: { eexists (Preserved _), s2. split; [done|]. split; [done|]. split; [done|]. right. split; [tauto|left].
       apply same_artifacts. by eapply same_trans. }
  destruct (applyJob_effect job wrapper s2 Hid Hw2 Htr) as (r & s3 & E3 & Hw3 & H3).
  rewrite (bind_step (attempt _) _ s2 r s3) by (unfold attempt; by rewrite E3).
  assert (forall ok : Prop, (is_Ok r = false -> ~ ok) -> job_fate job s s3 ok) as Hfate.
  { intros ok Hok. destruct H3 as [H3|(Hr & Hc & H3)].
    - left. exists wrapper. split; [|done]. by exists plan, s, s1, s2.
    - right. split; [by apply Hok|right]. split; [by apply string_eqb_true|]. rewrite H3. f_equal. f_equal.
      unfold data_at, artifacts. cbn. unfold data_at. by rewrite H2, H1. }
  destruct r as [u|e]; [exists Desired, s3|eexists (Preserved _), s3];
    (split; [done|]; split; [done|]; split; [done|]; apply Hfate; [done||tauto]).
Qed.

Lemma reconcile_job_others job id s r s' : in_s64 (Job_ID job) -> in_s64 id -> id <> Job_ID job ->
  reconcile_job compile install inst job s = (r, s') -> artifacts s' id = artifacts s id.
Proof.
  intros Hj Hid Hne. apply same_others. intros a.
  apply leaves_reconcile_job; [by apply view_permanent|intros argv; apply run_tame|intros; apply compile_tame|
    intros; apply install_tame|]. intros b. by apply other_view.
Qed.

Definition scheduled_in (jobs : list Job) (id : Z) : Prop :=
  exists job, job ∈ jobs /\ Job_ID job = id /\ host_scheduled job = true.

Lemma fate_start job s0 s s' ok :
  artifacts s (Job_ID job) = artifacts s0 (Job_ID job) -> job_fate job s s' ok -> job_fate job s0 s' ok.
Proof. intros H [?|[? Ht]]; [by left|right]. split; [done|]. by rewrite <-H. Qed.

Lemma fate_end job s s1 s2 (ok1 ok2 : Prop) :
  artifacts s2 (Job_ID job) = artifacts s1 (Job_ID job) -> (ok2 -> ok1) -> job_fate job s s1 ok1 -> job_fate job s s2 ok2.
Proof.
  intros H Hok [(wrapper & Hi & Ha)|[Hn Ht]].
  - left. exists wrapper. by rewrite H.
  - right. split; [by auto|]. by rewrite H.
Qed.

Lemma scheduled_cons job jobs id :
  scheduled_in (job :: jobs) id <-> (host_scheduled job = true /\ id = Job_ID job) \/ scheduled_in jobs id.
Proof.
  split.
  - intros (j & [->|Hj]%elem_of_cons & <- & Hh); [by left|right; by exists j].
  - intros [[Hs ->]|(j & Hj & <- & Hh)]; [exists job|exists j]; (split; [|by split]); [by left|by right].
Qed.

Lemma reconcile_jobs_effect jobs : NoDup (map Job_ID jobs) -> Forall (fun job => in_s64 (Job_ID job)) jobs ->
  forall s kept errs, working s.1 ->
  exists kept' es s', reconcile_jobs compile install inst jobs kept errs s = (Ok (kept', errs ++ es), s') /\ working s'.1 /\
    (forall id, id ∈ kept' <-> id ∈ kept \/ scheduled_in jobs id) /\
    (forall id, in_s64 id -> ~ scheduled_in jobs id -> artifacts s' id = artifacts s id) /\
    (forall job, job ∈ jobs -> host_scheduled job = true -> job_fate job s s' (es = [])).
Proof.
  induction jobs as [|job jobs IH]; intros Hnd Hin s kept errs Hw.
  { exists kept, [], s. rewrite app_nil_r. split_and!; [done|done| |done|].
    - intros id. split; [by left|]. intros [?|(? & Hj & _)]; [done|]. by apply not_elem_of_nil in Hj.
    - intros job Hj. by apply not_elem_of_nil in Hj. }
  apply NoDup_cons in Hnd as [Hn1 Hnd]. apply Forall_cons in Hin as [Hid Hin].
  destruct (reconcile_job_effect job s Hid Hw) as (v & s1 & E1 & Hw1 & Hv).
  cbn [reconcile_jobs]. rewrite (bind_step _ _ _ _ _ E1).
  assert (forall id, in_s64 id -> id <> Job_ID job -> artifacts s1 id = artifacts s id) as Hoth
    by (intros id H1 H2; by eapply reconcile_job_others).
  assert (forall id, scheduled_in jobs id -> id <> Job_ID job) as Hne.
  { intros id (j & Hj & <- & _) E. apply Hn1. rewrite <-E. by apply (list_elem_of_fmap_2 Job_ID jobs j). }
  assert (forall kept1 errs1 (sched : Prop), (host_scheduled job = true <-> sched) ->
    (forall id, id ∈ kept1 <-> id ∈ kept \/ (sched /\ id = Job_ID job)) ->
    (sched -> job_fate job s s1 (errs1 = [])) ->
    (~ sched -> artifacts s1 (Job_ID job) = artifacts s (Job_ID job)) ->
    exists kept' es s', reconcile_jobs compile install inst jobs kept1 (errs ++ errs1) s1 = (Ok (kept', errs ++ es), s') /\
      working s'.1 /\ (forall id, id ∈ kept' <-> id ∈ kept \/ scheduled_in (job :: jobs) id) /\
      (forall id, in_s64 id -> ~ scheduled_in (job :: jobs) id -> artifacts s' id = artifacts s id) /\
      (forall j, j ∈ job :: jobs -> host_scheduled j = true -> job_fate j s s' (es = []))) as Hgo.
  { intros kept1 errs1 sched Hsched Hkept Hfate Hskip.
    destruct (IH Hnd Hin s1 kept1 (errs ++ errs1) Hw1) as (kept' & es & s' & E & Hw' & Hk & Ha & Hf).
    exists kept', (errs1 ++ es), s'. rewrite app_assoc. split; [done|]. split; [done|].
    assert (artifacts s' (Job_ID job) = artifacts s1 (Job_ID job)) as Hlast.
    { apply Ha; [done|]. intros Hj. by apply Hne in Hj. }
    split; [|split].
    - intros id. rewrite Hk, Hkept, scheduled_cons, Hsched. tauto.
    - intros id H1 H2. rewrite scheduled_cons, Hsched in H2. destruct (decide (id = Job_ID job)) as [->|Hd].
      + rewrite Hlast. apply Hskip. tauto.
      + rewrite Ha by tauto. by apply Hoth.
    - intros j [->|Hj]%elem_of_cons Hh.
      + apply (fate_end _ _ s1 _ (errs1 = [])); [done|by intros [? ?]%app_nil|]. by apply Hfate, Hsched.
      + assert (scheduled_in jobs (Job_ID j)) as Hj' by by exists j.
        apply (fate_start _ _ s1); [apply Hoth; [|by apply Hne]|].
        * by apply (proj1 (Forall_forall _ _) Hin).
        * apply (fate_end _ _ s' _ (es = [])); [done|by intros [? ?]%app_nil|by apply Hf]. }
  destruct v as [|e|].
  - destruct Hv as [Hv1 Hv2]. destruct (Hgo kept [] False) as (kept' & es & s' & H); [by rewrite Hv1|set_solver|done|done|].
    exists kept', es, s'. by rewrite app_nil_r in H.
  - destruct Hv as [Hv1 Hv2]. apply (Hgo _ [e] True); [by rewrite Hv1|set_solver| |done].
    intros _. by apply (fate_end _ _ s1 _ False).
  - destruct Hv as [Hv1 Hv2].
    destruct (Hgo ({[Job_ID job]} ∪ kept) [] True) as (kept' & es & s' & H); [by rewrite Hv1|set_solver| |done|].
    + intros _. by apply (fate_end _ _ s1 _ True).
    + exists kept', es, s'. by rewrite app_nil_r in H.
Qed.

(** *** The orphans *)

Lemma no_service (t : string) : HasSuffix (t +:+ ".path") ".service" = false.
Proof.
  induction t as [|c t IH]; [done|]. rewrite app_cons. cbn [HasSuffix]. rewrite IH, orb_false_r.
  apply string_eqb_false. intros E. injection E as _ E.
  destruct t as [|c1 [|c2 [|c3 t]]]; [done..|]. injection E as _ _ _ E.
  apply (f_equal String.length) in E. rewrite length_app_str in E. cbn in E. lia.
Qed.

Lemma artifact_id_name a id : in_s64 id -> artifact_id inst (artifact_name inst a id) = Some id.
Proof.
  intros Hid. unfold artifact_id.
  assert (forall ext, artifact_id inst (persistentBase inst id +:+ ext) =
    Atoi (TrimSuffix (TrimSuffix (Itoa id +:+ ext) ".service") ".path")) as H.
  { intros ext. unfold artifact_id, persistentBase.
    replace (("syncbridge-" +:+ inst +:+ "-" +:+ Itoa id) +:+ ext)
      with (("syncbridge-" +:+ inst +:+ "-") +:+ Itoa id +:+ ext) by (by rewrite !app_assoc_str).
    by rewrite HasPrefix_app, TrimPrefix_app. }
  assert (forall c ext, TrimSuffix (Itoa id) (String "." (String c ext)) = Itoa id) as Ht.
  { intros c ext. destruct (TrimSuffix_cases (Itoa id) (String "." (String c ext))) as [E|[_ E]]; [|done].
    pose proof (Itoa_without "." id eq_refl ltac:(done)) as Hd. rewrite E in Hd. by rewrite has_byte_app, orb_true_r in Hd. }
  destruct a; unfold artifact_name.
  - specialize (H ""). rewrite !app_empty_r in H. unfold artifact_id in H. rewrite H.
    rewrite !Ht. by apply Atoi_Itoa.
  - specialize (H ".service"). unfold artifact_id in H. rewrite H, TrimSuffix_app, Ht. by apply Atoi_Itoa.
  - specialize (H ".path"). unfold artifact_id in H. rewrite H.
    destruct (TrimSuffix_cases (Itoa id +:+ ".path") ".service") as [E|[_ E]].
    + exfalso. assert (HasSuffix (Itoa id +:+ ".path") ".service" = true) as Hs by (apply HasSuffix_iff; by eexists).
      by rewrite no_service in Hs.
    + rewrite E, TrimSuffix_app. by apply Atoi_Itoa.
Qed.

Lemma removeJob_others id id' s r s' : in_s64 id -> in_s64 id' -> id' <> id ->
  removeJob inst id s = (r, s') -> artifacts s' id' = artifacts s id'.
Proof.
  intros H H' Hne. apply same_others. intros a.
  apply leaves_removeJob; [intros argv; apply run_tame|]. intros b. by apply other_view.
Qed.

Lemma remove_jobs_effect ids : Forall in_s64 ids -> NoDup ids -> forall s errs, working s.1 ->
  exists errs' s', remove_jobs inst ids errs s = (Ok errs', s') /\ working s'.1 /\
    (forall id, id ∈ ids -> artifacts s' id = (None, None, None)) /\
    (forall id, in_s64 id -> id ∉ ids -> artifacts s' id = artifacts s id).
Proof.
  induction 1 as [|id ids Hid Hin IH]; intros Hnd s errs Hw.
  { exists errs, s. split_and!; [done|done| |done]. intros id Hi. by apply not_elem_of_nil in Hi. }
  apply NoDup_cons in Hnd as [Hn Hnd]. destruct (removeJob_effect id s Hid Hw) as (r & s1 & E1 & Hw1 & H1).
  cbn [remove_jobs]. rewrite (bind_step (attempt _) _ s r s1) by (unfold attempt; by rewrite E1).
  match goal with |- context [remove_jobs inst ids ?es s1] => destruct (IH Hnd s1 es Hw1) as (errs' & s' & E & Hw' & Hr & Ho) end.
  exists errs', s'. split_and!; [done|done|..].
  - intros id' [->|Hi]%elem_of_cons; [|by apply Hr]. by rewrite Ho.
  - intros id' Hi [Hne Hni]%not_elem_of_cons. rewrite Ho by done.
    by apply (removeJob_others id id' s r s1).
Qed.

Lemma artifact_listed a id f s : working s.1 -> in_s64 id -> fs_files s.1 !! view inst a id = Some f ->
  exists ids, artifact_ids (W := W) inst s = (Ok ids, s) /\ id ∈ ids.
Proof.
  destruct s as [fs w]. intros [Hs _] Hid Hf. unfold artifact_ids, files_. cbn in *.
  rewrite !SE_bind_unfold. cbn. rewrite works_readdir by done. cbn. rewrite SE_bind_unfold. cbn. rewrite works_readdir by done. cbn.
  eexists. split; [done|]. apply elem_of_list_to_set, list_elem_of_omap. exists (artifact_name inst a id).
  split; [|by apply artifact_id_name]. apply elem_of_app. destruct (name_good inst inst_ok a id) as (Hne & _ & _ & Hsl).
  rewrite view_joined in Hf. apply names_in_elem in Hf; [|done..]. destruct a; [left|right; exact Hf..]. exact Hf.
Qed.

Lemma listed_ids s : working s.1 -> exists ids, artifact_ids (W := W) inst s = (Ok ids, s) /\ forall id, id ∈ ids -> in_s64 id.
Proof.
  destruct s as [fs w]. intros [Hs _]. unfold artifact_ids, files_. cbn in *.
  rewrite !SE_bind_unfold. cbn. rewrite works_readdir by done. cbn. rewrite SE_bind_unfold. cbn. rewrite works_readdir by done. cbn.
  eexists. split; [done|]. intros id (name & _ & Hn)%elem_of_list_to_set%list_elem_of_omap. unfold artifact_id in Hn.
  destruct (HasPrefix _ _); [|done]. by apply Atoi_range in Hn.
Qed.

Lemma removeOrphans_effect kept s : working s.1 ->
  exists e s', removeOrphans inst kept s = (Ok e, s') /\ working s'.1 /\
    forall id, in_s64 id -> artifacts s' id = if bool_decide (id ∈ kept) then artifacts s id else (None, None, None).
Proof.
  intros Hw. unfold removeOrphans. destruct (listed_ids s Hw) as (ids & E1 & Hids). rewrite (bind_step _ _ _ _ _ E1).
  destruct (remove_jobs_effect (elements (ids ∖ kept))) with (s := s) (errs := @nil goerror)
    as (errs & s' & E2 & Hw' & Hr & Ho); [|apply NoDup_elements|done|].
  { apply Forall_forall. intros id Hi. apply Hids. set_solver. }
  rewrite (bind_step _ _ _ _ _ E2). eexists _, s'. split; [done|]. split; [done|]. intros id Hid.
  destruct (decide (id ∈ ids ∖ kept)) as [Hi|Hi].
  - rewrite bool_decide_eq_false_2 by set_solver. apply Hr. by apply elem_of_elements.
  - rewrite Ho by (done || by rewrite elem_of_elements). case_bool_decide as Hk; [done|].
    assert (id ∉ ids) as Hni by set_solver.
    assert (forall a, data_at s a id = None) as Hnone.
    { intros a. unfold data_at. destruct (fs_files s.1 !! view inst a id) as [f|] eqn:Ef; [|done]. exfalso.
      destruct (artifact_listed a id f s Hw Hid Ef) as (ids' & E1' & Hi'). rewrite E1 in E1'. by injection E1' as <-. }
    unfold artifacts. by rewrite !Hnone.
Qed.

Lemma Reconcile_artifacts jobs s :
  NoDup (map Job_ID jobs) -> Forall (fun job => in_s64 (Job_ID job)) jobs -> working s.1 ->
  let (r, s') := Reconcile compile install inst jobs s in
  working s'.1 /\
  (forall job, job ∈ jobs -> host_scheduled job = true -> job_fate job s s' (is_Ok r = true)) /\
  (forall id, in_s64 id -> ~ scheduled_in jobs id -> artifacts s' id = (None, None, None)).
Proof.
  intros Hnd Hin Hw. unfold Reconcile.
  destruct (reconcile_jobs_effect jobs Hnd Hin s ∅ [] Hw) as (kept & es & s1 & E1 & Hw1 & Hk & _ & Hf).
  rewrite (bind_step _ _ _ _ _ E1). cbn [fst snd app].
  destruct (removeOrphans_effect kept s1 Hw1) as (e & s2 & E2 & Hw2 & Ha). rewrite (bind_step _ _ _ _ _ E2).
  unfold lift. split; [done|]. split.
  - intros job Hj Hh. assert (in_s64 (Job_ID job)) as Hid by by apply (proj1 (Forall_forall _ _) Hin).
    apply (fate_end _ _ s1 _ (es = [])); [|  |by apply Hf].
    + rewrite Ha by done. rewrite bool_decide_eq_true_2; [done|]. apply Hk. right. by exists job.
    + intros Hok. destruct (errors_Join _) eqn:He; [done|]. apply errors_Join_None in He.
      apply Forall_app in He as [He _]. destruct es as [|x es]; [done|]. by apply Forall_cons in He as [? _].
  - intros id Hid Hns. rewrite Ha by done. rewrite bool_decide_eq_false_2; [done|]. rewrite Hk. set_solver.
Qed.
End Working.
End Steps.

(** ** Properties *)

(** C14: the persistent scheduler makes the host follow the jobs.  On a file
    system that works, and whatever compiling, installing and [systemctl] answer,
    after a reconciliation every job that is enabled, reviewed and owned by the
    system has exactly the cron file, or the service and the path unit, of its
    revision with the wrapper that was installed for it; a job that fails keeps
    what it had (but for the units of a former watch), and then an error is
    returned; and no other job of the instance has any artifact. *)
Theorem persistent_follows_jobs {W} `{!HostCommandRunner (FS * W)} compile install inst jobs (s : FS * W) :
  instanceIDPattern inst = true ->
  (forall argv, tame inst (Run argv)) -> (forall job request, tame inst (compile job request)) ->
  (forall plan, tame inst (install plan)) ->
  NoDup (map Job_ID jobs) -> Forall (fun job => in_s64 (Job_ID job)) jobs -> working s.1 ->
  let (r, s') := Reconcile compile install inst jobs s in
  (forall job, job ∈ jobs -> host_scheduled job = true -> job_fate compile install inst job s s' (is_Ok r = true)) /\
  (forall id, in_s64 id -> ~ scheduled_in jobs id -> artifacts inst s' id = (None, None, None)).
Proof.
  intros Hi Hrun Hc Hin Hnd H64 Hw.
  pose proof (Reconcile_artifacts compile install inst Hi Hrun Hc Hin jobs s Hnd H64 Hw) as H.
  destruct (Reconcile compile install inst jobs s) as [r s']. apply H.
Qed.

(** C30: foreign files are safe.  Whatever fails, and on any file system, a
    reconciliation changes no file but those named for a job of this instance in
    the two directories, and its own temporary files. *)
Theorem persistent_spares_others {W} `{!HostCommandRunner (FS * W)} compile install inst jobs path :
  instanceIDPattern inst = true -> temporary path = false -> (forall a id, path <> view inst a id) ->
  (forall argv, leaves path (Run argv)) -> (forall job request, leaves path (compile job request)) ->
  (forall plan, leaves path (install plan)) ->
  forall s : FS * W, fs_files (Reconcile compile install inst jobs s).2.1 !! path = fs_files s.1 !! path.
Proof. intros Hi Ht Hv Hr Hc Hin. by apply leaves_Reconcile. Qed.

(** *** A host with one job of its own, one that is gone, and a foreign file *)

Definition demo_system_job : Job :=
  MkJob 2 7 3 "nightly" true false (Job_Action demo_sync_job) (Job_Identity demo_sync_job) (Job_Execution demo_sync_job)
    TriggerCron (MkSchedulerPolicy SchedulerSystem) "" "" "" "" "" "" "" "0 2 * * *" "" "" 0 0 0 "" "" false 0 0 false false
    "" false "" "".

Definition demo_run_host : HostCommandRunner (FS * unit) := fun _ _ s => (MkCommandResult "" "" 0 None, s).
Definition demo_host_compile (job : Job) (request : RunRequest) : SE (FS * unit) ExecutionPlan :=
  lift (@Compile unit demo_inspector (Some demo_compiler) 1 job request tt).1.
Definition demo_host_install (plan : ExecutionPlan) : SE (FS * unit) string := lift (Ok (Plan_WrapperPath plan)).

Definition demo_host_file (data : string) : file := MkFile data 420 process_owner true.
Definition demo_host : FS * unit :=
  (MkFS (<["/proc/1/root/etc/cron.d/syncbridge-nas-1-9" := demo_host_file "old"]>
         {["/proc/1/root/etc/cron.d/logrotate" := demo_host_file "rotate"]}) [] [], tt).

Definition demo_host_after : FS * unit :=
  (@Reconcile unit demo_run_host demo_host_compile demo_host_install "nas-1" [demo_system_job] demo_host).2.

Lemma demo_host_works : working demo_host.1.
Proof.
  split; [done|]. intros path Hp. cbn. rewrite !lookup_insert_ne by (intros <-; by vm_compute in Hp).
  by rewrite lookup_singleton_ne by (intros <-; by vm_compute in Hp).
Qed.

Lemma persistent_follows_jobs_witness :
  artifacts "nas-1" demo_host 9 = (Some "old", None, None) /\ artifacts "nas-1" demo_host_after 9 = (None, None, None) /\
  artifacts "nas-1" demo_host_after 7 = (Some (cron_content demo_system_job (wrapper_path "nas-1" 7)), None, None) /\
  (forall id, in_s64 id -> ~ scheduled_in [demo_system_job] id -> artifacts "nas-1" demo_host_after id = (None, None, None)).
Proof.
  split; [by vm_compute|]. split; [by vm_compute|]. split; [by vm_compute|].
  assert (forall A (r : result A), tame (W := unit) "nas-1" (lift r)) as Ht by done.
  pose proof (@persistent_follows_jobs unit demo_run_host demo_host_compile demo_host_install "nas-1" [demo_system_job]
    demo_host eq_refl ltac:(done) ltac:(intros; apply Ht) ltac:(intros; apply Ht)) as H.
  unfold demo_host_after. destruct (@Reconcile unit demo_run_host _ _ _ _ demo_host) as [r s'].
  apply H; [by repeat constructor; set_solver|repeat constructor; done|apply demo_host_works].
Defined.

Lemma persistent_spares_others_witness :
  fs_files demo_host_after.1 !! "/proc/1/root/etc/cron.d/logrotate" = Some (demo_host_file "rotate").
Proof.
  unfold demo_host_after.
  rewrite (@persistent_spares_others unit demo_run_host demo_host_compile demo_host_install "nas-1" [demo_system_job]
    "/proc/1/root/etc/cron.d/logrotate"); [by vm_compute|done|by vm_compute| |done|done|done].
  intros a id E. apply (f_equal Base) in E. 
  destruct (name_good "nas-1" eq_refl a id) as (Hne & _ & _ & Hs). rewrite view_joined, Base_last in E by done.
  by destruct a.
Defined.
