(* ===== verification/SystemService.v ===== *)
(** * The inventory of the host's schedules ([system_service.go])

    Cron files, systemd units and running watchers of the host are listed,
    classified, switched off and on, deleted into a trash and restored.  Every
    change first scans again and looks for the item the client names.  Contexts
    are not modelled: a scan that is not cancelled reads everything. *)

From S2P Require Import Prelude GoStrings Model AtomicFile JobRepository HostCommand ExecutionPlan History HostFiles.
From S2P Require Import PersistentScheduler.

Definition sbOff : string := "#SB-OFF# ".

Record SysItem := MkSysItem {
  Sys_Type : string; Sys_Name : string; Sys_Schedule : string; Sys_Target : string; Sys_File : string;
  Sys_Managed : bool; Sys_Class : string; Sys_Disabled : bool
}.

Record TrashEntry := MkTrashEntry {
  Trash_TS : string; Trash_Type : string; Trash_Name : string; Trash_File : string; Trash_Schedule : string;
  Trash_Target : string; Trash_Line : string; Trash_Unit : string; Trash_Restorable : bool
}.

(** ** Lines of a cron file *)

Definition cron_field_char (c : ascii) : bool := is_digit c || is_alpha c || char_in "*/,-" c.
Definition isCronField (s : string) : bool := negb (string_eqb s "") && string_forallb cron_field_char s.

Definition parseCronLine (line file : string) (managed : bool) : option SysItem :=
  let line := TrimSpace line in
  if string_eqb line "" || HasPrefix line "#" then None
  else
    let fields := Fields line in
    if (length fields <? 6)%nat then None
    else if negb (forallb isCronField (take 5 fields)) then None
    else
      let schedule := Join " " (take 5 fields) in
      let rest := drop 5 fields in
      let rest := if (Contains file "/cron.d/" || string_eqb file "/etc/crontab") && (1 <? length rest)%nat
                  then drop 1 rest else rest in
      match rest with
      | [] => None
      | _ => Some (MkSysItem "cron" (Base file) schedule (Join " " rest) file managed "" false)
      end.

(** Whether a line is switched off, and what it says. *)
Definition line_body (line : string) : bool * string :=
  let trimmed := TrimSpace line in
  if HasPrefix trimmed sbOff then (true, TrimSpace (TrimPrefix trimmed sbOff)) else (false, trimmed).

Definition set_disabled (off : bool) (i : SysItem) : SysItem :=
  MkSysItem (Sys_Type i) (Sys_Name i) (Sys_Schedule i) (Sys_Target i) (Sys_File i) (Sys_Managed i) (Sys_Class i) off.
Definition set_class (class : string) (i : SysItem) : SysItem :=
  MkSysItem (Sys_Type i) (Sys_Name i) (Sys_Schedule i) (Sys_Target i) (Sys_File i) (Sys_Managed i) class (Sys_Disabled i).

Definition LFc : ascii := Ascii.ascii_of_nat 10.

(** The items of one cron file. *)
Definition cron_items (logicalFile data : string) : list SysItem :=
  let managed := Contains data sbMarker in
  omap (fun line => let (off, body) := line_body line in set_disabled off <$> parseCronLine body logicalFile managed)
    (Split LFc data).

(** ** Systemd units *)

Fixpoint ini_lines (lines : list string) (key : string) : string :=
  match lines with
  | [] => ""
  | line :: lines =>
      let line := TrimSpace line in
      if HasPrefix line (key +:+ "=") then TrimSpace (TrimPrefix line (key +:+ "=")) else ini_lines lines key
  end.
Definition iniVal (content key : string) : string := ini_lines (Split LFc content) key.

Fixpoint firstNonEmpty (values : list string) : string :=
  match values with
  | [] => ""
  | v :: values => if string_eqb v "" then firstNonEmpty values else v
  end.

Definition unit_item (file logicalFile content : string) : SysItem :=
  let item type schedule target :=
    MkSysItem type (Base file) schedule target logicalFile (Contains content sbMarker) "" false in
  if HasSuffix file ".service" then item "systemd-service" "" (iniVal content "ExecStart")
  else if HasSuffix file ".timer"
  then item "systemd-timer" (firstNonEmpty [iniVal content "OnCalendar"; iniVal content "OnUnitActiveSec"]) ""
  else if HasSuffix file ".path"
  then item "systemd-path"
         (firstNonEmpty [iniVal content "PathModified"; iniVal content "PathChanged"; iniVal content "PathExists"]) ""
  else item "" "" "".

(** ** Classes *)

Definition classifySys (item : SysItem) : string :=
  if Sys_Managed item then "managed"
  else
    let text := ToLower (Sys_Target item +:+ " " +:+ Sys_Schedule item +:+ " " +:+ Sys_File item +:+ " " +:+ Sys_Name item) in
    if existsb (Contains text)
         ["run-parts"; "/usr/lib/"; "/lib/systemd"; "systemd-tmpfiles"; "logrotate"; "updatedb"; "fstrim"; "sysstat"]
    then "system"
    else if existsb (Contains text)
         [".sh"; ".py"; ".bash"; "/home/"; "/mnt/"; "/opt/"; "/srv/"; "/root/"; "inotifywait"; "rsync"; "rclone"]
    then "custom"
    else "unknown".

Definition sameSysItem (a b : SysItem) : bool :=
  string_eqb (Sys_Type a) (Sys_Type b) && string_eqb (Sys_Name a) (Sys_Name b) && string_eqb (Sys_File a) (Sys_File b) &&
  string_eqb (Sys_Schedule a) (Sys_Schedule b) && string_eqb (Sys_Target a) (Sys_Target b).

(** ** What the service is built on

    The process table: the names the pattern [/proc/[0-9]*] finds, the command
    line of a process, and TERM. *)
Class ProcTable (S : Type) := {
  proc_pids : S -> list string;
  read_cmdline : string -> S -> result string;
  kill_TERM : Z -> S -> result unit * S
}.

(** JSON of the trash file. *)
Class TrashCodec := {
  unmarshal_trash : string -> result (list TrashEntry);
  marshal_trash : list TrashEntry -> result string;
  trash_encodable : list TrashEntry -> Prop;
  trash_roundtrip : forall items, trash_encodable items ->
    exists data, marshal_trash items = Ok data /\ unmarshal_trash data = Ok items
}.

Definition errNotExist : goerror := ErrVar "file does not exist".

(** [os.ReadFile] *)
Definition read_file (path : string) : SE FS string :=
  content ← fs_ReadFile path;
  match content with Some data => mret data | None => lift (Err errNotExist) end.

(** ** Requests and answers *)

Record SystemInventory := MkSystemInventory {
  Inv_Items : list SysItem; Inv_CronPaths : list string; Inv_SystemdPaths : list string
}.
Record ItemResult := MkItemResult { Item_Name : string; Item_State : string; Item_Error : string }.

(** Decoding the bodies; [decode_delete] also gives the confirmation. *)
Class SystemDecoder := {
  decode_item : string -> result SysItem;
  decode_delete : string -> result (list SysItem * string);
  decode_restore : string -> result (list TrashEntry)
}.

Inductive SysResponse :=
  | HttpError (text : string) (code : Z)
  | InventoryBody (inventory : SystemInventory)
  | StateBody (state : string)
  | ResultsBody (results : list ItemResult)
  | TrashBody (items : list TrashEntry).

Definition methodNotAllowed : SysResponse := HttpError "method not allowed" 405.

Section Service.
Context `{!SystemDecoder}.
Context {W : Type} `{!HostCommandRunner (FS * W)} `{!ProcTable (FS * W)} `{!TrashCodec}.
Context (trashPath : string) (owner : FileOwner) (now_text : string).
Notation SS := (SE (FS * W)).

(** ** The scan *)

Fixpoint read_each {A} (files : list string) (k : string -> string -> list A) : SS (list A) :=
  match files with
  | [] => mret []
  | file :: files =>
      data ← attempt (files_ (read_file file));
      rest ← read_each files k;
      mret ((match data with Ok data => k file data | Err _ => [] end) ++ rest)
  end.

(** A path that is no regular file is listed as a directory. *)
Definition scanCronPath (logical : string) : SS (list SysItem) :=
  match hostFilesystemPath logical with
  | Err _ => mret []
  | Ok view =>
      info ← attempt (files_ (fs_Stat view));
      match info with
      | Err _ => mret []
      | Ok (Some _) => read_each [view] (fun _ data => cron_items logical data)
      | Ok None =>
          names ← files_ (fs_ReadDir view);
          read_each (map (fun name => PathJoin [view; name]) names)
            (fun file data => cron_items (PathJoin [logical; Base file]) data)
      end
  end.

(** [filepath.Glob(view/*ext)] *)
Definition glob_ext (view ext : string) : SS (list string) :=
  names ← files_ (fs_ReadDir view);
  mret (map (fun name => PathJoin [view; name]) (List.filter (fun name => HasSuffix name ext) names)).

Definition scan_units (logical view ext : string) : SS (list SysItem) :=
  files ← glob_ext view ext;
  read_each files (fun file data => [unit_item file (PathJoin [logical; Base file]) data]).

Definition scanSystemdPath (logical : string) : SS (list SysItem) :=
  match hostFilesystemPath logical with
  | Err _ => mret []
  | Ok view =>
      services ← scan_units logical view ".service";
      timers ← scan_units logical view ".timer";
      paths ← scan_units logical view ".path";
      mret (services ++ timers ++ paths)
  end.

Definition nul_char : ascii := Ascii.ascii_of_nat 0.
Definition cmdline_args (data : string) : list string := Split nul_char (TrimByteRight nul_char data).

Definition inotify_item (pid data : string) : option SysItem :=
  let args := cmdline_args data in
  if Contains (Base (hd "" args)) "inotifywait"
  then Some (MkSysItem "inotify-proc" ("pid " +:+ pid) "inotifywait" (Join " " args) ("/proc/" +:+ pid +:+ "/cmdline")
               false "" false)
  else None.

Definition scanInotifyProcesses : SS (list SysItem) :=
  s ← get_state;
  mret (omap (fun pid => match read_cmdline pid s with Ok data => inotify_item pid data | Err _ => None end) (proc_pids s)).

Definition systemCronPaths : list string := ["/etc/crontab"; "/etc/cron.d"; "/var/spool/cron/crontabs"].
Definition systemdPaths : list string := ["/etc/systemd/system"].

Fixpoint scan_each (scan : string -> SS (list SysItem)) (paths : list string) : SS (list SysItem) :=
  match paths with
  | [] => mret []
  | path :: paths => items ← scan path; rest ← scan_each scan paths; mret (items ++ rest)
  end.

Definition Scan : SS (list SysItem) :=
  cron ← scan_each scanCronPath systemCronPaths;
  units ← scan_each scanSystemdPath systemdPaths;
  processes ← scanInotifyProcesses;
  mret (map (fun item => set_class (classifySys item) item) (cron ++ units ++ processes)).

Definition errStale : goerror := ErrNew "system item is stale or no longer exists; rescan before changing it".

Definition currentItem (requested : SysItem) : SS SysItem :=
  items ← Scan;
  match List.find (fun current => sameSysItem current requested) items with
  | Some current => mret current
  | None => lift (Err errStale)
  end.

(** ** Switching a line off and on *)

Definition says (item : SysItem) (line : string) : bool :=
  match parseCronLine (line_body line).2 (Sys_File item) false with
  | Some p => string_eqb (Sys_Schedule p) (Sys_Schedule item) && string_eqb (Sys_Target p) (Sys_Target item)
  | None => false
  end.

Fixpoint first_line (p : string -> bool) (lines : list string) : option (list string * string * list string) :=
  match lines with
  | [] => None
  | line :: lines =>
      if p line then Some ([], line, lines)
      else match first_line p lines with
           | Some (before, l, after) => Some (line :: before, l, after)
           | None => None
           end
  end.

Definition toggled (line : string) : string := let (off, body) := line_body line in if off then body else sbOff +:+ line.

(** [view, err := logicalToView(file)], [data, err := os.ReadFile(view)] *)
Definition read_logical (file : string) : SS string :=
  view ← lift (hostFilesystemPath file);
  files_ (read_file view).

Definition toggleCron (item : SysItem) : SS string :=
  data ← read_logical (Sys_File item);
  match first_line (says item) (Split LFc data) with
  | None => lift (Err (ErrNew "cron entry no longer matches; rescan before changing it"))
  | Some (before, line, after) =>
      _ ← files_ (atomicReplaceHostFile (Sys_File item) (Join newline (before ++ toggled line :: after)) 420);
      mret (if (line_body line).1 then "enabled" else "disabled")
  end.

Definition toggleSystemd (name : string) : SS string :=
  state ← systemctl ["is-enabled"; name];
  if string_eqb (TrimSpace (Stdout state)) "enabled" then
    _ ← systemctl_ok "disable systemd unit" ["disable"; "--now"; name];
    mret "disabled"
  else
    _ ← systemctl_ok "enable systemd unit" ["enable"; "--now"; name];
    mret "enabled".

(** [syscall.Kill(pid, SIGTERM)] *)
Definition kill_process (pid : Z) : SS unit := kill_TERM pid.

Definition killInotify (item : SysItem) : SS string :=
  let invalid := ErrNew "invalid process identity" in
  match Split slash (Sys_File item) with
  | _ :: proc :: pidText :: _ :: _ =>
      if negb (string_eqb proc "proc") then lift (Err invalid)
      else match Atoi pidText with
      | None => lift (Err invalid)
      | Some pid =>
          if (pid <=? 1)%Z then lift (Err invalid)
          else
            s ← get_state;
            data ← lift (read_cmdline (Itoa pid) s);
            if negb (string_eqb (Join " " (cmdline_args data)) (Sys_Target item))
            then lift (Err (ErrNew "process identity changed; rescan before stopping it"))
            else
              _ ← kill_process pid;
              mret "killed"
      end
  | _ => lift (Err invalid)
  end.

Definition is_unit (type : string) : bool :=
  string_eqb type "systemd-service" || string_eqb type "systemd-timer" || string_eqb type "systemd-path".

Definition Toggle (requested : SysItem) : SS string :=
  item ← currentItem requested;
  if string_eqb (Sys_Type item) "cron" then toggleCron item
  else if is_unit (Sys_Type item) then toggleSystemd (Sys_Name item)
  else if string_eqb (Sys_Type item) "inotify-proc" then killInotify item
  else lift (Err (ErrNew ("unsupported system item type " +:+ Sys_Type item))).

(** ** The trash *)

(** A trash that cannot be read counts as empty. *)
Definition loadTrash : SS (list TrashEntry) :=
  data ← attempt (files_ (read_file trashPath));
  mret (match data with
        | Ok data => match unmarshal_trash data with Ok items => items | Err _ => [] end
        | Err _ => []
        end).

Definition writeTrash (items : list TrashEntry) : SS unit :=
  data ← lift (marshal_trash items);
  files_ (AtomicWriteFile trashPath data 384 owner).

Definition appendTrash (entry : TrashEntry) : SS unit :=
  items ← loadTrash;
  writeTrash (entry :: items).

Definition trash_of (item : SysItem) (line unit_ : string) : TrashEntry :=
  MkTrashEntry now_text (Sys_Type item) (Sys_Name item) (Sys_File item) (Sys_Schedule item) (Sys_Target item) line unit_ true.

(** [view, _ := logicalToView(file)] *)
Definition read_view (file : string) : SS string := files_ (read_file (view_of file)).

Definition deleteCron (item : SysItem) : SS unit :=
  data ← read_view (Sys_File item);
  match first_line (says item) (Split LFc data) with
  | None => lift (Err (ErrNew "cron entry no longer matches"))
  | Some (before, line, after) =>
      _ ← files_ (atomicReplaceHostFile (Sys_File item) (Join newline (before ++ after)) 420);
      appendTrash (trash_of item line "")
  end.

(** [os.Remove], which also fails when the file is gone. *)
Definition remove_existing (path : string) : SE FS unit :=
  fs ← get_state;
  match fs_files fs !! path with
  | Some _ => fs_Remove path
  | None => lift (Err errNotExist)
  end.

Definition deleteUnit (item : SysItem) : SS unit :=
  data ← read_view (Sys_File item);
  _ ← systemctl ["disable"; "--now"; Sys_Name item];
  _ ← files_ (remove_existing (view_of (Sys_File item)));
  _ ← systemctl ["daemon-reload"];
  appendTrash (trash_of item "" data).

Definition deleteInotify (item : SysItem) : SS unit :=
  _ ← killInotify item;
  appendTrash (MkTrashEntry now_text (Sys_Type item) (Sys_Name item) (Sys_File item) "" (Sys_Target item) "" "" false).

Definition Delete (requested : SysItem) : SS unit :=
  item ← currentItem requested;
  if string_eqb (Sys_Type item) "cron" then deleteCron item
  else if is_unit (Sys_Type item) then deleteUnit item
  else if string_eqb (Sys_Type item) "inotify-proc" then deleteInotify item
  else lift (Err (ErrNew "unsupported system item")).

(** ** Restoring *)

(** [data, _ := os.ReadFile(view)], with the line at the end. *)
Definition with_line (data line : string) : string :=
  (if negb (string_eqb data "") && negb (HasSuffix data newline) then data +:+ newline else data) +:+ line +:+ newline.

Definition same_entry (a b : TrashEntry) : bool :=
  string_eqb (Trash_TS a) (Trash_TS b) && string_eqb (Trash_Type a) (Trash_Type b) && string_eqb (Trash_File a) (Trash_File b).

Definition put_back (entry : TrashEntry) : SS unit :=
  if string_eqb (Trash_Type entry) "cron" then
    view ← lift (hostFilesystemPath (Trash_File entry));
    data ← attempt (files_ (read_file view));
    files_ (atomicReplaceHostFile (Trash_File entry)
              (with_line (match data with Ok data => data | Err _ => "" end) (Trash_Line entry)) 420)
  else if HasPrefix (Trash_Type entry) "systemd-" then
    _ ← files_ (atomicReplaceHostFile (Trash_File entry) (Trash_Unit entry) 420);
    r ← systemctl ["daemon-reload"];
    lift (match CommandErr r with Some e => Err e | None => Ok tt end)
  else lift (Err (ErrNew "unsupported trash item")).

Definition Restore (entry : TrashEntry) : SS unit :=
  if negb (Trash_Restorable entry) then lift (Err (ErrNew "item is not restorable"))
  else
    _ ← put_back entry;
    current ← loadTrash;
    writeTrash (List.filter (fun item => negb (same_entry item entry)) current).

(** ** The routes *)

Definition handleSystemScan (method : string) : SS SysResponse :=
  if negb (string_eqb method "GET") then mret methodNotAllowed
  else
    items ← Scan;
    mret (InventoryBody (MkSystemInventory items systemCronPaths systemdPaths)).

Definition handleSystemToggle (method body : string) : SS SysResponse :=
  if negb (string_eqb method "POST") then mret methodNotAllowed
  else match decode_item body with
  | Err _ => mret (HttpError "invalid request" 400)
  | Ok item =>
      state ← attempt (Toggle item);
      mret (match state with Ok state => StateBody state | Err e => HttpError (error_text e) 409 end)
  end.

(** One result for each item, in order, whatever happens to the others. *)
Fixpoint each_item {A} (name : A -> string) (done_ : string) (act : A -> SS unit) (items : list A) : SS (list ItemResult) :=
  match items with
  | [] => mret []
  | item :: items =>
      r ← attempt (act item);
      rest ← each_item name done_ act items;
      mret ((match r with
             | Err e => MkItemResult (name item) "error" (error_text e)
             | Ok _ => MkItemResult (name item) done_ ""
             end) :: rest)
  end.

Definition handleSystemDelete (method body : string) : SS SysResponse :=
  if negb (string_eqb method "POST") then mret methodNotAllowed
  else match decode_delete body with
  | Err _ => mret (HttpError "confirmation required" 400)
  | Ok (items, confirm) =>
      if negb (string_eqb (ToLower (TrimSpace confirm)) "delete") then mret (HttpError "confirmation required" 400)
      else
        out ← each_item Sys_Name "deleted" Delete items;
        mret (ResultsBody out)
  end.

Definition handleSystemTrash (method : string) : SS SysResponse :=
  if negb (string_eqb method "GET") then mret methodNotAllowed
  else
    items ← loadTrash;
    mret (TrashBody items).

Definition handleSystemRestore (method body : string) : SS SysResponse :=
  if negb (string_eqb method "POST") then mret methodNotAllowed
  else match decode_restore body with
  | Err _ => mret (HttpError "invalid request" 400)
  | Ok items =>
      out ← each_item Trash_Name "restored" Restore items;
      mret (ResultsBody out)
  end.
End Service.
