(* ===== verification/SystemProofs.v ===== *)
(** * The inventory of the host's schedules: proofs

    What toggling, deleting and restoring change, what is refused, and that the
    artifacts of the persistent scheduler are recognised; then what the inventory
    gets wrong. *)

From S2P Require Import JobApi WrapperProofs PersistentProofs.
From S2P Require Import Prelude GoStrings Model AtomicFile JobRepository HostCommand ExecutionPlan History HostFiles.
From S2P Require Import PersistentScheduler SystemService.

(** ** Lines *)

Lemma TrimSpace_off line : all_space line = false -> TrimSpace (sbOff +:+ line) = sbOff +:+ TrimSpaceRight line.
Proof.
  intros H. unfold TrimSpace, sbOff. rewrite TrimSpaceLeft_id by by rewrite app_cons, space_len_plain.
  rewrite !app_cons, app_empty_l, app_empty_l. do 8 (rewrite TrimSpaceRight_plain by done).
  by rewrite TrimSpaceRight_step by by rewrite all_space_blank.
Qed.

(** A line that is switched off says what it said. *)
Lemma line_body_off line : all_space line = false -> line_body (sbOff +:+ line) = (true, TrimSpace line).
Proof.
  intros H. unfold line_body. rewrite TrimSpace_off by done. by rewrite HasPrefix_app, TrimPrefix_app, TrimSpace_Right.
Qed.

Lemma parse_nonspace line file managed i :
  parseCronLine line file managed = Some i -> TrimSpace line <> "" /\ HasPrefix (TrimSpace line) "#" = false.
Proof.
  unfold parseCronLine. destruct (string_eqb (TrimSpace line) "" || _) eqn:E; [done|]. intros _.
  apply orb_false_iff in E as [E1 E2]. split; [by apply string_eqb_false|done].
Qed.

Lemma parse_trimmed line file managed : parseCronLine (TrimSpace line) file managed = parseCronLine line file managed.
Proof. unfold parseCronLine. by rewrite TrimSpace_idempotent. Qed.

Lemma all_space_trimmed line : all_space line = true -> TrimSpace line = "".
Proof. intros H. unfold TrimSpace. unfold all_space in H. by apply string_eqb_true in H as ->. Qed.

Lemma says_nonspace item line : says item line = true -> all_space line = false.
Proof.
  intros H. apply not_true_is_false. intros Ha. unfold says, line_body in H. by rewrite (all_space_trimmed _ Ha) in H.
Qed.

Lemma says_off item line :
  says item line = true -> (line_body line).1 = false -> says item (sbOff +:+ line) = true.
Proof.
  intros H Hon. unfold says. rewrite line_body_off by by eapply says_nonspace. cbn [snd].
  unfold says, line_body in H. unfold line_body in Hon. destruct (HasPrefix (TrimSpace line) sbOff); [done|exact H].
Qed.

Lemma toggled_on line : (line_body line).1 = false -> toggled line = sbOff +:+ line.
Proof. unfold toggled. by destruct (line_body line) as [[] ?]. Qed.

Lemma toggled_twice line : all_space line = false -> toggled (sbOff +:+ line) = TrimSpace line.
Proof. intros H. unfold toggled. by rewrite line_body_off. Qed.

Lemma first_line_here p lines before line after :
  first_line p lines = Some (before, line, after) ->
  lines = before ++ line :: after /\ p line = true /\ Forall (fun l => p l = false) before.
Proof.
  revert before. induction lines as [|l lines IH]; intros before; [done|]. cbn. destruct (p l) eqn:Ep.
  - by intros [= <- <- <-].
  - destruct (first_line p lines) as [[[b x] a]|]; [|done]. intros [= <- <- <-].
    destruct (IH b eq_refl) as (-> & Hx & Hb). split; [done|]. split; [done|]. by constructor.
Qed.

Lemma first_line_at p before line after :
  Forall (fun l => p l = false) before -> p line = true -> first_line p (before ++ line :: after) = Some (before, line, after).
Proof. induction 1 as [|l before Hl _ IH]; intros Hp; cbn; [by rewrite Hp|]. by rewrite Hl, IH. Qed.

Lemma has_byte_TrimSpace c s : has_byte c s = false -> has_byte c (TrimSpace s) = false.
Proof.
  intros H. destruct (TrimSpaceLeft_rest s) as (w & Hw & _). destruct (TrimSpaceRight_rest (TrimSpaceLeft s)) as (v & Hv & _).
  rewrite Hw, has_byte_app in H. apply orb_false_iff in H as [_ H]. unfold TrimSpace.
  rewrite Hv, has_byte_app in H. by apply orb_false_iff in H as [? _].
Qed.

Lemma Split_lines lines : lines <> [] -> Forall (fun l => has_byte LFc l = false) lines -> Split LFc (Join newline lines) = lines.
Proof. intros Hne H. by apply (Split_Join LFc). Qed.

Lemma cron_word f : isCronField f = true -> word f.
Proof.
  unfold isCronField. intros [Hne Hf]%andb_true_iff. apply negb_true_iff, string_eqb_false in Hne. split; [done|].
  eapply string_forallb_impl; [|exact Hf]. unfold cron_field_char, plain_char. all_bytes.
Qed.

(** The line of a cron file that runs a command as root. *)
Lemma parse_root_line fields wrapper file managed :
  length fields = 5%nat -> forallb isCronField fields = true -> word wrapper -> Contains file "/cron.d/" = true ->
  line_body (Join " " (fields ++ ["root"; wrapper])) = (false, Join " " (fields ++ ["root"; wrapper])) /\
  parseCronLine (Join " " (fields ++ ["root"; wrapper])) file managed =
    Some (MkSysItem "cron" (Base file) (Join " " fields) wrapper file managed "" false).
Proof.
  intros Hlen Hf Hwr Hfile.
  assert (Forall word fields) as Hw.
  { apply Forall_forall. intros f Hin. apply cron_word. rewrite forallb_forall in Hf. by apply Hf, list_elem_of_In. }
  assert (Forall word (fields ++ ["root"; wrapper])) as Hall.
  { apply Forall_app. split; [done|]. apply Forall_cons. split; [by split|]. apply Forall_cons. by split. }
  assert (exists c r, cron_field_char c = true /\ Join " " (fields ++ ["root"; wrapper]) = String c r) as (c & r & Hc & El).
  { destruct fields as [|f fields]; [done|]. cbn [forallb] in Hf. apply andb_true_iff in Hf as [Hf _].
    unfold isCronField in Hf. apply andb_true_iff in Hf as [_ Hf]. apply Forall_cons in Hw as [[Hne _] _].
    destruct f as [|c f]; [done|]. cbn [string_forallb] in Hf. apply andb_true_iff in Hf as [Hc _].
    change ((String c f :: fields) ++ ["root"; wrapper]) with (String c f :: (fields ++ ["root"; wrapper])).
    rewrite Join_cons by by destruct fields. by eexists c, _. }
  assert (forall p, HasPrefix (Join " " (fields ++ ["root"; wrapper])) (String "#" p) = false) as Hnp.
  { intros p. rewrite El. cbn [HasPrefix]. destruct (ascii_eqb "#" c) eqn:E; [|done].
    apply ascii_eqb_true in E as <-. done. }
  split.
  - unfold line_body, sbOff. rewrite TrimSpace_words by (done || by destruct fields). by rewrite Hnp.
  - unfold parseCronLine. rewrite TrimSpace_words by (done || by destruct fields). rewrite Fields_words by done.
    rewrite (Hnp ""), orb_false_r. destruct (string_eqb _ "") eqn:E; [apply string_eqb_true in E; by rewrite E in El|].
    rewrite length_app, Hlen. cbn [length Nat.add Nat.ltb Nat.leb].
    rewrite take_app_length', drop_app_length' by done. rewrite Hf, Hfile. done.
Qed.

(** ** Steps on a file system that works *)

Section Steps.
Context {W : Type} `{!HostCommandRunner (FS * W)} `{!ProcTable (FS * W)} `{!TrashCodec}.
Context (trashPath : string) (owner : FileOwner) (now_text : string).
Implicit Types s : FS * W.

Definition content_at (path : string) s : option string := file_data <$> fs_files s.1 !! path.

Definition others_same (path : string) s s' : Prop := forall p, p <> path -> fs_files s'.1 !! p = fs_files s.1 !! p.

Lemma works_readfile path fs : fs_script fs = [] -> fs_ReadFile path fs = (Ok (file_data <$> fs_files fs !! path), fs).
Proof. intros Hs. unfold fs_ReadFile. rewrite SE_bind_unfold. unfold next_outcome. by rewrite Hs. Qed.

Lemma read_works path s data :
  working s.1 -> content_at path s = Some data -> files_ (W := W) (read_file path) s = (Ok data, s).
Proof.
  destruct s as [fs w]. intros [Hs _] Hd. unfold files_, read_file. cbn [fst snd] in *.
  rewrite (bind_step _ _ _ _ _ (works_readfile path fs Hs)). unfold content_at in Hd. cbn [fst] in Hd. by rewrite Hd.
Qed.

Lemma replace_works file view content s :
  hostFilesystemPath file = Ok view -> temporary view = false -> working s.1 ->
  exists s', files_ (W := W) (atomicReplaceHostFile file content 420) s = (Ok tt, s') /\ working s'.1 /\
    content_at view s' = Some content /\ others_same view s s'.
Proof.
  destruct s as [fs w]. intros Hv Ht Hw.
  destruct (atomicReplaceHostFile_works file content 420 view fs Hv Ht Hw) as (f & fs' & Hr & Hw' & Hd & Hf).
  exists (fs', w). unfold files_. cbn. rewrite Hr. split; [done|]. split; [done|]. unfold content_at, others_same. cbn.
  rewrite Hf, lookup_insert_eq, <-Hd. split; [done|]. intros p Hp. by rewrite lookup_insert_ne.
Qed.

Lemma toggle_step item view data before line after s :
  working s.1 -> hostFilesystemPath (Sys_File item) = Ok view -> temporary view = false -> content_at view s = Some data ->
  first_line (says item) (Split LFc data) = Some (before, line, after) ->
  exists s', toggleCron item s = (Ok (if (line_body line).1 then "enabled" else "disabled"), s') /\ working s'.1 /\
    content_at view s' = Some (Join newline (before ++ toggled line :: after)) /\ others_same view s s'.
Proof.
  intros Hw Hv Ht Hd Hl.
  destruct (replace_works (Sys_File item) view (Join newline (before ++ toggled line :: after)) s Hv Ht Hw)
    as (s' & Hr & Hw' & Hc & Ho).
  exists s'. split; [|done]. unfold toggleCron, read_logical. rewrite Hv.
  rewrite (bind_step _ _ s data s) by (cbn; by apply read_works). rewrite Hl. by rewrite (bind_step _ _ _ _ _ Hr).
Qed.

Lemma toggle_twice item view data before line after s :
  working s.1 -> hostFilesystemPath (Sys_File item) = Ok view -> temporary view = false -> content_at view s = Some data ->
  first_line (says item) (Split LFc data) = Some (before, line, after) -> (line_body line).1 = false ->
  exists s1 s2,
    toggleCron item s = (Ok "disabled", s1) /\
    content_at view s1 = Some (Join newline (before ++ (sbOff +:+ line) :: after)) /\
    toggleCron item s1 = (Ok "enabled", s2) /\
    content_at view s2 = Some (Join newline (before ++ TrimSpace line :: after)) /\ others_same view s s2.
Proof.
  intros Hw Hv Ht Hd Hl Hon.
  destruct (toggle_step item view data before line after s Hw Hv Ht Hd Hl) as (s1 & E1 & Hw1 & H1 & Ho1).
  rewrite Hon in E1. rewrite toggled_on in H1 by done.
  pose proof (first_line_here _ _ _ _ _ Hl) as (Hs & Hp & Hb). pose proof (Split_no_sep LFc data) as Hns.
  rewrite Hs in Hns. apply Forall_app in Hns as [Hn1 Hn2]. apply Forall_cons in Hn2 as [Hn Hn2].
  assert (all_space line = false) as Hna by by eapply says_nonspace.
  assert (first_line (says item) (Split LFc (Join newline (before ++ (sbOff +:+ line) :: after)))
          = Some (before, sbOff +:+ line, after)) as Hl'.
  { rewrite Split_lines; [|by destruct before|].
    - apply first_line_at; [done|by apply says_off].
    - apply Forall_app. split; [done|]. constructor; [|done]. by rewrite has_byte_app, Hn. }
  destruct (toggle_step item view _ before (sbOff +:+ line) after s1 Hw1 Hv Ht H1 Hl') as (s2 & E2 & Hw2 & H2 & Ho2).
  rewrite line_body_off in E2 by done. rewrite toggled_twice in H2 by done.
  exists s1, s2. split_and!; [done..|]. intros p Hpv. by rewrite Ho2, Ho1.
Qed.

(** ** The trash *)

(** The name of the temporary file of the trash is free. *)
Definition trash_ready s : Prop :=
  has_byte slash (temp_pattern trashPath +:+ "0") = false /\
  fs_files s.1 !! joinPath (Dir trashPath) (temp_pattern trashPath +:+ "0") = None.

Definition trash_items s : list TrashEntry :=
  match content_at trashPath s with
  | Some data => match unmarshal_trash data with Ok items => items | Err _ => [] end
  | None => []
  end.

Lemma goes_cleanup pre cleanup m : goes m -> goes (or_cleanup pre cleanup m).
Proof. intros Hm. apply goes_after; [done|]. intros []. apply goes_ret. Qed.

Lemma goes_map_err {A} pre (m : SE FS A) : goes m -> goes (se_map (wrap_err pre) m).
Proof.
  intros Hm fs Hs. destruct (Hm fs Hs) as (a & fs' & E & Hs'). exists a, fs'. unfold se_map. by rewrite E.
Qed.

Lemma AtomicWriteFile_works path data mode own fs :
  fs_script fs = [] -> has_byte slash (temp_pattern path +:+ "0") = false ->
  fs_files fs !! joinPath (Dir path) (temp_pattern path +:+ "0") = None ->
  exists fs', AtomicWriteFile path data mode own fs = (Ok tt, fs') /\ fs_script fs' = [] /\
    fs_files fs' = replaced path data mode own (fs_files fs).
Proof.
  intros Hs Hsl Hn.
  enough (exists u fs', AtomicWriteFile path data mode own fs = (Ok u, fs') /\ fs_script fs' = []) as ([] & fs' & E & Hs').
  { exists fs'. split; [done|]. split; [done|].
    pose proof (atomicWriteFile_hoare path data mode own (fs_files fs) fs eq_refl) as Hw. unfold AtomicWriteFile in E.
    rewrite E in Hw. apply Hw. }
  unfold AtomicWriteFile, atomicWriteFileWithFS.
  rewrite (bind_step _ _ fs tt fs) by (unfold se_map, fs_MkdirAll; by rewrite works_op).
  destruct (works_create (Dir path) (temp_pattern path) fs Hs Hn Hsl) as (tmp & fs1 & Hc & Hs1).
  rewrite (bind_step _ _ fs tmp fs1) by (unfold se_map; by rewrite Hc).
  match goal with |- exists u fs', ?m fs1 = _ /\ _ => enough (goes m) as Hg by (apply Hg; done) end. clear.
  unfold fs_Chmod, fs_Chown, fs_Sync, fs_Close, fs_Rename, fs_OpenDir, fs_SyncDir.
  repeat (apply goes_bind; [first [apply goes_cleanup|apply goes_map_err]; eauto with goesdb|intros ?]).
  apply goes_map_err. eauto with goesdb.
Qed.

Lemma load_works s : working s.1 -> loadTrash trashPath s = (Ok (trash_items s), s).
Proof.
  intros Hw. unfold loadTrash, trash_items. destruct (content_at trashPath s) as [data|] eqn:Ed.
  - rewrite (bind_step _ _ s (Ok data) s); [done|]. unfold attempt. by rewrite (read_works _ _ _ Hw Ed).
  - rewrite (bind_step _ _ s (Err errNotExist) s); [done|]. destruct s as [fs w]. destruct Hw as [Hs _].
    unfold attempt, files_, read_file. cbn [fst snd] in *. rewrite (bind_step _ _ _ _ _ (works_readfile trashPath fs Hs)).
    unfold content_at in Ed. cbn [fst] in Ed. by rewrite Ed.
Qed.

Lemma write_works items s :
  working s.1 -> trash_ready s -> temporary trashPath = false -> trash_encodable items ->
  exists s', writeTrash (W := W) trashPath owner items s = (Ok tt, s') /\ working s'.1 /\ trash_ready s' /\
    trash_items s' = items /\ others_same trashPath s s'.
Proof.
  destruct s as [fs w]. intros [Hs Hc] [Hsl Hn] Ht Henc. destruct (trash_roundtrip items Henc) as (data & Em & Eu).
  destruct (AtomicWriteFile_works trashPath data 384 owner fs Hs Hsl Hn) as (fs' & E & Hs' & Hf).
  exists (fs', w). unfold writeTrash. rewrite Em. rewrite (bind_step _ _ _ data (fs, w)) by done.
  unfold files_. cbn [fst snd]. rewrite E. split; [done|].
  assert (forall p, p <> trashPath -> fs_files fs' !! p = fs_files fs !! p) as Hoth.
  { intros p Hp. rewrite Hf. by apply lookup_insert_ne. }
  assert (joinPath (Dir trashPath) (temp_pattern trashPath +:+ "0") <> trashPath) as Hne.
  { destruct (temp_name_ne trashPath (Dir trashPath) "0" Hsl) as [? _]. done. }
  split; [|split; [|split; [|done]]].
  - split; [done|]. intros p Hp. rewrite Hoth by (intros ->; congruence). by apply Hc.
  - split; [done|]. cbn [fst]. by rewrite Hoth.
  - unfold trash_items, content_at. cbn [fst]. rewrite Hf. unfold replaced. rewrite lookup_insert_eq. cbn. by rewrite Eu.
Qed.

(** What the lemmas below ask for: a trash that can be written, apart from the
    cron file. *)
Record trash_apart (view : string) s : Prop := {
  apart_works : working s.1;
  apart_ready : trash_ready s;
  apart_permanent : temporary trashPath = false;
  apart_view : view <> trashPath;
  apart_temp : view <> joinPath (Dir trashPath) (temp_pattern trashPath +:+ "0")
}.

Lemma ready_others view s s' : trash_apart view s -> others_same view s s' -> trash_ready s' /\ trash_items s' = trash_items s.
Proof.
  intros [_ [H1 H2] _ Hv Ht] Ho. split.
  - split; [done|]. rewrite Ho by (by apply not_eq_sym). done.
  - unfold trash_items, content_at. by rewrite Ho by (by apply not_eq_sym).
Qed.

Lemma delete_step item view data before line after s :
  trash_apart view s -> hostFilesystemPath (Sys_File item) = Ok view -> temporary view = false ->
  content_at view s = Some data -> first_line (says item) (Split LFc data) = Some (before, line, after) ->
  trash_encodable (trash_of now_text item line "" :: trash_items s) ->
  exists s', deleteCron trashPath owner now_text item s = (Ok tt, s') /\ trash_apart view s' /\
    content_at view s' = Some (Join newline (before ++ after)) /\
    trash_items s' = trash_of now_text item line "" :: trash_items s /\
    (forall p, p <> view -> p <> trashPath -> fs_files s'.1 !! p = fs_files s.1 !! p).
Proof.
  intros Ha Hv Ht Hd Hl Henc. pose proof Ha as [Hw Hready Hperm Hne Hne'].
  destruct (replace_works (Sys_File item) view (Join newline (before ++ after)) s Hv Ht Hw) as (s1 & E1 & Hw1 & H1 & Ho1).
  destruct (ready_others view s s1 Ha Ho1) as [Hr1 Hi1]. rewrite <-Hi1 in Henc.
  destruct (write_works _ s1 Hw1 Hr1 Hperm Henc) as (s2 & E2 & Hw2 & Hr2 & Hi2 & Ho2).
  exists s2. split; [|split; [by split|split; [|split; [by rewrite Hi2, Hi1|]]]].
  - unfold deleteCron, read_view, view_of. rewrite Hv. rewrite (bind_step _ _ s data s) by by apply read_works.
    rewrite Hl. rewrite (bind_step _ _ _ _ _ E1). unfold appendTrash.
    by rewrite (bind_step _ _ _ _ _ (load_works s1 Hw1)).
  - unfold content_at. rewrite Ho2 by done. exact H1.
  - intros p Hp1 Hp2. by rewrite Ho2, Ho1.
Qed.

Lemma restore_step entry view data s :
  trash_apart view s -> hostFilesystemPath (Trash_File entry) = Ok view -> temporary view = false ->
  content_at view s = Some data -> Trash_Restorable entry = true -> Trash_Type entry = "cron" ->
  trash_encodable (List.filter (fun item => negb (same_entry item entry)) (trash_items s)) ->
  exists s', Restore trashPath owner entry s = (Ok tt, s') /\
    content_at view s' = Some (with_line data (Trash_Line entry)) /\
    trash_items s' = List.filter (fun item => negb (same_entry item entry)) (trash_items s) /\
    (forall p, p <> view -> p <> trashPath -> fs_files s'.1 !! p = fs_files s.1 !! p).
Proof.
  intros Ha Hv Ht Hd Hr Hc Henc. pose proof Ha as [Hw Hready Hperm Hne Hne'].
  destruct (replace_works (Trash_File entry) view (with_line data (Trash_Line entry)) s Hv Ht Hw) as (s1 & E1 & Hw1 & H1 & Ho1).
  destruct (ready_others view s s1 Ha Ho1) as [Hr1 Hi1]. rewrite <-Hi1 in Henc.
  destruct (write_works _ s1 Hw1 Hr1 Hperm Henc) as (s2 & E2 & Hw2 & Hr2 & Hi2 & Ho2).
  exists s2. split; [|split; [|split; [by rewrite Hi2, Hi1|]]].
  - unfold Restore. rewrite Hr. cbn [negb]. rewrite (bind_step _ _ s tt s1).
    { by rewrite (bind_step _ _ _ _ _ (load_works s1 Hw1)). }
    unfold put_back. rewrite Hc, string_eqb_refl, Hv.
    rewrite (bind_step _ _ s view s) by done.
    rewrite (bind_step _ _ s (Ok data) s) by (unfold attempt; by rewrite (read_works view s data)). exact E1.
  - unfold content_at. rewrite Ho2 by done. exact H1.
  - intros p Hp1 Hp2. by rewrite Ho2, Ho1.
Qed.

Lemma delete_then_restore item view data before line after s :
  trash_apart view s -> hostFilesystemPath (Sys_File item) = Ok view -> temporary view = false ->
  Sys_Type item = "cron" ->
  content_at view s = Some data -> first_line (says item) (Split LFc data) = Some (before, line, after) ->
  trash_encodable (trash_of now_text item line "" :: trash_items s) -> trash_encodable (trash_items s) ->
  Forall (fun e => same_entry e (trash_of now_text item line "") = false) (trash_items s) ->
  exists s1 s2,
    deleteCron trashPath owner now_text item s = (Ok tt, s1) /\
    content_at view s1 = Some (Join newline (before ++ after)) /\
    trash_items s1 = trash_of now_text item line "" :: trash_items s /\
    Restore trashPath owner (trash_of now_text item line "") s1 = (Ok tt, s2) /\
    content_at view s2 = Some (with_line (Join newline (before ++ after)) line) /\
    trash_items s2 = trash_items s /\
    (forall p, p <> view -> p <> trashPath -> fs_files s2.1 !! p = fs_files s.1 !! p).
Proof.
  intros Ha Hv Ht Hc Hd Hl Henc Henc' Hnew.
  destruct (delete_step item view data before line after s Ha Hv Ht Hd Hl Henc) as (s1 & E1 & Ha1 & H1 & Hi1 & Ho1).
  set (e := trash_of now_text item line "") in *.
  assert (List.filter (fun x => negb (same_entry x e)) (trash_items s1) = trash_items s) as Hf.
  { rewrite Hi1. cbn [List.filter]. unfold same_entry at 1. rewrite !string_eqb_refl. cbn [andb negb].
    clear -Hnew. induction Hnew as [|x l Hx _ IH]; [done|]. cbn [List.filter]. rewrite Hx. cbn [negb]. by f_equal. }
  destruct (restore_step e view _ s1 Ha1 Hv Ht H1 eq_refl Hc) as (s2 & E2 & H2 & Hi2 & Ho2); [by rewrite Hf|].
  exists s1, s2. split_and!; [done..|by rewrite Hi2|]. intros p Hp1 Hp2. by rewrite Ho2, Ho1.
Qed.

(** A restore does not look into the trash: any entry a client sends is written
    to the file it names. *)
Lemma restore_unchecked file view unit_ s :
  trash_apart view s -> hostFilesystemPath file = Ok view -> temporary view = false ->
  exists s', put_back (MkTrashEntry "" "systemd-service" "" file "" "" "" unit_ true) s
             = (let (r, s'') := systemctl ["daemon-reload"] s' in
                (match r with Ok r => match CommandErr r with Some e => Err e | None => Ok tt end | Err e => Err e end, s'')) /\
    content_at view s' = Some unit_.
Proof.
  intros [Hw _ _ _ _] Hv Ht. destruct (replace_works file view unit_ s Hv Ht Hw) as (s1 & E1 & _ & H1 & _).
  exists s1. split; [|done]. unfold put_back. cbn [Trash_Type Trash_File Trash_Unit].
  change (string_eqb "systemd-service" "cron") with false. change (HasPrefix "systemd-service" "systemd-") with true.
  cbv iota. rewrite (bind_step _ _ _ _ _ E1), SE_bind_unfold.
  by destruct (systemctl _ s1) as [[r|e] s2].
Qed.

(** ** A scan only reads *)

Definition reads {A} (m : SE (FS * W) A) : Prop := forall s, fs_files (m s).2.1 = fs_files s.1 /\ (m s).2.2 = s.2.

Lemma reads_ret {A} (r : result A) : reads (lift r).
Proof. done. Qed.
Lemma reads_bind {A B} (m : SE (FS * W) A) (k : A -> SE (FS * W) B) : reads m -> (forall a, reads (k a)) -> reads (x ← m; k x).
Proof.
  intros Hm Hk s. destruct (Hm s) as [H1 H2]. rewrite SE_bind_unfold. destruct (m s) as [[a|e] s']; [|done].
  destruct (Hk a s') as [H3 H4]. by rewrite H3, H4.
Qed.
Lemma reads_attempt {A} (m : SE (FS * W) A) : reads m -> reads (attempt m).
Proof. intros Hm s. specialize (Hm s). unfold attempt. by destruct (m s). Qed.
Lemma reads_stat path : reads (files_ (fs_Stat path)).
Proof. intros [[F dirs [|[?|?] script]] w]; done. Qed.
Lemma reads_dir path : reads (files_ (fs_ReadDir path)).
Proof. intros [[F dirs [|[?|?] script]] w]; done. Qed.
Lemma read_file_cases path s : exists fs', fs_files fs' = fs_files s.1 /\
  (exists data, content_at path s = Some data /\ files_ (W := W) (read_file path) s = (Ok data, (fs', s.2)) \/
   exists e, files_ (W := W) (read_file path) s = (Err e, (fs', s.2))).
Proof.
  destruct (fs_ReadFile_cases path s.1) as (fs' & Hf & [E|[e E]]); exists fs'; (split; [done|]).
  - unfold files_, read_file. rewrite (bind_step _ _ _ _ _ E). unfold content_at.
    destruct (file_data <$> fs_files s.1 !! path) as [data|]; [exists data; by left|exists ""; right; by eexists].
  - exists "". right. exists e. unfold files_, read_file. by rewrite SE_bind_unfold, E.
Qed.
Lemma reads_file path : reads (files_ (read_file path)).
Proof. intros s. by destruct (read_file_cases path s) as (fs' & Hf & data & [[_ ->]|[e ->]]). Qed.
Lemma reads_each {A} files (k : string -> string -> list A) : reads (read_each files k).
Proof.
  induction files as [|file files IH]; [apply (reads_ret (Ok _))|]. cbn [read_each].
  apply reads_bind; [apply reads_attempt, reads_file|]. intros data. apply reads_bind; [done|]. intros rest.
  apply (reads_ret (Ok _)).
Qed.
Lemma reads_cron logical : reads (scanCronPath logical).
Proof.
  unfold scanCronPath. destruct (hostFilesystemPath logical) as [view|e]; [|apply (reads_ret (Ok _))].
  apply reads_bind; [apply reads_attempt, reads_stat|]. intros [[f|]|e]; [apply reads_each| |apply (reads_ret (Ok _))].
  apply reads_bind; [apply reads_dir|]. intros names. apply reads_each.
Qed.
Lemma reads_units logical : reads (scanSystemdPath logical).
Proof.
  unfold scanSystemdPath. destruct (hostFilesystemPath logical) as [view|e]; [|apply (reads_ret (Ok _))].
  assert (forall ext, reads (scan_units logical view ext)) as Hu.
  { intros ext. unfold scan_units, glob_ext. repeat (apply reads_bind; [apply reads_dir|intros ?]).
    apply reads_bind; [|intros ?; apply reads_each]. apply reads_bind; [apply reads_dir|intros ?; apply (reads_ret (Ok _))]. }
  repeat (apply reads_bind; [apply Hu|intros ?]). apply (reads_ret (Ok _)).
Qed.
Lemma reads_scan_each scan paths : (forall path, reads (scan path)) -> reads (scan_each scan paths).
Proof.
  intros Hs. induction paths as [|path paths IH]; [apply (reads_ret (Ok _))|]. cbn [scan_each].
  apply reads_bind; [apply Hs|intros ?]. apply reads_bind; [done|intros ?]. apply (reads_ret (Ok _)).
Qed.
Lemma reads_Scan : reads (Scan (W := W)).
Proof.
  unfold Scan. apply reads_bind; [apply reads_scan_each, reads_cron|intros ?].
  apply reads_bind; [apply reads_scan_each, reads_units|intros ?].
  apply reads_bind; [|intros ?; apply (reads_ret (Ok _))]. by intros s.
Qed.

(** ** What switching can change *)

(** The commands about a unit, by name. *)
Definition unit_commands (name : string) (argv : list string) : Prop :=
  argv = ["/usr/bin/env"; "systemctl"; "is-enabled"; name] \/
  argv = ["/usr/bin/env"; "systemctl"; "disable"; "--now"; name] \/
  argv = ["/usr/bin/env"; "systemctl"; "enable"; "--now"; name].

(** Running commands that satisfy [P], one after the other. *)
Inductive ran (P : list string -> Prop) : FS * W -> FS * W -> Prop :=
  | ran_nothing s : ran P s s
  | ran_command s argv s' : P argv -> ran P (Run argv s).2 s' -> ran P s s'.

Definition killed (item : SysItem) s s' : Prop :=
  exists pid data, (1 < pid)%Z /\ read_cmdline (Itoa pid) s = Ok data /\ Join " " (cmdline_args data) = Sys_Target item /\
    s' = (kill_TERM pid s).2.

Definition toggle_effect (item : SysItem) s s' : Prop :=
  leftover (fs_files s.1) (fs_files s'.1) /\ s'.2 = s.2 \/
  Sys_Type item = "cron" /\ s'.2 = s.2 /\
    (exists view data before line after f,
       hostFilesystemPath (Sys_File item) = Ok view /\ content_at view s = Some data /\
       Split LFc data = before ++ line :: after /\ says item line = true /\
       file_data f = Join newline (before ++ toggled line :: after) /\ fs_files s'.1 = <[view := f]> (fs_files s.1)) \/
  is_unit (Sys_Type item) = true /\ ran (unit_commands (Sys_Name item)) s s' \/
  Sys_Type item = "inotify-proc" /\ killed item s s'.

Lemma toggleCron_effect item s view :
  hostFilesystemPath (Sys_File item) = Ok view ->
  Sys_Type item = "cron" -> toggle_effect item s (toggleCron item s).2.
Proof.
  intros Hv Hc. unfold toggleCron, read_logical. rewrite Hv.
  assert (forall s' : FS * W, fs_files s'.1 = fs_files s.1 -> s'.2 = s.2 -> toggle_effect item s s') as Hsame
    by (intros s' H1 H2; left; split; [by left|done]).
  rewrite SE_bind_unfold.
  change ((v ← lift (Ok view); files_ (read_file v)) s) with (files_ (W := W) (read_file view) s).
  destruct (read_file_cases view s) as (fs1 & Hf1 & data & [[Hd ->]|[e ->]]); [|by apply Hsame].
  destruct (first_line (says item) (Split LFc data)) as [[[before line] after]|] eqn:El; [|by apply Hsame].
  destruct (first_line_here _ _ _ _ _ El) as (Hs & Hp & _).
  pose proof (atomicReplaceHostFile_hoare (fs_files fs1) (Sys_File item) (Join newline (before ++ toggled line :: after)) 420
    view Hv) as Hr. specialize (Hr ltac:(right; rewrite Hf1; unfold content_at in Hd; by destruct (fs_files s.1 !! view)) fs1 eq_refl).
  rewrite SE_bind_unfold. unfold files_ at 1. cbn [fst snd].
  destruct (atomicReplaceHostFile _ _ _ fs1) as [[u|e] fs2]; cbn [fst snd].
  - right. left. split; [done|]. split; [done|]. destruct Hr as (f & Hfd & Hff).
    exists view, data, before, line, after, f. split_and!; [done..|]. cbn. by rewrite Hff, Hf1.
  - left. cbn. rewrite <-Hf1. done.
Qed.

Lemma ran_Run P argv s : P argv -> ran P s (Run argv s).2.
Proof. intros Hp. eapply ran_command; [done|]. constructor. Qed.

Lemma toggleSystemd_effect name s : ran (unit_commands name) s (toggleSystemd (W := W) name s).2.
Proof.
  unfold toggleSystemd, systemctl. rewrite SE_bind_unfold.
  destruct (Run_total (["/usr/bin/env"; "systemctl"] ++ ["is-enabled"; name]) s) as (r1 & s1 & E1). rewrite E1.
  pose proof (fun s' => ran_command (unit_commands name) s (["/usr/bin/env"; "systemctl"] ++ ["is-enabled"; name]) s'
    ltac:(by left)) as Hstep. rewrite E1 in Hstep. apply Hstep. clear Hstep E1.
  assert (forall what args (m : SE (FS * W) string), unit_commands name (["/usr/bin/env"; "systemctl"] ++ args) ->
    (forall s', (m s').2 = s') -> ran (unit_commands name) s1 ((_ ← systemctl_ok what args; m) s1).2) as Hcmd.
  { intros what args m Hu Hm. unfold systemctl_ok, systemctl. rewrite !SE_bind_unfold.
    pose proof (ran_Run _ _ s1 Hu) as Hr.
    destruct (Run_total (["/usr/bin/env"; "systemctl"] ++ args) s1) as (r2 & s2 & E2). rewrite E2 in *. cbn [snd] in Hr.
    unfold lift. destruct (fail_if _ _); [by rewrite Hm|done]. }
  destruct (string_eqb _ "enabled"); apply Hcmd; try done; [right; by left|right; by right].
Qed.

Lemma killInotify_effect item s :
  exists s', (killInotify (W := W) item s).2 = s' /\ (s' = s \/ killed item s s').
Proof.
  unfold killInotify. destruct (Split slash (Sys_File item)) as [|? [|proc [|pidText [|? ?]]]]; try by (exists s; auto).
  destruct (string_eqb proc "proc"); cbn [negb]; [|by exists s; auto]. destruct (Atoi pidText) as [pid|]; [|by exists s; auto].
  destruct (pid <=? 1)%Z eqn:El; [by exists s; auto|]. rewrite (bind_step get_state _ s s s) by done.
  rewrite SE_bind_unfold. unfold lift at 1. destruct (read_cmdline (Itoa pid) s) as [data|e] eqn:Er; [|by exists s; auto].
  destruct (string_eqb (Join " " (cmdline_args data)) (Sys_Target item)) eqn:Ec; cbn [negb]; [|by exists s; auto].
  exists (kill_TERM pid s).2. rewrite SE_bind_unfold. unfold kill_process. split; [by destruct (kill_TERM pid s) as [[?|?] ?]|].
  right. exists pid, data. bool_simpl. by apply string_eqb_true in Ec.
Qed.

Lemma Toggle_effect requested s :
  let (r, s') := Toggle requested s in
  fs_files s'.1 = fs_files s.1 /\ s'.2 = s.2 /\ is_Ok r = false \/
  exists items s1 item, Scan s = (Ok items, s1) /\ fs_files s1.1 = fs_files s.1 /\ s1.2 = s.2 /\
    item ∈ items /\ sameSysItem item requested = true /\ toggle_effect item s1 s'.
Proof.
  unfold Toggle, currentItem. rewrite !SE_bind_unfold. destruct (reads_Scan s) as [Hf Hw].
  destruct (Scan s) as [[items|e] s1]; [|by left]. cbn [fst snd] in *.
  destruct (List.find _ items) as [item|] eqn:Ef; [|by left].
  apply List.find_some in Ef as [Hin Hsame]. apply list_elem_of_In in Hin. unfold mret, SE_ret.
  assert (forall m : SE (FS * W) string, toggle_effect item s1 (m s1).2 ->
    let (r, s') := m s1 in
    fs_files s'.1 = fs_files s.1 /\ s'.2 = s.2 /\ is_Ok r = false \/
    exists items0 s2 item0, (Ok items, s1) = (Ok items0, s2) /\ fs_files s2.1 = fs_files s.1 /\ s2.2 = s.2 /\
      item0 ∈ items0 /\ sameSysItem item0 requested = true /\ toggle_effect item0 s2 s') as Hgo.
  { intros m He. destruct (m s1) as [r s']. right. exists items, s1, item. by split_and!. }
  assert (toggle_effect item s1 s1) as Hnothing by (left; split; [by left|done]).
  destruct (string_eqb (Sys_Type item) "cron") eqn:Ec.
  { apply string_eqb_true in Ec. apply Hgo. destruct (hostFilesystemPath (Sys_File item)) as [view|e] eqn:Ev.
    - by eapply toggleCron_effect.
    - unfold toggleCron, read_logical. by rewrite Ev. }
  destruct (is_unit (Sys_Type item)) eqn:Eu.
  { apply Hgo. right. right. left. split; [done|]. apply toggleSystemd_effect. }
  destruct (string_eqb (Sys_Type item) "inotify-proc") eqn:Ei; [|by apply Hgo].
  apply string_eqb_true in Ei. apply Hgo. destruct (killInotify_effect item s1) as (s2 & -> & [->|Hk]); [done|].
  right. right. by right.
Qed.
End Steps.

(** ** A cron file the scheduler writes, as the inventory reads it *)

(** A line that starts with a number sign or has fewer than six fields is no item. *)
Lemma no_item words file managed :
  Forall word words -> words <> [] -> (length words < 6)%nat \/ HasPrefix (Join " " words) "#" = true ->
  HasPrefix (Join " " words) sbOff = false ->
  (let (off, body) := line_body (Join " " words) in set_disabled off <$> parseCronLine body file managed) = None.
Proof.
  intros Hw Hne Hc Hoff. unfold line_body. rewrite TrimSpace_words, Hoff by done. unfold parseCronLine.
  rewrite TrimSpace_words by done. rewrite Fields_words by done. destruct Hc as [Hl| ->]; [|by rewrite orb_true_r].
  destruct (_ || _); [done|]. by rewrite (proj2 (Nat.ltb_lt _ _) Hl).
Qed.

Lemma word_no_lf w : word w -> has_byte LFc w = false.
Proof.
  intros [_ Hw]. unfold has_byte. apply negb_false_iff. eapply string_forallb_impl; [|exact Hw]. unfold plain_char. all_bytes.
Qed.

Lemma words_no_lf words : Forall word words -> has_byte LFc (Join " " words) = false.
Proof.
  induction 1 as [|w words Hw _ IH]; [done|]. destruct words as [|w2 words]; [by apply word_no_lf|].
  rewrite Join_cons by done. by rewrite !has_byte_app, word_no_lf, IH.
Qed.

Lemma number_words (id : Z) rev : in_s64 id -> (0 <= rev)%Z -> word (Itoa id) /\ word (FormatUint rev).
Proof.
  intros Hid Hrev. destruct (Itoa_plain id Hid) as [H1 H2]. split; [done|].
  destruct (FormatUint_cons rev) as (c & r & E). split; [by rewrite E|].
  eapply string_forallb_impl; [apply digit_plain|by apply FormatUint_digits].
Qed.

Lemma marker_line job : 
  sbMarker +:+ " managed job " +:+ Itoa (Job_ID job) +:+ " revision " +:+ FormatUint (Job_Revision job) =
  Join " " ["#"; "syncbridge"; "managed"; "job"; Itoa (Job_ID job); "revision"; FormatUint (Job_Revision job)].
Proof. done. Qed.

Lemma cron_content_lines job wrapper fields :
  TrimSpace (Job_Cron job) = Join " " fields -> fields <> [] ->
  cron_content job wrapper =
  Join newline [Join " " ["#"; "syncbridge"; "managed"; "job"; Itoa (Job_ID job); "revision"; FormatUint (Job_Revision job)];
                "SHELL=/bin/sh"; "PATH=/usr/local/sbin:/usr/local/bin:/usr/sbin:/usr/bin:/sbin:/bin";
                Join " " (fields ++ ["root"; wrapper]); ""].
Proof.
  intros Ht Hne. unfold cron_content, lines_. rewrite Ht, marker_line. cbn [fold_right Join].
  rewrite Join_app by done. cbn [Join]. by rewrite !app_assoc_str.
Qed.

Lemma Contains_app sub s t : Contains (s +:+ sub +:+ t) sub = true.
Proof.
  induction s as [|c s IH]; [rewrite app_empty_l|rewrite app_cons; cbn [Contains]; by rewrite IH, orb_true_r].
  destruct (sub +:+ t) eqn:E; cbn [Contains]; rewrite <-E, HasPrefix_app; done.
Qed.

(** The logical cron file of a job. *)
Definition cron_file (inst : string) (id : Z) : string := PathJoin [cron_dir; persistentBase inst id].

Lemma cron_file_name inst id : instanceIDPattern inst = true ->
  Base (cron_file inst id) = persistentBase inst id /\ Contains (cron_file inst id) "/cron.d/" = true.
Proof.
  intros Hi. destruct (base_good inst Hi id) as [Hg Hs]. unfold cron_file.
  change cron_dir with (abs_path ["etc"; "cron.d"]). rewrite PathJoin_abs by (done || by repeat constructor).
  rewrite abs_path_snoc by done. split; [apply Base_last; [by destruct Hg|done]|].
  change (abs_path ["etc"; "cron.d"] +:+ "/" +:+ ?n) with ("/etc" +:+ "/cron.d/" +:+ n). apply Contains_app.
Qed.

Definition job_item (inst : string) (job : Job) (fields : list string) (wrapper : string) : SysItem :=
  MkSysItem "cron" (persistentBase inst (Job_ID job)) (Join " " fields) wrapper (cron_file inst (Job_ID job)) true "" false.

Definition marker_words (job : Job) : list string :=
  ["#"; "syncbridge"; "managed"; "job"; Itoa (Job_ID job); "revision"; FormatUint (Job_Revision job)].

Definition cron_lines (job : Job) (fields : list string) (wrapper : string) : list (list string) :=
  [marker_words job; ["SHELL=/bin/sh"]; ["PATH=/usr/local/sbin:/usr/local/bin:/usr/sbin:/usr/bin:/sbin:/bin"];
   fields ++ ["root"; wrapper]; []].

Lemma cron_split job wrapper fields :
  in_s64 (Job_ID job) -> (0 <= Job_Revision job)%Z -> TrimSpace (Job_Cron job) = Join " " fields -> fields <> [] ->
  Forall word fields -> word wrapper ->
  Split LFc (cron_content job wrapper) = map (Join " ") (cron_lines job fields wrapper).
Proof.
  intros Hid Hrev Ht Hne Hf Hw. rewrite (cron_content_lines job wrapper fields) by done.
  destruct (number_words _ _ Hid Hrev) as [H1 H2].
  rewrite Split_lines; [done|done|].
  assert (Forall (Forall word) (cron_lines job fields wrapper)) as Hall.
  { unfold cron_lines, marker_words. repeat (apply Forall_cons; split); try apply Forall_nil; try done.
    apply Forall_app. split; [done|]. by repeat (apply Forall_cons; split). }
  change (Forall (fun l => has_byte LFc l = false) (map (Join " ") (cron_lines job fields wrapper))).
  apply Forall_map. eapply Forall_impl; [exact Hall|]. intros l. apply words_no_lf.
Qed.

(** ** One item after the other *)

Section EachItem.
Context {W A : Type} (name : A -> string) (done_ : string) (act : A -> SE (FS * W) unit).

Definition act_all (items : list A) (s : FS * W) : FS * W := fold_left (fun s item => (act item s).2) items s.

Fixpoint outcomes (items : list A) (s : FS * W) : list bool :=
  match items with [] => [] | item :: items => is_Ok (act item s).1 :: outcomes items (act item s).2 end.

Lemma each_item_spec items : done_ <> "error" -> forall s, exists out,
  each_item name done_ act items s = (Ok out, act_all items s) /\ map Item_Name out = map name items /\
  map (fun r => string_eqb (Item_State r) done_) out = outcomes items s.
Proof.
  intros Hd. induction items as [|item items IH]; intros s; [by exists []|]. cbn [each_item outcomes].
  rewrite SE_bind_unfold. unfold attempt. destruct (act item s) as [r s1] eqn:E.
  destruct (IH s1) as (out & E1 & Hn & Ho). rewrite (bind_step _ _ _ _ _ E1).
  eexists. split; [unfold act_all; cbn [fold_left]; by rewrite E|]. cbn [map snd fst]. rewrite Hn, Ho.
  destruct r; cbn; (split; [done|]); f_equal; [apply string_eqb_refl|by apply string_eqb_false, not_eq_sym].
Qed.
End EachItem.

(** ** Properties *)

(** The inventory reads back what the persistent scheduler writes.  The cron
    file of a job with a five-field schedule is listed as exactly one item: a
    managed one with the job's schedule and wrapper; and switching or deleting
    that item acts on the job's line, no other. *)
Theorem cron_artifact_listed inst job wrapper fields :
  instanceIDPattern inst = true -> in_s64 (Job_ID job) -> (0 <= Job_Revision job)%Z ->
  TrimSpace (Job_Cron job) = Join " " fields -> length fields = 5%nat -> forallb isCronField fields = true -> word wrapper ->
  let item := job_item inst job fields wrapper in
  cron_items (cron_file inst (Job_ID job)) (cron_content job wrapper) = [item] /\ classifySys item = "managed" /\
  exists before, first_line (says item) (Split LFc (cron_content job wrapper)) =
    Some (before, TrimSpace (Job_Cron job) +:+ " root " +:+ wrapper, [""]).
Proof.
  intros Hi Hid Hrev Ht Hlen Hf Hw item. destruct (cron_file_name inst (Job_ID job) Hi) as [Hb Hc].
  assert (fields <> []) as Hne by by destruct fields.
  assert (Forall word fields) as Hfw.
  { apply Forall_forall. intros f Hin. apply cron_word. rewrite forallb_forall in Hf. by apply Hf, list_elem_of_In. }
  destruct (number_words _ _ Hid Hrev) as [H1 H2].
  assert (Forall word (marker_words job)) as Hm by (repeat (apply Forall_cons; split); try apply Forall_nil; done).
  destruct (parse_root_line fields wrapper (cron_file inst (Job_ID job)) true Hlen Hf Hw Hc) as [Hl Hp].
  destruct (parse_root_line fields wrapper (cron_file inst (Job_ID job)) false Hlen Hf Hw Hc) as [_ Hp'].
  pose proof (cron_split job wrapper fields Hid Hrev Ht Hne Hfw Hw) as Hs.
  assert (forall m, (let (off, body) := line_body (Join " " (marker_words job)) in
     set_disabled off <$> parseCronLine body (cron_file inst (Job_ID job)) m) = None) as Hmark.
  { intros m. apply no_item; [done|done|by right|done]. }
  split; [|split; [done|]].
  - unfold cron_items. rewrite Hs. assert (Contains (cron_content job wrapper) sbMarker = true) as ->.
    { exact (Contains_app sbMarker "" _). }
    unfold cron_lines. cbn [map omap list_omap]. rewrite Hmark, Hl, Hp. cbn. by rewrite Hb.
  - exists (map (Join " ") (take 3 (cron_lines job fields wrapper))). rewrite Hs. unfold cron_lines. cbn [map take].
    assert (TrimSpace (Job_Cron job) +:+ " root " +:+ wrapper = Join " " (fields ++ ["root"; wrapper])) as ->.
    { rewrite Ht, Join_app by done. done. }
    apply (first_line_at (says item) [_; _; _]).
    + apply Forall_cons. split; [|by repeat constructor]. specialize (Hmark false). unfold says. fold item.
      change (Sys_File item) with (cron_file inst (Job_ID job)).
      destruct (line_body (Join " " (marker_words job))) as [off body]. cbn [snd].
      by destruct (parseCronLine body _ false).
    + unfold says. rewrite Hl. cbn [snd]. change (Sys_File item) with (cron_file inst (Job_ID job)). rewrite Hp'.
      cbn. by rewrite !string_eqb_refl.
Qed.

Lemma cron_artifact_listed_witness :
  cron_items "/etc/cron.d/syncbridge-nas-1-7" (cron_content demo_system_job "/opt/run") =
    [MkSysItem "cron" "syncbridge-nas-1-7" "0 2 * * *" "/opt/run" "/etc/cron.d/syncbridge-nas-1-7" true "" false].
Proof.
  apply (cron_artifact_listed "nas-1" demo_system_job "/opt/run" ["0"; "2"; "*"; "*"; "*"]); try done.
Defined.

(** Switching a cron line off and on again.  On a file system that works, the
    first switch of an item puts the marker before its line, which then still
    names the same item; the second takes it away.  No other line and no other
    file changes, and the file is what it was, up to white space around that
    line. *)
Theorem toggleCron_round_trip {W} item view data before line after (s : FS * W) :
  working s.1 -> hostFilesystemPath (Sys_File item) = Ok view -> temporary view = false -> content_at view s = Some data ->
  first_line (says item) (Split LFc data) = Some (before, line, after) -> (line_body line).1 = false ->
  exists s1 s2,
    toggleCron item s = (Ok "disabled", s1) /\
    content_at view s1 = Some (Join newline (before ++ (sbOff +:+ line) :: after)) /\
    toggleCron item s1 = (Ok "enabled", s2) /\
    content_at view s2 = Some (Join newline (before ++ TrimSpace line :: after)) /\
    (TrimSpace line = line -> content_at view s2 = Some data) /\ others_same view s s2.
Proof.
  intros Hw Hv Ht Hd Hl Hon. destruct (toggle_twice item view data before line after s) as (s1 & s2 & E1 & H1 & E2 & H2 & Ho); try done.
  exists s1, s2. split_and!; [done..| |done]. intros E. rewrite H2, E.
  destruct (first_line_here _ _ _ _ _ Hl) as [<- _]. f_equal. apply (Join_Split LFc).
Qed.

(** Deleting a cron line and restoring it.  With a trash that can be written,
    deletion takes exactly the item's line out of its file and puts it, with the
    item, on top of the trash; restoring that entry writes the line at the end of
    the file and takes the entry out of the trash, whose other entries stay.  No
    other file is touched. *)
Theorem delete_restore_line {W} `{!TrashCodec} trashPath owner now_text item view data before line after (s : FS * W) `{!HostCommandRunner (FS * W)} :
  trash_apart trashPath view s -> hostFilesystemPath (Sys_File item) = Ok view -> temporary view = false ->
  Sys_Type item = "cron" ->
  content_at view s = Some data -> first_line (says item) (Split LFc data) = Some (before, line, after) ->
  let entry := trash_of now_text item line "" in
  trash_encodable (entry :: trash_items trashPath s) -> trash_encodable (trash_items trashPath s) ->
  Forall (fun e => same_entry e entry = false) (trash_items trashPath s) ->
  exists s1 s2,
    deleteCron trashPath owner now_text item s = (Ok tt, s1) /\
    content_at view s1 = Some (Join newline (before ++ after)) /\
    trash_items trashPath s1 = entry :: trash_items trashPath s /\
    Restore trashPath owner entry s1 = (Ok tt, s2) /\
    content_at view s2 = Some (with_line (Join newline (before ++ after)) line) /\
    trash_items trashPath s2 = trash_items trashPath s /\
    (forall p, p <> view -> p <> trashPath -> fs_files s2.1 !! p = fs_files s.1 !! p).
Proof. intros Ha Hv Ht Hc Hd Hl entry H1 H2 H3. by eapply delete_then_restore. Qed.

(** What a client sends only selects.  Whatever the request names and
    whatever fails, switching an item scans the host first, and refuses without a
    change when no scanned item has the requested identity.  Otherwise the item
    acted on is the scanned one: a cron line of its file that says its schedule
    and target is switched, or [systemctl] is called for its unit, or its process
    is sent TERM after the command line was read again and is unchanged; apart
    from a temporary file no other file changes. *)
Theorem Toggle_revalidated {W} `{!HostCommandRunner (FS * W)} `{!ProcTable (FS * W)} requested (s : FS * W) :
  let (r, s') := Toggle requested s in
  fs_files s'.1 = fs_files s.1 /\ s'.2 = s.2 /\ is_Ok r = false \/
  exists items s1 item, Scan s = (Ok items, s1) /\ fs_files s1.1 = fs_files s.1 /\ s1.2 = s.2 /\
    item ∈ items /\ sameSysItem item requested = true /\ toggle_effect item s1 s'.
Proof. apply Toggle_effect. Qed.

(** Deletion asks for a confirmation and then tries every item.  A request
    of another method, one that cannot be decoded and one without the word delete
    are refused, and nothing is touched.  Otherwise the items are deleted one after
    the other, the failure of one does not keep the others, and the answer has one
    result for each item in order, which says whether it was deleted. *)
Theorem system_delete_confirmed {W} `{!HostCommandRunner (FS * W)} `{!ProcTable (FS * W)} `{!TrashCodec} `{!SystemDecoder}
    trashPath owner now_text method body (s : FS * W) :
  let delete := Delete trashPath owner now_text in
  let (r, s') := handleSystemDelete trashPath owner now_text method body s in
  (exists text code, r = Ok (HttpError text code) /\ s' = s /\
     forall items confirm, method = "POST" -> decode_delete body = Ok (items, confirm) ->
       ToLower (TrimSpace confirm) <> "delete") \/
  (exists items confirm out, method = "POST" /\ decode_delete body = Ok (items, confirm) /\
     ToLower (TrimSpace confirm) = "delete" /\ r = Ok (ResultsBody out) /\ s' = act_all delete items s /\
     map Item_Name out = map Sys_Name items /\
     map (fun result => string_eqb (Item_State result) "deleted") out = outcomes delete items s).
Proof.
  unfold handleSystemDelete. destruct (string_eqb method "POST") eqn:Em; cbn [negb].
  2: { left. eexists _, _. split; [done|]. split; [done|]. intros ? ? ->. done. }
  apply string_eqb_true in Em. destruct (decode_delete body) as [[items confirm]|e] eqn:Ed.
  2: { left. by eexists _, _. }
  destruct (string_eqb (ToLower (TrimSpace confirm)) "delete") eqn:Ec; cbn [negb].
  - destruct (each_item_spec Sys_Name "deleted" (Delete trashPath owner now_text) items ltac:(done) s)
      as (out & E & Hn & Ho). rewrite (bind_step _ _ _ _ _ E). right. apply string_eqb_true in Ec. by exists items, confirm, out.
  - left. apply string_eqb_false in Ec. eexists _, _. split; [done|]. split; [done|]. by intros ? ? _ [= <- <-].
Qed.

(** *** The host of the persistent scheduler, with a trash *)

Definition demo_item : SysItem :=
  MkSysItem "cron" "jobs" "5 4 * * *" "/opt/nightly.sh" "/etc/cron.d/jobs" false "custom" false.

Definition demo_jobs : string := Join newline ["MAILTO=root"; "5 4 * * * root /opt/nightly.sh"; "# end"; ""].

Definition demo_cron_host : FS * unit :=
  (MkFS {["/proc/1/root/etc/cron.d/jobs" := demo_host_file demo_jobs]} [] [], tt).

Definition demo_entry : TrashEntry := trash_of "now" demo_item "5 4 * * * root /opt/nightly.sh" "".

#[local] Existing Instance demo_run_host.

#[local] Instance demo_trash : TrashCodec.
Proof.
  refine {|
    unmarshal_trash := fun text => if string_eqb text "1" then Ok [demo_entry] else Ok [];
    marshal_trash := fun items => match items with [] => Ok "0" | _ => Ok "1" end;
    trash_encodable := fun items => items = [] \/ items = [demo_entry] |}.
  by intros items [->| ->]; eexists.
Defined.

Lemma demo_cron_works : working demo_cron_host.1.
Proof. split; [done|]. intros path Hp. cbn. by rewrite lookup_singleton_ne by (intros <-; by vm_compute in Hp). Qed.

Lemma toggleCron_round_trip_witness :
  exists s1 s2, toggleCron demo_item demo_cron_host = (Ok "disabled", s1) /\
    content_at "/proc/1/root/etc/cron.d/jobs" s1 =
      Some (Join newline ["MAILTO=root"; "#SB-OFF# 5 4 * * * root /opt/nightly.sh"; "# end"; ""]) /\
    toggleCron demo_item s1 = (Ok "enabled", s2) /\ content_at "/proc/1/root/etc/cron.d/jobs" s2 = Some demo_jobs.
Proof.
  destruct (toggleCron_round_trip demo_item "/proc/1/root/etc/cron.d/jobs" demo_jobs ["MAILTO=root"]
    "5 4 * * * root /opt/nightly.sh" ["# end"; ""] demo_cron_host demo_cron_works) as (s1 & s2 & E1 & H1 & E2 & _ & H2 & _);
    [by vm_compute..|].
  exists s1, s2. split; [exact E1|]. split; [exact H1|]. split; [exact E2|]. by apply H2.
Defined.

Lemma delete_restore_line_witness :
  exists s1 s2, deleteCron "/data/trash.json" process_owner "now" demo_item demo_cron_host = (Ok tt, s1) /\
    trash_items "/data/trash.json" s1 = [demo_entry] /\
    Restore "/data/trash.json" process_owner demo_entry s1 = (Ok tt, s2) /\
    content_at "/proc/1/root/etc/cron.d/jobs" s2 =
      Some (Join newline ["MAILTO=root"; "# end"; "5 4 * * * root /opt/nightly.sh"; ""]).
Proof.
  destruct (delete_restore_line "/data/trash.json" process_owner "now" demo_item
    "/proc/1/root/etc/cron.d/jobs" demo_jobs ["MAILTO=root"] "5 4 * * * root /opt/nightly.sh" ["# end"; ""] demo_cron_host)
    as (s1 & s2 & E1 & _ & H1 & E2 & H2 & _).
  - split; [apply demo_cron_works|by vm_compute..].
  - by vm_compute.
  - by vm_compute.
  - done.
  - by vm_compute.
  - by vm_compute.
  - by right.
  - by left.
  - apply Forall_nil. done.
  - exists s1, s2. split; [exact E1|]. split; [exact H1|]. split; [exact E2|]. exact H2.
Defined.

(** ** Where the artifacts fall short *)

(** A schedule is checked by its number of fields only, and is written as it is:
    one with line ends adds lines of its own to the host's cron file. *)
Definition lines_job : Job :=
  MkJob 2 7 3 "nightly" true false (Job_Action demo_system_job) (Job_Identity demo_system_job) (Job_Execution demo_system_job)
    TriggerCron (MkSchedulerPolicy SchedulerSystem) "" "" "" "" "" "" ""
    (Join newline ["SHELL=/tmp/x"; "A=b"; "C=d"; "E=f"; "@daily"]) "" "" 0 0 0 "" "" false 0 0 false false "" false "" "".

Lemma cron_lines_injected :
  validateV2Job (normalizeV2Job lines_job) = Ok tt /\
  nth_error (Split LFc (cron_content (normalizeV2Job lines_job) "/opt/run")) 3 = Some "SHELL=/tmp/x".
Proof. by vm_compute. Qed.

(** The units of a watch carry no marker: the inventory lists them as foreign. *)
Lemma watch_units_unmanaged :
  Sys_Managed (unit_item "/etc/systemd/system/syncbridge-nas-1-7.service" "syncbridge-nas-1-7.service"
                 (service_content demo_system_job "/opt/run")) = false /\
  Sys_Managed (unit_item "/etc/systemd/system/syncbridge-nas-1-7.path" "syncbridge-nas-1-7.path"
                 (path_content demo_system_job "syncbridge-nas-1-7")) = false.
Proof. by vm_compute. Qed.
