(* ===== verification/Auth.v ===== *)
(** * Authentication ([auth.go])

    One account, in the environment or in a file with its password's bcrypt hash;
    sessions in memory; a global throttle of failed logins.  Times are nanoseconds.
    Every map operation is one critical section; a request is the sequence of its
    own, and requests are taken one after the other. *)

From S2P Require Import Prelude GoStrings Model LogBuffer AtomicFile JobRepository HostCommand ExecutionPlan HostFiles.

Definition sessionTTL : Z := 7 * 24 * 3600 * second.

Record authFile := MkAuthFile { auth_User : string; auth_Hash : string }.

(** [loginUntil] is [None] for the zero time. *)
Record AuthState := MkAuthState { sessions : gmap string Z; loginFails : Z; loginUntil : option Z }.

Definition newAuthState : AuthState := MkAuthState ∅ 0 None.

(** ** The throttle *)

(** The time to wait. *)
Definition loginLocked (now : Z) (st : AuthState) : option Z :=
  match loginUntil st with
  | Some until => if (now <? until)%Z then Some (until - now)%Z else None
  | None => None
  end.

Definition loginFail (now : Z) (st : AuthState) : AuthState :=
  let fails := wrap_s64 (loginFails st + 1) in
  if (fails >=? 5)%Z then
    let d := wrap_s64 (wrap_s64 ((fails - 4) * 30) * second) in
    let d := if (d >? 15 * 60 * second)%Z then (15 * 60 * second)%Z else d in
    MkAuthState (sessions st) fails (Some (now + d)%Z)
  else MkAuthState (sessions st) fails (loginUntil st).

Definition loginOK (st : AuthState) : AuthState := MkAuthState (sessions st) 0 None.

(** ** Sessions *)

Definition set_sessions (m : gmap string Z) (st : AuthState) : AuthState := MkAuthState m (loginFails st) (loginUntil st).

(** One tick of [pruneSessions]. *)
Definition prune_sessions (now : Z) (st : AuthState) : AuthState :=
  set_sessions (filter (fun kv => (now <= kv.2)%Z) (sessions st)) st.

(** The new cookie is the token. *)
Definition newSession (now : Z) (bytes : string) (st : AuthState) : string * AuthState :=
  let tok := EncodeToString bytes in
  (tok, set_sessions (<[tok := (now + sessionTTL)%Z]> (sessions st)) st).

Definition validSession (now : Z) (cookie : option string) (st : AuthState) : bool * AuthState :=
  match cookie with
  | None => (false, st)
  | Some tok =>
      match sessions st !! tok with
      | None => (false, st)
      | Some exp => if (now >? exp)%Z then (false, set_sessions (delete tok (sessions st)) st) else (true, st)
      end
  end.

Definition clearSession (cookie : option string) (st : AuthState) : AuthState :=
  match cookie with Some tok => set_sessions (delete tok (sessions st)) st | None => st end.

(** ** Files *)

(** [os.WriteFile] *)
Definition truncated (path : string) (mode : Z) (files : gmap string file) : gmap string file :=
  match files !! path with
  | Some f => <[path := MkFile "" (file_mode f) (file_owner f) false]> files
  | None => <[path := MkFile "" mode process_owner false]> files
  end.
Definition fs_WriteFile (path data : string) (mode : Z) : SE FS unit :=
  _ ← fs_op "open" (fs_set_files (truncated path mode));
  _ ← fs_Write path data;
  fs_Close path.

(** [own]: best effort. *)
Definition own (path : string) (owner : FileOwner) : SE FS unit := ignore (fs_Chown path owner).

(** [bcrypt] and the JSON of the account file. *)
Class AuthLib := {
  GenerateFromPassword : string -> result string;
  CompareHashAndPassword : string -> string -> bool;
  unmarshal_auth : string -> result authFile;
  marshal_auth : authFile -> string;
  bcrypt_accepts p h : GenerateFromPassword p = Ok h -> CompareHashAndPassword h p = true;
  auth_encodable : authFile -> Prop;   (* text that is valid UTF-8 *)
  auth_roundtrip a : auth_encodable a -> unmarshal_auth (marshal_auth a) = Ok a
}.

Section Auth.
Context `{!AuthLib}.
(** [SYNCBRIDGE_USER] and [SYNCBRIDGE_PASSWORD], the data directory, the owner
    of files. *)
Context (env_user env_password : string) (dataDir : string) (owner : FileOwner).

Definition authPath : string := PathJoin [dataDir; "auth.json"].

Definition envCreds : option (string * string) :=
  if negb (string_eqb env_user "") && negb (string_eqb env_password "") then Some (env_user, env_password) else None.

Definition authConfigured : SE FS bool :=
  match envCreds with
  | Some _ => mret true
  | None => st ← attempt (fs_Stat authPath); mret (match st with Ok (Some _) => true | _ => false end)
  end.

Definition loadAuthFile : SE FS (option authFile) :=
  data ← attempt (fs_ReadFile authPath);
  mret (match data with
        | Ok (Some data) => match unmarshal_auth data with Ok a => Some a | Err _ => None end
        | _ => None
        end).

Definition ctEq (a b : string) : bool := (str_len a =? str_len b)%Z && string_eqb a b.

Definition verifyCreds (user pass : string) : SE FS bool :=
  match envCreds with
  | Some (u, p) => mret (ctEq user u && ctEq pass p)
  | None =>
      a ← loadAuthFile;
      mret (match a with
            | Some a => ctEq user (auth_User a) && CompareHashAndPassword (auth_Hash a) pass
            | None => false
            end)
  end.

(** ** The requests *)

Inductive AuthResponse :=
  | AuthError (text : string) (code : Z)
  | Throttled (retryAfter : Z)
  | AuthStatus (configured authed envManaged : bool)
  | LoggedIn (token : string)
  | LoggedOut.

(** The files and the state in memory; [user] and [pass] are what the body
    decodes to; [bytes] are the 32 random bytes of a new session. *)
Definition AuthWorld : Type := FS * AuthState.

Definition on_files {A} (m : SE FS A) (w : AuthWorld) : result A * AuthWorld :=
  let (r, fs) := m w.1 in (r, (fs, w.2)).

Definition start_session (now : Z) (bytes : string) (w : AuthWorld) : AuthResponse * AuthWorld :=
  let (tok, st) := newSession now bytes w.2 in (LoggedIn tok, (w.1, st)).

Definition apiAuthStatus (now : Z) (cookie : option string) (w : AuthWorld) : AuthResponse * AuthWorld :=
  let (configured, w) := on_files authConfigured w in
  let (authed, st) := validSession now cookie w.2 in
  (AuthStatus (match configured with Ok b => b | Err _ => false end) authed (bool_decide (is_Some envCreds)), (w.1, st)).

Definition register_account (user pass : string) : SE FS unit :=
  h ← lift (replace_err "erreur de hachage" (GenerateFromPassword pass));
  _ ← fs_WriteFile authPath (marshal_auth (MkAuthFile user h)) 384;
  own authPath owner.

Definition apiAuthRegister (now : Z) (bytes user pass : string) (w : AuthWorld) : AuthResponse * AuthWorld :=
  let (configured, w) := on_files authConfigured w in
  if match configured with Ok b => b | Err _ => false end
  then (AuthError "un compte est déjà configuré" 403, w)
  else
    let user := TrimSpace user in
    if (str_len user <? 3)%Z || (str_len pass <? 6)%Z
    then (AuthError "identifiant ≥ 3 caractères et mot de passe ≥ 6 caractères" 400, w)
    else match on_files (register_account user pass) w with
    | (Err e, w) => (AuthError (error_text e) 500, w)
    | (Ok _, w) => start_session now bytes w
    end.

Definition apiAuthLogin (now : Z) (bytes user pass : string) (w : AuthWorld) : AuthResponse * AuthWorld :=
  match loginLocked now w.2 with
  | Some wait => (Throttled (wait / second + 1), w)
  | None =>
      let (verified, w) := on_files (verifyCreds (TrimSpace user) pass) w in
      if match verified with Ok b => b | Err _ => false end
      then start_session now bytes (w.1, loginOK w.2)
      else (AuthError "identifiants invalides" 401, (w.1, loginFail now w.2))
  end.

Definition apiAuthLogout (cookie : option string) (w : AuthWorld) : AuthResponse * AuthWorld :=
  (LoggedOut, (w.1, clearSession cookie w.2)).

(** [requireAuth]: what becomes of a request. *)
Inductive Gate := Passes | Unauthorized | AuthPage.

Definition requireAuth (now : Z) (path : string) (cookie : option string) (w : AuthWorld) : Gate * AuthWorld :=
  if HasPrefix path "/api/auth/" || HasPrefix path "/_app/" then (Passes, w)
  else
    let (valid, st) := validSession now cookie w.2 in
    (if valid then Passes else if HasPrefix path "/api/" then Unauthorized else AuthPage, (w.1, st)).
End Auth.
