(* ===== verification/AuthProofs.v ===== *)
(** * Authentication: proofs

    The sessions of any history of requests, the throttle, and the account from
    its registration on. *)

From S2P Require Import Prelude GoStrings Model LogBuffer AtomicFile JobRepository HostCommand ExecutionPlan HostFiles Auth.

Definition line_feed : ascii := Ascii.ascii_of_nat 10.

Section Served.
Context `{lib : !AuthLib} (env_user env_password : string) (dataDir : string) (owner : FileOwner).
Notation env_creds := (envCreds env_user env_password).
Notation verify := (verifyCreds env_user env_password dataDir).
Notation configured := (authConfigured env_user env_password dataDir).

(** ** Histories

    One request after the other, with what it found on disk and its answer; the
    files may change in between. *)

Inductive auth_request :=
  | RStatus (cookie : option string)
  | RRegister (bytes user pass : string)
  | RLogin (bytes user pass : string)
  | RLogout (cookie : option string)
  | RPage (path : string) (cookie : option string)
  | RPrune.

Inductive auth_answer := Answer (r : AuthResponse) | Gated (g : Gate) | Pruned.

Definition serve (now : Z) (req : auth_request) (w : AuthWorld) : auth_answer * AuthWorld :=
  match req with
  | RStatus cookie => let (r, w) := apiAuthStatus env_user env_password dataDir now cookie w in (Answer r, w)
  | RRegister bytes user pass =>
      let (r, w) := apiAuthRegister env_user env_password dataDir owner now bytes user pass w in (Answer r, w)
  | RLogin bytes user pass =>
      let (r, w) := apiAuthLogin env_user env_password dataDir now bytes user pass w in (Answer r, w)
  | RLogout cookie => let (r, w) := apiAuthLogout cookie w in (Answer r, w)
  | RPage path cookie => let (g, w) := requireAuth now path cookie w in (Gated g, w)
  | RPrune => (Pruned, (w.1, prune_sessions now w.2))
  end.

Record event := MkEvent { ev_time : Z; ev_files : FS; ev_request : auth_request; ev_answer : auth_answer }.

(** The latest request comes first. *)
Inductive served : list event -> AuthState -> Prop :=
  | served_start : served [] newAuthState
  | served_next tr st now fs req ans w :
      served tr st -> serve now req (fs, st) = (ans, w) -> served (MkEvent now fs req ans :: tr) w.2.

(** ** Where sessions come from *)

Definition logs_out (tok : string) (e : event) : Prop := ev_request e = RLogout (Some tok).

(** The request that opened a session: a login with credentials that were
    verified, or the registration of the first account. *)
Definition opened (tok : string) (e : event) : Prop :=
  ev_answer e = Answer (LoggedIn tok) /\
  ((exists bytes user pass, ev_request e = RLogin bytes user pass /\ (verify (TrimSpace user) pass (ev_files e)).1 = Ok true) \/
   (exists bytes user pass, ev_request e = RRegister bytes user pass /\ (configured (ev_files e)).1 = Ok false)).

Definition open_session (tr : list event) (tok : string) (exp : Z) : Prop :=
  exists tr1 e tr2, tr = tr1 ++ e :: tr2 /\ opened tok e /\ exp = (ev_time e + sessionTTL)%Z /\
    Forall (fun x => ~ logs_out tok x) tr1.

Lemma open_session_cons tr tok exp x : open_session tr tok exp -> ~ logs_out tok x -> open_session (x :: tr) tok exp.
Proof. intros (tr1 & e & tr2 & -> & Ho & He & Hl) Hx. exists (x :: tr1), e, tr2. split_and!; [done..|]. by constructor. Qed.

Lemma validSession_sub now cookie st tok exp :
  sessions (validSession now cookie st).2 !! tok = Some exp -> sessions st !! tok = Some exp.
Proof.
  unfold validSession. destruct cookie as [c|]; [|done]. destruct (sessions st !! c) as [x|] eqn:E; [|done].
  destruct (now >? x)%Z; [|done]. cbn. destruct (decide (c = tok)) as [->|Hne]; [by rewrite lookup_delete_eq|].
  by rewrite lookup_delete_ne.
Qed.

Lemma on_files_case {A} (m : SE FS A) fs st : on_files m (fs, st) = ((m fs).1, ((m fs).2, st)).
Proof. unfold on_files. cbn. by destruct (m fs). Qed.

Lemma configured_total fs : exists b, (configured fs).1 = Ok b.
Proof.
  unfold authConfigured. destruct env_creds; [by eexists|]. rewrite SE_bind_unfold. unfold attempt.
  destruct (fs_Stat _ fs) as [r fs']. by eexists.
Qed.

(** A session in the new state was there, and the request was no logout of it,
    or it was opened by this request. *)
Lemma serve_sessions now req fs st ans w tok exp :
  serve now req (fs, st) = (ans, w) -> sessions w.2 !! tok = Some exp ->
  sessions st !! tok = Some exp /\ req <> RLogout (Some tok) \/
  opened tok (MkEvent now fs req ans) /\ exp = (now + sessionTTL)%Z.
Proof.
  intros Hs Hw. destruct req as [cookie|bytes user pass|bytes user pass|cookie|path cookie|]; cbn [serve] in Hs.
  - left. split; [|done]. unfold apiAuthStatus in Hs. rewrite on_files_case in Hs. cbn [snd fst] in Hs.
    pose proof (validSession_sub now cookie st tok exp) as Hv. destruct (validSession now cookie st) as [v st'].
    injection Hs as <- <-. by apply Hv.
  - unfold apiAuthRegister in Hs. rewrite on_files_case in Hs. destruct (configured_total fs) as [b Hb]. rewrite Hb in Hs.
    destruct b; [injection Hs as <- <-; left; done|]. destruct (_ || _); [injection Hs as <- <-; left; done|].
    rewrite on_files_case in Hs. destruct (register_account _ _ _ _ _) as [[u|e] fs'].
    + cbn in Hs. injection Hs as <- <-. cbn in Hw. destruct (decide (EncodeToString bytes = tok)) as [<-|Hne].
      * right. rewrite lookup_insert_eq in Hw. injection Hw as <-. split; [|done]. split; [done|]. right. by exists bytes, user, pass.
      * left. by rewrite lookup_insert_ne in Hw.
    + cbn in Hs. injection Hs as <- <-. by left.
  - unfold apiAuthLogin in Hs. destruct (loginLocked now (fs, st).2); [injection Hs as <- <-; by left|].
    rewrite on_files_case in Hs. destruct (verify (TrimSpace user) pass fs) as [[[]|e] fs'] eqn:Ev; cbn in Hs; injection Hs as <- <-.
    + cbn in Hw. destruct (decide (EncodeToString bytes = tok)) as [<-|Hne].
      * right. rewrite lookup_insert_eq in Hw. injection Hw as <-. split; [|done]. split; [done|]. left.
        exists bytes, user, pass. split; [done|]. cbn. by rewrite Ev.
      * left. by rewrite lookup_insert_ne in Hw.
    + left. split; [|done]. cbn in Hw. unfold loginFail in Hw. by destruct (_ >=? 5)%Z.
    + left. split; [|done]. cbn in Hw. unfold loginFail in Hw. by destruct (_ >=? 5)%Z.
  - left. cbn in Hs. injection Hs as <- <-. cbn in Hw. destruct cookie as [c|]; [|done]. cbn in Hw.
    destruct (decide (c = tok)) as [->|Hne]; [by rewrite lookup_delete_eq in Hw|]. rewrite lookup_delete_ne in Hw by done.
    split; [done|]. congruence.
  - left. split; [|done]. unfold requireAuth in Hs. destruct (_ || _); [injection Hs as <- <-; done|]. cbn [snd fst] in Hs.
    pose proof (validSession_sub now cookie st tok exp) as Hv. destruct (validSession now cookie st) as [v st'].
    injection Hs as <- <-. by apply Hv.
  - left. injection Hs as <- <-. cbn in Hw. apply map_lookup_filter_Some in Hw as [Hw _]. done.
Qed.

Lemma served_sessions tr st : served tr st -> forall tok exp, sessions st !! tok = Some exp -> open_session tr tok exp.
Proof.
  induction 1 as [|tr st now fs req ans w _ IH Hs]; intros tok exp Hw; [done|].
  destruct (serve_sessions _ _ _ _ _ _ _ _ Hs Hw) as [[Hold Hreq]|[Hop ->]].
  - apply open_session_cons; [by apply IH|exact Hreq].
  - exists [], (MkEvent now fs req ans), tr. by split_and!.
Qed.

(** ** How many attempts there are *)

Definition failed (e : event) : bool :=
  match ev_request e, ev_answer e with RLogin _ _ _, Answer (AuthError _ _) => true | _, _ => false end.
Definition logged_in (e : event) : bool :=
  match ev_request e, ev_answer e with RLogin _ _ _, Answer (LoggedIn _) => true | _, _ => false end.

(** The failed logins since the last successful one, and when the last was. *)
Fixpoint failures (tr : list event) : Z :=
  match tr with
  | [] => 0
  | e :: tr => if failed e then 1 + failures tr else if logged_in e then 0 else failures tr
  end.
Fixpoint last_failure (tr : list event) : Z :=
  match tr with [] => 0 | e :: tr => if failed e then ev_time e else last_failure tr end.

Definition backoff (k : Z) : Z := Z.min (30 * (k - 4)) 900 * second.

Definition throttle_of (tr : list event) (st : AuthState) : Prop :=
  loginFails st = failures tr /\
  loginUntil st = if (failures tr >=? 5)%Z then Some (last_failure tr + backoff (failures tr))%Z else None.

Lemma failures_pos tr : (0 <= failures tr)%Z.
Proof. induction tr as [|e tr IH]; cbn; [lia|]. destruct (failed e); [lia|]. destruct (logged_in e); lia. Qed.

(** Below this number of requests nothing wraps around. *)
Definition max_failures : Z := 2 ^ 28.

Lemma loginFail_step now k st :
  loginFails st = k -> (0 <= k)%Z -> (k + 1 <= max_failures)%Z -> ((k < 5)%Z -> loginUntil st = None) ->
  loginFails (loginFail now st) = (k + 1)%Z /\
  loginUntil (loginFail now st) = if (k + 1 >=? 5)%Z then Some (now + backoff (k + 1))%Z else None.
Proof.
  intros Hk H0 Hm Hn. unfold loginFail. rewrite Hk. rewrite (wrap_s64_id (k + 1)) by (unfold in_s64, two63, max_failures in *; lia).
  destruct (k + 1 >=? 5)%Z eqn:E; cbn; (split; [done|]).
  - f_equal. unfold backoff. rewrite (wrap_s64_id ((k + 1 - 4) * 30)) by (unfold in_s64, two63, max_failures in *; lia).
    rewrite wrap_s64_id by (unfold in_s64, two63, max_failures, second in *; lia).
    destruct (_ >? _)%Z eqn:E2; unfold second in *; lia.
  - apply Hn. lia.
Qed.

Lemma failures_length tr : (failures tr <= Z.of_nat (length tr))%Z.
Proof.
  induction tr as [|e tr IH]; cbn [failures length]; [lia|]. pose proof (failures_pos tr).
  destruct (failed e); [lia|]. destruct (logged_in e); lia.
Qed.

(** Only a login touches the throttle. *)
Lemma serve_throttle now req fs st ans w :
  serve now req (fs, st) = (ans, w) ->
  match req with
  | RLogin bytes user pass =>
      match loginLocked now st with
      | Some wait => ans = Answer (Throttled (wait / second + 1)) /\ w = (fs, st)
      | None => if match (verify (TrimSpace user) pass fs).1 with Ok b => b | Err _ => false end
                then ans = Answer (LoggedIn (EncodeToString bytes)) /\ loginFails w.2 = 0%Z /\ loginUntil w.2 = None
                else ans = Answer (AuthError "identifiants invalides" 401) /\ w.2 = loginFail now st
      end
  | _ => loginFails w.2 = loginFails st /\ loginUntil w.2 = loginUntil st
  end.
Proof.
  destruct req as [cookie|bytes user pass|bytes user pass|cookie|path cookie|]; cbn [serve]; intros Hs.
  - unfold apiAuthStatus in Hs. rewrite on_files_case in Hs. cbn [snd fst] in Hs.
    destruct (validSession now cookie st) as [v st'] eqn:Ev. injection Hs as <- <-. cbn.
    unfold validSession in Ev. repeat case_match; simplify_eq; done.
  - unfold apiAuthRegister in Hs. rewrite on_files_case in Hs. destruct (match (configured fs).1 with Ok b => b | _ => _ end).
    { by injection Hs as <- <-. }
    destruct (_ || _); [by injection Hs as <- <-|].
    rewrite on_files_case in Hs. destruct (register_account _ _ _ _ _) as [[u|e] fs']; cbn in Hs; by injection Hs as <- <-.
  - unfold apiAuthLogin in Hs. cbn [snd] in Hs. destruct (loginLocked now st); [by injection Hs as <- <-|].
    rewrite on_files_case in Hs. destruct (match (verify _ _ _).1 with Ok b => b | _ => _ end); by injection Hs as <- <-.
  - injection Hs as <- <-. by destruct cookie.
  - unfold requireAuth in Hs. destruct (_ || _); [by injection Hs as <- <-|]. cbn [snd fst] in Hs.
    destruct (validSession now cookie st) as [v st'] eqn:Ev. injection Hs as <- <-. cbn.
    unfold validSession in Ev. repeat case_match; simplify_eq; done.
  - by injection Hs as <- <-.
Qed.

Lemma served_throttle tr st : served tr st -> (Z.of_nat (length tr) < max_failures)%Z -> throttle_of tr st.
Proof.
  induction 1 as [|tr st now fs req ans w Hs IH He]; intros Hlen; [done|]. cbn [length] in Hlen.
  destruct IH as [IH1 IH2]; [lia|]. pose proof (serve_throttle _ _ _ _ _ _ He) as Ht.
  pose proof (failures_pos tr) as Hpos. pose proof (failures_length tr) as Hle. unfold throttle_of.
  destruct req as [cookie|bytes user pass|bytes user pass|cookie|path cookie|];
    try (destruct Ht as [-> ->]; exact (conj IH1 IH2)).
  destruct (loginLocked now st) as [wait|] eqn:El; [destruct Ht as [-> ->]; exact (conj IH1 IH2)|].
  destruct (match (verify _ _ _).1 with Ok b => b | _ => _ end); [destruct Ht as (-> & Hf & Hu); exact (conj Hf Hu)|].
  destruct Ht as [-> ->]. cbn [failures last_failure failed logged_in ev_request ev_answer ev_time].
  destruct (loginFail_step now (failures tr) st IH1 Hpos ltac:(lia)) as [-> ->].
  { intros Hk. rewrite IH2. by destruct (failures tr >=? 5)%Z eqn:E; [lia|]. }
  split; [lia|]. by rewrite (Z.add_comm (failures tr)).
Qed.

(** ** The first account *)

Notation path := (authPath dataDir).

Lemma configured_works fs : fs_script fs = [] -> env_creds = None ->
  configured fs = (Ok (bool_decide (is_Some (fs_files fs !! path))), fs).
Proof.
  intros Hs He. unfold authConfigured. rewrite He, SE_bind_unfold. unfold attempt. rewrite works_stat by done.
  by destruct (fs_files fs !! path).
Qed.

Lemma write_file_works data mode fs : fs_script fs = [] -> fs_files fs !! path = None ->
  exists fs', fs_WriteFile path data mode fs = (Ok tt, fs') /\ fs_script fs' = [] /\
    file_data <$> fs_files fs' !! path = Some data.
Proof.
  intros Hs Hn. unfold fs_WriteFile, fs_Close.
  rewrite (bind_step _ _ fs tt (fs_set_files (truncated path mode) fs)) by by apply works_op.
  set (f1 := fs_set_files _ fs). assert (fs_script f1 = []) as Hs1 by done.
  erewrite bind_step by (unfold fs_Write; rewrite SE_bind_unfold; unfold next_outcome; rewrite Hs1; reflexivity).
  eexists. split; [apply works_op; done|]. split; [done|]. cbn. unfold truncated. rewrite Hn.
  rewrite lookup_alter_eq, lookup_insert_eq. done.
Qed.

Lemma own_works fs : fs_script fs = [] ->
  exists fs', own path owner fs = (Ok tt, fs') /\ fs_script fs' = [] /\
    file_data <$> fs_files fs' !! path = file_data <$> fs_files fs !! path.
Proof.
  intros Hs. unfold own, ignore, fs_Chown, fs_op. rewrite SE_bind_unfold. unfold attempt. rewrite SE_bind_unfold.
  unfold next_outcome. rewrite Hs. eexists. split; [done|]. split; [done|]. cbn. rewrite lookup_alter_eq.
  by destruct (fs_files fs !! path).
Qed.

Lemma register_works user pass h fs :
  fs_script fs = [] -> fs_files fs !! path = None -> GenerateFromPassword pass = Ok h ->
  exists fs', register_account dataDir owner user pass fs = (Ok tt, fs') /\ fs_script fs' = [] /\
    file_data <$> fs_files fs' !! path = Some (marshal_auth (MkAuthFile user h)).
Proof.
  intros Hs Hn Hh. unfold register_account. rewrite Hh, SE_bind_unfold. cbn [lift replace_err].
  destruct (write_file_works (marshal_auth (MkAuthFile user h)) 384 fs Hs Hn) as (fs1 & E1 & Hs1 & H1).
  rewrite SE_bind_unfold, E1. destruct (own_works fs1 Hs1) as (fs2 & E2 & Hs2 & H2). exists fs2. by rewrite E2, H2.
Qed.

Lemma verify_works user pass a fs :
  fs_script fs = [] -> env_creds = None -> file_data <$> fs_files fs !! path = Some (marshal_auth a) ->
  unmarshal_auth (marshal_auth a) = Ok a ->
  verify user pass fs = (Ok (string_eqb user (auth_User a) && CompareHashAndPassword (auth_Hash a) pass), fs).
Proof.
  intros Hs He Hd Hu. unfold verifyCreds, loadAuthFile. rewrite He, !SE_bind_unfold. unfold attempt, fs_ReadFile.
  rewrite SE_bind_unfold. unfold next_outcome. rewrite Hs, SE_bind_unfold. cbn [get_state]. rewrite Hd. cbn. rewrite Hu. do 3 f_equal.
  unfold ctEq. destruct (string_eqb user (auth_User a)) eqn:E; [|by rewrite andb_false_r].
  apply string_eqb_true in E as ->. by rewrite Z.eqb_refl.
Qed.
End Served.

(** ** Properties *)

(** What is protected needs a login.  In every history of requests from the
    start of the process, with the account's file changing in any way in between, a
    request of a path outside [/api/auth/] and [/_app/] passes only with the cookie
    of a session that a login with verified credentials, or the registration made
    while no account was configured, opened at most seven days before and that no
    later logout closed. *)
Theorem protected_needs_login `{!AuthLib} env_user env_password dataDir owner tr st now path cookie fs w :
  served env_user env_password dataDir owner tr st ->
  HasPrefix path "/api/auth/" = false -> HasPrefix path "/_app/" = false ->
  requireAuth now path cookie (fs, st) = (Passes, w) ->
  exists tok exp, cookie = Some tok /\ (now <= exp)%Z /\ open_session env_user env_password dataDir tr tok exp.
Proof.
  intros Hs Hp1 Hp2. unfold requireAuth. rewrite Hp1, Hp2. cbn [orb snd fst]. unfold validSession.
  destruct cookie as [tok|]; [|by case_goal]. destruct (sessions st !! tok) as [exp|] eqn:E; [|by case_goal].
  destruct (now >? exp)%Z eqn:Ex; [by case_goal|]. intros _. exists tok, exp. split; [done|]. split; [lia|].
  by eapply served_sessions.
Qed.

(** C39: the throttle.  In every history of fewer than 2^28 requests, let k be the
    number of failed logins since the last successful one.  With k at least five a
    login within min(30 (k - 4), 900) seconds of the last failure is refused with
    the seconds to wait, and neither credentials nor state are touched; any other
    login is answered by its credentials alone, and a failure is counted. *)
Theorem login_throttled `{!AuthLib} env_user env_password dataDir owner tr st now bytes user pass fs :
  served env_user env_password dataDir owner tr st -> (Z.of_nat (length tr) < max_failures)%Z ->
  let k := failures tr in
  let until := (last_failure tr + backoff k)%Z in
  let (r, w) := apiAuthLogin env_user env_password dataDir now bytes user pass (fs, st) in
  if (5 <=? k)%Z && (now <? until)%Z then r = Throttled ((until - now) / second + 1) /\ w = (fs, st)
  else if match (verifyCreds env_user env_password dataDir (TrimSpace user) pass fs).1 with Ok b => b | Err _ => false end
  then r = LoggedIn (EncodeToString bytes) /\ loginFails w.2 = 0%Z
  else r = AuthError "identifiants invalides" 401 /\ loginFails w.2 = (k + 1)%Z.
Proof.
  intros Hs Hlen k until. destruct (served_throttle _ _ _ _ _ _ Hs Hlen) as [Hf Hu]. fold k in Hf, Hu.
  pose proof (failures_pos tr) as Hpos. pose proof (failures_length tr) as Hle. fold k in Hpos, Hle.
  pose proof (serve_throttle env_user env_password dataDir owner now (RLogin bytes user pass) fs st) as Ht. cbn [serve] in Ht.
  destruct (apiAuthLogin _ _ _ _ _ _ _ _) as [r w]. specialize (Ht _ _ eq_refl).
  unfold loginLocked in Ht. rewrite Hu in Ht. fold until in Ht. rewrite (Z.geb_leb k 5) in Ht.
  assert (forall (b : bool), (if b then Answer r = Answer (LoggedIn (EncodeToString bytes)) /\ loginFails w.2 = 0%Z /\ loginUntil w.2 = None
     else Answer r = Answer (AuthError "identifiants invalides" 401) /\ w.2 = loginFail now st) ->
     if b then r = LoggedIn (EncodeToString bytes) /\ loginFails w.2 = 0%Z
     else r = AuthError "identifiants invalides" 401 /\ loginFails w.2 = (k + 1)%Z) as Hgo.
  { intros [] Hb; [by destruct Hb as ([= ->] & -> & _)|]. destruct Hb as ([= ->] & ->). split; [done|].
    apply (loginFail_step now k st Hf Hpos); [lia|]. intros Hk. rewrite Hu. by destruct (k >=? 5)%Z eqn:E; [lia|]. }
  destruct (5 <=? k)%Z; [|by apply Hgo]. destruct (now <? until)%Z; [|by apply Hgo].
  destruct Ht as ([= ->] & ->). done.
Qed.

(** The first account is the one that logs in.  While no account is
    configured and the disk works, a registration with long enough name and
    password opens a session; afterwards every registration is refused without a
    change, a login with that name and password is accepted as soon as the throttle
    lets it through, and one with another name is not. *)
Theorem register_then_login `{!AuthLib} env_user env_password dataDir owner now bytes user pass h fs st :
  envCreds env_user env_password = None -> fs_script fs = [] -> fs_files fs !! authPath dataDir = None ->
  (3 <= str_len (TrimSpace user))%Z -> (6 <= str_len pass)%Z -> GenerateFromPassword pass = Ok h ->
  auth_encodable (MkAuthFile (TrimSpace user) h) ->
  exists w,
    apiAuthRegister env_user env_password dataDir owner now bytes user pass (fs, st) =
      (LoggedIn (EncodeToString bytes), w) /\
    (forall now' bytes' user' pass',
       apiAuthRegister env_user env_password dataDir owner now' bytes' user' pass' w =
         (AuthError "un compte est déjà configuré" 403, w)) /\
    (forall now' bytes', loginLocked now' w.2 = None ->
       (apiAuthLogin env_user env_password dataDir now' bytes' user pass w).1 = LoggedIn (EncodeToString bytes') /\
       forall user' pass', TrimSpace user' <> TrimSpace user ->
         (apiAuthLogin env_user env_password dataDir now' bytes' user' pass' w).1 = AuthError "identifiants invalides" 401).
Proof.
  intros He Hs Hn Hu Hp Hh Henc.
  destruct (register_works dataDir owner (TrimSpace user) pass h fs Hs Hn Hh) as (fs' & Er & Hs' & Hd).
  exists (fs', snd (newSession now bytes st)).
  assert (forall f, fs_script f = [] -> on_files (authConfigured env_user env_password dataDir) (f, st) =
    (Ok (bool_decide (is_Some (fs_files f !! authPath dataDir))), (f, st))) as Hc.
  { intros f Hf. rewrite on_files_case. by rewrite configured_works. }
  split; [|split].
  - unfold apiAuthRegister. rewrite Hc, Hn by done. cbn. rewrite (proj2 (Z.ltb_ge _ _)), (proj2 (Z.ltb_ge _ _)) by done.
    cbn [orb]. rewrite on_files_case, Er. done.
  - intros now' bytes' user' pass'. unfold apiAuthRegister. rewrite on_files_case, configured_works by done. cbn [fst snd].
    rewrite bool_decide_eq_true_2; [done|]. by destruct (fs_files fs' !! authPath dataDir).
  - intros now' bytes' Hl. unfold apiAuthLogin. rewrite Hl.
    assert (forall u p, on_files (verifyCreds env_user env_password dataDir u p) (fs', (newSession now bytes st).2) =
      (Ok (string_eqb u (TrimSpace user) && CompareHashAndPassword h p), (fs', (newSession now bytes st).2))) as Hv.
    { intros u p. rewrite on_files_case.
      rewrite (verify_works _ _ _ u p (MkAuthFile (TrimSpace user) h)); [done|done|done|done|]. by apply auth_roundtrip. }
    split.
    + rewrite Hv, string_eqb_refl, (bcrypt_accepts pass h Hh). done.
    + intros user' pass' Hne. rewrite Hv. by rewrite (proj2 (string_eqb_false _ _) Hne).
Qed.

(** ** Witnesses *)

(** Hashing as hexadecimal, for passwords of at most 72 bytes, and an account
    file of two lines. *)
#[export] Instance demo_auth : AuthLib.
Proof.
  refine {|
    GenerateFromPassword p := if (str_len p <=? 72)%Z then Ok (EncodeToString p) else Err (ErrNew "password length exceeds 72 bytes");
    CompareHashAndPassword h p := string_eqb h (EncodeToString p);
    unmarshal_auth text := match Split line_feed text with
                           | [user; hash] => Ok (MkAuthFile user hash)
                           | _ => Err (ErrNew "unexpected end of JSON input") end;
    marshal_auth a := Join (str1 line_feed) [auth_User a; auth_Hash a];
    auth_encodable a := has_byte line_feed (auth_User a) = false /\ has_byte line_feed (auth_Hash a) = false
  |}.
  - intros p h. destruct (str_len p <=? 72)%Z; [|done]. intros [= <-]. apply string_eqb_refl.
  - intros a [H1 H2]. rewrite Split_Join; [by destruct a|done|]. by repeat constructor.
Defined.

Definition demo_fs : FS := MkFS ∅ [] [].
Definition demo_registered : AuthWorld :=
  (apiAuthRegister "" "" "/config" process_owner 0 "t1" "alice" "secret" (demo_fs, newAuthState)).2.

Lemma register_then_login_witness :
  exists w, apiAuthRegister "" "" "/config" process_owner 0 "t1" " alice " "secret" (demo_fs, newAuthState) = (LoggedIn "7431", w) /\
    apiAuthRegister "" "" "/config" process_owner 5 "t2" "mallory" "secret2" w = (AuthError "un compte est déjà configuré" 403, w) /\
    (loginLocked 9 w.2 = None -> (apiAuthLogin "" "" "/config" 9 "t3" " alice " "secret" w).1 = LoggedIn "7433").
Proof.
  destruct (register_then_login "" "" "/config" process_owner 0 "t1" " alice " "secret" "736563726574" demo_fs newAuthState)
    as (w & E & Hr & Hl); [done|done|done|by vm_compute|by vm_compute|done|by split|].
  exists w. split; [exact E|]. split; [apply Hr|]. intros Hn. by apply Hl.
Defined.

(** Alice registers, five logins fail, and a page is asked for. *)
Definition demo_failed (n : Z) (st : AuthState) : auth_answer * AuthWorld :=
  serve "" "" "/config" process_owner (n * second) (RLogin "t2" "alice" "wrong") (demo_registered.1, st).
Fixpoint demo_history (n : nat) : list event * AuthState :=
  match n with
  | 0%nat => let (ans, w) := serve "" "" "/config" process_owner 0 (RRegister "t1" "alice" "secret") (demo_fs, newAuthState) in
             ([MkEvent 0 demo_fs (RRegister "t1" "alice" "secret") ans], w.2)
  | S n => let (tr, st) := demo_history n in
           let (ans, w) := demo_failed (Z.of_nat (S n)) st in
           (MkEvent (Z.of_nat (S n) * second) demo_registered.1 (RLogin "t2" "alice" "wrong") ans :: tr, w.2)
  end.

Lemma demo_history_served n : served "" "" "/config" process_owner (demo_history n).1 (demo_history n).2.
Proof.
  induction n as [|n IH]; cbn [demo_history].
  - destruct (serve _ _ _ _ _ _ _) as [ans w] eqn:E. cbn [fst snd]. by eapply served_next; [apply served_start|].
  - destruct (demo_history n) as [tr st]. cbn [fst snd] in IH. unfold demo_failed.
    destruct (serve _ _ _ _ _ _ (demo_registered.1, st)) as [ans w] eqn:E. cbn [fst snd]. by eapply served_next.
Qed.

Lemma protected_needs_login_witness :
  let st := (demo_history 5).2 in
  (requireAuth 9 "/api/v1/jobs" (Some "7431") (demo_fs, st)).1 = Passes /\
  (requireAuth 9 "/api/v1/jobs" (Some "7432") (demo_fs, st)).1 = Unauthorized /\
  exists tok exp, Some "7431" = Some tok /\ (9 <= exp)%Z /\ open_session "" "" "/config" (demo_history 5).1 tok exp.
Proof.
  intros st. split; [by vm_compute|]. split; [by vm_compute|].
  apply (protected_needs_login "" "" "/config" process_owner (demo_history 5).1 st 9 "/api/v1/jobs" (Some "7431") demo_fs
    (requireAuth 9 "/api/v1/jobs" (Some "7431") (demo_fs, st)).2 (demo_history_served 5)); [done|done|by vm_compute].
Defined.

Lemma login_throttled_witness :
  failures (demo_history 5).1 = 5%Z /\
  (apiAuthLogin "" "" "/config" (6 * second) "t9" "alice" "secret" (demo_registered.1, (demo_history 5).2)).1 = Throttled 30.
Proof.
  split; [by vm_compute|].
  pose proof (login_throttled "" "" "/config" process_owner (demo_history 5).1 (demo_history 5).2 (6 * second) "t9" "alice" "secret"
    demo_registered.1 (demo_history_served 5) ltac:(by vm_compute)) as H.
  cbv zeta in H. destruct (apiAuthLogin _ _ _ _ _ _ _ _) as [r w]. 
  change ((5 <=? failures (demo_history 5).1)%Z && (6 * second <? last_failure (demo_history 5).1 + backoff (failures (demo_history 5).1))%Z)
    with true in H. by destruct H as [-> _].
Defined.

(** ** A registration that is interrupted

    The account file is written in place: a registration whose write fails leaves
    a file that is no account, which refuses every later registration and every
    login. *)
Lemma failed_registration_locks_out :
  let w := apiAuthRegister "" "" "/config" process_owner 0 "t1" "alice" "secret"
             (MkFS ∅ [] [Succeeds "0"; Succeeds "0"; Fails 0], newAuthState) in
  w.1 = AuthError "write" 500 /\
  (apiAuthRegister "" "" "/config" process_owner 1 "t2" "alice" "secret" w.2).1 = AuthError "un compte est déjà configuré" 403 /\
  (apiAuthLogin "" "" "/config" 2 "t3" "alice" "secret" w.2).1 = AuthError "identifiants invalides" 401.
Proof. by vm_compute. Qed.
