(* ===== verification/App.v ===== *)
(** * The application ([app.go], [reconcileTriggers] of [api_v1_jobs.go])

    How the components are put together: the identity of the instance, the start
    of the service, the reconciliation of the three trigger components, and the
    shutdown.  The components are the modelled ones, over one state of the host:
    its files and whatever else its commands act on.  The fifteen-second limit of
    the capability probe is not modelled. *)

From S2P Require Import Prelude GoStrings Model LogBuffer AtomicFile JobRepository HostCommand Capabilities.
From S2P Require Import ExecutionPlan Wrapper WrapperStore RunService Scheduler WatchManager HostFiles PersistentScheduler.

(** ** Identities *)

Definition parseFileOwner (uidText gidText : string) : result FileOwner :=
  match Atoi (TrimSpace uidText) with
  | None => Err (ErrNew "SB_UID must be a non-negative numeric ID")
  | Some uid =>
      if (uid <? 0)%Z then Err (ErrNew "SB_UID must be a non-negative numeric ID")
      else match Atoi (TrimSpace gidText) with
      | None => Err (ErrNew "SB_GID must be a non-negative numeric ID")
      | Some gid =>
          if (gid <? 0)%Z then Err (ErrNew "SB_GID must be a non-negative numeric ID") else Ok (MkFileOwner uid gid)
      end
  end.

(** [buf]: what [rand.Read] makes of sixteen bytes. *)
Definition loadOrCreateInstanceID (dir : string) (owner : FileOwner) (buf : result string) : SE FS string :=
  let path := PathJoin [dir; "instance-id"] in
  data ← attempt (fs_ReadFile path);
  match data with
  | Ok (Some data) =>
      let id := TrimSpace data in
      if negb (instanceIDPattern id) then lift (Err (ErrNew "persisted instance ID is invalid")) else mret id
  | Err e => lift (Err (ErrWrap "read instance ID: " e ""))
  | Ok None =>
      buf ← lift (wrap_err "generate instance ID: " buf);
      let id := "sb-" +:+ EncodeToString buf in
      _ ← se_map (wrap_err "persist instance ID: ") (AtomicWriteFile path (id +:+ newline) 384 owner);
      mret id
  end.

(** ** The application *)

Section Application.
Context {W E V : Type} `{!HostCommandRunner (FS * W)} `{!CronEngine E} `{!WatchHost V} `{!JobCodec}.
Notation SS := (SE (FS * W)).

Record App := MkApp {
  App_Jobs : JobRepository; App_Runs : RunService;
  App_Scheduler : Scheduler; App_Engine : E;
  App_Watches : WatchManager; App_WatchHost : V;
  App_CapabilityReport : CapabilityReport;
  App_instanceID : string
}.

Definition set_triggers (s : Scheduler) (e : E) (m : WatchManager) (v : V) (a : App) : App :=
  MkApp (App_Jobs a) (App_Runs a) s e m v (App_CapabilityReport a) (App_instanceID a).

Definition zeroTools : HostToolPaths :=
  MkHostToolPaths "" "" "" "" "" "" "" "" "" "" "" "" "" "" "" "" "" "" "" "".

(** The compiler and the installer of the wrappers: [tools, _ := report.HostTools()]. *)
Definition app_compile (a : App) (now : Z) (job : Job) (request : RunRequest) : SS ExecutionPlan :=
  let tools := match HostTools (App_CapabilityReport a) with Ok tools => tools | Err _ => zeroTools end in
  @Compile (FS * W) (runnerHostInspector tools) (Some (NewPlanCompiler (App_instanceID a) (App_CapabilityReport a)))
    now job request.

Definition persistent_Reconcile (a : App) (now : Z) (jobs : list Job) : SS unit :=
  PersistentScheduler.Reconcile (app_compile a now) Install (App_instanceID a) jobs.

(** The joined error and the application with its new schedules. *)
Definition reconcileTriggers (now : Z) (a : App) : SS (option goerror * App) :=
  let jobs := JobRepository.List_ (App_Jobs a) in
  let '(err1, s, e) := Scheduler.Reconcile jobs (App_Scheduler a) (App_Engine a) in
  let '(err2, m, v) := WatchManager.Reconcile jobs (App_Watches a) (App_WatchHost a) in
  r ← attempt (persistent_Reconcile a now jobs);
  mret (errors_Join [err1; err2; err_of r], set_triggers s e m v a).

Definition log_limits : LogLimits := MkLogLimits (4 * 1024 * 1024) MaxExecutionLogLineBytes 200 (24 * 3600 * second).

(** The application a start leaves behind.  When the triggers cannot be
    reconciled, the scheduler and the watch manager are closed and dropped. *)
Definition NewProductionApp (configDir : string) (owner : FileOwner) (buf : result string) (stamp : string) (now : Z)
    (engine : E) (watchHost : V) : SS App :=
  if string_eqb configDir "" then lift (Err (ErrNew "config directory is empty"))
  else
    _ ← se_map (wrap_err "create config directory: ") (files_ (fs_MkdirAll configDir));
    _ ← se_map (wrap_err "chown config directory: ") (files_ (fs_Chown configDir owner));
    instanceID ← files_ (loadOrCreateInstanceID configDir owner buf);
    repo ← files_ (fun fs => OpenJobRepository (PathJoin [configDir; "jobs.json"]) owner fs stamp);
    report ← Probe;
    let app := MkApp repo (NewRunService log_limits) newScheduler engine newWatchManager watchHost report instanceID in
    st ← reconcileTriggers now app;
    match st with
    | (Some e, _) => lift (Err (ErrWrap "reconcile triggers: " e ""))
    | (None, app) => mret app
    end.

(** ** Shutdown *)

(** [a.Runs.Stop] of every run in the list that is not final; [handleStop] is
    what stopping a running process group returns and what that makes of the state
    [T] of the process groups. *)
Fixpoint stop_runs {T : Type} (now : Z) (handleStop : string -> T -> option goerror * T) (runs : list RunSnapshot)
    (s : RunService) (t : T) : list goerror * RunService * T :=
  match runs with
  | [] => ([], s, t)
  | run :: runs =>
      if isTerminalRunStatus (Run_Status run) then stop_runs now handleStop runs s t
      else
        let '(err, stop, s) := RunService.Stop now (Run_ID run) s in
        let '(err, t) := if stop : bool then handleStop (Run_ID run) t else (err, t) in
        let '(errs, s, t) := stop_runs now handleStop runs s t in
        (match err with
         | Some e => if errors_Is e "run is not active" then errs else e :: errs
         | None => errs
         end, s, t)
  end.

Definition Close {T : Type} (now : Z) (handleStop : string -> T -> option goerror * T) (a : App) (t : T)
    : option goerror * App * T :=
  let (runs, s) := RunService.List_ (MkRunFilter 0 "" 0) now (App_Runs a) in
  let '(errs, s, t) := stop_runs now handleStop runs s t in
  (errors_Join (Some <$> errs),
   MkApp (App_Jobs a) s (Scheduler.Close (App_Scheduler a)) (App_Engine a) (WatchManager.Close (App_Watches a))
     (App_WatchHost a) (App_CapabilityReport a) (App_instanceID a), t).
End Application.
Arguments App _ _ : clear implicits.
