(* ===== verification/AppProofs.v ===== *)
(** * The application: proofs

    The identity over any number of starts, and where every job is once the
    trigger components were reconciled together. *)

From S2P Require Import Prelude GoStrings Model LogBuffer AtomicFile JobRepository HostCommand Capabilities.
From S2P Require Import ExecutionPlan Wrapper WrapperStore RunService Scheduler SchedulerProofs WatchManager WatchManagerProofs WatchSteps.
From S2P Require Import HostFiles PersistentScheduler PersistentProofs App.

(** ** What a step keeps *)

Section Keeps.
Context {S : Type} (P : S -> Prop).

Definition keeps_ {A} (m : SE S A) : Prop := forall s, P s -> P (m s).2.

Lemma keeps_lift {A} (r : result A) : keeps_ (lift r).
Proof. by intros s Hs. Qed.
Lemma keeps_ret {A} (a : A) : keeps_ (mret a : SE S A).
Proof. by intros s Hs. Qed.
Lemma keeps_bind {A B} (m : SE S A) (k : A -> SE S B) : keeps_ m -> (forall a, keeps_ (k a)) -> keeps_ (x ← m; k x).
Proof.
  intros Hm Hk s Hs. rewrite SE_bind_unfold. specialize (Hm s Hs). destruct (m s) as [[a|e] s1]; [by apply Hk|done].
Qed.
Lemma keeps_attempt {A} (m : SE S A) : keeps_ m -> keeps_ (attempt m).
Proof. intros Hm s Hs. specialize (Hm s Hs). unfold attempt. by destruct (m s). Qed.
Lemma keeps_map {A} (f : result A -> result A) (m : SE S A) : keeps_ m -> keeps_ (se_map f m).
Proof. intros Hm s Hs. specialize (Hm s Hs). unfold se_map. by destruct (m s). Qed.
Lemma keeps_get : keeps_ get_state.
Proof. by intros s Hs. Qed.
End Keeps.

Create HintDb keeps.
#[export] Hint Resolve keeps_lift keeps_ret keeps_attempt keeps_map keeps_get : keeps.

(** One step of a program: a bind, a choice, or a known piece. *)
Ltac keeps_step :=
  match goal with
  | |- keeps_ _ (mbind _ _) => apply keeps_bind; [|intros ?]
  | |- keeps_ _ (match ?x with _ => _ end) => destruct x
  | |- keeps_ _ (let _ := _ in _) => cbv zeta
  | _ => solve [auto with keeps]
  end.
Ltac keeps_steps := repeat keeps_step.

(** ** The identity of the instance *)

Lemma new_id_valid buf : String.length buf = 16%nat ->
  instanceIDPattern ("sb-" +:+ EncodeToString buf) = true.
Proof.
  intros Hl. destruct (hex_text buf) as [H1 H2]. unfold instanceIDPattern. apply andb_true_iff. split.
  - change (string_forallb (fun c => is_alnum c || char_in "_-" c) (EncodeToString buf) = true).
    apply (string_forallb_impl is_alnum); [|exact H1]. intros c Hc. by rewrite Hc.
  - rewrite length_app_str, H2, Hl. done.
Qed.

Lemma id_plain id : instanceIDPattern id = true -> string_forallb plain_char id = true.
Proof.
  unfold instanceIDPattern, match_name. intros [H _]%andb_true_iff. destruct id as [|c id]; [done|].
  apply andb_true_iff in H as [Hc Hid]. cbn [string_forallb]. apply andb_true_iff. split.
  - revert Hc. revert c. all_bytes.
  - eapply string_forallb_impl; [|exact Hid]. all_bytes.
Qed.

Lemma id_read_back id : instanceIDPattern id = true -> TrimSpace (id +:+ newline) = id.
Proof.
  intros H. pose proof (id_plain id H) as Hp. destruct id as [|c id]; [done|]. unfold TrimSpace.
  cbn [string_forallb] in Hp. rewrite TrimSpaceLeft_id.
  - rewrite TrimSpaceRight_plains by done. apply app_empty_r.
  - rewrite app_cons. apply space_len_plain. by apply andb_true_iff in Hp as [? _].
Qed.

Lemma load_existing dir owner buf fs data :
  file_data <$> fs_files fs !! PathJoin [dir; "instance-id"] = Some data ->
  let (r, fs') := loadOrCreateInstanceID dir owner buf fs in
  fs_files fs' = fs_files fs /\
  (match r with Ok id => id = TrimSpace data /\ instanceIDPattern id = true | Err _ => True end) /\
  (fs_script fs = [] -> instanceIDPattern (TrimSpace data) = true -> r = Ok (TrimSpace data)).
Proof.
  intros Hd. unfold loadOrCreateInstanceID. rewrite SE_bind_unfold. unfold attempt.
  assert (fs_script fs = [] -> fs_ReadFile (PathJoin [dir; "instance-id"]) fs = (Ok (Some data), fs)) as Hgo.
  { intros Hs. unfold fs_ReadFile. rewrite SE_bind_unfold. unfold next_outcome. rewrite Hs. rewrite SE_bind_unfold.
    cbn [get_state]. by rewrite Hd. }
  destruct (fs_ReadFile_cases (PathJoin [dir; "instance-id"]) fs) as (fs1 & Hf & [E|[e E]]).
  - rewrite E, Hd. destruct (instanceIDPattern (TrimSpace data)) eqn:Ei; (split; [done|]); by split.
  - rewrite E in *. split; [done|]. split; [done|]. intros Hs. by specialize (Hgo Hs).
Qed.

Lemma load_new dir owner buf fs :
  fs_files fs !! PathJoin [dir; "instance-id"] = None ->
  (forall bytes, buf = Ok bytes -> String.length bytes = 16%nat) ->
  let (r, fs') := loadOrCreateInstanceID dir owner buf fs in
  forall id, r = Ok id -> instanceIDPattern id = true /\
    file_data <$> fs_files fs' !! PathJoin [dir; "instance-id"] = Some (id +:+ newline).
Proof.
  intros Hn Hlen. unfold loadOrCreateInstanceID. rewrite SE_bind_unfold. unfold attempt.
  destruct (fs_ReadFile_cases (PathJoin [dir; "instance-id"]) fs) as (fs1 & Hf & [->|[e ->]]); [|done].
  rewrite Hn. cbn [fmap option_fmap option_map]. destruct buf as [bytes|e]; [|done].
  set (id := "sb-" +:+ EncodeToString bytes). cbn [wrap_err]. rewrite SE_bind_unfold. cbn [lift].
  pose proof (atomicWriteFile_hoare (PathJoin [dir; "instance-id"]) (id +:+ newline) 384 owner (fs_files fs1) fs1 eq_refl) as Hw.
  rewrite SE_bind_unfold. unfold se_map, AtomicWriteFile. destruct (atomicWriteFileWithFS _ _ _ _ fs1) as [[u|e] fs2]; [|done].
  destruct Hw as [Hw _]. intros id' [= <-]. split; [apply new_id_valid; by apply Hlen|].
  rewrite Hw. unfold replaced. by rewrite lookup_insert_eq.
Qed.

(** ** Everything done to the host goes through the command runner *)

Section Runs.
Context {W : Type} `{!HostCommandRunner W} (P : W -> Prop) (HP : forall input argv, keeps_ P (RunInput input argv)).

Lemma keeps_RunInput input argv : keeps_ P (RunInput input argv).
Proof. apply HP. Qed.
Lemma keeps_Run argv : keeps_ P (Run argv).
Proof. apply HP. Qed.
Hint Resolve keeps_RunInput keeps_Run : keeps.

Lemma keeps_candidate f l : keeps_ P (first_candidate f l).
Proof. induction l; cbn [first_candidate]; keeps_steps. Qed.
Hint Resolve keeps_candidate : keeps.

Lemma keeps_resolve testPath name : keeps_ P (resolve testPath name).
Proof. unfold resolve. keeps_steps. Qed.
Hint Resolve keeps_resolve : keeps.

Lemma keeps_discover : keeps_ P discoverHostTools.
Proof.
  unfold discoverHostTools. keeps_steps. unfold Capabilities.stat_profile. keeps_steps.
Qed.

Lemma keeps_checks l : keeps_ P (run_checks l).
Proof. induction l; cbn [run_checks]; keeps_steps. Qed.
Hint Resolve keeps_discover keeps_checks : keeps.

Lemma keeps_toolchain : keeps_ P probeHostToolchain.
Proof. unfold probeHostToolchain, exerciseHostTools. keeps_steps. apply keeps_attempt. keeps_steps. Qed.
Lemma keeps_probe code argv d : keeps_ P (probe code argv d).
Proof. unfold probe. keeps_steps. Qed.
Hint Resolve keeps_toolchain keeps_probe : keeps.

Lemma keeps_Probe : keeps_ P Probe.
Proof. unfold Probe. keeps_steps; unfold probeBoundingSet, probeCron; keeps_steps. Qed.

Context (tools : HostToolPaths).
#[local] Existing Instance runnerHostInspector.

Lemma keeps_inspect path : keeps_ P (@InspectPath W (runnerHostInspector tools) path).
Proof. cbn. unfold runner_InspectPath. keeps_steps. Qed.
Lemma keeps_user name : keeps_ P (@LookupUser W (runnerHostInspector tools) name).
Proof. cbn. unfold runner_LookupUser. keeps_steps. Qed.
Lemma keeps_group name : keeps_ P (@LookupGroup W (runnerHostInspector tools) name).
Proof. cbn. unfold runner_LookupGroup. keeps_steps. Qed.
Hint Resolve keeps_inspect keeps_user keeps_group : keeps.

Lemma keeps_canonical path : keeps_ P (@inspectCanonicalPath W (runnerHostInspector tools) path).
Proof. unfold inspectCanonicalPath. keeps_steps. Qed.
Lemma keeps_coherent {A} (m : SE W A) f msg : keeps_ P m -> keeps_ P (lookup_coherent m f msg).
Proof. intros Hm. unfold lookup_coherent. keeps_steps. Qed.
Hint Resolve keeps_canonical keeps_coherent : keeps.

Lemma keeps_identity job : keeps_ P (@validateIdentity W (runnerHostInspector tools) job).
Proof. unfold validateIdentity. keeps_steps. Qed.
Lemma keeps_action caps action identity dryRun at_ :
  keeps_ P (@compileAction W (runnerHostInspector tools) caps action identity dryRun at_).
Proof. unfold compileAction, compileSync. keeps_steps. Qed.
Hint Resolve keeps_identity keeps_action : keeps.

Lemma keeps_Compile c now job request : keeps_ P (@Compile W (runnerHostInspector tools) c now job request).
Proof. unfold Compile. keeps_steps. Qed.

Lemma keeps_run argv : keeps_ P (run argv).
Proof. unfold run. keeps_steps. Qed.
Lemma keeps_target target : keeps_ P (requireCanonicalHostTarget tools target).
Proof. unfold requireCanonicalHostTarget. keeps_steps. Qed.
Lemma keeps_stat path : keeps_ P (statPath tools path).
Proof. unfold statPath. keeps_steps. Qed.
Hint Resolve keeps_run keeps_target keeps_stat : keeps.

Lemma keeps_directory path : keeps_ P (validateSafeDirectory tools path).
Proof. unfold validateSafeDirectory. keeps_steps. Qed.
Lemma keeps_regular path b : keeps_ P (validateRegularRootFile tools path b).
Proof. unfold validateRegularRootFile. keeps_steps. Qed.
Hint Resolve keeps_directory keeps_regular : keeps.

Lemma keeps_validateTarget target : keeps_ P (validateTarget tools target).
Proof. unfold validateTarget. keeps_steps. Qed.
Lemma keeps_directories l : keeps_ P (validate_directories tools l).
Proof. induction l; cbn [validate_directories]; keeps_steps. Qed.
Hint Resolve keeps_validateTarget keeps_directories : keeps.

Lemma keeps_secure l : forall parents, keeps_ P (secure_loop tools parents l).
Proof. induction l; intros parents; cbn [secure_loop]; keeps_steps. unfold create_directory. keeps_steps. Qed.
Lemma keeps_hierarchy dir : keeps_ P (revalidateManagedHierarchy tools dir).
Proof. unfold revalidateManagedHierarchy. keeps_steps. Qed.
Hint Resolve keeps_secure keeps_hierarchy : keeps.

Lemma keeps_stage dir target temp rendered : keeps_ P (stage_and_rename tools dir target temp rendered).
Proof. unfold stage_and_rename, validateStagingFile. keeps_steps. Qed.
Hint Resolve keeps_stage : keeps.

Lemma keeps_install_at dir target rendered : keeps_ P (install_at tools dir target rendered).
Proof. unfold install_at, secureManagedHierarchy, staged. keeps_steps. Qed.
End Runs.

Lemma keeps_Install {W} `{!HostCommandRunner W} (P : W -> Prop) plan :
  (forall input argv, keeps_ P (RunInput input argv)) -> keeps_ P (Install plan).
Proof. intros HP. unfold Install. keeps_steps. by apply keeps_install_at. Qed.

(** ** The loaded jobs *)

Definition keys_ok (jobs : gmap Z Job) : Prop := map_Forall (fun id job => Job_ID job = id) jobs.

Lemma keys_list jobs : keys_ok jobs -> map Job_ID (sorted_jobs jobs) ≡ₚ (map_to_list jobs).*1.
Proof.
  intros Hk. rewrite sorted_jobs_perm. change (map Job_ID ?l) with (Job_ID <$> l). rewrite <-list_fmap_compose.
  match goal with |- ?l ≡ₚ ?r => replace l with r; [done|] end.
  symmetry. apply list_fmap_ext. intros i [id job] Hl. cbn. apply Hk.
  by apply list_elem_of_lookup_2, elem_of_map_to_list in Hl.
Qed.

Lemma keys_NoDup jobs : keys_ok jobs -> NoDup (map Job_ID (sorted_jobs jobs)).
Proof. intros Hk. rewrite keys_list by done. apply NoDup_fst_map_to_list. Qed.

Lemma same_id jobs job job' :
  NoDup (map Job_ID jobs) -> job ∈ jobs -> job' ∈ jobs -> Job_ID job' = Job_ID job -> job' = job.
Proof.
  intros Hnd [i Hi]%list_elem_of_lookup_1 [j Hj]%list_elem_of_lookup_1 E. assert (i = j) as ->; [|congruence].
  eapply (NoDup_lookup (Job_ID <$> jobs)); [done|..]; rewrite list_lookup_fmap, ?Hi, ?Hj; cbn; by rewrite ?E.
Qed.

Lemma replace_keys jobs : forall next acc, keys_ok acc -> keys_ok (replace_loop next acc jobs).2.2.
Proof.
  induction jobs as [|job jobs IH]; intros next acc Ha; [done|]. cbn [replace_loop].
  destruct (_ || _); [done|]. destruct (bool_decide _); [done|]. apply IH. apply map_Forall_insert_2; [|done].
  by rewrite cloneJob_id.
Qed.

Definition world_keys (w : World) : Prop := keys_ok (repo_jobs (w_repo w)).

Lemma keeps_on_fs {A} (m : SE FS A) : keeps_ world_keys (on_fs m).
Proof. intros w Hw. unfold on_fs. by destruct (m (w_fs w)). Qed.
Lemma keeps_replaceLocked next jobs : keeps_ world_keys (replaceLocked next jobs).
Proof.
  intros w Hw. unfold replaceLocked. destruct (next <? 1)%Z; [done|].
  pose proof (replace_keys jobs next ∅ (map_Forall_empty _)) as Hr. by destruct (replace_loop next ∅ jobs).
Qed.
Lemma keeps_reset : keeps_ world_keys (modify_state (set_repo 1 ∅)).
Proof. intros w Hw. apply map_Forall_empty. Qed.
#[export] Hint Resolve keeps_on_fs keeps_replaceLocked keeps_reset : keeps.

Lemma keeps_loadLocked `{!JobCodec} : keeps_ world_keys (withExclusiveFileLock loadLocked).
Proof.
  unfold withExclusiveFileLock, loadLocked, migrateLegacyLocked, persistCandidateLocked. keeps_steps.
Qed.

Lemma Open_keys `{!JobCodec} path owner fs stamp repo fs' :
  OpenJobRepository path owner fs stamp = (Ok repo, fs') -> keys_ok (repo_jobs repo).
Proof.
  unfold OpenJobRepository. set (w := MkWorld _ _ _).
  pose proof (keeps_loadLocked w (map_Forall_empty _)) as Hk. destruct (withExclusiveFileLock loadLocked w) as [[u|e] w']; [|done].
  by intros [= <- <-].
Qed.

(** ** The trigger components together *)

Section Triggers.
Context {W E V : Type} `{!HostCommandRunner (FS * W)} `{!CronEngine E} `{!CronLaws E} `{!WatchHost V} `{!JobCodec}.
Implicit Types a : App E V.

Definition triggers_ok a : Prop :=
  sched_ok (App_Scheduler a) (App_Engine a) /\ sch_closed (App_Scheduler a) = false /\
  wm_ok (App_Watches a) /\ wm_closed (App_Watches a) = false.

(** A job of the scheduler, with its revision and schedule; a job with a live
    watcher for its specification. *)
Definition cron_scheduled (job : Job) a : Prop :=
  exists spec sj, normalizeCronSpec (Job_Cron job) = Ok spec /\ sch_entries (App_Scheduler a) !! Job_ID job = Some sj /\
    sj_revision sj = Job_Revision job /\ sj_spec sj = spec.

Definition watched (job : Job) a : Prop :=
  exists want h hd, watch_of job want /\ wm_active (App_Watches a) !! Job_ID job = Some (Some h) /\
    wm_handles (App_Watches a) !! h = Some hd /\ wh_cancelled hd = false /\ sameWatchSpec (wh_spec hd) want = true /\
    Job_ID job ∉ wm_degraded (App_Watches a) /\ wm_errors (App_Watches a) !! Job_ID job = None.

(** The part of the host is what [m] does to it. *)
Lemma reconcileTriggers_unfold now a (s : FS * W) :
  let jobs := JobRepository.List_ (App_Jobs a) in
  let '(err1, sch, e) := Scheduler.Reconcile jobs (App_Scheduler a) (App_Engine a) in
  let '(err2, m, v) := WatchManager.Reconcile jobs (App_Watches a) (App_WatchHost a) in
  let (r, s') := persistent_Reconcile a now jobs s in
  reconcileTriggers now a s = (Ok (errors_Join [err1; err2; err_of r], set_triggers sch e m v a), s').
Proof.
  unfold reconcileTriggers. destruct (Scheduler.Reconcile _ _ _) as [[err1 sch] e].
  destruct (WatchManager.Reconcile _ _ _) as [[err2 m] v]. rewrite SE_bind_unfold. unfold attempt.
  by destruct (persistent_Reconcile a now _ s) as [r s'].
Qed.

(** What a reconciliation without an error leaves for a job: it is in the one
    place its owner and trigger name. *)
Definition placed (now : Z) a (job : Job) a' (s' : FS * W) : Prop :=
  (if schedulerEligible job TriggerCron then cron_scheduled job a'
   else sch_entries (App_Scheduler a') !! Job_ID job = None) /\
  (if schedulerEligible job TriggerWatch then watched job a' else wm_active (App_Watches a') !! Job_ID job = None) /\
  (if host_scheduled job
   then exists wrapper, installed (app_compile a now) Install job wrapper /\
     artifacts (App_instanceID a) s' (Job_ID job) = wanted (App_instanceID a) job wrapper
   else artifacts (App_instanceID a) s' (Job_ID job) = (None, None, None)).

Definition unscheduled a (id : Z) (s : FS * W) : Prop :=
  sch_entries (App_Scheduler a) !! id = None /\ wm_active (App_Watches a) !! id = None /\
  artifacts (App_instanceID a) s id = (None, None, None).

(** The two components inside the service, on any host. *)
Lemma reconcile_inside now a (s : FS * W) :
  triggers_ok a -> keys_ok (repo_jobs (App_Jobs a)) ->
  let jobs := JobRepository.List_ (App_Jobs a) in
  exists err a', (reconcileTriggers now a s).1 = Ok (err, a') /\ triggers_ok a' /\
    (reconcileTriggers now a s).2 = (persistent_Reconcile a now jobs s).2 /\
    App_Jobs a' = App_Jobs a /\ App_instanceID a' = App_instanceID a /\
    (err = None -> err_of (persistent_Reconcile a now jobs s).1 = None /\
      (forall job, job ∈ jobs ->
        (if schedulerEligible job TriggerCron then cron_scheduled job a'
         else sch_entries (App_Scheduler a') !! Job_ID job = None) /\
        (if schedulerEligible job TriggerWatch then watched job a' else wm_active (App_Watches a') !! Job_ID job = None)) /\
      (forall id, id ∉ map Job_ID jobs ->
        sch_entries (App_Scheduler a') !! id = None /\ wm_active (App_Watches a') !! id = None)).
Proof.
  intros (Hs & Hsc & Hm & Hmc) Hk jobs. pose proof (keys_NoDup _ Hk) as Hnd.
  pose proof (Reconcile_cases jobs (App_Scheduler a) (App_Engine a) Hnd Hs Hsc) as HS.
  pose proof (watch_Reconcile_cases jobs (App_Watches a) (App_WatchHost a) Hnd Hm Hmc) as HM.
  pose proof (wanted_watches_spec jobs (App_WatchHost a)) as HW.
  pose proof (reconcileTriggers_unfold now a s) as HU. cbn zeta in HU. fold jobs in HU.
  destruct (Scheduler.Reconcile jobs _ _) as [[err1 sch] e].
  destruct (wanted_watches jobs (App_WatchHost a)) as [[desired invalid] v0].
  destruct (WatchManager.Reconcile jobs _ _) as [[err2 m] v].
  destruct (persistent_Reconcile a now jobs s) as [r s'] eqn:Ep. rewrite HU.
  destruct HS as (Hs1 & Hsc1 & HS). destruct HM as (Hm1 & Hmc1 & HM). destruct HW as [(Hd & Hi & Hc) _].
  eexists _, _. split; [done|]. split; [by split_and!|]. split; [done|]. split; [done|]. split; [done|].
  intros Hn%errors_Join_None. apply Forall_cons in Hn as [-> Hn]. apply Forall_cons in Hn as [-> Hn].
  apply Forall_cons in Hn as [Hr _]. split; [done|].
  destruct HS as [[[HS1 HS2] HS3]|[? _]]; [|done]. destruct HM as [[HM1 HM2]|?]; [|done].
  assert (invalid = ∅) as -> by by apply HM2.
  split.
  - intros job Hj. split.
    + specialize (HS1 job Hj). destruct (schedulerEligible job TriggerCron) eqn:Ee; [|done].
      pose proof (proj1 HS3 eq_refl job Hj Ee) as Hok. destruct (normalizeCronSpec (Job_Cron job)) as [spec|] eqn:En; [|done].
      destruct HS1 as (w & Hw & Hrev & Hspec). by exists spec, w.
    + specialize (HM1 (Job_ID job)). unfold watch_follows in HM1. rewrite lookup_empty in HM1.
      destruct (schedulerEligible job TriggerWatch) eqn:Ee.
      * destruct (Hc job Hj Ee) as [[want Hwant]|[? Hx]]; [|by rewrite lookup_empty in Hx]. rewrite Hwant in HM1.
        destruct HM1 as (Hdeg & Herr & h & hd & Hact & Hh & Hcan & Hsame & _).
        destruct (Hd _ _ Hwant) as (job' & Hj' & Hid & Hof). rewrite (same_id jobs job job' Hnd Hj Hj' Hid) in Hof.
        exists want, h, hd. by split_and!.
      * destruct (desired !! Job_ID job) as [want|] eqn:Ew; [|done]. exfalso.
        destruct (Hd _ _ Ew) as (job' & Hj' & Hid & Hof & _).
        rewrite (same_id jobs job job' Hnd Hj Hj' Hid) in Hof. by rewrite Hof in Ee.
  - intros id Hid. split; [by apply HS2|]. specialize (HM1 id). unfold watch_follows in HM1. rewrite lookup_empty in HM1.
    destruct (desired !! id) as [want|] eqn:Ew; [|done]. destruct (Hd _ _ Ew) as (job & Hj & <- & _).
    exfalso. apply Hid. by apply list_elem_of_In, in_map, list_elem_of_In.
Qed.
End Triggers.

Lemma tame_runs {W A} `{!HostCommandRunner (FS * W)} inst (m : SE (FS * W) A) :
  (forall P : FS * W -> Prop, (forall input argv, keeps_ P (RunInput input argv)) -> keeps_ P m) ->
  (forall input argv, tame inst (RunInput input argv)) -> tame inst m.
Proof.
  intros Hm Hrun. split.
  - intros x id s. apply (Hm (fun s' => fs_files s'.1 !! view inst x id = fs_files s.1 !! view inst x id)); [|done].
    intros input argv s1 H1. destruct (Hrun input argv) as [Hl _]. by rewrite (Hl x id s1).
  - intros s. apply (Hm (fun s' => working s'.1)). intros input argv s1. apply Hrun.
Qed.

(** ** The start *)

Lemma new_scheduler_ok {E} `{!CronEngine E} (e : E) : registered e = ∅ -> sched_ok newScheduler e.
Proof. intros He. split; [by intros id w|]. intros n x. by rewrite He, lookup_empty. Qed.

Lemma files_Ok {W A} (m : SE FS A) (s : FS * W) a s' :
  files_ m s = (Ok a, s') -> m s.1 = (Ok a, s'.1).
Proof. unfold files_. destruct s as [fs w]. cbn. destruct (m fs) as [r fs']. by intros [= -> <-]. Qed.

(** ** Properties *)

(** The identity of the instance is settled once.  Whatever fails, a start
    that gets an identity gets a valid one, an identity file that exists is never
    written, and every later start that reads the same file gets the same identity
    or fails, the latter only when an operation failed. *)
Theorem instance_id_stable dir owner buf fs :
  (forall bytes, buf = Ok bytes -> String.length bytes = 16%nat) ->
  let path := PathJoin [dir; "instance-id"] in
  let (r, fs1) := loadOrCreateInstanceID dir owner buf fs in
  (is_Some (fs_files fs !! path) -> fs_files fs1 = fs_files fs) /\
  (forall id, r = Ok id -> instanceIDPattern id = true /\
     forall owner' buf' fs2, fs_files fs2 !! path = fs_files fs1 !! path ->
       match (loadOrCreateInstanceID dir owner' buf' fs2).1 with
       | Ok id' => id' = id
       | Err _ => fs_script fs2 <> []
       end).
Proof.
  intros Hlen path.
  assert (forall id data fs1, instanceIDPattern id = true -> TrimSpace data = id -> file_data <$> fs_files fs1 !! path = Some data ->
    forall owner' buf' fs2, fs_files fs2 !! path = fs_files fs1 !! path ->
      match (loadOrCreateInstanceID dir owner' buf' fs2).1 with Ok id' => id' = id | Err _ => fs_script fs2 <> [] end) as Hlater.
  { intros id data fs1 Hid Ht Hd owner' buf' fs2 H2. rewrite <-H2 in Hd.
    pose proof (load_existing dir owner' buf' fs2 data Hd) as H. destruct (loadOrCreateInstanceID _ _ _ fs2) as [[id'|e] fs3]; cbn.
    - destruct H as (_ & [-> _] & _). exact Ht.
    - intros Hs. destruct H as (_ & _ & H). rewrite Ht in H. by specialize (H Hs Hid). }
  destruct (fs_files fs !! path) as [f|] eqn:Ef.
  - pose proof (load_existing dir owner buf fs (file_data f)) as H. fold path in H. rewrite Ef in H. specialize (H eq_refl).
    destruct (loadOrCreateInstanceID dir owner buf fs) as [r fs1]. destruct H as (Hf & Hr & _). split; [done|].
    intros id ->. destruct Hr as [-> Hp]. split; [done|]. eapply Hlater; [done|done|]. by rewrite Hf, Ef.
  - pose proof (load_new dir owner buf fs Ef Hlen) as H. fold path in H.
    destruct (loadOrCreateInstanceID dir owner buf fs) as [r fs1]. split; [by intros [? ?]|].
    intros id Hr. destruct (H id Hr) as [Hp Hd]. split; [done|]. eapply Hlater; [done|by apply id_read_back|done].
Qed.

(** C29: every job is scheduled in one place.  On a host that works, when the three
    trigger components are reconciled without an error, a job the service
    schedules is registered with the cron engine or has a live watcher, at its
    revision; a job of the host has exactly the artifacts of its installed
    wrapper; no job has a place its owner and trigger do not name; and nothing is
    left of jobs that are gone. *)
Theorem reconcileTriggers_places {W E V} `{!HostCommandRunner (FS * W)} `{!CronEngine E} `{!CronLaws E} `{!WatchHost V}
    now (a : App E V) (s : FS * W) :
  triggers_ok a -> keys_ok (repo_jobs (App_Jobs a)) -> Forall in_s64 (map Job_ID (JobRepository.List_ (App_Jobs a))) ->
  instanceIDPattern (App_instanceID a) = true ->
  (forall input argv, tame (App_instanceID a) (RunInput input argv)) -> working s.1 ->
  let jobs := JobRepository.List_ (App_Jobs a) in
  exists err a' s', reconcileTriggers now a s = (Ok (err, a'), s') /\ triggers_ok a' /\
    (err = None ->
       (forall job, job ∈ jobs -> placed now a job a' s') /\
       (forall id, in_s64 id -> id ∉ map Job_ID jobs -> unscheduled a' id s')).
Proof.
  intros Ht Hk H64 Hi Hrun Hw jobs.
  destruct (reconcile_inside now a s Ht Hk) as (err & a' & E1 & Ht' & E2 & Hj & Hid & Hin).
  exists err, a', (reconcileTriggers now a s).2. split; [by rewrite <-E1; destruct (reconcileTriggers now a s)|]. split; [done|].
  intros Hn. destruct (Hin Hn) as (Hr & Hplace & Hgone). rewrite E2. fold jobs in Hr, Hplace, Hgone |- *.
  pose proof (Reconcile_artifacts (app_compile a now) Install (App_instanceID a) Hi) as H.
  specialize (H ltac:(intros; apply Hrun)).
  specialize (H ltac:(intros job request; apply tame_runs; [intros P HP; by apply keeps_Compile|done])).
  specialize (H ltac:(intros plan; apply tame_runs; [intros P HP; by apply keeps_Install|done])).
  specialize (H jobs s (keys_NoDup _ Hk) (proj1 (List.Forall_map _ _ _) H64) Hw).
  change (PersistentScheduler.Reconcile (app_compile a now) Install (App_instanceID a) jobs s)
    with (persistent_Reconcile a now jobs s) in H.
  destruct (persistent_Reconcile a now jobs s) as [r s']. destruct H as (_ & Hhost & Hnone). split.
  - intros job Hjob. destruct (Hplace job Hjob) as [H1 H2]. split; [done|]. split; [done|].
    destruct (host_scheduled job) eqn:Eh.
    + destruct (Hhost job Hjob Eh) as [Hf|[Hf _]]; [exact Hf|]. exfalso. apply Hf. by destruct r.
    + apply Hnone; [apply (proj1 (Forall_forall _ _) H64), list_elem_of_fmap; by exists job|].
      intros (job' & Hj' & Hid' & Hh'). rewrite (same_id jobs job job' (keys_NoDup _ Hk) Hjob Hj' Hid') in Hh'. congruence.
  - intros id Hid64 Hni. destruct (Hgone id Hni) as [H1 H2]. split; [done|]. split; [done|]. rewrite Hid. apply Hnone; [done|].
    intros (job & Hjob & <- & _). apply Hni, list_elem_of_fmap. by exists job.
Qed.

(** C35: a service that starts is consistent.  Whatever the host answers and
    whatever fails, when [NewProductionApp] returns an application its identity is
    valid, its jobs have distinct identifiers, and every job the service schedules
    itself is registered with the cron engine or watched, no other being; so one
    stored expression the engine refuses keeps the service from starting. *)
Theorem NewProductionApp_sound {W E V} `{!HostCommandRunner (FS * W)} `{!CronEngine E} `{!CronLaws E} `{!WatchHost V} `{!JobCodec}
    configDir owner buf stamp now (engine : E) (watchHost : V) (s : FS * W) app s' :
  (forall bytes, buf = Ok bytes -> String.length bytes = 16%nat) -> registered engine = ∅ ->
  NewProductionApp configDir owner buf stamp now engine watchHost s = (Ok app, s') ->
  let jobs := JobRepository.List_ (App_Jobs app) in
  instanceIDPattern (App_instanceID app) = true /\ NoDup (map Job_ID jobs) /\ triggers_ok app /\
  (forall job, job ∈ jobs ->
     (if schedulerEligible job TriggerCron then cron_scheduled job app
      else sch_entries (App_Scheduler app) !! Job_ID job = None) /\
     (if schedulerEligible job TriggerWatch then watched job app
      else wm_active (App_Watches app) !! Job_ID job = None)) /\
  (forall id, id ∉ map Job_ID jobs ->
     sch_entries (App_Scheduler app) !! id = None /\ wm_active (App_Watches app) !! id = None).
Proof.
  intros Hlen He. unfold NewProductionApp. destruct (string_eqb configDir ""); [done|]. intros Hstart.
  apply SE_bind_Ok in Hstart as (_ & s1 & _ & Hstart). apply SE_bind_Ok in Hstart as (_ & s2 & _ & Hstart).
  apply SE_bind_Ok in Hstart as (id & s3 & Hid & Hstart). apply SE_bind_Ok in Hstart as (repo & s4 & Hrepo & Hstart).
  apply SE_bind_Ok in Hstart as (report & s5 & _ & Hstart). cbv zeta in Hstart.
  apply SE_bind_Ok in Hstart as ([err app0] & s6 & Hrec & Hstart). destruct err as [e|]; [done|].
  injection Hstart as -> ->.
  apply files_Ok in Hid, Hrepo.
  assert (instanceIDPattern id = true) as Hpat.
  { destruct (fs_files s2.1 !! PathJoin [configDir; "instance-id"]) as [f|] eqn:Ef.
    - pose proof (load_existing configDir owner buf s2.1 (file_data f)) as HL. rewrite Ef in HL. specialize (HL eq_refl).
      rewrite Hid in HL. by destruct HL as (_ & [_ ?] & _).
    - pose proof (load_new configDir owner buf s2.1 Ef Hlen) as HL. rewrite Hid in HL. by destruct (HL id eq_refl). }
  assert (keys_ok (repo_jobs repo)) as Hkeys by by eapply Open_keys.
  set (a0 := MkApp repo _ newScheduler engine newWatchManager watchHost report id) in Hrec.
  destruct (reconcile_inside now a0 s5) as (err & a' & E1 & Ht' & _ & Hj & Hi & Hin); [|done|].
  { split; [by apply new_scheduler_ok|]. split; [done|]. split; [apply new_manager_ok|done]. }
  rewrite Hrec in E1. injection E1 as <- <-. destruct (Hin eq_refl) as (_ & H1 & H2). rewrite Hj, Hi.
  split; [done|]. split; [by apply keys_NoDup|]. split; [done|]. by split.
Qed.

(** ** Witnesses *)

Lemma instance_id_stable_witness :
  let first := loadOrCreateInstanceID "/config" process_owner (Ok "0123456789abcdef") (MkFS ∅ [] []) in
  first.1 = Ok "sb-30313233343536373839616263646566" /\
  instanceIDPattern "sb-30313233343536373839616263646566" = true /\
  (loadOrCreateInstanceID "/config" process_owner (Ok "fedcba9876543210") (MkFS (fs_files first.2) [] [])).1 = first.1.
Proof.
  intros first. assert (first.1 = Ok "sb-30313233343536373839616263646566") as Hf by (vm_compute; reflexivity).
  pose proof (instance_id_stable "/config" process_owner (Ok "0123456789abcdef") (MkFS ∅ [] []) ltac:(by intros ? [= <-])) as H.
  cbv zeta in H. fold first in H. destruct first as [r fs1]. cbn [fst snd] in *. subst r. destruct H as [_ H].
  destruct (H _ eq_refl) as [Hp Hlater]. split; [done|]. split; [done|].
  specialize (Hlater process_owner (Ok "fedcba9876543210") (MkFS (fs_files fs1) [] []) eq_refl).
  destruct (loadOrCreateInstanceID _ _ _ _) as [[id|e] fs2]; cbn in *; [by rewrite Hlater|done].
Defined.

#[local] Existing Instance demo_run_host.

(** An application with a cron job and a watch, on a host with an artifact of a
    job that is gone. *)
Definition demo_app : App demo_engine unit :=
  MkApp (MkJobRepository "/config/jobs.json" process_owner 8
           {[ 7%Z := cron_job 7 3 "5 4 * * *"; 1%Z := watch_job 1 3 "/srv/in" ]})
    (NewRunService log_limits) newScheduler demo_empty newWatchManager tt (MkCapabilityReport []) "nas-1".

Lemma demo_app_ok : triggers_ok demo_app /\ keys_ok (repo_jobs (App_Jobs demo_app)).
Proof.
  split.
  - split; [by apply new_scheduler_ok|]. split; [done|]. split; [apply new_manager_ok|done].
  - unfold keys_ok. cbn. apply map_Forall_insert_2; [done|]. by apply map_Forall_singleton.
Qed.

Lemma demo_run_tame inst input argv : tame (W := unit) inst (RunInput input argv).
Proof. done. Qed.

Lemma reconcileTriggers_places_witness :
  artifacts "nas-1" demo_host 9 = (Some "old", None, None) /\
  exists a' s', reconcileTriggers 0 demo_app demo_host = (Ok (None, a'), s') /\ unscheduled a' 9 s' /\
    cron_scheduled (cron_job 7 3 "5 4 * * *") a' /\ watched (watch_job 1 3 "/srv/in") a'.
Proof.
  split; [vm_compute; reflexivity|]. destruct demo_app_ok as [Ht Hk].
  assert (JobRepository.List_ (App_Jobs demo_app) = [watch_job 1 3 "/srv/in"; cron_job 7 3 "5 4 * * *"]) as El
    by (vm_compute; reflexivity).
  destruct (reconcileTriggers_places 0 demo_app demo_host Ht Hk) as (err & a' & s' & E & _ & H).
  - rewrite El. by repeat constructor.
  - done.
  - apply demo_run_tame.
  - apply demo_host_works.
  - assert (is_Ok (reconcileTriggers 0 demo_app demo_host).1 &&
      match (reconcileTriggers 0 demo_app demo_host).1 with Ok (None, _) => true | _ => false end = true) as Hn
      by (vm_compute; reflexivity).
    rewrite E in Hn. destruct err as [err|]; [discriminate Hn|]. exists a', s'. split; [exact E|]. clear E Hn.
    destruct (H eq_refl) as [Hp Hg].
    rewrite El in Hp, Hg. split; [|split].
    + apply Hg; [done|]. cbn. rewrite !not_elem_of_cons. split_and!; [done|done|apply not_elem_of_nil].
    + destruct (Hp (cron_job 7 3 "5 4 * * *")) as [Hc _]; [right; left|exact Hc].
    + destruct (Hp (watch_job 1 3 "/srv/in")) as (_ & Hc & _); [left|exact Hc].
Defined.

Definition demo_started : result (App demo_engine unit) * (FS * unit) :=
  NewProductionApp "/data" process_owner (Ok "0123456789abcdef") "20260101T000000.000000000Z" 0 demo_empty tt
    (w_fs demo_start, tt).

Lemma NewProductionApp_sound_witness :
  exists app s', demo_started = (Ok app, s') /\ instanceIDPattern (App_instanceID app) = true /\ triggers_ok app /\
    map Job_ID (JobRepository.List_ (App_Jobs app)) = [1%Z].
Proof.
  assert (match demo_started.1 with
          | Ok app => bool_decide (map Job_ID (JobRepository.List_ (App_Jobs app)) = [1%Z])
          | Err _ => false end = true) as Hok by (vm_compute; reflexivity).
  destruct demo_started as [[app|e] s'] eqn:E; [|discriminate Hok]. exists app, s'. apply bool_decide_eq_true in Hok.
  destruct (NewProductionApp_sound "/data" process_owner (Ok "0123456789abcdef") "20260101T000000.000000000Z" 0 demo_empty tt
    (w_fs demo_start, tt) app s') as (Hi & _ & Ht & _); [by intros ? [= <-]|reflexivity|exact E|]. split; [reflexivity|]. exact (conj Hi (conj Ht Hok)).
Defined.
