(* ===== verification/ShutdownProofs.v ===== *)
(** * The shutdown of the application

    What [App.Close] leaves: no trigger can start a run, no run waits for its turn,
    and every run that is not final was told to stop: one that is being started by
    its flag, one that is running by a call that stops its process. *)

From S2P Require Import Prelude GoStrings Model LogBuffer AtomicFile JobRepository HostCommand Capabilities ExecutionPlan.
From S2P Require Import RunService RunServiceProofs RunServiceSpec Scheduler SchedulerProofs WatchManager WatchManagerProofs WatchSteps App AppProofs.

(** ** One stop *)

(** The run as it was, in what a stop looks at. *)
Definition as_before (r r' : runState) : Prop := same_run r r' /\ rs_stopRequested r' = rs_stopRequested r.

(** What a shutdown leaves of a run: final, told to stop while it is being
    started, or running with a process, which was told ([called] are the runs
    whose process was). *)
Definition told (called : list string) (id : string) (r : runState) : Prop :=
  terminal r = true \/ (is_queued r /\ rs_starting r = true /\ rs_stopRequested r = true) \/
  (is_running r /\ rs_handle r = true /\ id ∈ called).

Lemma told_before called id r r' : as_before r r' -> told called id r -> told called id r'.
Proof.
  intros [Hs Hr]. unfold told. rewrite (same_run_terminal _ _ Hs), <-(same_run_starting _ _ Hs), Hr.
  assert (rs_handle r' = rs_handle r) as -> by (symmetry; apply Hs).
  intros [?|[(? & ? & ?)|(? & ? & ?)]]; [by left|right; left; eauto|right; right; eauto].
Qed.

Lemma told_more called more id r : told called id r -> told (called ++ more) id r.
Proof. intros [?|[?|(? & ? & ?)]]; [by left|by right; left|right; right]. split_and!; [done..|]. apply elem_of_app. by left. Qed.

(** The run has a process. *)
Definition has_process (s : RunService) (id : string) : bool :=
  match sv_runs s !! id with Some r => string_eqb (Run_Status (rs_snapshot r)) RunRunning && rs_handle r | None => false end.

Lemma has_process_iff s id : has_process s id = true <-> exists r, sv_runs s !! id = Some r /\ is_running r /\ rs_handle r = true.
Proof.
  unfold has_process, is_running. destruct (sv_runs s !! id) as [r|]; [|split; [done|by intros (? & ? & _)]].
  rewrite andb_true_iff, string_eqb_true. split; [intros [? ?]; by exists r|]. by intros (? & [= <-] & ? & ?).
Qed.

Lemma trim_run now s k r' : sv_runs (trimLocked now s) !! k = Some r' -> exists r, sv_runs s !! k = Some r /\ as_before r r'.
Proof.
  unfold trimLocked. cbn. rewrite delete_ids_lookup. case_bool_decide; [done|].
  intros [H1 _]%map_lookup_filter_Some. rewrite lookup_fmap in H1. destruct (sv_runs s !! k) as [r|]; [|done].
  injection H1 as <-. by exists r.
Qed.

Lemma finishLocked_others now id result s k r' : k <> id ->
  sv_runs (finishLocked now id result s).2 !! k = Some r' -> exists r, sv_runs s !! k = Some r /\ as_before r r'.
Proof.
  intros Hne. unfold finishLocked. destruct (sv_runs s !! id) as [r|]; [|by exists r'].
  destruct (terminal r); [by exists r'|]. cbn [snd]. rewrite promote_runs. intros H.
  apply trim_run in H as (x & Hx & Hb). cbn in Hx. rewrite lookup_insert_ne in Hx by done. by exists x.
Qed.

Lemma Stop_others now id s k r' : k <> id -> sv_runs (Stop now id s).2 !! k = Some r' ->
  exists r, sv_runs s !! k = Some r /\ as_before r r'.
Proof.
  intros Hne. unfold Stop. destruct (sv_runs s !! id) as [run|]; [|by exists r'].
  destruct (string_eqb _ RunQueued); [|destruct (_ || _); by exists r']. destruct (rs_starting run).
  - cbn. rewrite lookup_insert_ne by done. by exists r'.
  - pose proof (finishLocked_others now id (MkRunResult RunKilled (-1) false 0 None None None) s k r' Hne) as H.
    by destruct (finishLocked _ _ _ s) as [[[[? ?] ?]|] s1].
Qed.

(** The stopped run itself; a handle is told exactly when the run is running and
    has one. *)
Lemma Stop_self limits now id s : reachable limits s -> let '(err, stop, s') := Stop now id s in
  (forall r', sv_runs s' !! id = Some r' -> told (List.filter (has_process s) [id]) id r') /\
  stop = has_process s id /\
  (stop = true -> err = None) /\
  (forall e, err = Some e -> e = ErrRunNotActive \/ sv_runs s !! id = None).
Proof.
  intros Hreach. pose proof (reachable_inv _ _ Hreach) as Hinv. pose proof (reachable_handled _ _ Hreach id) as Hhand.
  pose proof (Stop_inv now id s Hinv) as Hinv'. unfold Stop, has_process in *. cbn [List.filter] in *.
  destruct (sv_runs s !! id) as [run|] eqn:Er; [|split_and!; [by rewrite Er|done|done|by right]].
  destruct (string_eqb (Run_Status (rs_snapshot run)) RunQueued) eqn:Eq; str_eqb.
  - assert (string_eqb (Run_Status (rs_snapshot run)) RunRunning = false) as -> by (by rewrite Eq).
    destruct (rs_starting run) eqn:Es; [split_and!; [|done..]|].
    + cbn. rewrite lookup_insert_eq. intros r' [= <-]. right. by left.
    + destruct (finishLocked now id _ s) as [out s1] eqn:Ef.
      pose proof Ef as Hf. apply finishLocked_inv in Hf as [_ Ht]; [|done|by right|].
      * destruct out as [[[snapshot logs] ?]|]; split_and!; try done; intros r' Hr'; left; by apply Ht.
      * intros phase Hin. pose proof (ok_phase _ _ _ _ Hinv _ _ Hin) as Hph. destruct phase; simpl in *; try done.
        1-2: destruct Hph as (x & Hx & _ & ?); congruence.
        destruct Hph as (x & Hx & Hrun & _). rewrite Er in Hx. injection Hx as <-. unfold is_running in Hrun. by rewrite Eq in Hrun.
  - assert (terminal run = true \/ is_running run) as [Et|Hr].
    { destruct (terminal run) eqn:Et; [by left|]. destruct (ok_run _ _ _ _ Hinv _ _ Er) as [_ Hst].
      destruct (Hst Et) as [Hq|Hr]; [by rewrite Hq in Eq|by right]. }
    + assert (string_eqb (Run_Status (rs_snapshot run)) RunRunning = false) as ->.
      { apply not_true_iff_false. intros Hr. str_eqb. by rewrite (running_not_terminal run Hr) in Et. }
      cbn. split_and!; [|done|done|]; [|intros e [= <-]; by left]. intros r' Hr'. rewrite Er in Hr'. injection Hr' as <-. by left.
    + unfold is_running in Hr. rewrite (Hhand run eq_refl Hr), Hr. cbn. split_and!; try done. intros r' Hr'. rewrite Er in Hr'.
      injection Hr' as <-. right; right. split_and!; [done|by apply Hhand|by apply list_elem_of_singleton].
Qed.

Lemma Stop_keeps now id s k r : k <> id -> sv_runs s !! k = Some r -> terminal r = false ->
  exists r', sv_runs (Stop now id s).2 !! k = Some r' /\ same_run r r'.
Proof.
  intros Hne Hr Ht. unfold Stop. destruct (sv_runs s !! id) as [run|] eqn:Er; [|by exists r].
  destruct (string_eqb _ RunQueued); [|destruct (_ || _); by exists r]. destruct (rs_starting run).
  - cbn. rewrite lookup_insert_ne by done. by exists r.
  - unfold finishLocked. rewrite Er. destruct (terminal run); [by exists r|]. cbn [snd sv_runs persistHistory set_history].
    rewrite promote_runs. set (s1 := publishLocked _ _). destruct (trim_agree now s1) as [_ Hfwd]. apply Hfwd; [|done].
    cbn. by rewrite lookup_insert_ne.
Qed.

(** ** All of them *)

Definition alive (snap : RunSnapshot) : bool := negb (isTerminalRunStatus (Run_Status snap)).
(** Snapshots of different runs, as they are; those that are final do not matter. *)
Definition current (s : RunService) (runs : list RunSnapshot) : Prop :=
  NoDup (map Run_ID runs) /\
  Forall (fun snap => if alive snap then exists r, sv_runs s !! Run_ID snap = Some r /\ terminal r = false else has_process s (Run_ID snap) = false) runs.

(** Those of the runs that have a process, in their order. *)
Definition processes (s : RunService) (runs : list RunSnapshot) : list string :=
  List.filter (has_process s) (map Run_ID runs).

Section Shutdown.
Context {T : Type} (now : Z) (handleStop : string -> T -> option goerror * T).

(** Stopping processes one after another: their answers, and the state after. *)
Fixpoint calls (ids : list string) (t : T) : list (option goerror) * T :=
  match ids with
  | [] => ([], t)
  | id :: ids => let (err, t) := handleStop id t in let (answers, t) := calls ids t in (err :: answers, t)
  end.

(** An answer that is an error, other than that the run was over. *)
Definition refusal (answer : option goerror) : option goerror :=
  match answer with Some e => if errors_Is e "run is not active" then None else Some e | None => None end.

Lemma has_process_Stop id s k : k <> id -> has_process (Stop now id s).2 k = has_process s k.
Proof.
  intros Hne. apply eq_true_iff_eq. rewrite !has_process_iff. split.
  - intros (r' & Hr' & Hrun & Hh). apply Stop_others in Hr' as (r & Hr & (_ & _ & Hst & _ & Hha) & _); [|done].
    exists r. unfold is_running in *. by rewrite Hst, Hha.
  - intros (r & Hr & Hrun & Hh). destruct (Stop_keeps now id s k r Hne Hr) as (r' & Hr' & (_ & _ & Hst & _ & Hha)); [auto|].
    exists r'. unfold is_running in *. by rewrite <-Hst, <-Hha.
Qed.

Lemma processes_Stop id s runs : id ∉ map Run_ID runs -> processes (Stop now id s).2 runs = processes s runs.
Proof.
  intros Hid. unfold processes. apply filter_ext_in. intros k Hk. apply has_process_Stop. intros ->. apply Hid. by apply list_elem_of_In.
Qed.

Lemma current_Stop id s runs : id ∉ map Run_ID runs -> current s runs -> current (Stop now id s).2 runs.
Proof.
  intros Hid [Hn Hall]. split; [done|]. rewrite Forall_forall in *. intros snap Hs. specialize (Hall snap Hs).
  assert (Run_ID snap <> id) as Hne by (intros <-; apply Hid; by apply list_elem_of_fmap_2).
  destruct (alive snap); [|by rewrite has_process_Stop]. destruct Hall as (r & Hr & Ht).
  destruct (Stop_keeps now id s _ r Hne Hr Ht) as (r' & Hr' & Hsame). exists r'. split; [done|]. by rewrite <-(same_run_terminal _ _ Hsame).
Qed.

(** Every process of the list is told, in order, and the errors are the refusals. *)
Definition stopped_all (s : RunService) (runs : list RunSnapshot) (t : T) (errs : list goerror) (t' : T) : Prop :=
  let (answers, after) := calls (processes s runs) t in t' = after /\ errs = omap refusal answers.

Lemma stop_runs_told limits runs : forall s t, reachable limits s -> current s runs ->
  let '(errs, s', t') := stop_runs now handleStop runs s t in
  reachable limits s' /\ stopped_all s runs t errs t' /\
  forall id r', sv_runs s' !! id = Some r' -> exists r, sv_runs s !! id = Some r /\
    forall called, told called id r \/ (exists snap, snap ∈ runs /\ Run_ID snap = id /\ alive snap = true) ->
      told (called ++ processes s runs) id r'.
Proof.
  induction runs as [|snap runs IH]; intros s t Hreach Hcur; cbn [stop_runs].
  { split_and!; [done..|]. intros id r' Hr. exists r'. split; [done|]. intros called [?|(? & ?%elem_of_nil & _)]; [|done]. by apply told_more. }
  destruct Hcur as [Hn Hall]. apply NoDup_cons in Hn as [Hid Hn]. apply Forall_cons in Hall as [Hsnap Hall].
  unfold alive in Hsnap at 1. unfold stopped_all.
  destruct (isTerminalRunStatus (Run_Status snap)) eqn:Et; cbn [negb] in Hsnap.
  - assert (processes s (snap :: runs) = processes s runs) as -> by (unfold processes; cbn; by rewrite Hsnap).
    specialize (IH s t Hreach (conj Hn Hall)). destruct (stop_runs now handleStop runs s t) as [[errs s'] t'].
    destruct IH as (Hi & He & Hr). split_and!; [done..|].
    intros id r' Hr'. destruct (Hr id r' Hr') as (r & Hr0 & Ht). exists r. split; [done|]. intros called Hor. apply Ht.
    destruct Hor as [?|(x & Hx & Hxid & Ha)]; [by left|right].
    apply elem_of_cons in Hx as [->|Hx]; [unfold alive in Ha; by rewrite Et in Ha|]. by exists x.
  - destruct Hsnap as (r0 & Hr0 & Hr0t).
    pose proof (Stop_self limits now (Run_ID snap) s Hreach) as Hself.
    assert (reachable limits (Stop now (Run_ID snap) s).2) as Hreach1 by (by eapply reachable_step; [done|apply step_stop]).
    pose proof (current_Stop (Run_ID snap) s runs Hid (conj Hn Hall)) as Hcur1.
    pose proof (fun k => Stop_others now (Run_ID snap) s k) as Hoth. pose proof (processes_Stop (Run_ID snap) s runs Hid) as Hproc.
    destruct (Stop now (Run_ID snap) s) as [[err stop] s1]. destruct Hself as (Htold & -> & Hok & Herr). cbn [snd] in *.
    assert (processes s (snap :: runs) = List.filter (has_process s) [Run_ID snap] ++ processes s1 runs) as ->
      by (rewrite Hproc; unfold processes; cbn; by destruct (has_process s (Run_ID snap))).
    set (out := if has_process s (Run_ID snap) then _ else _). destruct out as [err1 t1] eqn:Eo. subst out.
    specialize (IH s1 t1 Hreach1 Hcur1). destruct (stop_runs now handleStop runs s1 t1) as [[errs s2] t2].
    destruct IH as (Hi & He & Hr). split; [done|]. split.
    + unfold stopped_all in He. cbn [List.filter]. destruct (has_process s (Run_ID snap)); cbn [app calls].
      * rewrite Eo. destruct (calls _ t1) as [answers after]. destruct He as [-> ->]. split; [done|]. cbn.
        destruct err1 as [e|]; [|done]. cbn. by destruct (errors_Is e _).
      * injection Eo as <- <-. destruct (calls _ t) as [answers after]. destruct He as [-> ->]. split; [done|].
        destruct err as [e|]; [|done]. destruct (Herr e eq_refl) as [->|?]; [done|congruence].
    + intros id r' Hr'. destruct (Hr id r' Hr') as (r1 & Hr1 & Ht). destruct (decide (id = Run_ID snap)) as [->|Hne].
      * exists r0. split; [done|]. intros called _. rewrite (assoc_L app). apply Ht. left. 
        destruct (Htold r1 Hr1) as [?|[?|(? & ? & ?)]]; [by left|by right; left|right; right]. split_and!; [done..|]. apply elem_of_app. by right.
      * destruct (Hoth id r1 Hne Hr1) as (r & Hr2 & Hb). exists r. split; [done|]. intros called Hor. rewrite (assoc_L app). apply Ht.
        destruct Hor as [Hx|(x & Hx & Hxid & Ha)].
        -- left. apply told_more. by eapply told_before.
        -- right. apply elem_of_cons in Hx as [->|Hx]; [congruence|]. by exists x.
Qed.
End Shutdown.

(** ** The application *)

Lemma List_all now s : let (runs, s') := RunService.List_ (MkRunFilter 0 "" 0) now s in
  s' = prune now s /\ runs ≡ₚ map (fun kr => rs_snapshot kr.2) (map_to_list (sv_runs (prune now s))).
Proof.
  unfold RunService.List_. cbn [Filter_Limit]. change (0 >? 0)%Z with false. cbn [andb]. split; [done|].
  rewrite merge_sort_Permutation. rewrite forallb_filter_id; [done|]. by apply forallb_forall.
Qed.

Lemma listed_runs s runs : inv s -> runs ≡ₚ map (fun kr => rs_snapshot kr.2) (map_to_list (sv_runs s)) ->
  (forall snap, snap ∈ runs <-> exists r, sv_runs s !! Run_ID snap = Some r /\ rs_snapshot r = snap) /\ current s runs.
Proof.
  intros Hinv Hperm.
  assert (forall snap, snap ∈ runs <-> exists r, sv_runs s !! Run_ID snap = Some r /\ rs_snapshot r = snap) as Hin.
  { intros snap. rewrite Hperm, list_elem_of_fmap. split.
    - intros ([id r] & -> & Hr%elem_of_map_to_list). cbn. destruct (ok_run _ _ _ _ Hinv _ _ Hr) as [-> _]. by exists r.
    - intros (r & Hr & Heq). exists (Run_ID snap, r). split; [done|]. by apply elem_of_map_to_list. }
  split; [done|]. split.
  - rewrite Hperm. change (@map RunSnapshot string) with (@fmap list _ RunSnapshot string).
    rewrite <-list_fmap_compose. erewrite list_fmap_ext; [apply NoDup_fst_map_to_list|].
    intros i [id r] Hi. cbn. apply list_elem_of_lookup_2, elem_of_map_to_list in Hi. apply (ok_run _ _ _ _ Hinv _ _ Hi).
  - apply Forall_forall. intros snap Hs. apply Hin in Hs as (r & Hr & <-). unfold alive.
    destruct (isTerminalRunStatus (Run_Status (rs_snapshot r))) eqn:Et; cbn [negb]; [|by exists r].
    apply not_true_iff_false. rewrite has_process_iff. intros (x & Hx & Hrun & _). rewrite Hr in Hx. injection Hx as <-.
    apply running_not_terminal in Hrun. unfold terminal in Hrun. congruence.
Qed.

(** Runs that are all told leave none that waits. *)
Lemma told_pending called s : inv s -> (forall id r, sv_runs s !! id = Some r -> told called id r) -> sv_pending s = ∅.
Proof.
  intros Hinv Htold. apply map_empty. intros j. destruct (sv_pending s !! j) as [id|] eqn:Ep; [|done]. exfalso.
  destruct (ok_pending _ _ _ _ Hinv _ _ Ep) as (_ & _ & r & Hrid & _ & Hq & Hs).
  destruct (Htold id r Hrid) as [Ht|[(_ & Hs' & _)|[Hrun _]]]; [|congruence|].
  - by rewrite queued_not_terminal in Ht.
  - unfold is_queued, is_running in *. by rewrite Hq in Hrun.
Qed.

(** The runs [App.Close] finds with a process, in its order. *)
Definition with_process (now : Z) (s : RunService) : list string :=
  let (runs, s) := RunService.List_ (MkRunFilter 0 "" 0) now s in processes s runs.

(** They are those that are running with a handle before the call. *)
Lemma with_process_runs now s : inv s -> NoDup (with_process now s) /\
  forall id, id ∈ with_process now s <-> exists r, sv_runs s !! id = Some r /\ is_running r /\ rs_handle r = true.
Proof.
  intros Hinv0. assert (inv (prune now s)) as Hinv by (apply (step_inv s); [done|constructor]).
  unfold with_process. pose proof (List_all now s) as Hl. destruct (RunService.List_ _ now s) as [runs s1]. destruct Hl as [-> Hperm].
  destruct (listed_runs _ _ Hinv Hperm) as [Hin [Hn _]]. split.
  { unfold processes. apply NoDup_ListNoDup, List.NoDup_filter. by apply NoDup_ListNoDup. }
  intros id. unfold processes. rewrite list_elem_of_In, filter_In, <-list_elem_of_In, has_process_iff. split.
  - intros [_ (r1 & Hr1 & Hrun & Hh)]. destruct (trim_run now _ _ _ Hr1) as (r & Hrid & ((_ & _ & Hst & _ & Hha) & _)).
    exists r. unfold is_running in *. by rewrite Hst, Hha.
  - intros (r & Hrid & Hrun & Hh). destruct (trim_agree now s) as [_ Hfwd]. destruct (Hfwd id r Hrid) as (r1 & Hr1 & (_ & _ & Hst & _ & Hha)); [auto|].
    destruct (ok_run _ _ _ _ Hinv _ _ Hr1) as [Hid _]. split.
    + apply list_elem_of_fmap. exists (rs_snapshot r1). split; [done|]. apply Hin. exists r1. by rewrite Hid.
    + exists r1. unfold is_running in *. by rewrite <-Hst, <-Hha.
Qed.

Lemma no_refusal answers : errors_Join (Some <$> omap refusal answers) = None <->
  forall e, Some e ∈ answers -> errors_Is e "run is not active" = true.
Proof.
  rewrite errors_Join_None, Forall_fmap, Forall_forall. split.
  - intros Hnone e He. destruct (errors_Is e _) eqn:Ei; [done|]. discriminate (Hnone e). apply list_elem_of_omap.
    exists (Some e). split; [done|]. cbn. by rewrite Ei.
  - intros Hall e (a & Ha & Href)%list_elem_of_omap. destruct a as [e0|]; [|done]. cbn in Href. by rewrite (Hall e0 Ha) in Href.
Qed.

(** No trigger starts a run any more, and no run waits for its turn. *)
Definition silenced {E V} (a : App.App E V) : Prop :=
  (forall id revision generation, fire id revision generation (App_Scheduler a) = None) /\
  (forall id h, fire_check id h (App_Watches a) = false) /\ sv_pending (App_Runs a) = ∅.

Lemma Close_cases {E V T} limits now (handleStop : string -> T -> option goerror * T) (a : App.App E V) (t : T) :
  reachable limits (App_Runs a) ->
  let '(err, a', t') := App.Close now handleStop a t in
  let ids := with_process now (App_Runs a) in
  let (answers, after) := calls handleStop ids t in
  silenced a' /\ (forall id r, sv_runs (App_Runs a') !! id = Some r -> told ids id r) /\
  t' = after /\ (err = None <-> forall e, Some e ∈ answers -> errors_Is e "run is not active" = true).
Proof.
  intros Hr. unfold App.Close, with_process. pose proof (List_all now (App_Runs a)) as Hl.
  destruct (RunService.List_ _ now (App_Runs a)) as [runs s]. destruct Hl as [-> Hperm].
  assert (reachable limits (prune now (App_Runs a))) as Hreach by (by eapply reachable_step; [done|constructor]).
  pose proof (reachable_inv _ _ Hreach) as Hinv. destruct (listed_runs _ _ Hinv Hperm) as [Hin Hcur].
  pose proof (stop_runs_told now handleStop limits runs _ t Hreach Hcur) as H.
  destruct (stop_runs now handleStop runs _ t) as [[errs s'] t']. destruct H as (Hreach' & He & Hruns).
  unfold stopped_all in He. destruct (calls _ _ t) as [answers after]. destruct He as [-> ->]. cbn [App_Scheduler App_Watches App_Runs].
  assert (forall id r, sv_runs s' !! id = Some r -> told (processes (prune now (App_Runs a)) runs) id r) as Htold.
  { intros id r' Hr'. destruct (Hruns id r' Hr') as (r & Hrid & Ht). apply (Ht []). destruct (terminal r) eqn:Et; [by left; left|right].
    destruct (ok_run _ _ _ _ Hinv _ _ Hrid) as [Hid _]. exists (rs_snapshot r). split_and!; [|done|].
    - apply Hin. exists r. by rewrite Hid.
    - unfold alive. unfold terminal in Et. by rewrite Et. }
  split_and!; [|done|done|by apply no_refusal]. split_and!.
  - intros id rev gen. unfold fire, Scheduler.Close. cbn. destruct (sch_closed _) eqn:Ec; [rewrite Ec|]; by destruct (_ !! id).
  - intros id h. unfold fire_check, WatchManager.Close. cbn. destruct (wm_closed (App_Watches a)) eqn:Ec; [by rewrite Ec|].
    match goal with |- context [stop_all ?l ?m] => destruct (stop_all_spec l m) as ((_ & _ & _ & Hc) & _) end. by rewrite Hc.
  - eapply told_pending; [by eapply reachable_inv|done].
Qed.

(** The shutdown.  After Close no cron callback and no watcher starts a run, no
    run waits behind another, the processes that were running were told to stop one
    after another, and every run is final, or was told to stop while it was being
    started, or is running and its process is one of these: no error is returned
    exactly when each of them accepted it or had ended. *)
Theorem Close_stops {E V T} limits now (handleStop : string -> T -> option goerror * T) (a : App.App E V) (t : T) :
  reachable limits (App_Runs a) ->
  exists ids, NoDup ids /\
    (forall id, id ∈ ids <-> exists r, sv_runs (App_Runs a) !! id = Some r /\ is_running r /\ rs_handle r = true) /\
    let '(err, a', t') := App.Close now handleStop a t in
    let (answers, after) := calls handleStop ids t in
    silenced a' /\ (forall id r, sv_runs (App_Runs a') !! id = Some r -> told ids id r) /\
    t' = after /\ (err = None <-> forall e, Some e ∈ answers -> errors_Is e "run is not active" = true).
Proof.
  intros Hr. exists (with_process now (App_Runs a)). destruct (with_process_runs now (App_Runs a)) as [Hn Hin]; [by eapply reachable_inv|].
  split; [done|]. split; [done|]. by apply (Close_cases limits).
Qed.

(** ** Witness *)

(** An application with an active run and one that waits behind it. *)
Definition demo_running : App.App demo_engine unit :=
  MkApp (App_Jobs demo_app) demo_two newScheduler demo_empty newWatchManager tt (MkCapabilityReport []) "nas-1".

Lemma Close_stops_witness :
  sv_pending demo_two <> ∅ /\
  let '(err, a', t') := App.Close 9 (fun id told => (Some (ErrNew "refused"), id :: told)) demo_running [] in silenced a'.
Proof.
  split; [vm_compute; discriminate|].
  destruct (Close_stops demo_limits 9 (fun id told => (Some (ErrNew "refused"), id :: told)) demo_running [] demo_two_reachable) as (ids & _ & _ & H).
  destruct (App.Close _ _ _ _) as [[err a'] t']. destruct (calls _ _ _) as [answers after]. apply H.
Defined.
