(* ===== verification/LegacyApi.v ===== *)
(** * The legacy HTTP API ([api_legacy.go], and the job checks of [main.go])

    The routes the web interface uses.  They show a job as its v1 form, and turn
    a v1 form back into a job.  A handler is a function of the request and the
    application's state, as in [JobApi].  The log stream ([legacyStream]) is in [Events]. *)

From S2P Require Import Prelude GoStrings Model LogBuffer AtomicFile JobRepository HostCommand Capabilities.
From S2P Require Import ExecutionPlan RunService History Scheduler JobApi.

(** ** The two forms of a job *)

(** [defaults] *)
Definition default_to (get : Job -> string) (set : string -> Job -> Job) (v : string) (j : Job) : Job :=
  if string_eqb (get j) "" then set v j else j.
Definition defaults (j : Job) : Job :=
  let j := default_to Job_Kind Job_set_Kind "sync" j in
  let j := default_to Job_Backend Job_set_Backend "syncbridge" j in
  let j := default_to Job_Engine Job_set_Engine "rsync" j in
  let j := default_to Job_Mode Job_set_Mode "add" j in
  let j := default_to Job_Trigger Job_set_Trigger "manual" j in
  default_to Job_Compare Job_set_Compare "time" j.

Definition five_fields (j : Job) : bool := (length (Fields (Job_Cron j)) =? 5)%nat.

(** [validateJob]: the empty string when the job is accepted; [lock] is
    [SB_LOCK_COMMANDS=1]. *)
Definition validateJob (lock : bool) (j : Job) : string :=
  if string_eqb (Job_Backend j) "system" && negb (string_eqb (Job_Trigger j) "cron") && negb (string_eqb (Job_Trigger j) "watch")
  then "backend System : choisis un déclencheur cron ou surveillance (le manuel reste côté SyncBridge)"
  else if string_eqb (Job_Kind j) "command" then
    if lock then "création de jobs commande désactivée sur cette instance (SB_LOCK_COMMANDS=1)"
    else if string_eqb (TrimSpace (Job_Command j)) "" then "job commande : la commande est vide"
    else if string_eqb (Job_Trigger j) "cron" && negb (five_fields j)
    then "expression cron invalide : 5 champs attendus (min heure jour mois jour-semaine)"
    else ""
  else
    let src := TrimByteRight slash (Job_Source j) in
    let dst := TrimByteRight slash (Job_Dest j) in
    if string_eqb src dst && negb (string_eqb src "")
    then "source et destination identiques : refusé (risque de perte de données)"
    else if string_eqb (Job_Mode j) "mirror" && negb (string_eqb src "") && HasPrefix (dst +:+ "/") (src +:+ "/")
    then "en miroir, la destination ne peut pas être à l'intérieur de la source"
    else if string_eqb (Job_Trigger j) "cron" && negb (five_fields j)
    then "expression cron invalide : 5 champs attendus (min heure jour mois jour-semaine)"
    else "".

(** The fields of a sync action as the v1 form has them, and back. *)
Definition show_sync (s : SyncAction) (j : Job) : Job :=
  Job_set_Exclude (Sync_Exclude s) (Job_set_SysBackup (Sync_SysBackup s) (Job_set_SkipNew (Sync_SkipNew s)
  (Job_set_MaxDel (Sync_MaxDel s) (Job_set_BackupKeep (Sync_BackupKeep s) (Job_set_Backup (Sync_Backup s)
  (Job_set_Bwlimit (Sync_Bwlimit s) (Job_set_Compare (Sync_Compare s) (Job_set_Mode (Sync_Mode s)
  (Job_set_Dest (Sync_Dest s) (Job_set_Source (Sync_Source s) (Job_set_Engine (Sync_Engine s) j))))))))))).
Definition sync_of (j : Job) : SyncAction :=
  MkSyncAction (Job_Engine j) (Job_Source j) (Job_Dest j) (Job_Mode j) (Job_Compare j) (Job_Bwlimit j) (Job_Backup j)
    (Job_BackupKeep j) (Job_MaxDel j) (Job_SkipNew j) (Job_SysBackup j) (Job_Exclude j).

Definition legacyJobView (job : Job) : Job :=
  let view := cloneJob job in
  let view := Job_set_SchemaVersion 0 view in
  let view := Job_set_Disabled (negb (Job_Enabled job)) view in
  let view := Job_set_Backend (Policy_Owner (Job_Scheduler job)) view in
  let view := Job_set_Timeout (Exec_TimeoutSeconds (Job_Execution job)) view in
  let action := Job_Action job in
  let view :=
    if string_eqb (Action_Type action) ActionCommand
    then Job_set_Command (Action_Command action) (Job_set_Kind "command" view)
    else if string_eqb (Action_Type action) ActionSync
    then show_sync (Action_Sync action) (Job_set_Kind "sync" view)
    else if string_eqb (Action_Type action) ActionScript
    then Job_set_Command (Action_ScriptPath action) (Job_set_Kind "command" view)
    else view in
  let view := default_to Job_Backend Job_set_Backend "syncbridge" view in
  default_to Job_Compare Job_set_Compare "time" view.

Definition legacy_candidate (input : Job) : Job :=
  let out := cloneJob input in
  let out := Job_set_SchemaVersion 2 out in
  let out := Job_set_ID 0 out in
  let out := Job_set_Revision 0 out in
  let out := Job_set_Enabled (negb (Job_Disabled input)) out in
  let out := Job_set_Execution (Exec_set_TimeoutSeconds (Job_Timeout input) (Job_Execution out)) out in
  let out := default_overlap out in
  let out := Job_set_Scheduler (MkSchedulerPolicy
    (if string_eqb (Job_Backend input) "system" then SchedulerSystem else SchedulerSyncBridge)) out in
  Job_set_Action
    (if string_eqb (Job_Kind input) "command" then MkAction ActionCommand "" [] (Job_Command input) zeroSyncAction
     else MkAction ActionSync "" [] "" (sync_of input)) out.

Definition legacyToV2 (lock : bool) (input : Job) : result Job :=
  let input := defaults input in
  let out := legacy_candidate input in
  let errText := validateJob lock input in
  if negb (string_eqb errText "") then Err (ErrNew errText)
  else
    _ ← validateV2Job out;
    Ok (Job_set_NeedsReview false out).

(** ** Answers *)

Record StatusItem := MkStatusItem {
  St_ID : Z; St_Running : bool; St_Since : Z; St_Progress : string
}.

Inductive LegacyResponse :=
  | LError (text : string) (code : Z)
  | LJobs (jobs : list Job)
  | LJob (job : Job)
  | LDeleted (id : Z)
  | LStarted (id : Z) (dry : bool) (runId : string)
  | LToggled (id : Z) (disabled : bool) (revision : Z)
  | LKilled (id : Z) (killed : bool)
  | LHistory (records : list RunRecord)
  | LStatus (items : list StatusItem)
  | LEngines (rsync rclone : bool)
  | LStream (id : Z).

Definition methode : LegacyResponse := LError "méthode" 405.

(** [orig.Name + " (copie)"], disabled and without a past. *)
Definition copy_of (orig : Job) : Job :=
  Job_set_LastStat "" (Job_set_LastRun "" (Job_set_Disabled true (Job_set_Enabled false
    (Job_set_Name (Job_Name orig +:+ " (copie)") (Job_set_Revision 0 (Job_set_ID 0 (cloneJob orig))))))).

Definition toggled_job (job : Job) : Job :=
  let job := Job_set_Enabled (negb (Job_Enabled job)) job in
  Job_set_Disabled (negb (Job_Enabled job)) job.

(** A legacy edit does not switch a job on or off. *)
Definition keep_enabled (current candidate : Job) : Job :=
  Job_set_Disabled (negb (Job_Enabled current)) (Job_set_Enabled (Job_Enabled current) candidate).

Section Handlers.
Context `{!JSONDecoder} `{!JobCodec} `{!HistoryCodec}.
Context {T : Type} (reconcile : list Job -> T -> T).
Context (lock : bool) (historyPath : string) (owner : FileOwner).
Context (now : Z) (newID : result string) (handleStop : option goerror).
Notation state := (AppState T).

Definition jobs_of (a : state) : list Job := JobRepository.List_ (w_repo (app_world a)).
Definition job_of (a : state) (id : Z) : option Job := JobRepository.Get (w_repo (app_world a)) id.
Notation retrigger := (reconcileTriggers reconcile).

(** The job a body holds, or the answer that refuses it. *)
Definition decode_legacy (r : Request) : Job + LegacyResponse :=
  match decodeStrictJSON decode_job r with
  | Err _ => inr (LError "json" 400)
  | Ok input =>
      match legacyToV2 lock input with
      | Err e => inr (LError (error_text e) 400)
      | Ok job => inl job
      end
  end.

Definition legacy_create (job : Job) (a : state) : LegacyResponse * state :=
  match Create job (app_world a) with
  | (Err _, w) => (LError "persist" 500, set_world w a)
  | (Ok created, w) => (LJob (legacyJobView created), retrigger (set_world w a))
  end.

Definition handleLegacyJobs (r : Request) (a : state) : LegacyResponse * state :=
  if string_eqb (req_method r) MethodGet then (LJobs (map legacyJobView (jobs_of a)), a)
  else if string_eqb (req_method r) MethodPost then
    match decode_legacy r with
    | inr resp => (resp, a)
    | inl job => legacy_create job a
    end
  else (methode, a).

Definition legacy_put (r : Request) (id : Z) (a : state) : LegacyResponse * state :=
  match job_of a id with
  | None => (LError "introuvable" 404, a)
  | Some current =>
      match decode_legacy r with
      | inr resp => (resp, a)
      | inl candidate =>
          match Update id (Job_Revision current) (keep_enabled current candidate) (app_world a) with
          | (Err _, w) => (LError "conflit" 409, set_world w a)
          | (Ok updated, w) => (LJob (legacyJobView updated), retrigger (set_world w a))
          end
      end
  end.

(** [removeHistory] on the application's files. *)
Definition forget (id : Z) (a : state) : state :=
  let w := app_world a in
  set_world (MkWorld (w_repo w) (removeHistory historyPath owner id (w_fs w)).2 (w_stamp w)) a.

Definition legacy_delete (id : Z) (a : state) : LegacyResponse * state :=
  match job_of a id with
  | None => (LError "introuvable" 404, a)
  | Some current =>
      let (active, a) := jobHasActiveRun now id a in
      if active then (LError "run actif" 409, a)
      else match Delete id (Job_Revision current) (app_world a) with
      | (Err _, w) => (LError "conflit" 409, set_world w a)
      | (Ok _, w) => (LDeleted id, retrigger (forget id (set_world w a)))
      end
  end.

Definition legacyRun (r : Request) (dry : bool) (id : Z) (a : state) : LegacyResponse * state :=
  if negb (string_eqb (req_method r) MethodPost) then (methode, a)
  else match job_of a id with
  | None => (LError "introuvable" 404, a)
  | Some job =>
      let (run, s) := Start (job_of a id) newID now (MkStartRunInput id (Job_Revision job) RunOriginManual dry) (app_runs a) in
      let a := set_runservice s a in
      match run with
      | Ok run => (LStarted id dry (Run_ID run), a)
      | Err e => if errors_Is e "job already has an active run" then (LError "déjà en cours" 409, a)
                 else (LError "échec lancement" 500, a)
      end
  end.

Definition legacyClone (r : Request) (id : Z) (a : state) : LegacyResponse * state :=
  if negb (string_eqb (req_method r) MethodPost) then (methode, a)
  else match job_of a id with
  | None => (LError "introuvable" 404, a)
  | Some orig => legacy_create (copy_of orig) a
  end.

Definition legacyToggle (r : Request) (id : Z) (a : state) : LegacyResponse * state :=
  if negb (string_eqb (req_method r) MethodPost) then (methode, a)
  else match job_of a id with
  | None => (LError "introuvable" 404, a)
  | Some job =>
      match Update id (Job_Revision job) (toggled_job job) (app_world a) with
      | (Err _, w) => (LError "conflit" 409, set_world w a)
      | (Ok updated, w) =>
          (LToggled id (negb (Job_Enabled updated)) (Job_Revision updated), retrigger (set_world w a))
      end
  end.

(** The newest run that is not final is stopped. *)
Definition legacyKill (r : Request) (id : Z) (a : state) : LegacyResponse * state :=
  if negb (string_eqb (req_method r) MethodPost) then (methode, a)
  else
    let (runs, s) := RunService.List_ (MkRunFilter id "" 0) now (app_runs a) in
    match List.find (fun run => negb (isTerminalRunStatus (Run_Status run))) runs with
    | None => (LKilled id false, set_runservice s a)
    | Some run =>
        let '(err, stop, s) := Stop now (Run_ID run) s in
        let err := match err with Some e => Some e | None => if stop then handleStop else None end in
        (LKilled id (match err with None => true | Some e => errors_Is e "run is not active" end), set_runservice s a)
    end.

Definition apiJobHistory (id : Z) (a : state) : LegacyResponse * state :=
  let w := app_world a in
  let (h, fs) := loadHistory historyPath (w_fs w) in
  (LHistory (match h with Ok m => default [] (m !! Itoa id) | Err _ => [] end),
   set_world (MkWorld (w_repo w) fs (w_stamp w)) a).

Definition handleLegacyJobByID (r : Request) (dry : bool) (a : state) : LegacyResponse * state :=
  match Split slash (TrimByte slash (TrimPrefix (req_path r) "/api/jobs/")) with
  | [] => (LError "id" 400, a)
  | part :: parts =>
      match parsePositiveID part with
      | Err _ => (LError "id" 400, a)
      | Ok id =>
          match parts with
          | [] =>
              if string_eqb (req_method r) MethodPut then legacy_put r id a
              else if string_eqb (req_method r) MethodDelete then legacy_delete id a
              else (methode, a)
          | [sub] =>
              if string_eqb sub "run" then legacyRun r dry id a
              else if string_eqb sub "stream" then (LStream id, a)
              else if string_eqb sub "history" then
                if negb (string_eqb (req_method r) MethodGet) then (methode, a) else apiJobHistory id a
              else if string_eqb sub "clone" then legacyClone r id a
              else if string_eqb sub "toggle" then legacyToggle r id a
              else if string_eqb sub "kill" then legacyKill r id a
              else (LError "404 page not found" 404, a)
          | _ => (LError "404 page not found" 404, a)
          end
      end
  end.

(** ** Status *)

(** The last line with a percent sign. *)
Definition progress_of (logs : string) : string :=
  fold_left (fun p line => if Contains line "%" then TrimSpace line else p) (Split (Ascii.ascii_of_nat 10) logs) "".

Definition status_of (id : Z) (s : RunService) : StatusItem * RunService :=
  let (runs, s) := RunService.List_ (MkRunFilter id "" 1) now s in
  match runs with
  | run :: _ =>
      if isTerminalRunStatus (Run_Status run) then (MkStatusItem id false 0 "", s)
      else
        let since := if (Run_StartedAt run =? 0)%Z then 0%Z else Z.quot (now - Run_StartedAt run) second in
        let (logs, s) := Logs (Run_ID run) now s in
        (MkStatusItem id true since (match logs with Some logs => progress_of logs | None => "" end), s)
  | [] => (MkStatusItem id false 0 "", s)
  end.

Fixpoint statuses (jobs : list Job) (s : RunService) : list StatusItem * RunService :=
  match jobs with
  | [] => ([], s)
  | job :: jobs =>
      let (item, s) := status_of (Job_ID job) s in
      let (items, s) := statuses jobs s in
      (item :: items, s)
  end.

Definition handleLegacyStatus (r : Request) (a : state) : LegacyResponse * state :=
  if negb (string_eqb (req_method r) MethodGet) then (methode, a)
  else
    let (items, s) := statuses (jobs_of a) (app_runs a) in
    (LStatus items, set_runservice s a).
End Handlers.

(** [report] is what [Probe] finds. *)
Definition handleLegacyEngines (r : Request) (report : CapabilityReport) : LegacyResponse :=
  if negb (string_eqb (req_method r) MethodGet) then methode
  else LEngines (string_eqb (Cap_Status (ByCode report CapRsync)) CapabilityAvailable)
                (string_eqb (Cap_Status (ByCode report CapRclone)) CapabilityAvailable).
