(* ===== verification/LegacyProofs.v ===== *)
(** * The legacy HTTP API: proofs

    The form of a job read back, and the handlers against the specification of
    the repository. *)

From S2P Require Import Prelude GoStrings Model LogBuffer AtomicFile JobRepository HostCommand Capabilities.
From S2P Require Import ExecutionPlan RunService History Scheduler JobApi JobApiProofs LegacyApi.

(** ** Paths *)



(** ** A job, shown and saved again *)














(** The tests on a known action type. *)
Lemma sync_not_script : string_eqb ActionSync ActionScript = false. Proof. done. Qed.
Lemma sync_not_command : string_eqb ActionSync ActionCommand = false. Proof. done. Qed.
Lemma sync_is_sync : string_eqb ActionSync ActionSync = true. Proof. done. Qed.
Lemma command_not_script : string_eqb ActionCommand ActionScript = false. Proof. done. Qed.
Lemma command_is_command : string_eqb ActionCommand ActionCommand = true. Proof. done. Qed.
#[local] Hint Rewrite sync_not_script sync_not_command sync_is_sync command_not_script command_is_command : action_type.













(** ** The mutations of the routes *)

Section Routes.
Context `{!JSONDecoder} `{!JobCodec} `{!HistoryCodec} {T : Type} (reconcile : list Job -> T -> T).
Context (lock : bool) (historyPath : string) (owner : FileOwner) (now : Z) (newID : result string) (handleStop : option goerror).

(** [registerLegacyRoutes]: the two patterns of the jobs. *)
Definition serve_legacy (r : Request) (dry : bool) (a : AppState T) : LegacyResponse * AppState T :=
  if string_eqb (req_path r) "/api/jobs" then handleLegacyJobs reconcile lock r a
  else handleLegacyJobByID reconcile lock historyPath owner now newID handleStop r dry a.

Definition legacy_route (r : Request) : option (Z * list string) :=
  match Split slash (TrimByte slash (TrimPrefix (req_path r) "/api/jobs/")) with
  | part :: parts => match parsePositiveID part with Ok id => Some (id, parts) | Err _ => None end
  | [] => None
  end.

Definition legacy_job (r : Request) : option Job :=
  match decode_legacy lock r with inl job => Some job | inr _ => None end.

(** The mutation a request below the path of a job asks for. *)
Definition legacy_sub_op (r : Request) (id : Z) (parts : list string) (current : Job) : option repo_op :=
  match parts with
  | [] =>
      if string_eqb (req_method r) MethodPut then
        job ← legacy_job r; Some (OpUpdate id (Job_Revision current) (keep_enabled current job))
      else if string_eqb (req_method r) MethodDelete then Some (OpDelete id (Job_Revision current)) else None
  | [sub] =>
      if negb (string_eqb (req_method r) MethodPost) then None
      else if string_eqb sub "clone" then Some (OpCreate (copy_of current))
      else if string_eqb sub "toggle" then Some (OpUpdate id (Job_Revision current) (toggled_job current))
      else None
  | _ => None
  end.

(** The mutation a request asks for, against the job as the memory has it. *)
Definition legacy_op (r : Request) (a : AppState T) : option repo_op :=
  if string_eqb (req_path r) "/api/jobs" then
    if string_eqb (req_method r) MethodPost then job ← legacy_job r; Some (OpCreate job) else None
  else
    '(id, parts) ← legacy_route r;
    current ← job_of a id;
    legacy_sub_op r id parts current.

Definition legacy_success (r : Request) (op : repo_op) (st : repo_view) : LegacyResponse :=
  match op with
  | OpCreate job => LJob (legacyJobView (stamp_job st.1 1 job))
  | OpUpdate id revision job =>
      if string_eqb (req_method r) MethodPut then LJob (legacyJobView (stamp_job id (wrap_u64 (revision + 1)) job))
      else LToggled id (negb (Job_Enabled job)) (wrap_u64 (revision + 1))
  | OpDelete id _ => LDeleted id
  end.

(** One text for every failure of the repository. *)
Definition legacy_failure (op : repo_op) : LegacyResponse :=
  match op with OpCreate _ => LError "persist" 500 | _ => LError "conflit" 409 end.

Definition legacy_outcome (path : string) (st : repo_view) (r : Request) (a : AppState T) (resp : LegacyResponse) (a' : AppState T) : Prop :=
  match legacy_op r a with
  | None => jobs_kept path st a a' /\ w_repo (app_world a') = w_repo (app_world a)
  | Some op =>
      if blocked now op a then jobs_kept path st a a' /\ resp = LError "run actif" 409
      else match spec_step op st with
      | Err e => jobs_kept path st a a' /\ resp = legacy_failure op
      | Ok st' =>
          (resp = legacy_success r op st /\ disk_holds path st' (app_world a') /\ memory_holds st' (app_world a') /\
           app_triggers a' = reconcile (sorted_jobs st'.2) (app_triggers a)) \/
          (resp = legacy_failure op /\ ~ undisturbed path st' (app_world a) /\ app_triggers a' = app_triggers a /\
           (disk_holds path st (app_world a') \/ disk_holds path st' (app_world a')))
      end
  end.

Context (marshal_foreign : forall s e, marshal_store s = Err e -> foreign e = true).

Lemma legacy_none path st r (a : AppState T) resp s : legacy_op r a = None -> disk_holds path st (app_world a) ->
  legacy_outcome path st r a resp (set_runservice s a).
Proof. intros Hop Hd. unfold legacy_outcome. by rewrite Hop. Qed.

Lemma legacy_none_here path st r (a : AppState T) resp : legacy_op r a = None -> disk_holds path st (app_world a) ->
  legacy_outcome path st r a resp a.
Proof. intros Hop Hd. rewrite <-(set_runservice_id a) at 2. by apply legacy_none. Qed.

(** The jobs the triggers are given are those of the view. *)
Lemma memory_list st (a : AppState T) : memory_holds st (app_world a) -> JobRepository.List_ (w_repo (app_world a)) = sorted_jobs st.2.
Proof. intros Hm. unfold JobRepository.List_. unfold memory_holds in Hm. destruct st. by injection Hm as _ ->. Qed.

Lemma create_outcome path st r job (a : AppState T) :
  view_ok st -> disk_holds path st (app_world a) -> legacy_op r a = Some (OpCreate job) -> op_fits (OpCreate job) st ->
  let (resp, a') := legacy_create reconcile job a in legacy_outcome path st r a resp a'.
Proof.
  intros Hok Hd Hop Hfit. pose proof (Create_ok marshal_foreign path st job (app_world a) Hok Hfit Hd) as Hcr.
  unfold legacy_create, legacy_outcome. rewrite Hop. cbn [blocked]. unfold with_job in Hcr.
  destruct (Create job (app_world a)) as [[created|e] w]; destruct st as [next jobs]; cbn [spec_step] in *.
  - destruct Hcr as (-> & Hd' & Hm'). left. split; [done|]. split; [done|]. split; [done|].
    cbn. f_equal. exact (memory_list _ (set_world w a) Hm').
  - right. by destruct Hcr as (_ & Hu & Hcr).
Qed.

Lemma update_outcome path st r id revision job answer (a : AppState T) :
  view_ok st -> disk_holds path st (app_world a) -> legacy_op r a = Some (OpUpdate id revision job) ->
  op_fits (OpUpdate id revision job) st ->
  legacy_success r (OpUpdate id revision job) st = answer (stamp_job id (wrap_u64 (revision + 1)) job) ->
  let (resp, a') := match Update id revision job (app_world a) with
    | (Err _, w) => (LError "conflit" 409, set_world w a)
    | (Ok updated, w) => (answer updated, reconcileTriggers reconcile (set_world w a))
    end in legacy_outcome path st r a resp a'.
Proof.
  intros Hok Hd Hop Hfit Hans. pose proof (Update_ok marshal_foreign path st id revision job (app_world a) Hok Hfit Hd) as Hup.
  unfold legacy_outcome. rewrite Hop. cbn [blocked]. unfold with_job in Hup.
  destruct (Update id revision job (app_world a)) as [[updated|e] w];
    destruct (spec_step (OpUpdate id revision job) st) as [st'|e'].
  - destruct Hup as (-> & Hd' & Hm'). left. rewrite Hans. split; [done|]. split; [done|]. split; [done|].
    cbn. f_equal. exact (memory_list st' (set_world w a) Hm').
  - done.
  - right. by destruct Hup as (_ & Hu & Hup).
  - by destruct Hup as [_ Hup].
Qed.

(** Rewriting the history file leaves the repository's file. *)
Lemma forget_keeps path st w id : path <> historyPath -> (st.1 <> 1)%Z -> disk_holds path st w ->
  disk_holds path st (MkWorld (w_repo w) (removeHistory historyPath owner id (w_fs w)).2 (w_stamp w)).
Proof.
  intros Hne Hn [Hp Hd]. split; [done|]. unfold decode_disk in *. cbn [w_fs].
  destruct (fs_files (w_fs w) !! path) as [f|] eqn:Ef; [|cbn in Hd; by injection Hd as <-].
  assert (fs_files (removeHistory historyPath owner id (w_fs w)).2 !! path = Some f) as ->; [|done].
  unfold removeHistory, loadHistory. rewrite !SE_bind_unfold. unfold attempt at 1.
  destruct (fs_ReadFile_cases historyPath (w_fs w)) as (fs & Hfs & Hread).
  assert (forall c, fs_files (match marshal_history (delete (Itoa id) c) with
     | Ok b => _ ← attempt (AtomicWriteFile historyPath (b +:+ newline) 416 owner); mret tt
     | Err _ => mret tt end fs).2 !! path = Some f) as Hgo.
  { intros c. rewrite <-Hfs in Ef. destruct (marshal_history _) as [b|e]; [|exact Ef]. rewrite SE_bind_unfold. unfold attempt.
    destruct (AtomicWriteFile historyPath (b +:+ newline) 416 owner fs) as [x fs'] eqn:Ea. cbn.
    by eapply AtomicWriteFile_others. }
  destruct Hread as [->|[e ->]]; cbn; apply Hgo.
Qed.

Lemma legacy_delete_outcome path st r id current (a : AppState T) :
  view_ok st -> disk_holds path st (app_world a) -> path <> historyPath -> job_of a id = Some current ->
  legacy_op r a = Some (OpDelete id (Job_Revision current)) ->
  let (resp, a') := legacy_delete reconcile historyPath owner now id a in legacy_outcome path st r a resp a'.
Proof.
  intros Hok Hd Hne Hcur Hop. unfold legacy_delete, legacy_outcome. rewrite Hcur, Hop. cbn [blocked].
  destruct (jobHasActiveRun now id a) as [active a1] eqn:Ea. cbn [fst].
  assert (app_world a1 = app_world a /\ app_triggers a1 = app_triggers a) as [Hw Ht].
  { unfold jobHasActiveRun in Ea. destruct (RunService.List_ _ _ _). by injection Ea as <- <-. }
  destruct active; [unfold jobs_kept; by rewrite Hw, Ht|].
  pose proof (Delete_ok marshal_foreign path st id (Job_Revision current) (app_world a) Hok Hd) as Hde. rewrite Hw.
  pose proof (spec_step_ok (OpDelete id (Job_Revision current)) st) as Hs.
  destruct (Delete id (Job_Revision current) (app_world a)) as [[u|e] w];
    destruct (spec_step (OpDelete id (Job_Revision current)) st) as [st'|e'] eqn:Es.
  - destruct Hde as (_ & Hd' & Hm'). left. split; [done|].
    assert (st'.1 <> 1)%Z as Hn.
    { destruct st as [next jobs]. cbn in Es. destruct (jobs !! id) as [j|] eqn:Ej; [|done].
      destruct (Job_Revision j =? Job_Revision current)%Z; [|done]. injection Es as <-. cbn.
      destruct Hok as [_ Hok]. destruct (Hok id j Ej) as (_ & ? & _). cbn in *. lia. }
    split; [by apply forget_keeps|]. split; [exact Hm'|].
    cbn. rewrite Ht. f_equal. exact (memory_list st' (set_world w a) Hm').
  - done.
  - right. destruct Hde as (_ & Hu & Hde). by cbn.
  - destruct Hde as [_ Hde]. unfold jobs_kept. cbn. by rewrite Ht.
Qed.
(** The requests that change no job. *)
Lemma legacyRun_outcome path st r dry id (a : AppState T) :
  legacy_op r a = None -> disk_holds path st (app_world a) ->
  let (resp, a') := legacyRun now newID r dry id a in legacy_outcome path st r a resp a'.
Proof.
  intros Hop Hd. unfold legacyRun. destruct (negb _); [by apply legacy_none_here|].
  destruct (job_of a id) as [job|]; [|by apply legacy_none_here].
  destruct (Start _ _ _ _ _) as [[run|e] s]; [by apply legacy_none|]. destruct (errors_Is _ _); by apply legacy_none.
Qed.

Lemma legacyKill_outcome path st r id (a : AppState T) :
  legacy_op r a = None -> disk_holds path st (app_world a) ->
  let (resp, a') := legacyKill now handleStop r id a in legacy_outcome path st r a resp a'.
Proof.
  intros Hop Hd. unfold legacyKill. destruct (negb _); [by apply legacy_none_here|].
  destruct (RunService.List_ _ _ _) as [runs s]. destruct (List.find _ runs); [|by apply legacy_none].
  destruct (Stop _ _ _) as [[err stop] s']. by apply legacy_none.
Qed.

Lemma legacy_history_outcome path st r id (a : AppState T) :
  legacy_op r a = None -> disk_holds path st (app_world a) ->
  let (resp, a') := apiJobHistory historyPath id a in legacy_outcome path st r a resp a'.
Proof.
  intros Hop Hd. unfold apiJobHistory, loadHistory. rewrite SE_bind_unfold. unfold attempt.
  destruct (fs_ReadFile_cases historyPath (w_fs (app_world a))) as (fs & Hfs & Hread).
  destruct Hread as [->|[e ->]]; cbn; unfold legacy_outcome; rewrite Hop; split; try done; (split; [|done]);
    (destruct Hd as [Hp' Hd]; split; [done|]); unfold decode_disk in *; cbn; by rewrite Hfs.
Qed.

(** The requests at the path of a job itself. *)
Lemma legacy_job_outcome path st r id (a : AppState T) :
  view_ok st -> disk_holds path st (app_world a) -> path <> historyPath -> (forall op, legacy_op r a = Some op -> op_fits op st) ->
  legacy_op r a = (current ← job_of a id; legacy_sub_op r id [] current) ->
  let (resp, a') := if string_eqb (req_method r) MethodPut then legacy_put reconcile lock r id a
                    else if string_eqb (req_method r) MethodDelete then legacy_delete reconcile historyPath owner now id a
                    else (methode, a) in
  legacy_outcome path st r a resp a'.
Proof.
  intros Hok Hd Hne Hfit Hop. unfold legacy_sub_op in Hop. destruct (string_eqb (req_method r) MethodPut) eqn:Eput.
  { unfold legacy_put. destruct (job_of a id) as [current|]; [|by apply legacy_none_here]. cbn in Hop.
    unfold legacy_job in Hop. destruct (decode_legacy lock r) as [job|resp]; [|by apply legacy_none_here]. cbn in Hop.
    apply (update_outcome path st r id (Job_Revision current) (keep_enabled current job) (fun j => LJob (legacyJobView j)));
      auto. unfold legacy_success. by rewrite Eput. }
  destruct (string_eqb (req_method r) MethodDelete).
  { destruct (job_of a id) as [current|] eqn:Ej; cbn in Hop; [by apply (legacy_delete_outcome path st r id current)|].
    unfold legacy_delete. rewrite Ej. by apply legacy_none_here. }
  apply legacy_none_here; [|done]. rewrite Hop. by destruct (job_of a id).
Qed.

(** Cloning and toggling. *)
Lemma legacyClone_outcome path st r id (a : AppState T) :
  view_ok st -> disk_holds path st (app_world a) -> (forall op, legacy_op r a = Some op -> op_fits op st) ->
  legacy_op r a = (current ← job_of a id; legacy_sub_op r id ["clone"] current) ->
  let (resp, a') := legacyClone reconcile r id a in legacy_outcome path st r a resp a'.
Proof.
  intros Hok Hd Hfit Hop. unfold legacy_sub_op in Hop. unfold legacyClone. destruct (negb (string_eqb (req_method r) MethodPost)) eqn:Em.
  { apply legacy_none_here; [|done]. rewrite Hop. by destruct (job_of a id). }
  destruct (job_of a id) as [job|]; [|by apply legacy_none_here]. apply create_outcome; auto.
Qed.

Lemma legacyToggle_outcome path st r id (a : AppState T) :
  view_ok st -> disk_holds path st (app_world a) -> (forall op, legacy_op r a = Some op -> op_fits op st) ->
  legacy_op r a = (current ← job_of a id; legacy_sub_op r id ["toggle"] current) ->
  let (resp, a') := legacyToggle reconcile r id a in legacy_outcome path st r a resp a'.
Proof.
  intros Hok Hd Hfit Hop. unfold legacy_sub_op in Hop. unfold legacyToggle. destruct (negb (string_eqb (req_method r) MethodPost)) eqn:Em.
  { apply legacy_none_here; [|done]. rewrite Hop. by destruct (job_of a id). }
  destruct (job_of a id) as [job|]; [|by apply legacy_none_here]. cbn in Hop.
  apply (update_outcome path st r id (Job_Revision job) (toggled_job job)
    (fun j => LToggled id (negb (Job_Enabled j)) (Job_Revision j))); auto.
  unfold legacy_success. apply negb_false_iff, string_eqb_true in Em. by rewrite Em.
Qed.

Lemma legacy_by_id_outcome path st r dry (a : AppState T) :
  view_ok st -> disk_holds path st (app_world a) -> path <> historyPath ->
  (forall op, legacy_op r a = Some op -> op_fits op st) -> string_eqb (req_path r) "/api/jobs" = false ->
  let (resp, a') := handleLegacyJobByID reconcile lock historyPath owner now newID handleStop r dry a in
  legacy_outcome path st r a resp a'.
Proof.
  intros Hok Hd Hne Hfit Hp. unfold handleLegacyJobByID.
  assert (legacy_op r a = '(id, parts) ← legacy_route r; current ← job_of a id; legacy_sub_op r id parts current) as Hop
    by (unfold legacy_op; by rewrite Hp).
  unfold legacy_route in Hop.
  destruct (Split slash _) as [|part parts]; [by apply legacy_none_here|].
  destruct (parsePositiveID part) as [id|e]; [|by apply legacy_none_here].
  change (legacy_op r a = (current ← job_of a id; legacy_sub_op r id parts current)) in Hop.
  destruct parts as [|sub [|? ?]];
    [by apply legacy_job_outcome| |apply legacy_none_here; [|done]; rewrite Hop; by destruct (job_of a id)].
  assert (string_eqb sub "clone" = false -> string_eqb sub "toggle" = false -> legacy_op r a = None) as Hnone.
  { intros N1 N2. rewrite Hop. destruct (job_of a id); [|done]. unfold legacy_sub_op. cbn. rewrite N1, N2. by destruct (negb _). }
  destruct (string_eqb sub "run") eqn:E1; [str_eqb; subst; apply legacyRun_outcome; auto|].
  destruct (string_eqb sub "stream") eqn:E2; [str_eqb; subst; apply legacy_none_here; auto|].
  destruct (string_eqb sub "history") eqn:E3.
  { str_eqb; subst. destruct (negb (string_eqb (req_method r) MethodGet)); [apply legacy_none_here|apply legacy_history_outcome]; auto. }
  destruct (string_eqb sub "clone") eqn:E4; [str_eqb; subst; by apply legacyClone_outcome|].
  destruct (string_eqb sub "toggle") eqn:E5; [str_eqb; subst; by apply legacyToggle_outcome|].
  specialize (Hnone eq_refl eq_refl). destruct (string_eqb sub "kill"); [by apply legacyKill_outcome|by apply legacy_none_here].
Qed.

Lemma serve_legacy_outcome path st r dry (a : AppState T) :
  view_ok st -> disk_holds path st (app_world a) -> path <> historyPath ->
  (forall op, legacy_op r a = Some op -> op_fits op st) ->
  let (resp, a') := serve_legacy r dry a in legacy_outcome path st r a resp a'.
Proof.
  intros Hok Hd Hne Hfit. unfold serve_legacy. destruct (string_eqb (req_path r) "/api/jobs") eqn:Hp; [|by apply legacy_by_id_outcome].
  assert (legacy_op r a = if string_eqb (req_method r) MethodPost then job ← legacy_job r; Some (OpCreate job) else None) as Hop
    by (unfold legacy_op; by rewrite Hp).
  unfold handleLegacyJobs. destruct (string_eqb (req_method r) MethodGet) eqn:Eg.
  { apply string_eqb_true in Eg. rewrite Eg in Hop. by apply legacy_none_here. }
  destruct (string_eqb (req_method r) MethodPost); [|by apply legacy_none_here].
  unfold legacy_job in Hop. destruct (decode_legacy lock r) as [job|resp]; [|by apply legacy_none_here]. apply create_outcome; auto.
Qed.
End Routes.

(** ** Properties *)


(** C25: the job routes of the legacy API refine the repository's specification.
    The web form names no revision: a PUT, DELETE, clone or toggle asks for the
    mutation of the job as the server's memory has it.  A request that asks for
    none (GET, run, kill, history, refused bodies) changes neither the file, the
    memory nor the triggers.  A DELETE of a job with an active run is refused.
    Otherwise the specification decides on the file: when it fails (another
    process changed or removed the job) the answer is the route's error (500
    persist for a new job, 409 conflit for the others) and nothing changed; when it
    succeeds file and memory hold the new view, the triggers were reconciled with
    its jobs and the answer shows the job.  Only when something was in the way of
    storing the view (a file operation that can fail, the temporary name taken, a
    view that cannot be encoded) may the answer be that same error instead; then the
    triggers were not reconciled and the file holds the old or the new view. *)
Theorem legacy_api_refines `{!JSONDecoder} `{!JobCodec} `{!HistoryCodec} {T} (reconcile : list Job -> T -> T)
    lock historyPath owner now newID handleStop path st r dry (a : AppState T) :
  (forall s e, marshal_store s = Err e -> foreign e = true) ->
  view_ok st -> disk_holds path st (app_world a) -> path <> historyPath ->
  (forall op, legacy_op lock r a = Some op -> op_fits op st) ->
  let (resp, a') := serve_legacy reconcile lock historyPath owner now newID handleStop r dry a in
  legacy_outcome reconcile lock now path st r a resp a'.
Proof. intros Hm Hok Hd Hne Hfit. by apply serve_legacy_outcome. Qed.

(** ** What the legacy form loses *)

(** A job the form shows and stores again without its arguments: a script
    becomes a shell command that is the script's path. *)
Definition script_job : Job :=
  Job_set_Action (MkAction ActionScript "/usr/local/bin/backup.sh" ["--all"] "" zeroSyncAction)
    (Job_set_Trigger TriggerManual (Job_set_NeedsReview true (normalizeV2Job demo_sync_job))).

Lemma legacy_script_lost :
  validateV2Job script_job = Ok tt /\
  match legacyToV2 false (legacyJobView script_job) with
  | Ok out => Job_Action out = MkAction ActionCommand "" [] "/usr/local/bin/backup.sh" zeroSyncAction /\ Job_NeedsReview out = false
  | Err _ => False
  end.
Proof. by vm_compute. Qed.

(** ** Witnesses *)


Definition demo_legacy_delete : Request := MkRequest MethodDelete "/api/jobs/1" "" "" "" "".
Definition demo_loaded : AppState (list (list Job)) :=
  set_world (MkWorld (set_repo 2 demo_view.2 demo_start).(w_repo) (w_fs demo_start) "") demo_app.

Lemma legacy_api_refines_witness :
  let codec := demo_history_none in
  let served := serve_legacy (fun jobs t => jobs :: t) false "/data/history.json" process_owner 0 (Ok "r1") None
    demo_legacy_delete false demo_loaded in
  served.1 = LDeleted 1 /\
  let (resp, a') := served in
  legacy_outcome (fun jobs t => jobs :: t) false 0 "/data/jobs.json" demo_view demo_legacy_delete demo_loaded resp a'.
Proof.
  intros codec served. split; [vm_compute; reflexivity|].
  apply (legacy_api_refines (fun jobs t => jobs :: t) false "/data/history.json" process_owner 0 (Ok "r1") None
    "/data/jobs.json" demo_view).
  - intros s e. cbn. unfold demo_marshal. case_goal; [done|]. by intros [= <-].
  - exact demo_view_ok.
  - exact demo_start_holds.
  - discriminate.
  - intros op Hop. vm_compute in Hop. injection Hop as <-. exact I.
Defined.
