(* ===== verification/ImportScanner.v ===== *)
(** * Commands found on the host ([import_scanner.go])

    Text files of the host are searched for rsync and rclone commands, which the
    web interface offers as new jobs.  Go ranges over the runes of a line; a byte
    that starts no valid encoding is read as U+FFFD.  The directory walk is the
    host's: an interface gives the visits of [filepath.WalkDir] below a root, in
    its order.  Contexts are not modelled. *)

From S2P Require Import Prelude GoStrings Utf8 Model AtomicFile JobRepository HostCommand ExecutionPlan History HostFiles.
From S2P Require Import Wrapper PersistentScheduler SystemService.

Definition maxImportEntries : Z := 100000.
Definition maxImportFileSize : Z := 512 * 1024.

Record Found := MkFound {
  Found_Engine : string; Found_Verb : string; Found_Source : string; Found_Dest : string; Found_Cron : string;
  Found_File : string; Found_Line : string; Found_Local : bool; Found_Warning : string
}.

(** ** A command line *)

(** [tokenize]'s loop; [quote] is the open quote, [current] the builder. *)
Fixpoint tokenize_loop (rs : list string) (quote : option string) (current : string) : list string :=
  match rs with
  | [] => if string_eqb current "" then [] else [current]
  | r :: rs =>
      match quote with
      | Some q => if string_eqb r q then tokenize_loop rs None current else tokenize_loop rs quote (current +:+ r)
      | None =>
          if string_eqb r (str1 quote_single) || string_eqb r (str1 quote_double) then tokenize_loop rs (Some r) current
          else if string_eqb r " " || string_eqb r (str1 (Ascii.ascii_of_nat 9)) then
            if string_eqb current "" then tokenize_loop rs None current else current :: tokenize_loop rs None ""
          else tokenize_loop rs None (current +:+ r)
      end
  end.
Definition tokenize (s : string) : list string := tokenize_loop (runes s) None "".

Definition command_end (token : string) : bool := existsb (string_eqb token) ["|"; ">"; ">>"; "&&"; ";"].

Fixpoint nonOptionArgs (tokens : list string) : list string :=
  match tokens with
  | [] => []
  | token :: tokens =>
      if HasPrefix token "-" then nonOptionArgs tokens
      else if command_end token then []
      else token :: nonOptionArgs tokens
  end.

Definition looksRemote (path : string) : bool :=
  if Contains path "@" && Contains path ":" then true
  else match Index path ":" with Some (S _) => negb (HasPrefix path "/") | _ => false end.

Definition is_verb (verb : string) : bool := existsb (string_eqb verb) ["sync"; "copy"; "move"; "copyto"; "moveto"].

(** The engine, the verb and the two ends. *)
Definition parseRclone (s : string) : option (string * string * string * string) :=
  let tokens := tokenize s in
  if (length tokens <? 2)%nat then None
  else
    let verb := nth 1 tokens "" in
    if negb (is_verb verb) then None
    else
      let args := nonOptionArgs (drop 2 tokens) in
      if (length args <? 2)%nat then None else Some ("rclone", verb, nth 0 args "", nth 1 args "").

Definition parseRsync (s : string) : option (string * string * string * string) :=
  let tokens := tokenize s in
  if (length tokens <? 2)%nat then None
  else
    let args := nonOptionArgs (drop 1 tokens) in
    if (length args <? 2)%nat then None else Some ("rsync", "", nth 0 args "", nth (length args - 1) args "").

Definition cron_expression (l : string) : string :=
  let fields := Fields l in
  if (6 <=? length fields)%nat && forallb isCronField (take 5 fields) then Join " " (take 5 fields) else "".

(** The text from the first [rclone ], or else from the first [rsync ]. *)
Definition parse_command (l : string) : option (string * string * string * string) :=
  match Index l "rclone " with
  | Some i => parseRclone (drop_str i l)
  | None => match Index l "rsync " with Some i => parseRsync (drop_str i l) | None => None end
  end.

Definition shown_line (l : string) : string := if (200 <? String.length l)%nat then take_str 200 l +:+ ellipsis else l.

Definition parseSyncLine (line file : string) : option Found :=
  let l := TrimSpace line in
  if string_eqb l "" || HasPrefix l "#" then None
  else
    '(engine, verb, source, dest) ← parse_command l;
    let local := negb (looksRemote source) && negb (looksRemote dest) in
    Some (MkFound engine verb source dest (cron_expression l) file (shown_line l) local
      (if local then "" else "remote endpoint detected; review before importing")).

(** ** The walk *)

(** One call of the walk's function: an error, a directory, or a file with its
    path below the root, its size and its content. *)
Inductive Visit :=
  | VisitError
  | VisitDir
  | VisitFile (rel : string) (size : result Z) (content : result string).

Class HostTree (S : Type) := { walk : string -> S -> list Visit }.

Definition nul_text : string := str1 nul.
Definition found_key (item : Found) : string :=
  Found_Engine item +:+ nul_text +:+ Found_Source item +:+ nul_text +:+ Found_Dest item.

(** What is kept between visits: the entries counted, the keys seen, the list. *)
Record ScanState := MkScanState { scan_entries : Z; scan_seen : gset string; scan_found : list Found }.

Definition add_line (logicalPath : string) (st : ScanState) (line : string) : ScanState :=
  match parseSyncLine line logicalPath with
  | None => st
  | Some item =>
      if bool_decide (found_key item ∈ scan_seen st) then st
      else MkScanState (scan_entries st) ({[found_key item]} ∪ scan_seen st) (scan_found st ++ [item])
  end.

Definition logical_of (logicalRoot rel : string) : string :=
  if string_eqb rel "." then logicalRoot else PathJoin [logicalRoot; rel].

(** The file's lines, if it is small enough and can be read. *)
Definition add_file (logicalRoot rel : string) (size : result Z) (content : result string) (st : ScanState) : ScanState :=
  match size, content with
  | Ok size, Ok data =>
      if (size >? maxImportFileSize)%Z then st else fold_left (add_line (logical_of logicalRoot rel)) (Split LFc data) st
  | _, _ => st
  end.

Fixpoint walk_loop (logicalRoot : string) (visits : list Visit) (st : ScanState) : ScanState :=
  match visits with
  | [] => st
  | VisitError :: visits => walk_loop logicalRoot visits st
  | visit :: visits =>
      let st := MkScanState (scan_entries st + 1) (scan_seen st) (scan_found st) in
      if (scan_entries st >? maxImportEntries)%Z then st   (* fs.SkipAll *)
      else match visit with
      | VisitFile rel size content => walk_loop logicalRoot visits (add_file logicalRoot rel size content st)
      | _ => walk_loop logicalRoot visits st
      end
  end.

(** [SB_IMPORT_PATHS], or the default. *)
Definition importPaths (raw : string) : list string :=
  let raw := TrimSpace raw in
  if negb (string_eqb raw "") then
    omap (fun item => let item := TrimSpace item in if IsAbs item then Some (Clean item) else None) (Split ":" raw)
  else ["/etc/crontab"; "/etc/cron.d"; "/var/spool/cron/crontabs"].

Section Scan.
Context {S : Type} `{!HostTree S}.

Fixpoint scan_roots (paths : list string) (s : S) (st : ScanState) : ScanState :=
  match paths with
  | [] => st
  | logicalRoot :: paths =>
      if (scan_entries st >=? maxImportEntries)%Z then st
      else match hostFilesystemPath logicalRoot with
      | Err _ => scan_roots paths s st
      | Ok root => scan_roots paths s (walk_loop logicalRoot (walk root s) st)
      end
  end.

Definition ScanImports (raw : string) (s : S) : list Found * list string :=
  let paths := importPaths raw in
  (scan_found (scan_roots paths s (MkScanState 0 ∅ [])), paths).

(** [handleImportScan] *)
Inductive ImportResponse := ImportRefused | ImportBody (found : list Found) (paths : list string).
Definition handleImportScan (method raw : string) (s : S) : ImportResponse :=
  if negb (string_eqb method "GET") then ImportRefused
  else let (found, paths) := ScanImports raw s in ImportBody found paths.
End Scan.
