(* ===== verification/ImportProofs.v ===== *)
(** * Commands found on the host: proofs

    The tokenizer undoes the quoting of the wrappers, and the list of commands is
    complete and without repetition. *)

From S2P Require Import Prelude GoStrings Utf8 Model AtomicFile JobRepository HostCommand ExecutionPlan History HostFiles.
From S2P Require Import Wrapper PersistentScheduler SystemService SystemProofs ImportScanner.

(** ** Reading a quoted command line *)

Lemma ReplaceByte_app c b s t : ReplaceByte c b (s +:+ t) = ReplaceByte c b s +:+ ReplaceByte c b t.
Proof. induction s as [|x s IH]; [done|]. rewrite app_cons. cbn [ReplaceByte]. by rewrite IH, app_assoc_str. Qed.

Lemma ReplaceByte_none c b s : string_forallb (fun x => negb (ascii_eqb x c)) s = true -> ReplaceByte c b s = s.
Proof.
  induction s as [|x s IH]; [done|]. cbn [string_forallb ReplaceByte]. intros [Hx Hs]%andb_true_iff.
  apply negb_true_iff in Hx. by rewrite Hx, (IH Hs).
Qed.

Lemma str_app_nonempty s t : s <> "" -> s +:+ t <> "".
Proof. intros Hs [? _]%app_nil_str. done. Qed.

Definition single : string := str1 quote_single.
Definition double : string := str1 quote_double.

(** Inside the quotes of [ShellQuote] the text itself is collected. *)
Lemma tokenize_quoted w t : utf8 w -> forall current,
  tokenize_loop (runes (ReplaceByte quote_single (sh "'`'`'") w +:+ t)) (Some single) current =
  tokenize_loop (runes t) (Some single) (current +:+ w).
Proof.
  induction 1 as [|p s Hne Hp Hs IH]; intros current; [by rewrite app_empty_r|].
  rewrite ReplaceByte_app, app_assoc_str. destruct (decide (p = single)) as [->|Hq].
  - change (ReplaceByte quote_single (sh "'`'`'") single +:+ ?x) with
      (String quote_single (String quote_double (String quote_single (String quote_double (String quote_single x))))).
    rewrite !runes_ascii by done. cbn [tokenize_loop]. rewrite <-(app_assoc_str current single s). apply IH.
  - rewrite ReplaceByte_none by (by apply rune_high). rewrite runes_rune by done. cbn [tokenize_loop].
    rewrite (proj2 (string_eqb_false _ _) Hq), <-(app_assoc_str current p s). apply IH.
Qed.

Lemma tokenize_ShellQuote w t current : utf8 w ->
  tokenize_loop (runes (ShellQuote w +:+ t)) None current = tokenize_loop (runes t) None (current +:+ w).
Proof.
  intros Hw. unfold ShellQuote. rewrite !app_assoc_str. change ("'" +:+ ?x) with (String quote_single x).
  rewrite runes_ascii by done. cbn [tokenize_loop]. change (str1 quote_single) with single.
  change (string_eqb single single || string_eqb single (str1 quote_double)) with true. cbn iota.
  rewrite tokenize_quoted by done. change ("'" +:+ t) with (String quote_single t). rewrite runes_ascii by done.
  cbn [tokenize_loop]. change (str1 quote_single) with single. by change (string_eqb single single) with true.
Qed.

Lemma tokenize_blank rest current :
  tokenize_loop (runes (" " +:+ rest)) None current =
  if string_eqb current "" then tokenize_loop (runes rest) None "" else current :: tokenize_loop (runes rest) None "".
Proof.
  change (" " +:+ rest) with (String " " rest). rewrite runes_ascii by done. cbn [tokenize_loop].
  change (string_eqb (str1 " ") (str1 quote_single) || string_eqb (str1 " ") (str1 quote_double)) with false. cbn iota.
  change (string_eqb (str1 " ") " ") with true. cbn [orb]. destruct (string_eqb current "") eqn:E; [|done].
  by apply string_eqb_true in E as ->.
Qed.

Lemma tokenize_words words : Forall (fun w => w <> "" /\ utf8 w) words ->
  tokenize_loop (runes (quote_words words)) None "" = words.
Proof.
  unfold quote_words. induction 1 as [|w words [Hne Hw] Hall IH]; [done|]. cbn [map].
  destruct words as [|w2 words].
  - cbn [map Join]. rewrite <-(app_empty_r (ShellQuote w)), tokenize_ShellQuote by done. rewrite app_empty_l. cbn.
    by rewrite (proj2 (string_eqb_false _ _) Hne).
  - rewrite Join_cons by done. rewrite tokenize_ShellQuote by done. rewrite app_empty_l, tokenize_blank.
    rewrite (proj2 (string_eqb_false _ _) Hne). f_equal. exact IH.
Qed.

(** ASCII text without quotes or white space, read as it is. *)
Definition bare_char (c : ascii) : bool :=
  byte_in 0 127 c && negb (ascii_eqb c quote_single) && negb (ascii_eqb c quote_double) && negb (ascii_eqb c " ") &&
  negb (ascii_eqb c (Ascii.ascii_of_nat 9)).

Lemma str1_eqb a b : string_eqb (str1 a) (str1 b) = ascii_eqb a b.
Proof.
  destruct (ascii_eqb a b) eqn:E; [apply ascii_eqb_true in E as ->; apply string_eqb_refl|].
  apply ascii_eqb_false in E. apply string_eqb_false. by intros [= ?].
Qed.

Lemma tokenize_bare w t : string_forallb bare_char w = true -> forall current,
  tokenize_loop (runes (w +:+ t)) None current = tokenize_loop (runes t) None (current +:+ w).
Proof.
  induction w as [|c w IH]; intros Hw current; [by rewrite app_empty_l, app_empty_r|].
  cbn [string_forallb] in Hw. apply andb_true_iff in Hw as [Hc Hw]. unfold bare_char in Hc.
  apply andb_true_iff in Hc as [Hc Ht]. apply andb_true_iff in Hc as [Hc Hb]. apply andb_true_iff in Hc as [Hc Hd].
  apply andb_true_iff in Hc as [Hc Hq]. apply negb_true_iff in Ht, Hb, Hd, Hq.
  rewrite app_cons, runes_ascii by done. cbn [tokenize_loop]. change " "%string with (str1 " "%char). rewrite !str1_eqb, Ht, Hb, Hd, Hq. cbn [orb].
  rewrite (IH Hw). f_equal. rewrite app_assoc_str. done.
Qed.

(** ** The command of a line *)

Lemma nonOption_skip opts l : Forall (fun o => HasPrefix o "-" = true) opts -> nonOptionArgs (opts ++ l) = nonOptionArgs l.
Proof. induction 1 as [|o opts Ho _ IH]; [done|]. cbn. by rewrite Ho. Qed.

(** A path the command line can name. *)
Definition endpoint (x : string) : Prop := utf8 x /\ x <> "" /\ HasPrefix x "-" = false /\ command_end x = false.

Lemma nonOption_ends opts src dst : Forall (fun o => HasPrefix o "-" = true) opts -> endpoint src -> endpoint dst ->
  nonOptionArgs (opts ++ [src; dst]) = [src; dst].
Proof. intros Ho (_ & _ & H1 & H2) (_ & _ & H3 & H4). rewrite nonOption_skip by done. cbn [nonOptionArgs]. by rewrite H1, H2, H3, H4. Qed.

Lemma tokenize_command w words t : string_forallb bare_char w = true -> w <> "" -> tokenize t = words ->
  tokenize (w +:+ " " +:+ t) = w :: words.
Proof.
  intros Hw Hne Ht. unfold tokenize in *. rewrite tokenize_bare by done. rewrite app_empty_l, tokenize_blank.
  rewrite (proj2 (string_eqb_false _ _) Hne). by f_equal.
Qed.

Lemma verb_bare verb : is_verb verb = true -> string_forallb bare_char verb = true /\ verb <> "".
Proof.
  unfold is_verb. intros (v & Hin & ->%string_eqb_true)%existsb_exists.
  repeat (destruct Hin as [<-|Hin]; [by split; [vm_compute|]|]). done.
Qed.

(** [rclone verb args] or [rsync args], each argument quoted. *)
Definition command_text (rclone : bool) (verb : string) (args : list string) : string :=
  (if rclone then "rclone " +:+ verb else "rsync") +:+ " " +:+ quote_words args.

Lemma parse_rclone_text verb opts src dst : is_verb verb = true -> Forall (fun o => HasPrefix o "-" = true /\ utf8 o) opts ->
  endpoint src -> endpoint dst ->
  parseRclone (command_text true verb (opts ++ [src; dst])) = Some ("rclone", verb, src, dst) /\
  parseRsync (command_text false "" (opts ++ [src; dst])) = Some ("rsync", "", src, dst).
Proof.
  intros Hv Ho Hs Hd. destruct (verb_bare verb Hv) as [Hb Hne].
  assert (tokenize (quote_words (opts ++ [src; dst])) = opts ++ [src; dst]) as Hq.
  { apply tokenize_words, Forall_app. split; [|by repeat (constructor; [split; [apply Hs || apply Hd|apply Hs || apply Hd]|])].
    eapply Forall_impl; [exact Ho|]. intros o [Hp Hu]. split; [|done]. by intros ->. }
  assert (nonOptionArgs (opts ++ [src; dst]) = [src; dst]) as Ha
    by (apply nonOption_ends; [eapply Forall_impl; [exact Ho|]; by intros ? []|done|done]).
  unfold command_text. split.
  - unfold parseRclone. change ("rclone " +:+ verb) with ("rclone" +:+ " " +:+ verb). rewrite !app_assoc_str.
    rewrite (tokenize_command "rclone" (verb :: opts ++ [src; dst])); [|done|done|by apply tokenize_command].
    change (drop 2 ("rclone" :: verb :: opts ++ [src; dst])) with (opts ++ [src; dst]). rewrite Ha.
    change (nth 1 ("rclone" :: verb :: opts ++ [src; dst]) "") with verb. by rewrite Hv.
  - unfold parseRsync. rewrite (tokenize_command "rsync" (opts ++ [src; dst])) by done.
    change (drop 1 ("rsync" :: opts ++ [src; dst])) with (opts ++ [src; dst]). rewrite Ha. cbn [length].
    rewrite length_app. cbn [length]. by rewrite Nat.add_comm.
Qed.

Lemma fields_prefix words rest : words <> [] -> Forall word words -> forall fuel,
  (String.length (Join " " words) + 1 + String.length rest < fuel)%nat ->
  exists fuel', (String.length rest < fuel')%nat /\
    fields_fuel fuel (Join " " words +:+ " " +:+ rest) "" = words ++ fields_fuel fuel' rest "".
Proof.
  intros Hne Hall. induction Hall as [|w words [Hw1 Hw2] Hall IH]; intros fuel Hf; [done|].
  destruct words as [|w2 words].
  - cbn [Join] in *. exists (fuel - S (String.length w))%nat. split; [lia|].
    replace fuel with (S (String.length w + (fuel - S (String.length w)))) at 1 by lia. by rewrite fields_next.
  - rewrite Join_cons in * by done. rewrite !length_app_str in Hf. cbn [String.length] in Hf. rewrite !app_assoc_str.
    destruct (IH ltac:(done) (fuel - S (String.length w))%nat ltac:(lia)) as (fuel' & Hf' & E). exists fuel'. split; [done|].
    replace fuel with (S (String.length w + (fuel - S (String.length w)))) at 1 by lia. rewrite fields_next by done.
    by rewrite E.
Qed.

Lemma Fields_prefix words rest : words <> [] -> Forall word words -> exists more, Fields (Join " " words +:+ " " +:+ rest) = words ++ more.
Proof.
  intros Hne Hall. unfold Fields. destruct (fields_prefix words rest Hne Hall (S (String.length (Join " " words +:+ " " +:+ rest)))) as (f & _ & ->).
  - rewrite !length_app_str. cbn. lia.
  - by eexists.
Qed.


(** ** The scan *)

Definition counted (visits : list Visit) : list Visit :=
  List.filter (fun v => match v with VisitError => false | _ => true end) visits.

(** What the scan knows: the keys seen are those of the list, which repeats none,
    and every entry satisfies [P]. *)
Record scan_ok (P : Found -> Prop) (st : ScanState) : Prop := {
  ok_seen : forall k, k ∈ scan_seen st <-> exists f, f ∈ scan_found st /\ found_key f = k;
  ok_nodup : NoDup (map found_key (scan_found st));
  ok_origin : forall f, f ∈ scan_found st -> P f
}.

Section Origin.
Context (P : Found -> Prop).

Lemma add_line_ok file st line : scan_ok P st -> (forall f, parseSyncLine line file = Some f -> P f) ->
  scan_ok P (add_line file st line) /\ scan_seen st ⊆ scan_seen (add_line file st line) /\
  scan_entries (add_line file st line) = scan_entries st /\
  (forall f, parseSyncLine line file = Some f -> found_key f ∈ scan_seen (add_line file st line)).
Proof.
  intros [Hs Hn Ho] HP. unfold add_line. destruct (parseSyncLine line file) as [f|]; [|split_and!; done].
  case_bool_decide as Hin; cbn [scan_seen scan_entries].
  { split_and!; [done|done|done|]. by intros ? [= <-]. }
  split_and!; [|set_solver|done|intros ? [= <-]; set_solver]. split; cbn [scan_seen scan_found].
  - intros k. rewrite elem_of_union, elem_of_singleton, Hs. setoid_rewrite elem_of_app. setoid_rewrite list_elem_of_singleton. naive_solver.
  - rewrite map_app. apply NoDup_app. split_and!; [done| |apply NoDup_singleton].
    intros k Hk ->%list_elem_of_singleton. apply Hin, Hs. apply list_elem_of_fmap in Hk as (g & Hg & ?). by exists g.
  - intros g [Hg|Hg%list_elem_of_singleton]%elem_of_app; [by apply Ho|subst g; by apply HP].
Qed.

Lemma add_lines_ok file lines : (forall line f, line ∈ lines -> parseSyncLine line file = Some f -> P f) ->
  forall st, scan_ok P st -> let st' := fold_left (add_line file) lines st in
  scan_ok P st' /\ scan_seen st ⊆ scan_seen st' /\ scan_entries st' = scan_entries st /\
  (forall line f, line ∈ lines -> parseSyncLine line file = Some f -> found_key f ∈ scan_seen st').
Proof.
  induction lines as [|line lines IH]; intros HP st Hst; cbn [fold_left].
  { split_and!; try done. by intros ? ? ?%elem_of_nil. }
  destruct (add_line_ok file st line Hst) as (H1 & H2 & H3 & H4); [intros f; apply HP; left|].
  destruct (IH ltac:(intros l f Hl; apply HP; by right) _ H1) as (H5 & H6 & H7 & H8).
  split_and!; [done|set_solver|by rewrite H7|]. intros l f [->|Hl]%elem_of_cons Hf; [by apply H6, H4|by eapply H8].
Qed.

(** A visit of the walk offers an entry. *)
Definition offers (logicalRoot : string) (visit : Visit) (f : Found) : Prop :=
  exists rel size data line, visit = VisitFile rel (Ok size) (Ok data) /\ (size <= maxImportFileSize)%Z /\
    line ∈ Split LFc data /\ parseSyncLine line (logical_of logicalRoot rel) = Some f.

Lemma add_file_ok root rel size content st : scan_ok P st ->
  (forall f, offers root (VisitFile rel size content) f -> P f) ->
  let st' := add_file root rel size content st in
  scan_ok P st' /\ scan_seen st ⊆ scan_seen st' /\ scan_entries st' = scan_entries st /\
  (forall f, offers root (VisitFile rel size content) f -> found_key f ∈ scan_seen st').
Proof.
  intros Hst HP. unfold add_file.
  assert ((forall f, ~ offers root (VisitFile rel size content) f) -> scan_ok P st /\ scan_seen st ⊆ scan_seen st /\
    scan_entries st = scan_entries st /\ (forall f, offers root (VisitFile rel size content) f -> found_key f ∈ scan_seen st)) as Hno
    by (intros Hno; split_and!; [done|done|done|]; intros f Hf; by apply Hno in Hf).
  destruct size as [size|e]; [|apply Hno; by intros f (? & ? & ? & ? & ? & ?)].
  destruct content as [data|e]; [|apply Hno; by intros f (? & ? & ? & ? & ? & ?)].
  destruct (size >? maxImportFileSize)%Z eqn:E; [apply Hno; intros f (? & ? & ? & ? & [= <- <- <-] & ? & ?); lia|].
  destruct (add_lines_ok (logical_of root rel) (Split LFc data)) with (st := st) as (H1 & H2 & H3 & H4); [|done|].
  { intros line f Hl Hf. apply HP. exists rel, size, data, line. split_and!; [done|lia|done|done]. }
  split_and!; [done|done|done|]. intros f (? & ? & ? & line & [= <- <- <-] & _ & Hl & Hf). by eapply H4.
Qed.

Lemma walk_ok root visits : (forall v f, v ∈ visits -> offers root v f -> P f) ->
  forall st, scan_ok P st -> (0 <= scan_entries st)%Z -> let st' := walk_loop root visits st in
  scan_ok P st' /\ scan_seen st ⊆ scan_seen st' /\ (scan_entries st <= scan_entries st')%Z /\
  ((scan_entries st + Z.of_nat (length (counted visits)) <= maxImportEntries)%Z ->
   (scan_entries st' = scan_entries st + Z.of_nat (length (counted visits)))%Z /\
   forall v f, v ∈ visits -> offers root v f -> found_key f ∈ scan_seen st').
Proof.
  induction visits as [|v visits IH]; intros HP st Hst H0; cbn [walk_loop].
  { split_and!; [done|done|lia|]. intros _. cbn. split; [lia|]. by intros ? ? ?%elem_of_nil. }
  assert (forall v' f, v' ∈ visits -> offers root v' f -> P f) as HP' by (intros v' f Hv; apply HP; by right).
  destruct v as [| |rel size content].
  - destruct (IH HP' st Hst H0) as (H1 & H2 & H3 & H4). split_and!; [done..|]. intros Hb. destruct (H4 Hb) as [H5 H6].
    split; [done|]. intros v f [->|Hv]%elem_of_cons Hf; [by destruct Hf as (? & ? & ? & ? & ? & ?)|by eapply H6].
  - cbn [scan_entries]. assert (scan_ok P (MkScanState (scan_entries st + 1) (scan_seen st) (scan_found st))) as Hst1 by (by destruct Hst).
    case_goal.
    { split_and!; [done|done|cbn; lia|]. change (counted (VisitDir :: visits)) with (VisitDir :: counted visits). cbn. lia. }
    destruct (IH HP' _ Hst1 ltac:(cbn; lia)) as (H1 & H2 & H3 & H4). cbn [scan_entries scan_seen] in *.
    split_and!; [done|done|lia|]. change (counted (VisitDir :: visits)) with (VisitDir :: counted visits). cbn [length].
    intros Hb. destruct (H4 ltac:(lia)) as [H5 H6]. split; [lia|].
    intros v f [->|Hv]%elem_of_cons Hf; [by destruct Hf as (? & ? & ? & ? & ? & ?)|by eapply H6].
  - cbn [scan_entries]. assert (scan_ok P (MkScanState (scan_entries st + 1) (scan_seen st) (scan_found st))) as Hst1 by (by destruct Hst).
    case_goal.
    { split_and!; [done|done|cbn; lia|]. change (counted (VisitFile rel size content :: visits)) with (VisitFile rel size content :: counted visits). cbn. lia. }
    destruct (add_file_ok root rel size content _ Hst1) as (G1 & G2 & G3 & G4); [intros f; apply HP; left|].
    destruct (IH HP' _ G1 ltac:(rewrite G3; cbn; lia)) as (H1 & H2 & H3 & H4). rewrite G3 in *. cbn [scan_entries scan_seen] in *.
    split_and!; [done|set_solver|lia|]. change (counted (VisitFile rel size content :: visits)) with (VisitFile rel size content :: counted visits). cbn [length].
    intros Hb. destruct (H4 ltac:(lia)) as [H5 H6]. split; [lia|].
    intros v f [->|Hv]%elem_of_cons Hf; [by apply H2, G4|by eapply H6].
Qed.
End Origin.

Section Roots.
Context {S : Type} `{!HostTree S} (s : S).

(** An entry some line of a visited file offers. *)
Definition offered (paths : list string) (f : Found) : Prop :=
  exists logicalRoot root visit, logicalRoot ∈ paths /\ hostFilesystemPath logicalRoot = Ok root /\
    visit ∈ walk root s /\ offers logicalRoot visit f.

(** The number of files and directories the walks meet. *)
Fixpoint met (paths : list string) : Z :=
  match paths with
  | [] => 0
  | p :: paths =>
      (match hostFilesystemPath p with Ok root => Z.of_nat (length (counted (walk root s))) | Err _ => 0 end + met paths)%Z
  end.

Lemma met_nonneg paths : (0 <= met paths)%Z.
Proof. induction paths as [|p paths IH]; cbn; [lia|]. destruct (hostFilesystemPath p); lia. Qed.

Lemma offered_met paths f : offered paths f -> (1 <= met paths)%Z.
Proof.
  intros (p & root & v & Hp & Hr & Hv & rel & size & data & line & -> & _).
  induction paths as [|q paths IH]; [by apply elem_of_nil in Hp|]. cbn. pose proof (met_nonneg paths).
  apply elem_of_cons in Hp as [<-|Hp]; [|destruct (hostFilesystemPath q); specialize (IH Hp); lia].
  rewrite Hr. assert (VisitFile rel (Ok size) (Ok data) ∈ counted (walk root s)) as Hin.
  { apply list_elem_of_In, filter_In. split; [by apply list_elem_of_In|done]. }
  destruct (counted (walk root s)); [by apply elem_of_nil in Hin|]. cbn. lia.
Qed.

Lemma roots_ok P paths : (forall f, offered paths f -> P f) ->
  forall st, scan_ok P st -> (0 <= scan_entries st)%Z -> let st' := scan_roots paths s st in
  scan_ok P st' /\ scan_seen st ⊆ scan_seen st' /\
  ((scan_entries st + met paths <= maxImportEntries)%Z -> forall f, offered paths f -> found_key f ∈ scan_seen st').
Proof.
  induction paths as [|p paths IH]; intros HP st Hst H0; cbn [scan_roots].
  { split_and!; [done|done|]. intros _ f (? & ? & ? & ?%elem_of_nil & _). done. }
  assert (forall f, offered paths f -> P f) as HP'
    by (intros f (q & root & v & Hq & Hf); apply HP; exists q, root, v; split; [by right|done]).
  pose proof (met_nonneg paths). case_goal.
  { split_and!; [done|done|]. intros Hb f Hf%offered_met. lia. }
  destruct (hostFilesystemPath p) as [root|e] eqn:Er.
  - destruct (walk_ok P p (walk root s)) with (st := st) as (H1 & H2 & H3 & H4); [|done|done|].
    { intros v f Hv Hf. apply HP. exists p, root, v. split; [by left|done]. }
    destruct (IH HP' _ H1 ltac:(lia)) as (H5 & H6 & H7). split_and!; [done|set_solver|].
    cbn [met]. rewrite Er. intros Hb f (q & root' & v & Hq & Hr & Hv & Hf). destruct (H4 ltac:(lia)) as [H8 H9].
    apply elem_of_cons in Hq as [->|Hq].
    + rewrite Er in Hr. injection Hr as <-. by apply H6, (H9 v).
    + apply (H7 ltac:(lia)). by exists q, root', v.
  - destruct (IH HP' _ Hst H0) as (H5 & H6 & H7). split_and!; [done|done|]. cbn [met]. rewrite Er.
    intros Hb f (q & root' & v & Hq & Hr & Hv & Hf). apply elem_of_cons in Hq as [->|Hq]; [congruence|].
    apply (H7 ltac:(lia)). by exists q, root', v.
Qed.
End Roots.

(** ** Properties *)

(** The import scan.  Whatever the walks of the roots meet, every entry of the
    list is what some line of a readable file of at most 512 KiB below a root
    says, with that file's name, and no two entries have the same engine, source
    and destination; when the walks meet no more than 100000 files and
    directories, every such line is represented by an entry with its engine,
    source and destination. *)
Theorem scan_imports_spec {S} `{!HostTree S} raw (s : S) :
  let (found, paths) := ScanImports raw s in
  paths = importPaths raw /\ NoDup (map found_key found) /\ (forall f, f ∈ found -> offered s paths f) /\
  ((met s paths <= maxImportEntries)%Z ->
   forall f, offered s paths f -> exists g, g ∈ found /\ found_key g = found_key f).
Proof.
  unfold ScanImports. destruct (roots_ok s (offered s (importPaths raw)) (importPaths raw) ltac:(done) (MkScanState 0 ∅ []))
    as (H1 & _ & H3); [|done|].
  { split; [|constructor|by intros ? ?%elem_of_nil]. intros k. split; [set_solver|]. by intros (? & ?%elem_of_nil & _). }
  destruct H1 as [Hs Hn Ho]. split_and!; [done..|]. intros Hb f Hf. apply Hs, H3; [exact Hb|done].
Qed.

Lemma Join_head sep c f fields more : exists r, Join sep ((String c f :: fields) ++ more) = String c r.
Proof. cbn [app]. destruct (fields ++ more) as [|x l]; [by eexists|]. rewrite Join_cons by done. by eexists. Qed.

(** C40: a quoted command is read as it was written.  A line of five cron fields,
    any further words (a user), [rsync] or [rclone] with a verb, options, source
    and destination, each quoted by [ShellQuote] (whatever quotes and blanks they
    hold), becomes the job with that engine, verb, source, destination and
    schedule, and is local exactly when neither end looks remote; the command's
    name must not occur in the words before it. *)
Theorem import_reads_command (rclone : bool) verb fields more opts src dst line file :
  length fields = 5%nat -> forallb isCronField fields = true -> Forall word more -> is_verb verb = true ->
  Forall (fun o => HasPrefix o "-" = true /\ utf8 o) opts -> endpoint src -> endpoint dst ->
  let before := Join " " (fields ++ more) +:+ " " in
  let l := before +:+ command_text rclone (if rclone then verb else "") (opts ++ [src; dst]) in
  Index l "rclone " = (if rclone then Some (String.length before) else None) ->
  Index l "rsync " = (if rclone then Index l "rsync " else Some (String.length before)) ->
  TrimSpace line = l ->
  let local := negb (looksRemote src) && negb (looksRemote dst) in
  parseSyncLine line file =
    Some (MkFound (if rclone then "rclone" else "rsync") (if rclone then verb else "") src dst (Join " " fields) file
      (shown_line l) local (if local then "" else "remote endpoint detected; review before importing")).
Proof.
  intros Hlen Hf Hm Hv Ho Hs Hd before l Hrc Hrs Ht local.
  destruct (parse_rclone_text verb opts src dst Hv Ho Hs Hd) as [Hp1 Hp2].
  assert (fields <> []) as Hne by by destruct fields.
  assert (Forall word fields) as Hfw.
  { apply Forall_forall. intros f Hin. apply cron_word. rewrite forallb_forall in Hf. by apply Hf, list_elem_of_In. }
  assert (exists c r, l = String c r /\ ascii_eqb "#" c = false) as (c & r & El & Hc).
  { subst l before. destruct fields as [|f fields]; [done|]. cbn [forallb] in Hf. apply andb_true_iff in Hf as [Hf _].
    destruct (cron_word f Hf) as [Hf1 _]. unfold isCronField in Hf. apply andb_true_iff in Hf as [_ Hf2].
    destruct f as [|c f]; [done|]. cbn [string_forallb] in Hf2. apply andb_true_iff in Hf2 as [Hc _].
    destruct (Join_head " " c f fields more) as [r ->]. exists c. eexists. split; [reflexivity|].
    apply ascii_eqb_false. by intros <-. }
  assert (parse_command l = Some (if rclone then "rclone" else "rsync", if rclone then verb else "", src, dst)) as Hcmd.
  { unfold parse_command. rewrite Hrc. destruct rclone; [|rewrite Hrs]; subst l; rewrite drop_str_app; done. }
  assert (cron_expression l = Join " " fields) as Hcron.
  { unfold cron_expression. subst l before. rewrite app_assoc_str. unfold command_text.
    assert (exists c rest, (if rclone then "rclone " +:+ (if rclone then verb else "") else "rsync") +:+ " " +:+
      quote_words (opts ++ [src; dst]) = c +:+ " " +:+ rest /\ word c) as (w & rest & -> & Hw).
    { destruct rclone; [exists "rclone", (verb +:+ " " +:+ quote_words (opts ++ [src; dst]))|exists "rsync", (quote_words (opts ++ [src; dst]))];
        (split; [reflexivity|by split]). }
    replace (Join " " (fields ++ more) +:+ " " +:+ w +:+ " " +:+ rest) with (Join " " (fields ++ more ++ [w]) +:+ " " +:+ rest).
    2:{ rewrite (app_assoc fields more [w]), Join_snoc by (by destruct fields). by rewrite !app_assoc_str. }
    destruct (Fields_prefix (fields ++ more ++ [w]) rest) as [tail ->]; [by destruct fields| |].
    { apply Forall_app. split; [done|]. apply Forall_app. split; [done|by apply Forall_singleton]. }
    rewrite <-!app_assoc. rewrite (proj2 (Nat.leb_le 6 _)) by (rewrite !length_app; cbn [length]; lia).
    replace 5%nat with (length fields) by done. by rewrite take_app_length, Hf. }
  assert (string_eqb l "" = false /\ HasPrefix l "#" = false) as [E1 E2].
  { rewrite El. split; [by apply string_eqb_false|]. cbn [HasPrefix]. by rewrite Hc. }
  unfold parseSyncLine. by rewrite Ht, E1, E2, Hcmd, <-Hcron.
Qed.

(** The value of an option that is a word of its own is taken for the source, and
    words of letters, digits, hyphens and slashes for the fields of a schedule. *)
Lemma script_line_misread :
  parseSyncLine "rsync -a --exclude cache /srv/data /mnt/copy" "/root/backup.sh" =
    Some (MkFound "rsync" "" "cache" "/mnt/copy" "rsync -a --exclude cache /srv/data" "/root/backup.sh" "rsync -a --exclude cache /srv/data /mnt/copy" true "").
Proof. vm_compute. reflexivity. Qed.

(** ** Witness *)

Lemma import_reads_command_witness :
  parseSyncLine ("30 2 * * mon root rclone sync " +:+ quote_words ["--dry-run"; "/srv/it's data"; "nas:copy"]) "/etc/cron.d/nas" =
    Some (MkFound "rclone" "sync" "/srv/it's data" "nas:copy" "30 2 * * mon" "/etc/cron.d/nas"
      ("30 2 * * mon root rclone sync " +:+ quote_words ["--dry-run"; "/srv/it's data"; "nas:copy"]) false
      "remote endpoint detected; review before importing").
Proof.
  assert (forall s, string_forallb (byte_in 0 127) s = true -> utf8 s) as Hu.
  { induction s as [|c s IH]; intros H; [constructor|]. cbn [string_forallb] in H. apply andb_true_iff in H as [Hc H].
    apply (utf8_rune (str1 c) s); [discriminate| |exact (IH H)]. cbn. rewrite Hc. reflexivity. }
  refine (import_reads_command true "sync" ["30"; "2"; "*"; "*"; "mon"] ["root"] ["--dry-run"] "/srv/it's data" "nas:copy"
    _ "/etc/cron.d/nas" _ _ _ _ _ _ _ _ _ _).
  - reflexivity.
  - vm_compute. reflexivity.
  - apply Forall_cons. split; [split; [discriminate|vm_compute; reflexivity]|apply Forall_nil; exact I].
  - vm_compute. reflexivity.
  - apply Forall_cons. split; [split; [vm_compute; reflexivity|apply Hu; vm_compute; reflexivity]|apply Forall_nil; exact I].
  - split; [apply Hu; vm_compute; reflexivity|]. split; [discriminate|]. split; vm_compute; reflexivity.
  - split; [apply Hu; vm_compute; reflexivity|]. split; [discriminate|]. split; vm_compute; reflexivity.
  - vm_compute. reflexivity.
  - reflexivity.
  - vm_compute. reflexivity.
Defined.
