(* ===== verification/Secrets.v ===== *)
(** * Secrets at rest ([secrets.go])

    The key, and the text an encrypted value is stored as.  AES-GCM is an
    interface with the law that opening gives back what was sealed; base64 is
    written out. *)

From S2P Require Import Prelude GoStrings Model LogBuffer AtomicFile JobRepository HostCommand ExecutionPlan HostFiles Auth.

(** ** Base64 ([base64.StdEncoding]) *)

Definition byte_of (n : Z) : ascii := Ascii.ascii_of_nat (Z.to_nat n).

Definition b64_char (i : Z) : ascii :=
  (if i <? 26 then byte_of (65 + i) else if i <? 52 then byte_of (71 + i) else if i <? 62 then byte_of (i - 4)
   else if i =? 62 then "+"%char else "/"%char)%Z.
Definition b64_index (c : ascii) : option Z :=
  let n := byte_val c in
  if is_upper c then Some (n - 65)%Z else if is_lower c then Some (n - 71)%Z else if is_digit c then Some (n + 4)%Z
  else if ascii_eqb c "+" then Some 62%Z else if ascii_eqb c "/" then Some 63%Z else None.

(** The character of the six bits of [v] from bit [k] on. *)
Definition sextet (v : Z) (k : Z) : ascii := b64_char (Z.land (Z.shiftr v k) 63).
Definition octet (v : Z) (k : Z) : ascii := byte_of (Z.land (Z.shiftr v k) 255).
Definition pad : ascii := "="%char.

Fixpoint b64_encode (s : string) : string :=
  match s with
  | EmptyString => EmptyString
  | String a EmptyString =>
      let v := (byte_val a * 65536)%Z in String (sextet v 18) (String (sextet v 12) (String pad (str1 pad)))
  | String a (String b EmptyString) =>
      let v := (byte_val a * 65536 + byte_val b * 256)%Z in
      String (sextet v 18) (String (sextet v 12) (String (sextet v 6) (str1 pad)))
  | String a (String b (String c r)) =>
      let v := (byte_val a * 65536 + byte_val b * 256 + byte_val c)%Z in
      String (sextet v 18) (String (sextet v 12) (String (sextet v 6) (String (sextet v 0) (b64_encode r))))
  end.

(** The line breaks the decoder skips. *)
Fixpoint without_breaks (s : string) : string :=
  match s with
  | EmptyString => EmptyString
  | String c r => if byte_is 10 c || byte_is 13 c then without_breaks r else String c (without_breaks r)
  end.

Fixpoint b64_quads (s : string) : option string :=
  match s with
  | EmptyString => Some EmptyString
  | String a (String b (String c (String d r))) =>
      i ← b64_index a; j ← b64_index b;
      if ascii_eqb d pad then
        if negb (string_eqb r "") then None
        else if ascii_eqb c pad then Some (str1 (octet (i * 262144 + j * 4096) 16))
        else k ← b64_index c;
             let v := (i * 262144 + j * 4096 + k * 64)%Z in Some (String (octet v 16) (str1 (octet v 8)))
      else
        k ← b64_index c; l ← b64_index d; rest ← b64_quads r;
        let v := (i * 262144 + j * 4096 + k * 64 + l)%Z in
        Some (String (octet v 16) (String (octet v 8) (String (octet v 0) rest)))
  | _ => None
  end.
Definition b64_decode (s : string) : option string := b64_quads (without_breaks s).

(** ** The cipher *)

(** SHA-256, and AES-GCM for a key and a nonce. *)
Class Crypto := {
  Sum256 : string -> string;
  Seal : string -> string -> string -> string;
  Open_ : string -> string -> string -> option string;
  Open_Seal key nonce plain : Open_ key nonce (Seal key nonce plain) = Some plain
}.

Definition NonceSize : nat := 12.
(** [aes.NewCipher] takes keys of these lengths. *)
Definition cipher_key (key : string) : bool := existsb (Nat.eqb (String.length key)) [16; 24; 32]%nat.

Definition encPrefix : string := "enc:v1:".

Section Secrets.
Context `{!Crypto}.

(** The new key is used whether or not it could be stored. *)
Definition write_key (p buf : string) (owner : FileOwner) : SE FS string :=
  r ← attempt (fs_WriteFile p buf 384);
  _ ← (if is_Ok r then own p owner else mret tt);
  mret buf.

(** [SB_SECRET]; [buf] are 32 random bytes, [owner] the files' owner. *)
Definition loadSecret (env_secret dataDir : string) (buf : string) (owner : FileOwner) : SE FS string :=
  if negb (string_eqb env_secret "") then mret (Sum256 env_secret)
  else
    let p := PathJoin [dataDir; "secret.key"] in
    content ← attempt (fs_ReadFile p);
    match content with
    | Ok (Some b) => if (32 <=? String.length b)%nat then mret (take_str 32 b) else write_key p buf owner
    | _ => write_key p buf owner
    end.

(** [nonce] is what the random source gives. *)
Definition encrypt (key : string) (nonce : result string) (plain : string) : string :=
  if string_eqb plain "" then plain
  else if negb (cipher_key key) then plain
  else match nonce with
  | Err _ => plain
  | Ok nonce => encPrefix +:+ b64_encode (nonce +:+ Seal key nonce plain)
  end.

Definition decrypt (key s : string) : string :=
  if negb (HasPrefix s encPrefix) then s
  else match b64_decode (TrimPrefix s encPrefix) with
  | None => s
  | Some raw =>
      if negb (cipher_key key) || (String.length raw <? NonceSize)%nat then s
      else match Open_ key (take_str NonceSize raw) (drop_str NonceSize raw) with
      | None => s
      | Some plain => plain
      end
  end.
End Secrets.

(** ** Proofs *)

Lemma byte_of_val c : byte_of (byte_val c) = c.
Proof. unfold byte_of, byte_val. rewrite Nat2Z.id. apply Ascii.ascii_nat_embedding. Qed.

Lemma val_byte_of n : (0 <= n < 256)%Z -> byte_val (byte_of n) = n.
Proof. intros H. unfold byte_of, byte_val. rewrite Ascii.nat_ascii_embedding by lia. lia. Qed.

Lemma b64_index_char i : (0 <= i < 64)%Z -> b64_index (b64_char i) = Some i /\ ascii_eqb (b64_char i) pad = false /\
  byte_is 10 (b64_char i) = false /\ byte_is 13 (b64_char i) = false.
Proof.
  intros Hi. rewrite <-(Z2Nat.id i) by lia. assert (Z.to_nat i < 64)%nat as Hn by lia.
  generalize dependent (Z.to_nat i). intros n Hn. do 64 (destruct n as [|n]; [by vm_compute|]). lia.
Qed.

Lemma land_63 v : Z.land v 63 = (v mod 64)%Z. Proof. apply (Z.land_ones v 6). lia. Qed.
Lemma land_255 v : Z.land v 255 = (v mod 256)%Z. Proof. apply (Z.land_ones v 8). lia. Qed.

Lemma sextet_char v k : (0 <= k)%Z -> b64_index (sextet v k) = Some (v / 2 ^ k mod 64)%Z /\ ascii_eqb (sextet v k) pad = false /\
  (byte_is 10 (sextet v k) || byte_is 13 (sextet v k)) = false.
Proof.
  intros Hk. unfold sextet. rewrite land_63, Z.shiftr_div_pow2 by done.
  destruct (b64_index_char (v / 2 ^ k mod 64)) as (H1 & H2 & H3 & H4); [by apply Z.mod_pos_bound|]. by rewrite H1, H2, H3, H4.
Qed.

Lemma octet_byte v k c : (0 <= k)%Z -> (v / 2 ^ k mod 256)%Z = byte_val c -> octet v k = c.
Proof. intros Hk H. unfold octet. rewrite land_255, Z.shiftr_div_pow2, H by done. apply byte_of_val. Qed.

Lemma str_ind3 (P : string -> Prop) : P "" -> (forall a, P (str1 a)) -> (forall a b, P (String a (str1 b))) ->
  (forall a b c r, P r -> P (String a (String b (String c r)))) -> forall s, P s.
Proof.
  intros H0 H1 H2 H3. assert (forall s, P s /\ (forall a, P (String a s)) /\ forall a b, P (String a (String b s))) as H; [|intros s; apply H].
  induction s as [|c s (IH1 & IH2 & IH3)]; [by split_and!|]. split_and!; auto.
Qed.

Lemma without_breaks_encode s : without_breaks (b64_encode s) = b64_encode s.
Proof.
  induction s as [|a|a b|a b c r IH] using str_ind3; cbn [b64_encode str1 without_breaks];
    repeat match goal with |- context [byte_is 10 (sextet ?v ?k)] => rewrite (proj2 (proj2 (sextet_char v k ltac:(done)))) end;
    try done. by rewrite IH.
Qed.

Lemma b64_roundtrip s : b64_decode (b64_encode s) = Some s.
Proof.
  unfold b64_decode. rewrite without_breaks_encode.
  induction s as [|a|a b|a b c r IH] using str_ind3; [done| | |]; cbn [b64_encode str1 b64_quads].
  - pose proof (byte_val_range a). rewrite (proj1 (sextet_char _ 18 ltac:(done))), (proj1 (sextet_char _ 12 ltac:(done))). cbn.
    do 2 f_equal. apply octet_byte; [done|]. Z.to_euclidean_division_equations. lia.
  - pose proof (byte_val_range a). pose proof (byte_val_range b).
    rewrite (proj1 (sextet_char _ 18 ltac:(done))), (proj1 (sextet_char _ 12 ltac:(done))).
    rewrite (proj1 (sextet_char _ 6 ltac:(done))), (proj1 (proj2 (sextet_char _ 6 ltac:(done)))). cbn.
    f_equal. f_equal; [|f_equal]; apply octet_byte; try done; Z.to_euclidean_division_equations; lia.
  - pose proof (byte_val_range a). pose proof (byte_val_range b). pose proof (byte_val_range c).
    rewrite (proj1 (sextet_char _ 18 ltac:(done))), (proj1 (sextet_char _ 12 ltac:(done))).
    rewrite (proj1 (sextet_char _ 6 ltac:(done))), (proj1 (sextet_char _ 0 ltac:(done))), (proj1 (proj2 (sextet_char _ 0 ltac:(done)))).
    rewrite IH. cbn. f_equal. f_equal; [|f_equal; [|f_equal]]; apply octet_byte; try done; Z.to_euclidean_division_equations; lia.
Qed.

(** What was encrypted is decrypted, for the text of a nonce of the right length. *)
Lemma decrypt_encrypt `{!Crypto} key nonce plain : cipher_key key = true -> String.length nonce = NonceSize ->
  decrypt key (encrypt key (Ok nonce) plain) = plain.
Proof.
  intros Hk Hn. unfold encrypt. destruct (string_eqb plain "") eqn:E; [apply string_eqb_true in E as ->; done|].
  rewrite Hk. cbn [negb]. unfold decrypt. rewrite HasPrefix_app, TrimPrefix_app, b64_roundtrip, Hk. cbn [negb orb].
  rewrite length_app_str, Hn. replace (NonceSize + String.length (Seal key nonce plain) <? NonceSize)%nat with false
    by (symmetry; apply Nat.ltb_ge; lia).
  rewrite <-Hn, take_str_app, drop_str_app, Open_Seal. done.
Qed.
