(* ===== verification/Remotes.v ===== *)
(** * Remote instances ([remote.go])

    The list of other instances in a file, with their passwords encrypted, the
    cache of their session cookies, and the proxy.  The HTTP client, the parsing
    of URLs and JSON are interfaces.  The file and the cache have a lock each; a
    handler is the sequence of its critical sections, which the sections below
    keep apart. *)

From S2P Require Import Prelude GoStrings Model LogBuffer AtomicFile JobRepository HostCommand ExecutionPlan HostFiles Auth Secrets.

Record Remote := MkRemote { Rem_ID : Z; Rem_Name : string; Rem_URL : string; Rem_User : string; Rem_Password : string }.

(** A request that is passed on, and what the client of the proxy gets. *)
Record Forward := MkForward { fw_scheme : string; fw_host : string; fw_path : string; fw_cookie : string }.

Inductive RemoteResponse :=
  | RemError (text : string) (code : Z)
  | RemList (items : list (Z * string * string * string))
  | RemAdded (id : Z) (name : string)
  | RemDeleted (id : Z)
  | RemProxied (status : Z).

(** [http.Client.Post] of the login: the status and the cookies, in order. *)
Class RemoteHTTP (H : Type) := {
  post_login : string -> string -> string -> H -> result (Z * list (string * string)) * H;
  forward : Forward -> H -> result Z * H;
  parse_url : string -> result (string * string)
}.

(** [unmarshal_remotes] gives [None] for a JSON null. *)
Class RemoteCodec := {
  unmarshal_remotes : string -> result (option (list Remote));
  marshal_remotes : list Remote -> string;
  decode_remote : string -> result Remote;
  remotes_encodable : list Remote -> Prop;
  remotes_roundtrip rs : remotes_encodable rs -> unmarshal_remotes (marshal_remotes rs) = Ok (Some rs)
}.

Record RemoteState (H : Type) := MkRemoteState { rm_fs : FS; rm_cookies : gmap Z string; rm_net : H }.
Arguments MkRemoteState {H}.
Arguments rm_fs {H}.
Arguments rm_cookies {H}.
Arguments rm_net {H}.

Section Remotes.
Context {H : Type} `{!RemoteHTTP H} `{!RemoteCodec} `{!Crypto}.
Context (dataDir : string) (owner : FileOwner) (key : string).
Notation RS := (SE (RemoteState H)).

Definition on_disk {A} (m : SE FS A) : RS A := fun s =>
  let (r, fs) := m (rm_fs s) in (r, MkRemoteState fs (rm_cookies s) (rm_net s)).
Definition on_net {A} (m : SE H A) : RS A := fun s =>
  let (r, h) := m (rm_net s) in (r, MkRemoteState (rm_fs s) (rm_cookies s) h).
Definition on_cookies (f : gmap Z string -> gmap Z string) : RS unit := fun s =>
  (Ok tt, MkRemoteState (rm_fs s) (f (rm_cookies s)) (rm_net s)).

Definition remotesPath : string := dataDir +:+ "/remotes.json".

(** A file that cannot be read or decoded counts as empty. *)
Definition loadRemotes : SE FS (list Remote) :=
  content ← attempt (fs_ReadFile remotesPath);
  mret (match content with
        | Ok (Some b) => match unmarshal_remotes b with Ok (Some rs) => rs | _ => [] end
        | _ => []
        end).

(** No error is reported. *)
Definition saveRemotes (rs : list Remote) : SE FS unit :=
  _ ← ignore (fs_WriteFile remotesPath (marshal_remotes rs) 384);
  own remotesPath owner.

Definition getRemote (id : Z) : SE FS (option Remote) :=
  rs ← loadRemotes;
  mret (List.find (fun r => Rem_ID r =? id)%Z rs).

(** ** Logging in at a remote *)

Definition session_cookie (cookies : list (string * string)) : option string :=
  snd <$> List.find (fun c => string_eqb c.1 "sb_session") cookies.

Definition unreachable {A} (r : result A) : result A :=
  match r with Ok a => Ok a | Err e => Err (ErrNew ("injoignable (" +:+ error_text e +:+ ")")) end.

Definition remoteLogin (rm : Remote) : SE H string :=
  r ← se_map unreachable (post_login (Rem_URL rm +:+ "/api/auth/login") (Rem_User rm) (Rem_Password rm));
  if negb (r.1 =? 200)%Z then lift (Err (ErrNew ("identifiants refusés (code " +:+ Itoa r.1 +:+ ")")))
  else match session_cookie r.2 with
  | Some value => mret value
  | None => lift (Err (ErrNew "pas de cookie de session renvoyé (est-ce bien une instance SyncBridge ?)"))
  end.

Definition set_password (p : string) (rm : Remote) : Remote :=
  MkRemote (Rem_ID rm) (Rem_Name rm) (Rem_URL rm) (Rem_User rm) p.

(** The three parts of [remoteCookieFor]: the cache, the login, the cache. *)
Definition cached_cookie (id : Z) (s : RemoteState H) : string := default "" (rm_cookies s !! id).
Definition login_at (rm : Remote) : RS string := on_net (remoteLogin (set_password (decrypt key (Rem_Password rm)) rm)).
Definition remember (id : Z) (ck : string) : RS unit := on_cookies (insert id ck).

Definition remoteCookieFor (rm : Remote) : RS string :=
  s ← get_state;
  let ck := cached_cookie (Rem_ID rm) s in
  if negb (string_eqb ck "") then mret ck
  else
    ck ← login_at rm;
    _ ← remember (Rem_ID rm) ck;
    mret ck.

(** ** The list *)

Definition normal_url (url : string) : string :=
  let url := TrimByteRight slash (TrimSpace url) in
  if negb (HasPrefix url "http://") && negb (HasPrefix url "https://") then "http://" +:+ url else url.

Definition next_remote_id (rs : list Remote) : Z :=
  fold_left (fun id x => if (Rem_ID x >=? id)%Z then wrap_s64 (Rem_ID x + 1) else id) rs 1%Z.

(** The section that stores a new remote. *)
Definition add_remote (rm : Remote) : SE FS Remote :=
  rs ← loadRemotes;
  let rm := MkRemote (next_remote_id rs) (Rem_Name rm) (Rem_URL rm) (Rem_User rm) (Rem_Password rm) in
  _ ← saveRemotes (rs ++ [rm]);
  mret rm.

Definition apiRemotes (method body : string) (nonce : result string) : RS RemoteResponse :=
  if string_eqb method "GET" then
    rs ← on_disk loadRemotes;
    mret (RemList (map (fun rm => (Rem_ID rm, Rem_Name rm, Rem_URL rm, Rem_User rm)) rs))
  else if string_eqb method "POST" then
    match decode_remote body with
    | Err _ => mret (RemError "nom et url requis" 400)
    | Ok rm =>
        if string_eqb (TrimSpace (Rem_Name rm)) "" || string_eqb (TrimSpace (Rem_URL rm)) ""
        then mret (RemError "nom et url requis" 400)
        else
          let rm := MkRemote (Rem_ID rm) (TrimSpace (Rem_Name rm)) (normal_url (Rem_URL rm)) (Rem_User rm) (Rem_Password rm) in
          login ← attempt (on_net (remoteLogin rm));
          match login with
          | Err e => mret (RemError ("connexion au remote échouée : " +:+ error_text e) 502)
          | Ok _ =>
              added ← on_disk (add_remote (set_password (encrypt key nonce (Rem_Password rm)) rm));
              mret (RemAdded (Rem_ID added) (Rem_Name added))
          end
    end
  else mret (RemError "méthode" 405).

(** The two sections of a deletion. *)
Definition drop_remote (id : Z) : SE FS unit :=
  rs ← loadRemotes;
  saveRemotes (List.filter (fun x => negb (Rem_ID x =? id)%Z) rs).
Definition forget_cookie (id : Z) : RS unit := on_cookies (delete id).

Definition apiRemoteByID (method path : string) : RS RemoteResponse :=
  if negb (string_eqb method "DELETE") then mret (RemError "méthode" 405)
  else match Atoi (TrimPrefix path "/api/remotes/") with
  | None => mret (RemError "id" 400)
  | Some id =>
      _ ← on_disk (drop_remote id);
      _ ← forget_cookie id;
      mret (RemDeleted id)
  end.

(** ** The proxy *)

Definition pass_on (id : Z) (f : Forward) : RS RemoteResponse :=
  answer ← attempt (on_net (forward f));
  match answer with
  | Err e => mret (RemError ("remote injoignable : " +:+ error_text e) 502)
  | Ok status =>
      _ ← (if (status =? 401)%Z then forget_cookie id else mret tt);
      mret (RemProxied status)
  end.

Definition apiRemoteProxy (path : string) : RS RemoteResponse :=
  let rest := TrimPrefix path "/api/remote/" in
  let '(idText, upstream, found) := Cut slash rest in
  if negb found then mret (RemError "chemin invalide" 400)
  else match Atoi idText with
  | None => mret (RemError "id" 400)
  | Some id =>
      rm ← on_disk (getRemote id);
      match rm with
      | None => mret (RemError "remote introuvable" 404)
      | Some rm =>
          match parse_url (Rem_URL rm) with
          | Err _ => mret (RemError "url remote invalide" 500)
          | Ok (scheme, host) =>
              ck ← attempt (remoteCookieFor rm);
              match ck with
              | Err e => mret (RemError ("auth remote : " +:+ error_text e) 502)
              | Ok ck => pass_on id (MkForward scheme host ("/" +:+ upstream) ("sb_session=" +:+ ck))
              end
          end
      end
  end.
End Remotes.
