(* ===== verification/RemotesProofs.v ===== *)
(** * Remote instances: proofs

    What adding and deleting a remote leave in the file and in the cache, on a
    disk that works. *)

From S2P Require Import Prelude GoStrings Model LogBuffer AtomicFile JobRepository HostCommand ExecutionPlan HostFiles Auth Secrets.
From S2P Require Import Remotes.

(** ** Files on a disk that works *)

Lemma WriteFile_works path data mode fs : fs_script fs = [] ->
  exists fs', fs_WriteFile path data mode fs = (Ok tt, fs') /\ fs_script fs' = [] /\
    file_data <$> fs_files fs' !! path = Some data /\ (forall p, p <> path -> fs_files fs' !! p = fs_files fs !! p).
Proof.
  intros Hs. unfold fs_WriteFile, fs_Close.
  rewrite (bind_step _ _ fs tt (fs_set_files (truncated path mode) fs)) by by apply works_op.
  set (f1 := fs_set_files _ fs). assert (fs_script f1 = []) as Hs1 by done.
  erewrite bind_step by (unfold fs_Write; rewrite SE_bind_unfold; unfold next_outcome; rewrite Hs1; reflexivity).
  eexists. split; [apply works_op; done|]. split; [done|]. cbn. unfold truncated. split.
  - destruct (fs_files fs !! path); rewrite lookup_alter_eq, lookup_insert_eq; done.
  - intros p Hp. destruct (fs_files fs !! path); rewrite lookup_alter_ne, lookup_insert_ne by done; done.
Qed.

Lemma own_keeps path owner fs : fs_script fs = [] ->
  exists fs', own path owner fs = (Ok tt, fs') /\ fs_script fs' = [] /\
    (forall p, file_data <$> fs_files fs' !! p = file_data <$> fs_files fs !! p).
Proof.
  intros Hs. unfold own, ignore, fs_Chown, fs_op. rewrite SE_bind_unfold. unfold attempt. rewrite SE_bind_unfold.
  unfold next_outcome. rewrite Hs. eexists. split; [done|]. split; [done|]. cbn. intros p.
  destruct (decide (p = path)) as [->|Hp]; [|by rewrite lookup_alter_ne].
  rewrite lookup_alter_eq. by destruct (fs_files fs !! path).
Qed.

Lemma ReadFile_works path fs : fs_script fs = [] -> fs_ReadFile path fs = (Ok (file_data <$> fs_files fs !! path), fs).
Proof.
  intros Hs. unfold fs_ReadFile. rewrite SE_bind_unfold. unfold next_outcome. rewrite Hs, SE_bind_unfold. done.
Qed.

(** ** The list in the file *)

Section Remotes.
Context {H : Type} {http : RemoteHTTP H} {rcodec : RemoteCodec} {crypto : Crypto}.
Context (dataDir : string) (owner : FileOwner) (key : string).
Notation loadRemotes := (loadRemotes dataDir).
Notation saveRemotes := (saveRemotes dataDir owner).

Definition decode_list (content : option string) : list Remote :=
  match content with
  | Some b => match unmarshal_remotes b with Ok (Some rs) => rs | _ => [] end
  | None => []
  end.
Definition remotes_in (fs : FS) : list Remote := decode_list (file_data <$> fs_files fs !! remotesPath dataDir).

Lemma remotes_load fs : fs_script fs = [] -> loadRemotes fs = (Ok (remotes_in fs), fs).
Proof.
  intros Hs. unfold Remotes.loadRemotes. rewrite SE_bind_unfold. unfold attempt. rewrite ReadFile_works by done.
  unfold remotes_in. by destruct (file_data <$> _).
Qed.

Lemma save_works rs fs : fs_script fs = [] -> remotes_encodable rs ->
  exists fs', saveRemotes rs fs = (Ok tt, fs') /\ fs_script fs' = [] /\ remotes_in fs' = rs.
Proof.
  intros Hs He. unfold Remotes.saveRemotes.
  destruct (WriteFile_works (remotesPath dataDir) (marshal_remotes rs) 384 fs Hs) as (fs1 & E1 & Hs1 & H1 & _).
  destruct (own_keeps (remotesPath dataDir) owner fs1 Hs1) as (fs2 & E2 & Hs2 & H2).
  exists fs2. split; [|split; [done|]].
  - rewrite SE_bind_unfold. unfold ignore at 1. rewrite SE_bind_unfold. unfold attempt. rewrite E1. exact E2.
  - unfold remotes_in. rewrite H2, H1. cbn. by rewrite remotes_roundtrip.
Qed.

(** Identifiers in the range the server gives. *)
Definition ids_ok (rs : list Remote) : Prop := Forall (fun r => 1 <= Rem_ID r < two63 - 1)%Z rs.

Lemma next_remote_fresh rs : ids_ok rs -> (1 <= next_remote_id rs < two63)%Z /\ Forall (fun r => Rem_ID r < next_remote_id rs)%Z rs.
Proof.
  unfold next_remote_id. assert (forall id, (1 <= id < two63)%Z -> ids_ok rs ->
    let n := fold_left (fun id x => if (Rem_ID x >=? id)%Z then wrap_s64 (Rem_ID x + 1) else id) rs id in
    (id <= n < two63)%Z /\ Forall (fun r => Rem_ID r < n)%Z rs) as Hgo.
  { induction rs as [|x rs IH]; intros id Hid Hok; [cbn [fold_left]; cbv zeta; split; [lia|constructor]|]. apply Forall_cons in Hok as [Hx Hok]. cbn [fold_left].
    destruct (Rem_ID x >=? id)%Z eqn:E.
    - rewrite wrap_s64_id by (unfold in_s64, two63 in *; lia).
      destruct (IH (Rem_ID x + 1)%Z) as [Hn Hf]; [unfold two63 in *; lia|done|]. split; [lia|]. apply Forall_cons. split; [lia|done].
    - destruct (IH id Hid Hok) as [Hn Hf]. split; [lia|]. apply Forall_cons. split; [lia|done]. }
  intros Hok. by destruct (Hgo 1%Z) as [Hn Hf].
Qed.

(** A login looks at the address, the user and the password only. *)
Lemma login_ext a b : Rem_URL a = Rem_URL b -> Rem_User a = Rem_User b -> Rem_Password a = Rem_Password b ->
  remoteLogin (H := H) a = remoteLogin b.
Proof. intros H1 H2 H3. unfold remoteLogin. by rewrite H1, H2, H3. Qed.

(** The remote a request names, as it is tried. *)
Definition tried (rm : Remote) : Remote :=
  MkRemote (Rem_ID rm) (TrimSpace (Rem_Name rm)) (normal_url (Rem_URL rm)) (Rem_User rm) (Rem_Password rm).

Definition stored_as (rm : Remote) (nonce : string) (rs : list Remote) : Remote :=
  MkRemote (next_remote_id rs) (TrimSpace (Rem_Name rm)) (normal_url (Rem_URL rm)) (Rem_User rm)
    (encrypt key (Ok nonce) (Rem_Password rm)).

Lemma add_works rm fs : fs_script fs = [] ->
  let new := MkRemote (next_remote_id (remotes_in fs)) (Rem_Name rm) (Rem_URL rm) (Rem_User rm) (Rem_Password rm) in
  remotes_encodable (remotes_in fs ++ [new]) ->
  exists fs', add_remote dataDir owner rm fs = (Ok new, fs') /\ fs_script fs' = [] /\ remotes_in fs' = remotes_in fs ++ [new].
Proof.
  intros Hs new He. unfold add_remote. rewrite SE_bind_unfold, remotes_load by done. cbv zeta. fold new.
  destruct (save_works _ fs Hs He) as (fs' & E & Hs' & Hr). exists fs'. rewrite SE_bind_unfold, E. by split_and!.
Qed.

(** The effect of a request on file and cookies. *)
Definition unchanged (s s' : RemoteState H) : Prop := rm_fs s' = rm_fs s /\ rm_cookies s' = rm_cookies s.

Lemma post_works body nonce rm (s : RemoteState H) :
  fs_script (rm_fs s) = [] -> decode_remote body = Ok rm ->
  remotes_encodable (remotes_in (rm_fs s) ++ [stored_as rm nonce (remotes_in (rm_fs s))]) ->
  exists resp s', apiRemotes dataDir owner key "POST" body (Ok nonce) s = (Ok resp, s') /\
    ((exists text code, resp = RemError text code /\ unchanged s s') \/
     (resp = RemAdded (next_remote_id (remotes_in (rm_fs s))) (TrimSpace (Rem_Name rm)) /\
      is_Ok (remoteLogin (tried rm) (rm_net s)).1 = true /\ rm_cookies s' = rm_cookies s /\
      remotes_in (rm_fs s') = remotes_in (rm_fs s) ++ [stored_as rm nonce (remotes_in (rm_fs s))])).
Proof.
  intros Hs Hd He. unfold apiRemotes. change (string_eqb "POST" "GET") with false. change (string_eqb "POST" "POST") with true.
  cbn iota. rewrite Hd. destruct (_ || _); [by eexists _, _; split; [done|]; left; eexists _, _|].
  cbv zeta. fold (tried rm). rewrite SE_bind_unfold. unfold attempt, on_net.
  destruct (remoteLogin (tried rm) (rm_net s)) as [[ck|e] h]; [|by eexists _, _; split; [done|]; left; eexists _, _].
  rewrite SE_bind_unfold. unfold on_disk. cbn [rm_fs].
  destruct (add_works (set_password (encrypt key (Ok nonce) (Rem_Password (tried rm))) (tried rm)) (rm_fs s) Hs He) as (fs' & -> & _ & Hr).
  eexists _, _. split; [done|]. right. by split_and!.
Qed.
End Remotes.

(** ** Properties *)

(** C34: a remote that was accepted can be used.  On a disk that works, a POST is
    refused without a change of file or cookies, or its login at the normalised
    address succeeded, the remote is stored behind the others under an identifier
    none of them has, and every later login of the proxy sends the address, the
    user and the password that were tried, although the file holds the password
    encrypted. *)
Theorem remote_added_usable {H} {http : RemoteHTTP H} {rcodec : RemoteCodec} {crypto : Crypto} dataDir owner key nonce body rm (s : RemoteState H) :
  fs_script (rm_fs s) = [] -> decode_remote body = Ok rm -> ids_ok (remotes_in dataDir (rm_fs s)) ->
  cipher_key key = true -> String.length nonce = NonceSize ->
  remotes_encodable (remotes_in dataDir (rm_fs s) ++ [stored_as key rm nonce (remotes_in dataDir (rm_fs s))]) ->
  exists resp s', apiRemotes dataDir owner key "POST" body (Ok nonce) s = (Ok resp, s') /\
    ((exists text code, resp = RemError text code /\ unchanged s s') \/
     exists stored, resp = RemAdded (Rem_ID stored) (Rem_Name stored) /\
       is_Ok (remoteLogin (tried rm) (rm_net s)).1 = true /\ rm_cookies s' = rm_cookies s /\
       remotes_in dataDir (rm_fs s') = remotes_in dataDir (rm_fs s) ++ [stored] /\
       Rem_ID stored ∉ map Rem_ID (remotes_in dataDir (rm_fs s)) /\
       forall t, login_at key stored t = on_net (remoteLogin (tried rm)) t).
Proof.
  intros Hs Hd Hids Hk Hn He. destruct (post_works dataDir owner key body nonce rm s Hs Hd He) as (resp & s' & E & Hout).
  exists resp, s'. split; [done|]. destruct Hout as [Hout|(Hr & Hl & Hc & Hf)]; [by left|right].
  exists (stored_as key rm nonce (remotes_in dataDir (rm_fs s))). split_and!; [done..| |].
  - intros Hin. apply list_elem_of_fmap in Hin as (x & Hx & Hin). destruct (next_remote_fresh _ Hids) as [_ Hlt].
    rewrite Forall_forall in Hlt. specialize (Hlt x Hin). cbn in Hx. lia.
  - intros t. unfold login_at. f_equal. apply login_ext; [done..|]. cbn. by apply decrypt_encrypt.
Qed.

(** What a deletion takes away.  On a disk that works, deleting an identifier
    removes exactly the remotes with it from the list, and its cookie. *)
Theorem remote_removed {H} {http : RemoteHTTP H} {rcodec : RemoteCodec} {crypto : Crypto} dataDir owner path id (s : RemoteState H) :
  fs_script (rm_fs s) = [] -> Atoi (TrimPrefix path "/api/remotes/") = Some id ->
  let keep := List.filter (fun x => negb (Rem_ID x =? id)%Z) (remotes_in dataDir (rm_fs s)) in
  remotes_encodable keep ->
  exists s', apiRemoteByID dataDir owner "DELETE" path s = (Ok (RemDeleted id), s') /\
    remotes_in dataDir (rm_fs s') = keep /\ rm_cookies s' = delete id (rm_cookies s).
Proof.
  intros Hs Hp keep He. unfold apiRemoteByID. rewrite Hp. change (negb (string_eqb "DELETE" "DELETE")) with false. cbn iota.
  rewrite SE_bind_unfold. unfold on_disk, drop_remote. rewrite SE_bind_unfold, remotes_load by done. fold keep.
  destruct (save_works dataDir owner keep (rm_fs s) Hs He) as (fs' & -> & Hs' & Hr). eexists. split; [reflexivity|]. by split.
Qed.

(** ** Two remotes on a small network *)

Definition demo_a : Remote := MkRemote 1 "a" "http://a" "admin" "enc:v1:c2VjcmV0LW5vbmNlcHctYQ==".
Definition demo_b : Remote := MkRemote 1 "b" "http://b" "admin" "pw-b".

#[export] Instance demo_http : RemoteHTTP nat := {|
  post_login url user password n := (Ok (200%Z, [("sb_session", "sid of " +:+ url)]), S n);
  forward f n := (Ok 200%Z, S n);
  parse_url url := Ok ("http", TrimPrefix url "http://")
|}.

#[export] Instance demo_crypto : Crypto.
Proof.
  refine {| Sum256 s := s; Seal key nonce plain := plain; Open_ key nonce sealed := Some sealed |}. reflexivity.
Defined.

Definition demo_key : string := "0123456789abcdef0123456789abcdef".
Definition demo_nonce : string := "secret-nonce".
Definition demo_b_stored : Remote := stored_as demo_key demo_b demo_nonce [].

#[export] Instance demo_remotes : RemoteCodec.
Proof.
  refine {| unmarshal_remotes t :=
              if string_eqb t "[a]" then Ok (Some [demo_a]) else if string_eqb t "[b]" then Ok (Some [demo_b_stored]) else Ok None;
            marshal_remotes rs := match rs with [] => "null" | r :: _ => if string_eqb (Rem_Name r) "a" then "[a]" else "[b]" end;
            decode_remote body := if string_eqb body "{b}" then Ok demo_b else Err (ErrNew "json");
            remotes_encodable rs := rs = [demo_a] \/ rs = [demo_b_stored] |}.
  intros rs [-> | ->]; reflexivity.
Defined.

Definition demo_net (files : gmap string file) : RemoteState nat := MkRemoteState (MkFS files [] []) ∅ 0%nat.
Definition demo_file (data : string) : gmap string file := {[ "/config/remotes.json" := MkFile data 384 process_owner false ]}.

(** A login for the proxy that is under way when its remote is deleted stores
    the cookie of the deleted remote under its identifier, which the next remote
    gets: its requests then carry the session of the other host. *)
Definition late_cookie : SE (RemoteState nat) string :=
  rm ← on_disk (getRemote "/config" 1);
  match rm with
  | None => lift (Err (ErrNew "no remote"))
  | Some rm =>
      ck ← login_at demo_key rm;
      _ ← on_disk (drop_remote "/config" process_owner 1);
      _ ← forget_cookie 1;
      _ ← remember 1 ck;
      added ← on_disk (add_remote "/config" process_owner demo_b_stored);
      remoteCookieFor demo_key added
  end.

Lemma cookie_of_deleted_remote :
  (late_cookie (demo_net (demo_file "[a]"))).1 = Ok "sid of http://a/api/auth/login" /\
  (remoteCookieFor demo_key demo_b_stored (demo_net (demo_file "[b]"))).1 = Ok "sid of http://b/api/auth/login".
Proof. split; vm_compute; reflexivity. Qed.

(** A key file that cannot be read once is replaced by a new key. *)
Lemma unreadable_key_replaced :
  let old := MkFS {[ "/config/secret.key" := MkFile demo_key 384 process_owner false ]} [] [Fails 0] in
  let (r, fs) := loadSecret "" "/config" "fedcba9876543210fedcba9876543210" process_owner old in
  r = Ok "fedcba9876543210fedcba9876543210" /\
  file_data <$> fs_files fs !! "/config/secret.key" = Some "fedcba9876543210fedcba9876543210".
Proof. vm_compute. split; reflexivity. Qed.

(** ** Witnesses *)

Lemma remote_added_usable_witness :
  exists resp s', apiRemotes "/config" process_owner demo_key "POST" "{b}" (Ok demo_nonce) (demo_net ∅) = (Ok resp, s') /\
    ((exists text code, resp = RemError text code /\ unchanged (demo_net ∅) s') \/
     exists stored, resp = RemAdded (Rem_ID stored) (Rem_Name stored) /\
       is_Ok (remoteLogin (tried demo_b) (rm_net (demo_net ∅))).1 = true /\ rm_cookies s' = rm_cookies (demo_net ∅) /\
       remotes_in "/config" (rm_fs s') = remotes_in "/config" (rm_fs (demo_net ∅)) ++ [stored] /\
       Rem_ID stored ∉ map Rem_ID (remotes_in "/config" (rm_fs (demo_net ∅))) /\
       forall t, login_at demo_key stored t = on_net (remoteLogin (tried demo_b)) t).
Proof.
  apply (remote_added_usable "/config" process_owner demo_key demo_nonce "{b}" demo_b (demo_net ∅)).
  - reflexivity.
  - reflexivity.
  - apply Forall_nil. exact I.
  - reflexivity.
  - reflexivity.
  - right. reflexivity.
Defined.

Lemma remote_removed_witness :
  let s := MkRemoteState (MkFS (demo_file "[a]") [] []) {[ 7%Z := "sid" ]} 0%nat in
  let keep := List.filter (fun x => negb (Rem_ID x =? 7)%Z) (remotes_in "/config" (rm_fs s)) in
  keep = [demo_a] /\
  exists s', apiRemoteByID "/config" process_owner "DELETE" "/api/remotes/7" s = (Ok (RemDeleted 7), s') /\
    remotes_in "/config" (rm_fs s') = keep /\ rm_cookies s' = delete 7%Z (rm_cookies s).
Proof.
  intros s keep. assert (keep = [demo_a]) as E by (vm_compute; reflexivity). split; [exact E|].
  apply (remote_removed "/config" process_owner "/api/remotes/7" 7 s); [reflexivity|reflexivity|left; exact E].
Defined.
