(* ===== verification/Events.v ===== *)
(** * Event streams ([handleV1Events] of [app.go], [legacyStream] of
      [api_legacy.go])

    A stream is a response that writes each event it receives from its
    subscription until the client leaves.  It is a function of the events
    received, in order.  JSON is an interface. *)

From S2P Require Import Prelude GoStrings Model LogBuffer AtomicFile JobRepository HostCommand Capabilities.
From S2P Require Import ExecutionPlan RunService Scheduler JobApi.

(** [json.Marshal] of an event, which may fail, and of a line. *)
Class EventCodec := {
  marshal_event : RunEvent -> result string;
  marshal_line : string -> string;
  marshal_event_line e d : marshal_event e = Ok d -> has_byte LF d = false
}.

Section Streams.
Context {codec : EventCodec}.

(** ** The event stream *)

(** The last event the client saw: an error, or its number. *)
Definition last_event (header : string) : option Z :=
  let raw := TrimSpace header in
  if string_eqb raw "" then Some 0%Z else ParseUint 10 64 raw.

(** The subscription of the request, or the response that refuses it. *)
Definition open_events (r : Request) (header : string) (s : RunService) : (Response + Z) * RunService :=
  match requireMethod r [MethodGet] with
  | Some resp => (inl resp, s)
  | None =>
      match last_event header with
      | None => (inl (writeAPIError 400 "invalid_event_id" "Last-Event-ID must be an unsigned integer"), s)
      | Some after => let (id, s) := Subscribe after s in (inr id, s)
      end
  end.

Definition event_frame (e : RunEvent) (data : string) : string :=
  "id: " +:+ FormatUint (Event_ID e) +:+ newline +:+ "event: " +:+ Event_Kind e +:+ newline +:+ "data: " +:+ data +:+
  newline +:+ newline.

(** What is written for the events received. *)
Fixpoint event_text (events : list RunEvent) : string :=
  match events with
  | [] => ""
  | e :: events =>
      match marshal_event e with
      | Err _ => ""
      | Ok data => event_frame e data +:+ event_text events
      end
  end.

(** ** The log stream of the legacy API *)

(** [strings.TrimRight(s, "\r\n")] *)
Fixpoint trim_line_end (s : string) : string :=
  match s with
  | EmptyString => EmptyString
  | String c r =>
      let r := trim_line_end r in
      if string_eqb r "" && (ascii_eqb c CR || ascii_eqb c LF) then EmptyString else String c r
  end.

Definition data_line (line : string) : string := "data: " +:+ marshal_line line +:+ newline +:+ newline.

(** The log as it is, when no line was streamed. *)
Definition whole_log (logs : option string) : string :=
  match logs with
  | Some logs => fold_right (fun line rest => if string_eqb line "" then rest else data_line line +:+ rest) "" (Split LF (TrimSpace logs))
  | None => ""
  end.

(** Each event comes with what [Logs] answers when it is handled; the result is
    the text written and whether the stream ended by itself. *)
Fixpoint legacy_stream (target : string) (events : list (RunEvent * option string)) (seenLog : bool) : string * bool :=
  match events with
  | [] => ("", false)
  | (ev, logs) :: events =>
      if negb (string_eqb (Run_ID (Event_Run ev)) target) then legacy_stream target events seenLog
      else if string_eqb (Event_Kind ev) RunEventLog then
        let line := trim_line_end (Event_Log ev) in
        if string_eqb line "" then legacy_stream target events seenLog
        else let (rest, ended) := legacy_stream target events true in (data_line line +:+ rest, ended)
      else if string_eqb (Event_Kind ev) RunEventState && isTerminalRunStatus (Run_Status (Event_Run ev)) then
        ((if seenLog then "" else whole_log logs) +:+
         "event: done" +:+ newline +:+ "data: {" +:+ str1 quote_double +:+ "rc" +:+ str1 quote_double +:+ ":" +:+ Itoa (Run_ExitCode (Event_Run ev)) +:+ "}" +:+ newline +:+ newline, true)
      else legacy_stream target events seenLog
  end.

(** The newest run of the job is the one that is streamed: it, with the new
    subscription; the text [None] stands for is that of a job without runs. *)
Definition open_legacy_stream (id now : Z) (s : RunService) : option (string * Z) * RunService :=
  let (runs, s) := RunService.List_ (MkRunFilter id "" 1) now s in
  match runs with
  | [] => (None, s)
  | run :: _ => let (sub, s) := Subscribe 0 s in (Some (Run_ID run, sub), s)
  end.

End Streams.
