(* ===== verification/EventsProofs.v ===== *)
(** * Event streams: proofs

    What a reconnecting client gets, that the text of a stream reads back, and
    when the log stream ends. *)

From S2P Require Import Prelude GoStrings Model LogBuffer AtomicFile JobRepository HostCommand Capabilities.
From S2P Require Import ExecutionPlan RunService RunServiceProofs RunServiceSpec Scheduler JobApi Events.

(** ** Reading a stream back

    What an event source makes of the lines: the identifier, the name and the
    data of each block. *)
Fixpoint read_frames (lines : list string) : list (string * string * string) :=
  match lines with
  | a :: b :: c :: d :: rest =>
      if HasPrefix a "id: " && HasPrefix b "event: " && HasPrefix c "data: " && string_eqb d ""
      then (TrimPrefix a "id: ", TrimPrefix b "event: ", TrimPrefix c "data: ") :: read_frames rest
      else []
  | _ => []
  end.

Lemma Split_line sep a rest : has_byte sep a = false -> Split sep (a +:+ str1 sep +:+ rest) = a :: Split sep rest.
Proof.
  induction a as [|c a IH]; intros H.
  - rewrite app_empty_l. change (str1 sep +:+ rest) with (String sep rest). cbn [Split]. by rewrite ascii_eqb_refl.
  - rewrite has_byte_false in H. cbn [string_forallb] in H. apply andb_true_iff in H as [Hc H]. apply negb_true_iff in Hc.
    rewrite app_cons. cbn [Split]. rewrite Hc, IH by by apply has_byte_false. done.
Qed.

Lemma plain_line pre s : has_byte LF pre = false -> has_byte LF s = false -> has_byte LF (pre +:+ s) = false.
Proof. intros H1 H2. by rewrite has_byte_app, H1, H2. Qed.

Lemma read_frame e data rest : (0 <= Event_ID e)%Z -> known_kind (Event_Kind e) = true -> has_byte LF data = false ->
  read_frames (Split LF (event_frame e data +:+ rest)) = (FormatUint (Event_ID e), Event_Kind e, data) :: read_frames (Split LF rest).
Proof.
  intros Hid Hk Hd.
  assert (has_byte LF (FormatUint (Event_ID e)) = false) as Hn.
  { apply has_byte_false. eapply string_forallb_impl; [|by apply FormatUint_digits]. intros c Hc.
    apply negb_true_iff, ascii_eqb_false. by intros ->. }
  assert (has_byte LF (Event_Kind e) = false) as Hkind.
  { unfold known_kind in Hk. apply orb_true_iff in Hk as [Hk|Hk]; apply string_eqb_true in Hk; by rewrite Hk. }
  unfold event_frame. change newline with (str1 LF).
  replace (_ +:+ rest) with (("id: " +:+ FormatUint (Event_ID e)) +:+ str1 LF +:+ ("event: " +:+ Event_Kind e) +:+ str1 LF +:+
    ("data: " +:+ data) +:+ str1 LF +:+ "" +:+ str1 LF +:+ rest) by (rewrite !app_assoc_str; done).
  rewrite !Split_line by (done || by apply plain_line). cbn [read_frames].
  rewrite !HasPrefix_app, !TrimPrefix_app. done.
Qed.

Section Streams.
Context {codec : EventCodec}.

(** What an event is read as. *)
Definition frame_of (e : RunEvent) : string * string * string :=
  (FormatUint (Event_ID e), Event_Kind e, match marshal_event e with Ok d => d | Err _ => "" end).

Lemma read_event_text events :
  Forall (fun e => (0 <= Event_ID e)%Z /\ known_kind (Event_Kind e) = true /\ is_Ok (marshal_event e) = true) events ->
  read_frames (Split LF (event_text events)) = map frame_of events.
Proof.
  induction 1 as [|e events (H1 & H2 & H3) _ IH]; [done|]. cbn [event_text map]. unfold frame_of at 1.
  destruct (marshal_event e) as [d|] eqn:E; [|done]. rewrite read_frame, IH; [done|done|done|]. by eapply marshal_event_line.
Qed.

(** ** The replay *)

Lemma filter_suffix after l m : map Event_ID l = seqZ m (Z.of_nat (length l)) ->
  exists old, l = old ++ List.filter (fun e => (Event_ID e >? after)%Z) l /\
    map Event_ID (List.filter (fun e => (Event_ID e >? after)%Z) l) =
      seqZ (Z.max (after + 1) m) (m + Z.of_nat (length l) - Z.max (after + 1) m).
Proof.
  revert m. induction l as [|e l IH]; intros m H.
  - exists []. split; [done|]. cbn. unfold seqZ. by replace (Z.to_nat _) with 0%nat by lia.
  - cbn [map length] in H. rewrite Nat2Z.inj_succ, seqZ_cons in H by lia. injection H as He Hl.
    replace (Z.pred (Z.succ (Z.of_nat (length l)))) with (Z.of_nat (length l)) in Hl by lia.
    destruct (IH (Z.succ m) Hl) as (old & Hold & Hids). cbn [List.filter]. destruct (Event_ID e >? after)%Z eqn:E.
    + assert (List.filter (fun e => (Event_ID e >? after)%Z) l = l) as Hall.
      { apply List.forallb_filter_id. apply forallb_forall. intros x Hx. apply (in_map Event_ID) in Hx. rewrite Hl in Hx.
        apply list_elem_of_In, elem_of_seqZ in Hx. lia. }
      exists []. rewrite Hall. split; [done|]. cbn [map length]. rewrite He, Hl.
      replace (Z.max (after + 1) m) with m by lia. rewrite (seqZ_cons m (m + _ - m)) by lia. f_equal. f_equal; lia.
    + exists (e :: old). split; [by rewrite <-app_comm_cons, <-Hold|]. rewrite Hids. cbn [length]. f_equal; lia.
Qed.

(** ** The legacy stream *)

Definition ends_stream (target : string) (ev : RunEvent) : bool :=
  string_eqb (Run_ID (Event_Run ev)) target && string_eqb (Event_Kind ev) RunEventState &&
  isTerminalRunStatus (Run_Status (Event_Run ev)).

(** The lines an event adds. *)
Definition event_lines (target : string) (ev : RunEvent) : list string :=
  let line := trim_line_end (Event_Log ev) in
  if string_eqb (Run_ID (Event_Run ev)) target && string_eqb (Event_Kind ev) RunEventLog && negb (string_eqb line "")
  then [line] else [].

Definition done_text (ev : RunEvent) : string :=
  "event: done" +:+ newline +:+ "data: {" +:+ str1 quote_double +:+ "rc" +:+ str1 quote_double +:+ ":" +:+
  Itoa (Run_ExitCode (Event_Run ev)) +:+ "}" +:+ newline +:+ newline.

Definition cat_lines (lines : list string) : string := fold_right (fun line rest => data_line line +:+ rest) "" lines.

(** The events before the first that ends the stream, and that one. *)
Fixpoint until_end (target : string) (events : list (RunEvent * option string)) : list RunEvent * option (RunEvent * option string) :=
  match events with
  | [] => ([], None)
  | p :: events =>
      if ends_stream target p.1 then ([], Some p)
      else let (before, last) := until_end target events in (p.1 :: before, last)
  end.

Lemma legacy_stream_until target events : forall seen,
  let (before, last) := until_end target events in
  let lines := concat (map (event_lines target) before) in
  legacy_stream target events seen =
    (cat_lines lines +:+ match last with
       | Some (ev, logs) => (if seen || negb (bool_decide (lines = [])) then "" else whole_log logs) +:+ done_text ev
       | None => "" end, bool_decide (is_Some last)).
Proof.
  induction events as [|[ev logs] events IH]; intros seen; [done|]. cbn [until_end legacy_stream fst].
  pose proof (eq_refl (event_lines target ev)) as Hl. unfold event_lines at 2 in Hl. cbv zeta in Hl. revert Hl.
  unfold ends_stream. destruct (string_eqb (Run_ID (Event_Run ev)) target) eqn:Et; cbn [negb andb]; intros Hl.
  2:{ destruct (until_end target events) as [before last]. rewrite IH. cbn [map concat]. by rewrite Hl. }
  destruct (string_eqb (Event_Kind ev) RunEventLog) eqn:Ek.
  - assert (string_eqb (Event_Kind ev) RunEventState = false) as -> by (apply string_eqb_true in Ek as ->; done). cbn [andb] in *.
    destruct (until_end target events) as [before last]. cbn [map concat]. rewrite Hl.
    destruct (string_eqb (trim_line_end (Event_Log ev)) "") eqn:El; cbn [negb]; rewrite IH; [done|].
    cbn [app cat_lines fold_right]. rewrite app_assoc_str. do 2 f_equal. f_equal. by rewrite orb_true_r.
  - cbn [andb] in Hl. destruct (string_eqb (Event_Kind ev) RunEventState && _) eqn:Ee.
    + cbn. rewrite orb_false_r. by destruct seen.
    + destruct (until_end target events) as [before last]. rewrite IH. cbn [map concat]. by rewrite Hl.
Qed.

(** A run whose final event is no longer kept is never seen to end: what the new
    subscription holds leaves the stream open, and writes no line of its log. *)
Lemma old_run_stream_open s run id now :
  RunService.List_ (MkRunFilter id "" 1) now s = ([run], s) ->
  forallb (fun e => negb (string_eqb (Run_ID (Event_Run e)) (Run_ID run))) (sv_events s) = true ->
  exists sub s' channel, open_legacy_stream id now s = (Some (Run_ID run, sub), s') /\ sv_subscribers s' !! sub = Some channel /\
    forall answers, length answers = length (sub_buffer channel) ->
      legacy_stream (Run_ID run) (zip (sub_buffer channel) answers) false = ("", false).
Proof.
  intros Hl Hno. unfold open_legacy_stream. rewrite Hl. unfold Subscribe. eexists _, _, _. split; [reflexivity|].
  cbn [sv_subscribers set_events]. rewrite lookup_insert_eq. split; [reflexivity|]. cbn [sub_buffer]. clear Hl.
  induction (sv_events s) as [|e events IH]; intros answers Hlen; [by destruct answers|].
  cbn [forallb] in Hno. apply andb_true_iff in Hno as [He Hno]. specialize (IH Hno). cbn [List.filter] in *.
  destruct (Event_ID e >? 0)%Z; [|by apply IH]. destruct answers as [|x answers]; [done|]. cbn [zip zip_with legacy_stream].
  rewrite He. apply IH. by injection Hlen.
Qed.

(** ** Properties *)

(** C28: a client that reconnects misses nothing that is kept.  In every reachable
    state, a GET whose [Last-Event-ID] is the number of an event published before
    opens a subscription that holds, in order and without a gap, exactly the kept
    events after that one (all of them from the oldest kept one on, when that one
    is no longer kept); and what is written for them is read back as their
    numbers, kinds and data. *)
Theorem events_resume limits s r header n :
  reachable limits s -> req_method r = MethodGet -> in_u64 n -> (n <= sv_eventID s)%Z -> TrimSpace header = FormatUint n ->
  let oldest := (sv_eventID s - Z.of_nat (length (sv_events s)) + 1)%Z in
  let from := Z.max (n + 1) oldest in
  exists id sub s', open_events r header s = (inr id, s') /\ sv_subscribers s' !! id = Some sub /\
    (exists seen, sv_events s = seen ++ sub_buffer sub) /\
    map Event_ID (sub_buffer sub) = seqZ from (sv_eventID s + 1 - from) /\
    (Forall (fun e => is_Ok (marshal_event e) = true) (sub_buffer sub) ->
     read_frames (Split LF (event_text (sub_buffer sub))) = map frame_of (sub_buffer sub)).
Proof.
  intros Hr Hm Hn Hle Hh oldest from. apply reachable_events in Hr as [_ H0 Hids _ _ Hkinds].
  destruct (filter_suffix n (sv_events s) _ Hids) as (old & Hold & Hreplay).
  unfold open_events, requireMethod. rewrite Hm. change (existsb (string_eqb MethodGet) [MethodGet]) with true. cbn iota.
  unfold last_event. rewrite Hh. rewrite (proj2 (string_eqb_false _ _)); [|by destruct (FormatUint_cons n) as (c & t & ->)].
  rewrite ParseUint_FormatUint by done. unfold Subscribe. eexists _, _, _. split; [reflexivity|].
  cbn [sv_subscribers set_events]. rewrite lookup_insert_eq. split; [reflexivity|]. cbn [sub_buffer].
  split; [by exists old|]. split; [rewrite Hreplay; subst from oldest; f_equal; lia|].
  intros Hok. apply read_event_text. rewrite Forall_forall in Hok, Hkinds. apply Forall_forall. intros e He.
  split_and!; [|apply Hkinds; rewrite Hold; apply elem_of_app; by right|by apply Hok].
  assert (Event_ID e ∈ map Event_ID (List.filter (fun e => (Event_ID e >? n)%Z) (sv_events s))) as Hin
    by (apply list_elem_of_fmap; by exists e).
  rewrite Hreplay in Hin. apply elem_of_seqZ in Hin. unfold in_u64 in Hn. lia.
Qed.

(** The log stream of the legacy API.  For any events received, the stream of a
    run writes the non-empty lines of the run's log events, in order and without
    their line ends, up to the first event that tells the run is final, and only
    that event ends it: then the kept log is written if no line was, and last the
    exit code. *)
Theorem legacy_stream_text target events :
  let (before, last) := until_end target events in
  let lines := concat (map (event_lines target) before) in
  legacy_stream target events false =
    match last with
    | None => (cat_lines lines, false)
    | Some (ev, logs) => (cat_lines lines +:+ (if bool_decide (lines = []) then whole_log logs else "") +:+ done_text ev, true)
    end.
Proof.
  pose proof (legacy_stream_until target events false) as H. destruct (until_end target events) as [before last].
  rewrite H. destruct last as [[ev logs]|]; [|by rewrite app_empty_r]. cbn [orb]. by destruct (bool_decide (concat _ = [])).
Qed.
End Streams.

(** ** Witness *)

#[export] Instance demo_events : EventCodec.
Proof. refine {| marshal_event e := Ok "{}"; marshal_line l := l |}. intros e d [= <-]. reflexivity. Defined.

Definition demo_limits : LogLimits := MkLogLimits 10 10 10 10.
(** Two runs of two jobs were asked for, which published two events. *)
Definition demo_started : RunService :=
  let start (s : RunService) (job : Z) (id : string) :=
    (Start (Some (Job_set_ID job zeroJob)) (Ok id) 5 (MkStartRunInput job 0 RunOriginManual false) s).2 in
  start (start (NewRunService demo_limits) 1%Z "r1") 2%Z "r2".

Lemma events_resume_witness :
  (length (sv_events demo_started) = 2)%nat /\
  exists id sub s', open_events (MkRequest MethodGet "/api/v1/events" "" "" "" "") " 1 " demo_started = (inr id, s') /\
    sv_subscribers s' !! id = Some sub /\ (exists seen, sv_events demo_started = seen ++ sub_buffer sub) /\
    map Event_ID (sub_buffer sub) = seqZ 2 1 /\
    (Forall (fun e => is_Ok (marshal_event e) = true) (sub_buffer sub) ->
     read_frames (Split LF (event_text (sub_buffer sub))) = map frame_of (sub_buffer sub)).
Proof.
  split; [vm_compute; reflexivity|].
  refine (events_resume demo_limits demo_started _ " 1 " 1 _ _ _ _ _).
  - eapply reachable_step; [eapply reachable_step; [apply reachable_new|]|]; apply step_start; intros id [= <-];
      (split; [vm_compute; reflexivity|]; split_and!; apply (bool_decide_unpack _); vm_compute; exact I).
  - reflexivity.
  - split; reflexivity || discriminate.
  - vm_compute. discriminate.
  - vm_compute. reflexivity.
Defined.
