(* ===== verification/WatchTree.v ===== *)
(** * Directory trees ([watch_manager.go], the walks)

    [filepath.WalkDir] over the tree a host shows, the registration of every
    directory with the watcher, and the signature the poller compares.  A tree is
    what [os.Lstat] and [os.ReadDir] say during one walk, errors included, in the
    order of [os.ReadDir]; it does not change while it is walked.  The cancellation
    of contexts is not modelled. *)

From S2P Require Import Prelude GoStrings Model LogBuffer AtomicFile JobRepository HostCommand Capabilities ExecutionPlan.
From S2P Require Import RunService Scheduler WatchManager HostFiles App Auth Secrets.

(** ** Trees *)

(** The text of [info.Mode().Type()], the size, and [ModTime] in nanoseconds. *)
Record FileInfo := MkFileInfo { fi_type : string; fi_size : Z; fi_mtime : Z }.

(** An entry: whether [IsDir] says yes (a symbolic link is none), what [Info]
    answers, and what [os.ReadDir] gives: an error, and the entries it had read. *)
Inductive Tree := Node (isDir : bool) (info : result FileInfo) (listing : option goerror) (entries : list (string * Tree)).

Definition node_dir (t : Tree) : bool := let (d, _, _, _) := t in d.
Definition node_info (t : Tree) : result FileInfo := let (_, i, _, _) := t in i.
Definition node_listing (t : Tree) : option goerror := let (_, _, l, _) := t in l.
Definition node_entries (t : Tree) : list (string * Tree) := let (_, _, _, l) := t in l.

(** ** [filepath.WalkDir] *)

(** What the walk's function returns: nil, [fs.SkipDir], another error. *)
Inductive Walked := Continue | SkipDir | Stop (e : goerror).

Section Walk.
Context {S : Type}.

(** The loop over the entries of a directory, which [SkipDir] ends. *)
Section Entries.
Context (step : string -> Tree -> S -> Walked * S).
Fixpoint walk_entries (path : string) (entries : list (string * Tree)) (s : S) : Walked * S :=
  match entries with
  | [] => (Continue, s)
  | (name, t) :: entries =>
      match step (PathJoin [path; name]) t s with
      | (Continue, s) => walk_entries path entries s
      | (SkipDir, s) => (Continue, s)
      | (Stop e, s) => (Stop e, s)
      end
  end.
End Entries.

(** [fn] gets an entry, or an error, with which no function here looks at the
    entry. *)
Context (fn : string -> result Tree -> S -> Walked * S).

Fixpoint walkDir (path : string) (t : Tree) (s : S) : Walked * S :=
  match t with
  | Node isDir info listing entries =>
      match fn path (Ok t) s with
      | (Stop e, s) => (Stop e, s)
      | (SkipDir, s) => (if isDir then Continue else SkipDir, s)
      | (Continue, s) =>
          if negb isDir then (Continue, s)
          else match listing with
          | None => walk_entries walkDir path entries s
          | Some e =>
              match fn path (Err e) s with
              | (Stop e, s) => (Stop e, s)
              | (SkipDir, s) => (Continue, s)
              | (Continue, s) => walk_entries walkDir path entries s
              end
          end
      end
  end.

(** [root]: what [os.Lstat] says of the root. *)
Definition WalkDir (path : string) (root : result Tree) (s : S) : result unit * S :=
  match (match root with Err e => fn path (Err e) s | Ok t => walkDir path t s end) with
  | (Stop e, s) => (Err e, s)
  | (_, s) => (Ok tt, s)
  end.
End Walk.

Definition is_permission (e : goerror) : bool := errors_Is e "permission denied".

Definition walkPermissionPolicy (err : option goerror) : Walked :=
  match err with
  | None => Continue
  | Some e => if is_permission e then SkipDir else Stop e
  end.

(** ** The host *)

(** [os.Stat] of a path (whether it is a directory), the tree [WalkDir] meets, the
    watcher factory, [watcher.Add] and [filepath.Match]. *)
Class TreeHost (W : Type) := {
  stat_source : string -> W -> result bool;
  tree_at : string -> W -> result Tree;
  new_watcher : W -> result unit * W;
  add_watch : string -> W -> result unit * W;
  match_name : string -> string -> bool
}.

Section Host.
Context {W : Type} {host : TreeHost W}.

Definition watchSourceExists (path : string) (w : W) : result unit :=
  match stat_source path w with
  | Err e => Err e
  | Ok isDir => if negb isDir then Err (ErrNew "watch source is not a directory") else Ok tt
  end.

(** ** Registering directories *)

Definition watch_visit (path : string) (entry : result Tree) (w : W) : Walked * W :=
  match entry with
  | Err e => (walkPermissionPolicy (Some e), w)
  | Ok t =>
      if node_dir t then let (r, w) := add_watch path w in (walkPermissionPolicy (err_of r), w)
      else (Continue, w)
  end.

Definition add_directories (root : string) (w : W) : result unit * W := WalkDir watch_visit root (tree_at root w) w.

(** The host of the watch manager. *)
#[export] Instance tree_watch_host : WatchHost W := {|
  resolvePath := hostFilesystemPath;
  checkSource path w := (watchSourceExists path w, w);
  newWatcher := new_watcher;
  addWatch := add_watch;
  addWatchDirectories := add_directories;
  filepath_Match := match_name
|}.

(** ** The signature *)

Definition record_text (r : string * FileInfo) : string :=
  r.1 +:+ String nul (fi_type r.2 +:+ String nul (Itoa (fi_size r.2) +:+ String nul (Itoa (fi_mtime r.2) +:+ newline))).

(** The entries counted and the bytes written to the hash. *)
Definition signature_visit (root : string) (globs : list string) (limit : Z) (path : string) (entry : result Tree)
    (st : Z * string) : Walked * (Z * string) :=
  match entry with
  | Err e => (walkPermissionPolicy (Some e), st)
  | Ok t =>
      let (entries, data) := st in
      let entries := (entries + 1)%Z in
      if (entries >? limit)%Z
      then (Stop (ErrNew ("directory signature entry limit exceeded: " +:+ Itoa limit)), (entries, data))
      else if samePath path root || negb (matchesWatch (W:=W) globs path) then (Continue, (entries, data))
      else match node_info t with
      | Err e => if is_permission e then (Continue, (entries, data)) else (Stop e, (entries, data))
      | Ok info =>
          match Rel root path with
          | None => (Stop (ErrNew ("Rel: can't make " +:+ path +:+ " relative to " +:+ root)), (entries, data))
          | Some rel => (Continue, (entries, data +:+ record_text (rel, info)))
          end
      end
  end.

Definition directorySignatureWithLimit `{!Crypto} (root : string) (globs : list string) (limit : Z) (w : W) : result string :=
  if (limit <=? 0)%Z then Err (ErrNew "directory signature limit must be positive")
  else match WalkDir (signature_visit root globs limit) root (tree_at root w) (0%Z, "") with
  | (Err e, _) => Err e
  | (Ok _, (_, data)) => Ok (EncodeToString (Sum256 data))
  end.

Definition directorySignature `{!Crypto} (root : string) (globs : list string) (w : W) : result string :=
  directorySignatureWithLimit root globs 100000 w.

(** ** Polling *)

(** The start of [poll]: the first signature, empty after an error. *)
Definition poll_start (id : Z) (h : nat) (first : result string) (m : WatchManager) : string * WatchManager :=
  match first with Err e => ("", degrade id h (Some e) m) | Ok first => (first, m) end.

(** A tick of the worker of a handle on the host as it is. *)
Definition poll_host `{!Crypto} (id : Z) (h : nat) (spec : watchSpec) (last : string) (w : W) (m : WatchManager) :
    string * WatchManager :=
  poll_tick id h last (directorySignature (ws_viewSource spec) (ws_globs spec) w) m.
End Host.
