(* ===== verification/WatchTreeProofs.v ===== *)
(** * Properties of the directory walks

    Which directories are registered with a watcher, when a signature is given,
    and that two signatures differ exactly when the metadata they stand for do. *)

From S2P Require Import Prelude GoStrings Model LogBuffer AtomicFile JobRepository HostCommand Capabilities ExecutionPlan.
From S2P Require Import RunService Scheduler WatchManager WatchManagerProofs WatchSteps HostFiles App Auth Secrets Remotes RemotesProofs WatchTree.

(** Induction on a tree, with the entries of a directory all at once. *)
Section Induction.
Context (P : Tree -> Prop).
Context (Hnode : forall isDir info listing entries, Forall (fun e => P e.2) entries -> P (Node isDir info listing entries)).
Fixpoint Tree_entries_ind (t : Tree) : P t :=
  match t with
  | Node isDir info listing entries =>
      Hnode isDir info listing entries
        ((fix go (l : list (string * Tree)) : Forall (fun e => P e.2) l :=
            match l with
            | [] => Forall_nil_2 _
            | e :: l => Forall_cons_2 _ _ _ (Tree_entries_ind e.2) (go l)
            end) entries)
  end.
End Induction.

(** The entries a walk meets that is not stopped and skips what it may not list,
    in its order. *)
Fixpoint met_entries (path : string) (t : Tree) : list (string * Tree) :=
  match t with
  | Node isDir info listing entries =>
      (path, t) ::
      match listing with
      | None => if isDir then flat_map (fun e => met_entries (PathJoin [path; e.1]) e.2) entries else []
      | Some _ => []
      end
  end.

(** ** The signature *)

Section Signature.
Context {W : Type} {host : TreeHost W}.
Context (root : string) (globs : list string) (limit : Z).

Definition considered (path : string) : bool := negb (samePath path root || negb (matchesWatch (W:=W) globs path)).

(** What stops the walk at an entry, or when its entries are listed. *)
Definition visit_fault (e : string * Tree) : bool :=
  considered e.1 &&
  match node_info e.2 with Err err => negb (is_permission err) | Ok _ => bool_decide (Rel root e.1 = None) end.
Definition listing_fault (e : string * Tree) : bool :=
  node_dir e.2 && match node_listing e.2 with Some err => negb (is_permission err) | None => false end.
Definition fault (e : string * Tree) : bool := visit_fault e || listing_fault e.

Definition record_of (e : string * Tree) : option (string * FileInfo) :=
  if considered e.1 then
    match node_info e.2, Rel root e.1 with Ok info, Some rel => Some (rel, info) | _, _ => None end
  else None.

Definition cat_records (l : list (string * FileInfo)) : string := fold_right (fun r rest => record_text r +:+ rest) "" l.

Definition within (k : Z) (l : list (string * Tree)) : Prop :=
  (k + Z.of_nat (length l) <= limit)%Z /\ Forall (fun e => fault e = false) l.

Definition walk_meets (k : Z) (data : string) (l : list (string * Tree)) (out : Walked * (Z * string)) : Prop :=
  match out with
  | (Continue, st) => within k l /\ st = ((k + Z.of_nat (length l))%Z, data +:+ cat_records (omap record_of l))
  | (SkipDir, _) => False
  | (Stop _, _) => ~ within k l
  end.

Lemma cat_records_app l l' : cat_records (l ++ l') = cat_records l +:+ cat_records l'.
Proof. induction l as [|r l IH]; [done|]. cbn [app cat_records fold_right] in *. unfold cat_records in *. by rewrite IH, app_assoc_str. Qed.

Lemma walk_meets_app k data l l' st out :
  walk_meets k data l (Continue, st) -> walk_meets st.1 st.2 l' out -> walk_meets k data (l ++ l') out.
Proof.
  intros ([Hk Hf] & ->). destruct out as [[| |e] st']; cbn; [|done|]; unfold within; rewrite length_app, Forall_app.
  - intros ([Hk' Hf'] & ->). split; [split; [lia|done]|]. rewrite omap_app, cat_records_app, app_assoc_str. f_equal. lia.
  - intros Hn [Hk' [_ Hf']]. apply Hn. split; [lia|done].
Qed.

Lemma walk_meets_stop k data l l' e st st' : walk_meets k data l (Stop e, st) -> walk_meets k data (l ++ l') (Stop e, st').
Proof. cbn. unfold within. rewrite length_app, Forall_app. intros Hn [Hk [Hf _]]. apply Hn. split; [lia|done]. Qed.

Lemma visit_cases path t k data :
  (exists e st, signature_visit root globs limit path (Ok t) (k, data) = (Stop e, st) /\
     ((limit < k + 1)%Z \/ visit_fault (path, t) = true)) \/
  signature_visit root globs limit path (Ok t) (k, data) =
    (Continue, ((k + 1)%Z, data +:+ cat_records (omap record_of [(path, t)]))) /\ (k + 1 <= limit)%Z /\ visit_fault (path, t) = false.
Proof.
  unfold signature_visit, visit_fault, record_of. cbn [omap list_omap fst snd].
  destruct (k + 1 >? limit)%Z eqn:E; [left; do 2 eexists; split; [done|left; lia]|].
  assert (k + 1 <= limit)%Z by lia. unfold considered.
  destruct (samePath path root || negb (matchesWatch (W:=W) globs path)); cbn [negb andb]; [right; by rewrite app_empty_r|].
  destruct (node_info t) as [info|err].
  - unfold record_of. destruct (Rel root path) as [rel|]; [right|left; do 2 eexists; split; [done|by right]].
    cbn. by rewrite app_empty_r.
  - destruct (is_permission err); [right; by rewrite app_empty_r|left; do 2 eexists; split; [done|by right]].
Qed.

Lemma signature_entries path entries :
  Forall (fun e => forall p k data, (k <= limit)%Z ->
    walk_meets k data (met_entries p e.2) (walkDir (signature_visit root globs limit) p e.2 (k, data))) entries ->
  forall k data, (k <= limit)%Z ->
  walk_meets k data (flat_map (fun e => met_entries (PathJoin [path; e.1]) e.2) entries)
    (walk_entries (walkDir (signature_visit root globs limit)) path entries (k, data)).
Proof.
  intros H. induction H as [|[name t] entries Ht _ IH]; intros k data Hk; cbn [flat_map walk_entries fst snd].
  - cbn. rewrite app_empty_r. split; [split; [cbn; lia|constructor]|]. f_equal. lia.
  - specialize (Ht (PathJoin [path; name]) k data Hk). cbn [snd] in Ht.
    destruct (walkDir _ _ t _) as [[| |e] st]; [|done|by eapply walk_meets_stop].
    destruct st as [k' data']. eapply walk_meets_app; [exact Ht|]. apply IH. destruct Ht as [[Hk' _] [= -> _]]. lia.
Qed.

Lemma signature_walk t : forall path k data, (k <= limit)%Z ->
  walk_meets k data (met_entries path t) (walkDir (signature_visit root globs limit) path t (k, data)).
Proof.
  induction t as [isDir info listing entries IH] using Tree_entries_ind. intros path k data Hk.
  cbn [walkDir met_entries]. set (t := Node isDir info listing entries) in *.
  destruct (visit_cases path t k data) as [(e & st & -> & Hstop)|(-> & Hk1 & Hv)].
  { cbn. unfold within. rewrite Forall_cons. cbn. intros [Hl [Hf _]]. destruct Hstop as [?|Hv]; [lia|].
    unfold fault in Hf. by rewrite Hv in Hf. }
  assert (walk_meets k data [(path, t)] (Continue, ((k + 1)%Z, data +:+ cat_records (omap record_of [(path, t)]))) \/
          listing_fault (path, t) = true) as [Hone|Hbad].
  { destruct (listing_fault (path, t)) eqn:El; [by right|left]. cbn. split; [|done]. split; [done|].
    apply Forall_singleton. unfold fault. by rewrite Hv, El. }
  - destruct isDir; [|by destruct listing]. destruct listing as [e|]; cbn [negb signature_visit walkPermissionPolicy].
    + destruct Hone as [[_ Hf] _]. destruct (is_permission e) eqn:Ee.
      * split; [|done]. split; [done|]. exact Hf.
      * exfalso. apply Forall_inv in Hf. unfold fault, listing_fault, t in Hf. cbn [fst snd node_dir node_listing andb] in Hf. rewrite Ee in Hf. change (negb false) with true in Hf. by rewrite orb_true_r in Hf.
    + eapply (walk_meets_app k data [(path, t)]); [exact Hone|]. cbn [fst snd]. by apply signature_entries.
  - unfold listing_fault, t in Hbad. cbn in Hbad. destruct isDir, listing as [e|]; try done. cbn [andb] in Hbad.
    apply negb_true_iff in Hbad. cbn [negb signature_visit walkPermissionPolicy]. rewrite Hbad. cbn. unfold within.
    rewrite Forall_singleton. intros [_ Hf]. unfold fault, listing_fault, t in Hf. cbn [fst snd node_dir node_listing andb] in Hf. rewrite Hbad in Hf. change (negb false) with true in Hf.
    by rewrite orb_true_r in Hf.
Qed.
End Signature.

(** ** What a signature stands for *)

Lemma hex_digit_value n : (0 <= n < 16)%Z -> digit_of (hex_digit n) = Some n.
Proof.
  intros H. rewrite <-(Z2Nat.id n) by lia. assert (Z.to_nat n < 16)%nat as Hn by lia.
  generalize dependent (Z.to_nat n). intros k Hk. do 16 (destruct k as [|k]; [by vm_compute|]). lia.
Qed.

Lemma EncodeToString_inj a b : EncodeToString a = EncodeToString b -> a = b.
Proof.
  revert b. induction a as [|c a IH]; intros [|d b]; [done..|]. cbn [EncodeToString]. intros [= H1 H2 H3].
  f_equal; [|by apply IH]. pose proof (byte_val_range c). pose proof (byte_val_range d).
  apply (f_equal digit_of) in H1, H2. rewrite !hex_digit_value in H1, H2 by (Z.to_euclidean_division_equations; lia).
  injection H1 as H1. injection H2 as H2. rewrite <-(byte_of_val c), <-(byte_of_val d). f_equal.
  Z.to_euclidean_division_equations. lia.
Qed.

Definition no_nul (s : string) : Prop := has_byte nul s = false.

Lemma has_byte_Split c sep s : has_byte c s = false -> Forall (fun x => has_byte c x = false) (Split sep s).
Proof.
  induction s as [|d s IH]; [by constructor|]. intros H.
  change (has_byte c (str1 d +:+ s) = false) in H. rewrite has_byte_app in H. apply orb_false_iff in H as [Hd Hs].
  specialize (IH Hs). cbn [Split]. destruct (ascii_eqb d sep); [by constructor|].
  destruct (Split sep s) as [|x l]; [by constructor|]. apply Forall_cons in IH as [Hx Hl]. constructor; [|done].
  change (has_byte c (str1 d +:+ x) = false). by rewrite has_byte_app, Hd, Hx.
Qed.

Lemma has_byte_Join c sep l : has_byte c sep = false -> Forall (fun x => has_byte c x = false) l -> has_byte c (Join sep l) = false.
Proof.
  intros Hsep H. induction H as [|x l Hx Hl IH]; [done|]. destruct l as [|y l]; [done|].
  rewrite Join_cons by done. by rewrite !has_byte_app, Hx, Hsep.
Qed.

Lemma components_no_nul p : no_nul p -> Forall no_nul (path_components p).
Proof.
  intros Hp. unfold path_components. apply Forall_rev. apply (has_byte_Split _ slash) in Hp.
  assert (forall acc, Forall no_nul acc -> Forall no_nul (fold_left (clean_step (IsAbs p)) (Split slash p) acc)) as H; [|by apply H].
  induction Hp as [|c l Hc _ IH]; intros acc Hacc; [done|]. apply IH. unfold clean_step.
  destruct (string_eqb c "" || string_eqb c "."); [done|]. destruct (string_eqb c ".."); [|by constructor].
  destruct Hacc as [|top rest Htop Hrest]; [destruct (IsAbs p); by repeat constructor|].
  destruct (string_eqb top ".."); [by repeat constructor|done].
Qed.

Lemma strip_common_no_nul a b : Forall no_nul b -> Forall no_nul (strip_common a b).2.
Proof.
  revert b. induction a as [|x a IH]; intros b Hb; [done|]. destruct Hb as [|y b Hy Hb]; [done|].
  cbn. destruct (string_eqb x y); [by apply IH|by constructor].
Qed.

Lemma Rel_no_nul base targ rel : no_nul targ -> Rel base targ = Some rel -> no_nul rel.
Proof.
  intros Ht. unfold Rel. destruct (negb _); [done|]. destruct (string_eqb _ _); [by intros [= <-]|].
  pose proof (strip_common_no_nul (path_components base) _ (components_no_nul targ Ht)) as Hs.
  destruct (strip_common _ _) as [b t]. destruct (string_eqb _ ".."); [done|]. intros [= <-].
  apply has_byte_Join; [done|]. apply Forall_app. split; [|done]. apply Forall_map, Forall_true. done.
Qed.

(** What an operating system gives: no NUL in a path or the text of a type, and
    numbers of 64 bits. *)
Definition os_info (i : FileInfo) : Prop := no_nul (fi_type i) /\ in_s64 (fi_size i) /\ in_s64 (fi_mtime i).
Definition os_tree (root : string) (t : Tree) : Prop :=
  Forall (fun e => no_nul e.1 /\ forall i, node_info e.2 = Ok i -> os_info i) (met_entries root t).

Lemma record_text_inj r r' s s' : no_nul r.1 -> no_nul r'.1 -> os_info r.2 -> os_info r'.2 ->
  record_text r +:+ s = record_text r' +:+ s' -> r = r' /\ s = s'.
Proof.
  destruct r as [rel [ty size mtime]], r' as [rel' [ty' size' mtime']]. unfold no_nul, os_info. cbn [fst snd fi_type fi_size fi_mtime].
  intros H1 H1' (H2 & H3 & H4) (H2' & H3' & H4'). unfold record_text. cbn [fst snd fi_type fi_size fi_mtime]. change newline with (str1 LF).
  rewrite !app_assoc_str, !app_cons, !app_assoc_str, !app_cons, !app_assoc_str, !app_cons, !app_assoc_str. intros H.
  apply (f_equal (Cut nul)) in H. rewrite !Cut_app in H by done. injection H as -> H.
  apply (f_equal (Cut nul)) in H. rewrite !Cut_app in H by done. injection H as -> H.
  apply (f_equal (Cut nul)) in H. rewrite !Cut_app in H by by apply Itoa_without. injection H as Hs H.
  apply (f_equal (Cut LF)) in H. unfold str1 in H. rewrite !app_cons, !app_empty_l, !Cut_app in H by by apply Itoa_without.
  injection H as Hm ->. apply Itoa_inj in Hs; [|done..]. apply Itoa_inj in Hm; [|done..]. by subst.
Qed.

Lemma cat_records_inj l l' : Forall (fun r => no_nul r.1 /\ os_info r.2) l -> Forall (fun r => no_nul r.1 /\ os_info r.2) l' ->
  cat_records l = cat_records l' -> l = l'.
Proof.
  intros Hl. revert l'. induction Hl as [|r l [Hr Hi] _ IH]; intros l' Hl'.
  - destruct Hl' as [|r' l' _ _]; [done|]. destruct r' as [[|c rel] i]; done.
  - destruct Hl' as [|r' l' [Hr' Hi'] Hl']; [destruct r as [[|c rel] i]; done|].
    cbn [cat_records fold_right]. intros H. apply record_text_inj in H as [-> H]; [|done..]. f_equal. by apply IH.
Qed.

(** ** The poller *)

Section Poller.
Context {W : Type} {host : TreeHost W} {crypto : Crypto}.

Definition records (root : string) (globs : list string) (t : Tree) : list (string * FileInfo) :=
  omap (record_of root globs) (met_entries root t).

(** The walk meets at most the limit, and nothing stops it. *)
Definition complete (root : string) (globs : list string) (t : Tree) : Prop := within root globs 100000 0 (met_entries root t).

Lemma signature_given root globs w t s : tree_at root w = Ok t ->
  directorySignature root globs w = Ok s <->
  complete root globs t /\ s = EncodeToString (Sum256 (cat_records (records root globs t))).
Proof.
  intros Ht. unfold directorySignature, directorySignatureWithLimit, complete, records. cbn [Z.leb Z.compare]. unfold WalkDir. rewrite Ht.
  pose proof (signature_walk root globs 100000 t root 0 "" ltac:(lia)) as H.
  destruct (walkDir _ _ t _) as [[| |e] st]; [|done|split; [done|by intros [? _]]].
  destruct H as [Hw ->]. rewrite app_empty_l. split; [by intros [= <-]|by intros [_ ->]].
Qed.

Lemma records_os root globs t : os_tree root t -> Forall (fun r => no_nul r.1 /\ os_info r.2) (records root globs t).
Proof.
  intros H. apply Forall_forall. intros r Hr. apply list_elem_of_omap in Hr as (e & He & Hr).
  unfold os_tree in H. rewrite Forall_forall in H. destruct (H e He) as [Hp Hi]. unfold record_of in Hr.
  destruct (considered root globs e.1); [|done]. destruct (node_info e.2) as [i|] eqn:Ei; [|done].
  destruct (Rel root e.1) as [rel|] eqn:Er; [|done]. injection Hr as <-. split; [by eapply Rel_no_nul|by apply Hi].
Qed.

(** Two texts with the same SHA-256. *)
Definition collision : Prop := exists a b, a <> b /\ Sum256 a = Sum256 b.

(** C20: the poller notices changes.  Let a worker have the signature of an earlier
    tree.  When the walk of the tree as it is now is stopped by an error or by
    the limit, a tick degrades the watcher and keeps the signature.  Otherwise it
    keeps the new one and re-arms the timer exactly when the names, types, sizes
    and times of the matching entries changed, unless SHA-256 has a collision. *)
Theorem poll_notices id h spec last w w' t t' m :
  let root := ws_viewSource spec in
  let globs := ws_globs spec in
  tree_at root w = Ok t -> tree_at root w' = Ok t' -> os_tree root t -> os_tree root t' ->
  directorySignature root globs w = Ok last ->
  let (last', m') := poll_host id h spec last w' m in
  (~ complete root globs t' /\ last' = last /\ exists e, m' = degrade id h (Some e) m) \/
  (complete root globs t' /\ directorySignature root globs w' = Ok last' /\
   (records root globs t' = records root globs t /\ m' = m \/
    records root globs t' <> records root globs t /\ (m' = signalHandle id h m \/ collision))).
Proof.
  intros root globs Ht Ht' Ho Ho' Hlast. unfold poll_host, poll_tick. fold root globs.
  pose proof (signature_given root globs w t last Ht) as Hs. apply Hs in Hlast as [_ ->].
  destruct (directorySignature root globs w') as [next|e] eqn:En.
  - apply (signature_given root globs w' t' next Ht') in En as [Hc ->]. destruct (string_eqb _ _) eqn:E; str_eqb; right.
    + split; [done|]. split; [by rewrite E|].
      destruct (decide (cat_records (records root globs t') = cat_records (records root globs t))) as [Heq|Hne].
      * left. split; [|done]. by apply cat_records_inj in Heq; [|apply records_os..].
      * right. split; [congruence|]. right. apply EncodeToString_inj in E. by do 2 eexists.
    + split; [done|]. split; [done|]. right. split; [congruence|by left].
  - left. split_and!; [|done|by eexists]. intros Hc.
    pose proof (proj2 (signature_given root globs w' t' _ Ht') (conj Hc eq_refl)). congruence.
Qed.
End Poller.

(** ** Registered directories *)

Section Directories.
Context {W : Type} {host : TreeHost W}.
(** What registering a path answers, during one walk. *)
Context (outcome : string -> result unit) (Hout : forall p w, (add_watch p w).1 = outcome p).

(** The entries below one, through directories that are registered and listed. *)
Inductive reached : string -> Tree -> string -> Tree -> Prop :=
  | reached_here p t : reached p t p t
  | reached_in p t name c q n :
      node_dir t = true -> outcome p = Ok tt -> node_listing t = None -> (name, c) ∈ node_entries t ->
      reached (PathJoin [p; name]) c q n -> reached p t q n.

Definition add_all (calls : list string) (w : W) : W := fold_left (fun w p => (add_watch p w).2) calls w.

(** Nothing but a missing permission was met at a directory. *)
Definition permitted (err : option goerror) : Prop := match err with Some e => is_permission e = true | None => True end.
Definition fine (p : string) (n : Tree) : Prop :=
  permitted (err_of (outcome p)) /\ (outcome p = Ok tt -> permitted (node_listing n)).

Definition registers (inside : string -> Tree -> Prop) (w : W) (out : Walked * W) : Prop :=
  exists calls, out.2 = add_all calls w /\
  (forall q, q ∈ calls -> exists n, inside q n /\ node_dir n = true) /\
  match out.1 with
  | Continue => forall q n, inside q n -> node_dir n = true -> q ∈ calls /\ fine q n
  | SkipDir => False
  | Stop e => is_permission e = false /\
              exists q n, q ∈ calls /\ inside q n /\ node_dir n = true /\ (outcome q = Err e \/ node_listing n = Some e)
  end.

Lemma registers_entries path entries :
  Forall (fun e => forall p w, registers (reached p e.2) w (walkDir watch_visit p e.2 w)) entries ->
  forall w, registers (fun q n => exists name c, (name, c) ∈ entries /\ reached (PathJoin [path; name]) c q n) w
                      (walk_entries (walkDir watch_visit) path entries w).
Proof.
  intros H. induction H as [|[name t] entries Ht _ IH]; intros w; cbn [walk_entries].
  { exists []. split_and!; [done|by intros q ?%elem_of_nil|]. by intros q n (? & ? & ?%elem_of_nil & _). }
  destruct (Ht (PathJoin [path; name]) w) as (calls & Hw & Hin & Hres). cbn [snd] in *.
  destruct (walkDir _ _ t w) as [[| |e] w1]; cbn [fst snd] in *; [|done|].
  - destruct (IH w1) as (calls' & Hw' & Hin' & Hres'). exists (calls ++ calls'). split; [|split].
    + rewrite Hw', Hw. unfold add_all. by rewrite fold_left_app.
    + intros q [Hq|Hq]%elem_of_app.
      * destruct (Hin q Hq) as (n & Hn & Hd). exists n. split; [|done]. exists name, t. split; [by left|done].
      * destruct (Hin' q Hq) as (n & (name' & c & Hc & Hn) & Hd). exists n. split; [|done]. exists name', c. split; [by right|done].
    + destruct (walk_entries _ _ _ w1) as [[| |e] w2]; cbn [fst snd] in *; [|done|].
      * intros q n (name' & c & Hc & Hn) Hd. rewrite elem_of_app. apply elem_of_cons in Hc as [[= -> ->]|Hc].
        -- destruct (Hres q n Hn Hd). auto.
        -- destruct (Hres' q n (ex_intro _ name' (ex_intro _ c (conj Hc Hn))) Hd). auto.
      * destruct Hres' as [He (q & n & Hq & (name' & c & Hc & Hn) & Hrest)]. split; [done|]. exists q, n.
        split; [apply elem_of_app; by right|]. split; [|done]. exists name', c. split; [by right|done].
  - exists calls. split; [done|]. split.
    + intros q Hq. destruct (Hin q Hq) as (n & Hn & Hd). exists n. split; [|done]. exists name, t. split; [by left|done].
    + destruct Hres as [He (q & n & Hq & Hn & Hrest)]. split; [done|]. exists q, n. split; [done|]. split; [|done].
      exists name, t. split; [by left|done].
Qed.

Lemma registers_walk t : forall path w, registers (reached path t) w (walkDir watch_visit path t w).
Proof.
  induction t as [isDir info listing entries IH] using Tree_entries_ind. intros path w. cbn [walkDir].
  set (t := Node isDir info listing entries). unfold watch_visit at 1. fold t. change (node_dir t) with isDir.
  destruct isDir; cbn [negb].
  2:{ exists []. split_and!; [done|by intros q ?%elem_of_nil|]. intros q n Hn Hd. exfalso. by inversion Hn; subst. }
  destruct (add_watch path w) as [r w1] eqn:Ea. pose proof (Hout path w) as Ho. rewrite Ea in Ho. cbn [fst] in Ho.
  assert (add_all [path] w = w1) as Hone by (cbn; by rewrite Ea).
  assert (forall q, q ∈ [path] -> exists n, reached path t q n /\ node_dir n = true) as Hhere.
  { intros q ->%list_elem_of_singleton. exists t. by split; [constructor|]. }
  assert (forall (P : outcome path <> Ok tt \/ listing <> None) q n, reached path t q n -> q = path /\ n = t) as Honly.
  { intros Hno q n Hn. inversion Hn; subst; [done|]. cbn in *. by destruct Hno. }
  destruct r as [[]|e]; cbn [err_of walkPermissionPolicy].
  - destruct listing as [e|].
    + cbn [watch_visit walkPermissionPolicy]. destruct (is_permission e) eqn:Ee; exists [path]; (split; [done|]); (split; [exact Hhere|]); cbn [fst].
      * intros q n Hn _. destruct (Honly ltac:(by right) q n Hn) as [-> ->]. split; [by left|]. split; [by rewrite <-Ho|]. by intros _.
      * split; [done|]. exists path, t. split_and!; [by left|by constructor|done|by right].
    + destruct (registers_entries path entries IH w1) as (calls & Hw & Hin & Hres). exists (path :: calls). split; [|split].
      * rewrite Hw. change (path :: calls) with ([path] ++ calls). unfold add_all. rewrite fold_left_app. fold (add_all [path] w). by rewrite Hone.
      * intros q [->|Hq]%elem_of_cons; [by apply Hhere; left|]. destruct (Hin q Hq) as (n & (name & c & Hc & Hn) & Hd).
        exists n. split; [|done]. by eapply reached_in.
      * destruct (walk_entries _ _ _ w1) as [[| |e] w2]; cbn [fst snd] in *; [|done|].
        -- intros q n Hn Hd. inversion Hn as [|p' t' name c q' n' ? ? ? Hc Hn']; subst.
           ++ split; [by left|]. split; [by rewrite <-Ho|done].
           ++ destruct (Hres q n (ex_intro _ name (ex_intro _ c (conj Hc Hn'))) Hd). split; [by right|done].
        -- destruct Hres as [He (q & n & Hq & (name & c & Hc & Hn) & Hrest)]. split; [done|]. exists q, n.
           split; [by right|]. split; [by eapply reached_in|done].
  - destruct (is_permission e) eqn:Ee; exists [path]; (split; [done|]); (split; [exact Hhere|]); cbn [fst].
    + intros q n Hn _. destruct (Honly ltac:(left; congruence) q n Hn) as [-> ->]. split; [by left|].
      split; [by rewrite <-Ho|]. intros Hx. congruence.
    + split; [done|]. exists path, t. split_and!; [by left|by constructor|done|by left].
Qed.
End Directories.

(** Which directories are watched.  When what registering answers depends on
    the path alone, the directories registered are those reached from the root
    through directories that were registered and listed; without an error it is
    all of them, and nothing but missing permissions was met, each of which hides
    the tree below it and nothing else; an error is the first other one, from a
    directory reached. *)
Theorem watch_directories_exact {W} {host : TreeHost W} outcome root w t :
  (forall p w, (add_watch p w).1 = outcome p) -> tree_at root w = Ok t ->
  let (r, w') := add_directories root w in
  exists calls, w' = add_all calls w /\
  (forall q, q ∈ calls -> exists n, reached outcome root t q n /\ node_dir n = true) /\
  match r with
  | Ok _ => forall q n, reached outcome root t q n -> node_dir n = true -> q ∈ calls /\ fine outcome q n
  | Err e => is_permission e = false /\
             exists q n, q ∈ calls /\ reached outcome root t q n /\ node_dir n = true /\ (outcome q = Err e \/ node_listing n = Some e)
  end.
Proof.
  intros Hout Ht. unfold add_directories, WalkDir. rewrite Ht.
  pose proof (registers_walk outcome Hout t root w) as H. destruct (walkDir watch_visit root t w) as [sig w'].
  by destruct sig; destruct H as (calls & H1 & H2 & H3); exists calls.
Qed.

(** ** What the walks do not see *)

(** A source that is a symbolic link to a directory passes the check of the
    source, which follows links; the walks do not: no directory is registered, and
    every signature is the same. *)
Lemma linked_source_unseen {W} {host : TreeHost W} {crypto : Crypto} root globs w w' i l es i' l' es' :
  stat_source root w = Ok true -> tree_at root w = Ok (Node false i l es) -> tree_at root w' = Ok (Node false i' l' es') ->
  watchSourceExists root w = Ok tt /\ add_directories root w = (Ok tt, w) /\
  directorySignature root globs w = directorySignature root globs w'.
Proof.
  intros Hs Ht Ht'. unfold watchSourceExists, add_directories, WalkDir. rewrite Hs, Ht. split_and!; [done..|].
  assert (forall v j k fs, tree_at root v = Ok (Node false j k fs) -> directorySignature root globs v = Ok (EncodeToString (Sum256 ""))) as H.
  { intros v j k fs Hv. unfold directorySignature, directorySignatureWithLimit, WalkDir. rewrite Hv.
    cbn [walkDir signature_visit Z.leb Z.compare]. change (0 + 1 >? 100000)%Z with false. cbn iota.
    unfold samePath. by rewrite string_eqb_refl. }
  by erewrite !H by done.
Qed.

(** A degraded poller is not revived by the ticks that follow, whatever they find:
    the watcher stays degraded, the timer is not armed and no callback passes. *)
Lemma degraded_poll_stuck {W} {host : TreeHost W} {crypto : Crypto} id h spec last w m :
  id ∈ wm_degraded m ->
  let m' := (poll_host id h spec last w m).2 in
  id ∈ wm_degraded m' /\ wm_handles m' = wm_handles m /\ fire_check id h m' = false.
Proof.
  intros Hid. unfold poll_host, poll_tick.
  assert (forall x, id ∈ wm_degraded x -> fire_check id h x = false) as Hf.
  { intros x Hx. unfold fire_check. rewrite (bool_decide_eq_true_2 _ Hx). by rewrite orb_true_r. }
  destruct (directorySignature _ _ w) as [next|e]; [destruct (string_eqb next last); [by auto|]|]; cbn [snd].
  - unfold signalHandle. rewrite (bool_decide_eq_true_2 _ Hid), orb_true_r. by auto.
  - unfold degrade, publishError. destruct (_ || _); [by auto|]. cbn. split_and!; [set_solver|done|]. apply Hf. cbn. set_solver.
Qed.

(** ** Witnesses *)

(** A source with a file, a directory that may not be watched, and one more file
    below another directory, whose size is given; and the paths registered. *)
Definition demo_leaf (size : Z) : Tree := Node false (Ok (MkFileInfo "----------" size 5)) None [].
Definition demo_folder (entries : list (string * Tree)) : Tree := Node true (Ok (MkFileInfo "d---------" 0 3)) None entries.
Definition demo_tree (size : Z) : Tree :=
  demo_folder [("a.txt", demo_leaf 1); ("locked", demo_folder [("inner", demo_folder [])]); ("sub", demo_folder [("b.txt", demo_leaf size)])].

Record demo_world := MkDemoWorld { dw_size : Z; dw_watched : list string }.

#[export] Instance demo_tree_host : TreeHost demo_world := {|
  stat_source _ _ := Ok true;
  tree_at _ w := Ok (demo_tree (dw_size w));
  new_watcher w := (Ok tt, w);
  add_watch p w := if string_eqb p "/proc/1/root/srv/in/locked" then (Err (ErrVar "permission denied"), w)
                   else (Ok tt, MkDemoWorld (dw_size w) (dw_watched w ++ [p]));
  match_name := string_eqb
|}.

Lemma demo_tree_os size : in_s64 size -> os_tree "/proc/1/root/srv/in" (demo_tree size).
Proof.
  intros Hs. unfold os_tree. cbn [met_entries demo_tree demo_folder demo_leaf flat_map app fst snd].
  repeat (apply Forall_cons; split; [split; [by vm_compute|cbn; intros ? [= <-]; split_and!; [done|by cbn|by cbn]]|]).
  by apply Forall_nil.
Qed.

Lemma poll_notices_witness :
  let w := MkDemoWorld 7 [] in
  let w' := MkDemoWorld 8 [] in
  let t' := demo_tree 8 in
  let root := ws_viewSource demo_wanted in
  let last := default "" (match directorySignature root [] w with Ok s => Some s | Err _ => None end) in
  let (last', m') := poll_host 1 0%nat demo_wanted last w' demo_ready in
  (~ complete root [] t' /\ last' = last /\ exists e, m' = degrade 1 0%nat (Some e) demo_ready) \/
  (complete root [] t' /\ directorySignature root [] w' = Ok last' /\
   (records root [] t' = records root [] (demo_tree 7) /\ m' = demo_ready \/
    records root [] t' <> records root [] (demo_tree 7) /\ (m' = signalHandle 1 0%nat demo_ready \/ collision))).
Proof.
  intros w w' t' root last.
  apply (poll_notices 1 0%nat demo_wanted last w w' (demo_tree 7) t' demo_ready);
    [reflexivity|reflexivity|apply demo_tree_os; unfold in_s64, two63; lia..|vm_compute; reflexivity].
Defined.

Lemma watch_directories_exact_witness :
  let root := "/proc/1/root/srv/in" in
  let outcome p := if string_eqb p "/proc/1/root/srv/in/locked" then Err (ErrVar "permission denied") else Ok tt : result unit in
  let w := MkDemoWorld 7 [] in
  dw_watched (add_directories root w).2 = ["/proc/1/root/srv/in"; "/proc/1/root/srv/in/sub"] /\
  let (r, w') := add_directories root w in
  exists calls, w' = add_all calls w /\
  (forall q, q ∈ calls -> exists n, reached outcome root (demo_tree 7) q n /\ node_dir n = true) /\
  match r with
  | Ok _ => forall q n, reached outcome root (demo_tree 7) q n -> node_dir n = true -> q ∈ calls /\ fine outcome q n
  | Err e => is_permission e = false /\
             exists q n, q ∈ calls /\ reached outcome root (demo_tree 7) q n /\ node_dir n = true /\
                         (outcome q = Err e \/ node_listing n = Some e)
  end.
Proof.
  intros root outcome w. split; [vm_compute; reflexivity|].
  apply (watch_directories_exact outcome root w (demo_tree 7)); [|reflexivity].
  intros p v. unfold outcome. cbn. destruct (string_eqb p "/proc/1/root/srv/in/locked"); reflexivity.
Defined.
