(* ===== verification/WatchWorkers.v ===== *)
(** * The workers of a watch ([start] and [poll] of [watch_manager.go])

    A handle that is started gets a goroutine for its file events and one for its
    polling, as its mode asks.  Each is a loop over what it receives, until its
    context is done or a channel is closed.  Every prefix of a loop is a path of the
    step relation of [WatchSteps], so what is proved there holds of the workers. *)

From S2P Require Import Prelude GoStrings Model LogBuffer HostCommand Capabilities ExecutionPlan RunService Secrets.
From S2P Require Import Scheduler WatchManager WatchManagerProofs WatchSteps WatchTree.

(** What the [select] of the event worker finds. *)
Inductive WorkerInput :=
  | GotEvent (e : fsEvent) | EventsClosed | GotError (err : option goerror) | ErrorsClosed | WorkerDone.

(** The workers [start] starts: for events, for polling. *)
Definition start_workers (hd : watchHandle) : bool * bool :=
  (wh_watcher hd, string_eqb (ws_mode (wh_spec hd)) "poll" || string_eqb (ws_mode (wh_spec hd)) "hybrid").

Section Workers.
Context {W : Type} `{!WatchHost W}.
Context (id : Z) (h : nat) (spec : watchSpec).

(** Whether the worker returned, and what it did. *)
Fixpoint event_worker (inputs : list WorkerInput) (m : WatchManager) (w : W) : bool * WatchManager * W :=
  match inputs with
  | [] => (false, m, w)
  | GotEvent e :: inputs => let (m, w) := handleEvent id h spec e m w in event_worker inputs m w
  | GotError err :: inputs => event_worker inputs (degrade id h err m) w
  | EventsClosed :: _ | ErrorsClosed :: _ | WorkerDone :: _ => (true, m, w)
  end.

(** Each tick with the signature it gets; [None]: the context is done. *)
Fixpoint poll_loop (ticks : list (option (result string))) (last : string) (m : WatchManager) : bool * string * WatchManager :=
  match ticks with
  | [] => (false, last, m)
  | Some next :: ticks => let (last, m) := poll_tick id h last next m in poll_loop ticks last m
  | None :: _ => (true, last, m)
  end.
Definition poll_worker (first : result string) (ticks : list (option (result string))) (m : WatchManager) :
    bool * string * WatchManager :=
  let (last, m) := poll_start id h first m in poll_loop ticks last m.

(** ** The workers take steps *)

Lemma wsteps_trans (s s' s'' : watch_state) : wsteps s s' -> wsteps s' s'' -> wsteps s s''.
Proof. intros H1 H2. induction H2 as [|? ? ? _ IH Hstep]; [done|]. eapply wsteps_next; [by apply IH|exact Hstep]. Qed.
Lemma wsteps_one (s s' : watch_state) : wstep s s' -> wsteps s s'.
Proof. intros H. eapply wsteps_next; [apply wsteps_refl|exact H]. Qed.
Lemma set_m_same (s : watch_state) : set_m (wt_m s) s = s.
Proof. by destruct s. Qed.

Lemma event_worker_steps inputs : forall (s : watch_state) w, handle_spec h (wt_m s) = Some spec ->
  wsteps s (set_m (event_worker inputs (wt_m s) w).1.2 s).
Proof.
  induction inputs as [|x inputs IH]; intros s w Hs; [cbn [event_worker fst snd]; rewrite set_m_same; apply wsteps_refl|].
  destruct x as [e| |err| |]; cbn [event_worker fst snd]; try (rewrite set_m_same; apply wsteps_refl).
  - pose proof (step_event s id h spec e w Hs) as Hstep. pose proof (quiet_event id h spec e (wt_m s) w) as (_ & _ & _ & Hq & _).
    destruct (handleEvent id h spec e (wt_m s) w) as [m w']. cbn [fst] in *.
    eapply wsteps_trans; [by apply wsteps_one|]. specialize (IH (set_m m s) w'). cbn [wt_m set_m] in IH.
    rewrite Hq in IH. exact (IH Hs).
  - pose proof (quiet_degrade id h err (wt_m s)) as (_ & _ & _ & Hq & _).
    eapply wsteps_trans; [apply wsteps_one, (step_error s id h err)|]. specialize (IH (set_m (degrade id h err (wt_m s)) s) w).
    cbn [wt_m set_m] in IH. rewrite Hq in IH. exact (IH Hs).
Qed.

Lemma poll_loop_steps ticks : forall last (s : watch_state), wsteps s (set_m (poll_loop ticks last (wt_m s)).2 s).
Proof.
  induction ticks as [|[next|] ticks IH]; intros last s; cbn [poll_loop fst snd]; try (rewrite set_m_same; apply wsteps_refl).
  pose proof (step_poll s id h last next) as Hstep. destruct (poll_tick id h last next (wt_m s)) as [last' m].
  eapply wsteps_trans; [by apply wsteps_one|]. exact (IH last' (set_m m s)).
Qed.

Lemma poll_worker_steps first ticks (s : watch_state) : wsteps s (set_m (poll_worker first ticks (wt_m s)).2 s).
Proof.
  unfold poll_worker, poll_start. destruct first as [first|e]; [apply poll_loop_steps|].
  eapply wsteps_trans; [apply wsteps_one, (step_error s id h (Some e))|]. exact (poll_loop_steps ticks "" (set_m (degrade id h (Some e) (wt_m s)) s)).
Qed.

(** A worker reads nothing behind the end of its context or of a channel, and the
    poller compares with the last signature it got. *)
Lemma event_worker_ends before x after m w :
  x = EventsClosed \/ x = ErrorsClosed \/ x = WorkerDone ->
  event_worker (before ++ x :: after) m w = let '(ended, m, w) := event_worker before m w in (true, m, w).
Proof.
  intros Hx. revert m w. induction before as [|y before IH]; intros m w; cbn [app event_worker].
  - by destruct Hx as [->|[->| ->]].
  - destruct y as [e| |err| |]; try done. destruct (handleEvent id h spec e m w) as [m' w']. apply IH.
Qed.

Lemma poll_loop_last ticks : forall last m,
  (poll_loop (map Some ticks) last m).1.2 = default last (List.last (map Some (omap (fun r => match r with Ok s => Some s | Err _ => None end) ticks)) None).
Proof.
  assert (forall (l : list string) d, default d (List.last (map Some l) None) = List.last l d) as Hl.
  { induction l as [|a [|b l] IHl]; intros d; [done|done|]. apply (IHl d). }
  intros last m. rewrite Hl. revert last m. induction ticks as [|[s|e] ticks IH]; intros last m; [done| |]; cbn [map poll_loop poll_tick omap list_omap].
  - assert (forall (l : list string) (a d : string), List.last (a :: l) d = List.last l a) as Hc.
    { induction l as [|b l IHl]; intros a d; [done|]. change (List.last (a :: b :: l) d) with (List.last (b :: l) d). by rewrite !IHl. }
    rewrite Hc. case_goal; [|apply IH]. str_eqb. subst. apply IH.
  - apply IH.
Qed.
End Workers.
