(* ===== verification/WebRoutes.v ===== *)
(** * The routes of the server ([Handler], [handleV1Capabilities] of [app.go],
      [notify.go], [apiBrowse] and [env] of [main.go], [healthcheck.go])

    The table of routes behind the gate of [Auth.v], with the matching of
    [http.ServeMux] for paths without percent-encoding, and the routes that belong
    to no other component. *)

From S2P Require Import Prelude GoStrings Model LogBuffer AtomicFile JobRepository HostCommand Capabilities.
From S2P Require Import ExecutionPlan RunService History HostFiles Auth Scheduler JobApi.

(** ** The table *)

Inductive Route :=
  | V1Jobs | V1Job | V1Run | V1Events | V1Capabilities | LegacyJobs | LegacyJobByID | LegacyStatus | Browse | Engines
  | AuthStatusRoute | AuthRegister | AuthLogin | AuthLogout | Remotes | RemoteByID | RemoteProxy | SettingsRoute
  | ImportScan | SystemScan | SystemToggle | SystemDelete | SystemTrash | SystemRestore | Files.

(** [App.Handler] *)
Definition Handler : list (string * Route) :=
  [("/api/v1/jobs", V1Jobs); ("/api/v1/jobs/", V1Job); ("/api/v1/runs/", V1Run); ("/api/v1/events", V1Events);
   ("/api/v1/capabilities", V1Capabilities); ("/api/jobs", LegacyJobs); ("/api/jobs/", LegacyJobByID);
   ("/api/status", LegacyStatus); ("/api/browse", Browse); ("/api/engines", Engines);
   ("/api/auth/status", AuthStatusRoute); ("/api/auth/register", AuthRegister); ("/api/auth/login", AuthLogin);
   ("/api/auth/logout", AuthLogout); ("/api/remotes", Remotes); ("/api/remotes/", RemoteByID);
   ("/api/remote/", RemoteProxy); ("/api/settings", SettingsRoute); ("/api/import/scan", ImportScan);
   ("/api/system/scan", SystemScan); ("/api/system/toggle", SystemToggle); ("/api/system/delete", SystemDelete);
   ("/api/system/trash", SystemTrash); ("/api/system/restore", SystemRestore); ("/", Files)].

(** The pattern that matches: the path itself, or the longest that ends in a
    slash and that the path starts with. *)
Definition longer (a b : option (string * Route)) : option (string * Route) :=
  match a, b with
  | Some p, Some q => if (String.length p.1 <? String.length q.1)%nat then b else a
  | None, _ => b
  | _, None => a
  end.
Definition subtree (path : string) (p : string * Route) : bool := HasSuffix p.1 "/" && HasPrefix path p.1.
Definition match_path (path : string) (table : list (string * Route)) : option (string * Route) :=
  match List.find (fun p => string_eqb p.1 path) table with
  | Some p => Some p
  | None => fold_right (fun p best => if subtree path p then longer (Some p) best else best) None table
  end.

(** [http.cleanPath] *)
Definition cleanPath (p : string) : string :=
  if string_eqb p "" then "/"
  else
    let p := if HasPrefix p "/" then p else "/" +:+ p in
    let np := Clean p in
    if HasSuffix p "/" && negb (string_eqb np "/") then np +:+ "/" else np.

Inductive Dispatch := Redirected (path : string) | Routed (r : Route) | NoRoute.

Definition dispatch (table : list (string * Route)) (requested : string) : Dispatch :=
  let path := cleanPath requested in
  let found := match_path path table in
  let exact := match found with Some p => string_eqb p.1 path | None => false end in
  let slashed := path +:+ "/" in
  if negb exact && negb (HasSuffix path "/") &&
     match match_path slashed table with Some p => string_eqb p.1 slashed | None => false end
  then Redirected slashed
  else if negb (string_eqb path requested) then Redirected path
  else match found with Some p => Routed p.2 | None => NoRoute end.

(** The whole server: the gate, then the table. *)
Inductive Served := Answered (d : Dispatch) | Refused (g : Gate).
Definition serve_path (now : Z) (path : string) (cookie : option string) (w : AuthWorld) : Served * AuthWorld :=
  let (gate, w) := requireAuth now path cookie w in
  (match gate with Passes => Answered (dispatch Handler path) | _ => Refused gate end, w).

(** ** Capabilities, health *)

Definition handleV1Capabilities (r : Request) (report : CapabilityReport) : Response + CapabilityReport :=
  match requireMethod r [MethodGet] with Some resp => inl resp | None => inr report end.

Definition env (value default : string) : string := if negb (string_eqb value "") then value else default.

Definition health_url (port : string) : string := "http://127.0.0.1:" +:+ env port "8787" +:+ "/api/auth/status".
(** [answer]: the status of the response, which follows no redirect. *)
Definition checkHealth (answer : result Z) : result unit :=
  match answer with
  | Err e => Err e
  | Ok status =>
      if (status <? 200)%Z || (status >=? 300)%Z then Err (ErrNew ("health endpoint returned " +:+ Itoa status)) else Ok tt
  end.

(** ** Browsing directories *)

(** [os.Stat] and [os.ReadDir]: whether it is a directory; the names of the
    entries, and which of them are directories. *)
Class HostDirs (S : Type) := {
  stat_dir : string -> S -> result bool;
  read_dir : string -> S -> result (list (string * bool))
}.

Inductive BrowseResponse :=
  | BrowseError (text : string) (code : Z)
  | BrowseBody (path parent : string) (dirs : list string).

Definition visible_dirs (entries : list (string * bool)) : list string :=
  merge_sort string_le (map fst (List.filter (fun e => e.2 && negb (HasPrefix e.1 ".")) entries)).

Definition apiBrowse {S} `{!HostDirs S} (query : string) (s : S) : BrowseResponse :=
  let path := if string_eqb query "" then "/mnt" else query in
  match hostFilesystemPath path with
  | Err _ => BrowseError "dossier invalide" 400
  | Ok viewPath =>
      match stat_dir viewPath s with
      | Ok true =>
          match read_dir viewPath s with
          | Err _ => BrowseError "accès refusé" 403
          | Ok entries => BrowseBody path (if negb (string_eqb path "/") then Dir path else "") (visible_dirs entries)
          end
      | _ => BrowseError "dossier invalide" 400
      end
  end.

(** ** Settings *)

(** [unmarshal_settings] is what the variable is afterwards; [post_notify] sends
    the message and gives the status. *)
Class SettingsLib (N : Type) := {
  unmarshal_settings : string -> NotifySettings -> NotifySettings;
  marshal_settings : NotifySettings -> string;
  decode_settings : string -> result (string * bool * bool);
  post_notify : string -> string -> string -> N -> result Z * N;
  settings_encodable : NotifySettings -> Prop;
  settings_roundtrip s s0 : settings_encodable s -> unmarshal_settings (marshal_settings s) s0 = s
}.

Record SettingsState (N : Type) := MkSettingsState { set_fs : FS; set_values : NotifySettings; set_net : N }.
Arguments MkSettingsState {N}.
Arguments set_fs {N}.
Arguments set_values {N}.
Arguments set_net {N}.

Inductive SettingsResponse :=
  | SettingsError (text : string) (code : Z)
  | SettingsBody (s : NotifySettings)
  | SettingsSaved (testError : string).

Section Settings.
Context {N : Type} `{!SettingsLib N}.
Context (dataDir : string) (owner : FileOwner).

Definition settingsPath : string := dataDir +:+ "/settings.json".

Definition loadSettings (s : NotifySettings) : SE FS NotifySettings :=
  b ← attempt (fs_ReadFile settingsPath);
  mret (match b with Ok (Some b) => unmarshal_settings b s | _ => s end).

Definition saveSettings (s : NotifySettings) : SE FS unit :=
  _ ← ignore (fs_WriteFile settingsPath (marshal_settings s) 384);
  own settingsPath owner.

(** The error's text, empty when there is none. *)
Definition postNotify (url title body : string) (n : N) : string * N :=
  if string_eqb url "" then ("aucune URL de notification configurée", n)
  else match post_notify url title body n with
  | (Err e, n) => (error_text e, n)
  | (Ok status, n) =>
      (if (status >=? 300)%Z then "réponse " +:+ Itoa status +:+ " du service de notification" else "", n)
  end.

Definition apiSettings (method body : string) (st : SettingsState N) : SettingsResponse * SettingsState N :=
  if string_eqb method "GET" then (SettingsBody (set_values st), st)
  else if string_eqb method "POST" then
    match decode_settings body with
    | Err _ => (SettingsError "requête invalide" 400, st)
    | Ok (url, all, test) =>
        let values := MkNotifySettings (TrimSpace url) all in
        let (_, fs) := saveSettings values (set_fs st) in
        let (err, n) :=
          if test then postNotify (NotifyURL values) "SyncBridge" "Notification de test ✅" (set_net st) else ("", set_net st) in
        (SettingsSaved err, MkSettingsState fs values n)
    end
  else (SettingsError "méthode" 405, st).
End Settings.
