(* ===== verification/WebRoutesProofs.v ===== *)
(** * The routes of the server: proofs

    The gate and the table together, the settings file and the listing of
    directories. *)

From S2P Require Import Prelude GoStrings Model LogBuffer AtomicFile JobRepository HostCommand Capabilities.
From S2P Require Import ExecutionPlan ExecutionPlanProofs RunService History HostFiles Auth AuthProofs Scheduler JobApi Secrets Remotes RemotesProofs WebRoutes.

(** ** Matching *)

Definition public (r : Route) : bool :=
  match r with AuthStatusRoute | AuthRegister | AuthLogin | AuthLogout | Files => true | _ => false end.

Lemma match_path_in path table p : match_path path table = Some p -> p ∈ table /\ (p.1 = path \/ subtree path p = true).
Proof.
  unfold match_path. destruct (List.find _ table) as [q|] eqn:E.
  { intros [= <-]. apply List.find_some in E as [Hin E]. apply string_eqb_true in E. split; [by apply list_elem_of_In|by left]. }
  clear E. induction table as [|q table IH]; [done|]. cbn [fold_right]. destruct (subtree path q) eqn:Es.
  - unfold longer. destruct (fold_right _ None table) as [b|]; [|intros [= <-]; split; [left|by right]].
    case_goal; intros [= <-]; [|split; [left|by right]]. destruct (IH eq_refl) as [? ?]. split; [by right|done].
  - intros H. destruct (IH H) as [? ?]. split; [by right|done].
Qed.

Lemma prefixes_compare path a b : HasPrefix path a = true -> HasPrefix path b = true -> HasPrefix a b = true \/ HasPrefix b a = true.
Proof.
  revert a b. induction path as [|c path IH]; intros [|x a] [|y b] Ha Hb; try (by left); try (by right); cbn [HasPrefix] in *; try done.
  apply andb_true_iff in Ha as [Hx Ha], Hb as [Hy Hb]. apply ascii_eqb_true in Hx as ->, Hy as ->. rewrite !ascii_eqb_refl. by apply IH.
Qed.

(** Below a prefix that is apart from every other pattern only public routes are
    found. *)
Definition apart (pre : string) : bool :=
  forallb (fun p => public p.2 || (negb (HasPrefix p.1 pre) && negb (HasPrefix pre p.1))) Handler.

Lemma dispatch_public pre path r : apart pre = true -> HasPrefix path pre = true -> dispatch Handler path = Routed r -> public r = true.
Proof.
  intros Ha Hp. unfold dispatch. cbv zeta. destruct (_ && _ && _); [done|].
  destruct (negb (string_eqb (cleanPath path) path)) eqn:E; [done|]. apply negb_false_iff, string_eqb_true in E. rewrite E.
  destruct (match_path path Handler) as [p|] eqn:Em; [|done]. intros [= <-]. apply match_path_in in Em as [Hin Hm].
  unfold apart in Ha. rewrite forallb_forall in Ha. specialize (Ha p ltac:(by apply list_elem_of_In)).
  apply orb_true_iff in Ha as [Ha|Ha]; [done|]. exfalso. apply andb_true_iff in Ha as [H1 H2]. apply negb_true_iff in H1, H2.
  destruct Hm as [Hm|Hm]; [by rewrite Hm, Hp in H1|]. unfold subtree in Hm. apply andb_true_iff in Hm as [_ Hm].
  destruct (prefixes_compare path p.1 pre Hm Hp); congruence.
Qed.

(** ** The gate *)

Lemma gate_session `{lib : !AuthLib} env_user env_password dataDir owner tr st now path cookie fs w :
  served env_user env_password dataDir owner tr st ->
  HasPrefix path "/api/auth/" || HasPrefix path "/_app/" = false ->
  requireAuth now path cookie (fs, st) = (Passes, w) ->
  exists tok exp, cookie = Some tok /\ (now <= exp)%Z /\ open_session env_user env_password dataDir tr tok exp.
Proof.
  intros Hs Hp. unfold requireAuth. rewrite Hp. cbn [snd fst]. unfold validSession.
  destruct cookie as [tok|]; [|by case_goal]. destruct (sessions st !! tok) as [exp|] eqn:E; [|by case_goal].
  destruct (now >? exp)%Z eqn:Ex; [by case_goal|]. intros _. exists tok, exp. split; [done|]. split; [lia|].
  by eapply served_sessions.
Qed.

(** ** Settings *)

Lemma settings_survive {N} `{lib : !SettingsLib N} dataDir owner url all test body (st : SettingsState N) :
  fs_script (set_fs st) = [] -> decode_settings body = Ok (url, all, test) ->
  settings_encodable (MkNotifySettings (TrimSpace url) all) ->
  let (resp, st') := apiSettings dataDir owner "POST" body st in
  (exists err, resp = SettingsSaved err) /\ set_values st' = MkNotifySettings (TrimSpace url) all /\
  (forall s0, (loadSettings dataDir s0 (set_fs st')).1 = Ok (set_values st')).
Proof.
  intros Hs Hd He. unfold apiSettings. change (string_eqb "POST" "GET") with false. change (string_eqb "POST" "POST") with true.
  cbn iota. rewrite Hd. unfold saveSettings.
  set (values := MkNotifySettings (TrimSpace url) all) in *.
  destruct (WriteFile_works (settingsPath dataDir) (marshal_settings values) 384 (set_fs st) Hs) as (fs1 & E1 & Hs1 & H1 & _).
  destruct (own_keeps (settingsPath dataDir) owner fs1 Hs1) as (fs2 & E2 & Hs2 & H2).
  rewrite SE_bind_unfold. unfold ignore at 1. rewrite SE_bind_unfold. unfold attempt at 1. rewrite E1. cbn [mret SE_ret].
  rewrite E2. destruct (if test then _ else _) as [err n]. split; [by eexists|]. split; [done|]. intros s0. cbn [set_fs set_values].
  unfold loadSettings. rewrite SE_bind_unfold. unfold attempt. rewrite ReadFile_works by done. rewrite H2, H1. cbn.
  by rewrite settings_roundtrip.
Qed.

(** ** Browsing *)

(** What is shown of a directory: its visible subdirectories, sorted. *)
Lemma apiBrowse_dirs {S} `{dirs : !HostDirs S} query (s : S) path parent l :
  apiBrowse query s = BrowseBody path parent l ->
  exists view entries, hostFilesystemPath path = Ok view /\ stat_dir view s = Ok true /\ read_dir view s = Ok entries /\
    Sorted string_le l /\ (forall name, name ∈ l <-> (name, true) ∈ entries /\ HasPrefix name "." = false).
Proof.
  unfold apiBrowse. cbv zeta. set (p := if string_eqb query "" then "/mnt" else query).
  destruct (hostFilesystemPath p) as [view|] eqn:Ev; [|done]. destruct (stat_dir view s) as [[]|] eqn:Es; [|done..].
  destruct (read_dir view s) as [entries|] eqn:Er; [|done]. intros [= <- _ <-]. exists view, entries. split_and!; try done.
  - apply (Sorted_merge_sort string_le).
  - intros name. unfold visible_dirs. rewrite merge_sort_Permutation, list_elem_of_fmap. setoid_rewrite list_elem_of_In.
    setoid_rewrite filter_In. split.
    + intros ([n d] & -> & Hin & [Hd Hn]%andb_true_iff). cbn in *. subst d. by apply negb_true_iff in Hn.
    + intros [Hin Hn]. exists (name, true). cbn. by rewrite Hn.
Qed.

(** ** Properties *)

(** C26: what is protected needs a login.  In every history of requests from the
    start of the process, with the account's file changing in any way in between, a
    request is answered only with the cookie of a session that a login with
    verified credentials, or the registration made while no account was
    configured, opened at most seven days before and that no later logout closed;
    or its path starts with [/api/auth/] or [/_app/], and then it is redirected to
    a path of its own or reaches one of the four routes of authentication or the
    files of the interface, and no other route of the table. *)
Theorem handlers_need_login `{lib : !AuthLib} env_user env_password dataDir owner tr st now path cookie fs d w :
  served env_user env_password dataDir owner tr st ->
  serve_path now path cookie (fs, st) = (Answered d, w) ->
  (exists tok exp, cookie = Some tok /\ (now <= exp)%Z /\ open_session env_user env_password dataDir tr tok exp) \/
  ((HasPrefix path "/api/auth/" = true \/ HasPrefix path "/_app/" = true) /\ forall r, d = Routed r -> public r = true).
Proof.
  intros Hs. unfold serve_path. destruct (requireAuth now path cookie (fs, st)) as [gate w'] eqn:Eg.
  destruct gate; [|done..]. intros [= <- <-].
  destruct (HasPrefix path "/api/auth/" || HasPrefix path "/_app/") eqn:Ep; [right|left; by eapply gate_session].
  apply orb_true_iff in Ep. split; [done|]. intros r Hr.
  destruct Ep as [Ep|Ep]; eapply dispatch_public; [|exact Ep|exact Hr| |exact Ep|exact Hr]; vm_compute; reflexivity.
Qed.

(** ** Witness *)

Lemma handlers_need_login_witness :
  let st := (demo_history 5).2 in
  (serve_path 9 "/api/jobs" (Some "7431") (demo_fs, st)).1 = Answered (Routed LegacyJobs) /\
  (serve_path 9 "/api/jobs" (Some "7432") (demo_fs, st)).1 = Refused Unauthorized /\
  (serve_path 9 "/_app/../api/jobs" None (demo_fs, st)).1 = Answered (Redirected "/api/jobs") /\
  ((exists tok exp, Some "7431" = Some tok /\ (9 <= exp)%Z /\ open_session "" "" "/config" (demo_history 5).1 tok exp) \/
   ((HasPrefix "/api/jobs" "/api/auth/" = true \/ HasPrefix "/api/jobs" "/_app/" = true) /\
    forall r, Routed LegacyJobs = Routed r -> public r = true)).
Proof.
  intros st. split; [vm_compute; reflexivity|]. split; [vm_compute; reflexivity|]. split; [vm_compute; reflexivity|].
  apply (handlers_need_login "" "" "/config" process_owner (demo_history 5).1 st 9 "/api/jobs" (Some "7431") demo_fs
    (Routed LegacyJobs) (serve_path 9 "/api/jobs" (Some "7431") (demo_fs, st)).2 (demo_history_served 5)).
  vm_compute. reflexivity.
Defined.
