(* ===== verification/Codecs.v ===== *)
(** * The JSON of the other files and bodies

    The struct tags of [Remote], [SysItem], [TrashEntry], [authFile], [Settings],
    [RunRecord] and [RunEvent], what is written to their files, and what is read
    from request bodies.  [CodecsProofs] turns these into instances of the
    interfaces the components are verified against. *)

From S2P Require Import Prelude GoStrings Utf8 Json Model AtomicFile HostCommand ExecutionPlan RunService History.
From S2P Require Import HostFiles PersistentScheduler SystemService Auth Secrets Remotes WebRoutes Events JobApi.

(** [json.NewDecoder(r.Body).Decode]: the first value of a body, whatever follows
    it. *)
Definition Decode {A} (dec : decoder A) (body : string) (old : A) : decoded A :=
  match parse_value (parse_fuel body) maxNestingDepth body with
  | Some (j, _) => dec j old
  | None => mismatch old
  end.
Definition decode {A} (dec : decoder A) (zero : A) (body : string) : result A :=
  let (a, ok) := Decode dec body zero in if ok then Ok a else Err ErrJSON.

Definition enc_list {A} (enc : A -> json) (l : list A) : json := JArr (map enc l).

(** ** Remotes *)

Definition enc_Remote (x : Remote) : json :=
  struct
    [("id", always (enc_int (Rem_ID x))); ("name", always (JStr (Rem_Name x))); ("url", always (JStr (Rem_URL x)));
     ("user", always (JStr (Rem_User x))); ("password", always (JStr (Rem_Password x)))].

Definition dec_Remote : decoder Remote := dec_object (fun ms old =>
  x0 ← dec_field "id" dec_int ms (Rem_ID old);
  x1 ← dec_field "name" dec_string ms (Rem_Name old);
  x2 ← dec_field "url" dec_string ms (Rem_URL old);
  x3 ← dec_field "user" dec_string ms (Rem_User old);
  x4 ← dec_field "password" dec_string ms (Rem_Password old);
  good (MkRemote x0 x1 x2 x3 x4)).

Definition zeroRemote : Remote := MkRemote 0 "" "" "" "".

(** A slice that a [null] leaves nil is told apart. *)
Definition dec_slice {A} (zero : A) (dec : decoder A) : decoder (option (list A)) := fun j old =>
  match j with
  | JNull => good None
  | _ => l ← dec_list zero dec j (default [] old); good (Some l)
  end.

Definition production_unmarshal_remotes : string -> result (option (list Remote)) :=
  unmarshal (dec_slice zeroRemote dec_Remote) None.
Definition production_marshal_remotes (rs : list Remote) : string := indented (enc_list enc_Remote rs).
Definition production_decode_remote : string -> result Remote := decode dec_Remote zeroRemote.

(** ** The trash and the inventory

    A nil slice, which only a trash file that says [null] leads to, is printed as
    an empty one here. *)

Definition enc_TrashEntry (x : TrashEntry) : json :=
  struct
    [("ts", always (JStr (Trash_TS x))); ("type", always (JStr (Trash_Type x))); ("name", always (JStr (Trash_Name x)));
     ("file", always (JStr (Trash_File x))); ("schedule", always (JStr (Trash_Schedule x)));
     ("target", always (JStr (Trash_Target x))); ("line", always (JStr (Trash_Line x)));
     ("unit", always (JStr (Trash_Unit x))); ("restorable", always (JBool (Trash_Restorable x)))].

Definition dec_TrashEntry : decoder TrashEntry := dec_object (fun ms old =>
  x0 ← dec_field "ts" dec_string ms (Trash_TS old);
  x1 ← dec_field "type" dec_string ms (Trash_Type old);
  x2 ← dec_field "name" dec_string ms (Trash_Name old);
  x3 ← dec_field "file" dec_string ms (Trash_File old);
  x4 ← dec_field "schedule" dec_string ms (Trash_Schedule old);
  x5 ← dec_field "target" dec_string ms (Trash_Target old);
  x6 ← dec_field "line" dec_string ms (Trash_Line old);
  x7 ← dec_field "unit" dec_string ms (Trash_Unit old);
  x8 ← dec_field "restorable" dec_bool ms (Trash_Restorable old);
  good (MkTrashEntry x0 x1 x2 x3 x4 x5 x6 x7 x8)).

Definition zeroTrashEntry : TrashEntry := MkTrashEntry "" "" "" "" "" "" "" "" false.

Definition production_unmarshal_trash : string -> result (list TrashEntry) := unmarshal (dec_list zeroTrashEntry dec_TrashEntry) [].
Definition production_marshal_trash (items : list TrashEntry) : result string := Ok (indented (enc_list enc_TrashEntry items)).

Definition enc_SysItem (x : SysItem) : json :=
  struct
    [("type", always (JStr (Sys_Type x))); ("name", always (JStr (Sys_Name x)));
     ("schedule", always (JStr (Sys_Schedule x))); ("target", always (JStr (Sys_Target x)));
     ("file", always (JStr (Sys_File x))); ("managed", always (JBool (Sys_Managed x)));
     ("class", always (JStr (Sys_Class x))); ("disabled", always (JBool (Sys_Disabled x)))].

Definition dec_SysItem : decoder SysItem := dec_object (fun ms old =>
  x0 ← dec_field "type" dec_string ms (Sys_Type old);
  x1 ← dec_field "name" dec_string ms (Sys_Name old);
  x2 ← dec_field "schedule" dec_string ms (Sys_Schedule old);
  x3 ← dec_field "target" dec_string ms (Sys_Target old);
  x4 ← dec_field "file" dec_string ms (Sys_File old);
  x5 ← dec_field "managed" dec_bool ms (Sys_Managed old);
  x6 ← dec_field "class" dec_string ms (Sys_Class old);
  x7 ← dec_field "disabled" dec_bool ms (Sys_Disabled old);
  good (MkSysItem x0 x1 x2 x3 x4 x5 x6 x7)).

Definition zeroSysItem : SysItem := MkSysItem "" "" "" "" "" false "" false.

Definition dec_delete : decoder (list SysItem * string) := dec_object (fun ms old =>
  x0 ← dec_field "items" (dec_list zeroSysItem dec_SysItem) ms old.1;
  x1 ← dec_field "confirm" dec_string ms old.2;
  good (x0, x1)).
Definition dec_restore : decoder (list TrashEntry) := dec_object (fun ms old =>
  dec_field "items" (dec_list zeroTrashEntry dec_TrashEntry) ms old).

Definition production_decode_item : string -> result SysItem := decode dec_SysItem zeroSysItem.
Definition production_decode_delete : string -> result (list SysItem * string) := decode dec_delete ([], "").
Definition production_decode_restore : string -> result (list TrashEntry) := decode dec_restore [].

(** ** The account *)

Definition enc_authFile (x : authFile) : json :=
  struct [("user", always (JStr (auth_User x))); ("hash", always (JStr (auth_Hash x)))].
Definition dec_authFile : decoder authFile := dec_object (fun ms old =>
  x0 ← dec_field "user" dec_string ms (auth_User old);
  x1 ← dec_field "hash" dec_string ms (auth_Hash old);
  good (MkAuthFile x0 x1)).

Definition production_unmarshal_auth : string -> result authFile := unmarshal dec_authFile (MkAuthFile "" "").
Definition production_marshal_auth (a : authFile) : string := indented (enc_authFile a).

(** [struct{ User, Password string }]: the body of a login or a registration, whose
    errors are ignored; and the body a login at a remote sends. *)
Definition dec_credentials : decoder (string * string) := dec_object (fun ms old =>
  x0 ← dec_field "User" dec_string ms old.1;
  x1 ← dec_field "Password" dec_string ms old.2;
  good (x0, x1)).
Definition decode_credentials (body : string) : string * string := (Decode dec_credentials body ("", "")).1.
Definition login_body (user password : string) : string :=
  compact (struct [("Password", always (JStr password)); ("User", always (JStr user))]).

(** ** Settings *)

Definition enc_Settings (x : NotifySettings) : json :=
  struct [("notifyUrl", always (JStr (NotifyURL x))); ("notifyAll", always (JBool (NotifyAll x)))].
Definition dec_Settings : decoder NotifySettings := dec_object (fun ms old =>
  x0 ← dec_field "notifyUrl" dec_string ms (NotifyURL old);
  x1 ← dec_field "notifyAll" dec_bool ms (NotifyAll old);
  good (MkNotifySettings x0 x1)).
Definition dec_settings_body : decoder (string * bool * bool) := dec_object (fun ms old =>
  x0 ← dec_field "notifyUrl" dec_string ms old.1.1;
  x1 ← dec_field "notifyAll" dec_bool ms old.1.2;
  x2 ← dec_field "test" dec_bool ms old.2;
  good (x0, x1, x2)).

(** Errors are ignored: what was decoded before one counts. *)
Definition production_unmarshal_settings (text : string) (s : NotifySettings) : NotifySettings := (Unmarshal dec_Settings text s).1.
Definition production_marshal_settings (s : NotifySettings) : string := indented (enc_Settings s).
Definition production_decode_settings : string -> result (string * bool * bool) := decode dec_settings_body ("", false, false).

(** ** The history *)

Definition enc_RunRecord (x : RunRecord) : json :=
  struct
    [("ts", always (JStr (Rec_TS x))); ("status", always (JStr (Rec_Status x)));
     ("dur", always (enc_int (Rec_Dur x))); ("note", always (JStr (Rec_Note x)))].
Definition dec_RunRecord : decoder RunRecord := dec_object (fun ms old =>
  x0 ← dec_field "ts" dec_string ms (Rec_TS old);
  x1 ← dec_field "status" dec_string ms (Rec_Status old);
  x2 ← dec_field "dur" dec_int ms (Rec_Dur old);
  x3 ← dec_field "note" dec_string ms (Rec_Note old);
  good (MkRunRecord x0 x1 x2 x3)).
Definition zeroRunRecord : RunRecord := MkRunRecord "" "" 0 "".

(** A map is printed in the order of its keys. *)
Definition key_le {A} (a b : string * A) : Prop := string_le a.1 b.1.
#[export] Instance key_le_dec {A} : RelDecision (@key_le A).
Proof. intros a b. unfold key_le. apply _. Defined.
Definition enc_map {A} (enc : A -> json) (m : gmap string A) : json :=
  JObj (map (fun kv => (kv.1, enc kv.2)) (merge_sort key_le (map_to_list m))).

Definition production_marshal_history (m : history) : result string := Ok (indented (enc_map (enc_list enc_RunRecord) m)).
Definition production_unmarshal_history (text : string) : option history * option goerror :=
  let (m, ok) := Unmarshal (dec_map [] (dec_list zeroRunRecord dec_RunRecord)) text (Some ∅) in
  (m, if ok then None else Some ErrJSON).

(** ** Events *)

(** A byte slice is its base64 text.  [format_time]: [time.Time.MarshalJSON], which
    refuses years outside 0 to 9999. *)
Section Events.
Variable format_time : Z -> result string.

Definition enc_RunSnapshot (x : RunSnapshot) : result json :=
  requested ← format_time (Run_RequestedAt x);
  started ← format_time (Run_StartedAt x);
  finished ← format_time (Run_FinishedAt x);
  Ok (struct
    [("id", always (JStr (Run_ID x))); ("jobId", always (enc_int (Run_JobID x)));
     ("revision", always (enc_uint (Run_Revision x))); ("status", always (JStr (Run_Status x)));
     ("origin", always (JStr (Run_Origin x))); ("dryRun", always (JBool (Run_DryRun x)));
     ("requestedAt", always (JStr requested)); ("startedAt", always (JStr started));
     ("finishedAt", always (JStr finished)); ("effectiveUid", omit_int (Run_EffectiveUID x));
     ("effectiveGid", omit_int (Run_EffectiveGID x)); ("exitCode", always (enc_int (Run_ExitCode x)));
     ("killEscalated", omit_bool (Run_KillEscalated x)); ("droppedLogLines", omit_uint (Run_DroppedLogLines x));
     ("logError", omit_string (Run_LogError x)); ("controlError", omit_string (Run_ControlError x));
     ("historyError", omit_string (Run_HistoryError x)); ("error", omit_string (Run_Error x))]).

Definition enc_RunEvent (e : RunEvent) : result json :=
  run ← enc_RunSnapshot (Event_Run e);
  Ok (struct
    [("id", always (enc_uint (Event_ID e))); ("kind", always (JStr (Event_Kind e))); ("run", always run);
     ("log", omit_string (b64_encode (Event_Log e)))]).

Definition production_marshal_event (e : RunEvent) : result string := j ← enc_RunEvent e; Ok (compact j).
End Events.

Definition production_marshal_line (line : string) : string := compact (JStr line).
