(* ===== verification/CodecsProofs.v ===== *)
(** * The JSON of the other files and bodies: proofs

    The codecs of [Codecs] keep the laws of the interfaces, so that the theorems
    about remotes, the trash, the account, the settings, the history and the event
    streams hold for the texts the program writes. *)

From S2P Require Import Prelude GoStrings Utf8 Json JsonProofs Model LogBuffer AtomicFile HostCommand ExecutionPlan ExecutionPlanProofs.
From S2P Require Import RunService History HostFiles PersistentScheduler SystemService Auth Secrets Remotes WebRoutes Events JobApi Codecs.

(** ** Lists and maps *)

Lemma unmarshal_indented {A} (dec : decoder A) zero a j t d :
  ws t -> fine d j -> (d <= maxNestingDepth)%Z -> back dec zero a (Some j) -> unmarshal dec zero (indented j +:+ t) = Ok a.
Proof.
  intros Ht [Hok Hd] Hmax Hb. change (indented j +:+ t) with ("" +:+ indented j +:+ t).
  eapply unmarshal_back; [|exact Hb]. apply parse_indented; try done. lia.
Qed.

Lemma fine_list {A} (enc : A -> json) d l : (0 <= d)%Z -> Forall (fun a => fine d (enc a)) l -> fine (1 + d) (enc_list enc l).
Proof.
  intros Hd H. apply Forall_fmap in H. split.
  - apply json_ok_arr. eapply Forall_impl; [exact H|]. by intros j [? _].
  - apply depth_list; [done|]. eapply Forall_impl; [exact H|]. by intros j [_ ?].
Qed.

Lemma back_list {A} (zero : A) dec (enc : A -> json) l :
  Forall (fun a => back dec zero a (Some (enc a))) l -> back (dec_list zero dec) [] l (Some (enc_list enc l)).
Proof. intros H. cbn. by apply dec_items_back. Qed.

#[export] Instance key_le_total {A} : Total (@key_le A).
Proof. intros a b. apply string_le_total. Qed.

Lemma dec_entries_back {A} (zero : A) dec (enc : A -> json) (l : list (string * A)) : forall m,
  NoDup (map fst l) -> (forall kv, kv ∈ l -> m !! kv.1 = None) -> Forall (fun kv => dec (enc kv.2) zero = good kv.2) l ->
  dec_entries zero dec (map (fun kv => (kv.1, enc kv.2)) l) m = good (list_to_map l ∪ m).
Proof.
  induction l as [|[k a] l IH]; intros m Hnd Hm Hl.
  - cbn. by rewrite map_empty_union.
  - cbn [map fst snd] in *. apply NoDup_cons in Hnd as [Hk Hnd]. apply Forall_cons in Hl as [Ha Hl]. cbn [fst snd] in Ha. cbn [dec_entries].
    rewrite Ha. unfold mbind, decoded_bind. cbn [fst snd andb]. rewrite IH; [|done| |done].
    + cbn [good andb fst snd]. unfold good. f_equal. rewrite list_to_map_cons.
      rewrite <-insert_union_r by (apply not_elem_of_list_to_map_1; exact Hk). by rewrite <-insert_union_l.
    + intros kv Hkv. rewrite lookup_insert_ne; [apply Hm; by right|].
      intros E. apply Hk. rewrite E. by apply (list_elem_of_fmap_2 fst l kv).
Qed.

Lemma back_map {A} (zero : A) dec (enc : A -> json) (m : gmap string A) :
  map_Forall (fun _ a => back dec zero a (Some (enc a))) m -> dec_map zero dec (enc_map enc m) (Some ∅) = good (Some m).
Proof.
  intros Hm. unfold dec_map, enc_map. pose proof (merge_sort_Permutation key_le (map_to_list m)) as Hp.
  assert (NoDup (map fst (merge_sort key_le (map_to_list m)))) as Hnd.
  { change (NoDup (fst <$> merge_sort key_le (map_to_list m))). rewrite Hp. apply NoDup_fst_map_to_list. }
  change (default ∅ (Some (∅ : gmap string A))) with (∅ : gmap string A).
  rewrite dec_entries_back; [|exact Hnd|intros kv _; exact (lookup_empty kv.1)|].
  - unfold mbind, decoded_bind. cbn [good fst snd andb]. unfold good. do 2 f_equal.
    rewrite map_union_empty. rewrite (list_to_map_proper _ (map_to_list m)); [apply list_to_map_to_list|exact Hnd|exact Hp].
  - apply Forall_forall. intros [k a] Hka. rewrite Hp in Hka. apply elem_of_map_to_list in Hka. exact (Hm k a Hka).
Qed.

Lemma fine_map {A} (enc : A -> json) d (m : gmap string A) :
  (0 <= d)%Z -> map_Forall (fun k a => utf8 k /\ fine d (enc a)) m -> fine (1 + d) (enc_map enc m).
Proof.
  intros Hd Hm. assert (enc_map enc m = struct (map (fun kv => (kv.1, always (enc kv.2))) (merge_sort key_le (map_to_list m)))) as ->.
  { unfold enc_map, struct. f_equal. induction (merge_sort key_le (map_to_list m)) as [|kv l IH]; [done|]. cbn. by rewrite <-IH. }
  apply struct_fine; [done|]. apply Forall_fmap, Forall_forall. intros [k a] Hka.
  rewrite (merge_sort_Permutation key_le (map_to_list m)) in Hka. apply elem_of_map_to_list in Hka. exact (Hm k a Hka).
Qed.

(** ** The records *)

Definition Remote_encodable (x : Remote) : Prop :=
  in_s64 (Rem_ID x) /\ Forall utf8 [Rem_Name x; Rem_URL x; Rem_User x; Rem_Password x].
Definition Trash_encodable (x : TrashEntry) : Prop :=
  Forall utf8 [Trash_TS x; Trash_Type x; Trash_Name x; Trash_File x; Trash_Schedule x; Trash_Target x; Trash_Line x; Trash_Unit x].
Definition SysItem_encodable (x : SysItem) : Prop :=
  Forall utf8 [Sys_Type x; Sys_Name x; Sys_Schedule x; Sys_Target x; Sys_File x; Sys_Class x].
Definition RunRecord_encodable (x : RunRecord) : Prop := in_s64 (Rec_Dur x) /\ Forall utf8 [Rec_TS x; Rec_Status x; Rec_Note x].

Ltac record_back := unfold back; rewrite dec_object_struct; cbn beta; fields_back.

Lemma Remote_back x : Remote_encodable x -> back dec_Remote zeroRemote x (Some (enc_Remote x)) /\ fine 1 (enc_Remote x).
Proof.
  intros [Hid H]. split_encodable. split; [|change 1%Z with (1 + 0)%Z; fields_are_fine].
  unfold dec_Remote, enc_Remote. record_back. by destruct x.
Qed.
Lemma Trash_back x : Trash_encodable x -> back dec_TrashEntry zeroTrashEntry x (Some (enc_TrashEntry x)) /\ fine 1 (enc_TrashEntry x).
Proof.
  intros H. unfold Trash_encodable in H. split_encodable. split; [|change 1%Z with (1 + 0)%Z; fields_are_fine].
  unfold dec_TrashEntry, enc_TrashEntry. record_back. by destruct x.
Qed.
Lemma SysItem_back x : SysItem_encodable x -> back dec_SysItem zeroSysItem x (Some (enc_SysItem x)) /\ fine 1 (enc_SysItem x).
Proof.
  intros H. unfold SysItem_encodable in H. split_encodable. split; [|change 1%Z with (1 + 0)%Z; fields_are_fine].
  unfold dec_SysItem, enc_SysItem. record_back. by destruct x.
Qed.
Lemma RunRecord_back x : RunRecord_encodable x -> back dec_RunRecord zeroRunRecord x (Some (enc_RunRecord x)) /\ fine 1 (enc_RunRecord x).
Proof.
  intros [Hd H]. split_encodable. split; [|change 1%Z with (1 + 0)%Z; fields_are_fine].
  unfold dec_RunRecord, enc_RunRecord. record_back. by destruct x.
Qed.

(** A list of records, each of which is read back. *)
Lemma records_back {A} (ok : A -> Prop) zero dec (enc : A -> json) l :
  (forall x, ok x -> back dec zero x (Some (enc x)) /\ fine 1 (enc x)) -> Forall ok l ->
  back (dec_list zero dec) [] l (Some (enc_list enc l)) /\ fine (1 + 1) (enc_list enc l).
Proof.
  intros Hx Hl. split.
  - apply back_list. eapply Forall_impl; [exact Hl|]. intros x H. by apply Hx.
  - apply fine_list; [done|]. eapply Forall_impl; [exact Hl|]. intros x H. by apply Hx.
Qed.

(** ** The files *)

Lemma remotes_back rs t : ws t -> Forall Remote_encodable rs ->
  production_unmarshal_remotes (production_marshal_remotes rs +:+ t) = Ok (Some rs).
Proof.
  intros Ht H. destruct (records_back _ _ _ _ _ Remote_back H) as [Hb Hf].
  eapply unmarshal_indented; [done|exact Hf|done|]. cbn in *. by rewrite Hb.
Qed.

Lemma trash_back items t : ws t -> Forall Trash_encodable items ->
  production_unmarshal_trash (indented (enc_list enc_TrashEntry items) +:+ t) = Ok items.
Proof.
  intros Ht H. destruct (records_back _ _ _ _ _ Trash_back H) as [Hb Hf]. by eapply unmarshal_indented.
Qed.

Definition authFile_encodable (a : authFile) : Prop := Forall utf8 [auth_User a; auth_Hash a].
Lemma account_back a t : ws t -> authFile_encodable a -> production_unmarshal_auth (production_marshal_auth a +:+ t) = Ok a.
Proof.
  intros Ht H. unfold authFile_encodable in H. split_encodable. eapply (unmarshal_indented _ _ _ _ _ (1 + 0)); [done| |done|].
  - unfold enc_authFile. fields_are_fine.
  - unfold dec_authFile, enc_authFile. record_back. by destruct a.
Qed.

(** Whatever the settings were before. *)
Lemma settings_back s s0 t : ws t -> utf8 (NotifyURL s) ->
  production_unmarshal_settings (production_marshal_settings s +:+ t) s0 = s.
Proof.
  intros Ht H. unfold production_unmarshal_settings, production_marshal_settings, Unmarshal.
  assert (fine (1 + 0) (enc_Settings s)) as [Hok Hd] by (unfold enc_Settings; fields_are_fine).
  change (indented (enc_Settings s) +:+ t) with ("" +:+ indented (enc_Settings s) +:+ t).
  rewrite parse_indented; [|done|done|done|unfold maxNestingDepth; lia]. unfold dec_Settings, enc_Settings. rewrite dec_object_struct. cbn beta.
  rewrite (dec_field_own "notifyUrl" _ _ (Some (JStr (NotifyURL s)))); [|no_dup|member].
  rewrite (dec_field_own "notifyAll" _ _ (Some (JBool (NotifyAll s)))); [|no_dup|member]. by destruct s.
Qed.

Definition history_text_ok (m : history) : Prop := map_Forall (fun id rs => utf8 id /\ Forall RunRecord_encodable rs) m.
Lemma history_back m t : ws t -> history_text_ok m ->
  production_unmarshal_history (indented (enc_map (enc_list enc_RunRecord) m) +:+ t) = (Some m, None).
Proof.
  intros Ht H. unfold production_unmarshal_history, Unmarshal.
  assert (fine (1 + 2) (enc_map (enc_list enc_RunRecord) m)) as [Hok Hd].
  { apply fine_map; [done|]. intros id rs Hrs. destruct (H id rs Hrs) as [Hid Hl]. split; [done|]. by apply (records_back _ _ _ _ _ RunRecord_back). }
  change (indented ?j +:+ t) with ("" +:+ indented j +:+ t). rewrite parse_indented; [|done|done|done|unfold maxNestingDepth; lia].
  rewrite (back_map [] _ (enc_list enc_RunRecord) m); [done|]. intros id rs Hrs. destruct (H id rs Hrs) as [Hid Hl].
  by apply (records_back _ _ _ _ _ RunRecord_back).
Qed.

(** ** Bodies *)

Lemma Decode_compact {A} (dec : decoder A) zero a j t d :
  stops t -> fine d j -> (d <= maxNestingDepth)%Z -> back dec zero a (Some j) -> Decode dec (compact j +:+ t) zero = good a.
Proof.
  intros Ht [Hok Hd] Hmax Hb. unfold Decode. change (compact j +:+ t) with ("" +:+ compact j +:+ t).
  change (compact j) with (print (fun _ => "") (":" +:+ "") 0 j).
  rewrite (print_reads_back (fun _ => "") "" ltac:(done) eq_refl j 0%nat maxNestingDepth "" t); [exact Hb|done|done|lia|done|].
  unfold parse_fuel. lia.
Qed.

(** The login a proxy sends is read by the login of the other instance. *)
Lemma credentials_back user password t : stops t -> utf8 user -> utf8 password ->
  decode_credentials (login_body user password +:+ t) = (user, password).
Proof.
  intros Ht Hu Hp. unfold decode_credentials, login_body.
  erewrite (Decode_compact dec_credentials ("", "") (user, password) _ t (1 + 0)); [done|done| |done|].
  - fields_are_fine.
  - unfold dec_credentials. record_back. done.
Qed.

Lemma item_back x t : stops t -> SysItem_encodable x -> production_decode_item (compact (enc_SysItem x) +:+ t) = Ok x.
Proof.
  intros Ht H. destruct (SysItem_back x H) as [Hb Hf]. unfold production_decode_item, decode. by erewrite Decode_compact.
Qed.

(** ** No line ends in a compact text *)

Lemma byte_in_LF lo hi c : (10 < lo)%Z -> byte_in lo hi c = true -> ascii_eqb c LF = false.
Proof.
  intros Hlo H. apply ascii_eqb_false. intros ->. unfold byte_in in H. apply andb_true_iff in H as [H _].
  apply Z.leb_le in H. change (byte_val LF) with 10%Z in H. lia.
Qed.

Lemma escape_byte_line c : has_byte LF (escape_byte c) = false.
Proof. by destruct c as [[] [] [] [] [] [] [] []]. Qed.

(** The bytes of a rune after the first. *)
Lemma high_byte c s : (128 <= byte_val c)%Z -> has_byte LF s = false -> has_byte LF (String c s) = false.
Proof.
  intros Hc Hs. rewrite has_byte_false in *. cbn [string_forallb]. rewrite Hs, andb_true_r. apply negb_true_iff, ascii_neq_val.
  change (byte_val LF) with 10%Z. lia.
Qed.

Lemma rune_line s : has_byte LF (escape_rune (take_str (rune_len s) s)) = false.
Proof.
  unfold escape_rune. do 2 (case_goal; [reflexivity|]). clear.
  assert (forall p, (2 <= String.length p)%nat -> has_byte LF p = false ->
    has_byte LF (match p with String c EmptyString => escape_byte c | _ => p end) = false) as Hlong.
  { intros [|c [|d p]] Hl Hp; [done| |done]. apply escape_byte_line. }
  destruct s as [|a [|b s]]; [done| |]; cbn [rune_len].
  { case_goal; [apply escape_byte_line|done]. }
  unfold continuation, byte_in, byte_is. case_goal; [apply escape_byte_line|]. case_goal.
  { case_goal; [|done]. apply Hlong; [cbn; lia|]. cbn [take_str]. repeat (apply high_byte; [bool_simpl; lia|]). done. }
  destruct s as [|c s]; [done|]. case_goal.
  { case_goal; [|done]. apply Hlong; [cbn; lia|]. cbn [take_str]. repeat (apply high_byte; [bool_simpl; lia|]). done. }
  destruct s as [|d s]; [done|]. case_goal; [|done].
  apply Hlong; [cbn; lia|]. cbn [take_str]. repeat (apply high_byte; [bool_simpl; lia|]). done.
Qed.

Lemma escape_line fuel : forall s, has_byte LF (escape_fuel fuel s) = false.
Proof.
  induction fuel as [|fuel IH]; intros s; [done|]. cbn [escape_fuel]. destruct s as [|c r]; [done|].
  pose proof (rune_line (String c r)) as Hr. destruct (rune_len (String c r)) as [|n]; rewrite has_byte_app, IH; [done|by rewrite Hr].
Qed.

Lemma quoted_line s : has_byte LF (quote_json s) = false.
Proof. unfold quote_json. change (String quote_double ?x +:+ ?y) with (str1 quote_double +:+ x +:+ y). rewrite !has_byte_app. unfold escape. by rewrite escape_line. Qed.

(** A value without line ends in its compact text. *)
Definition oneline (j : json) : Prop := forall d, has_byte LF (print (fun _ => "") ":" d j) = false.

Lemma oneline_string s : oneline (JStr s).
Proof. intros d. apply quoted_line. Qed.
Lemma oneline_bool b : oneline (JBool b).
Proof. by destruct b. Qed.
Lemma digits_line s : string_forallb is_digit s = true -> has_byte LF s = false.
Proof.
  intros H. apply has_byte_false. eapply string_forallb_impl; [|exact H]. intros c Hc. apply negb_true_iff. by apply (byte_in_LF 48 57).
Qed.
Lemma FormatUint_line n : has_byte LF (FormatUint n) = false.
Proof.
  apply digits_line. unfold FormatUint. change true with (string_forallb is_digit EmptyString). generalize 30%nat, EmptyString. clear.
  intros fuel acc. revert n acc. induction fuel as [|fuel IH]; intros n acc; [done|]. cbn [digits_fuel].
  assert (is_digit (digit_char (n mod 10)) = true) as Hd by (apply digit_char_digit, Z.mod_pos_bound; lia).
  case_goal; [cbn; by rewrite Hd|]. rewrite IH. cbn. by rewrite Hd.
Qed.
Lemma oneline_uint n : oneline (enc_uint n).
Proof. intros d. apply FormatUint_line. Qed.
Lemma oneline_int n : oneline (enc_int n).
Proof.
  intros d. change (has_byte LF (Itoa n) = false). unfold Itoa. case_goal; [|apply FormatUint_line].
  change (String "-" ?x) with ("-" +:+ x). by rewrite has_byte_app, FormatUint_line.
Qed.

Lemma Join_line sep l : has_byte LF sep = false -> Forall (fun s => has_byte LF s = false) l -> has_byte LF (Join sep l) = false.
Proof.
  intros Hsep H. induction H as [|s l Hs Hl IH]; [done|]. rewrite Join_first, has_byte_app, Hs. unfold Join_rest.
  destruct l; [done|]. rewrite has_byte_app, Hsep. exact IH.
Qed.

Lemma oneline_struct fields :
  Forall (fun f => match f.2 with Some j => oneline j | None => True end) fields -> oneline (struct fields).
Proof.
  intros H d. change (struct fields) with (JObj (members_of fields)). cbn [print].
  set (f := fun kv : string * json => quote_json kv.1 +:+ ":" +:+ print (fun _ => "") ":" (S d) kv.2).
  assert (Forall (fun s => has_byte LF s = false) (map f (members_of fields))) as Hl.
  { apply Forall_fmap. induction H as [|[k [j|]] l Hj _ IH]; cbn; [constructor| |exact IH].
    constructor; [|exact IH]. change (has_byte LF (quote_json k +:+ ":" +:+ print (fun _ => "") ":" (S d) j) = false). rewrite !has_byte_app, quoted_line. exact (Hj (S d)). }
  destruct (map f _) as [|x l]; [done|]. unfold enclosed. rewrite !has_byte_app, Join_line by done. done.
Qed.

Lemma oneline_unless b j : oneline j -> match unless b j with Some j => oneline j | None => True end.
Proof. by destruct b. Qed.

Ltac field_oneline :=
  unfold omit_string, omit_bool, omit_int, omit_uint; cbn [snd always]; try apply oneline_unless;
  first [apply oneline_string | apply oneline_bool | apply oneline_int | apply oneline_uint | assumption].

Lemma event_oneline format_time e j : enc_RunEvent format_time e = Ok j -> oneline j.
Proof.
  unfold enc_RunEvent, enc_RunSnapshot. unfold mbind, result_bind.
  destruct (format_time (Run_RequestedAt (Event_Run e))) as [requested|]; [|done].
  destruct (format_time (Run_StartedAt (Event_Run e))) as [started|]; [|done].
  destruct (format_time (Run_FinishedAt (Event_Run e))) as [finished|]; [|done]. intros [= <-].
  apply oneline_struct. repeat (constructor; [try field_oneline|]); [|constructor].
  apply oneline_struct. repeat (constructor; [field_oneline|]). constructor.
Qed.

(** ** The interfaces *)

Program Definition production_remotes : RemoteCodec := {|
  unmarshal_remotes := production_unmarshal_remotes; marshal_remotes := production_marshal_remotes;
  decode_remote := production_decode_remote; remotes_encodable := Forall Remote_encodable
|}.
Next Obligation. intros rs H. rewrite <-(app_empty_r (production_marshal_remotes rs)). by apply remotes_back. Qed.

Program Definition production_trash : TrashCodec := {|
  unmarshal_trash := production_unmarshal_trash; marshal_trash := production_marshal_trash;
  trash_encodable := Forall Trash_encodable
|}.
Next Obligation.
  intros items H. eexists. split; [reflexivity|]. rewrite <-(app_empty_r (indented _)). by apply trash_back.
Qed.

Definition production_requests : SystemDecoder := {|
  decode_item := production_decode_item; decode_delete := production_decode_delete; decode_restore := production_decode_restore
|}.

(** bcrypt stays an argument, with what the code relies on. *)
Program Definition production_auth (generate : string -> result string) (compare : string -> string -> bool)
    (accepts : forall p h, generate p = Ok h -> compare h p = true) : AuthLib := {|
  GenerateFromPassword := generate; CompareHashAndPassword := compare;
  unmarshal_auth := production_unmarshal_auth; marshal_auth := production_marshal_auth; auth_encodable := authFile_encodable
|}.
Next Obligation. intros generate compare accepts. exact accepts. Qed.
Next Obligation. intros _ _ _ a H. rewrite <-(app_empty_r (production_marshal_auth a)). by apply account_back. Qed.

Program Definition production_settings {N} (post : string -> string -> string -> N -> result Z * N) : SettingsLib N := {|
  unmarshal_settings := production_unmarshal_settings; marshal_settings := production_marshal_settings;
  decode_settings := production_decode_settings; post_notify := post; settings_encodable s := utf8 (NotifyURL s)
|}.
Next Obligation. intros N _ s s0 H. rewrite <-(app_empty_r (production_marshal_settings s)). by apply settings_back. Qed.

Program Definition production_history : HistoryCodec := {|
  unmarshal_history := production_unmarshal_history; marshal_history := production_marshal_history;
  history_encodable := history_text_ok
|}.
Next Obligation. intros m d H [= <-]. by apply history_back. Qed.

Program Definition production_events (format_time : Z -> result string) : EventCodec := {|
  marshal_event := production_marshal_event format_time; marshal_line := production_marshal_line
|}.
Next Obligation.
  intros format_time e d. unfold production_marshal_event, mbind, result_bind.
  destruct (enc_RunEvent format_time e) as [j|] eqn:E; [|done]. intros [= <-]. exact (event_oneline _ _ _ E 0%nat).
Qed.

(** ** Property *)

(** C38: what the program saves, it reads back.  For texts that are valid UTF-8 and
    numbers of their types, the remotes, the trash, the account, the settings
    (whatever they were before) and the history are read from the text written for
    them, with any white space behind it; and the login body a proxy sends is read
    by the other instance as the user and password that were meant. *)
Theorem saved_state_roundtrip t :
  ws t ->
  (forall rs, Forall Remote_encodable rs -> production_unmarshal_remotes (production_marshal_remotes rs +:+ t) = Ok (Some rs)) /\
  (forall items, Forall Trash_encodable items -> exists text,
     production_marshal_trash items = Ok text /\ production_unmarshal_trash (text +:+ t) = Ok items) /\
  (forall a, authFile_encodable a -> production_unmarshal_auth (production_marshal_auth a +:+ t) = Ok a) /\
  (forall s s0, utf8 (NotifyURL s) -> production_unmarshal_settings (production_marshal_settings s +:+ t) s0 = s) /\
  (forall m, history_text_ok m -> exists text,
     production_marshal_history m = Ok text /\ production_unmarshal_history (text +:+ t) = (Some m, None)) /\
  (forall user password, utf8 user -> utf8 password -> decode_credentials (login_body user password +:+ t) = (user, password)).
Proof.
  intros Ht. split_and!.
  - intros. by apply remotes_back.
  - intros. eexists. split; [reflexivity|]. by apply trash_back.
  - intros. by apply account_back.
  - intros. by apply settings_back.
  - intros. eexists. split; [reflexivity|]. by apply history_back.
  - intros. apply credentials_back; [|done..]. rewrite <-(app_empty_r t). by apply ws_stops.
Qed.

Definition demo_password : string := String (byte 34) (String (byte 60) (String (byte 195) (str1 (byte 169)))).
Lemma saved_state_roundtrip_witness :
  production_unmarshal_remotes (production_marshal_remotes [MkRemote 1 "b" "http://b" "admin" demo_password] +:+ newline) =
    Ok (Some [MkRemote 1 "b" "http://b" "admin" demo_password]) /\
  production_unmarshal_history (indented (enc_map (enc_list enc_RunRecord) {[ "7" := [MkRunRecord "t" "error" 3 demo_password] ]}) +:+ newline) =
    (Some {[ "7" := [MkRunRecord "t" "error" 3 demo_password] ]}, None).
Proof.
  assert (utf8 demo_password) as Hp.
  { do 2 (apply (utf8_rune (str1 _)); [done|done|]). apply (utf8_rune (String (byte 195) (str1 (byte 169))) ""); [done|done|constructor]. }
  destruct (saved_state_roundtrip newline eq_refl) as (Hr & _ & _ & _ & Hh & _). split.
  - apply Hr. repeat constructor; try (apply utf8_ascii; reflexivity); try exact Hp; discriminate.
  - destruct (Hh {[ "7" := [MkRunRecord "t" "error" 3 demo_password] ]}) as (text & [= <-] & H); [|exact H].
    apply map_Forall_singleton. split; [by apply utf8_ascii|].
    repeat constructor; try (apply utf8_ascii; reflexivity); try exact Hp; discriminate.
Defined.
