(* ===== verification/RequestJson.v ===== *)
(** * JSON request bodies ([decodeStrictJSON] of [api_v1.go])

    The decoder of a strict body refuses members that are no field of the value
    it fills, and anything after the first value.  [production_decoder] is the
    interface [JobApi] and [LegacyApi] are verified against, with the media type
    and the range of floating-point numbers left as arguments. *)

From S2P Require Import Prelude GoStrings Utf8 Json JsonProofs Model LogBuffer AtomicFile JobRepository JobJson JobJsonProofs.
From S2P Require Import HostCommand Capabilities ExecutionPlan RunService Scheduler History JobApi Codecs.

(** ** Unknown fields *)

(** The fields of a struct, with those of the structs in it. *)
Inductive shape := Plain | Fields (fields : list (string * shape)).

Definition field_shape (fields : list (string * shape)) (key : string) : option shape :=
  snd <$> List.find (fun f => string_eqb (fold_key key) (fold_key f.1)) fields.

(** [DisallowUnknownFields] *)
Fixpoint known (sh : shape) (j : json) : bool :=
  match sh, j with
  | Fields fields, JObj members =>
      forallb (fun kv => match field_shape fields kv.1 with Some sh => known sh kv.2 | None => false end) members
  | _, _ => true
  end.

Definition plain (names : list string) : list (string * shape) := map (fun n => (n, Plain)) names.

Definition sync_shape : shape :=
  Fields (plain ["engine"; "source"; "dest"; "mode"; "compare"; "bwlimit"; "backup"; "backupKeep"; "maxDel"; "skipNew"; "sysBackup"; "exclude"]).
Definition action_shape : shape := Fields (plain ["type"; "scriptPath"; "scriptArgs"; "command"] ++ [("sync", sync_shape)]).
Definition identity_shape : shape := Fields (plain ["mode"; "user"; "uid"; "group"; "gid"]).
Definition execution_shape : shape :=
  Fields (plain ["workingDirectory"; "environment"; "umask"; "timeoutSeconds"; "stopGraceSeconds"; "overlap"]).
Definition scheduler_shape : shape := Fields (plain ["owner"]).
Definition job_shape : shape :=
  Fields (plain ["schemaVersion"; "id"; "revision"; "name"; "enabled"; "needsReview"] ++
    [("action", action_shape); ("identity", identity_shape); ("execution", execution_shape); ("trigger", Plain); ("scheduler", scheduler_shape)] ++
    plain ["kind"; "command"; "backend"; "source"; "dest"; "engine"; "mode"; "cron"; "watchGlob"; "watchMode"; "debounce"; "pollSec";
      "timeout"; "compare"; "bwlimit"; "backup"; "backupKeep"; "maxDel"; "skipNew"; "sysBackup"; "exclude"; "disabled"; "lastRun"; "lastStat"]).

(** ** The decoder *)

(** The next value of a body, and the text behind it. *)
Definition next_value (body : string) : result (json * string) :=
  match parse_value (parse_fuel body) maxNestingDepth body with
  | Some p => Ok p
  | None => Err (if string_eqb (skip_ws body) "" then io_EOF else ErrJSON)
  end.

Definition strict {A} (sh : shape) (dec : decoder A) (zero : A) (body : string) : result (A * string) :=
  '(j, rest) ← next_value body;
  let (a, ok) := dec j zero in
  if ok && known sh j then Ok (a, rest) else Err ErrJSON.

Definition dec_start : decoder (Z * bool) := dec_object (fun ms old =>
  x0 ← dec_field "revision" (dec_uint 64) ms old.1;
  x1 ← dec_field "dryRun" dec_bool ms old.2;
  good (x0, x1)).

Section Any.
(** A number that is decoded into [any] must be in the range of a [float64]. *)
Variable float64_ok : string -> bool.

Fixpoint numbers_ok (j : json) : bool :=
  match j with
  | JNum literal => float64_ok literal
  | JArr items => forallb numbers_ok items
  | JObj members => forallb (fun kv => numbers_ok kv.2) members
  | _ => true
  end.

(** [map[string]any]: how many keys it gets. *)
Definition dec_any_map : decoder nat := fun j old =>
  match j with
  | JNull => good 0%nat
  | JObj members => (length (remove_dups (map fst members)), numbers_ok j)
  | _ => mismatch old
  end.

Definition production_decode_any (body : string) : result unit :=
  '(j, _) ← next_value body; if numbers_ok j then Ok tt else Err ErrJSON.

Definition production_decoder (parse_media_type : string -> result string) : JSONDecoder := {|
  ParseMediaType := parse_media_type;
  decode_job := strict job_shape dec_Job zeroJob;
  decode_start := strict (Fields (plain ["revision"; "dryRun"])) dec_start (0%Z, false);
  decode_object := strict Plain dec_any_map 0%nat;
  decode_any := production_decode_any
|}.
End Any.

(** ** What is accepted *)

Lemma known_plain j : known Plain j = true.
Proof. by destruct j. Qed.

Definition field_known (fields : list (string * shape)) (f : string * option json) : Prop :=
  match f.2 with
  | Some j => match field_shape fields f.1 with Some sh => known sh j = true | None => False end
  | None => True
  end.

Lemma known_struct fields l : Forall (field_known fields) l -> known (Fields fields) (struct l) = true.
Proof.
  intros H. unfold struct. cbn [known]. induction H as [|[k [j|]] l Hj _ IH]; cbn; [done| |exact IH].
  unfold field_known in Hj. cbn [fst snd] in Hj. destruct (field_shape fields k); [|done]. by rewrite Hj, IH.
Qed.

Lemma field_known_always fields k sh j : field_shape fields k = Some sh -> known sh j = true -> field_known fields (k, Some j).
Proof. intros Hk Hj. unfold field_known. cbn. by rewrite Hk. Qed.
Lemma field_known_unless fields k b j : field_shape fields k = Some Plain -> field_known fields (k, Json.unless b j).
Proof. intros Hk. destruct b; [done|]. apply (field_known_always _ _ Plain); [done|apply known_plain]. Qed.

Ltac known_field :=
  first [apply field_known_unless; reflexivity
        | eapply field_known_always; [reflexivity|first [assumption | apply known_plain]]].
Ltac known_fields := apply known_struct; repeat (constructor; [known_field|]); constructor.

Lemma sync_known x : known sync_shape (enc_SyncAction x) = true.
Proof. unfold sync_shape, enc_SyncAction. known_fields. Qed.
Lemma action_known x : known action_shape (enc_Action x) = true.
Proof. pose proof (sync_known (Action_Sync x)). unfold action_shape, enc_Action. known_fields. Qed.
Lemma identity_known x : known identity_shape (enc_Identity x) = true.
Proof. unfold identity_shape, enc_Identity. known_fields. Qed.
Lemma execution_known x : known execution_shape (enc_ExecutionPolicy x) = true.
Proof. unfold execution_shape, enc_ExecutionPolicy. known_fields. Qed.
Lemma scheduler_known x : known scheduler_shape (enc_SchedulerPolicy x) = true.
Proof. unfold scheduler_shape, enc_SchedulerPolicy. known_fields. Qed.

Lemma job_known job : known job_shape (MarshalJSON job) = true.
Proof.
  pose proof (action_known (Job_Action job)). pose proof (identity_known (Job_Identity job)).
  pose proof (execution_known (Job_Execution job)). pose proof (scheduler_known (Job_Scheduler job)).
  unfold MarshalJSON. case_goal; unfold job_shape, enc_v2Job, enc_legacyJob; known_fields.
Qed.

Lemma next_printed w j t : ws w -> stops t -> fine maxNestingDepth j -> next_value (w +:+ compact j +:+ t) = Ok (j, t).
Proof.
  intros Hw Ht [Hok Hd]. unfold next_value. change (compact j) with (print (fun _ => "") (":" +:+ "") 0 j).
  rewrite (print_reads_back (fun _ => "") "" ltac:(done) eq_refl j 0%nat maxNestingDepth w t); [done..|].
  unfold parse_fuel. lia.
Qed.
Lemma next_compact j t : stops t -> fine maxNestingDepth j -> next_value (compact j +:+ t) = Ok (j, t).
Proof. exact (next_printed "" j t eq_refl). Qed.

Lemma next_blank w : ws w -> next_value w = Err io_EOF.
Proof.
  intros Hw. assert (skip_ws w = "") as Hs by (rewrite <-(app_empty_r w); by rewrite skip_ws_app).
  unfold next_value. destruct (parse_value (parse_fuel w) maxNestingDepth w) as [p|] eqn:E; [|by rewrite Hs].
  exfalso. unfold parse_fuel in E. replace (2 * String.length w + 2)%nat with (S (2 * String.length w + 1)) in E by lia.
  cbn [parse_value] in E. by rewrite Hs in E.
Qed.

Lemma strict_back {A} sh (dec : decoder A) zero a j t :
  stops t -> fine maxNestingDepth j -> known sh j = true -> dec j zero = good a -> strict sh dec zero (compact j +:+ t) = Ok (a, t).
Proof.
  intros Ht Hj Hk Hd. unfold strict. rewrite next_compact by done. unfold mbind, result_bind. by rewrite Hd, Hk.
Qed.

Lemma fine_within d j : fine d j -> (d <= maxNestingDepth)%Z -> fine maxNestingDepth j.
Proof. apply fine_more. Qed.

(** What a handler gets of a job that was printed. *)
Definition sent_back (job : Job) : Job := if (Job_SchemaVersion job =? 0)%Z then legacy_fields job else job.
Definition printable (job : Job) : Prop := fields_encodable job /\ (Job_SchemaVersion job = 0%Z \/ job_encodable job).

Lemma printed_job job t : printable job -> stops t ->
  strict job_shape dec_Job zeroJob (compact (MarshalJSON job) +:+ t) = Ok (sent_back job, t).
Proof.
  intros [Hf Hv] Ht. apply strict_back; [done| |apply job_known|].
  - apply (fine_within (1 + 2)); [by apply Job_fine|done].
  - unfold sent_back. destruct Hv as [Hv|Hv].
    + rewrite Hv. by apply legacyJob_back.
    + rewrite (proj2 (Z.eqb_neq _ _)) by apply Hv. by apply Job_back.
Qed.

Lemma stops_ws w : ws w -> stops w.
Proof. intros Hw. rewrite <-(app_empty_r w). by apply ws_stops. Qed.
Lemma object_stops members : stops (compact (JObj members)).
Proof. unfold compact. cbn [print]. unfold enclosed. destruct (map _ members); by repeat split. Qed.

(** A member that is no field of a job. *)
Definition unknown_member (members : list (string * json)) : Prop :=
  exists k j, (k, j) ∈ members /\
    field_shape (match job_shape with Fields fields => fields | Plain => [] end) k = None.

Lemma unknown_refused members : unknown_member members -> known job_shape (JObj members) = false.
Proof.
  intros (k & j & Hin & Hk). unfold job_shape in *. cbn [known]. apply not_true_iff_false. intros H.
  rewrite forallb_forall in H. apply list_elem_of_In in Hin. specialize (H _ Hin). cbn [fst snd] in H. by rewrite Hk in H.
Qed.

(** C37: what a strict body must be.  A job the server printed (in either shape), sent as the
    body of a request with the JSON media type and at most the accepted length, is
    decoded to the job (in the v1 shape, to its v1 fields).  The same with a member
    that is no field of a job, or followed by a second object, is refused, as is
    any body under another media type. *)
Theorem job_body_strict float64_ok media job r w members other :
  let decoder := production_decoder float64_ok media in
  let body_is body := req_body r = body /\ (str_len body <= maxJSONBody)%Z in
  printable job -> ws w -> media (req_contentType r) = Ok "application/json" ->
  (body_is (compact (MarshalJSON job) +:+ w) -> decodeStrictJSON decode_job r = Ok (sent_back job)) /\
  (fine maxNestingDepth (JObj members) -> unknown_member members -> body_is (compact (JObj members) +:+ w) ->
     exists e, decodeStrictJSON decode_job r = Err e /\ handleDecodeError e = writeAPIError 400 "invalid_json" "invalid JSON request") /\
  (fine maxNestingDepth (JObj other) -> body_is (compact (MarshalJSON job) +:+ w +:+ compact (JObj other)) ->
     exists e, decodeStrictJSON decode_job r = Err e /\ handleDecodeError e = writeAPIError 400 "invalid_json" "invalid JSON request") /\
  (forall r2, media (req_contentType r2) <> Ok "application/json" ->
     exists e, decodeStrictJSON decode_job r2 = Err e /\ resp_status (handleDecodeError e) = 415%Z).
Proof.
  intros decoder body_is Hjob Hw Hmedia.
  assert (forall body, body_is body -> decodeStrictJSON decode_job r =
    match strict job_shape dec_Job zeroJob body with
    | Err e => Err (ErrWrap "decode JSON: " e "")
    | Ok (v, rest) =>
        match production_decode_any float64_ok rest with
        | Ok _ => Err (ErrNew "request body must contain one JSON value")
        | Err e => if errors_Is e "EOF" then Ok v else Err (ErrWrap "decode JSON trailer: " e "")
        end
    end) as Hdecode.
  { intros body [Hb Hl]. unfold decodeStrictJSON. cbn [ParseMediaType decoder production_decoder]. rewrite Hmedia, Hb.
    cbn [negb]. assert (str_len body >? maxJSONBody = false)%Z as -> by (rewrite Z.gtb_ltb; apply Z.ltb_ge; exact Hl).
    cbn [decode_job decode_any decoder production_decoder negb]. change (string_eqb _ _) with true. cbn iota.
    destruct (strict _ _ _ body) as [[v rest]|e]; [|done]. by destruct (production_decode_any float64_ok rest); rewrite ?andb_true_r. }
  split; [|split; [|split]].
  - intros H. rewrite (Hdecode _ H), printed_job by (done || by apply stops_ws).
    unfold production_decode_any. by rewrite next_blank.
  - intros Hfine Hunknown H. rewrite (Hdecode _ H). unfold strict. rewrite next_compact by (done || by apply stops_ws).
    unfold mbind, result_bind. destruct (dec_Job (JObj members) zeroJob) as [a ok]. rewrite unknown_refused by done.
    rewrite andb_false_r. by eexists.
  - intros Hfine H. rewrite (Hdecode _ H), printed_job; [|done|].
    + unfold production_decode_any. rewrite <-(app_empty_r (compact (JObj other))), next_printed by done.
      unfold mbind, result_bind. destruct (numbers_ok _ _); by eexists.
    + apply ws_stops; [done|apply object_stops].
  - intros r2 H. unfold decodeStrictJSON. cbn [ParseMediaType decoder production_decoder].
    destruct (media (req_contentType r2)) as [m|]; [|by eexists]. destruct (string_eqb m "application/json") eqn:E; [|by eexists].
    apply string_eqb_true in E. by subst m.
Qed.

(** ** Witness *)

Definition demo_media (contentType : string) : result string :=
  if HasPrefix contentType "application/json" then Ok "application/json" else Ok contentType.
Definition demo_request (body : string) : Request := MkRequest MethodPost "/api/v1/jobs" "application/json; charset=utf-8" "" "" body.

Lemma job_body_strict_witness :
  let decoder := production_decoder (fun _ => true) demo_media in
  decodeStrictJSON decode_job (demo_request (compact (MarshalJSON demo_json_job) +:+ newline)) = Ok demo_json_job /\
  (exists e, decodeStrictJSON decode_job (demo_request (compact (JObj [("owner", JNull)]) +:+ newline)) = Err e /\
     handleDecodeError e = writeAPIError 400 "invalid_json" "invalid JSON request").
Proof.
  pose proof (conj (job_encodable_fields _ demo_json_encodable) (or_intror demo_json_encodable) : printable demo_json_job) as Hp.
  split.
  - apply (job_body_strict (fun _ => true) demo_media demo_json_job
      (demo_request (compact (MarshalJSON demo_json_job) +:+ newline)) newline [] []); [exact Hp|done|done|].
    split; [done|]. vm_compute. discriminate.
  - destruct (job_body_strict (fun _ => true) demo_media demo_json_job
      (demo_request (compact (JObj [("owner", JNull)]) +:+ newline)) newline [("owner", JNull)] [] Hp eq_refl eq_refl) as (_ & H & _).
    apply H.
    + apply (fine_within 1); [|done]. apply (struct_fine 0 [("owner", Some JNull)]); [done|].
      constructor; [|constructor]. split; [by apply utf8_ascii|by split].
    + exists "owner", JNull. split; [by left|reflexivity].
    + split; [done|]. vm_compute. discriminate.
Defined.
