(* ===== verification/Main.v ===== *)
(** * The process ([main] of [main.go])

    What the program does from its start to its exit status: the health check, the
    configuration, the start of the application, the wait for a signal or for the
    server to fail, and the shutdown.  What the server and the triggers do in
    between is an argument.  The standard output is not modelled. *)

From S2P Require Import Prelude GoStrings Model LogBuffer AtomicFile JobRepository HostCommand Capabilities ExecutionPlan.
From S2P Require Import RunService RunServiceProofs RunServiceSpec Scheduler SchedulerProofs WatchManager WatchManagerProofs WatchSteps.
From S2P Require Import HostFiles PersistentScheduler PersistentProofs App AppProofs ShutdownProofs History Auth Secrets WebRoutes.

(** ** Stopping the processes before a deadline *)

Definition errDeadline : goerror := ErrVar "context deadline exceeded".

(** [http.Server.Shutdown]: [active] has for each request under way how long it
    still takes; [None] never ends by itself.  The time it takes, and its error. *)
Definition ends_within (limit : Z) (request : option Z) : bool :=
  match request with Some t => (t <? limit)%Z | None => false end.
Definition Shutdown (limit : Z) (active : list (option Z)) : Z * option goerror :=
  if forallb (ends_within limit) active then (fold_right Z.max 0%Z (omap id active), None) else (limit, Some errDeadline).

(** What stopping a process group meets: whether the run has ended, how long it
    takes to end once told, and the error its control had. *)
Record GroupEnd := MkGroupEnd { ge_finished : bool; ge_takes : Z; ge_error : option goerror }.

(** The cases of the first [select] of [executionHandle.Stop]: the run is done,
    the request is taken, the context has ended.  Of several that are ready it takes
    any; [choice] says which. *)
Inductive StopCase := StopDone | StopRequested | StopDeadline.
Definition stop_ready (left : Z) (g : GroupEnd) : list StopCase :=
  (if ge_finished g then StopDone else StopRequested) :: (if (left <=? 0)%Z then [StopDeadline] else []).
Definition stop_case (choice : nat) (left : Z) (g : GroupEnd) : StopCase :=
  let ready := stop_ready left g in nth (choice mod length ready) ready StopRequested.

(** The error of [Stop], and the time left after it. *)
Definition stop_result (left : Z) (g : GroupEnd) (c : StopCase) : option goerror * Z :=
  match c with
  | StopDone => (ge_error g, left)
  | StopDeadline => (Some errDeadline, left)
  | StopRequested => if (ge_takes g <? left)%Z then (ge_error g, (left - ge_takes g)%Z) else (Some errDeadline, Z.min left 0)
  end.

(** Stopping the process group of a run.  The state is the time left of the
    shutdown's context and what was done to each group so far. *)
Definition StopLog : Type := list (string * (StopCase * option goerror)).
Definition group_stop (groups : string -> GroupEnd) (choice : string -> nat) (id : string) (t : Z * StopLog) :
    option goerror * (Z * StopLog) :=
  let (left, log) := t in
  let c := stop_case (choice id) left (groups id) in
  let (err, left) := stop_result left (groups id) c in
  (err, (left, log ++ [(id, (c, err))])).

Definition shutdownTimeout : Z := 20 * second.

(** ** The process *)

Inductive Wake := Signalled | ServeEnded (err : option goerror).
Definition serve_error (w : Wake) : list string :=
  match w with
  | ServeEnded (Some e) => if errors_Is e "http: Server closed" then [] else ["HTTP server error: " +:+ error_text e]
  | _ => []
  end.

Section Main.
Context {W E V N : Type} `{!HostCommandRunner (FS * W)} `{!CronEngine E} `{!WatchHost V} `{!JobCodec} `{!Crypto} `{!SettingsLib N}.

(** How the process ended: its status, what it wrote to the standard error, the
    application it left, and what was done to each process group. *)
Record Ending := MkEnding {
  End_code : Z; End_stderr : list string; End_app : option (App.App E V);
  End_stops : StopLog
}.

(** What the shutdown meets: why the wait ended, the requests under way, the groups. *)
Record Served := MkServed {
  srv_wake : Wake; srv_app : App.App E V; srv_state : FS * W; srv_active : list (option Z);
  srv_groups : string -> GroupEnd; srv_choice : string -> nat; srv_now : Z
}.

(** The context of the shutdown is that of [http.Server.Shutdown] first and then,
    with the time that is left, that of [App.Close]. *)
Definition shutdown (s : Served) : Ending * (FS * W) :=
  let (elapsed, _) := Shutdown shutdownTimeout (srv_active s) in
  let '(err, app, (_, stops)) :=
    App.Close (srv_now s) (group_stop (srv_groups s) (srv_choice s)) (srv_app s) ((shutdownTimeout - elapsed)%Z, []) in
  (MkEnding 0 (serve_error (srv_wake s) ++ match err with Some e => ["shutdown error: " +:+ error_text e] | None => [] end)
     (Some app) stops, srv_state s).

(** [args] without the name of the program, [getenv] the environment, [health] the
    answer of the health endpoint at a URL, [key] and [buf] random bytes. *)
Context (args : list string) (getenv : string -> string) (health : string -> result Z).
Context (key : string) (buf : result string) (stamp : string) (now : Z) (engine : E) (watchHost : V).
Context (serve : string -> NotifySettings -> App.App E V -> FS * W -> Served).

Definition stopped (code : Z) (message : string) : Ending := MkEnding code [message] None [].

Definition run_server (s : FS * W) : Ending * (FS * W) :=
  match parseFileOwner (env (getenv "SB_UID") "1000") (env (getenv "SB_GID") "1000") with
  | Err e => (stopped 2 ("SyncBridge configuration error: " +:+ error_text e), s)
  | Ok owner =>
      let dataDir := env (getenv "SB_DATA") "/config" in
      let (secretKey, s) := files_ (loadSecret (getenv "SB_SECRET") dataDir key owner) s in
      let (settings, s) := files_ (loadSettings dataDir (MkNotifySettings "" false)) s in
      match NewProductionApp dataDir owner buf stamp now engine watchHost s with
      | (Err e, s) => (stopped 1 ("SyncBridge startup error: " +:+ error_text e), s)
      | (Ok app, s) =>
          shutdown (serve (match secretKey with Ok k => k | Err _ => "" end)
                          (match settings with Ok v => v | Err _ => MkNotifySettings "" false end) app s)
      end
  end.

Definition is_healthcheck : bool := match args with [arg] => string_eqb arg "healthcheck" | _ => false end.

Definition main (s : FS * W) : Ending * (FS * W) :=
  if is_healthcheck then
    match checkHealth (health (health_url (getenv "SB_PORT"))) with
    | Err e => (stopped 1 ("SyncBridge healthcheck failed: " +:+ error_text e), s)
    | Ok _ => (MkEnding 0 [] None [], s)
    end
  else run_server s.
End Main.
Arguments Served _ _ _ : clear implicits.
Arguments Ending _ _ : clear implicits.

(** ** Stopping in time, and too late *)

(** What is done to the groups that are stopped one after another. *)
Fixpoint stop_groups (groups : string -> GroupEnd) (choice : string -> nat) (left : Z) (ids : list string) : StopLog :=
  match ids with
  | [] => []
  | id :: ids =>
      let c := stop_case (choice id) left (groups id) in
      let (err, left) := stop_result left (groups id) c in
      (id, (c, err)) :: stop_groups groups choice left ids
  end.

Lemma calls_group_stop groups choice ids : forall left log, (calls (group_stop groups choice) ids (left, log)).2.2 = log ++ stop_groups groups choice left ids.
Proof.
  induction ids as [|id ids IH]; intros left log; cbn [calls stop_groups]; [by rewrite app_nil_r|]. cbn [group_stop].
  destruct (stop_result _ _ _) as [err left']. specialize (IH left' (log ++ [(id, (stop_case (choice id) left (groups id), err))])).
  destruct (calls _ ids _) as [answers after]. cbn in *. by rewrite IH, <-(assoc_L app).
Qed.

Lemma stop_groups_ids groups choice ids : forall left, (stop_groups groups choice left ids).*1 = ids.
Proof.
  induction ids as [|id ids IH]; intros left; cbn [stop_groups]; [done|]. destruct (stop_result _ _ _) as [err left']. cbn. by rewrite IH.
Qed.

Definition total_takes (groups : string -> GroupEnd) (ids : list string) : Z :=
  fold_right (fun id t => (Z.max 0 (ge_takes (groups id)) + t)%Z) 0%Z ids.

Lemma total_takes_pos groups ids : (0 <= total_takes groups ids)%Z.
Proof. induction ids as [|id ids IH]; [done|]. change (0 <= Z.max 0 (ge_takes (groups id)) + total_takes groups ids)%Z. lia. Qed.

Lemma stop_in_time groups choice ids : forall left, (total_takes groups ids < left)%Z ->
  forall id, id ∈ ids -> exists c, c <> StopDeadline /\ (id, (c, ge_error (groups id))) ∈ stop_groups groups choice left ids.
Proof.
  induction ids as [|x ids IH]; intros left Hleft id Hid; [by apply elem_of_nil in Hid|]. cbn [stop_groups].
  pose proof (total_takes_pos groups ids) as Hpos. change (Z.max 0 (ge_takes (groups x)) + total_takes groups ids < left)%Z in Hleft.
  assert (exists c : StopCase, stop_case (choice x) left (groups x) = c /\ c <> StopDeadline /\
    exists left', stop_result left (groups x) c = (ge_error (groups x), left') /\ (total_takes groups ids < left')%Z) as (c & -> & Hc & left' & -> & Hl').
  { unfold stop_case, stop_ready. rewrite (proj2 (Z.leb_gt left 0)) by lia. cbn [length app]. rewrite Nat.mod_1_r. cbn [nth].
    destruct (ge_finished (groups x)); eexists; (split; [reflexivity|]); (split; [done|]); cbn [stop_result].
    - eexists. split; [reflexivity|]. lia.
    - rewrite (proj2 (Z.ltb_lt _ left)) by lia. eexists. split; [reflexivity|]. lia. }
  apply elem_of_cons in Hid as [->|Hid]; [exists c; split; [done|by left]|].
  destruct (IH left' Hl' id Hid) as (c' & Hc' & Hin). exists c'. split; [done|by right].
Qed.

(** After the deadline every group may be left alone. *)
Lemma stop_too_late groups ids : forall left, (left <= 0)%Z ->
  stop_groups groups (fun _ => 1%nat) left ids = map (fun id => (id, (StopDeadline, Some errDeadline))) ids.
Proof.
  assert (forall left g, (left <= 0)%Z -> stop_case 1 left g = StopDeadline) as Hcase.
  { intros left g Hl. unfold stop_case, stop_ready. by rewrite (proj2 (Z.leb_le left 0)). }
  induction ids as [|x ids IH]; intros left Hleft; [done|]. cbn [stop_groups map]. rewrite Hcase by done.
  cbn [stop_result]. by rewrite IH.
Qed.


Lemma Shutdown_time limit active : (0 < limit)%Z ->
  if forallb (ends_within limit) active then ((Shutdown limit active).1 < limit)%Z else (Shutdown limit active).1 = limit.
Proof.
  intros Hl. unfold Shutdown. destruct (forallb (ends_within limit) active) eqn:E; [|done]. cbn [fst].
  induction active as [|r active IH]; [done|]. cbn [forallb] in E. apply andb_true_iff in E as [Hr E]. specialize (IH E).
  destruct r as [t|]; [|done]. cbn [ends_within] in Hr. bool_simpl. change (Z.max t (fold_right Z.max 0%Z (omap id active)) < limit)%Z. lia.
Qed.

(** ** Properties *)

Section MainProofs.
Context {W E V N : Type} `{!HostCommandRunner (FS * W)} `{!CronEngine E} `{!WatchHost V} `{!JobCodec} `{!Crypto} `{!SettingsLib N}.

Lemma started_runs configDir owner buf stamp now (engine : E) (watchHost : V) (s : FS * W) app s' :
  NewProductionApp configDir owner buf stamp now engine watchHost s = (Ok app, s') -> App_Runs app = NewRunService log_limits.
Proof.
  unfold NewProductionApp. destruct (string_eqb configDir ""); [done|]. intros Hs.
  do 5 (apply SE_bind_Ok in Hs as (? & ? & _ & Hs)). cbv zeta in Hs.
  apply SE_bind_Ok in Hs as ([err app0] & s6 & Hrec & Hs). destruct err; [done|]. injection Hs as -> ->.
  unfold reconcileTriggers in Hrec. cbn in Hrec.
  destruct (Scheduler.Reconcile _ _ _) as [[err1 sch] e]. destruct (WatchManager.Reconcile _ _ _) as [[err2 m] v].
  apply SE_bind_Ok in Hrec as (r & s7 & _ & Hrec). by injection Hrec as _ <- _.
Qed.

(** A group was told to stop, or its run had ended: the error is its own. *)
Definition stopped_group (groups : string -> GroupEnd) (stops : StopLog) (id : string) : Prop :=
  exists c, c <> StopDeadline /\ (id, (c, ge_error (groups id))) ∈ stops.

(** A shutdown is orderly when it leaves status 0 and an application that starts no
    more runs; when the groups it stopped are those of the runs that were running, each
    once; when every run that is left is final, or was told to stop while it was being
    started, or is running and its group is one of these; and when, if the requests
    under way and the groups end within the time there is, every one of these groups
    was told, or had ended, and gave its own error. *)
Definition orderly (served : Served W E V) (ending : Ending E V) : Prop :=
  let before := App_Runs (srv_app served) in
  let stopped := (End_stops ending).*1 in
  End_code ending = 0%Z /\
  (NoDup stopped /\ forall id, id ∈ stopped <-> exists r, sv_runs before !! id = Some r /\ is_running r /\ rs_handle r = true) /\
  (exists app', End_app ending = Some app' /\ silenced app' /\
     forall id r, sv_runs (App_Runs app') !! id = Some r -> told stopped id r) /\
  (forallb (ends_within shutdownTimeout) (srv_active served) = true ->
     ((Shutdown shutdownTimeout (srv_active served)).1 + total_takes (srv_groups served) stopped < shutdownTimeout)%Z ->
     forall id, id ∈ stopped -> stopped_group (srv_groups served) (End_stops ending) id).

Lemma shutdown_stops (served : Served W E V) limits : reachable limits (App_Runs (srv_app served)) ->
  let ending := (shutdown served).1 in
  End_stops ending = stop_groups (srv_groups served) (srv_choice served)
    (shutdownTimeout - (Shutdown shutdownTimeout (srv_active served)).1) (with_process (srv_now served) (App_Runs (srv_app served))) /\
  End_code ending = 0%Z /\ (shutdown served).2 = srv_state served /\
  exists app', End_app ending = Some app' /\ silenced app' /\
    forall id r, sv_runs (App_Runs app') !! id = Some r -> told (with_process (srv_now served) (App_Runs (srv_app served))) id r.
Proof.
  intros Hr. unfold shutdown. destruct (Shutdown shutdownTimeout (srv_active served)) as [elapsed e]. cbn [fst]. cbv zeta.
  set (t := ((shutdownTimeout - elapsed)%Z, [])).
  pose proof (Close_cases limits (srv_now served) (group_stop (srv_groups served) (srv_choice served)) (srv_app served) t Hr) as Hc.
  match goal with |- context [App.Close ?n ?h ?a t] => destruct (App.Close n h a t) as [[err app'] [left stops]] end. cbv zeta in Hc. subst t.
  pose proof (calls_group_stop (srv_groups served) (srv_choice served) (with_process (srv_now served) (App_Runs (srv_app served)))
    (shutdownTimeout - elapsed) []) as Hlog.
  destruct (calls _ _ _) as [answers after]. destruct Hc as (Hs & Ht & <- & _). cbn in Hlog |- *. subst stops.
  split; [done|]. split; [done|]. split; [done|]. by exists app'.
Qed.

Lemma shutdown_orderly (served : Served W E V) limits : reachable limits (App_Runs (srv_app served)) ->
  orderly served (shutdown served).1 /\ (shutdown served).2 = srv_state served.
Proof.
  intros Hr. destruct (shutdown_stops served limits Hr) as (Hstops & Hcode & Hst & Happ). split; [|done].
  assert ((End_stops (shutdown served).1).*1 = with_process (srv_now served) (App_Runs (srv_app served))) as Hids
    by (rewrite Hstops; apply stop_groups_ids).
  unfold orderly. rewrite Hids. split; [done|]. split; [|split; [done|]].
  - apply with_process_runs. by eapply reachable_inv.
  - intros _ Ht id Hid. rewrite Hstops. apply stop_in_time; [lia|done].
Qed.

(** A stream that stays open holds the server until the deadline, and then a group
    need not be told at all: the process ends with status 0 and leaves it running. *)
Lemma stream_outlives_shutdown (served : Served W E V) limits :
  reachable limits (App_Runs (srv_app served)) ->
  None ∈ srv_active served -> srv_choice served = (fun _ => 1%nat) ->
  let ending := (shutdown served).1 in
  End_code ending = 0%Z /\
  End_stops ending = map (fun id => (id, (StopDeadline, Some errDeadline))) (with_process (srv_now served) (App_Runs (srv_app served))).
Proof.
  intros Hr Hin Hc. destruct (shutdown_stops served limits Hr) as (Hstops & Hcode & _). split; [done|].
  rewrite Hstops, Hc. apply stop_too_late. pose proof (Shutdown_time shutdownTimeout (srv_active served) eq_refl) as Ht.
  destruct (forallb (ends_within shutdownTimeout) (srv_active served)) eqn:Hf; [|lia].
  rewrite forallb_forall in Hf. apply list_elem_of_In in Hin. by specialize (Hf _ Hin).
Qed.
End MainProofs.

(** C6: how the process ends.  The health check touches nothing and its status says
    whether the endpoint answered with 2xx; an owner that is no pair of non-negative
    numbers ends the process with status 2 before anything is touched; a start that
    fails ends it with status 1, as only that does.  Otherwise it ends with 0: the
    triggers are silenced and no run waits, [App.Close] stopped the process group of
    exactly the runs that were running, each once, and every run it leaves is final, or
    was told to stop while it was being started, or is running and its group is one of
    these; when the requests under way and the process groups end within twenty seconds
    together, every one of these groups was told, or had ended, and its own error is
    what counts. *)
Theorem main_ends {W E V N : Type} `{!HostCommandRunner (FS * W)} `{!CronEngine E} `{!WatchHost V} `{!JobCodec} `{!Crypto} `{!SettingsLib N}
    args getenv health key buf stamp now (engine : E) (watchHost : V)
    (serve : string -> NotifySettings -> App.App E V -> FS * W -> Served W E V) (s : FS * W) :
  (forall k v app st, reachable log_limits (App_Runs app) -> reachable log_limits (App_Runs (srv_app (serve k v app st)))) ->
  let (ending, s') := main args getenv health key buf stamp now engine watchHost serve s in
  let owner := parseFileOwner (env (getenv "SB_UID") "1000") (env (getenv "SB_GID") "1000") in
  if is_healthcheck args then
    s' = s /\ End_app ending = None /\
    End_code ending = (if is_Ok (checkHealth (health (health_url (getenv "SB_PORT")))) then 0%Z else 1%Z)
  else match owner with
  | Err _ => End_code ending = 2%Z /\ s' = s /\ End_app ending = None
  | Ok _ =>
      let start := NewProductionApp (env (getenv "SB_DATA") "/config") (match owner with Ok o => o | Err _ => process_owner end)
                     buf stamp now engine watchHost in
      (exists s0 e, start s0 = (Err e, s') /\ End_code ending = 1%Z /\ End_app ending = None) \/
      exists k v s0 app st, start s0 = (Ok app, st) /\
        orderly (serve k v app st) ending /\ s' = srv_state (serve k v app st)
  end.
Proof.
  intros Hserve. unfold main. destruct (is_healthcheck args).
  { by destruct (checkHealth _). }
  unfold run_server. destruct (parseFileOwner _ _) as [owner|e]; [|done].
  destruct (files_ _ s) as [k s1]. destruct (files_ _ s1) as [v s2].
  destruct (NewProductionApp _ _ _ _ _ _ _ s2) as [[app|e] s3] eqn:Es; [|left; by exists s2, e].
  pose proof Es as Hstart. apply started_runs in Es. match goal with |- context [serve ?k ?v app s3] => set (k0 := k); set (v0 := v) end.
  pose proof (shutdown_orderly (serve k0 v0 app s3) log_limits) as Hs. specialize (Hserve k0 v0 app s3). rewrite Es in Hserve.
  specialize (Hs (Hserve (reachable_new log_limits))). destruct (shutdown (serve k0 v0 app s3)) as [ending s']. right.
  exists k0, v0, s2, app, s3. split; [exact Hstart|exact Hs].
Qed.

(** ** Witness *)

#[local] Existing Instance demo_run_host.
#[local] Instance demo_hash : Crypto.
Proof. refine {| Sum256 s := s; Seal key nonce plain := plain; Open_ key nonce sealed := Some sealed |}. reflexivity. Defined.

Definition demo_env (name : string) : string := if string_eqb name "SB_DATA" then "/data" else "".
#[local] Instance demo_settings : SettingsLib unit.
Proof.
  refine {| unmarshal_settings t s := s; marshal_settings s := ""; decode_settings t := Err (ErrNew "json");
            post_notify _ _ _ n := (Ok 200%Z, n); settings_encodable s := False |}. done.
Defined.

(** The thread of the one run at a phase, and a run that got its process. *)
Definition demo_at (phase : exec_phase) (s : RunService) : RunService := set_execs (fun _ => [("a", phase)]) s.
Definition demo_begun : RunService := demo_start "a" (NewRunService log_limits).
Definition demo_reserved : RunService := 
  set_runs (fun runs => match runs !! "a" with Some r => <["a" := set_starting r]> runs | None => runs end) demo_begun.
Definition demo_plan : ExecutionPlan :=
  MkExecutionPlan "a" 7 3 RunOriginManual false 5 ActionSync "" "" "" (Action_Sync (Job_Action demo_queue_job)) [] (Job_Identity demo_queue_job) [] "" 0 0 0
    "/wrapper" "" "" "" zeroTools [].
Definition demo_active : RunService := demo_at (EWait false) (started 0 "a" demo_plan (demo_at (EStarted demo_plan) demo_reserved)).2.
Lemma demo_move s s' p q : reachable log_limits (demo_at p s) -> exec_step "a" p (demo_at p s) (Some q) (demo_at p s') ->
  reachable log_limits (demo_at q s').
Proof. intros Hs Hx. eapply reachable_step; [exact Hs|]. exact (step_exec (demo_at p s) 0 "a" p (Some q) (demo_at p s') eq_refl Hx). Qed.

Lemma demo_active_reachable : reachable log_limits demo_active.
Proof.
  assert (reachable log_limits (demo_at EBegin demo_begun)) as H.
  { apply (reachable_step _ (NewRunService log_limits)); [constructor|]. apply (demo_start_step "a").
    split; [done|]. split_and!; cbn; apply not_elem_of_nil. }
  eapply demo_move in H; [|by apply x_begin].
  eapply demo_move in H; [|exact (x_compile "a" _ _ _ (Ok demo_plan))].
  eapply demo_move in H; [|exact (x_compiled "a" _ (Ok demo_plan))].
  eapply demo_move in H; [|exact (x_install "a" _ demo_plan (Ok "/wrapper"))].
  eapply demo_move in H; [|exact (x_installed "a" _ (Ok demo_plan))].
  eapply (demo_move demo_begun demo_reserved) in H; [|exact (x_reserve "a" (demo_at (EReserve demo_plan) demo_begun) demo_plan _ eq_refl eq_refl)].
  eapply demo_move in H; [|exact (x_starting "a" _ demo_plan (Ok tt))].
  eapply (demo_move demo_reserved (started 0 "a" demo_plan (demo_at (EStarted demo_plan) demo_reserved)).2) in H;
    [|exact (x_started "a" _ demo_plan 0)]. exact H.
Qed.

(** A signal comes at once, with the run at work and one request under way for a
    second. *)
Definition demo_serve (k : string) (v : NotifySettings) (app : App.App demo_engine unit) (st : FS * unit) : Served unit demo_engine unit :=
  MkServed Signalled
    (MkApp (App_Jobs app) demo_active (App_Scheduler app) (App_Engine app) (App_Watches app) (App_WatchHost app)
       (App_CapabilityReport app) (App_instanceID app))
    st [Some second] (fun _ => MkGroupEnd false second None) (fun _ => 1%nat) 9.

Definition demo_main : Ending demo_engine unit * (FS * unit) :=
  main [] demo_env (fun _ => Ok 200%Z) "0123456789abcdef0123456789abcdef" (Ok "0123456789abcdef") "20260101T000000.000000000Z" 0
    demo_empty tt demo_serve (w_fs JobRepository.demo_start, tt).

Lemma main_ends_witness :
  (End_stops demo_main.1).*1 = ["a"] /\ stopped_group (fun _ => MkGroupEnd false second None) (End_stops demo_main.1) "a".
Proof.
  assert ((End_stops demo_main.1).*1 = ["a"]) as Hids by (vm_compute; reflexivity). split; [exact Hids|].
  assert (End_code demo_main.1 = 0%Z) as Hcode by (vm_compute; reflexivity).
  pose proof (main_ends [] demo_env (fun _ => Ok 200%Z) "0123456789abcdef0123456789abcdef" (Ok "0123456789abcdef")
    "20260101T000000.000000000Z" 0 demo_empty tt demo_serve (w_fs JobRepository.demo_start, tt)
    (fun _ _ _ _ _ => demo_active_reachable)) as Hm.
  fold demo_main in Hm. destruct demo_main as [ending s']. cbn [fst] in *.
  change (is_healthcheck []) with false in Hm. change (parseFileOwner _ _) with (Ok (MkFileOwner 1000 1000)) in Hm. cbv zeta iota in Hm.
  destruct Hm as [(s0 & e & _ & Hc & _)|(k & v & s0 & app & st & _ & Ho & _)].
  - rewrite Hcode in Hc. discriminate Hc.
  - destruct Ho as (_ & _ & _ & Ht). rewrite Hids in Ht. apply Ht; [reflexivity|reflexivity|by left].
Defined.
