(* ===== verification/TriggerOrder.v ===== *)
(** * Handlers at the same time ([api_v1_jobs.go], [api_legacy.go])

    A handler that changes a job works in three critical sections: the operation of
    the repository, the list of all jobs, and the reconciliation of a trigger
    component with that list.  No lock spans them, so the sections of several
    handlers interleave.  The schedules follow the list that was reconciled last,
    which need not be the newest one. *)

From S2P Require Import Prelude GoStrings Model LogBuffer AtomicFile JobRepository HostCommand Capabilities ExecutionPlan RunService.
From S2P Require Import JobJson JobJsonProofs Scheduler SchedulerProofs WatchManager WatchManagerProofs HostFiles PersistentScheduler App AppProofs.

Section Handlers.
Context `{!JobCodec} {T : Type} (reconcile : list Job -> T -> T).

(** What the handlers share, and the list each one holds between its sections. *)
Record Shared := MkShared { sh_world : World; sh_triggers : T; sh_lists : gmap nat (list Job) }.

Inductive Section_ :=
  | Mutate (op : repo_op)     (* [a.Jobs.Create], [Update] or [Delete] *)
  | ListJobs (handler : nat)  (* [jobs := a.Jobs.List()] *)
  | Reconciles (handler : nat).  (* [Reconcile(jobs)] *)

Definition section_step (s : Shared) (x : Section_) : Shared :=
  match x with
  | Mutate op => MkShared (run_repo_op op (sh_world s)).2 (sh_triggers s) (sh_lists s)
  | ListJobs h => MkShared (sh_world s) (sh_triggers s) (<[h := JobRepository.List_ (w_repo (sh_world s))]> (sh_lists s))
  | Reconciles h =>
      match sh_lists s !! h with
      | Some jobs => MkShared (sh_world s) (reconcile jobs (sh_triggers s)) (delete h (sh_lists s))
      | None => s
      end
  end.
Definition sections (xs : list Section_) (s : Shared) : Shared := fold_left section_step xs s.

(** The sections of a handler, in its order. *)
Definition handler_sections (h : nat) (op : repo_op) : list Section_ := [Mutate op; ListJobs h; Reconciles h].

(** ** Which list was reconciled last

    How many changes of the repository came before a list: now, for each handler that
    holds one, and for the list reconciled last. *)
Record Ages := MkAges { age_now : nat; age_lists : gmap nat nat; age_last : option nat }.
Definition age_step (g : Ages) (x : Section_) : Ages :=
  match x with
  | Mutate _ => MkAges (S (age_now g)) (age_lists g) (age_last g)
  | ListJobs h => MkAges (age_now g) (<[h := age_now g]> (age_lists g)) (age_last g)
  | Reconciles h =>
      match age_lists g !! h with
      | Some n => MkAges (age_now g) (delete h (age_lists g)) (Some n)
      | None => g
      end
  end.
Definition ages (xs : list Section_) : Ages := fold_left age_step xs (MkAges 0 ∅ None).

(** The list reconciled last is the newest. *)
Definition settled (xs : list Section_) : bool := bool_decide (age_last (ages xs) = Some (age_now (ages xs))).

Variable ok : T -> Prop.
Hypothesis reconcile_ok : forall jobs t, NoDup (map Job_ID jobs) -> ok t -> ok (reconcile jobs t).

(** *** The keys of the repository *)

Lemma keeps_repo {A} (k : JobRepository -> SE World A) :
  (forall r, keys_ok (repo_jobs r) -> keeps_ world_keys (k r)) -> keeps_ world_keys (r ← get_repo; k r).
Proof. intros Hk w Hw. rewrite SE_bind_unfold. cbn. by apply Hk. Qed.

Lemma keeps_write next jobs : keys_ok jobs -> keeps_ world_keys (modify_state (set_repo next jobs)).
Proof. intros Hj w _. exact Hj. Qed.

Lemma keeps_lock {A} (m : SE World A) : keeps_ world_keys m -> keeps_ world_keys (withExclusiveFileLock m).
Proof. intros Hm. unfold withExclusiveFileLock. keeps_steps. Qed.
Lemma keeps_load : keeps_ world_keys loadLocked.
Proof. unfold loadLocked, migrateLegacyLocked, persistCandidateLocked. keeps_steps. Qed.
Lemma keeps_persist next jobs : keeps_ world_keys (persistCandidateLocked next jobs).
Proof. unfold persistCandidateLocked. keeps_steps. Qed.
#[local] Hint Resolve keeps_load keeps_persist : keeps.

Lemma keys_with jobs id job : keys_ok jobs -> Job_ID job = id -> keys_ok (<[id := job]> jobs).
Proof. intros Hj Hid. by apply map_Forall_insert_2. Qed.

Lemma op_keys op : keeps_ world_keys (run_repo_op op).
Proof.
  destruct op; cbn [run_repo_op]; unfold Create, Update, Delete, withJob;
    repeat first [solve [auto with keeps] | apply keeps_lock | apply keeps_repo; intros ? ? | apply keeps_bind; [|intros ?]
      | apply keeps_write | apply keys_with | solve [auto] | case_goal | progress cbv zeta].
  by apply map_Forall_delete.
Qed.

(** *** What the ages say *)

Record in_step (s : Shared) (g : Ages) : Prop := MkInStep {
  step_keys : world_keys (sh_world s);
  step_ok : ok (sh_triggers s);
  step_lists : forall h, match sh_lists s !! h, age_lists g !! h with
    | Some jobs, Some n => NoDup (map Job_ID jobs) /\ (n <= age_now g)%nat /\
                           (n = age_now g -> jobs = JobRepository.List_ (w_repo (sh_world s)))
    | None, None => True
    | _, _ => False
    end;
  step_last : forall n, age_last g = Some n -> (n <= age_now g)%nat /\
    (n = age_now g -> exists t, ok t /\ sh_triggers s = reconcile (JobRepository.List_ (w_repo (sh_world s))) t)
}.

Lemma in_step_next s g x : in_step s g -> in_step (section_step s x) (age_step g x).
Proof.
  intros [Hk Hok Hl Hlast]. destruct x as [op|h|h]; cbn [section_step age_step].
  - split; cbn; [by apply op_keys|done| |].
    + intros h. specialize (Hl h). destruct (sh_lists s !! h), (age_lists g !! h); try done. destruct Hl as (? & ? & _). split_and!; [done|lia|lia].
    + intros n Hn. destruct (Hlast n Hn) as [? _]. split; [lia|lia].
  - split; cbn; [done|done| |done]. intros k. destruct (decide (k = h)) as [->|Hne].
    + rewrite !lookup_insert_eq. split_and!; [by apply keys_NoDup|lia|done].
    + rewrite !lookup_insert_ne by done. apply Hl.
  - pose proof (Hl h) as Hh. destruct (sh_lists s !! h) as [jobs|], (age_lists g !! h) as [n|]; try done.
    destruct Hh as (Hnd & Hn & Hnow). split; cbn; [done|by apply reconcile_ok| |].
    + intros k. destruct (decide (k = h)) as [->|Hne]; [by rewrite !lookup_delete_eq|]. rewrite !lookup_delete_ne by done. apply Hl.
    + intros m [= <-]. split; [done|]. intros E. exists (sh_triggers s). by rewrite <-Hnow.
Qed.

Lemma in_step_all xs : forall s g, in_step s g -> in_step (sections xs s) (fold_left age_step xs g).
Proof. induction xs as [|x xs IH]; intros s g Hin; [done|]. cbn [fold_left sections]. by apply IH, in_step_next. Qed.

Lemma settled_triggers xs s :
  world_keys (sh_world s) -> ok (sh_triggers s) -> sh_lists s = ∅ -> settled xs = true ->
  NoDup (map Job_ID (JobRepository.List_ (w_repo (sh_world (sections xs s))))) /\
  exists t, ok t /\ sh_triggers (sections xs s) = reconcile (JobRepository.List_ (w_repo (sh_world (sections xs s)))) t.
Proof.
  intros Hk Hok Hl Hs. assert (in_step s (MkAges 0 ∅ None)) as H0.
  { split; cbn; [done|done| |done]. intros h. by rewrite Hl, !lookup_empty. }
  apply (in_step_all xs) in H0. destruct H0 as [Hk' _ _ Hlast]. split; [by apply keys_NoDup|].
  apply bool_decide_eq_true in Hs. by apply (Hlast _ Hs).
Qed.

(** A handler whose sections are not interrupted settles whatever came before. *)
Lemma handler_settles xs h op : settled (xs ++ handler_sections h op) = true.
Proof.
  unfold settled, ages. rewrite fold_left_app. cbn. rewrite lookup_insert_eq. cbn. by apply bool_decide_eq_true.
Qed.
End Handlers.
Arguments MkShared {T}.
Arguments sh_world {T}.
Arguments sh_triggers {T}.
Arguments sh_lists {T}.

(** ** The cron schedules *)

Section Cron.
Context `{!JobCodec} {E : Type} `{!CronEngine E} `{!CronLaws E}.

Definition reconcile_cron (jobs : list Job) (t : Scheduler * E) : Scheduler * E :=
  let '(_, s, e) := Scheduler.Reconcile jobs t.1 t.2 in (s, e).
Definition cron_ok (t : Scheduler * E) : Prop := sched_ok t.1 t.2 /\ sch_closed t.1 = false.

Lemma reconcile_cron_ok jobs t : NoDup (map Job_ID jobs) -> cron_ok t -> cron_ok (reconcile_cron jobs t).
Proof.
  intros Hnd [Hok Hopen]. pose proof (Reconcile_cases jobs t.1 t.2 Hnd Hok Hopen) as Hr. unfold reconcile_cron.
  destruct (Scheduler.Reconcile jobs t.1 t.2) as [[err s] e]. by destruct Hr as (? & ? & _).
Qed.
End Cron.

(** Handlers that interleave.  However the sections of the handlers that change
    jobs interleave, when the list reconciled last was read after the last change of
    the repository, every cron job of the repository is registered with its revision
    and schedule and no other job is, or that reconciliation failed; and a
    handler that runs undisturbed always brings this about, whatever came before. *)
Theorem settled_schedules `{!JobCodec} {E} `{!CronEngine E} `{!CronLaws E} xs (s : Shared (T := Scheduler * E)) h op :
  world_keys (sh_world s) -> cron_ok (sh_triggers s) -> sh_lists s = ∅ ->
  let follows xs :=
    let s' := sections reconcile_cron xs s in
    let jobs := JobRepository.List_ (w_repo (sh_world s')) in
    cron_ok (sh_triggers s') /\
    exists old, cron_ok old /\
      (follows_jobs jobs (sch_entries old.1) (sch_entries (sh_triggers s').1) \/
       is_Some (Scheduler.Reconcile jobs old.1 old.2).1.1 /\ sch_entries (sh_triggers s').1 = sch_entries old.1) in
  (settled xs = true -> follows xs) /\ follows (xs ++ handler_sections h op).
Proof.
  intros Hk Hok Hl follows. assert (forall ys, settled ys = true -> follows ys) as Hf; [|split; [apply Hf|apply Hf, handler_settles]].
  intros ys Hs. unfold follows. destruct (settled_triggers reconcile_cron cron_ok reconcile_cron_ok ys s Hk Hok Hl Hs) as (Hnd & t & Ht & Et).
  cbv zeta. rewrite Et. split; [by apply reconcile_cron_ok|]. exists t. split; [done|].
  set (jobs := JobRepository.List_ _) in *. destruct Ht as [Hok' Hopen].
  pose proof (Reconcile_cases jobs t.1 t.2 Hnd Hok' Hopen) as Hr. unfold reconcile_cron.
  destruct (Scheduler.Reconcile jobs t.1 t.2) as [[err s'] e']. cbn [fst snd].
  destruct Hr as (_ & _ & [[Hr _]|(He & Hr & _)]); [by left|right]. split; [|done]. by destruct err.
Qed.

(** ** A list that is out of date *)

#[local] Existing Instance production_codec.
Definition demo_shared : Shared (T := Scheduler * demo_engine) :=
  MkShared (MkWorld (MkJobRepository "/data/jobs.json" process_owner 1 ∅) (MkFS ∅ [] []) "20260101T000000.000000000Z")
    (newScheduler, demo_empty) ∅.

Definition overlapping : list Section_ :=
  let create := Mutate (OpCreate (cron_job 0 0 "5 4 * * *")) in
  [create; ListJobs 1; create; ListJobs 2; Reconciles 2; Reconciles 1].

(** Two handlers create a cron job each.  Both operations succeed, but the list of
    the first, without the second job, is reconciled last: the second job is stored
    and has no schedule. *)
Lemma stale_list_wins :
  let s := sections reconcile_cron overlapping demo_shared in
  let jobs := JobRepository.List_ (w_repo (sh_world s)) in
  map Job_ID jobs = [1%Z; 2%Z] /\ forallb (fun job => schedulerEligible job TriggerCron) jobs = true /\
  map (fun id => bool_decide (is_Some (sch_entries (sh_triggers s).1 !! id))) [1%Z; 2%Z] = [true; false] /\
  settled overlapping = false.
Proof. split_and!; vm_compute; reflexivity. Qed.

(** A third handler, undisturbed, puts it right. *)
Lemma settled_schedules_witness :
  let s := sections reconcile_cron (overlapping ++ handler_sections 3 (OpDelete 1 1)) demo_shared in
  cron_ok (sh_triggers s) /\
  map (fun id => bool_decide (is_Some (sch_entries (sh_triggers s).1 !! id))) [1%Z; 2%Z] = [false; true].
Proof.
  split; [|vm_compute; reflexivity].
  apply (settled_schedules overlapping demo_shared 3 (OpDelete 1 1)); [|split; [by apply new_scheduler_ok|done]|done].
  apply map_Forall_empty.
Defined.
