(* ===== verification/LegacyCommand.v ===== *)
(** * The commands of v1 ([main.go])

    [buildCmd], [humanSummary], [rotateBackups], [dirIsEmptyOrMissing] and
    [apiEngines] are what version 1 ran jobs with; only tests call them now.  They
    say what the jobs that are migrated used to do. *)

From S2P Require Import Prelude GoStrings Model LogBuffer AtomicFile JobRepository HostCommand ExecutionPlan History.

(** ** The command of a job

    [stamp] is the local time as [20060102-150405]. *)

Definition trim_slashes (s : string) : string := TrimByteRight slash s.
Definition backup_dir (dst stamp : string) : string := PathJoin [dst; ".sb-backup"; stamp].

Definition legacy_options (j : Job) (backup : list string) : list string :=
  when (string_eqb (Job_Compare j) "checksum") ["--checksum"] ++
  when (negb (string_eqb (Job_Bwlimit j) "")) ["--bwlimit"; TrimSuffix (Job_Bwlimit j) "B"] ++
  when (Job_Backup j) backup ++
  when (Job_MaxDel j >? 0)%Z ["--max-delete"; Itoa (Job_MaxDel j)] ++
  when (Job_SkipNew j) ["--update"] ++
  exclude_args (splitCSV (Job_Exclude j)).

Definition buildCmd (stamp : string) (j : Job) (dry : bool) : list string :=
  if string_eqb (Job_Kind j) "command" then ["sh"; "-c"; Job_Command j]
  else
    let src := trim_slashes (Job_Source j) +:+ "/" in
    let dst := trim_slashes (Job_Dest j) +:+ "/" in
    if string_eqb (Job_Engine j) "rclone" then
      let verb := if string_eqb (Job_Mode j) "mirror" then "sync" else if string_eqb (Job_Mode j) "move" then "move" else "copy" in
      ["rclone"; verb; src; dst; "--progress"; "--stats=1s"; "--stats-one-line"] ++
      legacy_options j ["--backup-dir"; backup_dir dst stamp; "--exclude"; ".sb-backup/**"] ++
      when dry ["--dry-run"]
    else
      ["rsync"; "-a"; "--info=progress2,stats2"; "--human-readable"] ++
      (if Job_SysBackup j then ["-HAX"; "--numeric-ids"; "--fake-super"] else ["--chown=1000:1000"]) ++
      when (string_eqb (Job_Mode j) "mirror") ["--delete"] ++
      when (string_eqb (Job_Mode j) "move") ["--remove-source-files"] ++
      legacy_options j ["--backup"; "--backup-dir"; backup_dir dst stamp; "--exclude"; ".sb-backup"] ++
      when dry ["--dry-run"; "--itemize-changes"] ++
      [src; dst].

(** ** What the command is said to do *)

Definition mode_text (mode : string) : string :=
  if string_eqb mode "add" then "AJOUTE les nouveaux fichiers et met à jour les modifiés (aucune suppression dans la destination)"
  else if string_eqb mode "mirror" then
    "REND la destination identique à la source (les fichiers absents de la source seront SUPPRIMÉS dans la destination)"
  else if string_eqb mode "move" then "COPIE vers la destination puis VIDE la source"
  else "".

Definition summary_line (text : string) : string := "• " +:+ text +:+ newline.
Definition summary_when (b : bool) (text : string) : string := if b then summary_line text else "".

Definition humanSummary (j : Job) (dry : bool) : string :=
  if string_eqb (Job_Kind j) "command" then summary_line ("Commande : " +:+ Job_Command j)
  else
    summary_line ("Action : " +:+ mode_text (Job_Mode j)) +:+
    summary_line ("De  : " +:+ Job_Source j) +:+
    summary_line ("Vers: " +:+ Job_Dest j) +:+
    summary_when (Job_SysBackup j)
      "BACKUP SYSTÈME FIDÈLE : propriétaires/permissions/ACL/hardlinks préservés via xattr (restaurable à l'identique)" +:+
    summary_when (string_eqb (Job_Compare j) "checksum") "Comparaison par checksum (lecture complète du contenu)" +:+
    summary_when (Job_Backup j)
      ("Corbeille de sécurité active (" +:+
       (if (Job_BackupKeep j >? 0)%Z then Itoa (Job_BackupKeep j) +:+ " dernières versions gardées" else "toutes les versions gardées") +:+ ")") +:+
    summary_when (Job_MaxDel j >? 0)%Z ("Garde-fou : abandon si plus de " +:+ Itoa (Job_MaxDel j) +:+ " suppressions") +:+
    (if dry then
       summary_line "SIMULATION : rien n'est modifié. La liste ci-dessous montre ce qui CHANGERAIT." +:+
       "  (colonnes rsync : > = à envoyer, c = créé, d = dossier, * = supprimé)" +:+ newline
     else "").

(** ** Files

    Failures to remove are ignored; what is printed is not modelled. *)

Fixpoint remove_all_of (base : string) (names : list string) : SE BackupFS unit :=
  match names with
  | [] => mret tt
  | name :: names => _ ← attempt (bk_RemoveAll base name); remove_all_of base names
  end.

Definition rotateBackups (dst : string) (keep : Z) : SE BackupFS unit :=
  if (keep <=? 0)%Z then mret tt
  else
    let base := PathJoin [dst; ".sb-backup"] in
    entries ← attempt (bk_ReadDir base);
    match entries with
    | Ok (Some entries) =>
        let dirs := (List.filter snd entries).*1 in
        if (Z.of_nat (length dirs) <=? keep)%Z then mret tt
        else remove_all_of base (take (length dirs - Z.to_nat keep) (merge_sort string_le dirs))
    | _ => mret tt
    end.

(** [open_dir]: opening the directory and reading at most one name; [io.EOF] when
    there is none. *)
Definition dirIsEmptyOrMissing (open_dir : result (result (list string))) : bool :=
  match open_dir with
  | Err _ => true
  | Ok (Err _) => true
  | Ok (Ok names) => (length names =? 0)%nat
  end.

(** [exec.LookPath] *)
Definition hasBin (look_path : string -> result string) (n : string) : bool := is_Ok (look_path n).
Definition apiEngines (look_path : string -> result string) : list (string * bool) :=
  [("rclone", hasBin look_path "rclone"); ("rsync", hasBin look_path "rsync")].

(** [atoiDef], which nothing calls. *)
Definition atoiDef (s : string) (d : Z) : Z := default d (Atoi s).

(** ** What a migrated job runs instead *)

Definition migrated_sync (j : Job) : SyncAction := Action_Sync (Job_Action (migrate_job j)).

(** The command of a migrated rsync job is the command it had, with the same options
    in the same order, except for three things: files are no longer given to
    1000:1000, the operands are kept apart by [--], and the backup directory is filled
    in when the wrapper runs. *)
Lemma migrated_command stamp j dry :
  Job_Kind j <> "command" -> Job_Engine j = "rsync" ->
  sync_bwlimit (migrated_sync j) = TrimSuffix (Job_Bwlimit j) "B" -> (Job_Bwlimit j = "" \/ TrimSuffix (Job_Bwlimit j) "B" <> "") ->
  let base := ["rsync"; "-a"; "--info=progress2,stats2"; "--human-readable"] in
  let mode := when (string_eqb (Job_Mode j) "mirror") ["--delete"] ++ when (string_eqb (Job_Mode j) "move") ["--remove-source-files"] in
  let backup dir := ["--backup"; "--backup-dir"; dir; "--exclude"; ".sb-backup"] in
  let faithful := ["-HAX"; "--numeric-ids"; "--fake-super"] in
  buildCmd stamp j dry =
    base ++ (if Job_SysBackup j then faithful else ["--chown=1000:1000"]) ++ mode ++
    legacy_options j (backup (backup_dir (trim_slashes (Job_Dest j) +:+ "/") stamp)) ++
    when dry ["--dry-run"; "--itemize-changes"] ++ [trim_slashes (Job_Source j) +:+ "/"; trim_slashes (Job_Dest j) +:+ "/"] /\
  rsync_argv (migrated_sync j) dry =
    base ++ when (Job_SysBackup j) faithful ++ mode ++
    legacy_options j (backup syncBackupDirToken) ++
    when dry ["--dry-run"; "--itemize-changes"] ++ ["--"; directoryArg (Job_Source j); directoryArg (Job_Dest j)].
Proof.
  intros Hk He Hb Hb2 base mode backup faithful. split.
  - unfold buildCmd. rewrite (proj2 (string_eqb_false _ _) Hk), He. change (string_eqb "rsync" "rclone") with false. cbv zeta iota.
    unfold base, mode, backup, faithful. by rewrite <-!app_assoc.
  - assert (migrated_sync j = MkSyncAction (Job_Engine j) (Job_Source j) (Job_Dest j) (Job_Mode j) (Job_Compare j) (Job_Bwlimit j)
      (Job_Backup j) (Job_BackupKeep j) (Job_MaxDel j) (Job_SkipNew j) (Job_SysBackup j) (Job_Exclude j)) as Hm.
    { unfold migrated_sync, migrate_job. cbv zeta. destruct j. cbn in *. rewrite (proj2 (string_eqb_false _ _) Hk). by case_goal. }
    unfold rsync_argv, legacy_options. rewrite Hb, Hm. cbn [Sync_SysBackup Sync_Mode Sync_Compare Sync_Backup Sync_MaxDel Sync_SkipNew Sync_Exclude Sync_Source Sync_Dest].
    assert (negb (string_eqb (TrimSuffix (Job_Bwlimit j) "B") "") = negb (string_eqb (Job_Bwlimit j) "")) as ->.
    { destruct Hb2 as [->|Hb2]; [done|]. rewrite (proj2 (string_eqb_false _ _) Hb2). destruct (string_eqb (Job_Bwlimit j) "") eqn:E; [|done].
      str_eqb. by rewrite E in Hb2. }
    assert ((if string_eqb (Job_Mode j) "mirror" then ["--delete"] else if string_eqb (Job_Mode j) "move" then ["--remove-source-files"] else []) = mode) as ->.
    { unfold mode. destruct (string_eqb (Job_Mode j) "mirror") eqn:E1; [|done]. str_eqb. by rewrite E1. }
    unfold base, backup, faithful. by rewrite <-!app_assoc.
Qed.

(** ** What the rotation removes *)

Definition entry_at (fs : BackupFS) (b n : string) : option bool := d ← bk_dirs fs !! b; d !! n.

Lemma remove_one_spares base x b n fs : b <> base \/ n <> x -> entry_at (bk_RemoveAll base x fs).2 b n = entry_at fs b n.
Proof.
  intros Hn. assert (forall fs1, bk_dirs fs1 = bk_dirs fs ->
    entry_at (MkBackupFS (alter (delete x) base (bk_dirs fs1)) (bk_script fs1)) b n = entry_at fs b n) as Hdel.
  { intros fs1 H1. unfold entry_at. cbn [bk_dirs]. rewrite H1. destruct (decide (b = base)) as [->|Hb]; [|by rewrite lookup_alter_ne].
    rewrite lookup_alter_eq. destruct Hn as [?|Hn]; [done|]. destruct (bk_dirs fs !! base) as [d|]; [|done]. cbn. by rewrite lookup_delete_ne. }
  unfold bk_RemoveAll. rewrite SE_bind_unfold. unfold bk_outcome. destruct (bk_script fs) as [|[e|] script]; [by apply Hdel|done|].
  by apply (Hdel (MkBackupFS (bk_dirs fs) script)).
Qed.

Lemma remove_all_spares base names b n : forall fs, b <> base \/ n ∉ names ->
  entry_at (remove_all_of base names fs).2 b n = entry_at fs b n.
Proof.
  induction names as [|x names IH]; intros fs Hn; [done|]. cbn [remove_all_of]. rewrite SE_bind_unfold. unfold attempt.
  pose proof (remove_one_spares base x b n fs) as H1. destruct (bk_RemoveAll base x fs) as [r fs1]. cbn [fst snd] in *.
  rewrite IH by (destruct Hn as [?|[_ ?]%not_elem_of_cons]; auto). apply H1. destruct Hn as [?|[? _]%not_elem_of_cons]; auto.
Qed.

(** Whatever fails, an entry that is gone was one of the oldest directories of the
    backups of that destination: those before the [keep] newest. *)
Lemma rotateBackups_spares dst keep fs entries b n :
  bk_dirs fs !! PathJoin [dst; ".sb-backup"] = Some entries ->
  entry_at (rotateBackups dst keep fs).2 b n <> entry_at fs b n ->
  let dirs := (List.filter snd (map_to_list entries)).*1 in
  b = PathJoin [dst; ".sb-backup"] /\ (0 < keep)%Z /\ n ∈ take (length dirs - Z.to_nat keep) (merge_sort string_le dirs).
Proof.
  intros He Hne dirs. unfold rotateBackups in Hne. destruct (keep <=? 0)%Z eqn:Ek; [by destruct Hne|]. bool_simpl.
  revert Hne. rewrite SE_bind_unfold. unfold attempt, bk_ReadDir. rewrite SE_bind_unfold. unfold bk_outcome.
  assert (forall fs1, bk_dirs fs1 = bk_dirs fs ->
    entry_at ((if (Z.of_nat (length dirs) <=? keep)%Z then mret tt
               else remove_all_of (PathJoin [dst; ".sb-backup"]) (take (length dirs - Z.to_nat keep) (merge_sort string_le dirs))) fs1).2 b n
      <> entry_at fs b n ->
    b = PathJoin [dst; ".sb-backup"] /\ (0 < keep)%Z /\ n ∈ take (length dirs - Z.to_nat keep) (merge_sort string_le dirs)) as Hgo.
  { intros fs1 H1. assert (entry_at fs1 b n = entry_at fs b n) as Hs by (unfold entry_at; by rewrite H1).
    destruct (_ <=? keep)%Z; [by intros []|]. intros Hne. destruct (decide (b = PathJoin [dst; ".sb-backup"])) as [->|Hb].
    - split; [done|]. split; [done|]. destruct (decide (n ∈ take (length dirs - Z.to_nat keep) (merge_sort string_le dirs))) as [|Hni]; [done|].
      destruct Hne. rewrite remove_all_spares by by right. exact Hs.
    - destruct Hne. rewrite remove_all_spares by by left. exact Hs. }
  destruct (bk_script fs) as [|[e|] script].
  - rewrite SE_bind_unfold. unfold get_state. rewrite He. apply Hgo. done.
  - by intros [].
  - rewrite SE_bind_unfold. unfold get_state. cbn [bk_dirs]. rewrite He. apply (Hgo (MkBackupFS (bk_dirs fs) script)). done.
Qed.
